(* ===== verification/_CoqProject ===== *)
-Q . S2P
Prelude.v
Types.v
Status.v
AccountManager.v
Solvency.v
World.v
SquareUp.v
Bids.v
Validate.v
Machine.v
Circuit.v
Orders.v
Queues.v
Calls.v
StandardAbi.v
Abi.v
AbiFill.v
AbiRecode.v
AbiParse.v
AbiProps.v
Vacuum.v
Invariant.v
Safety.v
Reach.v
Lifecycle.v
VacuumFacts.v
AbiRemote.v
Batches.v
Attesters.v
AttesterCalls.v
AttesterReach.v
AttesterSystem.v
AttesterRequests.v
AttesterBonds.v
Clock.v
Rewards.v
RewardsProps.v
Hooks.v
Xdns.v
XdnsCalls.v
XdnsSystem.v
XdnsProps.v
XdnsActivity.v
Samples.v
AttesterSamples.v
XdnsSamples.v
AbiSamples.v
Justification.v
JustificationFacts.v
Grandpa.v
GrandpaSystem.v
GrandpaProps.v
Portal.v
PortalProps.v
GrandpaSamples.v
Volatile.v
ContractsRegistry.v
AccountMapping.v
ThreeVm.v
Precompile3Vm.v
EvmPrecompiles.v
ThreeVmSystem.v
Maintenance.v
ThreeVmSamples.v
Gas.v
Deposits.v
WasmModule.v
ContractStore.v
Exec.v
ExecOutcomes.v
ExecSafety.v
ContractCalls.v
CallFacts.v
ContractSamples.v
