(* ===== verification/Prelude.v ===== *)
(** * Verification of the t3rn Circuit

    t3rn executes transactions whose parts (side effects, SFX) happen on other
    chains.  The Circuit, a Substrate pallet, keeps such a cross-chain
    transaction (Xtx) from the request to the settlement: executors bid for its
    side effects, the best bidders are bound, they deliver on the target chains
    and prove the delivery, and the deposits of the requester and the bonds of
    the executors are paid out, refunded or slashed.  Attesters sign batches of
    settled side effects for the target chains; every hour a round of settlements
    is turned into claims, and inflation is distributed over the roles.  A registry
    (XDNS) knows the gateways to the chains, their tokens and the interfaces of
    the side effects, and watches the light clients; the portal takes proofs of
    deliveries to the light client of a chain.  Contracts of the EVM and of WASM reach
    the Circuit through the 3VM, which counts their signals, charges the users of a
    contract in favour of its author and takes contracts from a registry.  This
    development models the Circuit, the account manager it settles with, the
    attesters, the clock, the rewards, the block hook that drives them, the registry,
    the interfaces of side effects with their recoding, the portal, the GRANDPA light
    client, the 3VM with its precompiles, the registry of contracts, the mapping of EVM
    addresses, the maintenance mode and the contracts pallet with its gas, deposits, code
    and call stack, and proves what keeps them correct.

    ** Parts of the program and where they are modelled

    - [Prelude]: the effect monad [M] over a state (success, error, trap) with
      its weakest preconditions [wp], machine integers with saturating and
      checked arithmetic, byte lists, lemmas on lists and maps.
    - [Types] ([types/src/{sfx,fsx,bid}.rs], [primitives/src/circuit/types.rs]):
      side effects, bids, transaction signals, timeouts, order origins and the
      derivation of their identifiers.
    - [Status] (same file): [CircuitStatus], its transition rules
      [check_transition] and the loops that determine a status from the side
      effects.
    - [AccountManager] ([pallets/account-manager/src/{lib,manager,monetary}.rs]):
      pending charges and settlements; the trait [AccountManager] is a class,
      [AccountManagerSpec] states what a client may rely on, and the pallet is
      proved to be an instance.  [Solvency]: the flow of value through the pallet.
    - [World] ([pallets/circuit/src/lib.rs], storage and [Config]): the storage
      maps as one record over the state [A] of the account manager and the state
      [X] of the other pallets; the class [CircuitConfig] has the operations the
      Circuit calls there.
    - [SquareUp] ([square_up/mod.rs]), [Bids] ([bids/mod.rs]), [Validate]
      ([validate] of [lib.rs]), [Machine] ([machine/{mod,extra}.rs]): deposits,
      bidding, validation, and the machine that loads a transaction, runs a
      precompile, updates the status and applies the storage changes.
    - [Circuit], [Queues], [Calls] ([lib.rs]): queries, events and confirmation;
      the work of the block hooks; the dispatchables and the local triggers.
    - [Orders] ([primitives/src/circuit/types.rs],
      [types/abi/src/evm_ingress_logs.rs]): the orders of users, their side
      effects, the packed EVM calldata and the EVM logs.
    - [Vacuum] ([pallets/circuit/vacuum/src/lib.rs]): the pallet through which
      orders reach the Circuit, from users, from the EVM and from remote chains.
    - [Batches], [Attesters], [AttesterCalls] ([pallets/attesters/src/lib.rs],
      [primitives/src/attesters.rs]): batches of attestations and the bytes that
      are signed; registration, nominations, committees, batching windows,
      repatriation and the block hook; the dispatchables.  The state is
      [AttState E] over the state [E] of the pallets it calls.
    - [Clock] ([pallets/clock/src/lib.rs], [primitives/src/common.rs]): rounds and
      the ordered set.
    - [Rewards] ([pallets/rewards/src/lib.rs], [primitives/src/claimable.rs]):
      claims, distribution of the inflation, settlements, authors and
      repatriation, over the state of the account manager; [RewardsProps]: the
      attesters as an instance of the interface the pallet reads.
    - [Hooks] ([runtime/t0rn-parachain/src/hooks.rs]): the block hook over the
      joint state of the Circuit, the clock and the rewards pallet.
    - [StandardAbi], [Abi], [AbiFill], [AbiRecode] ([types/abi/src]): the standard
      interfaces of side effects; descriptors and the types they denote; how the
      bytes of a payload in SCALE or RLP are cut along a type; the recoding from
      one to the other, and the validation of arguments and of received events.
    - [Xdns], [XdnsCalls] ([pallets/xdns/src/lib.rs], [primitives/src/xdns.rs]): the
      registry of gateways, tokens and interfaces, the overview of the light
      clients, its calls, hooks, genesis and migrations.  The state is
      [XdnsState E] over the state [E] of the pallets it calls.
    - [Justification], [Grandpa] ([finality-verifiers/grandpa/src]): finality proofs of
      GRANDPA; the pallet that imports finalised headers of a relay chain into a ring
      buffer, follows its authority sets and proves events against the headers.
    - [Portal] ([primitives/src/light_client.rs],
      [pallets/portal/src/lib.rs], [primitives/src/portal.rs]): the trait
      [LightClient] as a record of operations, the instances of the GRANDPA pallet,
      the dispatch by gateway, the registration of gateways and the precompile.
    - [Volatile] ([primitives/src/volatile.rs]): the local state of a transaction.
    - [ContractsRegistry] ([pallets/contracts-registry/src/lib.rs],
      [primitives/src/{contracts_registry,contract_metadata}.rs]): contracts with their
      authors and metadata, stored under the hash of their code and searched.
    - [AccountMapping] ([pallets/3vm/account-mapping/src/lib.rs]): claims of EVM
      addresses, and which account an address stands for.
    - [ThreeVm], [Precompile3Vm] ([pallets/3vm/src/{lib,signal,remuneration,precompile}.rs],
      [primitives/src/threevm.rs]): signals, remuneration, contracts of the registry and
      their authors; the calls contracts make, in SCALE or packed.  The state is
      [ThreeVm E] over the state [E] of the pallets behind it ([ThreeVmConfig]).
    - [EvmPrecompiles] ([pallets/evm/precompile/{vacuum,portal,3vm-dispatch}/src/lib.rs]):
      the precompiles through which an EVM contract calls the 3VM.
    - [ThreeVmSystem] ([runtime/t2rn-parachain/src/contracts_config.rs]): the class
      [ThreeVmConfig] instantiated with the models of the Circuit, the vacuum, the account
      manager, the registry of contracts, the address mapping and the portal.
    - [Maintenance] ([pallets/maintenance-mode/src/{lib,types}.rs],
      [runtime/t2rn-parachain/src/system_config.rs]): the mode, its filters and hooks.
    - [Gas], [Deposits] ([pallets/contracts/src/{gas,storage/meter}.rs]): the gas meters
      of call frames; the meters of storage deposits and how they are charged and collected.
    - [WasmModule] ([pallets/contracts/src/wasm/prepare.rs]): the validation of code.
    - [ContractStore] ([pallets/contracts/src/{storage,address,wasm/mod}.rs]): contracts,
      their tries, uploaded code with its reference counts, and the deletion queue.  The
      state is [Contracts B] over the balances [B].
    - [Exec] ([pallets/contracts/src/{exec,wasm/mod}.rs]): the stack of call frames.  A
      contract is a program over the operations of the trait [Ext] ([Prog]), which the
      engine makes from its module; a call runs the program of the callee in a transaction
      of its own, one level deeper.
    - [ContractCalls] ([pallets/contracts/src/{lib,patch3vm,chain_extension}.rs]): the
      dispatchables and the functions of the runtime API, contracts of the registry, and
      the numbers of the chain extension.

    A function of the source is a definition of the same name (prefixed where
    two files use one name, such as [square_up_kill]); a loop or a closure is a
    definition of its own when it has several lines.  An [expect] or an index
    out of range is the result [Panic]; [?] is [Err]; a dispatchable is
    [transactional] and rolls back on an error, a hook is not.

    ** What is proved

    - [Status]: the loops compute the declarative status of a step; when a
      transition is accepted, forced and unforced.
    - [Solvency]: no operation of the account manager creates value, except the
      commitment of an [EscrowUnlock] charge, which [escrow_unlock_paid_twice]
      is about; every other charge is settled once, and where its money goes.
    - [SquareUp], [Bids]: which charges a request, a bid, a kill and a
      finalization register, assign and settle, against the interface.
    - [Invariant], [Safety], [Reach]: the pallet as a transition
      system.  The storage maps stay consistent over every history, a
      transaction follows its life cycle, no hook of the timeouts traps, and a
      dispatchable returns.
    - [Lifecycle]: what the end of the bidding, a cancellation, a
      revert, the last confirmation, a submission, a confirmation and the dead
      letter queue do, and two ways in which a hook does trap.
    - [Orders], [VacuumFacts]: the decoders invert the encodings, the arguments
      of an order are those the Circuit reads back, what an order submits; what
      a bridged order mints, which transaction the bid of a deal goes to, and
      that fault proofs are never accepted, which the code does not intend.
    - [AttesterReach], [AttesterSystem]: the attesters pallet as a
      transition system.  Over every history the nominated attesters stay sorted,
      the batches numbered and signed by distinct attesters according to their
      status; batches only move forward; what an attestation and a commitment do.
      [AttesterRequests]: a requested attestation is put up for signing.
      [AttesterRequests], [AttesterBonds]: the bounds of the finality reward, the
      rotation of the committees, nominations and their release; and the ways in
      which a commitment is replayed, a bond released twice and the maximal reward
      paid every time, which the code does not intend.
    - [Clock]: the ordered set refines a set and its search ends after
      logarithmically many steps; rounds follow each other.
    - [RewardsProps]: claims are paid in full and once, a
      distribution creates no more claims than it records, settlements are
      accumulated once per round, repatriations never trap, stored numbers keep
      their widths; claims of zero block an account.
    - [Hooks]: the block hook never traps while no signal is queued, an hour closes
      the round it ends, and no round passes unprocessed.
    - [XdnsSystem], [XdnsProps], [XdnsActivity]: the registry as a
      transition system with a consistent storage; what adding a gateway and
      rebooting do, topologies that are and are not restored; reports of light
      clients, silent verifiers, timeouts, and the authorization to mint.
    - [AbiParse]: a printed descriptor is parsed to its type, and where it is not.
      [AbiProps]: payloads of the declared size are cut without loss;
      which events are accepted for a transfer on Substrate and on Ethereum, and
      on which the validation traps.  [AbiRemote]: the log of a remote order is
      read as that order, which discharges what [VacuumFacts] assumes of the
      recoding.
    - [JustificationFacts]: a justification is accepted exactly when the first votes of
      known authorities are signed, for descendants of the target, need every header
      of the ancestry and reach the threshold; two accepted ones share more than a
      third of the weight.  [GrandpaSystem], [GrandpaProps]: the
      storage of the light client always represents a finalised chain, of which the
      latest headers are kept; which submissions are imported; what a receipt of an
      event means, and what it does not.  [PortalProps]: what a registration stores,
      receipts of the portal traced to the chain of the right instance, the encoding
      of the precompile and where it reads another chain.
    - [Volatile]: the local state refines a map in which a key is written once.
      [ContractsRegistry]: the search returns exactly the contracts asked for, and where it
      traps; a stored contract is the one that was added.  [AccountMapping]: over every
      history an account and its address lead to each other, and the ways around it.
      [ThreeVm]: how often a signal is accepted, which contracts are instantiated,
      the authors.  [EvmPrecompiles]: every pointer but two is taken for an order, so that
      no signal is posted and the precompiles of the EVM agree.  [ThreeVmSystem]: a fee
      becomes a settlement of the author or goes back to the user; a signal reaches the
      queue of the Circuit.  [Maintenance]: the mode restricts the calls, the modes
      alternate, and the filter the runtimes install, which enforces nothing.
    - [Gas]: the gas a call is reported to require is enough to run it again, unless a
      contract passes on exactly what it has left.  [Deposits]: the deposit a stack of
      calls reports is what its contracts hold more, within the limit, and what the origin
      pays.  [WasmModule], [CallFacts]: which code is accepted, and that it can be run.
      [ContractStore]: the tries of terminated contracts are removed.
      [ExecOutcomes]: gas, deposits and storage after a call, successful or not.
      [ExecSafety]: no call traps as long as constructors make no calls.  [CallFacts]: a
      call from outside returns; contracts of the registry are never instantiated and the
      chain extension reaches nothing, which the code does not intend.  [ContractSamples]:
      a constructor that is entered again traps, or is paid for twice.
    - [Samples], [AttesterSamples], [XdnsSamples], [AbiSamples], [GrandpaSamples],
      [ThreeVmSamples], [ContractSamples]: toy configurations in
      which transactions are run from request to settlement, three attesters from
      registration to a committed batch, hours of the clock, a registry, and the
      logs of the tests of the source over a concrete RLP, and a light client with four
      authorities, at which the theorems with hypotheses are applied.

    ** Bounds and fuel

    Balances are [u128], weights [u64], block numbers [u32] integers in [Z];
    where the source adds with [saturating_] or [checked_] operations so does
    the model.  Recursion is structural over the lists the source iterates; the
    loop of [process_signal_queue] pops one entry per round, so the length of
    the queue is enough fuel; the binary search halves its range, and the length of
    the vector is more than enough fuel ([binary_search_terminates]).  An item of a
    vector of an interface takes a byte or is read again without end, so that one
    more than the number of bytes is enough fuel ([fill_vec_stuck]); the parser of
    descriptors is limited to the source's [MAX_DEPTH] of ten.  The walk of
    [ensure_descendant] goes on only from a header it visits first, so that one more
    than the unvisited ones is enough fuel ([descendant_loop_total]).  The loop of the
    deletion queue visits an entry once, so that the number of entries is enough; calls are
    nested at most as deep as the source's stack has frames, five above the first, which
    [run_frame_safe] shows to be enough.  The storage
    maps of the Circuit that are iterated use the [Identity] hasher: [storage_iter]
    lists their entries in ascending order of the keys.  Those of the attesters are
    iterated in the order of the hashes of their keys ([blake_iter]).  Plain [+]
    and [-] of the source wrap.

    ** What is a parameter

    The hash functions ([Hashing]); the currency and asset pallets ([Ledger],
    with the documented laws of deposits and withdrawals); gateways, light
    clients, ABIs, attesters, the clock and the treasury accounts
    ([CircuitConfig]); the recoding of logs, the token registry, the address
    mapping and the rewards ([VacuumConfig]); elliptic curves ([AttesterCrypto]); the
    reservable currency, the randomness and the pallets the attesters call
    ([AttestersConfig]); the constants of the inflation, [Perbill::from_rational] and
    the withdrawals of the treasury ([RewardsConfig]); the session pallet and the
    overview of verifiers in the registry of gateways ([RuntimeConfig]); the pallets
    the registry calls ([XdnsConfig]) and the Circuit that asks it ([CircuitReads]);
    the crate [rlp] ([RlpLib], with its round trips as [RlpLaws]); the voter sets,
    signatures and header hashes of GRANDPA ([GrandpaLib], with [GrandpaLaws], and
    [HashLinks]: no header is its own ancestor), the decoders and the tries
    ([GrandpaCodec]), the Ethereum light clients (git submodules); the hashes of
    storage keys ([TwoxHashing], [RegistryHashing]); the balances and the recovery of a
    key ([MappingConfig]); the SCALE codecs of compound types the 3VM reads and writes
    ([ThreeVmCodec]); for the contracts the currency ([ContractsCurrency], with
    [CurrencyLaws]), the hashes of keys and the removal of tries with a limit
    ([ContractsLib], with [KillLaws]), the parser and linker of wasmi ([WasmLib], with
    [LinkLaws]) and what it runs ([WasmEngine], [EngineTyped]), and weights
    ([CallWeights]).  The interfaces of
    side effects are parameters of the Circuit and of [Vacuum], which the
    definitions of [AbiRecode] instantiate.

    [calls_never_trap] and [bare_call_returns] assume that constructors make no calls
    ([QuietConstructors]); [constructor_reentry_traps] shows that something of the kind is
    needed.  Two assumptions are made on histories.  [fresh_call]: the identifier of a
    finalized transaction is not taken by a new one; [reused_id_traps] shows that it
    is needed.  [unambiguous]: no two batches of a target have the same message hash;
    [batch_message_ambiguous] shows that the message alone does not ensure more than
    distinct indices.

    ** What is not modelled

    In the contracts pallet: the host functions of [wasm/runtime.rs], which decode the
    arguments of a contract and call [Ext]; calls of the runtime, randomness, hashing and
    signatures in [Ext]; the debug buffer and recorded events of the runtime API; the
    depth limit of storage transactions; migrations and the schedule.  The EVM pallets
    besides the precompiles and the address mapping, the configuration of the runtimes, the
    nodes, the clients, the weights of extrinsics, benchmarks and mocks. *)

From Stdlib Require Import ZArith Lia.
From stdpp Require Export base gmap list strings sorting option fin_maps.

#[global] Open Scope Z_scope.
#[export] Set Warnings "-clear-no-such-hyp".

(** ** The effect monad

    A pallet function reads and writes storage, may return early with an
    error ([?]), and may trap ([expect], out-of-range index).  A failing
    function keeps what it wrote so far; the roll-back of a failed dispatchable
    is [transactional]. *)

Inductive outcome (S E A : Type) : Type :=
| Ok (a : A) (s : S)
| Err (e : E) (s : S)
| Panic.
Arguments Ok {S E A} a s.
Arguments Err {S E A} e s.
Arguments Panic {S E A}.

Definition M (S E A : Type) : Type := S → outcome S E A.

#[export] Instance M_ret {S E} : MRet (M S E) := λ A a s, Ok a s.
#[export] Instance M_bind {S E} : MBind (M S E) := λ A B f m s,
  match m s with
  | Ok a s' => f a s'
  | Err e s' => Err e s'
  | Panic => Panic
  end.

Definition throw {S E A} (e : E) : M S E A := λ s, Err e s.
Definition panic {S E A} : M S E A := λ _, Panic.
Definition gets {S E A} (f : S → A) : M S E A := λ s, Ok (f s) s.
Definition modify {S E} (f : S → S) : M S E unit := λ s, Ok tt (f s).
Definition ensure {S E} (b : bool) (e : E) : M S E unit :=
  if b then mret tt else throw e.
Definition ok_or {S E A} (o : option A) (e : E) : M S E A :=
  match o with Some a => mret a | None => throw e end.
Definition expect {S E A} (o : option A) : M S E A :=
  match o with Some a => mret a | None => panic end.

(** [map_err] is Rust's [Result::map_err]. *)
Definition map_err {S E E' A} (f : E → E') (m : M S E A) : M S E' A := λ s,
  match m s with
  | Ok a s' => Ok a s'
  | Err e s' => Err (f e) s'
  | Panic => Panic
  end.

(** [is_ok_of m]: run [m] and keep only whether it succeeded. *)
Definition is_ok_of {S E E' A} (m : M S E A) : M S E' bool := λ s,
  match m s with
  | Ok _ s' => Ok true s'
  | Err _ s' => Ok false s'
  | Panic => Panic
  end.

(** [expect_ok m]: [m.expect(..)], an error becomes a trap. *)
Definition expect_ok {S E E' A} (m : M S E A) : M S E' A := λ s,
  match m s with
  | Ok a s' => Ok a s'
  | Err _ _ => Panic
  | Panic => Panic
  end.

(** The storage layer FRAME puts around every dispatchable. *)
Definition transactional {S E A} (m : M S E A) : M S E A := λ s,
  match m s with
  | Ok a s' => Ok a s'
  | Err e _ => Err e s
  | Panic => Panic
  end.

(** An operation on a part of the state. *)
Definition zoom {S T E A} (get : S → T) (put : T → S → S) (m : M T E A) : M S E A := λ s,
  match m (get s) with
  | Ok a t => Ok a (put t s)
  | Err e t => Err e (put t s)
  | Panic => Panic
  end.

(** A total operation on a part of the state. *)
Definition run_total {S E A} (f : S → S * A) : M S E A := λ s,
  Ok (f s).2 (f s).1.

Fixpoint for_each {S E A} (l : list A) (f : A → M S E unit) : M S E unit :=
  match l with
  | [] => mret tt
  | x :: xs => f x ;; for_each xs f
  end.

(** The result of a function that touches no storage. *)
Inductive result (E A : Type) : Type :=
| ROk (a : A)
| RErr (e : E).
Arguments ROk {E A} a.
Arguments RErr {E A} e.

Definition lift_result {S E A} (r : result E A) : M S E A :=
  match r with ROk a => mret a | RErr e => throw e end.

(** [attempt m]: run [m] and keep its error as a value ([match m { .. }]). *)
Definition attempt {S E E' A} (m : M S E A) : M S E' (result E A) := λ s,
  match m s with
  | Ok a s' => Ok (ROk a) s'
  | Err e s' => Ok (RErr e) s'
  | Panic => Panic
  end.

(** A fallible update whose error is mapped with [g]. *)
Definition try_modify {S E E'} (f : S → result E' S) (g : E' → E) : M S E unit := λ s,
  match f s with ROk s' => Ok tt s' | RErr e => Err (g e) s end.

(** ** Weakest preconditions

    [wp m Q QE s]: started in [s], [m] does not trap, a success satisfies [Q]
    and an error [QE]. *)

Definition wp {S E A} (m : M S E A) (Q : A → S → Prop) (QE : E → S → Prop) (s : S) : Prop :=
  match m s with
  | Ok a s' => Q a s'
  | Err e s' => QE e s'
  | Panic => False
  end.

(** [on_ok m Q s]: a success satisfies [Q]; nothing is said of the rest. *)
Definition on_ok {S E A} (m : M S E A) (Q : A → S → Prop) (s : S) : Prop :=
  ∀ a s', m s = Ok a s' → Q a s'.

(** ** Machine integers *)

Definition u8_max : Z := 2 ^ 8 - 1.
Definition u32_max : Z := 2 ^ 32 - 1.
Definition u64_max : Z := 2 ^ 64 - 1.
Definition u128_max : Z := 2 ^ 128 - 1.

Definition checked_add (max a b : Z) : option Z :=
  if a + b <=? max then Some (a + b) else None.
Definition saturating_add (max a b : Z) : Z := Z.min max (a + b).
Definition wrap32 (a : Z) : Z := a mod 2 ^ 32.
Definition wrap64 (a : Z) : Z := a mod 2 ^ 64.
Definition wrap128 (a : Z) : Z := a mod 2 ^ 128.
Definition saturating_sub (a b : Z) : Z := Z.max 0 (a - b).

(** [Percent::mul_ceil]: [p] hundredths of [x], rounded up. *)
Definition percent_mul_ceil (p x : Z) : Z := (p * x + 99) / 100.

Definition is_u128 (z : Z) : Prop := 0 ≤ z ≤ u128_max.
Definition is_u32 (z : Z) : Prop := 0 ≤ z ≤ u32_max.

(** ** Byte strings *)

Abbreviation Bytes := (list Z) (only parsing).

(** Big-endian ([to_be_bytes], [from_be_bytes]) and little-endian (SCALE)
    representations on [n] bytes. *)
Fixpoint le_bytes (n : nat) (z : Z) : list Z :=
  match n with
  | O => []
  | S n' => z mod 256 :: le_bytes n' (z / 256)
  end.
Definition be_bytes (n : nat) (z : Z) : list Z := reverse (le_bytes n z).
Fixpoint from_le_bytes (l : list Z) : Z :=
  match l with
  | [] => 0
  | b :: l' => b + 256 * from_le_bytes l'
  end.
Definition from_be_bytes (l : list Z) : Z := from_le_bytes (reverse l).

Definition is_byte (b : Z) : Prop := 0 ≤ b < 256.

(** The SCALE encoding of a length ([Compact<u32>]). *)
Definition compact_len (n : Z) : list Z :=
  if n <? 2 ^ 6 then [4 * n]
  else if n <? 2 ^ 14 then le_bytes 2 (4 * n + 1)
  else if n <? 2 ^ 30 then le_bytes 4 (4 * n + 2)
  else 3 :: le_bytes 4 n.

(** ** Storage maps *)

(** Iteration over a storage map hashed with [Identity]: keys in ascending
    order of their bytes.  The loops of the pallets remove at most the entry
    they are visiting from the map they iterate, so that the entries visited
    are the ones present when the loop starts. *)
Definition key_le {V} (x y : Z * V) : Prop := x.1 ≤ y.1.
#[export] Instance key_le_dec {V} : RelDecision (@key_le V) :=
  λ x y, decide (x.1 ≤ y.1).
Definition storage_iter {V} (m : gmap Z V) : list (Z * V) :=
  merge_sort key_le (map_to_list m).

(** The sum of a quantity over the entries of a map. *)
Definition map_sum {K} `{Countable K} {V} (f : V → Z) (m : gmap K V) : Z :=
  map_fold (λ _ v acc, f v + acc) 0 m.

(** ** Lemmas on the monad *)

Section Monad.
Context {S E : Type}.

Lemma bind_Ok_inv {A B} (m : M S E A) (f : A → M S E B) s b s' :
  (m ≫= f) s = Ok b s' → ∃ a s1, m s = Ok a s1 ∧ f a s1 = Ok b s'.
Proof. unfold mbind, M_bind. destruct (m s) eqn:E1; naive_solver. Qed.

Lemma bind_Ok {A B} (m : M S E A) (f : A → M S E B) s a s1 :
  m s = Ok a s1 → (m ≫= f) s = f a s1.
Proof. unfold mbind, M_bind. by intros ->. Qed.

Lemma bind_Err {A B} (m : M S E A) (f : A → M S E B) s e s1 :
  m s = Err e s1 → (m ≫= f) s = Err e s1.
Proof. unfold mbind, M_bind. by intros ->. Qed.

Lemma wp_ret {A} (a : A) Q QE (s : S) : Q a s → wp (E:=E) (mret a) Q QE s.
Proof. done. Qed.

Lemma wp_bind {A B} (m : M S E A) (f : A → M S E B) Q QE s :
  wp m (λ a s', wp (f a) Q QE s') QE s → wp (m ≫= f) Q QE s.
Proof. unfold wp, mbind, M_bind. by destruct (m s). Qed.

Lemma wp_mono {A} (m : M S E A) (Q Q' : A → S → Prop) (QE QE' : E → S → Prop) s :
  wp m Q QE s → (∀ a s', Q a s' → Q' a s') → (∀ e s', QE e s' → QE' e s') →
  wp m Q' QE' s.
Proof. unfold wp. destruct (m s); naive_solver. Qed.

Lemma wp_gets {A} (f : S → A) Q QE s : Q (f s) s → wp (E:=E) (gets f) Q QE s.
Proof. done. Qed.

Lemma wp_modify (f : S → S) Q QE s : Q tt (f s) → wp (E:=E) (modify f) Q QE s.
Proof. done. Qed.

Lemma wp_throw {A} (e : E) (Q : A → S → Prop) QE s : QE e s → wp (throw e) Q QE s.
Proof. done. Qed.

Lemma wp_try_modify {E'} (f : S → result E' S) (g : E' → E) Q QE s :
  (∀ s', f s = ROk s' → Q tt s') → (∀ e, f s = RErr e → QE (g e) s) →
  wp (try_modify f g) Q QE s.
Proof. unfold wp, try_modify. destruct (f s); naive_solver. Qed.

Lemma wp_attempt {E' A} (m : M S E' A) (Q : result E' A → S → Prop) QE s :
  wp m (λ a s', Q (ROk a) s') (λ e s', Q (RErr e) s') s → wp (E:=E) (attempt m) Q QE s.
Proof. unfold wp, attempt. by destruct (m s). Qed.

Lemma wp_expect_ok {E' A} (m : M S E' A) (Q : A → S → Prop) QE s :
  wp m Q (λ _ _, False) s → wp (E:=E) (expect_ok m) Q QE s.
Proof. unfold wp, expect_ok. by destruct (m s). Qed.

Lemma wp_map_err {E' A} (g : E' → E) (m : M S E' A) (Q : A → S → Prop) QE s :
  wp m Q (λ e s', QE (g e) s') s → wp (map_err g m) Q QE s.
Proof. unfold wp, map_err. by destruct (m s). Qed.

Lemma wp_expect {A} (o : option A) (Q : A → S → Prop) QE s a :
  o = Some a → Q a s → wp (E:=E) (expect o) Q QE s.
Proof. by intros ->. Qed.

Lemma wp_ensure b (e : E) Q QE (s : S) :
  (b = true → Q tt s) → (b = false → QE e s) → wp (ensure b e) Q QE s.
Proof. unfold ensure. destruct b; naive_solver. Qed.

Lemma wp_ok_or {A} (o : option A) (e : E) Q QE (s : S) :
  (∀ a, o = Some a → Q a s) → (o = None → QE e s) → wp (ok_or o e) Q QE s.
Proof. unfold ok_or. destruct o; naive_solver. Qed.

Lemma wp_for_each {A} (I : S → Prop) (f : A → M S E unit) (l : list A) QE s :
  (∀ x s', x ∈ l → I s' → wp (f x) (λ _, I) QE s') →
  I s → wp (for_each l f) (λ _, I) QE s.
Proof.
  revert s. induction l as [|x l IH]; intros s Hf HI; [done|].
  simpl. apply wp_bind. eapply wp_mono; [apply Hf; [set_solver|done]| |done].
  intros [] s' HI'. apply IH; [|done]. intros y s'' Hy. apply Hf. set_solver.
Qed.

Lemma run_total_Ok {A} (f : S → S * A) s a s' :
  run_total (E:=E) f s = Ok a s' ↔ f s = (s', a).
Proof. unfold run_total. destruct (f s); naive_solver. Qed.

(** A dispatchable that fails leaves the storage untouched. *)
Lemma transactional_Err {A} (m : M S E A) s e s' :
  transactional m s = Err e s' → s' = s.
Proof. unfold transactional. destruct (m s); naive_solver. Qed.

Lemma transactional_Ok {A} (m : M S E A) s a s' :
  transactional m s = Ok a s' ↔ m s = Ok a s'.
Proof. unfold transactional. destruct (m s); naive_solver. Qed.
End Monad.

(** ** Lemmas on loops and lists *)

(** What every iteration of a loop keeps, the loop keeps. *)
Lemma fold_left_inv {A B} (P : A → Prop) (f : A → B → A) (l : list B) (a : A) :
  P a → (∀ a x, x ∈ l → P a → P (f a x)) → P (fold_left f l a).
Proof.
  revert a. induction l as [|x l IH]; intros a Ha Hf; [done|]. simpl. apply IH.
  - apply Hf; [left|done].
  - intros a' y Hy. apply Hf. by right.
Qed.

Lemma NoDup_map_filter {A B} (g : A → B) (p : A → bool) (l : list A) :
  NoDup (map g l) → NoDup (map g (List.filter p l)).
Proof.
  induction l as [|x l IH]; [done|]. cbn [map List.filter]. rewrite NoDup_cons. intros [Hx Hl].
  destruct (p x); [|by apply IH]. cbn [map]. rewrite NoDup_cons. split; [|by apply IH].
  contradict Hx. apply list_elem_of_In in Hx. apply in_map_iff in Hx as (y & Hy & Hin).
  apply filter_In in Hin as [Hin _]. apply list_elem_of_In, in_map_iff. by exists y.
Qed.

Lemma StronglySorted_sublist {A} (R : relation A) l k :
  l `sublist_of` k → StronglySorted R k → StronglySorted R l.
Proof.
  induction 1 as [|x l k Hs IH|x l k Hs IH]; [done| |]; inversion_clear 1 as [|? ? Hk Hx];
    [|by apply IH].
  constructor; [by apply IH|]. rewrite Forall_forall in *. intros y Hy.
  apply Hx. by eapply elem_of_sublist.
Qed.

Lemma NoDup_take {A} n (l : list A) : NoDup l → NoDup (take n l).
Proof. rewrite <- (take_drop n l) at 1. by intros [? _]%NoDup_app. Qed.

Lemma map_take {A B} (g : A → B) n (l : list A) : map g (take n l) = take n (map g l).
Proof. revert n. induction l as [|x l IH]; intros [|n]; simpl; [done..|]. by rewrite IH. Qed.

(** ** Lemmas on integers and bytes *)

Lemma checked_add_Some max a b c :
  checked_add max a b = Some c ↔ c = a + b ∧ a + b ≤ max.
Proof. unfold checked_add. case_match; naive_solver lia. Qed.

Lemma length_le_bytes n z : length (le_bytes n z) = n.
Proof. revert z. induction n as [|n IH]; intros z; simpl; [done|]. by rewrite IH. Qed.

Lemma length_be_bytes n z : length (be_bytes n z) = n.
Proof. unfold be_bytes. by rewrite length_reverse, length_le_bytes. Qed.

Lemma le_bytes_is_byte n z : Forall is_byte (le_bytes n z).
Proof.
  revert z. induction n as [|n IH]; intros z; simpl; constructor; [|done].
  unfold is_byte. apply Z.mod_pos_bound. lia.
Qed.

Lemma be_bytes_is_byte n z : Forall is_byte (be_bytes n z).
Proof. unfold be_bytes. apply Forall_reverse, le_bytes_is_byte. Qed.

Lemma from_le_bytes_le_bytes n z :
  from_le_bytes (le_bytes n z) = z mod 256 ^ Z.of_nat n.
Proof.
  revert z. induction n as [|n IH]; intros z.
  - simpl. by rewrite Z.mod_1_r.
  - cbn [le_bytes from_le_bytes]. rewrite IH.
    rewrite Nat2Z.inj_succ, Z.pow_succ_r by lia.
    rewrite Z.rem_mul_r; [done|lia|]. apply Z.pow_pos_nonneg; lia.
Qed.

Lemma from_be_bytes_be_bytes n z :
  from_be_bytes (be_bytes n z) = z mod 256 ^ Z.of_nat n.
Proof. unfold from_be_bytes, be_bytes. by rewrite reverse_involutive, from_le_bytes_le_bytes. Qed.

Lemma le_bytes_from_le_bytes l :
  Forall is_byte l → le_bytes (length l) (from_le_bytes l) = l.
Proof.
  induction 1 as [|b l Hb _ IH]; [done|].
  cbn [from_le_bytes length le_bytes]. unfold is_byte in Hb. f_equal.
  - rewrite Z.mul_comm, Z.mod_add by lia. apply Z.mod_small. lia.
  - etrans; [|exact IH]. f_equal.
    rewrite Z.mul_comm, Z.div_add, Z.div_small by lia. lia.
Qed.

Lemma be_bytes_from_be_bytes l :
  Forall is_byte l → be_bytes (length l) (from_be_bytes l) = l.
Proof.
  intros Hl. unfold be_bytes, from_be_bytes.
  rewrite <- (length_reverse l), le_bytes_from_le_bytes, reverse_involutive by by apply Forall_reverse.
  done.
Qed.

Lemma le_bytes_inj n z1 z2 :
  0 ≤ z1 < 256 ^ Z.of_nat n → 0 ≤ z2 < 256 ^ Z.of_nat n →
  le_bytes n z1 = le_bytes n z2 → z1 = z2.
Proof.
  intros H1 H2 Heq. apply (f_equal from_le_bytes) in Heq.
  rewrite !from_le_bytes_le_bytes, !Z.mod_small in Heq by done. done.
Qed.

Lemma be_bytes_inj n z1 z2 :
  0 ≤ z1 < 256 ^ Z.of_nat n → 0 ≤ z2 < 256 ^ Z.of_nat n →
  be_bytes n z1 = be_bytes n z2 → z1 = z2.
Proof. intros H1 H2 Heq. eapply le_bytes_inj; [done..|]. by apply (inj reverse). Qed.

(** Splitting a big-endian word into a high and a low part. *)
Lemma le_bytes_app n m z :
  le_bytes (n + m) z = le_bytes n z ++ le_bytes m (z / 256 ^ Z.of_nat n).
Proof.
  revert z. induction n as [|n IH]; intros z.
  - simpl. by rewrite Z.div_1_r.
  - cbn [Nat.add le_bytes app]. rewrite IH. do 3 f_equal.
    rewrite Nat2Z.inj_succ, Z.pow_succ_r by lia.
    apply Z.div_div; [lia|]. apply Z.pow_pos_nonneg; lia.
Qed.

Lemma be_bytes_app n m z :
  be_bytes (m + n) z = be_bytes m (z / 256 ^ Z.of_nat n) ++ be_bytes n z.
Proof. unfold be_bytes. by rewrite Nat.add_comm, le_bytes_app, reverse_app. Qed.

Lemma be_bytes_mod n z : be_bytes n (z mod 256 ^ Z.of_nat n) = be_bytes n z.
Proof.
  rewrite <- from_be_bytes_be_bytes. rewrite <- (length_be_bytes n z) at 1.
  apply be_bytes_from_be_bytes, be_bytes_is_byte.
Qed.

(** ** Lemmas on storage maps *)

Lemma storage_iter_elem {V} (m : gmap Z V) k v :
  (k, v) ∈ storage_iter m ↔ m !! k = Some v.
Proof.
  unfold storage_iter. rewrite <- elem_of_map_to_list.
  by rewrite merge_sort_Permutation.
Qed.

Lemma storage_iter_NoDup {V} (m : gmap Z V) : NoDup (storage_iter m).*1.
Proof.
  unfold storage_iter. rewrite merge_sort_Permutation. apply NoDup_fst_map_to_list.
Qed.

#[export] Instance key_le_total {V} : Total (@key_le V).
Proof. intros x y. unfold key_le. lia. Qed.
#[export] Instance key_le_trans {V} : Transitive (@key_le V).
Proof. intros x y z. unfold key_le. lia. Qed.

(** Filtering keeps a list sorted. *)
Lemma StronglySorted_List_filter {A} (R : relation A) (p : A → bool) l :
  StronglySorted R l → StronglySorted R (List.filter p l).
Proof.
  induction 1 as [|x l Hl IH Hx]; simpl; [constructor|]. destruct (p x); [|done].
  constructor; [done|]. rewrite Forall_forall in Hx |- *. intros y Hy. apply Hx.
  apply list_elem_of_In in Hy. apply filter_In in Hy as [Hy _]. by apply list_elem_of_In.
Qed.

(** The last of the entries that pass a filter has the largest key. *)
Lemma storage_iter_last {V} (m : gmap Z V) (p : Z * V → bool) k :
  last (map fst (List.filter p (storage_iter m))) = Some k →
  ∀ j v, m !! j = Some v → p (j, v) = true → j ≤ k.
Proof.
  assert (StronglySorted key_le (List.filter p (storage_iter m))) as Hs.
  { apply StronglySorted_List_filter, StronglySorted_merge_sort; apply _. }
  intros Hk j v Hj Hp.
  assert ((j, v) ∈ List.filter p (storage_iter m)) as Hin.
  { apply list_elem_of_In, filter_In. split; [|done]. by apply list_elem_of_In, storage_iter_elem. }
  revert Hs Hk Hin. generalize (List.filter p (storage_iter m)). intros l Hs Hk Hin.
  destruct l as [|e l _] using rev_ind; [by inversion Hin|].
  rewrite map_app in Hk. cbn [map] in Hk. rewrite last_snoc in Hk. injection Hk as <-.
  apply elem_of_app in Hin as [Hin|Hin%list_elem_of_singleton]; [|by subst e].
  exact (StronglySorted_app_1_elem_of _ _ _ _ _ Hs Hin (list_elem_of_here _ _)).
Qed.

Section MapSum.
Context {K : Type} `{Countable K} {V : Type} (f : V → Z).
Implicit Types m : gmap K V.

Lemma map_sum_insert m k v :
  m !! k = None → map_sum f (<[k := v]> m) = f v + map_sum f m.
Proof.
  intros Hk. unfold map_sum. rewrite map_fold_insert_L; [done| |done].
  intros. lia.
Qed.

Lemma map_sum_delete m k v :
  m !! k = Some v → map_sum f m = f v + map_sum f (delete k m).
Proof.
  intros Hk. rewrite <- (insert_delete_id m k v) at 1 by done.
  by rewrite map_sum_insert by apply lookup_delete_eq.
Qed.

(** Replacing an entry changes the sum by the difference. *)
Lemma map_sum_replace m k v (d : V) :
  f d = 0 → map_sum f (<[k := v]> m) = f v - f (default d (m !! k)) + map_sum f m.
Proof.
  intros Hd. rewrite <- insert_delete_eq, map_sum_insert by apply lookup_delete_eq.
  destruct (m !! k) as [v'|] eqn:Hk; simpl.
  - rewrite (map_sum_delete m k v') by done. lia.
  - rewrite delete_id by done. lia.
Qed.

Lemma map_sum_nonneg m : (∀ k v, m !! k = Some v → 0 ≤ f v) → 0 ≤ map_sum f m.
Proof.
  induction m as [|k v m Hk _ IH] using map_first_key_ind; [done|].
  intros Hf. rewrite map_sum_insert by done.
  pose proof (Hf k v ltac:(by simplify_map_eq)) as Hv.
  assert (0 ≤ map_sum f m); [|lia].
  apply IH. intros k' v' Hk'. apply (Hf k'). by apply lookup_insert_Some; right; naive_solver.
Qed.
Lemma map_sum_insert_le m k v :
  (∀ k' v', m !! k' = Some v' → 0 ≤ f v') →
  map_sum f (<[k := v]> m) ≤ f v + map_sum f m.
Proof.
  intros Hnn. rewrite <- insert_delete_eq, map_sum_insert by apply lookup_delete_eq.
  destruct (m !! k) as [v'|] eqn:Hk; [|by rewrite delete_id].
  rewrite (map_sum_delete m k v') by done. specialize (Hnn _ _ Hk). lia.
Qed.
End MapSum.

(** ** Automation *)

Create HintDb t3rn.
#[export] Hint Resolve wp_ret length_le_bytes length_be_bytes be_bytes_is_byte : t3rn.

(** [monad_inv]: decompose hypotheses [m s = Ok a s'] along the binds of [m],
    splitting the tests on the way. *)
Ltac monad_inv_step :=
  match goal with
  | H : (_ ≫= _) _ = Ok _ _ |- _ =>
      apply bind_Ok_inv in H; destruct H as (? & ? & ? & ?)
  | H : mret _ _ = Ok _ _ |- _ => unfold mret, M_ret in H; simplify_eq
  | H : gets _ _ = Ok _ _ |- _ => unfold gets in H; simplify_eq
  | H : modify _ _ = Ok _ _ |- _ => unfold modify in H; simplify_eq
  | H : throw _ _ = Ok _ _ |- _ => discriminate H
  | H : panic _ = Ok _ _ |- _ => discriminate H
  | H : ensure ?b _ _ = Ok _ _ |- _ =>
      unfold ensure in H; destruct b eqn:?; [|discriminate H]
  | H : ok_or ?o _ _ = Ok _ _ |- _ =>
      unfold ok_or in H; destruct o eqn:?; [|discriminate H]
  | H : expect ?o _ = Ok _ _ |- _ =>
      unfold expect in H; destruct o eqn:?; [|discriminate H]
  | H : map_err _ ?m ?s = Ok _ _ |- _ =>
      unfold map_err in H; destruct (m s) eqn:?; [|discriminate H|discriminate H]; simplify_eq
  end.
Ltac monad_inv := repeat (monad_inv_step; simplify_eq/=).

(** [inv_ok H]: what the success [H] of one check or read says. *)
Ltac inv_ok H :=
  match type of H with
  | ensure ?b _ _ = Ok _ _ => unfold ensure in H; destruct b eqn:?; [|discriminate H]
  | ok_or ?o _ _ = Ok _ _ => unfold ok_or in H; destruct o eqn:?; [|discriminate H]
  | lift_result ?r _ = Ok _ _ => unfold lift_result in H; destruct r eqn:?; [|discriminate H]
  | map_err _ ?m ?s = Ok _ _ =>
      unfold map_err in H; destruct (m s) eqn:?; [|discriminate H|discriminate H]
  | _ => idtac
  end; unfold mret, M_ret, gets, modify in H; simplify_eq.

(** [step_wp]: one symbolic step of a [wp] goal. *)
Ltac step_wp :=
  match goal with
  | |- wp (_ ≫= _) _ _ _ => apply wp_bind
  | |- wp (mret _) _ _ _ => apply wp_ret
  | |- wp (ensure _ _) _ _ _ => apply wp_ensure; intros
  | |- wp (ok_or _ _) _ _ _ => apply wp_ok_or; intros
  | |- wp (gets _) _ _ _ => apply wp_gets
  | |- wp (modify _) _ _ _ => apply wp_modify
  | |- wp (throw _) _ _ _ => apply wp_throw
  end; cbv beta.
