(* ===== verification/Types.v ===== *)
(** * Data types of the Circuit

    The structures of [types/src/{sfx,fsx,bid}.rs] and
    [primitives/src/circuit/types.rs], the identifiers derived from them by
    hashing, and the order origin.

    - A [w]-bit integer is a [Z]; a byte string is a [list Z].
    - [AccountId32] and [H256] are 256-bit words (a [Z]); their SCALE encoding
      is [be_bytes 32].
    - Keccak-256 and the hasher of the runtime are library code: the class
      [Hashing] takes them as parameters. *)

From S2P Require Import Prelude.

Abbreviation AccountId := Z (only parsing).
Abbreviation Hash := Z (only parsing).
Abbreviation Balance := Z (only parsing).
Abbreviation BlockNumber := Z (only parsing).
Abbreviation TargetId := (list Z) (only parsing).
Abbreviation AssetId := Z (only parsing).

(** Hash functions from byte strings to 256-bit words. *)
Class Hashing := {
  keccak256 : list Z → Hash;
  system_hash : list Z → Hash;
}.

(** ** Errors *)

(** [pallet_account_manager::Error]. *)
Inductive AMError :=
| PendingChargeNotFoundAtCommit | PendingChargeNotFoundAtRefund | ExecutionNotRegistered
| ExecutionAlreadyRegistered | SkippingEmptyCharges | NoChargeOfGivenIdRegistered
| ChargeAlreadyRegistered | ChargeOrSettlementCalculationOverflow
| ChargeOrSettlementActualFeesOutgrowReserved | DecodingExecutionIDFailed
| TransferDepositFailedOldChargeNotFound | TransferDepositFailedToReleasePreviousCharge.

(** [pallet_circuit::Error]. *)
Inductive CircuitError :=
| UpdateAttemptDoubleRevert | UpdateAttemptDoubleKill | UpdateStateTransitionDisallowed
| UpdateForcedStateTransitionDisallowed | UpdateXtxTriggeredWithUnexpectedStatus
| ConfirmationFailed | InvalidOrderOrigin | ApplyTriggeredWithUnexpectedStatus
| BidderNotEnoughBalance | RequesterNotEnoughBalance | AssetsFailedToWithdraw
| SanityAfterCreatingSFXDepositsFailed | ContractXtxKilledRunOutOfFunds
| ChargingTransferFailed | ChargingTransferFailedAtPendingExecution
| XtxChargeFailedRequesterBalanceTooLow | XtxChargeBondDepositFailedCantAccessBid
| FinalizeSquareUpFailed | CriticalStateSquareUpCalledToFinishWithoutFsxConfirmed
| RewardTransferFailed | RefundTransferFailed | SideEffectsValidationFailed
| InsuranceBondNotRequired | BiddingInactive | BiddingRejectedBidBelowDust
| BiddingRejectedBidTooHigh | BiddingRejectedInsuranceTooLow
| BiddingRejectedBetterBidFound | BiddingRejectedFailedToDepositBidderBond
| BiddingFailedExecutorsBalanceTooLowToReserve | InsuranceBondAlreadyDeposited
| InvalidFTXStateEmptyBidForReadyXtx | InvalidFTXStateEmptyConfirmationForFinishedXtx
| InvalidFTXStateUnassignedExecutorForReadySFX
| InvalidFTXStateIncorrectExecutorForReadySFX | GatewayNotActive | SetupFailed
| SetupFailedXtxNotFound | SetupFailedXtxStorageArtifactsNotFound
| SetupFailedIncorrectXtxStatus | SetupFailedDuplicatedXtx | SetupFailedEmptyXtx
| SetupFailedXtxAlreadyFinished | SetupFailedXtxWasDroppedAtBidding
| SetupFailedXtxReverted | SetupFailedXtxRevertedTimeout | XtxDoesNotExist
| InvalidFSXBidStateLocated | EnactSideEffectsCanOnlyBeCalledWithMin1StepFinished
| FatalXtxTimeoutXtxIdNotMatched | RelayEscrowedFailedNothingToConfirm
| FatalCommitSideEffectWithoutConfirmationAttempt
| FatalErroredCommitSideEffectConfirmationAttempt
| FatalErroredRevertSideEffectConfirmationAttempt | FailedToHardenFullSideEffect
| ApplyFailed | DeterminedForbiddenXtxStatus
| SideEffectIsAlreadyScheduledToExecuteOverXBI | FSXNotFoundById | XtxNotFound
| LocalSideEffectExecutionNotApplicable | EscrowExecutionNotApplicableForThisSFX
| LocalExecutionUnauthorized | OnLocalTriggerFailedToSetupXtx | UnauthorizedCancellation
| FailedToConvertSFX2XBI | FailedToCheckInOverXBI
| FailedToCreateXBIMetadataDueToWrongAccountConversion
| FailedToConvertXBIResult2SFXConfirmation | FailedToEnterXBIPortal
| FailedToExitXBIPortal | FailedToCommitFSX | XBIExitFailedOnSFXConfirmation
| UnsupportedRole | InvalidLocalTrigger | SignalQueueFull | ArithmeticErrorOverflow
| ArithmeticErrorUnderflow | ArithmeticErrorDivisionByZero
| ABIOnSelectedTargetNotFoundForSubmittedSFX
| ForNowOnlySingleRewardAssetSupportedForMultiSFX
| TargetAppearsNotToBeActiveAndDoesntHaveFinalizedHeight
| SideEffectsValidationFailedAgainstABI | XtxChargeFailedOnEscrowFee
| FailedToPerformDynamicDestinationDealHotSwap | NotImplemented.

(** [pallet_vacuum::Error]. *)
Inductive VacuumError :=
| XdnsGatewayDoesNotHaveRemoteOrderAddressRegistered
| XdnsGatewayDoesNotHaveEscrowAddressRegistered.

(** [pallet_attesters::Error]; a name another pallet also has is told apart by a
    prefix or loses its own. *)
Inductive AttestersError :=
| AttesterNotFound | AttestersArithmeticOverflow | InvalidSignature | InvalidMessage
| InvalidTargetInclusionProof | UnexpectedBatchHashRecoveredFromCommitment
| AlreadyRegistered | PublicKeyMissing | AttestationSignatureInvalid
| AttestationDoubleSignAttempt | NotActiveSet | NotInCurrentCommittee
| AttesterDidNotAgreeToNewTarget | NotRegistered | NoNominationFound | AlreadyNominated
| NominatorNotEnoughBalance | NominatorBondTooSmall | AttesterBondTooSmall
| MissingNominations | BatchHashMismatch | BatchNotFound
| CollusionWithPermanentSlash | BatchFoundWithUnsignableStatus
| RejectingFromSlashedAttester | TargetAlreadyActive | TargetNotActive
| XdnsTargetNotActive | GatewayDoesNotHaveEscrowAddressRegistered | SfxAlreadyRequested
| AddAttesterAlreadyRequested | RemoveAttesterAlreadyRequested
| NextCommitteeAlreadyRequested | BanAttesterAlreadyRequested | BatchAlreadyCommitted
| CommitteeSizeTooLarge | InfluxSignatureAlreadySubmitted | InfluxMessageHashIncorrect.

(** [pallet_rewards::Error]. *)
Inductive RewardsError :=
| DistributionPeriodNotElapsed | NoPendingClaims | RewardsArithmeticOverflow
| RewardsAttesterNotFound | TryIntoConversionU128ToBalanceFailed | Halted.

(** [pallet_xdns::Error]; [GatewayNotActive] is told apart by a prefix. *)
Inductive XdnsError :=
| GatewayRecordAlreadyExists | XdnsRecordNotFound | EscrowAccountNotFound
| RemoteOrderAddressNotFound | TokenRecordAlreadyExists
| TokenRecordNotFoundInAssetsOverlay | TokenRecordNotFoundInGateway
| GatewayRecordNotFound | SideEffectABIAlreadyExists | SideEffectABINotFound
| NoParachainInfoFound | TokenExecutionVendorMismatch | XdnsGatewayNotActive
| TopologyDecodeError | EmptyTopologySubmitted.

(** [pallet_grandpa_finality_verifier::Error]; [Halted] is told apart by a prefix. *)
Inductive GrandpaError :=
| EmptyRangeSubmitted | RangeToLarge | NoFinalizedHeader | InvalidAuthoritySet
| InvalidGrandpaJustification | InvalidRangeLinkage | InvalidJustificationLinkage
| ParachainEntryNotFound | StorageRootNotFound | InclusionDataDecodeError
| InvalidStorageProof | EventNotIncluded | HeaderDecodingError | HeaderDataDecodingError
| StorageRootMismatch | UnknownHeader | UnexpectedEventLength | UnexpectedSource
| EventDecodingFailed | UnkownSideEffect | UnsupportedScheduledChange | GrandpaHalted
| BlockHeightConversionError | InvalidPayloadSource | InvalidSourceFormat.

(** [pallet_portal::Error]. *)
Inductive PortalError :=
| XdnsRecordCreationFailed | UnimplementedGatewayVendor | LightClientNotFoundByVendor
| RegistrationError | GatewayVendorNotFound | SetOwnerError | SetOperationalError
| SubmitHeaderError | NoGatewayHeightAvailable | SideEffectConfirmationFailed
| SFXRecodeError.

(** [pallet_contracts_registry::Error]. *)
Inductive ContractsRegistryError := ContractAlreadyExists | UnknownContract.

(** [pallet_3vm::Error], in the order of the source. *)
Inductive ThreeVmError :=
| ExceededSignalBounceThreshold | CannotTriggerWithoutSideEffects | ContractNotFound
| InvalidOrigin | CannotInstantiateContract | ContractCannotRemunerate
| ContractCannotHaveStorage | ContractCannotGenerateSideEffects | InvalidPrecompilePointer
| InvalidPrecompileArgs | InvalidArithmeticOverflow | DownstreamCircuit.

(** [pallet_3vm_account_mapping::Error]; [InvalidSignature] is told apart by a prefix. *)
Inductive AccountMappingError :=
| AccountIdHasMapped | EthAddressHasMapped | BadSignature | MappingInvalidSignature
| PreImageAddressNotMatchingRecovered | NonZeroRefCount.

(** [pallet_maintenance_mode::Error]. *)
Inductive MaintenanceError := AlreadyInMaintenanceMode | NotInMaintenanceMode.

(** [pallet_contracts::Error]; [ContractNotFound] is told apart by a prefix. *)
Inductive ContractsError :=
| InvalidSchedule | InvalidCallFlags | OutOfGas | OutputBufferTooSmall | TransferFailed
| MaxCallDepthReached | NoContractFound | CodeTooLarge | CodeNotFound | CodeInfoNotFound
| OutOfBounds | DecodingFailed | ContractTrapped | ValueTooLarge | TerminatedWhileReentrant
| InputForwarded | RandomSubjectTooLong | TooManyTopics | NoChainExtension
| DuplicateContract | TerminatedInConstructor | ReentranceDenied
| StorageDepositNotEnoughFunds | StorageDepositLimitExhausted | CodeInUse
| ContractReverted | CodeRejected | Indeterministic | MigrationInProgress
| NoMigrationPerformed.

(** [pallet_evm::Error]. *)
Inductive EvmError :=
| EvmBalanceLow | EvmFeeOverflow | EvmPaymentOverflow | EvmWithdrawFailed | EvmGasPriceTooLow
| EvmInvalidNonce | EvmGasLimitTooLow | EvmGasLimitTooHigh | EvmUndefined | EvmReentrancy
| TransactionMustComeFromEOA | EvmInvalidDecimals.

(** [sp_runtime::DispatchError], with the module errors of the pallets and the
    errors of the currency and assets pallets as [Token]. *)
Inductive DispatchError :=
| Other (msg : string)
| BadOrigin
| RootNotAllowed
| ConsumerRemaining
| ArithmeticOverflow
| Token (msg : string)
| AccountManagerError (e : AMError)
| CircuitModuleError (e : CircuitError)
| VacuumModuleError (e : VacuumError)
| AttestersModuleError (e : AttestersError)
| RewardsModuleError (e : RewardsError)
| XdnsModuleError (e : XdnsError)
| GrandpaModuleError (e : GrandpaError)
| PortalModuleError (e : PortalError)
| ContractsRegistryModuleError (e : ContractsRegistryError)
| ThreeVmModuleError (e : ThreeVmError)
| AccountMappingModuleError (e : AccountMappingError)
| MaintenanceModuleError (e : MaintenanceError)
| ContractsModuleError (e : ContractsError)
| EvmModuleError (e : EvmError).

(** ** Side effects (types/src/sfx.rs) *)

Inductive SecurityLvl := Optimistic | Escrow.

#[export] Instance SecurityLvl_eq_dec : EqDecision SecurityLvl.
Proof. solve_decision. Defined.

Record SideEffect := mkSideEffect {
  sfx_target : TargetId;
  sfx_max_reward : Balance;
  sfx_insurance : Balance;
  sfx_action : list Z;
  sfx_encoded_args : list (list Z);
  sfx_signature : list Z;
  sfx_enforce_executor : option AccountId;
  sfx_reward_asset_id : option AssetId;
}.

#[export] Instance SideEffect_eq_dec : EqDecision SideEffect.
Proof. solve_decision. Defined.

Inductive ConfirmationOutcome :=
| Success
| MisbehaviourMalformedValues (key expected received : list Z)
| TimedOut.

#[export] Instance ConfirmationOutcome_eq_dec : EqDecision ConfirmationOutcome.
Proof. solve_decision. Defined.

Record ConfirmedSideEffect := mkConfirmed {
  conf_err : option ConfirmationOutcome;
  conf_output : option (list Z);
  conf_inclusion_data : list Z;
  conf_executioner : AccountId;
  conf_received_at : BlockNumber;
  conf_cost : option Balance;
}.

#[export] Instance ConfirmedSideEffect_eq_dec : EqDecision ConfirmedSideEffect.
Proof. solve_decision. Defined.

(** ** Bids (types/src/bid.rs) *)

Record SFXBid := mkSFXBid {
  bid_amount : Balance;
  bid_insurance : Balance;
  bid_reserved_bond : option Balance;
  bid_reward_asset_id : option AssetId;
  bid_executor : AccountId;
  bid_requester : AccountId;
}.

#[export] Instance SFXBid_eq_dec : EqDecision SFXBid.
Proof. solve_decision. Defined.

Definition new_none_optimistic (bid insurance : Balance) (executor requester : AccountId)
    (reward_asset_id : option AssetId) : SFXBid :=
  {| bid_amount := bid; bid_insurance := insurance; bid_reserved_bond := None;
     bid_reward_asset_id := reward_asset_id;
     bid_executor := executor; bid_requester := requester |}.

(** ** Full side effects (types/src/fsx.rs) *)

Record FullSideEffect := mkFSX {
  fsx_input : SideEffect;
  fsx_confirmed : option ConfirmedSideEffect;
  fsx_security_lvl : SecurityLvl;
  fsx_submission_target_height : BlockNumber;
  fsx_best_bid : option SFXBid;
  fsx_index : Z;
}.

#[export] Instance FullSideEffect_eq_dec : EqDecision FullSideEffect.
Proof. solve_decision. Defined.

(** Field updates. *)
Definition set_enforce_executor (e : option AccountId) (x : SideEffect) : SideEffect :=
  mkSideEffect (sfx_target x) (sfx_max_reward x) (sfx_insurance x) (sfx_action x)
    (sfx_encoded_args x) (sfx_signature x) e (sfx_reward_asset_id x).
Definition set_action_args (a : list Z) (args : list (list Z)) (x : SideEffect) : SideEffect :=
  mkSideEffect (sfx_target x) (sfx_max_reward x) (sfx_insurance x) a args
    (sfx_signature x) (sfx_enforce_executor x) (sfx_reward_asset_id x).
Definition set_input (i : SideEffect) (x : FullSideEffect) : FullSideEffect :=
  mkFSX i (fsx_confirmed x) (fsx_security_lvl x) (fsx_submission_target_height x)
    (fsx_best_bid x) (fsx_index x).
Definition set_confirmed (c : option ConfirmedSideEffect) (x : FullSideEffect) : FullSideEffect :=
  mkFSX (fsx_input x) c (fsx_security_lvl x) (fsx_submission_target_height x)
    (fsx_best_bid x) (fsx_index x).
Definition set_best_bid (b : option SFXBid) (x : FullSideEffect) : FullSideEffect :=
  mkFSX (fsx_input x) (fsx_confirmed x) (fsx_security_lvl x)
    (fsx_submission_target_height x) b (fsx_index x).

Definition is_some {A} (o : option A) : bool := match o with Some _ => true | None => false end.
Definition is_none {A} (o : option A) : bool := negb (is_some o).

Definition is_successfully_confirmed (fsx : FullSideEffect) : bool :=
  match fsx_confirmed fsx with
  | Some c => is_none (conf_err c)
  | None => false
  end.

Definition is_bid_resolved (fsx : FullSideEffect) : bool := is_some (fsx_best_bid fsx).

Definition get_bond_value (fsx : FullSideEffect) (max_reward : Balance) : Balance :=
  match fsx_best_bid fsx with
  | Some b => bid_amount b
  | None => max_reward
  end.

(** The view of a full side effect handed to the 3VM. *)
Record HardenedSideEffect := mkHardened {
  hfx_target : TargetId;
  hfx_prize : Balance;
  hfx_action : list Z;
  hfx_encoded_args : list (list Z);
  hfx_encoded_args_abi : list Z;
  hfx_security_lvl : SecurityLvl;
  hfx_confirmation_outcome : option ConfirmationOutcome;
  hfx_confirmed_executioner : option AccountId;
  hfx_confirmed_received_at : option BlockNumber;
  hfx_confirmed_cost : option Balance;
  hfx_index : Z;
}.

Definition fsx_try_into_hardened (fsx : FullSideEffect) : HardenedSideEffect :=
  {| hfx_target := sfx_target (fsx_input fsx);
     hfx_prize := sfx_max_reward (fsx_input fsx);
     hfx_action := sfx_action (fsx_input fsx);
     hfx_encoded_args := sfx_encoded_args (fsx_input fsx);
     hfx_encoded_args_abi := [];
     hfx_security_lvl := fsx_security_lvl fsx;
     hfx_confirmation_outcome := c ← fsx_confirmed fsx; conf_err c;
     hfx_confirmed_executioner := conf_executioner <$> fsx_confirmed fsx;
     hfx_confirmed_received_at := conf_received_at <$> fsx_confirmed fsx;
     hfx_confirmed_cost := c ← fsx_confirmed fsx; conf_cost c;
     hfx_index := fsx_index fsx |}.

(** ** Status of a cross-chain transaction (primitives/src/circuit/types.rs) *)

Inductive Cause := Timeout | IntentionalKill.

#[export] Instance Cause_eq_dec : EqDecision Cause.
Proof. solve_decision. Defined.

Inductive CircuitStatus :=
| Requested
| Reserved
| PendingBidding
| InBidding
| Killed (c : Cause)
| Ready
| PendingExecution
| Finished
| FinishedAllSteps
| Reverted (c : Cause)
| Committed.

#[export] Instance CircuitStatus_eq_dec : EqDecision CircuitStatus.
Proof. solve_decision. Defined.

Inductive SpeedMode := Fast | Rational | Finalized | Instant.

#[export] Instance SpeedMode_eq_dec : EqDecision SpeedMode.
Proof. solve_decision. Defined.

Record AdaptiveTimeout := mkTimeout {
  estimated_height_here : BlockNumber;
  estimated_height_there : BlockNumber;
  submit_by_height_here : BlockNumber;
  submit_by_height_there : BlockNumber;
  emergency_timeout_here : BlockNumber;
  there : TargetId;
  dlq : option BlockNumber;
}.

#[export] Instance AdaptiveTimeout_eq_dec : EqDecision AdaptiveTimeout.
Proof. solve_decision. Defined.

(** [TargetId::default()] is four zero bytes. *)
Definition new_emergency (emergency_timeout_here : BlockNumber) : AdaptiveTimeout :=
  mkTimeout 0 0 0 0 emergency_timeout_here [0; 0; 0; 0] None.

Definition default_401 : AdaptiveTimeout := mkTimeout 0 0 0 0 401 [0; 0; 0; 0] None.

Definition set_dlq (d : option BlockNumber) (t : AdaptiveTimeout) : AdaptiveTimeout :=
  mkTimeout (estimated_height_here t) (estimated_height_there t) (submit_by_height_here t)
    (submit_by_height_there t) (emergency_timeout_here t) (there t) d.

Record XExecSignal := mkSignal {
  xtx_requester : AccountId;
  xtx_requester_nonce : Z;
  xtx_timeouts_at : AdaptiveTimeout;
  xtx_speed_mode : SpeedMode;
  xtx_delay_steps_at : option (list BlockNumber);
  xtx_status : CircuitStatus;
  xtx_steps_cnt : Z * Z;
}.

#[export] Instance XExecSignal_eq_dec : EqDecision XExecSignal.
Proof. solve_decision. Defined.

Definition XExecSignal_new (requester : AccountId) (requester_nonce : Z)
    (timeouts_at : AdaptiveTimeout) (delay_steps_at : option (list BlockNumber))
    (speed_mode : SpeedMode) (steps_cnt : Z * Z) : XExecSignal :=
  {| xtx_requester := requester; xtx_requester_nonce := requester_nonce;
     xtx_timeouts_at := timeouts_at; xtx_speed_mode := speed_mode;
     xtx_delay_steps_at := delay_steps_at; xtx_status := Requested;
     xtx_steps_cnt := steps_cnt |}.

Definition set_speed_mode (m : SpeedMode) (x : XExecSignal) : XExecSignal :=
  mkSignal (xtx_requester x) (xtx_requester_nonce x) (xtx_timeouts_at x) m
    (xtx_delay_steps_at x) (xtx_status x) (xtx_steps_cnt x).
Definition set_timeouts_at (t : AdaptiveTimeout) (x : XExecSignal) : XExecSignal :=
  mkSignal (xtx_requester x) (xtx_requester_nonce x) t (xtx_speed_mode x)
    (xtx_delay_steps_at x) (xtx_status x) (xtx_steps_cnt x).
Definition set_status_steps (st : CircuitStatus) (n : Z * Z) (x : XExecSignal) : XExecSignal :=
  mkSignal (xtx_requester x) (xtx_requester_nonce x) (xtx_timeouts_at x) (xtx_speed_mode x)
    (xtx_delay_steps_at x) st n.

(** The volatile state of a transaction: keys are 32-byte words. *)
Abbreviation LocalState := (gmap Z (list Z)) (only parsing).

Record LocalXtxCtx := mkCtx {
  ctx_local_state : gmap Z (list Z);
  ctx_xtx_id : Hash;
  ctx_xtx : XExecSignal;
  ctx_full_side_effects : list (list FullSideEffect);
}.

Definition set_ctx_xtx (x : XExecSignal) (c : LocalXtxCtx) : LocalXtxCtx :=
  mkCtx (ctx_local_state c) (ctx_xtx_id c) x (ctx_full_side_effects c).
Definition set_ctx_fsx (l : list (list FullSideEffect)) (c : LocalXtxCtx) : LocalXtxCtx :=
  mkCtx (ctx_local_state c) (ctx_xtx_id c) (ctx_xtx c) l.

(** ** Identifiers *)

(** A 32-bit number as the last four bytes of a 32-byte word. *)
Definition word32 (n : Z) : list Z := replicate 28 0 ++ be_bytes 4 n.

Section Identifiers.
Context `{Hashing}.

(** [SideEffect::generate_id]: the Keccak hash of the transaction id (or of a
    side effect id) followed by the index on a 32-byte word. *)
Definition generate_id (xtx_id : list Z) (sfx_index : Z) : Hash :=
  keccak256 (xtx_id ++ word32 sfx_index).

Definition calc_sfx_id (fsx : FullSideEffect) (xtx_id : Hash) : Hash :=
  generate_id (be_bytes 32 xtx_id) (fsx_index fsx).

(** [SFXBid::generate_id] uses the hasher of the runtime. *)
Definition bid_generate_id (bid : SFXBid) (sfx_id : Hash) : Hash :=
  system_hash (be_bytes 32 sfx_id ++ be_bytes 32 (bid_executor bid)).

Definition calc_bid_id (fsx : FullSideEffect) (xtx_id : Hash) : option Hash :=
  match fsx_best_bid fsx with
  | Some b => Some (bid_generate_id b (calc_sfx_id fsx xtx_id))
  | None => None
  end.

(** [XExecSignal::generate_id]. *)
Definition xtx_generate_id (x : XExecSignal) : Hash :=
  keccak256 (be_bytes 32 (xtx_requester x) ++ word32 (xtx_requester_nonce x)).

(** [XExecSignal::generate_step_id]; [(n_step as u32).encode()] is
    little-endian. *)
Definition generate_step_id (xtx_id : Hash) (n_step : nat) : Hash :=
  system_hash (be_bytes 32 xtx_id ++ le_bytes 4 (Z.of_nat n_step)).

(** [XExecSignal::setup_fresh]: [requester_nonce] is the account nonce of the
    requester in [frame_system]. *)
Definition setup_fresh (requester : AccountId) (requester_nonce : Z)
    (timeouts_at : AdaptiveTimeout) (speed_mode : SpeedMode)
    (delay_steps_at : option (list BlockNumber)) : Hash * XExecSignal :=
  let signal := XExecSignal_new requester requester_nonce timeouts_at delay_steps_at
                  speed_mode (0, 0) in
  (xtx_generate_id signal, signal).
End Identifiers.

(** ** Order origin *)

Inductive OrderOrigin := Local (a : AccountId) | Remote (nonce : Z).

#[export] Instance OrderOrigin_eq_dec : EqDecision OrderOrigin.
Proof. solve_decision. Defined.

Definition is_local (o : OrderOrigin) : bool :=
  match o with Local _ => true | Remote _ => false end.
Definition is_remote (o : OrderOrigin) : bool :=
  match o with Local _ => false | Remote _ => true end.

(** [OrderOrigin::new]: a remote origin is an account whose first 28 bytes are
    zero; the last four hold its nonce. *)
Definition order_origin_new (source : AccountId) : OrderOrigin :=
  let source_bytes := be_bytes 32 source in
  if negb (forallb (λ x, x =? 0) (take 28 source_bytes))
  then Local source
  else Remote (from_be_bytes (drop 28 source_bytes)).

Definition try_remote_source (source : AccountId) : option OrderOrigin :=
  let maybe_remote := order_origin_new source in
  match maybe_remote with
  | Local _ => None
  | Remote _ => Some maybe_remote
  end.

Definition from_remote_nonce (remote_nonce : Z) : OrderOrigin := Remote remote_nonce.

(** [AccountId::decode] on 32 bytes. *)
Definition to_account_id (o : OrderOrigin) : AccountId :=
  match o with
  | Local a => a
  | Remote nonce => from_be_bytes (word32 nonce)
  end.

(** ** Lemmas *)

Lemma length_word32 n : length (word32 n) = 32%nat.
Proof. unfold word32. by rewrite length_app, length_replicate, length_be_bytes. Qed.

Lemma word32_inj n m : is_u32 n → is_u32 m → word32 n = word32 m → n = m.
Proof.
  unfold word32, is_u32, u32_max. intros Hn Hm Heq.
  apply (inj (app _)) in Heq. eapply (be_bytes_inj 4); [lia..|done].
Qed.

(** The four low bytes, below 28 zero bytes. *)
Lemma be_bytes_32_split a :
  be_bytes 32 a = be_bytes 28 (a / 2 ^ 32) ++ be_bytes 4 a.
Proof. by rewrite (be_bytes_app 4 28). Qed.

Lemma forallb_zero_replicate l :
  forallb (λ x, x =? 0) l = true → l = replicate (length l) 0.
Proof.
  induction l as [|x l IH]; simpl; [done|].
  rewrite andb_true_iff. intros [Hx Hl]. rewrite <- IH by done. f_equal. lia.
Qed.

Lemma be_bytes_zero n : be_bytes n 0 = replicate n 0.
Proof.
  unfold be_bytes. rewrite <- (reverse_replicate n 0). f_equal.
  induction n as [|n IH]; [done|]. cbn [le_bytes replicate].
  by rewrite Z.mod_0_l, Z.div_0_l, IH.
Qed.

Lemma take_28_be_bytes a : take 28 (be_bytes 32 a) = be_bytes 28 (a / 2 ^ 32).
Proof.
  rewrite be_bytes_32_split. apply take_app_length'. by rewrite length_be_bytes.
Qed.

Lemma drop_28_be_bytes a : drop 28 (be_bytes 32 a) = be_bytes 4 a.
Proof.
  rewrite be_bytes_32_split. apply drop_app_length'. by rewrite length_be_bytes.
Qed.

(** The 256-bit accounts that stand for remote origins are the ones below
    [2^32]. *)
Lemma order_origin_new_spec a :
  0 ≤ a < 2 ^ 256 →
  order_origin_new a = if a <? 2 ^ 32 then Remote a else Local a.
Proof.
  intros Ha. unfold order_origin_new. cbv zeta. rewrite take_28_be_bytes, drop_28_be_bytes.
  destruct (Z.ltb_spec a (2 ^ 32)) as [Hlt|Hge].
  - rewrite Z.div_small, be_bytes_zero by lia. simpl.
    rewrite from_be_bytes_be_bytes, Z.mod_small by lia. done.
  - destruct (forallb _ _) eqn:Hall; [|done]. exfalso.
    apply forallb_zero_replicate in Hall. rewrite length_be_bytes, <- be_bytes_zero in Hall.
    apply be_bytes_inj in Hall; [|split|lia].
    + pose proof (Z.div_str_pos a (2 ^ 32)). lia.
    + apply Z.div_pos; lia.
    + apply Z.div_lt_upper_bound; [lia|]. lia.
Qed.

(** Bytes are never computed during simplification. *)
Arguments order_origin_new : simpl never.
Arguments be_bytes : simpl never.
Arguments le_bytes : simpl never.
Arguments generate_id : simpl never.
Arguments bid_generate_id : simpl never.
Arguments xtx_generate_id : simpl never.

(** ** Properties *)

(** The remote nonces below [2^32] and the accounts from [2^32] on. *)
Lemma from_be_bytes_word32 n : is_u32 n → from_be_bytes (word32 n) = n.
Proof.
  unfold is_u32, u32_max. intros Hn.
  assert (word32 n = be_bytes 32 n) as ->.
  { unfold word32. rewrite be_bytes_32_split. f_equal.
    by rewrite Z.div_small, be_bytes_zero by lia. }
  rewrite from_be_bytes_be_bytes. apply Z.mod_small. lia.
Qed.

(** An order origin is recovered from its account id and the account id
    from the origin: the nonces of remote orders are exactly the accounts below
    [2^32], and no local account is taken for a remote one. *)
Theorem order_origin_roundtrip :
  (∀ n, is_u32 n → order_origin_new (to_account_id (from_remote_nonce n)) = Remote n) ∧
  (∀ a, 0 ≤ a < 2 ^ 256 → to_account_id (order_origin_new a) = a) ∧
  (∀ a, 0 ≤ a < 2 ^ 256 → is_some (try_remote_source a) = (a <? 2 ^ 32)).
Proof.
  split_and!.
  - intros n Hn. cbn [from_remote_nonce to_account_id]. rewrite from_be_bytes_word32 by done.
    unfold is_u32, u32_max in Hn. rewrite order_origin_new_spec by lia.
    by rewrite (proj2 (Z.ltb_lt n (2 ^ 32))) by lia.
  - intros a Ha. rewrite order_origin_new_spec by done.
    destruct (Z.ltb_spec a (2 ^ 32)); cbn [to_account_id]; [|done].
    apply from_be_bytes_word32. unfold is_u32, u32_max. lia.
  - intros a Ha. unfold try_remote_source. rewrite order_origin_new_spec by done.
    by destruct (a <? 2 ^ 32).
Qed.
