(* ===== verification/Status.v ===== *)
(** * Circuit status transitions

    [impl CircuitStatus] of [primitives/src/circuit/types.rs]: the derived
    order of the statuses, the status determined from the full side effects of
    a transaction, and the transitions the Circuit accepts. *)

From S2P Require Import Prelude Types.

(** ** The derived order

    [#[derive(PartialOrd)]] compares the position of the variants, then their
    fields. *)

Definition discriminant (s : CircuitStatus) : Z :=
  match s with
  | Requested => 0
  | Reserved => 1
  | PendingBidding => 2
  | InBidding => 3
  | Killed _ => 4
  | Ready => 5
  | PendingExecution => 6
  | Finished => 7
  | FinishedAllSteps => 8
  | Reverted _ => 9
  | Committed => 10
  end.

Definition cause_rank (c : Cause) : Z :=
  match c with Timeout => 0 | IntentionalKill => 1 end.

Definition field_rank (s : CircuitStatus) : Z :=
  match s with
  | Killed c | Reverted c => cause_rank c
  | _ => 0
  end.

Definition status_ltb (a b : CircuitStatus) : bool :=
  (discriminant a <? discriminant b)
  || ((discriminant a =? discriminant b) && (field_rank a <? field_rank b)).

Definition status_leb (a b : CircuitStatus) : bool := negb (status_ltb b a).

Definition status_eqb (a b : CircuitStatus) : bool := bool_decide (a = b).

(** ** Accepted transitions *)

Definition check_unforced (previous new : CircuitStatus) : result DispatchError CircuitStatus :=
  match previous, new with
  | Requested, Requested => ROk new
  | Reserved, Reserved => ROk new
  | Reserved, PendingBidding => ROk new
  | Requested, Reserved => ROk new
  (* success flow *)
  | Requested, PendingBidding => ROk new
  | Requested, InBidding => ROk new
  | PendingBidding, InBidding => ROk new
  | InBidding, InBidding => ROk new
  | InBidding, Ready => ROk new
  | PendingBidding, Ready => ROk new
  | Ready, PendingExecution => ROk new
  | Ready, FinishedAllSteps => ROk new
  | PendingExecution, PendingExecution => ROk new
  | PendingExecution, Finished => ROk new
  | PendingExecution, FinishedAllSteps => ROk new
  | PendingExecution, Committed => ROk new
  (* next steps transitions *)
  | Finished, PendingExecution => ROk new
  | Finished, Ready => ROk new
  | Finished, FinishedAllSteps => ROk new
  | FinishedAllSteps, Committed => ROk new
  | _, _ => RErr (Other "UpdateStateTransitionDisallowed")
  end.

Definition forced_disallowed : result DispatchError CircuitStatus :=
  RErr (Other "UpdateForcedStateTransitionDisallowed").

Definition check_forced (previous new forced : CircuitStatus) : result DispatchError CircuitStatus :=
  if status_eqb forced new then ROk new
  else
    match forced with
    | Killed IntentionalKill =>
        if status_leb new PendingBidding then ROk forced else forced_disallowed
    | Killed Timeout =>
        if status_leb new InBidding then ROk forced else forced_disallowed
    | Reverted cause =>
        if status_ltb new Ready then ROk (Killed cause)
        else if status_ltb new FinishedAllSteps then ROk forced
        else ROk new
    | Ready =>
        if status_eqb previous InBidding then ROk forced else forced_disallowed
    | InBidding =>
        if status_eqb new PendingBidding || status_eqb new InBidding
        then ROk forced else forced_disallowed
    | PendingExecution =>
        if status_eqb new Ready then ROk forced else forced_disallowed
    | Reserved =>
        if status_leb new Reserved then ROk forced else forced_disallowed
    | Committed =>
        if status_eqb new FinishedAllSteps then ROk Committed else forced_disallowed
    | _ => forced_disallowed
    end.

Definition check_transition (previous new : CircuitStatus)
    (maybe_forced : option CircuitStatus) : result DispatchError CircuitStatus :=
  match maybe_forced with
  | None => check_unforced previous new
  | Some forced => check_forced previous new forced
  end.

(** ** The status determined by the full side effects *)

Definition determine_fsx_bidding_status (fsx : FullSideEffect) : CircuitStatus :=
  match fsx_best_bid fsx with
  | Some _ => InBidding
  | None => PendingBidding
  end.

Definition bidding_loop_body (acc : CircuitStatus * CircuitStatus) (fsx : FullSideEffect)
    : CircuitStatus * CircuitStatus :=
  let '(lowest_bidding_status, highest_bidding_status) := acc in
  let current_bidding_status := determine_fsx_bidding_status fsx in
  if status_eqb current_bidding_status PendingBidding
  then (PendingBidding, highest_bidding_status)
  else (lowest_bidding_status, InBidding).

Definition determine_bidding_status (fsx_step : list FullSideEffect) : CircuitStatus :=
  let '(lowest_bidding_status, highest_bidding_status) :=
    fold_left bidding_loop_body fsx_step (InBidding, PendingBidding) in
  if status_eqb lowest_bidding_status InBidding then
    if forallb (λ fsx, is_some (sfx_enforce_executor (fsx_input fsx))) fsx_step
    then Ready
    else InBidding
  else if status_eqb highest_bidding_status PendingBidding then PendingBidding
  else InBidding.

Definition execution_loop_body (acc : CircuitStatus * CircuitStatus) (fsx : FullSideEffect)
    : CircuitStatus * CircuitStatus :=
  let '(lowest_execution_status, highest_execution_status) := acc in
  if is_some (fsx_confirmed fsx)
  then (lowest_execution_status, Finished)
  else (Ready, highest_execution_status).

Definition determine_execution_status (fsx_step : list FullSideEffect) : CircuitStatus :=
  let '(lowest_execution_status, highest_execution_status) :=
    fold_left execution_loop_body fsx_step (Finished, Ready) in
  if status_eqb lowest_execution_status Finished then Finished
  else if status_eqb highest_execution_status Ready then Ready
  else PendingExecution.

Definition is_empty {A} (l : list A) : bool := match l with [] => true | _ :: _ => false end.

Definition determine_step_status (step : list FullSideEffect) : CircuitStatus :=
  if is_empty step then Finished
  else
    let determined_bidding_status := determine_bidding_status step in
    if status_ltb determined_bidding_status Ready then determined_bidding_status
    else determine_execution_status step.

Fixpoint determine_steps (lowest_determined_status : CircuitStatus)
    (steps : list (list FullSideEffect)) : CircuitStatus :=
  match steps with
  | [] => FinishedAllSteps
  | step :: rest =>
      let current_step_status := determine_step_status step in
      let lowest :=
        if status_ltb lowest_determined_status current_step_status
        then current_step_status else lowest_determined_status in
      if status_ltb lowest Finished then current_step_status
      else determine_steps lowest rest
  end.

Definition determine_xtx_status (steps : list (list FullSideEffect)) : CircuitStatus :=
  if forallb is_empty steps then Reserved
  else determine_steps Requested steps.

(** ** Reference definitions *)

Definition has_bid (fsx : FullSideEffect) : bool := is_some (fsx_best_bid fsx).
Definition has_executor (fsx : FullSideEffect) : bool :=
  is_some (sfx_enforce_executor (fsx_input fsx)).
Definition has_confirmation (fsx : FullSideEffect) : bool := is_some (fsx_confirmed fsx).

(** What the status of a step means, without the loops. *)
Definition step_status_spec (step : list FullSideEffect) : CircuitStatus :=
  if is_empty step then Finished
  else if negb (existsb has_bid step) then PendingBidding
  else if negb (forallb has_bid step) then InBidding
  else if negb (forallb has_executor step) then InBidding
  else if forallb has_confirmation step then Finished
  else if existsb has_confirmation step then PendingExecution
  else Ready.

(** ** Lemmas *)

#[export] Hint Unfold status_leb status_eqb : t3rn.

Lemma status_eqb_eq a b : status_eqb a b = true ↔ a = b.
Proof. unfold status_eqb. apply bool_decide_eq_true. Qed.

Lemma status_eqb_neq a b : status_eqb a b = false ↔ a ≠ b.
Proof. unfold status_eqb. apply bool_decide_eq_false. Qed.

Lemma status_eqb_refl a : status_eqb a a = true.
Proof. by apply status_eqb_eq. Qed.

Lemma is_empty_false {A} (l : list A) : is_empty l = false ↔ l ≠ [].
Proof. by destruct l. Qed.

Lemma is_empty_true {A} (l : list A) : is_empty l = true ↔ l = [].
Proof. by destruct l. Qed.

Lemma bidding_loop_invariant step lo hi :
  fold_left bidding_loop_body step (lo, hi) =
  (if forallb has_bid step then lo else PendingBidding,
   if existsb has_bid step then InBidding else hi).
Proof.
  revert lo hi. induction step as [|fsx step IH]; intros lo hi; [done|].
  cbn [fold_left forallb existsb].
  assert (bidding_loop_body (lo, hi) fsx =
          if has_bid fsx then (lo, InBidding) else (PendingBidding, hi)) as ->.
  { unfold bidding_loop_body, determine_fsx_bidding_status, has_bid.
    by destruct (fsx_best_bid fsx). }
  destruct (has_bid fsx); rewrite IH; simpl; repeat case_match; done.
Qed.

Lemma execution_loop_invariant step lo hi :
  fold_left execution_loop_body step (lo, hi) =
  (if forallb has_confirmation step then lo else Ready,
   if existsb has_confirmation step then Finished else hi).
Proof.
  revert lo hi. induction step as [|fsx step IH]; intros lo hi; [done|].
  cbn [fold_left forallb existsb].
  assert (execution_loop_body (lo, hi) fsx =
          if has_confirmation fsx then (lo, Finished) else (Ready, hi)) as -> by done.
  destruct (has_confirmation fsx); rewrite IH; simpl; repeat case_match; done.
Qed.

Lemma forallb_existsb_nonempty {A} (f : A → bool) l :
  l ≠ [] → forallb f l = true → existsb f l = true.
Proof. destruct l; [done|]. simpl. intros _ [-> _]%andb_true_iff. done. Qed.

Lemma determine_bidding_status_eq step :
  step ≠ [] →
  determine_bidding_status step =
  if negb (existsb has_bid step) then PendingBidding
  else if negb (forallb has_bid step && forallb has_executor step) then InBidding
  else Ready.
Proof.
  intros Hne. unfold determine_bidding_status. rewrite bidding_loop_invariant.
  change (forallb (λ fsx, is_some _) step) with (forallb has_executor step).
  pose proof (forallb_existsb_nonempty has_bid step Hne) as Hfe.
  destruct (forallb has_bid step); [rewrite Hfe by done|].
  - by destruct (forallb has_executor step).
  - by destruct (existsb has_bid step).
Qed.

Lemma determine_execution_status_eq step :
  determine_execution_status step =
  if forallb has_confirmation step then Finished
  else if existsb has_confirmation step then PendingExecution
  else Ready.
Proof.
  unfold determine_execution_status. rewrite execution_loop_invariant.
  destruct (forallb has_confirmation step); [done|].
  by destruct (existsb has_confirmation step).
Qed.

Lemma determine_step_status_eq step :
  determine_step_status step = step_status_spec step.
Proof.
  unfold determine_step_status, step_status_spec.
  destruct (is_empty step) eqn:He; [done|]. apply is_empty_false in He.
  rewrite determine_bidding_status_eq, determine_execution_status_eq by done.
  destruct (existsb has_bid step); [|done].
  destruct (forallb has_bid step); [|done].
  by destruct (forallb has_executor step).
Qed.

Lemma determine_steps_finished lo steps :
  status_ltb lo Finished = false → determine_steps lo steps = FinishedAllSteps.
Proof.
  revert lo. induction steps as [|step steps IH]; intros lo Hlo; [done|]. simpl.
  destruct (status_ltb lo (determine_step_status step)) eqn:Hlt; [|by rewrite Hlo, IH].
  assert (status_ltb (determine_step_status step) Finished = false) as ->; [|].
  { revert Hlo Hlt. rewrite determine_step_status_eq. unfold step_status_spec.
    repeat case_match; destruct lo as [| | | |[]| | | | |[]|]; done. }
  apply IH. revert Hlo Hlt. rewrite determine_step_status_eq. unfold step_status_spec.
  repeat case_match; destruct lo as [| | | |[]| | | | |[]|]; done.
Qed.

(** The status of a transaction is decided by its first step alone. *)
Lemma determine_xtx_status_cons step rest :
  forallb is_empty (step :: rest) = false →
  determine_xtx_status (step :: rest) =
  if status_ltb (determine_step_status step) Finished
  then determine_step_status step else FinishedAllSteps.
Proof.
  intros Hne. unfold determine_xtx_status. rewrite Hne. simpl.
  assert (status_ltb Requested (determine_step_status step) = true) as ->.
  { rewrite determine_step_status_eq. unfold step_status_spec. by repeat case_match. }
  destruct (status_ltb (determine_step_status step) Finished) eqn:Hlt; [done|].
  by apply determine_steps_finished.
Qed.

(** For the single-step transactions the pallet creates. *)
Lemma determine_xtx_status_single step :
  step ≠ [] →
  determine_xtx_status [step] =
  if negb (existsb has_bid step) then PendingBidding
  else if negb (forallb has_bid step && forallb has_executor step) then InBidding
  else if forallb has_confirmation step then FinishedAllSteps
  else if existsb has_confirmation step then PendingExecution
  else Ready.
Proof.
  intros Hne. rewrite determine_xtx_status_cons by by destruct step.
  rewrite determine_step_status_eq. unfold step_status_spec.
  apply is_empty_false in Hne. rewrite Hne.
  destruct (existsb has_bid step); [|done].
  destruct (forallb has_bid step); [|done].
  destruct (forallb has_executor step); [|done].
  destruct (forallb has_confirmation step); [done|].
  by destruct (existsb has_confirmation step).
Qed.

(** Case analysis over every status. *)
Ltac destruct_status s := destruct s as [| | | |[]| | | | |[]|].

Definition is_terminal (s : CircuitStatus) : bool :=
  match s with Killed _ | Reverted _ | Committed => true | _ => false end.

Lemma forallb_is_some {A B} (f : A → option B) (l : list A) :
  forallb (λ x, is_some (f x)) l = true ↔ Forall (λ x, is_Some (f x)) l.
Proof.
  rewrite List.forallb_forall, List.Forall_forall. split; intros Hl x Hx;
    specialize (Hl x Hx); destruct (f x); simpl in *; naive_solver.
Qed.

(** ** Properties *)


(** A transaction with one step is reported as finished exactly when the
    step is non-empty and every side effect has a bid, an assigned executor and
    a confirmation. *)
Theorem single_step_finished_iff step :
  determine_xtx_status [step] = FinishedAllSteps ↔
  step ≠ [] ∧
  Forall (λ fsx, is_Some (fsx_best_bid fsx)) step ∧
  Forall (λ fsx, is_Some (sfx_enforce_executor (fsx_input fsx))) step ∧
  Forall (λ fsx, is_Some (fsx_confirmed fsx)) step.
Proof.
  destruct (decide (step = [])) as [->|Hne]; [naive_solver|].
  rewrite determine_xtx_status_single by done.
  rewrite <- !(forallb_is_some (A:=FullSideEffect)).
  change (forallb (λ x, is_some (fsx_best_bid x)) step) with (forallb has_bid step).
  change (forallb (λ x, is_some (fsx_confirmed x)) step) with (forallb has_confirmation step).
  change (forallb (λ x, is_some (sfx_enforce_executor _)) step) with (forallb has_executor step).
  pose proof (forallb_existsb_nonempty has_bid step Hne).
  destruct (forallb has_bid step), (forallb has_executor step),
    (forallb has_confirmation step), (existsb has_bid step),
    (existsb has_confirmation step); naive_solver.
Qed.

(** Once the first step of a transaction is finished, the transaction is
    reported as finished whatever the state of the steps that follow. *)
Theorem later_steps_ignored step rest :
  step ≠ [] → determine_step_status step = Finished →
  determine_xtx_status (step :: rest) = FinishedAllSteps.
Proof. intros Hne Hs. rewrite determine_xtx_status_cons by by destruct step. by rewrite Hs. Qed.

(** An unforced transition goes to the determined status, never leaves a
    terminal one, never enters a killed or reverted one, and goes forward in
    the order of the statuses except when the next step of a finished one
    starts. *)
Theorem unforced_transition_forward previous new s :
  check_transition previous new None = ROk s →
  s = new ∧ is_terminal previous = false ∧ (is_terminal new = true → new = Committed) ∧
  (discriminant previous ≤ discriminant new ∨
   previous = Finished ∧ (new = Ready ∨ new = PendingExecution)).
Proof.
  simpl. intros Hc.
  destruct_status previous; destruct_status new; simpl in *; simplify_eq;
    split_and!; naive_solver lia.
Qed.

(** A forced revert is accepted in every state: before the transaction is
    ready it becomes a kill with the same cause, while it is executing a
    revert, and after that the determined status is kept. *)
Theorem forced_revert_infallible previous new c :
  check_transition previous new (Some (Reverted c)) =
  ROk (if status_ltb new Ready then Killed c
       else if status_ltb new FinishedAllSteps then Reverted c else new).
Proof. by destruct c; destruct_status new. Qed.

(** A forced kill is accepted only before the end of the bidding: up to
    [PendingBidding] on the user's request, up to [InBidding] on a timeout. *)
Theorem forced_kill_iff previous new c :
  check_transition previous new (Some (Killed c)) = ROk (Killed c) ↔
  new = Killed c ∨
  discriminant new ≤ discriminant (match c with
                                   | IntentionalKill => PendingBidding
                                   | Timeout => InBidding
                                   end).
Proof. destruct c; destruct_status new; simpl; naive_solver lia. Qed.

(** ** Witnesses *)

Definition sample_sfx : SideEffect :=
  mkSideEffect [3; 3; 3; 3] 200 50 [] [] [] (Some 7) None.
Definition sample_bid : SFXBid := mkSFXBid 100 50 None None 7 9.
Definition sample_confirmation : ConfirmedSideEffect := mkConfirmed None None [] 7 1 None.
Definition sample_done : FullSideEffect :=
  mkFSX sample_sfx (Some sample_confirmation) Optimistic 0 (Some sample_bid) 0.
Definition sample_fresh : FullSideEffect :=
  mkFSX (set_enforce_executor None sample_sfx) None Optimistic 0 None 1.

Lemma later_steps_ignored_witness :
  determine_step_status [sample_done] = Finished ∧
  determine_xtx_status [[sample_done]; [sample_fresh]] = FinishedAllSteps.
Proof. split; [reflexivity|]. apply later_steps_ignored; [done|reflexivity]. Defined.

Lemma unforced_transition_forward_witness :
  check_transition Finished Ready None = ROk Ready ∧ is_terminal Finished = false.
Proof.
  split; [reflexivity|].
  apply (unforced_transition_forward Finished Ready Ready). reflexivity.
Defined.
