(* ===== verification/AccountManager.v ===== *)
(** * The account manager pallet

    [pallets/account-manager/src/{manager,monetary,lib}.rs] and the trait
    [primitives/src/account_manager.rs]: deposits taken from requesters and
    executors, kept as pending charges until they are committed, reverted,
    slashed or cancelled.

    The native currency ([T::Currency]) and the assets pallet ([T::Assets]) are
    library code: the class [Ledger] takes their operations as parameters and
    [LedgerLaws] states what their documentation promises. *)

From S2P Require Import Prelude Types.

(** ** The currency and the assets *)

Class Ledger (B : Type) := {
  free_balance : B → AccountId → Balance;
  minimum_balance : Balance;
  (** [Currency::withdraw] with [WithdrawReasons::RESERVE] and
      [ExistenceRequirement::KeepAlive]; the imbalance is dropped. *)
  currency_withdraw : AccountId → Balance → B → result DispatchError B;
  (** [Currency::deposit_creating]. *)
  deposit_creating : AccountId → Balance → B → B;
  (** [Currency::transfer] with [KeepAlive], from the first to the second. *)
  currency_transfer : AccountId → AccountId → Balance → B → result DispatchError B;
  (** [fungibles::Inspect::can_withdraw(..) == Success]. *)
  assets_can_withdraw : AssetId → AccountId → Balance → B → bool;
  (** [fungibles::Unbalanced::{increase,decrease}_balance] with [Exact]. *)
  assets_increase_balance : AssetId → AccountId → Balance → B → result DispatchError B;
  assets_decrease_balance : AssetId → AccountId → Balance → B → result DispatchError B;
  (** [T::AssetBalanceOf::convert]. *)
  asset_balance_of : Balance → Balance;
}.

(** The constants of the pallet's [Config] and the conversion of [substrate_abi]
    from [u64] to [Value256]. *)
Class AMConfig := {
  escrow_account : AccountId;
  sabi_convert_u64 : Z → Z;
}.

(** ** Data (primitives/src/{account_manager,claimable,common}.rs) *)

Inductive CircuitRole :=
| Ambassador | Executor | Attester | Staker | Collator | ContractAuthor | Relayer
| Requester | LocalRole.

#[export] Instance CircuitRole_eq_dec : EqDecision CircuitRole.
Proof. solve_decision. Defined.

Inductive BenefitSource :=
| BootstrapPool | Inflation | TrafficFees | TrafficRewards | EscrowUnlock | Unsettled
| SlashTreasury.

#[export] Instance BenefitSource_eq_dec : EqDecision BenefitSource.
Proof. solve_decision. Defined.

Inductive Outcome := UnexpectedFailure | Revert | Commit | Slash.

#[export] Instance Outcome_eq_dec : EqDecision Outcome.
Proof. solve_decision. Defined.

Record RequestCharge := mkCharge {
  payee : AccountId;
  offered_reward : Balance;
  maybe_asset_id : option AssetId;
  charge_fee : Balance;
  recipient : option AccountId;
  source : BenefitSource;
  role : CircuitRole;
}.

Record Settlement := mkSettlement {
  st_requester : AccountId;
  st_recipient : AccountId;
  settlement_amount : Balance;
  st_maybe_asset_id : option AssetId;
  st_outcome : Outcome;
  st_source : BenefitSource;
  st_role : CircuitRole;
}.

#[export] Instance RequestCharge_eq_dec : EqDecision RequestCharge.
Proof. solve_decision. Defined.
#[export] Instance Settlement_eq_dec : EqDecision Settlement.
Proof. solve_decision. Defined.

(** [RoundInfo]: index, head and term. *)
Abbreviation RoundInfo := (Z * Z * Z)%type (only parsing).

Inductive AMEvent :=
| DepositReceived (charge_id : Hash) (payee : AccountId) (recipient : option AccountId)
    (amount : Balance).

(** The storage of the pallet, the ledger it works on and the current round of
    the clock. *)
Record AMState (B : Type) := mkAM {
  bank : B;
  pending_charges : gmap Z RequestCharge;
  settlements_per_round : gmap (Z * Z * Z * Z) Settlement;
  contracts_registry_execution_nonce : Z;
  current_round : Z * Z * Z;
  am_events : list AMEvent;
}.
Arguments mkAM {B}.
Arguments bank {B}.
Arguments pending_charges {B}.
Arguments settlements_per_round {B}.
Arguments contracts_registry_execution_nonce {B}.
Arguments current_round {B}.
Arguments am_events {B}.

Section Updates.
Context {B : Type}.
Implicit Types s : AMState B.

Definition set_bank (b : B) s : AMState B :=
  mkAM b (pending_charges s) (settlements_per_round s) (contracts_registry_execution_nonce s)
    (current_round s) (am_events s).
Definition set_pending (m : gmap Z RequestCharge) s : AMState B :=
  mkAM (bank s) m (settlements_per_round s) (contracts_registry_execution_nonce s)
    (current_round s) (am_events s).
Definition set_settlements (m : gmap (Z * Z * Z * Z) Settlement) s : AMState B :=
  mkAM (bank s) (pending_charges s) m (contracts_registry_execution_nonce s)
    (current_round s) (am_events s).
Definition set_execution_nonce (n : Z) s : AMState B :=
  mkAM (bank s) (pending_charges s) (settlements_per_round s) n (current_round s) (am_events s).
Definition am_deposit_event (e : AMEvent) s : AMState B :=
  mkAM (bank s) (pending_charges s) (settlements_per_round s)
    (contracts_registry_execution_nonce s) (current_round s) (e :: am_events s).
End Updates.

Definition set_recipient (r : option AccountId) (c : RequestCharge) : RequestCharge :=
  mkCharge (payee c) (offered_reward c) (maybe_asset_id c) (charge_fee c) r (source c) (role c).

(** ** Monetary (monetary.rs) *)

Section Monetary.
Context {B : Type} `{Ledger B}.

(** The result of [increase_balance] is dropped. *)
Definition monetary_deposit (beneficiary : AccountId) (asset_id : option AssetId) (amount : Balance)
    (b : B) : B :=
  match asset_id with
  | None => deposit_creating beneficiary amount b
  | Some asset =>
      match assets_increase_balance asset beneficiary (asset_balance_of amount) b with
      | ROk b' => b'
      | RErr _ => b
      end
  end.

Definition monetary_can_withdraw (beneficiary : AccountId) (asset_id : option AssetId)
    (amount : Balance) (b : B) : bool :=
  match asset_id with
  | None => amount <=? (free_balance b beneficiary + minimum_balance) mod 2 ^ 128
  | Some asset => assets_can_withdraw asset beneficiary (asset_balance_of amount) b
  end.

Definition monetary_withdraw (src : AccountId) (amount : Balance) (asset_id : option AssetId)
    (b : B) : result DispatchError B :=
  match asset_id with
  | None => currency_withdraw src amount b
  | Some asset => assets_decrease_balance asset src (asset_balance_of amount) b
  end.
End Monetary.

(** ** The pallet (manager.rs) *)

Definition percent_ratio (amt percent : Z) : result DispatchError Z :=
  if amt * percent <=? u128_max then ROk (amt * percent / 100)
  else RErr (Other "PercentRatio::ChargeOrSettlementCalculationOverflow").

Section Pallet.
Context {B : Type} `{Ledger B} `{AMConfig}.
Abbreviation AM := (M (AMState B) DispatchError).
Implicit Types s : AMState B.

Definition get_charge_or_fail (charge_id : Hash) : AM RequestCharge :=
  o ← gets (λ s, pending_charges s !! charge_id);
  ok_or o (AccountManagerError NoChargeOfGivenIdRegistered).

Definition no_charge_or_fail (charge_id : Hash) : AM unit :=
  o ← gets (λ s, pending_charges s !! charge_id);
  ensure (is_none o) (AccountManagerError ChargeAlreadyRegistered).

Definition get_settlement (settlement_id : Hash) s : option Settlement :=
  settlements_per_round s !! (current_round s, settlement_id).

(** All settlements of the current round with the given role. *)
Definition get_settlements_by_role (r : CircuitRole) s : list (AccountId * Settlement) :=
  let settlements :=
    filter (λ kv, bool_decide (kv.1.1 = current_round s)) (map_to_list (settlements_per_round s)) in
  map (λ kv, (st_recipient kv.2, kv.2)) (filter (λ kv, st_role kv.2 = r) settlements).

(** [*nonce += 1] on a [u64]; the SCALE encoding of a [U256] is little-endian,
    and [T::Hash::decode] reads the 32 bytes as they are. *)
Definition bump_contracts_registry_nonce : AM Hash :=
  execution_id ← gets contracts_registry_execution_nonce;
  modify (set_execution_nonce ((execution_id + 1) mod 2 ^ 64)) ;;
  let charge_id := from_be_bytes (le_bytes 32 (sabi_convert_u64 execution_id)) in
  no_charge_or_fail charge_id ;;
  mret charge_id.

Definition validate_deposit (charge_id : Hash) (request_charge : RequestCharge) : AM Balance :=
  map_err (λ _, AccountManagerError ExecutionAlreadyRegistered) (no_charge_or_fail charge_id) ;;
  match checked_add u128_max (charge_fee request_charge) (offered_reward request_charge) with
  | Some checked_reserve => mret checked_reserve
  | None => throw ArithmeticOverflow
  end.

Definition can_withdraw (payee : AccountId) (amount : Balance) (asset_id : option AssetId) s : bool :=
  if is_remote (order_origin_new payee) then true
  else monetary_can_withdraw payee asset_id amount (bank s).

Definition deposit_immediately (beneficiary : AccountId) (amount : Balance)
    (asset_id : option AssetId) s : AMState B :=
  set_bank (monetary_deposit beneficiary asset_id amount (bank s)) s.

Definition withdraw_immediately (payee : AccountId) (amount : Balance)
    (asset_id : option AssetId) : AM unit := λ s,
  if is_remote (order_origin_new payee) then Ok tt s
  else
    match monetary_withdraw payee amount asset_id (bank s) with
    | ROk b => Ok tt (set_bank b s)
    | RErr e => Err e s
    end.

Fixpoint validate_batch (batch : list (Hash * RequestCharge))
    : AM (list (Hash * RequestCharge * Balance)) :=
  match batch with
  | [] => mret []
  | (charge_id, request_charge) :: rest =>
      total ← validate_deposit charge_id request_charge;
      validated ← validate_batch rest;
      mret ((charge_id, request_charge, total) :: validated)
  end.

Definition take_deposit (v : Hash * RequestCharge * Balance) : AM unit :=
  let '(charge_id, request_charge, total_deposit) := v in
  withdraw_immediately (payee request_charge) total_deposit (maybe_asset_id request_charge) ;;
  modify (λ s, set_pending (<[charge_id := request_charge]> (pending_charges s)) s) ;;
  modify (am_deposit_event (DepositReceived charge_id (payee request_charge)
                              (recipient request_charge) total_deposit)).

Definition deposit_batch (batch : list (Hash * RequestCharge)) : AM unit :=
  validated_requests ← validate_batch batch;
  for_each validated_requests take_deposit.

Definition deposit (charge_id : Hash) (request_charge : RequestCharge) : AM unit :=
  deposit_batch [(charge_id, request_charge)].

Definition insert_settlement (charge_id : Hash) (c : RequestCharge) (recipient : AccountId)
    (outcome : Outcome) s : AMState B :=
  set_settlements
    (<[(current_round s, charge_id) :=
        {| st_requester := payee c; st_recipient := recipient;
           settlement_amount := offered_reward c; st_outcome := outcome;
           st_source := source c; st_role := role c;
           st_maybe_asset_id := maybe_asset_id c |}]> (settlements_per_round s)) s.

Definition remove_charge (charge_id : Hash) s : AMState B :=
  set_pending (delete charge_id (pending_charges s)) s.

(** The tail of [finalize_infallible]: the charge fee goes to the escrow
    account and the charge is removed. *)
Definition take_fee_and_remove (charge_id : Hash) (charge : RequestCharge) s : AMState B * bool :=
  let s := if 0 <? charge_fee charge
           then deposit_immediately escrow_account (charge_fee charge) (maybe_asset_id charge) s
           else s in
  (remove_charge charge_id s, true).

Definition finalize_infallible (charge_id : Hash) (outcome : Outcome) s : AMState B * bool :=
  match pending_charges s !! charge_id with
  | None => (s, false)
  | Some charge =>
      let recipient := match recipient charge with Some r => r | None => escrow_account end in
      if 0 <? offered_reward charge then
        match outcome with
        | Commit =>
            if is_remote (order_origin_new (payee charge)) then
              (remove_charge charge_id s, false)
            else if bool_decide (source charge = EscrowUnlock) then
              (deposit_immediately recipient (offered_reward charge) (maybe_asset_id charge) s, true)
            else
              take_fee_and_remove charge_id charge
                (insert_settlement charge_id charge recipient outcome s)
        | Slash =>
            take_fee_and_remove charge_id charge
              (deposit_immediately escrow_account (offered_reward charge) (maybe_asset_id charge) s)
        | UnexpectedFailure | Revert =>
            take_fee_and_remove charge_id charge
              (deposit_immediately (payee charge) (offered_reward charge) (maybe_asset_id charge) s)
        end
      else take_fee_and_remove charge_id charge s
  end.

Definition finalize (charge_id : Hash) (outcome : Outcome)
    (_maybe_recipient : option AccountId) (_maybe_actual_fees : option Balance) : AM unit :=
  run_total (finalize_infallible charge_id outcome) ;; mret tt.

Definition cancel_deposit (charge_id : Hash) s : AMState B * bool :=
  match pending_charges s !! charge_id with
  | Some charge =>
      (remove_charge charge_id
         (deposit_immediately (payee charge) (offered_reward charge) (maybe_asset_id charge) s),
       true)
  | None => (s, false)
  end.

Definition assign_deposit (charge_id : Hash) (r : AccountId) s : AMState B * bool :=
  match pending_charges s !! charge_id with
  | Some charge =>
      (set_pending (<[charge_id := set_recipient (Some r) charge]> (pending_charges s)) s, true)
  | None => (s, false)
  end.

Definition transfer_deposit (charge_id new_charge_id : Hash) (new_reward : option Balance)
    (new_payee new_recipient : option AccountId) : AM unit :=
  o ← gets (λ s, pending_charges s !! charge_id);
  match o with
  | Some charge =>
      let offered := default (offered_reward charge) new_reward in
      let payee' := default (payee charge) new_payee in
      let recipient' := match new_recipient with Some r => Some r | None => recipient charge end in
      released ← run_total (cancel_deposit charge_id);
      ensure released (AccountManagerError TransferDepositFailedToReleasePreviousCharge) ;;
      deposit new_charge_id
        {| payee := payee'; offered_reward := offered; charge_fee := charge_fee charge;
           role := role charge; source := source charge; recipient := recipient';
           maybe_asset_id := maybe_asset_id charge |}
  | None => throw (AccountManagerError TransferDepositFailedOldChargeNotFound)
  end.
End Pallet.

(** ** The dispatchables of the pallet (lib.rs) *)

Inductive RawOrigin := Root | Signed (who : AccountId) | NoneOrigin.

Definition ensure_root {S} (o : RawOrigin) : M S DispatchError unit :=
  match o with Root => mret tt | _ => throw BadOrigin end.
Definition ensure_signed {S} (o : RawOrigin) : M S DispatchError AccountId :=
  match o with Signed who => mret who | _ => throw BadOrigin end.

Section Calls.
Context {B : Type} `{Ledger B} `{AMConfig}.

Definition call_deposit (origin : RawOrigin) (charge_id : Hash) (payee : AccountId)
    (charge_fee offered_reward : Balance) (source : BenefitSource) (role : CircuitRole)
    (recipient : option AccountId) (maybe_asset_id : option AssetId)
    : M (AMState B) DispatchError unit :=
  transactional
    (ensure_root origin ;;
     deposit charge_id
       {| payee := payee; offered_reward := offered_reward; charge_fee := charge_fee;
          source := source; role := role; recipient := recipient;
          maybe_asset_id := maybe_asset_id |}).

Definition call_finalize (origin : RawOrigin) (charge_id : Hash) (outcome : Outcome)
    (maybe_recipient : option AccountId) (maybe_actual_fees : option Balance)
    : M (AMState B) DispatchError unit :=
  transactional
    (ensure_root origin ;;
     finalize charge_id outcome maybe_recipient maybe_actual_fees).
End Calls.

(** ** The trait [AccountManager] as an interface

    What the Circuit uses of the trait, and what it may rely on: the effect of
    each operation on the set of pending charges. *)

Class AccountManager (S : Type) := {
  am_get_charge_or_fail : Hash → M S DispatchError RequestCharge;
  am_deposit_batch : list (Hash * RequestCharge) → M S DispatchError unit;
  am_deposit : Hash → RequestCharge → M S DispatchError unit;
  am_finalize_infallible : Hash → Outcome → S → S * bool;
  am_cancel_deposit : Hash → S → S * bool;
  am_assign_deposit : Hash → AccountId → S → S * bool;
  am_transfer_deposit : Hash → Hash → option Balance → option AccountId →
                        option AccountId → M S DispatchError unit;
  am_can_withdraw : AccountId → Balance → option AssetId → S → bool;
}.

(** A charge that [finalize_infallible] pays out but leaves registered. *)
Definition survives_commit (outcome : Outcome) (c : RequestCharge) : bool :=
  bool_decide (outcome = Commit) && (0 <? offered_reward c)
  && negb (is_remote (order_origin_new (payee c))) && bool_decide (source c = EscrowUnlock).

(** The charge [transfer_deposit] registers in place of [c]. *)
Definition transferred_charge (c : RequestCharge) (new_reward : option Balance)
    (new_payee new_recipient : option AccountId) : RequestCharge :=
  {| payee := default (payee c) new_payee;
     offered_reward := default (offered_reward c) new_reward;
     charge_fee := charge_fee c; role := role c; source := source c;
     recipient := match new_recipient with Some r => Some r | None => recipient c end;
     maybe_asset_id := maybe_asset_id c |}.

Definition register_all (batch : list (Hash * RequestCharge)) (m : gmap Z RequestCharge)
    : gmap Z RequestCharge :=
  fold_left (λ m e, <[e.1 := e.2]> m) batch m.

Class AccountManagerSpec (S : Type) `{AccountManager S} := {
  charges : S → gmap Z RequestCharge;
  spec_get_charge id s :
    am_get_charge_or_fail id s =
    match charges s !! id with
    | Some c => Ok c s
    | None => Err (AccountManagerError NoChargeOfGivenIdRegistered) s
    end;
  spec_deposit_batch batch s :
    wp (am_deposit_batch batch)
      (λ _ s', charges s' = register_all batch (charges s) ∧
               Forall (λ e, charges s !! e.1 = None) batch)
      (λ _ _, True) s;
  spec_deposit id c s : am_deposit id c s = am_deposit_batch [(id, c)] s;
  spec_finalize id outcome s :
    charges (am_finalize_infallible id outcome s).1 =
      match charges s !! id with
      | Some c => if survives_commit outcome c then charges s else delete id (charges s)
      | None => charges s
      end;
  spec_cancel id s :
    charges (am_cancel_deposit id s).1 = delete id (charges s) ∧
    (am_cancel_deposit id s).2 = is_some (charges s !! id);
  spec_assign id r s :
    charges (am_assign_deposit id r s).1 = alter (set_recipient (Some r)) id (charges s) ∧
    (am_assign_deposit id r s).2 = is_some (charges s !! id);
  spec_transfer id new_id reward new_payee new_recipient s :
    wp (am_transfer_deposit id new_id reward new_payee new_recipient)
      (λ _ s', ∃ c, charges s !! id = Some c ∧
         charges s' = <[new_id := transferred_charge c reward new_payee new_recipient]>
                        (delete id (charges s)))
      (λ _ _, True) s;
}.

Section Instances.
Context {B : Type} `{Ledger B} `{AMConfig}.

#[export] Instance pallet_account_manager : AccountManager (AMState B) := {
  am_get_charge_or_fail := get_charge_or_fail;
  am_deposit_batch := deposit_batch;
  am_deposit := deposit;
  am_finalize_infallible := finalize_infallible;
  am_cancel_deposit := cancel_deposit;
  am_assign_deposit := assign_deposit;
  am_transfer_deposit := transfer_deposit;
  am_can_withdraw := can_withdraw;
}.
End Instances.

(** ** Lemmas on the pallet *)

Section Facts.
Context {B : Type} `{Ledger B} `{AMConfig}.
Implicit Types s : AMState B.

Lemma validate_deposit_Ok id c s t s' :
  validate_deposit id c s = Ok t s' →
  s' = s ∧ pending_charges s !! id = None ∧ t = charge_fee c + offered_reward c ∧ t ≤ u128_max.
Proof.
  unfold validate_deposit, no_charge_or_fail. intros Hv. monad_inv.
  destruct (checked_add _ _ _) eqn:Hc; [|discriminate]. monad_inv.
  apply checked_add_Some in Hc as [-> ?].
  split_and!; try done. by destruct (pending_charges _ !! id).
Qed.

Lemma validate_deposit_total id c s :
  validate_deposit id c s ≠ Panic ∧
  (∀ e s', validate_deposit id c s = Err e s' → s' = s).
Proof.
  unfold validate_deposit, no_charge_or_fail, map_err, ensure, mbind, M_bind, gets.
  destruct (is_none _); simpl; [|naive_solver].
  destruct (checked_add _ _ _); simpl; unfold mret, M_ret, throw; naive_solver.
Qed.

(** Validation reads the storage only. *)
Lemma validate_batch_spec batch s :
  wp (validate_batch batch)
    (λ v s', s' = s ∧ v.*1 = batch ∧
       Forall (λ e, e.2 = charge_fee e.1.2 + offered_reward e.1.2 ∧ e.2 ≤ u128_max) v ∧
       Forall (λ e, pending_charges s !! e.1 = None) batch)
    (λ _ s', s' = s) s.
Proof.
  induction batch as [|[id c] batch IH]; [done|].
  cbn [validate_batch]. apply wp_bind. unfold wp at 1.
  destruct (validate_deposit id c s) as [t s1|e s1|] eqn:Hv.
  - apply validate_deposit_Ok in Hv as (-> & Hid & Ht & Hm).
    apply wp_bind. eapply wp_mono; [apply IH| |done].
    intros v s' (-> & Hv & Ht' & Hids). apply wp_ret.
    split_and!; [done| |constructor; naive_solver|constructor; naive_solver].
    by rewrite fmap_cons, Hv.
  - by apply validate_deposit_total in Hv.
  - by apply validate_deposit_total in Hv.
Qed.

(** [take_deposit] in terms of the withdrawal it makes. *)
Lemma take_deposit_spec (P : AMState B → Prop) id c t s :
  (∀ s', withdraw_immediately (payee c) t (maybe_asset_id c) s = Ok tt s' →
     P (am_deposit_event (DepositReceived id (payee c) (recipient c) t)
          (set_pending (<[id := c]> (pending_charges s')) s'))) →
  wp (take_deposit (id, c, t)) (λ _, P) (λ _ s', s' = s) s.
Proof.
  intros HP. unfold take_deposit. apply wp_bind. unfold wp at 1.
  destruct (withdraw_immediately _ _ _ s) as [[] s1|e s1|] eqn:Hw.
  - by apply HP.
  - unfold withdraw_immediately in Hw. repeat case_match; by simplify_eq.
  - unfold withdraw_immediately in Hw. by repeat case_match.
Qed.

Lemma deposit_Ok_inv id c s s' :
  deposit id c s = Ok tt s' →
  ∃ s1, pending_charges s !! id = None ∧
    withdraw_immediately (payee c) (charge_fee c + offered_reward c) (maybe_asset_id c) s = Ok tt s1 ∧
    s' = am_deposit_event (DepositReceived id (payee c) (recipient c) (charge_fee c + offered_reward c))
           (set_pending (<[id := c]> (pending_charges s1)) s1).
Proof.
  unfold deposit, deposit_batch. intros (v & s0 & Hv & Hd)%bind_Ok_inv.
  pose proof (validate_batch_spec [(id, c)] s) as Hwp. unfold wp in Hwp. rewrite Hv in Hwp.
  destruct Hwp as (-> & Hv1 & Ht & Hid). destruct v as [|[e t] [|? ?]]; try discriminate Hv1.
  injection Hv1 as ->. apply Forall_cons in Ht as [[Ht _] _]. simpl in Ht. subst t.
  apply Forall_cons in Hid as [Hid _]. cbn [for_each] in Hd.
  apply bind_Ok_inv in Hd as ([] & s2 & Hd & [= <-]). unfold take_deposit in Hd.
  apply bind_Ok_inv in Hd as ([] & s1 & Hw & Hd). exists s1. split_and!; [done..|].
  by injection Hd as <-.
Qed.

Lemma withdraw_immediately_frame who amt asset s s' :
  withdraw_immediately who amt asset s = Ok tt s' →
  ∃ b, s' = set_bank b s.
Proof.
  unfold withdraw_immediately. intros. repeat case_match; simplify_eq; [|by eexists].
  exists (bank s'). by destruct s'.
Qed.

Lemma take_all_registers v s :
  wp (for_each v take_deposit)
    (λ _ s', pending_charges s' = register_all v.*1 (pending_charges s))
    (λ _ _, True) s.
Proof.
  revert s. induction v as [|[[id c] t] v IH]; intros s; [done|].
  cbn [for_each]. apply wp_bind.
  eapply wp_mono; [apply (take_deposit_spec (λ s', pending_charges s' = <[id := c]> (pending_charges s)))| |done].
  - intros s' Hw. apply withdraw_immediately_frame in Hw as [b ->]. done.
  - intros [] s1 Hs1. eapply wp_mono; [apply IH| |done].
    intros [] s2 ->. simpl. by rewrite Hs1.
Qed.

Lemma deposit_batch_registers batch s :
  wp (deposit_batch batch)
    (λ _ s', pending_charges s' = register_all batch (pending_charges s) ∧
             Forall (λ e, pending_charges s !! e.1 = None) batch)
    (λ _ _, True) s.
Proof.
  unfold deposit_batch. apply wp_bind.
  eapply wp_mono; [apply validate_batch_spec| |done].
  intros v s1 (-> & Hv & _ & Hids). eapply wp_mono; [apply take_all_registers| |done].
  intros [] s2 Hs2. by rewrite Hs2, Hv.
Qed.

Lemma take_fee_and_remove_charges id c s :
  pending_charges (take_fee_and_remove id c s).1 = delete id (pending_charges s).
Proof. unfold take_fee_and_remove. by destruct (0 <? charge_fee c). Qed.

(** What [finalize_infallible] does to a registered charge. *)
Lemma finalize_charges id outcome s :
  pending_charges (finalize_infallible id outcome s).1 =
  match pending_charges s !! id with
  | Some c => if survives_commit outcome c then pending_charges s
              else delete id (pending_charges s)
  | None => pending_charges s
  end.
Proof.
  unfold finalize_infallible, survives_commit.
  destruct (pending_charges s !! id) as [c|] eqn:Hc; [|done].
  destruct (is_remote (order_origin_new (payee c))), (0 <? offered_reward c), outcome;
    rewrite ?take_fee_and_remove_charges; try done.
  by case_bool_decide; rewrite ?take_fee_and_remove_charges.
Qed.

Lemma transfer_deposit_charges id new_id reward new_payee new_recipient s :
  wp (transfer_deposit id new_id reward new_payee new_recipient)
    (λ _ s', ∃ c, pending_charges s !! id = Some c ∧
       pending_charges s' =
         <[new_id := transferred_charge c reward new_payee new_recipient]>
           (delete id (pending_charges s)))
    (λ _ _, True) s.
Proof.
  unfold transfer_deposit. apply wp_bind. unfold wp at 1, gets.
  destruct (pending_charges s !! id) as [c|] eqn:Hc; [|done].
  apply wp_bind. unfold wp at 1, run_total, cancel_deposit. rewrite Hc. cbn [fst snd].
  apply wp_bind, wp_ensure; [|done]. intros _. unfold deposit.
  eapply wp_mono; [apply deposit_batch_registers| |done].
  intros [] s' [Hs' _]. exists c. split; [done|]. by rewrite Hs'.
Qed.

#[export] Instance pallet_account_manager_spec : AccountManagerSpec (AMState B).
Proof.
  refine {| charges := pending_charges |}.
  - intros id s. simpl. unfold get_charge_or_fail, mbind, M_bind, gets, ok_or.
    by destruct (pending_charges s !! id).
  - apply deposit_batch_registers.
  - done.
  - apply finalize_charges.
  - intros id s. simpl. unfold cancel_deposit.
    destruct (pending_charges s !! id) eqn:Hc; [done|]. by rewrite delete_id.
  - intros id r s. simpl. unfold assign_deposit.
    destruct (pending_charges s !! id) as [c|] eqn:Hc; simpl; (split; [|done]);
      apply map_eq; intros j; rewrite ?lookup_insert, lookup_alter;
      case_decide; subst; rewrite ?Hc; done.
  - apply transfer_deposit_charges.
Defined.
End Facts.
