(* ===== verification/Solvency.v ===== *)
(** * Solvency of the account manager

    What the pallet promises about money: no operation creates value, a
    deposit that is cancelled or reverted returns what it took, a charge is
    settled once. *)

From Stdlib Require Import ZArith Lia.
From S2P Require Import Prelude Types AccountManager.

(** ** The laws of the ledger

    [holdings b a] is the sum of the balances of all accounts in the asset [a]
    ([None] is the native currency).  A native deposit may be dropped when it
    cannot create the account, so that it adds at most its amount. *)

Definition amount_in (a asset : option AssetId) (x : Z) : Z :=
  if bool_decide (asset = a) then x else 0.

Class LedgerLaws (B : Type) `{Ledger B} := {
  holdings : B → option AssetId → Z;
  withdraw_law who amt b b' a :
    currency_withdraw who amt b = ROk b' →
    holdings b' a = holdings b a - amount_in a None amt;
  withdraw_balance_law who amt b b' :
    currency_withdraw who amt b = ROk b' →
    free_balance b' who = free_balance b who - amt ∧
    (0 < amt → minimum_balance ≤ free_balance b' who);
  deposit_law who amt b a :
    0 ≤ amt →
    holdings (deposit_creating who amt b) a ≤ holdings b a + amount_in a None amt;
  deposit_balance_law who amt b :
    minimum_balance ≤ free_balance b who →
    free_balance (deposit_creating who amt b) who = free_balance b who + amt;
  decrease_law id who amt b b' a :
    assets_decrease_balance id who amt b = ROk b' →
    holdings b' a = holdings b a - amount_in a (Some id) amt;
  increase_law id who amt b b' a :
    assets_increase_balance id who amt b = ROk b' →
    holdings b' a = holdings b a + amount_in a (Some id) amt;
  (** [AssetBalanceOf] is [ConvertInto] between equal types. *)
  convert_law amt : asset_balance_of amt = amt;
}.

(** ** A ledger that satisfies the laws

    Balances as finite maps, every account exists, overdrafts are refused. *)

Module SimpleLedger.
Record ledger := mkLedger {
  native : gmap Z Z;
  assets : gmap Z (gmap Z Z);
}.

Definition bal (m : gmap Z Z) (who : Z) : Z := default 0 (m !! who).
Definition asset_map (b : ledger) (id : Z) : gmap Z Z := default ∅ (assets b !! id).
Definition credit (m : gmap Z Z) (who amt : Z) : gmap Z Z := <[who := bal m who + amt]> m.

Definition sl_withdraw (who amt : Z) (b : ledger) : result DispatchError ledger :=
  if bal (native b) who - amt <? 0 then RErr (Token "FundsUnavailable")
  else ROk (mkLedger (credit (native b) who (- amt)) (assets b)).
Definition sl_deposit (who amt : Z) (b : ledger) : ledger :=
  mkLedger (credit (native b) who amt) (assets b).
Definition sl_transfer (from to amt : Z) (b : ledger) : result DispatchError ledger :=
  match sl_withdraw from amt b with
  | ROk b' => ROk (sl_deposit to amt b')
  | RErr e => RErr e
  end.
Definition asset_credit (id who amt : Z) (b : ledger) : ledger :=
  mkLedger (native b) (<[id := credit (asset_map b id) who amt]> (assets b)).
Definition sl_decrease (id who amt : Z) (b : ledger) : result DispatchError ledger :=
  if bal (asset_map b id) who - amt <? 0 then RErr (Token "FundsUnavailable")
  else ROk (asset_credit id who (- amt) b).

#[export] Instance simple_ledger : Ledger ledger := {
  free_balance b who := bal (native b) who;
  minimum_balance := 0;
  currency_withdraw := sl_withdraw;
  deposit_creating := sl_deposit;
  currency_transfer := sl_transfer;
  assets_can_withdraw id who amt b := amt <=? bal (asset_map b id) who;
  assets_increase_balance id who amt b := ROk (asset_credit id who amt b);
  assets_decrease_balance := sl_decrease;
  asset_balance_of x := x;
}.

Definition sl_total (b : ledger) (a : option Z) : Z :=
  map_sum id (match a with None => native b | Some i => asset_map b i end).

Lemma credit_sum m who amt : map_sum id (credit m who amt) = map_sum id m + amt.
Proof.
  unfold credit, bal. destruct (m !! who) as [v|] eqn:Hv; simpl.
  - rewrite (map_sum_delete id m who v), <- insert_delete_eq, map_sum_insert by
      (done || apply lookup_delete_eq). unfold id. lia.
  - rewrite map_sum_insert by done. unfold id. lia.
Qed.

Lemma credit_bal m who amt : bal (credit m who amt) who = bal m who + amt.
Proof. unfold credit, bal at 1. by rewrite lookup_insert_eq. Qed.

Lemma total_native m m' l a :
  sl_total (mkLedger m l) a = sl_total (mkLedger m' l) a + amount_in a None (map_sum id m - map_sum id m').
Proof.
  unfold sl_total, amount_in, asset_map. destruct a; case_bool_decide; simplify_eq; simpl; lia.
Qed.

Lemma total_asset b i who amt a :
  sl_total (asset_credit i who amt b) a = sl_total b a + amount_in a (Some i) amt.
Proof.
  unfold sl_total, asset_credit, asset_map, amount_in. destruct a as [j|]; simpl;
    [rewrite lookup_insert|]; repeat (case_decide || case_bool_decide); simplify_eq; simpl;
    rewrite ?credit_sum; lia.
Qed.

#[export] Instance simple_ledger_laws : LedgerLaws ledger.
Proof.
  refine {| holdings := sl_total |}.
  - intros who amt b b' a Hw. simpl in Hw. unfold sl_withdraw in Hw. case_match; simplify_eq.
    destruct b as [m l]. simpl. rewrite (total_native _ m), credit_sum. unfold amount_in.
    case_bool_decide; lia.
  - intros who amt b b' Hw. simpl in *. unfold sl_withdraw in Hw. case_match eqn:Hb; simplify_eq.
    simpl. rewrite credit_bal. apply Z.ltb_ge in Hb. lia.
  - intros who amt [m l] a Ha. simpl. unfold sl_deposit. rewrite (total_native _ m), credit_sum.
    unfold amount_in. simpl. case_bool_decide; lia.
  - intros who amt b _. simpl. by rewrite credit_bal.
  - intros i who amt b b' a Hd. simpl in Hd. unfold sl_decrease in Hd. case_match; simplify_eq.
    rewrite total_asset. unfold amount_in. case_bool_decide; lia.
  - intros i who amt b b' a Hi. simpl in Hi. simplify_eq. by rewrite total_asset.
  - done.
Defined.
End SimpleLedger.

(** ** Value *)

Section Solvency.
Context {B : Type} `{HL : Ledger B} `{!LedgerLaws B} `{AMConfig}.
Implicit Types s : AMState B.

(** What a pending charge holds for its payee: nothing was taken from a remote
    one. *)
Definition charge_value (a : option AssetId) (c : RequestCharge) : Z :=
  amount_in a (maybe_asset_id c)
    (if is_remote (order_origin_new (payee c)) then 0 else charge_fee c + offered_reward c).
Definition settlement_value (a : option AssetId) (x : Settlement) : Z :=
  amount_in a (st_maybe_asset_id x) (settlement_amount x).

(** The balances of the accounts, the pending charges and the settlements not
    yet paid out. *)
Definition value (a : option AssetId) s : Z :=
  holdings (bank s) a + map_sum (charge_value a) (pending_charges s)
  + map_sum (settlement_value a) (settlements_per_round s).

(** Amounts are natural numbers, and a charge of a remote payee is empty. *)
Definition charge_wf (c : RequestCharge) : Prop :=
  0 ≤ offered_reward c ∧ 0 ≤ charge_fee c ∧
  (is_remote (order_origin_new (payee c)) = true → offered_reward c = 0 ∧ charge_fee c = 0).
Definition am_wf s : Prop :=
  map_Forall (λ _, charge_wf) (pending_charges s) ∧
  map_Forall (λ _ x, 0 ≤ settlement_amount x) (settlements_per_round s).

(** Well-formed, and not richer than before. *)
Definition solvent_after (s s' : AMState B) : Prop :=
  am_wf s' ∧ ∀ a, value a s' ≤ value a s.

(** The operations of the pallet, as the other pallets call them; an operation
    that fails keeps what it wrote. The commitment of an [EscrowUnlock] charge
    is left out: see [escrow_unlock_paid_twice]. *)
Inductive am_step : AMState B → AMState B → Prop :=
| step_deposit_batch s batch s' :
    Forall (λ e, charge_wf e.2) batch →
    (deposit_batch batch s = Ok tt s' ∨ ∃ e, deposit_batch batch s = Err e s') →
    am_step s s'
| step_finalize s id outcome :
    (∀ c, pending_charges s !! id = Some c → survives_commit outcome c = false) →
    am_step s (finalize_infallible id outcome s).1
| step_cancel s id : am_step s (cancel_deposit id s).1
| step_assign s id r : am_step s (assign_deposit id r s).1
| step_transfer s id new_id reward new_payee new_recipient s' :
    (∀ c, pending_charges s !! id = Some c →
          charge_wf (transferred_charge c reward new_payee new_recipient)) →
    (transfer_deposit id new_id reward new_payee new_recipient s = Ok tt s' ∨
     ∃ e, transfer_deposit id new_id reward new_payee new_recipient s = Err e s') →
    am_step s s'
| step_bump_nonce s s' :
    (∃ h, bump_contracts_registry_nonce s = Ok h s') ∨
    (∃ e, bump_contracts_registry_nonce s = Err e s') →
    am_step s s'.

(** ** Lemmas *)

Lemma amount_in_nonneg a asset x : 0 ≤ x → 0 ≤ amount_in a asset x.
Proof. unfold amount_in. by case_bool_decide. Qed.

Lemma charge_value_nonneg a c : charge_wf c → 0 ≤ charge_value a c.
Proof.
  intros (? & ? & ?). apply amount_in_nonneg. destruct (is_remote _); lia.
Qed.

Lemma monetary_deposit_holdings who asset amt b a :
  0 ≤ amt →
  holdings (monetary_deposit who asset amt b) a ≤ holdings b a + amount_in a asset amt.
Proof.
  intros Hamt. unfold monetary_deposit. destruct asset as [i|].
  - destruct (assets_increase_balance _ _ _ b) eqn:Hi.
    + rewrite (increase_law _ _ _ _ _ a Hi), convert_law. lia.
    + pose proof (amount_in_nonneg a (Some i) amt Hamt). lia.
  - by apply deposit_law.
Qed.

Lemma monetary_withdraw_holdings who amt asset b b' a :
  monetary_withdraw who amt asset b = ROk b' →
  holdings b' a = holdings b a - amount_in a asset amt.
Proof.
  unfold monetary_withdraw. destruct asset as [i|]; intros Hw.
  - rewrite (decrease_law _ _ _ _ _ a Hw), convert_law. done.
  - by apply (withdraw_law who).
Qed.

(** A payment into an account. *)
Lemma deposit_immediately_value who amt asset s a :
  0 ≤ amt → value a (deposit_immediately who amt asset s) ≤ value a s + amount_in a asset amt.
Proof.
  intros Hamt. unfold value, deposit_immediately. simpl.
  pose proof (monetary_deposit_holdings who asset amt (bank s) a Hamt). lia.
Qed.

Lemma deposit_immediately_wf who amt asset s :
  am_wf s → am_wf (deposit_immediately who amt asset s).
Proof. done. Qed.

Lemma remove_charge_wf id s : am_wf s → am_wf (remove_charge id s).
Proof. intros [Hc Hs]. split; [|done]. by apply map_Forall_delete. Qed.

Lemma remove_charge_value id c s a :
  pending_charges s !! id = Some c →
  value a (remove_charge id s) = value a s - charge_value a c.
Proof.
  intros Hc. unfold value, remove_charge. simpl.
  rewrite (map_sum_delete (charge_value a) (pending_charges s) id c) by done. lia.
Qed.
Lemma charges_nonneg a s :
  am_wf s → ∀ k c, pending_charges s !! k = Some c → 0 ≤ charge_value a c.
Proof. intros [Hc _] k c Hk. apply charge_value_nonneg. by apply (Hc k). Qed.

Lemma solvent_refl s : am_wf s → solvent_after s s.
Proof. intros Hs. split; [done|]. intros a. lia. Qed.

Lemma solvent_trans s1 s2 s3 :
  solvent_after s1 s2 → solvent_after s2 s3 → solvent_after s1 s3.
Proof.
  intros [_ H1] [Hw H2]. split; [done|]. intros a. specialize (H1 a). specialize (H2 a). lia.
Qed.

(** Registering a charge under an id, whatever was there. *)
Lemma insert_charge_value id c s a :
  am_wf s →
  value a (set_pending (<[id := c]> (pending_charges s)) s) ≤ value a s + charge_value a c.
Proof.
  intros Hs. unfold value. simpl.
  pose proof (map_sum_insert_le (charge_value a) (pending_charges s) id c
                (charges_nonneg a s Hs)). lia.
Qed.

Lemma insert_charge_wf id c s :
  am_wf s → charge_wf c → am_wf (set_pending (<[id := c]> (pending_charges s)) s).
Proof. intros [Hc Hs] Hwf. split; [|done]. by apply map_Forall_insert_2. Qed.

(** What a withdrawal takes is what the charge is worth. *)
Lemma withdraw_immediately_value c s s' a :
  withdraw_immediately (payee c) (charge_fee c + offered_reward c) (maybe_asset_id c) s = Ok tt s' →
  value a s' + charge_value a c = value a s ∧ (am_wf s → am_wf s') .
Proof.
  unfold withdraw_immediately, charge_value.
  destruct (is_remote (order_origin_new (payee c))).
  - intros Hw. simplify_eq. split; [|done]. unfold amount_in. case_bool_decide; lia.
  - destruct (monetary_withdraw _ _ _ _) eqn:Hw; [|done]. intros ?. simplify_eq.
    split; [|done]. unfold value. simpl. rewrite (monetary_withdraw_holdings _ _ _ _ _ a Hw). lia.
Qed.

Lemma take_deposit_solvent v s :
  am_wf s → charge_wf v.1.2 → v.2 = charge_fee v.1.2 + offered_reward v.1.2 →
  wp (take_deposit v) (λ _, solvent_after s) (λ _, solvent_after s) s.
Proof.
  intros Hs Hc Ht. destruct v as [[id c] t]. simpl in *. subst t.
  eapply wp_mono; [apply (take_deposit_spec (solvent_after s))|done|].
  - intros s' Hw. split.
    + destruct (withdraw_immediately_value c s s' None Hw) as [_ Hwf].
      apply (insert_charge_wf id c s'); auto.
    + intros a. destruct (withdraw_immediately_value c s s' a Hw) as [Hv Hwf].
      pose proof (insert_charge_value id c s' a (Hwf Hs)) as Hi.
      unfold value in *. simpl in *. lia.
  - intros e s' ->. by apply solvent_refl.
Qed.

Lemma take_all_solvent v s :
  am_wf s →
  Forall (λ e, charge_wf e.1.2 ∧ e.2 = charge_fee e.1.2 + offered_reward e.1.2) v →
  wp (for_each v take_deposit) (λ _, solvent_after s) (λ _, solvent_after s) s.
Proof.
  intros Hs Hv. apply wp_for_each; [|by apply solvent_refl].
  intros x s' Hx Hs'. rewrite Forall_forall in Hv. destruct (Hv _ Hx) as [Hc Ht].
  eapply wp_mono; [apply take_deposit_solvent; [apply Hs'|done..]| |];
    intros ? s'' Hs''; by eapply solvent_trans.
Qed.

Lemma deposit_batch_solvent batch s :
  am_wf s → Forall (λ e, charge_wf e.2) batch →
  wp (deposit_batch batch) (λ _, solvent_after s) (λ _, solvent_after s) s.
Proof.
  intros Hs Hb. unfold deposit_batch. apply wp_bind.
  eapply wp_mono; [apply validate_batch_spec| |intros e s' ->; by apply solvent_refl].
  intros v s' (-> & Hv & Ht & _). apply take_all_solvent; [done|].
  rewrite Forall_forall in Ht. apply Forall_forall. intros e He.
  destruct (Ht e He). split; [|done].
  rewrite Forall_forall in Hb. apply (Hb e.1). rewrite <- Hv. by apply list_elem_of_fmap_2.
Qed.

(** The charge leaves, its reward has gone to [s1], its fee to the escrow
    account. *)
Lemma take_fee_and_remove_solvent id c s s1 :
  am_wf s → pending_charges s !! id = Some c → am_wf s1 →
  pending_charges s1 = pending_charges s →
  (∀ a, value a s1 ≤ value a s + charge_value a c - amount_in a (maybe_asset_id c) (charge_fee c)) →
  solvent_after s (take_fee_and_remove id c s1).1.
Proof.
  intros Hs Hc Hs1 Hp Hv. pose proof (proj1 Hs id c Hc) as (_ & Hf & _).
  unfold take_fee_and_remove. simpl. split.
  - apply remove_charge_wf. by destruct (0 <? charge_fee c).
  - intros a. specialize (Hv a). destruct (Z.ltb_spec 0 (charge_fee c)).
    + rewrite (remove_charge_value id c) by by rewrite <- Hp in Hc.
      pose proof (deposit_immediately_value escrow_account (charge_fee c) (maybe_asset_id c) s1 a).
      lia.
    + rewrite (remove_charge_value id c) by by rewrite <- Hp in Hc.
      assert (charge_fee c = 0) as Hz by lia. rewrite Hz in Hv.
      unfold amount_in in Hv at 1. case_bool_decide; lia.
Qed.

Lemma charge_value_local a c :
  charge_wf c →
  charge_value a c = amount_in a (maybe_asset_id c) (charge_fee c)
                     + amount_in a (maybe_asset_id c) (offered_reward c).
Proof.
  intros (_ & _ & Hr). unfold charge_value, amount_in.
  destruct (is_remote _); case_bool_decide; lia || (destruct Hr; [done|]; lia).
Qed.

Lemma finalize_solvent id outcome s :
  am_wf s →
  (∀ c, pending_charges s !! id = Some c → survives_commit outcome c = false) →
  solvent_after s (finalize_infallible id outcome s).1.
Proof.
  intros Hs Hns. unfold finalize_infallible.
  destruct (pending_charges s !! id) as [c|] eqn:Hc; [|by apply solvent_refl].
  pose proof (proj1 Hs id c Hc) as Hwf. pose proof Hwf as (Hr & Hf & Hrem).
  specialize (Hns c eq_refl). unfold survives_commit in Hns.
  assert (Hpay : ∀ who, solvent_after s
      (take_fee_and_remove id c (deposit_immediately who (offered_reward c) (maybe_asset_id c) s)).1).
  { intros who. apply take_fee_and_remove_solvent; try done. intros a.
    pose proof (deposit_immediately_value who (offered_reward c) (maybe_asset_id c) s a Hr).
    rewrite charge_value_local by done. lia. }
  destruct (0 <? offered_reward c) eqn:Hpos; [apply Z.ltb_lt in Hpos|].
  - destruct outcome; try apply Hpay.
    destruct (is_remote (order_origin_new (payee c))).
    + destruct Hrem; [done|]. lia.
    + destruct (bool_decide (source c = EscrowUnlock)); [done|]. apply take_fee_and_remove_solvent; try done.
      * split; [apply Hs|]. apply map_Forall_insert_2; [done|apply Hs].
      * intros a. unfold value, insert_settlement. simpl.
        rewrite charge_value_local by done.
        match goal with |- context [<[?k := ?v]> _] =>
          pose proof (map_sum_insert_le (settlement_value a) (settlements_per_round s) k v) as Hi;
          assert (settlement_value a v = amount_in a (maybe_asset_id c) (offered_reward c)) by done
        end.
        assert (∀ k x, settlements_per_round s !! k = Some x → 0 ≤ settlement_value a x) as Hnn.
        { intros k x Hx. apply amount_in_nonneg. by apply (proj2 Hs k). }
        specialize (Hi Hnn). lia.
  - apply take_fee_and_remove_solvent; try done. intros a.
    rewrite charge_value_local by done.
    pose proof (amount_in_nonneg a (maybe_asset_id c) (offered_reward c) Hr). lia.
Qed.

Lemma cancel_solvent id s : am_wf s → solvent_after s (cancel_deposit id s).1.
Proof.
  intros Hs. unfold cancel_deposit.
  destruct (pending_charges s !! id) as [c|] eqn:Hc; [|by apply solvent_refl]. simpl.
  pose proof (proj1 Hs id c Hc) as Hwf. pose proof Hwf as (Hr & Hf & _).
  split; [by apply remove_charge_wf|]. intros a.
  rewrite (remove_charge_value id c), (charge_value_local a c) by done.
  pose proof (deposit_immediately_value (payee c) (offered_reward c) (maybe_asset_id c) s a Hr).
  pose proof (amount_in_nonneg a (maybe_asset_id c) (charge_fee c) Hf). lia.
Qed.

Lemma assign_solvent id r s : am_wf s → solvent_after s (assign_deposit id r s).1.
Proof.
  intros Hs. unfold assign_deposit.
  destruct (pending_charges s !! id) as [c|] eqn:Hc; [|by apply solvent_refl]. simpl.
  split; [apply insert_charge_wf; [done|]; exact (proj1 Hs id c Hc)|]. intros a.
  unfold value. simpl. rewrite <- insert_delete_eq, map_sum_insert by apply lookup_delete_eq.
  rewrite (map_sum_delete (charge_value a) (pending_charges s) id c) by done.
  change (charge_value a (set_recipient (Some r) c)) with (charge_value a c). lia.
Qed.

Lemma transfer_solvent id new_id reward new_payee new_recipient s :
  am_wf s →
  (∀ c, pending_charges s !! id = Some c →
        charge_wf (transferred_charge c reward new_payee new_recipient)) →
  wp (transfer_deposit id new_id reward new_payee new_recipient)
    (λ _, solvent_after s) (λ _, solvent_after s) s.
Proof.
  intros Hs Hwf. unfold transfer_deposit. apply wp_bind. unfold wp at 1, gets.
  destruct (pending_charges s !! id) as [c|] eqn:Hc; [|by apply solvent_refl].
  pose proof (cancel_solvent id s Hs) as Hcan. apply wp_bind. unfold wp at 1, run_total.
  apply wp_bind, wp_ensure; [|done]. intros _. unfold deposit.
  eapply wp_mono; [apply deposit_batch_solvent; [apply Hcan|]| |];
    [constructor; [|done]; by apply Hwf|intros ?? Hs'; by eapply solvent_trans..].
Qed.

Lemma bump_nonce_solvent s :
  am_wf s →
  wp bump_contracts_registry_nonce (λ _, solvent_after s) (λ _, solvent_after s) s.
Proof.
  intros Hs. unfold bump_contracts_registry_nonce, no_charge_or_fail, mbind, M_bind, gets, modify.
  cbv zeta. unfold wp. destruct (ensure _ _ _) eqn:He; unfold ensure in He;
    destruct (is_none _) in He; unfold mret, M_ret, throw in *; simplify_eq; done.
Qed.

Lemma wp_outcome {E A} (m : M (AMState B) E A) (P : AMState B → Prop) s s' :
  wp m (λ _, P) (λ _, P) s →
  ((∃ a, m s = Ok a s') ∨ (∃ e, m s = Err e s')) → P s'.
Proof. unfold wp. intros Hwp [[a Ha]|[e He]]; by rewrite ?Ha, ?He in Hwp. Qed.

Lemma am_step_solvent s s' : am_wf s → am_step s s' → solvent_after s s'.
Proof.
  intros Hs Hstep. destruct Hstep.
  - eapply wp_outcome; [by apply deposit_batch_solvent|]. naive_solver.
  - by apply finalize_solvent.
  - by apply cancel_solvent.
  - by apply assign_solvent.
  - eapply wp_outcome; [by apply transfer_solvent|]. naive_solver.
  - eapply wp_outcome; [by apply bump_nonce_solvent|]. naive_solver.
Qed.
End Solvency.

(** ** Properties *)

Section Properties.
Context {B : Type} `{HL : Ledger B} `{!LedgerLaws B} `{AMConfig}.
Implicit Types s : AMState B.


(** A charge from an escrow ([EscrowUnlock]) of a local payee is paid out
    on every commit and stays registered, so that a second finalization pays
    it a second time. *)
Theorem escrow_unlock_paid_twice s id c :
  pending_charges s !! id = Some c → survives_commit Commit c = true →
  let pay := monetary_deposit (default escrow_account (recipient c)) (maybe_asset_id c)
               (offered_reward c) in
  let s1 := (finalize_infallible id Commit s).1 in
  let s2 := (finalize_infallible id Commit s1).1 in
  (finalize_infallible id Commit s).2 = true ∧ (finalize_infallible id Commit s1).2 = true ∧
  pending_charges s2 !! id = Some c ∧ bank s2 = pay (pay (bank s)).
Proof.
  intros Hc Hsv. unfold survives_commit in Hsv.
  apply andb_true_iff in Hsv as [Hsv Hsrc]. apply andb_true_iff in Hsv as [Hsv Hrem].
  apply andb_true_iff in Hsv as [_ Hpos]. apply negb_true_iff in Hrem.
  assert (∀ s0, pending_charges s0 !! id = Some c →
     finalize_infallible id Commit s0 =
     (deposit_immediately (default escrow_account (recipient c)) (offered_reward c)
        (maybe_asset_id c) s0, true)) as Hfin.
  { intros s0 Hs0. unfold finalize_infallible. rewrite Hs0, Hpos, Hrem, Hsrc.
    by destruct (recipient c). }
  cbv zeta. rewrite (Hfin s) by done. cbn [fst snd]. rewrite Hfin by done. done.
Qed.

(** Every other charge is settled once: after a finalization the charge is
    gone, and finalizing it again reports failure and changes nothing. *)
Theorem finalize_settles_once s id outcome outcome' c :
  pending_charges s !! id = Some c → survives_commit outcome c = false →
  let s1 := (finalize_infallible id outcome s).1 in
  pending_charges s1 = delete id (pending_charges s) ∧
  finalize_infallible id outcome' s1 = (s1, false) ∧
  cancel_deposit id s1 = (s1, false).
Proof.
  intros Hc Hsv. cbv zeta. pose proof (finalize_charges id outcome s) as Hp.
  rewrite Hc, Hsv in Hp. split; [done|].
  unfold finalize_infallible at 1, cancel_deposit. by rewrite Hp, lookup_delete_eq.
Qed.

(** Where the money of a finalized charge goes: on a revert back to the
    payee, on a slash to the escrow account, on a commit into a settlement of
    the current round for the recipient (the escrow account by default); the
    fee always goes to the escrow account. *)
Theorem finalize_pays s id outcome c :
  pending_charges s !! id = Some c → survives_commit outcome c = false →
  is_remote (order_origin_new (payee c)) = false →
  0 < offered_reward c → 0 < charge_fee c →
  let s' := (finalize_infallible id outcome s).1 in
  let to := match outcome with
            | Slash => Some escrow_account
            | Revert | UnexpectedFailure => Some (payee c)
            | Commit => None
            end in
  let pay who x := monetary_deposit who (maybe_asset_id c) x in
  bank s' = pay escrow_account (charge_fee c)
              (match to with Some w => pay w (offered_reward c) (bank s) | None => bank s end) ∧
  settlements_per_round s' =
    match outcome with
    | Commit =>
        <[(current_round s, id) :=
           mkSettlement (payee c) (default escrow_account (recipient c)) (offered_reward c)
             (maybe_asset_id c) Commit (source c) (role c)]> (settlements_per_round s)
    | _ => settlements_per_round s
    end.
Proof.
  intros Hc Hsv Hrem Hpos Hfee. cbv zeta. unfold finalize_infallible, survives_commit in *.
  apply Z.ltb_lt in Hpos, Hfee. rewrite Hrem, Hpos in Hsv. rewrite Hc, Hpos, Hrem.
  unfold take_fee_and_remove. rewrite Hfee.
  by destruct outcome; simpl in Hsv; rewrite ?Hsv.
Qed.

(** A deposit that succeeds registers every charge of the batch under ids
    that were free, and leaves the other charges alone. *)
Theorem deposit_batch_registers_all batch s s' :
  NoDup batch.*1 → deposit_batch batch s = Ok tt s' →
  (∀ id c, (id, c) ∈ batch → pending_charges s !! id = None ∧ pending_charges s' !! id = Some c) ∧
  (∀ id, id ∉ batch.*1 → pending_charges s' !! id = pending_charges s !! id).
Proof.
  intros Hnd Hd. pose proof (deposit_batch_registers batch s) as Hwp.
  unfold wp in Hwp. rewrite Hd in Hwp. destruct Hwp as [-> Hfree]. clear Hd.
  assert (∀ m, (∀ id c, (id, c) ∈ batch → register_all batch m !! id = Some c) ∧
               (∀ id, id ∉ batch.*1 → register_all batch m !! id = m !! id)) as Hreg.
  { induction batch as [|[i x] batch IH]; intros m; [split; [set_solver|done]|].
    rewrite fmap_cons in *. apply NoDup_cons in Hnd as [Hi Hnd].
    apply Forall_cons in Hfree as [_ Hfree].
    destruct (IH Hnd Hfree (<[i := x]> m)) as [IH1 IH2].
    unfold register_all in *. cbn [fold_left fst snd] in *. split.
    - intros id c [[= -> ->]|Hin]%elem_of_cons; [|by apply IH1].
      rewrite IH2 by done. apply lookup_insert_eq.
    - intros id [Hne Hin]%not_elem_of_cons. rewrite IH2 by done.
      simpl in Hne. by apply lookup_insert_ne. }
  destruct (Hreg (pending_charges s)) as [H1 H2]. split; [|done]. intros id c Hin.
  split; [|by apply H1]. rewrite Forall_forall in Hfree. by apply (Hfree (id, c)).
Qed.

(** A native deposit without a fee that is cancelled afterwards gives the
    payee its balance back and leaves the set of charges as it was. *)
Theorem deposit_cancel_roundtrip s s' id c :
  is_remote (order_origin_new (payee c)) = false → maybe_asset_id c = None →
  charge_fee c = 0 → 0 < offered_reward c →
  deposit id c s = Ok tt s' →
  free_balance (bank s') (payee c) = free_balance (bank s) (payee c) - offered_reward c ∧
  free_balance (bank (cancel_deposit id s').1) (payee c) = free_balance (bank s) (payee c) ∧
  pending_charges (cancel_deposit id s').1 = pending_charges s.
Proof.
  intros Hrem Hnat Hfee Hpos (s1 & Hid & Hw & ->)%deposit_Ok_inv.
  unfold withdraw_immediately in Hw. rewrite Hrem, Hnat, Hfee, Z.add_0_l in Hw.
  unfold monetary_withdraw in Hw.
  destruct (currency_withdraw _ _ _) as [b|] eqn:Hw'; [|discriminate Hw].
  injection Hw as <-. rename Hw' into Hw.
  apply withdraw_balance_law in Hw as [Hbal Hmin].
  unfold cancel_deposit. simpl. rewrite lookup_insert_eq. simpl. rewrite Hnat. simpl.
  split_and!; [lia| |].
  - rewrite deposit_balance_law by (apply Hmin; lia). lia.
  - rewrite delete_insert_eq. by apply delete_id.
Qed.
End Properties.

(** ** Witnesses *)

Module SolvencySamples.
Import SimpleLedger.

Definition alice : AccountId := 2 ^ 40 + 1.
Definition bob : AccountId := 2 ^ 40 + 2.

Definition sample_am_config : AMConfig :=
  {| escrow_account := 2 ^ 41; sabi_convert_u64 := λ x, x |}.
#[local] Existing Instance sample_am_config.

Definition sample_am : AMState ledger :=
  mkAM (mkLedger {[ alice := 1000; bob := 500 ]} ∅) ∅ ∅ 0 (1, 0, 10) [].

Definition sample_charge (src : BenefitSource) (fee : Z) : RequestCharge :=
  mkCharge alice 200 None fee (Some bob) src Executor.

Definition state_of {E A} (o : outcome (AMState ledger) E A) : AMState ledger :=
  match o with Ok _ s => s | Err _ s => s | Panic => sample_am end.

Definition after_deposit (src : BenefitSource) (fee : Z) : AMState ledger :=
  state_of (deposit 77 (sample_charge src fee) sample_am).


Lemma escrow_unlock_paid_twice_witness :
  let s2 := (finalize_infallible 77 Commit
               (finalize_infallible 77 Commit (after_deposit EscrowUnlock 0)).1).1 in
  pending_charges s2 !! 77 = Some (sample_charge EscrowUnlock 0) ∧ free_balance (bank s2) bob = 900.
Proof.
  pose proof (escrow_unlock_paid_twice (after_deposit EscrowUnlock 0) 77
                (sample_charge EscrowUnlock 0)) as Hp.
  destruct Hp as (_ & _ & Hp & Hb); [vm_compute; reflexivity..|].
  split; [exact Hp|]. rewrite Hb. vm_compute. reflexivity.
Defined.

Lemma finalize_settles_once_witness :
  let s1 := (finalize_infallible 77 Revert (after_deposit TrafficFees 5)).1 in
  finalize_infallible 77 Commit s1 = (s1, false).
Proof.
  apply (finalize_settles_once (after_deposit TrafficFees 5) 77 Revert Commit
           (sample_charge TrafficFees 5)); vm_compute; reflexivity.
Defined.

Lemma finalize_pays_witness :
  bank (finalize_infallible 77 Slash (after_deposit TrafficFees 5)).1 =
  monetary_deposit (2 ^ 41) None 5
    (monetary_deposit (2 ^ 41) None 200 (bank (after_deposit TrafficFees 5))).
Proof.
  destruct (finalize_pays (after_deposit TrafficFees 5) 77 Slash (sample_charge TrafficFees 5))
    as [Hb _]; [vm_compute; reflexivity..|]. exact Hb.
Defined.

Lemma deposit_batch_registers_all_witness :
  pending_charges (after_deposit TrafficFees 5) !! 77 = Some (sample_charge TrafficFees 5).
Proof.
  apply (deposit_batch_registers_all [(77, sample_charge TrafficFees 5)] sample_am
           (after_deposit TrafficFees 5)).
  - simpl. apply NoDup_singleton.
  - vm_compute. reflexivity.
  - by left.
Defined.

Lemma deposit_cancel_roundtrip_witness :
  free_balance (bank (cancel_deposit 77 (after_deposit TrafficFees 0)).1) alice = 1000.
Proof.
  destruct (deposit_cancel_roundtrip sample_am (after_deposit TrafficFees 0) 77
              (sample_charge TrafficFees 0)) as (_ & Hb & _); [vm_compute; reflexivity..|].
  change (payee (sample_charge TrafficFees 0)) with alice in Hb. rewrite Hb.
  vm_compute. reflexivity.
Defined.
End SolvencySamples.
