(* ===== verification/World.v ===== *)
(** * The state of the Circuit pallet

    The storage items, events and configuration of
    [pallets/circuit/src/lib.rs], with the two readers the rest of the pallet
    is built on: [Machine::load_xtx] and [Machine::read_current_step_fsx].

    The storage is the record [World A X]: [A] is the state behind the trait
    [AccountManager] (with the ledger), [X] the state of the pallets the
    Circuit reads through the traits [Xdns], [Portal] and [Attesters].  The
    class [CircuitConfig] holds the pallet's constants and what it calls on
    them. *)

From S2P Require Import Prelude Types Status AccountManager.

(** ** Signals of the 3VM (sdk/crates/primitives/src/signal.rs) *)

Inductive KillReason := KillUnhandled | KillCodec | KillTimeout.
Inductive SignalKind := SignalComplete | SignalKill (r : KillReason).

Record ExecutionSignal := mkExecutionSignal {
  signal_step : Z;
  signal_kind : SignalKind;
  execution_id : Hash;
}.

(** ** Data exchanged with the other pallets *)

(** [TreasuryAccount] (primitives/src/lib.rs). *)
Inductive TreasuryAccount :=
| TreasuryMain | TreasuryEscrow | TreasuryFee | TreasuryParachain | TreasurySlash.

(** [HeightResult] and [InclusionReceipt] (primitives/src/light_client.rs). *)
Inductive HeightResult := Height (n : BlockNumber) | NotActive.

Record InclusionReceipt := mkReceipt {
  receipt_height : BlockNumber;
  including_header : list Z;
  receipt_message : list Z;
}.

Inductive Codec := Scale | Rlp.

(** [LocalTrigger] and [LocalStateExecutionView] (primitives/src/circuit/traits.rs). *)
Record LocalTrigger := mkLocalTrigger {
  trigger_contract : AccountId;
  submitted_side_effects : list (list Z);
  trigger_speed_mode : SpeedMode;
  maybe_xtx_id : option Hash;
}.

Record LocalStateExecutionView := mkView {
  view_local_state : gmap Z (list Z);
  view_hardened_side_effects : list (list HardenedSideEffect);
  view_steps_cnt : Z * Z;
  view_xtx_id : Hash;
}.

(** ** Events *)

(** The events the pallet deposits. *)
Inductive Event :=
| XTransactionReceivedForExec (xtx_id : Hash)
| SFXNewBidReceived (sfx_id : Hash) (executor : AccountId) (amount : Balance)
| SideEffectConfirmed (sfx_id : Hash)
| DynamicDestinationDealReplaced (xtx_id sfx_id : Hash) (executor : AccountId) (action : list Z)
| XTransactionReadyForExec (xtx_id : Hash)
| XTransactionStepFinishedExec (xtx_id : Hash)
| XTransactionXtxFinishedExecAllSteps (xtx_id : Hash)
| XTransactionXtxCommitted (xtx_id : Hash)
| XTransactionXtxRevertedAfterTimeOut (xtx_id : Hash)
| XTransactionXtxDroppedAtBidding (xtx_id : Hash)
| NewSideEffectsAvailable (who : AccountId) (xtx_id : Hash) (sfx : list SideEffect) (ids : list Hash)
| SideEffectsConfirmed (xtx_id : Hash) (fsx : list (list FullSideEffect))
| SuccessfulFSXCommitAttestationRequest (sfx_id : Hash)
| UnsuccessfulFSXCommitAttestationRequest (sfx_id : Hash)
| SuccessfulFSXRevertAttestationRequest (sfx_id : Hash)
| UnsuccessfulFSXRevertAttestationRequest (sfx_id : Hash).

(** ** Storage *)

Record World (A X : Type) := mkWorld {
  w_am : A;
  w_ext : X;
  w_block : BlockNumber;
  w_nonces : gmap Z Z;
  w_gmp : gmap Z Z;
  sfx2xtx_links : gmap Z Z;
  pending_xtx_timeouts : gmap Z AdaptiveTimeout;
  pending_xtx_bids_timeouts : gmap Z Z;
  finalized_xtx : gmap Z Z;
  x_exec_signals : gmap Z XExecSignal;
  local_xtx_states : gmap Z (gmap Z (list Z));
  full_side_effects : gmap Z (list (list FullSideEffect));
  dlq_entries : gmap Z (BlockNumber * list TargetId * SpeedMode);
  signal_queue : list (AccountId * ExecutionSignal);
  w_events : list Event;
}.
Arguments mkWorld {A X}.
Arguments w_am {A X}.
Arguments w_ext {A X}.
Arguments w_block {A X}.
Arguments w_nonces {A X}.
Arguments w_gmp {A X}.
Arguments sfx2xtx_links {A X}.
Arguments pending_xtx_timeouts {A X}.
Arguments pending_xtx_bids_timeouts {A X}.
Arguments finalized_xtx {A X}.
Arguments x_exec_signals {A X}.
Arguments local_xtx_states {A X}.
Arguments full_side_effects {A X}.
Arguments dlq_entries {A X}.
Arguments signal_queue {A X}.
Arguments w_events {A X}.

Section Setters.
Context {A X : Type}.
Definition set_am (v : A) (w : World A X) : World A X :=
  mkWorld v (w_ext w) (w_block w) (w_nonces w) (w_gmp w) (sfx2xtx_links w)
    (pending_xtx_timeouts w) (pending_xtx_bids_timeouts w) (finalized_xtx w) (x_exec_signals
    w) (local_xtx_states w) (full_side_effects w) (dlq_entries w) (signal_queue w) (w_events
    w).
Definition set_ext (v : X) (w : World A X) : World A X :=
  mkWorld (w_am w) v (w_block w) (w_nonces w) (w_gmp w) (sfx2xtx_links w)
    (pending_xtx_timeouts w) (pending_xtx_bids_timeouts w) (finalized_xtx w) (x_exec_signals
    w) (local_xtx_states w) (full_side_effects w) (dlq_entries w) (signal_queue w) (w_events
    w).
Definition set_block (v : BlockNumber) (w : World A X) : World A X :=
  mkWorld (w_am w) (w_ext w) v (w_nonces w) (w_gmp w) (sfx2xtx_links w)
    (pending_xtx_timeouts w) (pending_xtx_bids_timeouts w) (finalized_xtx w) (x_exec_signals
    w) (local_xtx_states w) (full_side_effects w) (dlq_entries w) (signal_queue w) (w_events
    w).
Definition set_nonces (v : gmap Z Z) (w : World A X) : World A X :=
  mkWorld (w_am w) (w_ext w) (w_block w) v (w_gmp w) (sfx2xtx_links w) (pending_xtx_timeouts
    w) (pending_xtx_bids_timeouts w) (finalized_xtx w) (x_exec_signals w) (local_xtx_states w)
    (full_side_effects w) (dlq_entries w) (signal_queue w) (w_events w).
Definition set_gmp (v : gmap Z Z) (w : World A X) : World A X :=
  mkWorld (w_am w) (w_ext w) (w_block w) (w_nonces w) v (sfx2xtx_links w)
    (pending_xtx_timeouts w) (pending_xtx_bids_timeouts w) (finalized_xtx w) (x_exec_signals
    w) (local_xtx_states w) (full_side_effects w) (dlq_entries w) (signal_queue w) (w_events
    w).
Definition set_links (v : gmap Z Z) (w : World A X) : World A X :=
  mkWorld (w_am w) (w_ext w) (w_block w) (w_nonces w) (w_gmp w) v (pending_xtx_timeouts w)
    (pending_xtx_bids_timeouts w) (finalized_xtx w) (x_exec_signals w) (local_xtx_states w)
    (full_side_effects w) (dlq_entries w) (signal_queue w) (w_events w).
Definition set_timeouts (v : gmap Z AdaptiveTimeout) (w : World A X) : World A X :=
  mkWorld (w_am w) (w_ext w) (w_block w) (w_nonces w) (w_gmp w) (sfx2xtx_links w) v
    (pending_xtx_bids_timeouts w) (finalized_xtx w) (x_exec_signals w) (local_xtx_states w)
    (full_side_effects w) (dlq_entries w) (signal_queue w) (w_events w).
Definition set_bids_timeouts (v : gmap Z Z) (w : World A X) : World A X :=
  mkWorld (w_am w) (w_ext w) (w_block w) (w_nonces w) (w_gmp w) (sfx2xtx_links w)
    (pending_xtx_timeouts w) v (finalized_xtx w) (x_exec_signals w) (local_xtx_states w)
    (full_side_effects w) (dlq_entries w) (signal_queue w) (w_events w).
Definition set_finalized (v : gmap Z Z) (w : World A X) : World A X :=
  mkWorld (w_am w) (w_ext w) (w_block w) (w_nonces w) (w_gmp w) (sfx2xtx_links w)
    (pending_xtx_timeouts w) (pending_xtx_bids_timeouts w) v (x_exec_signals w)
    (local_xtx_states w) (full_side_effects w) (dlq_entries w) (signal_queue w) (w_events w).
Definition set_signals (v : gmap Z XExecSignal) (w : World A X) : World A X :=
  mkWorld (w_am w) (w_ext w) (w_block w) (w_nonces w) (w_gmp w) (sfx2xtx_links w)
    (pending_xtx_timeouts w) (pending_xtx_bids_timeouts w) (finalized_xtx w) v
    (local_xtx_states w) (full_side_effects w) (dlq_entries w) (signal_queue w) (w_events w).
Definition set_local_states (v : gmap Z (gmap Z (list Z))) (w : World A X) : World A X :=
  mkWorld (w_am w) (w_ext w) (w_block w) (w_nonces w) (w_gmp w) (sfx2xtx_links w)
    (pending_xtx_timeouts w) (pending_xtx_bids_timeouts w) (finalized_xtx w) (x_exec_signals
    w) v (full_side_effects w) (dlq_entries w) (signal_queue w) (w_events w).
Definition set_fsx (v : gmap Z (list (list FullSideEffect))) (w : World A X) : World A X :=
  mkWorld (w_am w) (w_ext w) (w_block w) (w_nonces w) (w_gmp w) (sfx2xtx_links w)
    (pending_xtx_timeouts w) (pending_xtx_bids_timeouts w) (finalized_xtx w) (x_exec_signals
    w) (local_xtx_states w) v (dlq_entries w) (signal_queue w) (w_events w).
Definition set_dlq_entries (v : gmap Z (BlockNumber * list TargetId * SpeedMode)) (w : World A X) : World A X :=
  mkWorld (w_am w) (w_ext w) (w_block w) (w_nonces w) (w_gmp w) (sfx2xtx_links w)
    (pending_xtx_timeouts w) (pending_xtx_bids_timeouts w) (finalized_xtx w) (x_exec_signals
    w) (local_xtx_states w) (full_side_effects w) v (signal_queue w) (w_events w).
Definition set_signal_queue (v : list (AccountId * ExecutionSignal)) (w : World A X) : World A X :=
  mkWorld (w_am w) (w_ext w) (w_block w) (w_nonces w) (w_gmp w) (sfx2xtx_links w)
    (pending_xtx_timeouts w) (pending_xtx_bids_timeouts w) (finalized_xtx w) (x_exec_signals
    w) (local_xtx_states w) (full_side_effects w) (dlq_entries w) v (w_events w).
Definition set_events (v : list Event) (w : World A X) : World A X :=
  mkWorld (w_am w) (w_ext w) (w_block w) (w_nonces w) (w_gmp w) (sfx2xtx_links w)
    (pending_xtx_timeouts w) (pending_xtx_bids_timeouts w) (finalized_xtx w) (x_exec_signals
    w) (local_xtx_states w) (full_side_effects w) (dlq_entries w) (signal_queue w) v.
End Setters.

(** ** Configuration *)

Class CircuitConfig (A X : Type) := {
  SFXAbi : Type;
  (** Constants. *)
  SelfAccountId : AccountId;
  XtxTimeoutDefault : BlockNumber;
  SFXBiddingPeriod : BlockNumber;
  SignalQueueDepth : Z;
  (** [T::DbWeight], in units of reference time. *)
  db_reads : Z → Z;
  db_reads_writes : Z → Z → Z;
  (** [T::Currency] and [T::TreasuryAccounts]. *)
  circuit_minimum_balance : Balance;
  circuit_transfer : AccountId → AccountId → Balance → A → result DispatchError A;
  get_treasury_account : TreasuryAccount → AccountId;
  (** [T::Xdns]; the block number is the current one. *)
  estimate_adaptive_timeout_on_slowest_target :
    X → BlockNumber → list TargetId → SpeedMode → BlockNumber → AdaptiveTimeout;
  get_gateway_max_security_lvl : X → TargetId → SecurityLvl;
  get_sfx_abi : X → TargetId → list Z → option SFXAbi;
  (** [read_last_activity], of which the Circuit reads [is_active]. *)
  read_last_activity : X → TargetId → option bool;
  get_target_codec : X → TargetId → result DispatchError Codec;
  (** [SFXAbi::validate_ordered_arguments] and
      [SFXAbi::validate_arguments_against_received]. *)
  validate_ordered_arguments : SFXAbi → list (list Z) → Codec → result DispatchError unit;
  validate_arguments_against_received :
    SFXAbi → list (list Z) → list Z → Codec → Codec → result DispatchError unit;
  (** [T::Portal]. *)
  get_finalized_height : X → TargetId → result DispatchError HeightResult;
  verify_event_inclusion :
    X → TargetId → SpeedMode → option (list Z) → list Z → result DispatchError InclusionReceipt;
  (** [T::Attesters]. *)
  estimate_finality_fee : X → TargetId → Balance;
  request_sfx_attestation_commit : TargetId → Hash → option Hash → X → X * result DispatchError unit;
  request_sfx_attestation_revert : TargetId → Hash → X → X * result DispatchError unit;
  (** SCALE decoding. *)
  local_trigger_decode : list Z → option LocalTrigger;
}.

(** ** Reading a transaction (machine/mod.rs) *)

Section Machine.
Context {A X : Type}.
Abbreviation W := (World A X).
Abbreviation C := (M (World A X) CircuitError).

Definition deposit_event {E} (e : Event) : M W E unit :=
  modify (λ w, set_events (e :: w_events w) w).

(** Run an operation of the account manager inside the pallet. *)
Definition with_am {E T} (m : M A E T) : M W E T := zoom w_am set_am m.

Definition load_xtx (xtx_id : Hash) : C LocalXtxCtx :=
  s ← gets (λ w, x_exec_signals w !! xtx_id);
  xtx ← ok_or s XtxDoesNotExist;
  f ← gets (λ w, full_side_effects w !! xtx_id);
  fsx ← ok_or f SetupFailedXtxStorageArtifactsNotFound;
  l ← gets (λ w, local_xtx_states w !! xtx_id);
  local_state ← ok_or l SetupFailedXtxStorageArtifactsNotFound;
  mret (mkCtx local_state xtx_id xtx fsx).
End Machine.

(** [None] is the [expect] on a transaction without steps. *)
Definition read_current_step_fsx (ctx : LocalXtxCtx) : option (list FullSideEffect) :=
  let current_step := (xtx_steps_cnt (ctx_xtx ctx)).1 in
  match ctx_full_side_effects ctx !! Z.to_nat current_step with
  | Some step => Some step
  | None => last (ctx_full_side_effects ctx)
  end.

(** Replace the last element; [None] on an empty list. *)
Fixpoint update_last {T} (x : T) (l : list T) : option (list T) :=
  match l with
  | [] => None
  | [_] => Some [x]
  | y :: l' => cons y <$> update_last x l'
  end.

Definition update_current_step_fsx (ctx : LocalXtxCtx) (updated_fsx : list FullSideEffect)
    : option LocalXtxCtx :=
  let current_step := (xtx_steps_cnt (ctx_xtx ctx)).1 in
  let steps := ctx_full_side_effects ctx in
  match steps !! Z.to_nat current_step with
  | Some _ => Some (set_ctx_fsx (<[Z.to_nat current_step := updated_fsx]> steps) ctx)
  | None => (λ l, set_ctx_fsx l ctx) <$> update_last updated_fsx steps
  end.

(** ** Lemmas *)

Section Facts.
Context {A X : Type}.
Implicit Types w : World A X.

(** Loading a transaction reads the storage only. *)
Lemma load_xtx_Ok id w c w' :
  load_xtx id w = Ok c w' →
  w' = w ∧ ctx_xtx_id c = id ∧ x_exec_signals w !! id = Some (ctx_xtx c) ∧
  full_side_effects w !! id = Some (ctx_full_side_effects c) ∧
  local_xtx_states w !! id = Some (ctx_local_state c).
Proof. unfold load_xtx. intros Hl. monad_inv. done. Qed.

Lemma load_xtx_total id w :
  wp (load_xtx id) (λ _ w', w' = w) (λ _ w', w' = w) w.
Proof. unfold load_xtx. repeat (step_wp; try done). Qed.

Lemma load_xtx_Some id w x f l :
  x_exec_signals w !! id = Some x → full_side_effects w !! id = Some f →
  local_xtx_states w !! id = Some l →
  load_xtx id w = Ok (mkCtx l id x f) w.
Proof.
  intros Hx Hf Hl. unfold load_xtx, mbind, M_bind, gets.
  rewrite Hx; simpl. rewrite Hf; simpl. by rewrite Hl.
Qed.
End Facts.

Lemma read_current_step_single ctx step :
  ctx_full_side_effects ctx = [step] → read_current_step_fsx ctx = Some step.
Proof.
  intros Hs. unfold read_current_step_fsx. rewrite Hs.
  by destruct (Z.to_nat _) as [|n].
Qed.

Lemma update_current_step_single ctx step step' :
  ctx_full_side_effects ctx = [step] →
  update_current_step_fsx ctx step' = Some (set_ctx_fsx [step'] ctx).
Proof.
  intros Hs. unfold update_current_step_fsx. rewrite Hs.
  by destruct (Z.to_nat _) as [|n].
Qed.
