(* ===== verification/SquareUp.v ===== *)
(** * Squaring up

    [pallets/circuit/src/square_up/mod.rs]: the deposits behind a cross-chain
    transaction.  The requester locks the maximal rewards, executors lock the
    insurance of their bids, and both are released, paid out or slashed when
    the transaction is killed or finalized.

    The module sees the account manager through the class [AccountManager];
    its theorems rely on [AccountManagerSpec] only. *)

From S2P Require Import Prelude Types Status AccountManager World.

Section SquareUp.
Context {A X : Type} `{Hashing} `{AccountManager A} `{CircuitConfig A X}.
Abbreviation AM := (M A DispatchError).

(** ** Requesting *)

(** A sum that restarts from zero when it overflows. *)
Definition finality_fees_sum (x : X) (fsx_array : list FullSideEffect) : Balance :=
  let all_escrow_targets :=
    map (λ fsx, sfx_target (fsx_input fsx))
      (filter (λ fsx, fsx_security_lvl fsx = Escrow) fsx_array) in
  fold_left (λ acc fee, default 0 (checked_add u128_max acc fee))
    (map (estimate_finality_fee x) all_escrow_targets) 0.

Definition charge_finality_fee (x : X) (ctx : LocalXtxCtx) (requester : AccountId) : AM Balance :=
  fsx_array ← expect (read_current_step_fsx ctx);
  let fees := finality_fees_sum x fsx_array in
  try_modify (circuit_transfer requester (get_treasury_account TreasuryFee) fees)
    (λ _, CircuitModuleError RequesterNotEnoughBalance) ;;
  mret fees.

Definition request_charge_of (ctx : LocalXtxCtx) (fsx : FullSideEffect) : Hash * RequestCharge :=
  (calc_sfx_id fsx (ctx_xtx_id ctx),
   {| payee := xtx_requester (ctx_xtx ctx);
      offered_reward := sfx_max_reward (fsx_input fsx);
      charge_fee := 0;
      source := TrafficFees;
      role := Executor;
      recipient := None;
      maybe_asset_id := sfx_reward_asset_id (fsx_input fsx) |}).

(** Orders of remote origin are charged on their own chain. *)
Definition empty_if_remote (e : Hash * RequestCharge) : Hash * RequestCharge :=
  if is_local (order_origin_new (payee e.2)) then e
  else (e.1, mkCharge (payee e.2) 0 (maybe_asset_id e.2) (charge_fee e.2) (recipient e.2)
               (source e.2) (role e.2)).

Definition local_request_charges (ctx : LocalXtxCtx) (fsx_array : list FullSideEffect)
    : list (Hash * RequestCharge) :=
  map empty_if_remote (map (request_charge_of ctx) fsx_array).

Definition charge_exists (id : Hash) (a : A) : bool :=
  match am_get_charge_or_fail id a with Ok _ _ => true | _ => false end.

Definition try_request (ctx : LocalXtxCtx) : AM unit :=
  fsx_array ← expect (read_current_step_fsx ctx);
  let requester := xtx_requester (ctx_xtx ctx) in
  can ← gets (λ a, forallb (λ fsx, am_can_withdraw requester (sfx_max_reward (fsx_input fsx))
                                     (sfx_reward_asset_id (fsx_input fsx)) a) fsx_array);
  ensure can (CircuitModuleError AssetsFailedToWithdraw) ;;
  let request_charges := local_request_charges ctx fsx_array in
  am_deposit_batch request_charges ;;
  registered ← gets (λ a, forallb (λ e, charge_exists e.1 a) request_charges);
  ensure registered (CircuitModuleError SanityAfterCreatingSFXDepositsFailed).

(** ** Bidding *)

Definition bid_charge (requester bidder : AccountId) (bid : SFXBid) (total_bid_deposit : Balance)
    : RequestCharge :=
  {| payee := bidder;
     offered_reward := total_bid_deposit;
     charge_fee := 0;
     source := TrafficRewards;
     role := Executor;
     recipient := Some requester;
     maybe_asset_id := bid_reward_asset_id bid |}.

Definition square_up_try_bid (sfx_id : Hash) (requester bidder : AccountId) (bid : SFXBid)
    (current_best_bid : option SFXBid) : AM unit :=
  total_bid_deposit ←
    ok_or (checked_add u128_max (default 0 (bid_reserved_bond bid)) (bid_insurance bid))
      (CircuitModuleError ArithmeticErrorOverflow);
  match current_best_bid with
  | Some best =>
      ensure (negb (bid_amount best <=? bid_amount bid))
        (CircuitModuleError BiddingRejectedBetterBidFound) ;;
      am_transfer_deposit (bid_generate_id best sfx_id) (bid_generate_id bid sfx_id)
        (Some total_bid_deposit) (Some (bid_executor bid)) None
  | None =>
      am_deposit (bid_generate_id bid sfx_id) (bid_charge requester bidder bid total_bid_deposit)
  end.

(** ** Binding the best bidders *)

(** One side effect of [bind_bidders]: the flag is [res]. *)
Definition bind_one (xtx_id : Hash) (fsx : FullSideEffect) (a : A) : A * (FullSideEffect * bool) :=
  match fsx_best_bid fsx with
  | Some bid =>
      let '(a', assigned) := am_assign_deposit (calc_sfx_id fsx xtx_id) (bid_executor bid) a in
      if assigned
      then (a', (set_input (set_enforce_executor (Some (bid_executor bid)) (fsx_input fsx)) fsx, true))
      else (a', (fsx, false))
  | None => (a, (fsx, false))
  end.

Fixpoint bind_all (xtx_id : Hash) (step : list FullSideEffect) (a : A)
    : A * (list FullSideEffect * bool) :=
  match step with
  | [] => (a, ([], false))
  | fsx :: rest =>
      let '(a1, (fsx', b)) := bind_one xtx_id fsx a in
      let '(a2, (rest', res)) := bind_all xtx_id rest a1 in
      (a2, (fsx' :: rest', b || res))
  end.

Definition bind_bidders {E} (ctx : LocalXtxCtx) : M A E (LocalXtxCtx * bool) :=
  step_fsx ← expect (read_current_step_fsx ctx);
  r ← run_total (bind_all (ctx_xtx_id ctx) step_fsx);
  ctx' ← expect (update_current_step_fsx ctx r.1);
  mret (ctx', r.2).

(** ** Killing *)

Definition kill_one (xtx_id : Hash) (acc : A * bool) (fsx : FullSideEffect) : A * bool :=
  let '(a, killed) := acc in
  let sfx_id := calc_sfx_id fsx xtx_id in
  let '(a1, cancelled) := am_cancel_deposit sfx_id a in
  let a2 := match fsx_best_bid fsx with
            | Some bid => (am_cancel_deposit (bid_generate_id bid sfx_id) a1).1
            | None => a1
            end in
  (a2, killed || cancelled).

Definition square_up_kill {E} (ctx : LocalXtxCtx) : M A E bool :=
  step_fsx ← expect (read_current_step_fsx ctx);
  run_total (λ a, fold_left (kill_one (ctx_xtx_id ctx)) step_fsx (a, false)).

(** ** Finalizing *)

(** The insurance of one executor: the accumulator is the account manager,
    [finalized] and [step_outcome]. *)
Definition release_insurance (xtx_id : Hash) (acc : A * bool * Outcome) (fsx : FullSideEffect)
    : A * bool * Outcome :=
  let '(a, finalized, step_outcome) := acc in
  let sfx_id := calc_sfx_id fsx xtx_id in
  match fsx_best_bid fsx with
  | Some bid =>
      let outcome := match fsx_confirmed fsx with Some _ => Revert | None => Slash end in
      let step_outcome := if bool_decide (outcome = Slash) then Revert else step_outcome in
      let '(a', done) := am_finalize_infallible (bid_generate_id bid sfx_id) outcome a in
      (a', finalized && done, step_outcome)
  | None => (a, false, step_outcome)
  end.

Definition escrow_id_of (sfx_id : Hash) : Hash := generate_id (be_bytes 32 sfx_id) 3333.

Definition finalize_requester (xtx_id : Hash) (step_outcome : Outcome) (acc : A * bool)
    (fsx : FullSideEffect) : A * bool :=
  let '(a, finalized) := acc in
  let sfx_id := calc_sfx_id fsx xtx_id in
  let '(a1, done) := am_finalize_infallible sfx_id step_outcome a in
  let finalized := finalized && done in
  if bool_decide (fsx_security_lvl fsx = Escrow) then
    let '(a2, done') := am_finalize_infallible (escrow_id_of sfx_id) step_outcome a1 in
    (a2, finalized && done')
  else (a1, finalized).

Definition square_up_finalize {E} (ctx : LocalXtxCtx) : M A E bool :=
  step_fsx ← expect (read_current_step_fsx ctx);
  run_total (λ a,
    let '(a1, finalized, step_outcome) :=
      fold_left (release_insurance (ctx_xtx_id ctx)) step_fsx (a, true, Commit) in
    fold_left (finalize_requester (ctx_xtx_id ctx) step_outcome) step_fsx (a1, finalized)).

(** ** Reference definitions *)

(** The charges a side effect stands behind: the requester's and its best
    bidder's. *)
Definition charge_ids (xtx_id : Hash) (fsx : FullSideEffect) : list Hash :=
  let sfx_id := calc_sfx_id fsx xtx_id in
  match fsx_best_bid fsx with
  | Some bid => [sfx_id; bid_generate_id bid sfx_id]
  | None => [sfx_id]
  end.

(** The plan of [finalize]: what is finalized, in order, and how.  An executor
    is slashed when its side effect is not confirmed; the requester pays when
    every side effect with a bid is confirmed, and is refunded otherwise. *)
Definition executor_outcome (fsx : FullSideEffect) : Outcome :=
  if has_confirmation fsx then Revert else Slash.

Definition requester_outcome (step : list FullSideEffect) : Outcome :=
  if forallb (λ fsx, negb (has_bid fsx) || has_confirmation fsx) step then Commit else Revert.

Definition executor_plan (xtx_id : Hash) (fsx : FullSideEffect) : list (Hash * Outcome) :=
  match fsx_best_bid fsx with
  | Some bid => [(bid_generate_id bid (calc_sfx_id fsx xtx_id), executor_outcome fsx)]
  | None => []
  end.

Definition requester_plan (xtx_id : Hash) (outcome : Outcome) (fsx : FullSideEffect)
    : list (Hash * Outcome) :=
  let sfx_id := calc_sfx_id fsx xtx_id in
  if bool_decide (fsx_security_lvl fsx = Escrow)
  then [(sfx_id, outcome); (escrow_id_of sfx_id, outcome)]
  else [(sfx_id, outcome)].

Definition finalize_plan (xtx_id : Hash) (step : list FullSideEffect) : list (Hash * Outcome) :=
  flat_map (executor_plan xtx_id) step ++
  flat_map (requester_plan xtx_id (requester_outcome step)) step.

Definition run_plan (plan : list (Hash * Outcome)) (a : A) : A :=
  fold_left (λ a e, (am_finalize_infallible e.1 e.2 a).1) plan a.
End SquareUp.

(** ** Lemmas *)

Definition delete_all (ids : list Hash) (m : gmap Z RequestCharge) : gmap Z RequestCharge :=
  fold_left (λ m id, delete id m) ids m.

Lemma lookup_delete_all ids m k :
  delete_all ids m !! k = if decide (k ∈ ids) then None else m !! k.
Proof.
  revert m. induction ids as [|id ids IH]; intros m; [done|].
  unfold delete_all. cbn [fold_left]. rewrite IH. destruct (decide (k = id)) as [->|Hne].
  - rewrite lookup_delete_eq. repeat case_decide; set_solver.
  - rewrite lookup_delete_ne by done. repeat case_decide; set_solver.
Qed.

Lemma delete_all_app ids1 ids2 m :
  delete_all (ids1 ++ ids2) m = delete_all ids2 (delete_all ids1 m).
Proof. apply fold_left_app. Qed.

Lemma register_all_lookup_ne batch m k :
  k ∉ batch.*1 → register_all batch m !! k = m !! k.
Proof.
  revert m. induction batch as [|[id c] batch IH]; intros m Hk; [done|].
  unfold register_all. cbn [fold_left fst snd]. unfold register_all in IH. rewrite IH by set_solver.
  apply lookup_insert_ne. set_solver.
Qed.

Lemma register_all_lookup batch m id c :
  NoDup batch.*1 → (id, c) ∈ batch → register_all batch m !! id = Some c.
Proof.
  revert m. induction batch as [|[id' c'] batch IH]; intros m Hnd Hin; [set_solver|].
  rewrite fmap_cons in Hnd. apply NoDup_cons in Hnd as [Hnin Hnd].
  change (register_all batch (<[id' := c']> m) !! id = Some c).
  apply elem_of_cons in Hin as [[= <- <-]|Hin]; [|by apply IH].
  rewrite register_all_lookup_ne by done. apply lookup_insert_eq.
Qed.

Section Facts.
Context {A X : Type} `{Hashing} `{AccountManagerSpec A} `{!CircuitConfig A X}.
Implicit Types (a : A) (fsx : FullSideEffect) (step : list FullSideEffect).

Lemma local_request_charges_keys ctx step :
  (local_request_charges ctx step).*1 = map (λ fsx, calc_sfx_id fsx (ctx_xtx_id ctx)) step.
Proof.
  unfold local_request_charges. induction step as [|fsx step IH]; [done|].
  cbn [map]. rewrite fmap_cons, IH. f_equal. unfold empty_if_remote. by destruct (is_local _).
Qed.

(** *** Requests *)

(** A successful request registers one fresh charge per side effect. *)
Lemma try_request_charges ctx step a :
  read_current_step_fsx ctx = Some step →
  wp (try_request ctx)
    (λ _ a', charges a' = register_all (local_request_charges ctx step) (charges a) ∧
             Forall (λ e, charges a !! e.1 = None) (local_request_charges ctx step))
    (λ _ _, True) a.
Proof.
  intros Hstep. unfold try_request. rewrite Hstep.
  apply wp_bind, wp_ret, wp_bind, wp_gets, wp_bind, wp_ensure; [intros _|done].
  apply wp_bind. eapply wp_mono; [apply spec_deposit_batch| |done].
  intros [] a' Ha'. apply wp_bind, wp_gets, wp_ensure; [by intros _|done].
Qed.

(** *** Bids *)

Lemma square_up_try_bid_charges sfx_id requester bidder bid best a :
  wp (square_up_try_bid sfx_id requester bidder bid best)
    (λ _ a', let bond := default 0 (bid_reserved_bond bid) + bid_insurance bid in
       let bid_id := bid_generate_id bid sfx_id in
       match best with
       | None => charges a !! bid_id = None ∧
                 charges a' = <[bid_id := bid_charge requester bidder bid bond]> (charges a)
       | Some old =>
           bid_amount bid < bid_amount old ∧
           ∃ c, charges a !! bid_generate_id old sfx_id = Some c ∧
             charges a' =
               <[bid_id := transferred_charge c (Some bond) (Some (bid_executor bid)) None]>
                 (delete (bid_generate_id old sfx_id) (charges a))
       end)
    (λ _ _, True) a.
Proof.
  unfold square_up_try_bid. apply wp_bind, wp_ok_or; [|done].
  intros total [-> _]%checked_add_Some. destruct best as [old|].
  - apply wp_bind, wp_ensure; [|done]. intros Hlt.
    eapply wp_mono; [apply spec_transfer| |done]. intros [] a' Ha'. split; [lia|done].
  - unfold wp. rewrite spec_deposit. change (wp (am_deposit_batch
      [(bid_generate_id bid sfx_id, bid_charge requester bidder bid
          (default 0 (bid_reserved_bond bid) + bid_insurance bid))])
      (λ _ a', charges a !! bid_generate_id bid sfx_id = None ∧
         charges a' = <[bid_generate_id bid sfx_id := bid_charge requester bidder bid
           (default 0 (bid_reserved_bond bid) + bid_insurance bid)]> (charges a))
      (λ _ _, True) a).
    eapply wp_mono; [apply spec_deposit_batch| |done].
    intros [] a' [Ha' Hfresh]. apply Forall_cons in Hfresh as [Hfresh _]. done.
Qed.

(** *** Binding *)

(** What [bind_bidders] does to a side effect, given the registered charges. *)
Definition bound_fsx (m : gmap Z RequestCharge) (xtx_id : Hash) fsx : FullSideEffect :=
  match fsx_best_bid fsx with
  | Some bid =>
      if is_some (m !! calc_sfx_id fsx xtx_id)
      then set_input (set_enforce_executor (Some (bid_executor bid)) (fsx_input fsx)) fsx
      else fsx
  | None => fsx
  end.

Definition bound_charge (xtx_id : Hash) (m : gmap Z RequestCharge) fsx : gmap Z RequestCharge :=
  match fsx_best_bid fsx with
  | Some bid => alter (set_recipient (Some (bid_executor bid))) (calc_sfx_id fsx xtx_id) m
  | None => m
  end.

Lemma bound_charge_dom xtx_id m fsx k :
  is_some (bound_charge xtx_id m fsx !! k) = is_some (m !! k).
Proof.
  unfold bound_charge. destruct (fsx_best_bid fsx) as [bid|]; [|done].
  destruct (decide (calc_sfx_id fsx xtx_id = k)) as [<-|Hne].
  - rewrite lookup_alter_eq. by destruct (m !! _).
  - by rewrite lookup_alter_ne.
Qed.

Lemma bind_one_spec xtx_id fsx a :
  (bind_one xtx_id fsx a).2.1 = bound_fsx (charges a) xtx_id fsx ∧
  charges (bind_one xtx_id fsx a).1 = bound_charge xtx_id (charges a) fsx.
Proof.
  unfold bind_one, bound_fsx, bound_charge. destruct (fsx_best_bid fsx) as [bid|]; [|done].
  pose proof (spec_assign (calc_sfx_id fsx xtx_id) (bid_executor bid) a) as [Hc Hb].
  destruct (am_assign_deposit _ _ a) as [a' b]. cbn [fst snd] in Hc, Hb. rewrite <- Hb.
  by destruct b.
Qed.

Lemma bind_all_spec xtx_id step a :
  (bind_all xtx_id step a).2.1 = map (bound_fsx (charges a) xtx_id) step ∧
  charges (bind_all xtx_id step a).1 = fold_left (bound_charge xtx_id) step (charges a).
Proof.
  revert a. induction step as [|fsx step IH]; intros a; [done|].
  cbn [bind_all map fold_left]. pose proof (bind_one_spec xtx_id fsx a) as [Hf Hc].
  destruct (bind_one xtx_id fsx a) as [a1 [fsx' b]]. cbn [fst snd] in Hf, Hc.
  specialize (IH a1). destruct (bind_all xtx_id step a1) as [a2 [rest' res]].
  cbn [fst snd] in IH |- *. destruct IH as [-> ->]. rewrite Hf, Hc. split; [|done].
  f_equal. apply map_ext. intros fsx2. unfold bound_fsx.
  by rewrite bound_charge_dom.
Qed.

Lemma bound_charges_lookup_ne xtx_id step m k :
  k ∉ map (λ fsx, calc_sfx_id fsx xtx_id) step →
  fold_left (bound_charge xtx_id) step m !! k = m !! k.
Proof.
  revert m. induction step as [|fsx step IH]; intros m Hk; [done|].
  cbn [map] in Hk. cbn [fold_left]. rewrite IH by set_solver.
  unfold bound_charge. destruct (fsx_best_bid fsx); [|done].
  apply lookup_alter_ne. set_solver.
Qed.

Lemma bound_charges_lookup xtx_id step m fsx bid :
  NoDup (map (λ fsx, calc_sfx_id fsx xtx_id) step) → fsx ∈ step → fsx_best_bid fsx = Some bid →
  fold_left (bound_charge xtx_id) step m !! calc_sfx_id fsx xtx_id =
  set_recipient (Some (bid_executor bid)) <$> m !! calc_sfx_id fsx xtx_id.
Proof.
  intros Hnd Hin Hbid. revert m. induction step as [|fsx' step IH]; intros m; [set_solver|].
  cbn [map] in Hnd. apply NoDup_cons in Hnd as [Hnin Hnd]. cbn [fold_left].
  apply elem_of_cons in Hin as [<-|Hin].
  - rewrite bound_charges_lookup_ne by done. unfold bound_charge. rewrite Hbid.
    apply lookup_alter_eq.
  - rewrite IH by done. f_equal. unfold bound_charge.
    destruct (fsx_best_bid fsx'); [|done]. apply lookup_alter_ne.
    intros Heq. apply Hnin. rewrite Heq.
    apply list_elem_of_In, (in_map (λ f, calc_sfx_id f xtx_id)), list_elem_of_In. done.
Qed.

(** *** Kill *)

Lemma kill_one_charges xtx_id a b fsx :
  charges (kill_one xtx_id (a, b) fsx).1 = delete_all (charge_ids xtx_id fsx) (charges a).
Proof.
  unfold kill_one, charge_ids.
  pose proof (spec_cancel (calc_sfx_id fsx xtx_id) a) as [Hc _].
  destruct (am_cancel_deposit _ a) as [a1 c]. cbn [fst snd] in Hc.
  destruct (fsx_best_bid fsx) as [bid|]; cbn [fst]; [|by rewrite Hc].
  destruct (spec_cancel (bid_generate_id bid (calc_sfx_id fsx xtx_id)) a1) as [-> _].
  by rewrite Hc.
Qed.

Lemma kill_all_charges xtx_id step a b :
  charges (fold_left (kill_one xtx_id) step (a, b)).1 =
  delete_all (flat_map (charge_ids xtx_id) step) (charges a).
Proof.
  revert a b. induction step as [|fsx step IH]; intros a b; [done|].
  cbn [fold_left flat_map]. rewrite delete_all_app, <- (kill_one_charges xtx_id a b).
  destruct (kill_one xtx_id (a, b) fsx) as [a' b']. apply IH.
Qed.

(** *** Finalize *)

Lemma release_insurance_one xtx_id fsx a f o :
  ∃ f', release_insurance xtx_id (a, f, o) fsx =
    (run_plan (executor_plan xtx_id fsx) a, f',
     if negb (has_bid fsx) || has_confirmation fsx then o else Revert).
Proof.
  unfold release_insurance, executor_plan, executor_outcome, has_bid, has_confirmation.
  destruct (fsx_best_bid fsx) as [bid|]; [|by eexists]. unfold run_plan.
  destruct (fsx_confirmed fsx); cbn;
    destruct (am_finalize_infallible _ _ a) as [a' d]; by eexists.
Qed.

Lemma release_insurance_run xtx_id step a f o :
  ∃ f', fold_left (release_insurance xtx_id) step (a, f, o) =
    (run_plan (flat_map (executor_plan xtx_id) step) a, f',
     if forallb (λ fsx, negb (has_bid fsx) || has_confirmation fsx) step then o else Revert).
Proof.
  revert a f o. induction step as [|fsx step IH]; intros a f o; [by eexists|].
  cbn [fold_left flat_map forallb].
  destruct (release_insurance_one xtx_id fsx a f o) as [f1 ->].
  edestruct IH as [f2 ->]. exists f2. unfold run_plan. rewrite fold_left_app.
  f_equal. destruct (negb (has_bid fsx) || has_confirmation fsx); [done|].
  by destruct (forallb _ step).
Qed.

Lemma finalize_requester_run xtx_id o step a f :
  (fold_left (finalize_requester xtx_id o) step (a, f)).1 =
  run_plan (flat_map (requester_plan xtx_id o) step) a.
Proof.
  revert a f. induction step as [|fsx step IH]; intros a f; [done|].
  cbn [fold_left flat_map]. unfold run_plan. rewrite fold_left_app.
  unfold finalize_requester at 2, requester_plan at 2.
  case_bool_decide; cbn [fold_left fst snd];
    destruct (am_finalize_infallible (calc_sfx_id fsx xtx_id) o a) as [a1 d];
    cbn [fst]; [|apply IH].
  destruct (am_finalize_infallible (escrow_id_of _) o a1) as [a2 d2]. apply IH.
Qed.

Lemma square_up_finalize_run {E} ctx step a :
  read_current_step_fsx ctx = Some step →
  ∃ f, square_up_finalize (E:=E) ctx a =
       Ok f (run_plan (finalize_plan (ctx_xtx_id ctx) step) a).
Proof.
  intros Hs. unfold square_up_finalize. rewrite Hs.
  unfold mbind, M_bind, expect, mret, M_ret, run_total.
  destruct (release_insurance_run (ctx_xtx_id ctx) step a true Commit) as [f' ->].
  eexists. f_equal. rewrite finalize_requester_run.
  unfold finalize_plan, run_plan. by rewrite fold_left_app.
Qed.

(** *** Totality *)

Lemma square_up_kill_run {E} ctx step a :
  read_current_step_fsx ctx = Some step →
  ∃ k a', square_up_kill (E:=E) ctx a = Ok k a' ∧
    charges a' = delete_all (flat_map (charge_ids (ctx_xtx_id ctx)) step) (charges a).
Proof.
  intros Hs. unfold square_up_kill. rewrite Hs. unfold mbind, M_bind, expect, mret, M_ret, run_total.
  eexists _, _. split; [done|]. apply kill_all_charges.
Qed.

Lemma bind_bidders_run {E} ctx step a :
  ctx_full_side_effects ctx = [step] →
  ∃ b a', bind_bidders (E:=E) ctx a =
      Ok (set_ctx_fsx [map (bound_fsx (charges a) (ctx_xtx_id ctx)) step] ctx, b) a' ∧
    charges a' = fold_left (bound_charge (ctx_xtx_id ctx)) step (charges a).
Proof.
  intros Hs. unfold bind_bidders. rewrite (read_current_step_single _ _ Hs).
  unfold mbind, M_bind. cbn [expect]. unfold mret, M_ret, run_total.
  pose proof (bind_all_spec (ctx_xtx_id ctx) step a) as [Hf Hc].
  destruct (bind_all (ctx_xtx_id ctx) step a) as [a' [step' b]].
  cbn [fst snd] in *. subst step'. rewrite (update_current_step_single _ _ _ Hs). cbn [expect].
  eexists _, _. split; [done|done].
Qed.
End Facts.

(** ** Properties *)

Section Properties.
Context {A X : Type} `{Hashing} `{AccountManagerSpec A} `{!CircuitConfig A X}.
Implicit Types (a : A) (fsx : FullSideEffect) (step : list FullSideEffect).

(** A successful [SquareUp::try_request] registers, for every side effect
    of the current step, a fresh charge of the requester for the maximal reward
    (for nothing when the order is of remote origin), and changes no other
    charge. *)
Theorem request_locks_max_rewards ctx step a a' :
  read_current_step_fsx ctx = Some step →
  NoDup (map (λ fsx, calc_sfx_id fsx (ctx_xtx_id ctx)) step) →
  try_request ctx a = Ok tt a' →
  (∀ fsx, fsx ∈ step →
     charges a !! calc_sfx_id fsx (ctx_xtx_id ctx) = None ∧
     ∃ c, charges a' !! calc_sfx_id fsx (ctx_xtx_id ctx) = Some c ∧
       payee c = xtx_requester (ctx_xtx ctx) ∧ recipient c = None ∧
       maybe_asset_id c = sfx_reward_asset_id (fsx_input fsx) ∧
       offered_reward c =
         if is_local (order_origin_new (xtx_requester (ctx_xtx ctx)))
         then sfx_max_reward (fsx_input fsx) else 0) ∧
  (∀ id, id ∉ map (λ fsx, calc_sfx_id fsx (ctx_xtx_id ctx)) step →
     charges a' !! id = charges a !! id).
Proof.
  intros Hs Hnd Hr. pose proof (try_request_charges ctx step a Hs) as Hwp.
  unfold wp in Hwp. rewrite Hr in Hwp. destruct Hwp as [-> Hfresh].
  rewrite <- local_request_charges_keys in Hnd |- *. split.
  - intros fsx Hin.
    assert (empty_if_remote (request_charge_of ctx fsx) ∈ local_request_charges ctx step) as Hin'.
    { unfold local_request_charges. rewrite map_map.
      by apply list_elem_of_In, (in_map (λ f, empty_if_remote (request_charge_of ctx f))),
        list_elem_of_In. }
    assert (empty_if_remote (request_charge_of ctx fsx) =
      (calc_sfx_id fsx (ctx_xtx_id ctx), (empty_if_remote (request_charge_of ctx fsx)).2)) as Hpair.
    { unfold empty_if_remote. by destruct (is_local _). }
    rewrite Hpair in Hin'. split.
    + rewrite Forall_forall in Hfresh. apply (Hfresh _ Hin').
    + eexists. split; [by apply register_all_lookup|].
      unfold empty_if_remote, request_charge_of. cbn [fst snd payee].
      by destruct (is_local _).
  - intros id Hid. by apply register_all_lookup_ne.
Qed.

(** [SquareUp::bind_bidders] makes the best bidder of every side effect
    with a registered charge its enforced executor, and the recipient of the
    requester's charge; the reward and the payee do not change. *)
Theorem bind_bidders_assigns {E} ctx step a :
  ctx_full_side_effects ctx = [step] →
  NoDup (map (λ fsx, calc_sfx_id fsx (ctx_xtx_id ctx)) step) →
  ∃ b step' a',
    bind_bidders (E:=E) ctx a = Ok (set_ctx_fsx [step'] ctx, b) a' ∧
    length step' = length step ∧
    ∀ i fsx bid c,
      step !! i = Some fsx → fsx_best_bid fsx = Some bid →
      charges a !! calc_sfx_id fsx (ctx_xtx_id ctx) = Some c →
      (∃ fsx', step' !! i = Some fsx' ∧ fsx_best_bid fsx' = Some bid ∧
         sfx_enforce_executor (fsx_input fsx') = Some (bid_executor bid)) ∧
      charges a' !! calc_sfx_id fsx (ctx_xtx_id ctx) =
        Some (set_recipient (Some (bid_executor bid)) c).
Proof.
  intros Hs Hnd. destruct (bind_bidders_run (E:=E) ctx step a Hs) as (b & a' & Hb & Hc).
  eexists b, _, a'. split; [exact Hb|]. split; [by rewrite length_map|].
  intros i fsx bid c Hi Hbid Hcharge. split.
  - eexists. rewrite list_lookup_fmap, Hi. simpl. split; [done|].
    unfold bound_fsx. rewrite Hbid, Hcharge. done.
  - rewrite Hc, (bound_charges_lookup _ _ _ fsx bid Hnd) by (done || by eapply list_elem_of_lookup_2).
    by rewrite Hcharge.
Qed.

(** [SquareUp::kill] never fails on a transaction with a step, and
    releases exactly the deposits behind its side effects: the charge of the
    requester and the charge of the best bid of each, and no other charge. *)
Theorem kill_releases_deposits {E} ctx step a :
  read_current_step_fsx ctx = Some step →
  ∃ k a', square_up_kill (E:=E) ctx a = Ok k a' ∧
    ∀ id, charges a' !! id =
      if decide (id ∈ flat_map (charge_ids (ctx_xtx_id ctx)) step) then None
      else charges a !! id.
Proof.
  intros Hs. destruct (square_up_kill_run (E:=E) ctx step a Hs) as (k & a' & Hk & Hc).
  exists k, a'. split; [done|]. intros id. by rewrite Hc, lookup_delete_all.
Qed.

(** C4: [SquareUp::finalize] never fails on a transaction with a step, and
    runs its plan: every executor with a confirmed side effect gets its
    insurance back, every other bidder is slashed, and then the requester's
    charges are committed when all the side effects with bids are confirmed and
    refunded otherwise. *)
Theorem finalize_follows_plan {E} ctx step a :
  read_current_step_fsx ctx = Some step →
  (∃ f, square_up_finalize (E:=E) ctx a =
        Ok f (run_plan (finalize_plan (ctx_xtx_id ctx) step) a)) ∧
  (forallb has_bid step = true →
   (requester_outcome step = Commit ↔ forallb has_confirmation step = true) ∧
   (∀ fsx, fsx ∈ step → executor_outcome fsx = Slash ↔ has_confirmation fsx = false)).
Proof.
  intros Hs. split; [by apply square_up_finalize_run|]. intros Hb. split.
  - unfold requester_outcome.
    assert (forallb (λ fsx, negb (has_bid fsx) || has_confirmation fsx) step =
            forallb has_confirmation step) as ->; [|by case_match].
    clear Hs. induction step as [|fsx step IH]; [done|]. cbn [forallb] in Hb |- *.
    apply andb_true_iff in Hb as [Hb1 Hb2]. by rewrite Hb1, IH.
  - intros fsx _. unfold executor_outcome. by destruct (has_confirmation fsx).
Qed.
End Properties.
