(* ===== verification/Bids.v ===== *)
(** * Bidding

    [pallets/circuit/src/bids/mod.rs]: the checks on a bid, the bond it must
    lock, and the replacement of the best bid of a side effect. *)

From S2P Require Import Prelude Types Status AccountManager World SquareUp.

(** ** Definitions *)

(** [iter_mut().find(..)] followed by an update of the element found. *)
Fixpoint update_first {T} (p : T → bool) (f : T → T) (l : list T) : list T :=
  match l with
  | [] => []
  | x :: l' => if p x then f x :: l' else x :: update_first p f l'
  end.

(** [reduce] with a sum that skips what would overflow. *)
Definition reduce_rewards (l : list Balance) : option Balance :=
  match l with
  | [] => None
  | x :: rest => Some (fold_left (λ total next, default total (checked_add u128_max total next)) rest x)
  end.

Section Bids.
Context {A X : Type} `{Hashing} `{AccountManager A} `{CircuitConfig A X}.
Abbreviation C := (M (World A X) CircuitError).

Definition has_sfx_id (xtx_id sfx_id : Hash) (fsx : FullSideEffect) : bool :=
  calc_sfx_id fsx xtx_id =? sfx_id.

(** The maximal rewards of the other optimistic side effects of the step. *)
Definition optimistic_rewards_of_others (step_fsx : list FullSideEffect) (xtx_id sfx_id : Hash)
    : option Balance :=
  reduce_rewards
    (map (λ fsx, sfx_max_reward (fsx_input fsx))
       (List.filter (λ fsx, negb (has_sfx_id xtx_id sfx_id fsx))
          (List.filter (λ fsx, bool_decide (fsx_security_lvl fsx = Optimistic)) step_fsx))).

Definition positive_bond (o : option Balance) : option Balance :=
  match o with
  | Some x => if 0 <? x then Some x else None
  | None => None
  end.

(** The bond of a bid: the finality fee for escrow side effects and remote
    orders, the rewards of the others for optimistic side effects. *)
Definition bonded_bid (x : X) (xtx_requester : AccountId) (step_fsx : list FullSideEffect)
    (xtx_id sfx_id : Hash) (fsx : FullSideEffect) (bid : SFXBid) : SFXBid :=
  if is_remote (order_origin_new xtx_requester) || bool_decide (fsx_security_lvl fsx = Escrow) then
    mkSFXBid (bid_amount bid) (estimate_finality_fee x (sfx_target (fsx_input fsx)))
      (bid_reserved_bond bid) None (bid_executor bid) (bid_requester bid)
  else
    mkSFXBid (bid_amount bid) (bid_insurance bid)
      (positive_bond (optimistic_rewards_of_others step_fsx xtx_id sfx_id))
      (bid_reward_asset_id bid) (bid_executor bid) (bid_requester bid).

Definition find_unconfirmed (step_fsx : list FullSideEffect) (xtx_id sfx_id : Hash)
    : option FullSideEffect :=
  List.find (has_sfx_id xtx_id sfx_id)
    (List.filter (λ fsx, is_none (fsx_confirmed fsx)) step_fsx).

Definition try_bid (step_fsx : list FullSideEffect) (bid_amt : Balance)
    (bidder requester : AccountId) (sfx_id xtx_id : Hash) : C (list FullSideEffect) :=
  fsx ← ok_or (find_unconfirmed step_fsx xtx_id sfx_id) FSXNotFoundById;
  let bid := new_none_optimistic bid_amt (sfx_insurance (fsx_input fsx)) bidder requester
               (sfx_reward_asset_id (fsx_input fsx)) in
  let current_accepted_bid := fsx_best_bid fsx in
  ensure (negb (bid_amount bid <? circuit_minimum_balance)) BiddingRejectedBidBelowDust ;;
  ensure (negb (sfx_max_reward (fsx_input fsx) <? bid_amount bid)) BiddingRejectedBidTooHigh ;;
  ensure (bid_insurance bid =? sfx_insurance (fsx_input fsx)) BiddingRejectedInsuranceTooLow ;;
  ensure (match current_accepted_bid with
          | Some current_best => negb (bid_amount current_best <=? bid_amount bid)
          | None => true
          end) BiddingRejectedBetterBidFound ;;
  ctx ← load_xtx xtx_id;
  x ← gets w_ext;
  let bid := bonded_bid x (xtx_requester (ctx_xtx ctx)) step_fsx xtx_id sfx_id fsx bid in
  map_err (λ _, BiddingRejectedFailedToDepositBidderBond)
    (with_am (square_up_try_bid sfx_id requester bidder bid current_accepted_bid)) ;;
  mret (update_first (has_sfx_id xtx_id sfx_id) (set_best_bid (Some bid)) step_fsx).
End Bids.

(** ** Lemmas *)

Section Facts.
Context {A X : Type} `{Hashing} `{AccountManagerSpec A} `{!CircuitConfig A X}.
Implicit Types w : World A X.

Lemma bonded_bid_fields x who step xtx_id sfx_id fsx bid :
  bid_amount (bonded_bid x who step xtx_id sfx_id fsx bid) = bid_amount bid ∧
  bid_executor (bonded_bid x who step xtx_id sfx_id fsx bid) = bid_executor bid.
Proof. unfold bonded_bid. by case_match. Qed.

(** The charge behind an accepted bid. *)
Definition bid_secured (sfx_id : Hash) (bid : SFXBid) (old : option SFXBid) (a a' : A) : Prop :=
  (∃ c, charges a' !! bid_generate_id bid sfx_id = Some c ∧ payee c = bid_executor bid ∧
     offered_reward c = default 0 (bid_reserved_bond bid) + bid_insurance bid) ∧
  (∀ b, old = Some b → bid_generate_id b sfx_id ≠ bid_generate_id bid sfx_id →
     charges a' !! bid_generate_id b sfx_id = None) ∧
  (∀ id, id ≠ bid_generate_id bid sfx_id →
     (∀ b, old = Some b → id ≠ bid_generate_id b sfx_id) → charges a' !! id = charges a !! id).

Lemma square_up_try_bid_secures sfx_id requester bid old (a : A) :
  wp (square_up_try_bid sfx_id requester (bid_executor bid) bid old)
    (λ _ a', bid_secured sfx_id bid old a a' ∧ (∀ b, old = Some b → bid_amount bid < bid_amount b))
    (λ _ _, True) a.
Proof.
  eapply wp_mono; [apply square_up_try_bid_charges| |done].
  cbv zeta. intros [] a' Ha'. destruct old as [b|].
  - destruct Ha' as (Hlt & c & Hc & Ha'). split; [|naive_solver]. unfold bid_secured. rewrite Ha'.
    split_and!.
    + eexists. split; [apply lookup_insert_eq|done].
    + intros b' [= <-] Hne. by rewrite lookup_insert_ne, lookup_delete_eq by done.
    + intros id Hne Hold. rewrite lookup_insert_ne, lookup_delete_ne; [done| |done].
      intros <-. by eapply Hold.
  - destruct Ha' as (Hfresh & Ha'). split; [|done]. unfold bid_secured. rewrite Ha'. split_and!; [|done|].
    + eexists. split; [apply lookup_insert_eq|done].
    + intros id Hne _. by apply lookup_insert_ne.
Qed.

(** A bid changes the account manager only; the checks it passed. *)
Lemma try_bid_spec step amt bidder requester sfx_id xtx_id w :
  wp (try_bid step amt bidder requester sfx_id xtx_id)
    (λ step' w', ∃ fsx bid a',
       find_unconfirmed step xtx_id sfx_id = Some fsx ∧
       step' = update_first (has_sfx_id xtx_id sfx_id) (set_best_bid (Some bid)) step ∧
       bid_amount bid = amt ∧ bid_executor bid = bidder ∧
       circuit_minimum_balance ≤ amt ≤ sfx_max_reward (fsx_input fsx) ∧
       (∀ old, fsx_best_bid fsx = Some old → amt < bid_amount old) ∧
       w' = set_am a' w ∧ bid_secured sfx_id bid (fsx_best_bid fsx) (w_am w) a')
    (λ _ w', ∃ a', w' = set_am a' w) w.
Proof.
  assert (∃ a', w = set_am a' w) as Hsame by (exists (w_am w); by destruct w).
  unfold try_bid. apply wp_bind, wp_ok_or; [|done]. intros fsx Hfsx. cbv zeta.
  apply wp_bind, wp_ensure; [intros Hdust|done].
  apply wp_bind, wp_ensure; [intros Hhigh|done].
  apply wp_bind, wp_ensure; [intros _|done].
  apply wp_bind, wp_ensure; [intros Hbetter|done].
  apply wp_bind. eapply wp_mono; [apply load_xtx_total| |by intros ?? ->].
  intros ctx w1 ->. apply wp_bind, wp_gets, wp_bind.
  set (bid := bonded_bid _ _ _ _ _ _ _).
  assert (bid_amount bid = amt ∧ bid_executor bid = bidder) as [Hamt Hexec]
    by apply bonded_bid_fields.
  clearbody bid. subst bidder. unfold wp at 1, map_err, with_am, zoom.
  pose proof (square_up_try_bid_secures sfx_id requester bid (fsx_best_bid fsx) (w_am w)) as Hsec.
  unfold wp in Hsec. destruct (square_up_try_bid _ _ _ _ _ _) as [[] a'|e a'|]; [|by eexists|done].
  destruct Hsec as [Hsec Hlt]. apply wp_ret. exists fsx, bid, a'.
  cbn [bid_amount new_none_optimistic] in Hdust, Hhigh.
  split_and!; try done; [lia..|]. rewrite <- Hamt. done.
Qed.
End Facts.

(** ** Properties *)

Section Properties.
Context {A X : Type} `{Hashing} `{AccountManagerSpec A} `{!CircuitConfig A X}.
Implicit Types w : World A X.

(** A bid accepted by [Bids::try_bid] lies between the existential
    deposit and the maximal reward, is strictly below the previous best bid,
    and becomes the best bid of the side effect; the bidder's bond is
    registered, the outbid bidder's bond is released, and no other charge nor
    any storage of the Circuit changes. *)
Theorem accepted_bid_improves step amt bidder requester sfx_id xtx_id w step' w' :
  try_bid step amt bidder requester sfx_id xtx_id w = Ok step' w' →
  ∃ fsx bid,
    find_unconfirmed step xtx_id sfx_id = Some fsx ∧
    step' = update_first (has_sfx_id xtx_id sfx_id) (set_best_bid (Some bid)) step ∧
    bid_amount bid = amt ∧ bid_executor bid = bidder ∧
    circuit_minimum_balance ≤ amt ≤ sfx_max_reward (fsx_input fsx) ∧
    (∀ old, fsx_best_bid fsx = Some old → amt < bid_amount old) ∧
    w' = set_am (w_am w') w ∧
    bid_secured sfx_id bid (fsx_best_bid fsx) (w_am w) (w_am w').
Proof.
  intros Hb. pose proof (try_bid_spec step amt bidder requester sfx_id xtx_id w) as Hwp.
  unfold wp in Hwp. rewrite Hb in Hwp.
  destruct Hwp as (fsx & bid & a' & ? & ? & ? & ? & ? & ? & -> & ?). by exists fsx, bid.
Qed.
End Properties.
