(* ===== verification/Validate.v ===== *)
(** * Authorization and validation of side effects

    [Pallet::{authorize, validate, ensure_all_gateways_are_active}] of
    [pallets/circuit/src/lib.rs]. *)

From S2P Require Import Prelude Types Status AccountManager World.

(** A stable sort by index. *)
Fixpoint insert_by_index (x : FullSideEffect) (l : list FullSideEffect) : list FullSideEffect :=
  match l with
  | [] => [x]
  | y :: l' => if fsx_index x <=? fsx_index y then x :: l else y :: insert_by_index x l'
  end.
Definition sort_by_index (l : list FullSideEffect) : list FullSideEffect :=
  foldr insert_by_index [] l.

Section Validate.
Context {A X : Type} `{CircuitConfig A X}.
Abbreviation C := (M (World A X) CircuitError).

Definition authorize {S} (origin : RawOrigin) (role : CircuitRole) : M S DispatchError AccountId :=
  match role with
  | Requester | ContractAuthor => ensure_signed origin
  | Relayer => ensure_signed origin
  | Executor => ensure_signed origin
  | _ => throw BadOrigin
  end.

Fixpoint ensure_all_gateways_are_active (x : X) (targets : list TargetId) : bool :=
  match targets with
  | [] => true
  | target :: rest =>
      match read_last_activity x target with
      | None => false
      | Some is_active => if is_active then ensure_all_gateways_are_active x rest else false
      end
  end.

(** One side effect of [validate]. *)
Definition validate_one (x : X) (index : nat) (sfx : SideEffect)
    : result CircuitError FullSideEffect :=
  let gateway_max_security_lvl := get_gateway_max_security_lvl x (sfx_target sfx) in
  match get_sfx_abi x (sfx_target sfx) (sfx_action sfx) with
  | None => RErr ABIOnSelectedTargetNotFoundForSubmittedSFX
  | Some sfx_abi =>
      match validate_ordered_arguments sfx_abi (sfx_encoded_args sfx) Scale with
      | RErr _ => RErr SideEffectsValidationFailedAgainstABI
      | ROk _ =>
          match get_finalized_height x (sfx_target sfx) with
          | RErr _ => RErr TargetAppearsNotToBeActiveAndDoesntHaveFinalizedHeight
          | ROk NotActive => RErr TargetAppearsNotToBeActiveAndDoesntHaveFinalizedHeight
          | ROk (Height block_number) =>
              ROk {| fsx_input := sfx; fsx_confirmed := None;
                     fsx_security_lvl := gateway_max_security_lvl;
                     fsx_submission_target_height := block_number;
                     fsx_best_bid := None; fsx_index := wrap32 (Z.of_nat index) |}
          end
      end
  end.

Fixpoint validate_all (x : X) (index : nat) (side_effects : list SideEffect)
    : result CircuitError (list FullSideEffect) :=
  match side_effects with
  | [] => ROk []
  | sfx :: rest =>
      match validate_one x index sfx with
      | RErr e => RErr e
      | ROk fsx =>
          match validate_all x (S index) rest with
          | RErr e => RErr e
          | ROk l => ROk (fsx :: l)
          end
      end
  end.

Definition validate (side_effects : list SideEffect) (ctx : LocalXtxCtx)
    (_preferred_security_lvl : SecurityLvl) : C LocalXtxCtx :=
  if is_empty side_effects then mret (set_ctx_fsx [[]] ctx)
  else
    x ← gets w_ext;
    ensure (ensure_all_gateways_are_active x (map sfx_target side_effects)) GatewayNotActive ;;
    fsx ← lift_result (validate_all x 0 side_effects);
    mret (set_ctx_fsx [sort_by_index fsx] ctx).
End Validate.

(** ** Lemmas *)

Section Facts.
Context {A X : Type} `{CircuitConfig A X}.
Implicit Types w : World A X.

Lemma validate_one_spec x i sfx fsx :
  validate_one x i sfx = ROk fsx →
  fsx_input fsx = sfx ∧ fsx_confirmed fsx = None ∧ fsx_best_bid fsx = None ∧
  fsx_index fsx = wrap32 (Z.of_nat i) ∧
  fsx_security_lvl fsx = get_gateway_max_security_lvl x (sfx_target sfx) ∧
  get_finalized_height x (sfx_target sfx) = ROk (Height (fsx_submission_target_height fsx)).
Proof. unfold validate_one. intros. repeat case_match; by simplify_eq/=. Qed.

(** The side effects are kept in order and numbered from [i]. *)
Lemma validate_all_spec x i l fsx :
  validate_all x i l = ROk fsx →
  map fsx_input fsx = l ∧
  map fsx_index fsx = map (λ k, wrap32 (Z.of_nat k)) (seq i (length l)) ∧
  Forall (λ f, fsx_confirmed f = None ∧ fsx_best_bid f = None) fsx.
Proof.
  revert i fsx. induction l as [|sfx l IH]; intros i fsx Hv; cbn [validate_all] in Hv.
  - by simplify_eq.
  - destruct (validate_one x i sfx) as [f|] eqn:Hf; [|done].
    destruct (validate_all x (S i) l) as [rest|] eqn:Hr; [|done]. simplify_eq.
    apply validate_one_spec in Hf as (Hin & Hc & Hb & Hi & _).
    destruct (IH _ _ Hr) as (IH1 & IH2 & IH3). cbn [map length seq].
    split_and!; [by f_equal..|by constructor].
Qed.

Lemma validate_all_length x i l fsx : validate_all x i l = ROk fsx → length fsx = length l.
Proof. intros (<- & _)%validate_all_spec. by rewrite length_map. Qed.

Lemma insert_by_index_le x l :
  Forall (λ y, fsx_index x ≤ fsx_index y) l → insert_by_index x l = x :: l.
Proof.
  intros Hl. destruct l as [|y l]; [done|]. apply Forall_cons in Hl as [Hl _]. simpl.
  by apply Z.leb_le in Hl as ->.
Qed.

(** Sorting does nothing to side effects numbered without wrap-around. *)
Lemma sort_by_index_numbered l i :
  map fsx_index l = map (λ k, wrap32 (Z.of_nat k)) (seq i (length l)) →
  Z.of_nat (i + length l) ≤ 2 ^ 32 → sort_by_index l = l.
Proof.
  revert i. induction l as [|x l IH]; intros i Hidx Hlen; [done|].
  cbn [map length seq] in Hidx, Hlen. injection Hidx as Hx Hl. unfold sort_by_index. cbn [foldr].
  fold (sort_by_index l). rewrite (IH (S i)) by (done || lia).
  apply insert_by_index_le. apply Forall_forall. intros y Hy. rewrite Hx.
  apply list_elem_of_In, (in_map fsx_index) in Hy. rewrite Hl in Hy.
  apply in_map_iff in Hy as (k & <- & Hk). apply in_seq in Hk.
  unfold wrap32. rewrite !Z.mod_small; lia.
Qed.

Lemma insert_by_index_perm x l : insert_by_index x l ≡ₚ x :: l.
Proof.
  induction l as [|y l IH]; simpl; [done|]. case_match; [done|]. rewrite IH. constructor.
Qed.

Lemma sort_by_index_perm l : sort_by_index l ≡ₚ l.
Proof.
  induction l as [|x l IH]; [done|]. unfold sort_by_index. cbn [foldr].
  rewrite insert_by_index_perm. by constructor.
Qed.

(** Validation reads the storage only, and yields one step of fresh side
    effects. *)
Definition fresh_step (step : list FullSideEffect) : Prop :=
  Forall (λ f, fsx_confirmed f = None ∧ fsx_best_bid f = None) step.

Lemma validate_wp sfx ctx lvl w :
  wp (validate sfx ctx lvl)
    (λ ctx' w', w' = w ∧ ∃ step, ctx' = set_ctx_fsx [step] ctx ∧
       length step = length sfx ∧ fresh_step step)
    (λ _ w', w' = w) w.
Proof.
  unfold validate. destruct (is_empty sfx) eqn:He.
  { apply is_empty_true in He as ->. apply wp_ret. split; [done|]. exists [].
    split_and!; [done..|constructor]. }
  repeat step_wp; [|done]. destruct (validate_all (w_ext w) 0 sfx) as [fsx|e] eqn:Hv; [|done].
  unfold lift_result. repeat step_wp. split; [done|]. exists (sort_by_index fsx).
  split_and!; [done| |].
  - rewrite sort_by_index_perm. by eapply validate_all_length.
  - unfold fresh_step. rewrite sort_by_index_perm. by apply validate_all_spec in Hv as (_ & _ & ?).
Qed.

Lemma ensure_all_gateways_are_active_true x targets :
  ensure_all_gateways_are_active x targets = true ↔
  Forall (λ t, read_last_activity x t = Some true) targets.
Proof.
  induction targets as [|t targets IH]; simpl; [naive_solver|].
  rewrite Forall_cons, <- IH. destruct (read_last_activity x t) as [[]|]; naive_solver.
Qed.
End Facts.
