(* ===== verification/Machine.v ===== *)
(** * The Circuit as a state machine

    [pallets/circuit/src/machine/{mod,extra}.rs].  Every change of a stored
    transaction goes through [compile]: a precompile step chooses what to do,
    [update_status] determines the new status and checks the transition,
    [post_update] runs the caller's follow-up, and [apply] writes the storage
    and squares up the deposits. *)

From S2P Require Import Prelude Types Status AccountManager World SquareUp Bids Validate.

(** [PrecompileResult]. *)
Inductive PrecompileResult :=
| TryUpdateFSX (l : list FullSideEffect)
| TryBid (sfx_id : Hash) (bid_amount : Balance) (bidder : AccountId)
| TryConfirm (sfx_id : Hash) (c : ConfirmedSideEffect)
| TryRequest
| Continue
| ForceUpdateStatus (s : CircuitStatus)
| TryKill (c : Cause)
| RevertXtx (c : Cause).

Section Machine.
Context {A X : Type} `{Hashing} `{AccountManager A} `{CircuitConfig A X}.
Abbreviation W := (World A X).
Abbreviation C := (M (World A X) CircuitError).

(** A precompile function may change the side effects it is handed: it returns
    them with its result. *)
Definition Precompile : Type :=
  list FullSideEffect → gmap Z (list Z) → Z * Z → CircuitStatus → AccountId →
  C (PrecompileResult * list FullSideEffect).
Definition PostUpdate : Type := CircuitStatus * CircuitStatus → LocalXtxCtx → C unit.

(** ** extra.rs *)

Definition no_mangle : Precompile := λ current_fsx _ _ _ _, mret (Continue, current_fsx).
Definition no_post_updates : PostUpdate := λ _ _, mret tt.
Definition infallible_no_post_updates : PostUpdate := λ _ _, mret tt.

Definition validate_fsx (status : CircuitStatus) (fsx : FullSideEffect) : C unit :=
  (if status_leb Ready status then
     ensure (is_some (sfx_enforce_executor (fsx_input fsx)))
       InvalidFTXStateUnassignedExecutorForReadySFX ;;
     match fsx_best_bid fsx with
     | Some bid =>
         ensure (bool_decide (Some (bid_executor bid) = sfx_enforce_executor (fsx_input fsx)))
           InvalidFTXStateIncorrectExecutorForReadySFX
     | None => throw InvalidFTXStateEmptyBidForReadyXtx
     end
   else mret tt) ;;
  (if status_leb Finished status
      && negb (status_eqb status (Reverted Timeout))
      && negb (status_eqb status (Reverted IntentionalKill))
   then ensure (is_some (fsx_confirmed fsx)) InvalidFTXStateEmptyConfirmationForFinishedXtx
   else mret tt).

Definition validate_fsx_against_xtx (ctx : LocalXtxCtx) : C unit :=
  for_each (ctx_full_side_effects ctx)
    (λ fsx_step, for_each fsx_step (validate_fsx (xtx_status (ctx_xtx ctx)))).

(** ** Setup *)

Definition setup (side_effects : list SideEffect) (requester : AccountId)
    (maybe_adaptive_timeout : option AdaptiveTimeout) (preferred_security_lvl : SecurityLvl)
    : C LocalXtxCtx :=
  block ← gets w_block;
  let timeouts_at := wrap32 (XtxTimeoutDefault + block) in
  let adaptive_timeout :=
    match maybe_adaptive_timeout with
    | None => new_emergency timeouts_at
    | Some t => t
    end in
  nonce ← gets (λ w, default 0 (w_nonces w !! requester));
  let '(xtx_id, xtx) := setup_fresh requester nonce adaptive_timeout Finalized None in
  duplicated ← gets (λ w, is_some (x_exec_signals w !! xtx_id));
  ensure (negb duplicated) SetupFailedDuplicatedXtx ;;
  validate side_effects (mkCtx ∅ xtx_id xtx []) preferred_security_lvl.

(** ** Status *)

Definition check_bump_steps (ctx : LocalXtxCtx) (status_change : CircuitStatus * CircuitStatus)
    : Z * Z :=
  let '(current_step, steps_cnt) := xtx_steps_cnt (ctx_xtx ctx) in
  match status_change with
  | (Requested, (Requested | Reserved | PendingBidding | InBidding)) =>
      (0, wrap32 (Z.of_nat (length (ctx_full_side_effects ctx))))
  | ((Ready | PendingExecution), Finished) => (wrap32 (current_step + 1), steps_cnt)
  | ((Ready | PendingExecution | Finished), FinishedAllSteps) => (steps_cnt, steps_cnt)
  | _ => (current_step, steps_cnt)
  end.

Definition update_status (ctx : LocalXtxCtx) (enforce_new_status : option CircuitStatus)
    : C (CircuitStatus * CircuitStatus * LocalXtxCtx) :=
  let current_status := xtx_status (ctx_xtx ctx) in
  match current_status with
  | Reverted _ => throw UpdateAttemptDoubleRevert
  | Killed _ => throw UpdateAttemptDoubleKill
  | _ => mret tt
  end ;;
  let determined := determine_xtx_status (ctx_full_side_effects ctx) in
  new_status ←
    map_err (λ _, UpdateStateTransitionDisallowed)
      (lift_result (check_transition current_status determined enforce_new_status));
  let steps := check_bump_steps ctx (current_status, new_status) in
  mret (current_status, new_status,
        set_ctx_xtx (set_status_steps new_status steps (ctx_xtx ctx)) ctx).

(** ** Apply: the writes of each transition *)

Definition sfx_ids_of (ctx : LocalXtxCtx) : list Hash :=
  flat_map (map (λ fsx, calc_sfx_id fsx (ctx_xtx_id ctx))) (ctx_full_side_effects ctx).

Definition put_fsx (ctx : LocalXtxCtx) (w : W) : W :=
  set_fsx (<[ctx_xtx_id ctx := ctx_full_side_effects ctx]> (full_side_effects w)) w.
Definition put_xtx (ctx : LocalXtxCtx) (w : W) : W :=
  set_signals (<[ctx_xtx_id ctx := ctx_xtx ctx]> (x_exec_signals w)) w.
Definition drop_xtx (id : Hash) (w : W) : W :=
  set_signals (delete id (x_exec_signals w)) w.
Definition drop_fsx (id : Hash) (w : W) : W :=
  set_fsx (delete id (full_side_effects w)) w.
Definition drop_local_state (id : Hash) (w : W) : W :=
  set_local_states (delete id (local_xtx_states w)) w.
Definition drop_timeout (id : Hash) (w : W) : W :=
  set_timeouts (delete id (pending_xtx_timeouts w)) w.
Definition drop_bids_timeout (id : Hash) (w : W) : W :=
  set_bids_timeouts (delete id (pending_xtx_bids_timeouts w)) w.
Definition drop_dlq (id : Hash) (w : W) : W :=
  set_dlq_entries (delete id (dlq_entries w)) w.

(** Requested to Reserved or PendingBidding. *)
Definition apply_request (ctx : LocalXtxCtx) (w : W) : W :=
  let id := ctx_xtx_id ctx in
  let w := put_fsx ctx w in
  let w := set_links (fold_left (λ m sfx_id, <[sfx_id := id]> m) (sfx_ids_of ctx)
                        (sfx2xtx_links w)) w in
  let w := set_local_states (<[id := ctx_local_state ctx]> (local_xtx_states w)) w in
  let w := set_timeouts (<[id := xtx_timeouts_at (ctx_xtx ctx)]> (pending_xtx_timeouts w)) w in
  let w := set_bids_timeouts
             (<[id := wrap32 (SFXBiddingPeriod + w_block w)]> (pending_xtx_bids_timeouts w)) w in
  put_xtx ctx w.

(** InBidding to Ready. *)
Definition apply_ready (ctx : LocalXtxCtx) (w : W) : W :=
  drop_bids_timeout (ctx_xtx_id ctx) (put_xtx ctx (put_fsx ctx w)).

(** The storage side of a kill. *)
Definition apply_kill (ctx : LocalXtxCtx) (w : W) : W :=
  let id := ctx_xtx_id ctx in
  let w := drop_fsx id (drop_local_state id (drop_timeout id (drop_xtx id w))) in
  let w := set_links (fold_left (λ m sfx_id, delete sfx_id m) (sfx_ids_of ctx)
                        (sfx2xtx_links w)) w in
  drop_bids_timeout id w.

(** The storage side of a revert. *)
Definition apply_revert (ctx : LocalXtxCtx) (w : W) : W :=
  let id := ctx_xtx_id ctx in
  drop_local_state id (drop_dlq id (drop_timeout id (drop_fsx id (drop_xtx id w)))).

(** FinishedAllSteps to Committed. *)
Definition apply_commit (ctx : LocalXtxCtx) (w : W) : W :=
  let id := ctx_xtx_id ctx in
  drop_local_state id (drop_fsx id (drop_xtx id w)).

(** The storage side of reaching FinishedAllSteps. *)
Definition apply_finish (ctx : LocalXtxCtx) (w : W) : W :=
  let id := ctx_xtx_id ctx in
  let w := put_fsx ctx (drop_dlq id (drop_timeout id (put_xtx ctx w))) in
  set_finalized (<[id := w_block w]> (finalized_xtx w)) w.

Definition apply {E} (ctx : LocalXtxCtx) (status_change : CircuitStatus * CircuitStatus)
    : M W E bool :=
  let '(old_status, new_status) := status_change in
  if status_eqb old_status new_status
     && negb (status_eqb new_status PendingExecution)
     && negb (status_eqb new_status InBidding)
     || status_eqb old_status Committed
  then mret false
  else
    match old_status, new_status with
    | Requested, (Reserved | PendingBidding) => modify (apply_request ctx) ;; mret true
    | PendingBidding, InBidding => modify (λ w, put_fsx ctx (put_xtx ctx w)) ;; mret true
    | InBidding, InBidding => modify (put_fsx ctx) ;; mret true
    | InBidding, Ready => modify (apply_ready ctx) ;; mret true
    | (Reserved | PendingBidding | InBidding), Killed _ =>
        modify (apply_kill ctx) ;; with_am (square_up_kill ctx) ;; mret true
    | (Ready | PendingExecution | Finished), Reverted _ =>
        modify (apply_revert ctx) ;; with_am (square_up_finalize ctx) ;; mret true
    | FinishedAllSteps, Committed => modify (apply_commit ctx) ;; mret true
    | (Finished | Ready | PendingExecution), FinishedAllSteps =>
        modify (apply_finish ctx) ;; with_am (square_up_finalize ctx) ;; mret true
    | (Ready | PendingExecution | Finished), (Ready | PendingExecution | Finished) =>
        modify (λ w, put_xtx ctx (put_fsx ctx w)) ;; mret true
    | _, _ => mret false
    end.

(** ** Compile *)

Definition confirm_in_step (xtx_id sfx_id : Hash) (c : ConfirmedSideEffect)
    (step : list FullSideEffect) : list FullSideEffect :=
  map (λ fsx, if has_sfx_id xtx_id sfx_id fsx then set_confirmed (Some c) fsx else fsx) step.

(** What a precompile result does to the context, and the status it enforces. *)
Definition run_precompile (ctx : LocalXtxCtx) (current_fsx : list FullSideEffect)
    (r : PrecompileResult) : C (option CircuitStatus * LocalXtxCtx) :=
  let status := xtx_status (ctx_xtx ctx) in
  let requester := xtx_requester (ctx_xtx ctx) in
  match r with
  | TryRequest =>
      map_err (λ _, RequesterNotEnoughBalance) (with_am (try_request ctx)) ;;
      mret (None, ctx)
  | TryUpdateFSX updated_fsx =>
      ctx' ← expect (update_current_step_fsx ctx updated_fsx);
      mret (None, ctx')
  | TryConfirm sfx_id confirmed_sfx =>
      let found := existsb (has_sfx_id (ctx_xtx_id ctx) sfx_id) current_fsx in
      let current_fsx := confirm_in_step (ctx_xtx_id ctx) sfx_id confirmed_sfx current_fsx in
      ensure found FSXNotFoundById ;;
      ctx' ← expect (update_current_step_fsx ctx current_fsx);
      mret (None, ctx')
  | TryBid sfx_id bid_amount bidder =>
      match status with
      | PendingBidding | InBidding =>
          updated_fsx ← try_bid current_fsx bid_amount bidder requester sfx_id (ctx_xtx_id ctx);
          ctx' ← expect (update_current_step_fsx ctx updated_fsx);
          mret (Some InBidding, ctx')
      | _ => throw BiddingInactive
      end
  | Continue => mret (None, ctx)
  | TryKill cause => mret (Some (Killed cause), ctx)
  | ForceUpdateStatus force_status =>
      if status_eqb InBidding status && status_eqb force_status Ready then
        r ← with_am (bind_bidders ctx);
        mret (Some force_status, r.1)
      else mret (Some force_status, ctx)
  | RevertXtx cause => mret (Some (Reverted cause), ctx)
  end.

(** The result carries the updated context with the answer. *)
Definition compile (ctx : LocalXtxCtx) (precompile : Precompile) (post_update : PostUpdate)
    : C (LocalXtxCtx * bool) :=
  current_fsx ← expect (read_current_step_fsx ctx);
  r ← precompile current_fsx (ctx_local_state ctx) (xtx_steps_cnt (ctx_xtx ctx))
        (xtx_status (ctx_xtx ctx)) (xtx_requester (ctx_xtx ctx));
  e ← run_precompile ctx r.2 r.1;
  u ← update_status e.2 e.1;
  post_update u.1 u.2 ;;
  applied ← apply u.2 u.1;
  mret (u.2, applied).

(** [compile(..).expect(..)]: the callers are block hooks. *)
Definition compile_infallible {E} (ctx : LocalXtxCtx) (infallible_precompile : Precompile)
    (infallible_post_update : PostUpdate) : M W E (LocalXtxCtx * bool) :=
  expect_ok (compile ctx infallible_precompile infallible_post_update).

(** [kill] and [revert] return [false] when the transaction is not found. *)
Definition infallible_on {E} (xtx_id : Hash) (result : PrecompileResult)
    (infallible_post_update : PostUpdate) : M W E bool :=
  loaded ← attempt (load_xtx xtx_id);
  match loaded with
  | ROk ctx =>
      r ← compile_infallible ctx (λ current_fsx _ _ _ _, mret (result, current_fsx))
            infallible_post_update;
      mret r.2
  | RErr _ => mret false
  end.

Definition kill {E} (xtx_id : Hash) (cause : Cause) (post : PostUpdate) : M W E bool :=
  infallible_on xtx_id (TryKill cause) post.

Definition revert {E} (xtx_id : Hash) (cause : Cause) (post : PostUpdate) : M W E bool :=
  infallible_on xtx_id (RevertXtx cause) post.
End Machine.
Arguments Precompile A X : clear implicits.
Arguments PostUpdate A X : clear implicits.
