(* ===== verification/Circuit.v ===== *)
(** * The Circuit pallet

    [pallets/circuit/src/lib.rs]: queries ([ReadSFX]), events, the submission
    and confirmation of side effects, the local triggers of the 3VM, the
    dispatchables, and the queues processed by the block hooks. *)

From S2P Require Import Prelude Types Status AccountManager World SquareUp Bids Validate.
From S2P Require Import Machine.

(** SCALE decoding of fixed-width values: a prefix of the input. *)
Definition decode_fixed (n : nat) (l : list Z) : option (list Z) :=
  if (n <=? length l)%nat then Some (take n l) else None.
Definition decode_account (l : list Z) : option AccountId := from_be_bytes <$> decode_fixed 32 l.
Definition decode_u128 (l : list Z) : option Balance := from_le_bytes <$> decode_fixed 16 l.
Definition decode_u32 (l : list Z) : option AssetId := from_le_bytes <$> decode_fixed 4 l.

(** The 4-byte actions [b"tran"], [b"tass"] and [b"tddd"]. *)
Definition act_tran : list Z := [116; 114; 97; 110].
Definition act_tass : list Z := [116; 97; 115; 115].
Definition act_tddd : list Z := [116; 100; 100; 100].

(** The weight of a hook with the overflow rule of [saturating_add] on [u64]. *)
Definition add_weight (a b : Z) : Z := saturating_add u64_max a b.

Section Circuit.
Context {A X : Type} `{Hashing} `{AccountManager A} `{CircuitConfig A X}.
Abbreviation W := (World A X).
Abbreviation C := (M (World A X) CircuitError).
Abbreviation D := (M (World A X) DispatchError).
Implicit Types w : W.

(** [Error::<T>::X.into()]. *)
Definition circ {T} (m : C T) : D T := map_err CircuitModuleError m.

(** ** Queries: ReadSFX *)

Definition xtx_not_found {T} : result DispatchError T := RErr (CircuitModuleError XtxNotFound).

(** The ids of a step by position. *)
Definition ids_by_position (xtx_id : Hash) {T} (step : list T) : list Hash :=
  imap (λ index _, generate_id (be_bytes 32 xtx_id) (wrap32 (Z.of_nat index))) step.

Definition get_fsx_of_xtx (xtx_id : Hash) w : result DispatchError (list Hash) :=
  match full_side_effects w !! xtx_id with
  | None => xtx_not_found
  | Some steps => ROk (flat_map (ids_by_position xtx_id) steps)
  end.

Definition get_xtx_status (xtx_id : Hash) w : result DispatchError (CircuitStatus * AdaptiveTimeout) :=
  match x_exec_signals w !! xtx_id with
  | Some xtx => ROk (xtx_status xtx, xtx_timeouts_at xtx)
  | None => xtx_not_found
  end.

Definition get_fsx_status (fsx_id : Hash) w : result DispatchError CircuitStatus :=
  match sfx2xtx_links w !! fsx_id with
  | None => xtx_not_found
  | Some xtx_id =>
      match get_xtx_status xtx_id w with ROk s => ROk s.1 | RErr e => RErr e end
  end.

Definition get_pending_xtx_ids w : list Hash :=
  map fst (List.filter (λ kv, status_ltb (xtx_status kv.2) Finished)
             (storage_iter (x_exec_signals w))).

Definition recover_latest_submitted_xtx_id w : result DispatchError Hash :=
  match last (get_pending_xtx_ids w) with Some id => ROk id | None => xtx_not_found end.

(** The first side effect whose id by position is [fsx_id]. *)
Fixpoint find_by_position (xtx_id fsx_id : Hash) (index : nat) (step : list FullSideEffect)
    : option FullSideEffect :=
  match step with
  | [] => None
  | fsx :: rest =>
      if generate_id (be_bytes 32 xtx_id) (wrap32 (Z.of_nat index)) =? fsx_id then Some fsx
      else find_by_position xtx_id fsx_id (S index) rest
  end.

Fixpoint find_in_steps (xtx_id fsx_id : Hash) (steps : list (list FullSideEffect))
    : option FullSideEffect :=
  match steps with
  | [] => None
  | step :: rest =>
      match find_by_position xtx_id fsx_id 0 step with
      | Some fsx => Some fsx
      | None => find_in_steps xtx_id fsx_id rest
      end
  end.

Definition get_fsx_executor (fsx_id : Hash) w : result DispatchError (option AccountId) :=
  match sfx2xtx_links w !! fsx_id with
  | None => xtx_not_found
  | Some xtx_id =>
      match full_side_effects w !! xtx_id with
      | None => xtx_not_found
      | Some steps =>
          if is_empty steps then xtx_not_found
          else ROk (fsx ← find_in_steps xtx_id fsx_id steps; sfx_enforce_executor (fsx_input fsx))
      end
  end.

Definition get_fsx (fsx_id : Hash) w : result DispatchError FullSideEffect :=
  match sfx2xtx_links w !! fsx_id with
  | None => xtx_not_found
  | Some xtx_id =>
      match full_side_effects w !! xtx_id with
      | None => xtx_not_found
      | Some steps =>
          match find_in_steps xtx_id fsx_id steps with
          | Some fsx => ROk fsx
          | None => RErr (CircuitModuleError FSXNotFoundById)
          end
      end
  end.

Definition get_fsx_requester (fsx_id : Hash) w : result DispatchError AccountId :=
  match sfx2xtx_links w !! fsx_id with
  | None => xtx_not_found
  | Some xtx_id =>
      match x_exec_signals w !! xtx_id with
      | Some xtx => ROk (xtx_requester xtx)
      | None => xtx_not_found
      end
  end.

Definition ids_or_default (xtx_id : Hash) w : list Hash :=
  match get_fsx_of_xtx xtx_id w with ROk l => l | RErr _ => [] end.

(** The side effects of a transaction enforced on an executor, with their ids. *)
Definition sfx_enforced_on (for_executor : AccountId) (ids : list Hash) w
    : list (SideEffect * Hash) :=
  omap (λ id, match get_fsx id w with
              | ROk fsx =>
                  if bool_decide (sfx_enforce_executor (fsx_input fsx) = Some for_executor)
                  then Some (fsx_input fsx, id) else None
              | RErr _ => None
              end) ids.

Definition get_pending_xtx_for (for_executor : AccountId) w
    : list (Hash * list SideEffect * list Hash) :=
  omap (λ xtx_id,
          let l := sfx_enforced_on for_executor (ids_or_default xtx_id w) w in
          if is_empty l then None else Some (xtx_id, map fst l, map snd l))
    (get_pending_xtx_ids w).

Definition get_all_xtx_targets (xtx_id : Hash) w : list TargetId :=
  match get_fsx_of_xtx xtx_id w with
  | RErr _ => []
  | ROk ids =>
      omap (λ id, match get_fsx id w with
                  | ROk fsx => Some (sfx_target (fsx_input fsx))
                  | RErr _ => None
                  end) ids
  end.

(** [get_pending_sfx_bids]: a bid is pending until its executor is enforced. *)
Definition get_pending_sfx_bids (xtx_id sfx_id : Hash) : C (option SFXBid) :=
  ctx ← load_xtx xtx_id;
  current_step_fsx ← expect (read_current_step_fsx ctx);
  fsx ← ok_or (List.find (has_sfx_id xtx_id sfx_id) current_step_fsx) FSXNotFoundById;
  mret (match fsx_best_bid fsx with
        | Some bid =>
            match sfx_enforce_executor (fsx_input fsx) with
            | Some _ => None
            | None => Some bid
            end
        | None => None
        end).

Definition recover_local_ctx_by_sfx_id (sfx_id : Hash) : C LocalXtxCtx :=
  o ← gets (λ w, sfx2xtx_links w !! sfx_id);
  xtx_id ← ok_or o LocalSideEffectExecutionNotApplicable;
  load_xtx xtx_id.

(** ** Events *)

Definition emit_sfx {E} (xtx_id : Hash) (subjected_account : AccountId)
    (side_effects : list SideEffect) : M W E unit :=
  if is_empty side_effects then mret tt
  else
    deposit_event (NewSideEffectsAvailable subjected_account xtx_id side_effects
                     (ids_by_position xtx_id side_effects)) ;;
    deposit_event (XTransactionReceivedForExec xtx_id).

Definition status_event (xtx_id : Hash) (status : CircuitStatus) : option Event :=
  match status with
  | PendingBidding => Some (XTransactionReceivedForExec xtx_id)
  | Ready => Some (XTransactionReadyForExec xtx_id)
  | Finished => Some (XTransactionStepFinishedExec xtx_id)
  | FinishedAllSteps => Some (XTransactionXtxFinishedExecAllSteps xtx_id)
  | Reverted _ => Some (XTransactionXtxRevertedAfterTimeOut xtx_id)
  | Committed => Some (XTransactionXtxCommitted xtx_id)
  | Killed _ => Some (XTransactionXtxDroppedAtBidding xtx_id)
  | _ => None
  end.

Definition emit_opt {E} (e : option Event) : M W E unit :=
  match e with Some e => deposit_event e | None => mret tt end.

Definition emit_status_update {E} (xtx_id : Hash) (maybe_xtx : option XExecSignal)
    (maybe_full_side_effects : option (list (list FullSideEffect))) : M W E unit :=
  match maybe_xtx with
  | None => mret tt
  | Some xtx =>
      emit_opt (status_event xtx_id (xtx_status xtx)) ;;
      if status_leb PendingExecution (xtx_status xtx)
      then emit_opt (SideEffectsConfirmed xtx_id <$> maybe_full_side_effects)
      else mret tt
  end.

(** ** Attestations *)

Definition request_one_attestation {E} (ctx : LocalXtxCtx) (fsx : FullSideEffect) : M W E unit :=
  if bool_decide (fsx_security_lvl fsx = Escrow) then
    let sfx_id := calc_sfx_id fsx (ctx_xtx_id ctx) in
    match xtx_status (ctx_xtx ctx) with
    | Reverted _ =>
        r ← zoom w_ext set_ext
              (run_total (request_sfx_attestation_revert (sfx_target (fsx_input fsx)) sfx_id));
        match r with
        | ROk _ => deposit_event (SuccessfulFSXRevertAttestationRequest sfx_id)
        | RErr _ => deposit_event (UnsuccessfulFSXRevertAttestationRequest sfx_id)
        end
    | FinishedAllSteps | Committed =>
        gmp ← gets (λ w, w_gmp w !! sfx_id);
        r ← zoom w_ext set_ext
              (run_total (request_sfx_attestation_commit (sfx_target (fsx_input fsx)) sfx_id gmp));
        match r with
        | ROk _ => deposit_event (SuccessfulFSXCommitAttestationRequest sfx_id)
        | RErr _ => deposit_event (UnsuccessfulFSXCommitAttestationRequest sfx_id)
        end
    | _ => mret tt
    end
  else mret tt.

Definition request_sfx_attestation {E} (ctx : LocalXtxCtx) : M W E unit :=
  step ← expect (read_current_step_fsx ctx);
  for_each step (request_one_attestation ctx).

(** ** Submission *)

Definition try_request_precompile : Precompile A X := λ current_fsx _ _ _ _, mret (TryRequest, current_fsx).

Definition do_on_extrinsic_trigger (requester : AccountId) (side_effects : list SideEffect)
    (speed_mode : SpeedMode) (preferred_security_level : SecurityLvl)
    (maybe_call_origin : option AccountId) : C LocalXtxCtx :=
  x ← gets w_ext;
  block ← gets w_block;
  let timeout := estimate_adaptive_timeout_on_slowest_target x block
                   (map sfx_target side_effects) speed_mode XtxTimeoutDefault in
  fresh ← setup side_effects requester (Some timeout) preferred_security_level;
  let fresh_xtx := set_ctx_xtx (set_speed_mode speed_mode (ctx_xtx fresh)) fresh in
  let call_origin := default requester maybe_call_origin in
  map_err (λ _, XtxChargeFailedOnEscrowFee)
    (with_am (charge_finality_fee x fresh_xtx call_origin)) ;;
  r ← compile fresh_xtx try_request_precompile
        (λ _ ctx, emit_sfx (ctx_xtx_id ctx) requester side_effects);
  mret r.1.

(** ** Confirmation *)

Definition confirm (xtx_id : Hash) (step_side_effects : list FullSideEffect) (sfx_id : Hash)
    (confirmation : ConfirmedSideEffect) : D (list FullSideEffect) :=
  ensure (negb (is_empty step_side_effects)) (Other "Xtx has an empty single step.") ;;
  x ← gets w_ext;
  ensure (ensure_all_gateways_are_active x (map (λ fsx, sfx_target (fsx_input fsx)) step_side_effects))
    (CircuitModuleError GatewayNotActive) ;;
  found ← ok_or (List.find (has_sfx_id xtx_id sfx_id) step_side_effects)
            (Other "Unable to find matching Side Effect in given Xtx to confirm");
  ensure (is_none (fsx_confirmed found)) (Other "Side Effect already confirmed") ;;
  let step_side_effects :=
    update_first (has_sfx_id xtx_id sfx_id) (set_confirmed (Some confirmation)) step_side_effects in
  let fsx := set_confirmed (Some confirmation) found in
  ctx ← circ (load_xtx xtx_id);
  receipt ← map_err (λ _, Other "SideEffect confirmation of inclusion failed")
              (lift_result (verify_event_inclusion x (sfx_target (fsx_input fsx))
                 (xtx_speed_mode (ctx_xtx ctx)) None (conf_inclusion_data confirmation)));
  sfx_abi ← ok_or (get_sfx_abi x (sfx_target (fsx_input fsx)) (sfx_action (fsx_input fsx)))
              (Other "Unable to find matching Side Effect descriptor in XDNS");
  ensure (negb (receipt_height receipt <? fsx_submission_target_height fsx))
    (Other "SideEffect confirmation of inclusion failed - inclusion height is higher than target") ;;
  payload_codec ← lift_result (get_target_codec x (sfx_target (fsx_input fsx)));
  lift_result (validate_arguments_against_received sfx_abi (sfx_encoded_args (fsx_input fsx))
                 (receipt_message receipt) Scale payload_codec) ;;
  mret step_side_effects.

(** ** Escrow *)

Definition recover_escrow_arguments (fsx : FullSideEffect)
    : option (option AssetId * AccountId * Balance) :=
  let args := sfx_encoded_args (fsx_input fsx) in
  if bool_decide (sfx_action (fsx_input fsx) = act_tran) then
    target_account ← args !! 0%nat ≫= decode_account;
    escrow_amount ← args !! 1%nat ≫= decode_u128;
    Some (None, target_account, escrow_amount)
  else if bool_decide (sfx_action (fsx_input fsx) = act_tass) then
    asset ← args !! 0%nat ≫= decode_u32;
    target_account ← args !! 1%nat ≫= decode_account;
    escrow_amount ← args !! 2%nat ≫= decode_u128;
    Some (Some asset, target_account, escrow_amount)
  else None.

(** The side effect a dynamic destination deal becomes once its executor is
    known; [None] when an argument is missing. *)
Definition swapped_ddd (executor : AccountId) (fsx : FullSideEffect) : option FullSideEffect :=
  ddd_asset ← sfx_encoded_args (fsx_input fsx) !! 0%nat;
  ddd_target_amount ← sfx_encoded_args (fsx_input fsx) !! 1%nat;
  Some (set_input
    (if bool_decide (ddd_asset = le_bytes 4 0)
     then set_action_args act_tran [be_bytes 32 executor; ddd_target_amount] (fsx_input fsx)
     else set_action_args act_tass [ddd_asset; be_bytes 32 executor; ddd_target_amount]
            (fsx_input fsx)) fsx).

Definition override_fsx (xtx_id sfx_id : Hash) (new_fsx : FullSideEffect)
    (steps : list (list FullSideEffect)) : list (list FullSideEffect) :=
  map (map (λ fsx, if has_sfx_id xtx_id sfx_id fsx then new_fsx else fsx)) steps.

(** The side effects of the context, in order; the context itself is not read
    again. *)
Fixpoint hot_swap_all (xtx_id : Hash) (executor : AccountId) (l : list FullSideEffect)
    : D (list (Hash * Hash * AccountId * list Z)) :=
  match l with
  | [] => mret []
  | fsx :: rest =>
      swapped ←
        (if bool_decide (sfx_action (fsx_input fsx) = act_tddd) then
           new_fsx ← ok_or (swapped_ddd executor fsx) (Other "CannotAccessDDDArguments");
           let sfx_id := calc_sfx_id new_fsx xtx_id in
           stored ← gets (λ w, full_side_effects w !! xtx_id);
           match stored with
           | Some steps =>
               modify (λ w, set_fsx (<[xtx_id := override_fsx xtx_id sfx_id new_fsx steps]>
                                       (full_side_effects w)) w) ;;
               mret (map (λ _, (xtx_id, sfx_id, executor, sfx_action (fsx_input new_fsx)))
                       (List.filter (has_sfx_id xtx_id sfx_id) (concat steps)))
           | None => mret []
           end
         else mret []);
      others ← hot_swap_all xtx_id executor rest;
      mret (swapped ++ others)
  end.

Definition perform_ddd_hot_swap (ctx : LocalXtxCtx) (executor : AccountId)
    : D (list (Hash * Hash * AccountId * list Z)) :=
  hot_swap_all (ctx_xtx_id ctx) executor (concat (ctx_full_side_effects ctx)).
End Circuit.
