(* ===== verification/Orders.v ===== *)
(** * Orders

    The requests users and remote chains make, and their translation into side
    effects: [OrderSFX] and the packed EVM calldata of
    [primitives/src/circuit/types.rs], the EVM logs of
    [types/abi/src/evm_ingress_logs.rs].

    - [H160], [U256] and [AccountId32] are words (a [Z]).
    - The packed formats put integers in big-endian order, the SCALE format of
      the logs in little-endian order, accounts and hashes are byte strings in
      both.
    - The packed parsers index the slice without a length check: an index out of
      range traps. *)

From S2P Require Import Prelude Types Status AccountManager World SquareUp Bids Validate.
From S2P Require Import Machine Circuit.

(** ** Orders (OrderSFX) *)

Inductive SFXAction :=
| ActCall (target : TargetId) (destination : AccountId) (value max_cost : Balance) (input : list Z)
| ActTransfer (target : TargetId) (asset : AssetId) (destination : AccountId) (amount : Balance)
| ActDynamicDestinationDeal (target : TargetId) (asset : AssetId) (amount : Balance).

Record OrderSFX := mkOrder {
  sfx_order_action : SFXAction;
  order_max_reward : Balance;
  order_reward_asset : AssetId;
  order_insurance : Balance;
  remote_origin_nonce : option Z;
}.

(** [b"cevm"]. *)
Definition act_cevm : list Z := [99; 101; 118; 109].

(** The action, the target and the encoded arguments of an order. *)
Definition action_args (a : SFXAction) : list Z * TargetId * list (list Z) :=
  match a with
  | ActCall target destination value max_cost input =>
      (act_cevm, target,
       [be_bytes 32 destination; le_bytes 16 value; input; le_bytes 16 max_cost])
  | ActTransfer target asset destination amount =>
      let args := [be_bytes 32 destination; le_bytes 16 amount] in
      if negb (asset =? 0) then (act_tass, target, le_bytes 4 asset :: args)
      else (act_tran, target, args)
  | ActDynamicDestinationDeal target asset amount =>
      (act_tddd, target, [le_bytes 4 asset; le_bytes 16 amount])
  end.

(** [OrderSFX::try_into]: every order has a side effect. *)
Definition order_try_into (o : OrderSFX) : SideEffect :=
  let '(action, target, encoded_args) := action_args (sfx_order_action o) in
  {| sfx_target := target;
     sfx_max_reward := order_max_reward o;
     sfx_insurance := order_insurance o;
     sfx_action := action;
     sfx_encoded_args := encoded_args;
     sfx_signature := [];
     sfx_enforce_executor := None;
     sfx_reward_asset_id :=
       if order_reward_asset o =? 0 then None else Some (order_reward_asset o) |}.

(** ** Packed EVM orders *)

Record VacuumEVMOrder := mkEVMOrder {
  evo_destination : TargetId;
  evo_asset : AssetId;
  evo_amount : Z;
  evo_reward_asset : Z;
  evo_max_reward : Z;
  evo_insurance : Z;
  evo_target_account : AccountId;
}.

Record VacuumEVM3DOrder := mkEVM3DOrder {
  evo3d_order : VacuumEVMOrder;
  evo3d_nonce : Z;
}.

Record VacuumEVMTeleportOrder := mkTeleport {
  tel_gateway_id : TargetId;
  tel_order_proof : list Z;
}.

Record VacuumEVMProof := mkProof {
  circuit_gateway_id : TargetId;
  source_gateway_id : TargetId;
  destination_gateway_id : TargetId;
  order_proof : list Z;
  bid_proof : list Z;
  execution_proof : list Z;
  attestation_proof : list Z;
}.

Section Packed.
Context {S : Type}.
Abbreviation P := (M S DispatchError).

(** [s[from..to]]. *)
Definition slice (from to : nat) (s : list Z) : P (list Z) :=
  expect (if (to <=? length s)%nat then Some (take (to - from) (drop from s)) else None).

Definition from_rlp_encoded_packed (encoded_slice : list Z) : P VacuumEVMOrder :=
  destination ← slice 0 4 encoded_slice;
  asset ← slice 4 8 encoded_slice;
  target_account ← slice 8 40 encoded_slice;
  amount ← slice 40 72 encoded_slice;
  reward_asset ← slice 72 92 encoded_slice;
  insurance ← slice 92 124 encoded_slice;
  max_reward ← slice 124 156 encoded_slice;
  mret {| evo_destination := destination;
          evo_asset := from_be_bytes asset;
          evo_amount := from_be_bytes amount;
          evo_reward_asset := from_be_bytes reward_asset;
          evo_max_reward := from_be_bytes max_reward;
          evo_insurance := from_be_bytes insurance;
          evo_target_account := from_be_bytes target_account |}.

(** The same layout, and the nonce after it. *)
Definition from_rlp_encoded_packed_3d (encoded_slice : list Z) : P VacuumEVM3DOrder :=
  order ← from_rlp_encoded_packed encoded_slice;
  nonce ← slice 156 160 encoded_slice;
  mret {| evo3d_order := order; evo3d_nonce := from_be_bytes nonce |}.

(** One round of the loop over the proofs: a length byte at [index], then the
    proof; the index after it is returned. *)
Definition read_proof (encoded_slice : list Z) (index : nat) : P (list Z * nat) :=
  proof_len ← expect (encoded_slice !! index);
  let from := (index + 1)%nat in
  let to := (from + Z.to_nat proof_len)%nat in
  proof ← slice from to encoded_slice;
  mret (proof, to).

Definition teleport_from_rlp (encoded_slice : list Z) : P VacuumEVMTeleportOrder :=
  ensure (4 <=? length encoded_slice)%nat (Other "Invalid encoded slice") ;;
  gateway_id ← slice 0 4 encoded_slice;
  let encoded_slice := drop 4 encoded_slice in
  order_proof ← read_proof encoded_slice 0;
  mret {| tel_gateway_id := gateway_id; tel_order_proof := order_proof.1 |}.

Definition proof_from_rlp (encoded_slice : list Z) : P VacuumEVMProof :=
  ensure (12 <=? length encoded_slice)%nat (Other "Invalid encoded slice") ;;
  circuit_id ← slice 0 4 encoded_slice;
  source_id ← slice 4 8 encoded_slice;
  destination_id ← slice 8 12 encoded_slice;
  let encoded_slice := drop 12 encoded_slice in
  order ← read_proof encoded_slice 0;
  bid ← read_proof encoded_slice order.2;
  execution ← read_proof encoded_slice bid.2;
  attestation ← read_proof encoded_slice execution.2;
  mret {| circuit_gateway_id := circuit_id; source_gateway_id := source_id;
          destination_gateway_id := destination_id;
          order_proof := order.1; bid_proof := bid.1;
          execution_proof := execution.1; attestation_proof := attestation.1 |}.
End Packed.

(** ** EVM logs *)

Record RemoteEVMOrderLog := mkOrderLog {
  log_sfx_id : Hash;
  log_nonce : Z;
  log_sender : Z;
  log_destination : TargetId;
  log_asset : AssetId;
  log_target_account : AccountId;
  log_amount : Z;
  log_reward_asset : Z;
  log_insurance : Z;
  log_max_reward : Z;
}.

Record RemoteEVMBidLog := mkBidLog { bid_log_sfx_id : Hash; bid_log_winner : Z }.
Record RemoteEVMCommitLog := mkCommitLog { commit_log_sfx_id : Hash; commit_log_executor : Z }.
Record RemoteEVMConfirmationLog := mkConfirmationLog {
  conf_log_sfx_id : Hash;
  conf_log_target : Z;
  conf_log_amount : Z;
  conf_log_asset : Z;
  conf_log_sender : Z;
}.

(** The decoders read from the front of the input ([codec::Input]); they fail
    when it is too short. *)
Abbreviation Reader := (M (list Z) unit).

Definition read_bytes (n : nat) : Reader (list Z) := λ s,
  if (n <=? length s)%nat then Ok (take n s) (drop n s) else Err tt s.
Definition read_word (n : nat) : Reader Z := b ← read_bytes n; mret (from_be_bytes b).
Definition read_uint (n : nat) : Reader Z := b ← read_bytes n; mret (from_le_bytes b).

Definition decode_order_log : Reader RemoteEVMOrderLog :=
  read_bytes 1 ;;
  sfx_id ← read_word 32;
  nonce ← read_uint 4;
  sender ← read_word 20;
  destination ← read_bytes 4;
  asset ← read_uint 4;
  target_account ← read_word 32;
  amount ← read_uint 32;
  reward_asset ← read_word 20;
  insurance ← read_uint 32;
  max_reward ← read_uint 32;
  mret {| log_sfx_id := sfx_id; log_nonce := nonce; log_sender := sender;
          log_destination := destination; log_asset := asset;
          log_target_account := target_account; log_amount := amount;
          log_reward_asset := reward_asset; log_insurance := insurance;
          log_max_reward := max_reward |}.

Definition decode_bid_log : Reader RemoteEVMBidLog :=
  read_bytes 1 ;;
  sfx_id ← read_word 32;
  winner ← read_word 20;
  mret {| bid_log_sfx_id := sfx_id; bid_log_winner := winner |}.

Definition decode_commit_log : Reader RemoteEVMCommitLog :=
  read_bytes 1 ;;
  sfx_id ← read_word 32;
  executor ← read_word 20;
  mret {| commit_log_sfx_id := sfx_id; commit_log_executor := executor |}.

Definition decode_confirmation_log : Reader RemoteEVMConfirmationLog :=
  read_bytes 1 ;;
  sfx_id ← read_word 32;
  target ← read_word 20;
  amount ← read_uint 32;
  asset ← read_word 20;
  sender ← read_word 20;
  mret {| conf_log_sfx_id := sfx_id; conf_log_target := target; conf_log_amount := amount;
          conf_log_asset := asset; conf_log_sender := sender |}.

(** [Decode::decode(&mut &bytes[..])]. *)
Definition decode_with {T} (r : Reader T) (bytes : list Z) : option T :=
  match r bytes with Ok x _ => Some x | _ => None end.

(** ** Reference encodings *)

(** The derived SCALE encoding of an order log. *)
Definition order_log_encode (l : RemoteEVMOrderLog) : list Z :=
  be_bytes 32 (log_sfx_id l) ++ le_bytes 4 (log_nonce l) ++ be_bytes 20 (log_sender l) ++
  log_destination l ++ le_bytes 4 (log_asset l) ++ be_bytes 32 (log_target_account l) ++
  le_bytes 32 (log_amount l) ++ be_bytes 20 (log_reward_asset l) ++
  le_bytes 32 (log_insurance l) ++ le_bytes 32 (log_max_reward l).

(** The fields of a packed order, in the order of the calldata. *)
Definition packed_fields (o : VacuumEVMOrder) : list (list Z) :=
  [evo_destination o; be_bytes 4 (evo_asset o); be_bytes 32 (evo_target_account o);
   be_bytes 32 (evo_amount o); be_bytes 20 (evo_reward_asset o);
   be_bytes 32 (evo_insurance o); be_bytes 32 (evo_max_reward o)].

(** A proof with its length byte. *)
Definition packed_proof (p : list Z) : list Z := Z.of_nat (length p) mod 256 :: p.

Definition packed_proofs (v : VacuumEVMProof) : list Z :=
  circuit_gateway_id v ++ source_gateway_id v ++ destination_gateway_id v ++
  packed_proof (order_proof v) ++ packed_proof (bid_proof v) ++
  packed_proof (execution_proof v) ++ packed_proof (attestation_proof v).

(** A word of [n] bytes. *)
Definition is_word (n : nat) (z : Z) : Prop := 0 ≤ z < 256 ^ Z.of_nat n.

Definition evm_order_ok (o : VacuumEVMOrder) : Prop :=
  length (evo_destination o) = 4%nat ∧ is_word 4 (evo_asset o) ∧
  is_word 32 (evo_target_account o) ∧ is_word 32 (evo_amount o) ∧
  is_word 20 (evo_reward_asset o) ∧ is_word 32 (evo_insurance o) ∧
  is_word 32 (evo_max_reward o).

Definition order_log_ok (l : RemoteEVMOrderLog) : Prop :=
  is_word 32 (log_sfx_id l) ∧ is_word 4 (log_nonce l) ∧ is_word 20 (log_sender l) ∧
  length (log_destination l) = 4%nat ∧ is_word 4 (log_asset l) ∧
  is_word 32 (log_target_account l) ∧ is_word 32 (log_amount l) ∧
  is_word 20 (log_reward_asset l) ∧ is_word 32 (log_insurance l) ∧
  is_word 32 (log_max_reward l).

(** ** Lemmas *)

Lemma word_be_bytes n z : is_word n z → from_be_bytes (be_bytes n z) = z.
Proof. intros Hz. rewrite from_be_bytes_be_bytes. by apply Z.mod_small. Qed.

Lemma word_le_bytes n z : is_word n z → from_le_bytes (le_bytes n z) = z.
Proof. intros Hz. rewrite from_le_bytes_le_bytes. by apply Z.mod_small. Qed.

Section Facts.
Context {S : Type}.

Lemma slice_short from to s (x : S) : (length s < to)%nat → slice from to s x = Panic.
Proof. intros Hl. unfold slice. by rewrite (proj2 (Nat.leb_gt _ _) Hl). Qed.

Lemma slice_app pre f rest from to (x : S) :
  from = length pre → to = (from + length f)%nat → slice from to (pre ++ f ++ rest) x = Ok f x.
Proof.
  intros -> ->. unfold slice. rewrite (proj2 (Nat.leb_le _ _)) by (rewrite !length_app; lia).
  rewrite drop_app_length. replace (_ + _ - _)%nat with (length f) by lia.
  by rewrite take_app_length.
Qed.

(** A field of a concatenation. *)
Lemma slice_field (fs : list (list Z)) k f rest from to (x : S) :
  fs !! k = Some f → from = length (concat (take k fs)) → to = (from + length f)%nat →
  slice from to (concat fs ++ rest) x = Ok f x.
Proof.
  intros Hk Hfrom Hto. rewrite <- (take_drop_middle fs k f Hk) at 1.
  rewrite concat_app. cbn [concat]. rewrite <- !app_assoc. by apply slice_app.
Qed.

Lemma read_proof_app s pre p rest (x : S) :
  s = pre ++ packed_proof p ++ rest → (length p < 256)%nat →
  read_proof s (length pre) x = Ok (p, length (pre ++ packed_proof p)) x.
Proof.
  intros -> Hp. unfold read_proof, packed_proof. rewrite Z.mod_small by lia.
  rewrite lookup_app_r by lia. rewrite Nat.sub_diag. cbn [lookup list_lookup app].
  unfold mbind, M_bind, expect, mret, M_ret. rewrite Nat2Z.id.
  replace (pre ++ Z.of_nat (length p) :: p ++ rest)
    with ((pre ++ [Z.of_nat (length p)]) ++ p ++ rest) by by rewrite <- app_assoc.
  rewrite slice_app by (rewrite ?length_app; cbn; lia).
  by rewrite length_app; cbn [length]; do 2 f_equal; lia.
Qed.

(** The packed parsers succeed or trap. *)
Definition no_err {T} (m : M S DispatchError T) : Prop := ∀ x e x', m x ≠ Err e x'.

Lemma no_err_bind {T U} (m : M S DispatchError T) (f : T → M S DispatchError U) :
  no_err m → (∀ a, no_err (f a)) → no_err (m ≫= f).
Proof.
  intros Hm Hf x e x'. unfold mbind, M_bind. specialize (Hm x).
  destruct (m x) as [a x1|e1 x1|]; [apply Hf|by destruct (Hm e1 x1)|done].
Qed.

Lemma no_err_ret {T} (a : T) : no_err (mret a).
Proof. done. Qed.

Lemma no_err_slice from to s : no_err (slice from to s).
Proof. intros x e x'. unfold slice. by destruct (_ <=? _)%nat. Qed.

Lemma no_err_packed s : no_err (from_rlp_encoded_packed s).
Proof.
  unfold from_rlp_encoded_packed.
  repeat (apply no_err_bind; [apply no_err_slice|intros ?]). apply no_err_ret.
Qed.

Lemma bind_Panic {T U} (m : M S DispatchError T) (f : T → M S DispatchError U) x :
  no_err m → (∀ a x', f a x' = Panic) → (m ≫= f) x = Panic.
Proof.
  intros Hm Hf. unfold mbind, M_bind. specialize (Hm x).
  destruct (m x) as [a x1|e1 x1|]; [apply Hf|by destruct (Hm e1 x1)|done].
Qed.
End Facts.

Lemma read_bytes_app n l rest :
  length l = n → read_bytes n (l ++ rest) = Ok l rest.
Proof.
  intros <-. unfold read_bytes. rewrite (proj2 (Nat.leb_le _ _)) by (rewrite length_app; lia).
  by rewrite take_app_length, drop_app_length.
Qed.

Lemma read_word_app n z rest :
  is_word n z → read_word n (be_bytes n z ++ rest) = Ok z rest.
Proof.
  intros Hz. unfold read_word, mbind, M_bind. rewrite read_bytes_app by apply length_be_bytes.
  by rewrite word_be_bytes.
Qed.

Lemma read_uint_app n z rest :
  is_word n z → read_uint n (le_bytes n z ++ rest) = Ok z rest.
Proof.
  intros Hz. unfold read_uint, mbind, M_bind. rewrite read_bytes_app by apply length_le_bytes.
  by rewrite word_le_bytes.
Qed.

(** A fixed-width value is a prefix of its encoding. *)
Lemma decode_account_be z : is_word 32 z → decode_account (be_bytes 32 z) = Some z.
Proof.
  intros Hz. unfold decode_account, decode_fixed. rewrite length_be_bytes. cbn [Nat.leb].
  rewrite take_ge by (rewrite length_be_bytes; lia). simpl. by rewrite word_be_bytes.
Qed.

Lemma decode_u128_le z : is_word 16 z → decode_u128 (le_bytes 16 z) = Some z.
Proof.
  intros Hz. unfold decode_u128, decode_fixed. rewrite length_le_bytes. cbn [Nat.leb].
  rewrite take_ge by (rewrite length_le_bytes; lia). unfold fmap, option_fmap, option_map.
  by rewrite word_le_bytes.
Qed.

Lemma decode_u32_le z : is_word 4 z → decode_u32 (le_bytes 4 z) = Some z.
Proof.
  intros Hz. unfold decode_u32, decode_fixed. rewrite length_le_bytes. cbn [Nat.leb].
  rewrite take_ge by (rewrite length_le_bytes; lia). unfold fmap, option_fmap, option_map.
  by rewrite word_le_bytes.
Qed.

(** The asset the Circuit reads from an asset id: 0 is the native one. *)
Definition escrow_asset (asset : AssetId) : option AssetId :=
  if asset =? 0 then None else Some asset.

(** What the Circuit reads from a transfer of an asset. *)
Lemma recover_transfer fsx target asset account amount :
  is_word 4 asset → is_word 32 account → is_word 16 amount →
  (sfx_action (fsx_input fsx), sfx_target (fsx_input fsx), sfx_encoded_args (fsx_input fsx)) =
    action_args (ActTransfer target asset account amount) →
  recover_escrow_arguments fsx = Some (escrow_asset asset, account, amount).
Proof.
  intros Has Hacc Ham Heq. unfold recover_escrow_arguments, escrow_asset. unfold action_args in Heq.
  destruct (asset =? 0); cbn [negb] in Heq; injection Heq as -> _ ->.
  - rewrite bool_decide_true by done. cbn [lookup list_lookup]. simpl (Some _ ≫= _).
    rewrite decode_account_be by done. cbn [mbind option_bind]. by rewrite decode_u128_le.
  - rewrite bool_decide_false by done. rewrite bool_decide_true by done.
    cbn [lookup list_lookup mbind option_bind]. rewrite decode_u32_le by done.
    rewrite decode_account_be by done. by rewrite decode_u128_le.
Qed.

(** The deal an executor takes over becomes a transfer to the executor. *)
Lemma swapped_ddd_transfer executor fsx target asset amount :
  is_word 4 asset →
  sfx_encoded_args (fsx_input fsx) = [le_bytes 4 asset; le_bytes 16 amount] →
  sfx_target (fsx_input fsx) = target →
  ∃ new, swapped_ddd executor fsx = Some new ∧
    (sfx_action (fsx_input new), sfx_target (fsx_input new), sfx_encoded_args (fsx_input new)) =
      action_args (ActTransfer target asset executor amount).
Proof.
  intros Has Hargs Ht. unfold swapped_ddd. rewrite Hargs. cbn [lookup list_lookup mbind option_bind].
  eexists. split; [done|]. unfold action_args. case_bool_decide as Heq; cbn.
  - apply (le_bytes_inj 4) in Heq; [|done|by vm_compute]. subst asset. by rewrite Ht.
  - rewrite (proj2 (Z.eqb_neq asset 0)) by (intros ->; done). cbn. by rewrite Ht.
Qed.

(** Read field [k] of a packed order. *)
Ltac packed_field o Hd k :=
  rewrite (slice_field (packed_fields o) k _ _ _ _ _ eq_refl)
    by (cbn [packed_fields take concat]; rewrite ?length_app, ?length_be_bytes, ?Hd; reflexivity).

(** What a decoder needs: it reads [n] bytes, or fails when there are less. *)
Definition reads {T} (n : nat) (r : Reader T) : Prop :=
  (∀ s x s', r s = Ok x s' → (n ≤ length s)%nat ∧ length s = (n + length s')%nat) ∧ (∀ s, r s ≠ Panic).

Lemma reads_bytes n : reads n (read_bytes n).
Proof.
  split; intros s; unfold read_bytes; destruct (Nat.leb_spec n (length s)); try done.
  intros x s' [= <- <-]. rewrite length_drop. lia.
Qed.

Lemma reads_bind {T U} n m (r : Reader T) (f : T → Reader U) :
  reads n r → (∀ x, reads m (f x)) → reads (n + m) (r ≫= f).
Proof.
  intros [Hr Hp] Hf. split; intros s.
  - intros y s' (x & s1 & H1 & H2)%bind_Ok_inv. apply Hr in H1. apply Hf in H2. lia.
  - unfold mbind, M_bind. specialize (Hp s). destruct (r s); [apply Hf|done|done].
Qed.

Lemma reads_ret {T} (x : T) : reads 0 (mret x).
Proof. split; [|done]. intros s y s' [= _ ->]. lia. Qed.

Lemma reads_word n : reads n (read_word n).
Proof.
  rewrite <- (Nat.add_0_r n) at 1. unfold read_word.
  apply reads_bind; [apply reads_bytes|intros ?; apply reads_ret].
Qed.

Lemma reads_uint n : reads n (read_uint n).
Proof.
  rewrite <- (Nat.add_0_r n) at 1. unfold read_uint.
  apply reads_bind; [apply reads_bytes|intros ?; apply reads_ret].
Qed.

Lemma reads_order_log : reads 213 decode_order_log.
Proof.
  change 213%nat with (1 + (32 + (4 + (20 + (4 + (4 + (32 + (32 + (20 + (32 + (32 + 0)))))))))))%nat.
  unfold decode_order_log.
  repeat (apply reads_bind; [solve [apply reads_bytes|apply reads_word|apply reads_uint]|intros ?]).
  apply reads_ret.
Qed.

(** An order of less than 156 bytes traps; 156 bytes are enough. *)
Lemma packed_short {S} s (x : S) : (length s < 156)%nat → from_rlp_encoded_packed s x = Panic.
Proof.
  intros Hl. unfold from_rlp_encoded_packed.
  do 6 (apply bind_Panic; [apply no_err_slice|intros ??]).
  unfold mbind, M_bind. by rewrite slice_short.
Qed.

Lemma packed_long s :
  (156 ≤ length s)%nat → ∃ o, ∀ S (x : S), from_rlp_encoded_packed s x = Ok o x.
Proof.
  intros Hl. eexists. intros S x. unfold from_rlp_encoded_packed, slice.
  repeat (rewrite (proj2 (Nat.leb_le _ _)) by lia; cbn [expect]). reflexivity.
Qed.

(** ** Properties *)

(** A packed EVM order or 3D order is read back as it was written,
    whatever follows it in the calldata. *)
Theorem packed_order_roundtrip {S} (o : VacuumEVM3DOrder) rest (x : S) :
  evm_order_ok (evo3d_order o) → is_word 4 (evo3d_nonce o) →
  from_rlp_encoded_packed (concat (packed_fields (evo3d_order o)) ++ rest) x =
    Ok (evo3d_order o) x ∧
  from_rlp_encoded_packed_3d
    (concat (packed_fields (evo3d_order o)) ++ be_bytes 4 (evo3d_nonce o) ++ rest) x = Ok o x.
Proof.
  destruct o as [o n]. cbn [evo3d_order evo3d_nonce]. intros Ho Hn.
  assert (length (concat (packed_fields o)) = 156%nat) as Hlen.
  { destruct Ho as [Hd _]. unfold packed_fields. cbn [concat].
    rewrite !length_app, !length_be_bytes, Hd. done. }
  assert (∀ rest (x : S), from_rlp_encoded_packed (concat (packed_fields o) ++ rest) x = Ok o x)
    as Hpacked.
  { clear rest x. intros rest x. destruct Ho as (Hd & Has & Hta & Ham & Hra & Hin & Hmr).
    unfold from_rlp_encoded_packed, mbind, M_bind.
    packed_field o Hd 0%nat. packed_field o Hd 1%nat. packed_field o Hd 2%nat. packed_field o Hd 3%nat.
    packed_field o Hd 4%nat. packed_field o Hd 5%nat. packed_field o Hd 6%nat.
    unfold mret, M_ret. rewrite !word_be_bytes by done. by destruct o. }
  split; [apply Hpacked|]. unfold from_rlp_encoded_packed_3d, mbind, M_bind.
  rewrite Hpacked, slice_app by (rewrite ?length_be_bytes; done).
  unfold mret, M_ret. by rewrite word_be_bytes.
Qed.

(** The packed parsers trap on calldata that is too short: an order of less
    than 156 bytes, a 3D order of less than 160, and a proof whose length byte
    exceeds what is left; only a header of less than 12 bytes is an error. *)
Theorem short_calldata_traps {S} (x : S) :
  (∀ s, (length s < 156)%nat → from_rlp_encoded_packed s x = Panic) ∧
  (∀ s, (length s < 160)%nat → from_rlp_encoded_packed_3d s x = Panic) ∧
  (∀ s, (length s < 12)%nat → proof_from_rlp s x = Err (Other "Invalid encoded slice") x) ∧
  (∀ header s len, length header = 12%nat → (length s < Z.to_nat len)%nat →
     proof_from_rlp (header ++ len :: s) x = Panic).
Proof.
  split_and!.
  - intros s Hl. by apply packed_short.
  - intros s Hl. unfold from_rlp_encoded_packed_3d. apply bind_Panic; [apply no_err_packed|].
    intros o x'. unfold mbind, M_bind. by rewrite slice_short.
  - intros s Hl. unfold proof_from_rlp, ensure. by rewrite (proj2 (Nat.leb_gt _ _) Hl).
  - intros header s len Hh Hl. unfold proof_from_rlp, ensure.
    rewrite (proj2 (Nat.leb_le _ _)) by (rewrite length_app, Hh; cbn; lia).
    apply bind_Panic; [apply no_err_ret|intros [] ?].
    do 3 (apply bind_Panic; [apply no_err_slice|intros ??]).
    rewrite <- Hh, drop_app_length.
    unfold mbind, M_bind, read_proof. cbn [lookup list_lookup]. unfold mbind, M_bind, expect, mret, M_ret.
    by rewrite slice_short by (cbn; lia).
Qed.

(** A fault proof is read back as it was written when every part is at
    most 255 bytes long. *)
Theorem packed_proof_roundtrip {S} (v : VacuumEVMProof) rest (x : S) :
  length (circuit_gateway_id v) = 4%nat → length (source_gateway_id v) = 4%nat →
  length (destination_gateway_id v) = 4%nat →
  Forall (λ p, (length p < 256)%nat)
    [order_proof v; bid_proof v; execution_proof v; attestation_proof v] →
  proof_from_rlp (packed_proofs v ++ rest) x = Ok v x.
Proof.
  intros Hc Hs Hd Hp. rewrite !Forall_cons in Hp. destruct Hp as (Ho & Hb & He & Ha & _).
  set (tail := packed_proof (order_proof v) ++ packed_proof (bid_proof v) ++
    packed_proof (execution_proof v) ++ packed_proof (attestation_proof v) ++ rest).
  assert (packed_proofs v ++ rest =
    concat [circuit_gateway_id v; source_gateway_id v; destination_gateway_id v] ++ tail) as ->.
  { unfold packed_proofs, tail. cbn [concat]. by rewrite <- !app_assoc. }
  set (hd := [circuit_gateway_id v; source_gateway_id v; destination_gateway_id v]).
  assert (length (concat hd) = 12%nat) as Hlen.
  { unfold hd. cbn [concat]. by rewrite !length_app, Hc, Hs, Hd. }
  unfold proof_from_rlp, ensure.
  rewrite (proj2 (Nat.leb_le _ _)) by (rewrite length_app, Hlen; lia).
  erewrite bind_Ok; [|reflexivity].
  assert (∀ k f from to, hd !! k = Some f → from = length (concat (take k hd)) →
    to = (from + length f)%nat → slice from to (concat hd ++ tail) x = Ok f x) as Hfield.
  { intros k f from to. apply slice_field. }
  rewrite (bind_Ok _ _ _ _ _ (Hfield 0%nat _ 0%nat 4%nat eq_refl eq_refl (eq_sym Hc))).
  rewrite (bind_Ok _ _ _ _ _ (Hfield 1%nat (source_gateway_id v) 4%nat 8%nat eq_refl
    ltac:(cbn [take concat hd]; by rewrite app_nil_r, Hc) ltac:(by rewrite Hs))).
  rewrite (bind_Ok _ _ _ _ _ (Hfield 2%nat (destination_gateway_id v) 8%nat 12%nat eq_refl
    ltac:(cbn [take concat hd]; by rewrite app_nil_r, length_app, Hc, Hs) ltac:(by rewrite Hd))).
  rewrite <- Hlen, drop_app_length. change 0%nat with (length (@nil Z)).
  erewrite bind_Ok; [|by eapply read_proof_app]. cbn [fst snd].
  erewrite bind_Ok; [|by eapply read_proof_app; [unfold tail; rewrite <- ?app_assoc|]]. cbn [fst snd].
  erewrite bind_Ok; [|by eapply read_proof_app; [unfold tail; rewrite <- ?app_assoc|]]. cbn [fst snd].
  erewrite bind_Ok; [|by eapply read_proof_app; [unfold tail; rewrite <- ?app_assoc|]]. cbn [fst snd].
  unfold mret, M_ret. by destruct v.
Qed.

(** The decoder of remote order logs inverts the SCALE encoding after the
    byte it skips, and fails on any strict prefix. *)
Theorem order_log_roundtrip (l : RemoteEVMOrderLog) (b : Z) :
  order_log_ok l →
  decode_with decode_order_log (b :: order_log_encode l) = Some l ∧
  ∀ k, (k < length (b :: order_log_encode l))%nat →
    decode_with decode_order_log (take k (b :: order_log_encode l)) = None.
Proof.
  intros (Hid & Hn & Hs & Hd & Has & Hta & Ham & Hra & Hin & Hmr). split.
  - unfold decode_with, decode_order_log, order_log_encode.
    erewrite bind_Ok; [|by apply (read_bytes_app 1 [b])].
    do 3 (erewrite bind_Ok; [|by first [apply read_word_app|apply read_uint_app]]).
    erewrite bind_Ok; [|by apply read_bytes_app].
    do 5 (erewrite bind_Ok; [|by first [apply read_word_app|apply read_uint_app]]).
    rewrite <- (app_nil_r (le_bytes 32 (log_max_reward l))).
    erewrite bind_Ok; [|by apply read_uint_app]. by destruct l.
  - intros k Hk. unfold decode_with. destruct (decode_order_log _) as [l' s'| |] eqn:Hdec; try done.
    apply reads_order_log in Hdec as [Hlen _]. rewrite length_take in Hlen. revert Hk Hlen.
    unfold order_log_encode. cbn [length]. rewrite !length_app, !length_be_bytes, !length_le_bytes, Hd.
    lia.
Qed.

(** The escrow arguments the Circuit reads from an order are those the
    order was made with: the asset, the account and the amount of a transfer,
    and for a dynamic destination deal the account of the executor that took it
    over. *)
Theorem order_escrow_arguments o fsx target asset account amount :
  fsx_input fsx = order_try_into o →
  is_word 4 asset → is_word 32 account → is_word 16 amount →
  (sfx_order_action o = ActTransfer target asset account amount →
   recover_escrow_arguments fsx = Some (escrow_asset asset, account, amount)) ∧
  (sfx_order_action o = ActDynamicDestinationDeal target asset amount →
   recover_escrow_arguments fsx = None ∧
   ∃ new, swapped_ddd account fsx = Some new ∧
     recover_escrow_arguments new = Some (escrow_asset asset, account, amount)).
Proof.
  intros Hin Has Hacc Ham. split; intros Ho.
  - apply (recover_transfer fsx target); try done. rewrite Hin. unfold order_try_into. rewrite Ho.
    by destruct (action_args _) as [[??]?].
  - assert (sfx_encoded_args (fsx_input fsx) = [le_bytes 4 asset; le_bytes 16 amount] ∧
      sfx_target (fsx_input fsx) = target ∧ sfx_action (fsx_input fsx) = act_tddd) as (Hargs & Ht & Hact).
    { rewrite Hin. unfold order_try_into. by rewrite Ho. }
    split; [unfold recover_escrow_arguments; by rewrite Hact|].
    destruct (swapped_ddd_transfer account fsx target asset amount) as (new & Hnew & Heq); try done.
    exists new. split; [done|]. by apply (recover_transfer new target).
Qed.

(** ** Samples *)

Module OrderSamples.
Definition order_3d : VacuumEVM3DOrder :=
  mkEVM3DOrder (mkEVMOrder [1; 2; 3; 4] 7 1000 (2 ^ 150 + 5) 20 3 (2 ^ 250 + 9)) 42.

Lemma packed_order_roundtrip_witness :
  from_rlp_encoded_packed (concat (packed_fields (evo3d_order order_3d)) ++ [9]) 0 =
    Ok (evo3d_order order_3d) 0 ∧
  from_rlp_encoded_packed_3d
    (concat (packed_fields (evo3d_order order_3d)) ++ be_bytes 4 42 ++ [9]) 0 = Ok order_3d 0.
Proof.
  apply (packed_order_roundtrip order_3d [9] 0); unfold evm_order_ok, is_word; cbn; lia.
Defined.

Definition sample_proof : VacuumEVMProof :=
  mkProof [3; 3; 3; 3] [1; 1; 1; 1] [2; 2; 2; 2] [10; 11] [] [12] [13; 14; 15].

Lemma packed_proof_roundtrip_witness :
  proof_from_rlp (packed_proofs sample_proof ++ [0]) 0 = Ok sample_proof 0.
Proof.
  apply (packed_proof_roundtrip sample_proof [0] 0); try reflexivity.
  repeat constructor; cbn; lia.
Defined.

Definition order_log : RemoteEVMOrderLog :=
  mkOrderLog 77 5 (2 ^ 140) [2; 2; 2; 2] 1 (2 ^ 240) 1000 (2 ^ 159) 10 20.

Lemma order_log_roundtrip_witness :
  decode_with decode_order_log (0 :: order_log_encode order_log) = Some order_log ∧
  decode_with decode_order_log (take 212 (0 :: order_log_encode order_log)) = None.
Proof.
  assert (order_log_ok order_log) as Hok by (unfold order_log_ok, is_word; cbn; lia).
  split; [apply (order_log_roundtrip order_log 0 Hok)|].
  apply (order_log_roundtrip order_log 0 Hok). vm_compute. lia.
Defined.

Definition deal : OrderSFX :=
  mkOrder (ActDynamicDestinationDeal [2; 2; 2; 2] 4 500) 500 4 1 (Some 8).
Definition deal_fsx : FullSideEffect := mkFSX (order_try_into deal) None Optimistic 0 None 0.

Lemma order_escrow_arguments_witness :
  recover_escrow_arguments deal_fsx = None ∧
  ∃ new, swapped_ddd 99 deal_fsx = Some new ∧
    recover_escrow_arguments new = Some (Some 4, 99, 500).
Proof.
  apply (order_escrow_arguments deal deal_fsx [2; 2; 2; 2] 4 99 500); unfold is_word;
    try reflexivity; cbn; lia.
Defined.
End OrderSamples.
