(* ===== verification/Queues.v ===== *)
(** * The queues of the Circuit

    The part of [pallets/circuit/src/lib.rs] run by the block hooks: the bidding
    timeouts and finalized transactions ([process_xtx_tick_queue]), the adaptive
    and emergency timeouts, the dead letter queue and the signal queue.

    A hook cannot fail: a function here returns or traps.  Weights are
    reference times ([u64]).

    The source iterates lazily over a storage map while it processes the
    entries.  Processing an entry removes at most the key of that entry from
    the map and inserts none, so the keys seen are those of the map before the
    loop, which is what [storage_iter] lists. *)

From S2P Require Import Prelude Types Status AccountManager World SquareUp Bids Validate.
From S2P Require Import Machine Circuit.

(** [BoundedVec::swap_remove(0)]: the last element takes the place of the
    first. *)
Definition swap_remove_first {T} (x : T) (rest : list T) : list T :=
  match last rest with
  | None => []
  | Some l => l :: removelast rest
  end.

(** [slide(0, len)]: the first element becomes the last. *)
Definition slide_first {T} (l : list T) : list T :=
  match l with [] => [] | x :: rest => rest ++ [x] end.

(** [if let Some(v) = a.checked_add(b) { a = v }] on [u64]. *)
Definition bump_weight (a b : Z) : Z := default a (checked_add u64_max a b).

Section Queues.
Context {A X : Type} `{Hashing} `{AccountManager A} `{CircuitConfig A X}.
Context {E : Type}.
Abbreviation W := (World A X).
Abbreviation Hook := (M (World A X) E).
Implicit Types w : W.

(** ** Ticks *)

Definition tick_one_precompile : Precompile A X := λ current_fsx _ _ status _,
  mret (match status with
        | InBidding =>
            if forallb (λ fsx, is_some (fsx_best_bid fsx)) current_fsx
            then ForceUpdateStatus Ready
            else TryKill Timeout
        | _ => TryKill Timeout
        end, current_fsx).

Definition emit_update : PostUpdate A X := λ _ ctx,
  emit_status_update (ctx_xtx_id ctx) (Some (ctx_xtx ctx)) None.

Definition process_tick_one (xtx_id : Hash) : Hook Z :=
  ctx ← expect_ok (load_xtx xtx_id);
  compile_infallible ctx tick_one_precompile emit_update ;;
  mret (db_reads_writes 1 4).

Definition tick_two_precompile : Precompile A X := λ current_fsx _ _ status _,
  mret (match status with
        | FinishedAllSteps => ForceUpdateStatus Committed
        | _ => TryKill Timeout
        end, current_fsx).

Definition process_tick_two (xtx_id : Hash) : Hook Z :=
  loaded ← attempt (load_xtx xtx_id);
  match loaded with
  | RErr _ => mret (db_reads_writes 1 0)
  | ROk ctx =>
      compile_infallible ctx tick_two_precompile emit_update ;;
      mret (db_reads_writes 1 4)
  end.

(** Process the entries while the weight spent is within the bound. *)
Fixpoint process_while (f : Hash → Hook Z) (max_weight : Z) (l : list Hash) (current_weight : Z) : Hook Z :=
  match l with
  | [] => mret current_weight
  | xtx_id :: rest =>
      if current_weight <=? max_weight then
        weight ← f xtx_id;
        process_while f max_weight rest (add_weight current_weight weight)
      else process_while f max_weight rest current_weight
  end.

Definition bids_due (n : BlockNumber) w : list Hash :=
  map fst (List.filter (λ kv, kv.2 <=? n) (storage_iter (pending_xtx_bids_timeouts w))).

Definition process_xtx_tick_queue (n kill_interval : BlockNumber) (max_allowed_weight : Z) : Hook Z :=
  if kill_interval =? 0 then mret 0
  else if n mod kill_interval =? 0 then
    due ← gets (bids_due n);
    current_weight ← process_while process_tick_one max_allowed_weight due 0;
    finalized ← gets (λ w, map fst (storage_iter (finalized_xtx w)));
    process_while process_tick_two max_allowed_weight finalized current_weight
  else mret 0.

(** ** The dead letter queue *)

Definition get_adaptive_timeout (xtx_id : Hash) (maybe_speed_mode : option SpeedMode) w
    : AdaptiveTimeout :=
  let all_targets := get_all_xtx_targets xtx_id w in
  estimate_adaptive_timeout_on_slowest_target (w_ext w) (w_block w) all_targets
    (default Finalized maybe_speed_mode) XtxTimeoutDefault.

(** [XExecSignals::mutate] on an entry that may be missing. *)
Definition mutate_xtx (f : XExecSignal → XExecSignal) (xtx_id : Hash) w : W :=
  set_signals (alter f xtx_id (x_exec_signals w)) w.

Definition add_xtx_to_dlq (xtx_id : Hash) (targets : list TargetId) (speed_mode : SpeedMode)
    : Hook (Z * bool) :=
  present ← gets (λ w, is_some (dlq_entries w !! xtx_id));
  if (present : bool) then mret (db_reads 1, false)
  else
    modify (λ w, set_dlq_entries (<[xtx_id := (w_block w, targets, speed_mode)]> (dlq_entries w)) w) ;;
    modify (λ w, mutate_xtx (λ xtx, set_timeouts_at
                   (set_dlq (Some (w_block w)) (xtx_timeouts_at xtx)) xtx) xtx_id w) ;;
    modify (drop_timeout xtx_id) ;;
    mret (db_reads_writes 2 3, true).

Definition remove_xtx_from_dlq (xtx_id : Hash) : Hook (Z * bool) :=
  entry ← gets (λ w, dlq_entries w !! xtx_id);
  match entry with
  | None => mret (db_reads 1, false)
  | Some dlq_entry =>
      modify (drop_dlq xtx_id) ;;
      adaptive_timeout ← gets (get_adaptive_timeout xtx_id (Some dlq_entry.2));
      modify (λ w, set_timeouts (<[xtx_id := adaptive_timeout]> (pending_xtx_timeouts w)) w) ;;
      modify (mutate_xtx (set_timeouts_at adaptive_timeout) xtx_id) ;;
      mret (db_reads_writes 2 3, true)
  end.

Definition process_dlq_entry (entry : Hash * (BlockNumber * list TargetId * SpeedMode)) : Hook Z :=
  x ← gets w_ext;
  if ensure_all_gateways_are_active x entry.2.1.2 then
    r ← remove_xtx_from_dlq entry.1;
    mret r.1
  else mret (db_reads 1).

Fixpoint process_dlq_entries (l : list (Hash * (BlockNumber * list TargetId * SpeedMode)))
    : Hook (list Z) :=
  match l with
  | [] => mret []
  | entry :: rest =>
      weight ← process_dlq_entry entry;
      weights ← process_dlq_entries rest;
      mret (weight :: weights)
  end.

Definition process_dlq (_n : BlockNumber) : Hook Z :=
  entries ← gets (λ w, storage_iter (dlq_entries w));
  weights ← process_dlq_entries entries;
  mret (match weights with
        | [] => db_reads 1
        | weight :: rest => fold_left add_weight rest weight
        end).

(** ** Timeouts *)

Definition revert_post_update (xtx_id : Hash) : PostUpdate A X := λ _ ctx,
  request_sfx_attestation ctx ;;
  deposit_event (XTransactionXtxRevertedAfterTimeOut xtx_id).

Definition process_revert_one (xtx_id : Hash) : Hook (Z * bool) :=
  all_targets ← gets (get_all_xtx_targets xtx_id);
  x ← gets w_ext;
  if negb (ensure_all_gateways_are_active x all_targets)
  then add_xtx_to_dlq xtx_id all_targets Finalized
  else
    success ← revert xtx_id Timeout (revert_post_update xtx_id);
    mret (db_reads_writes 1 2, success).

Definition revert_one_weight (xtx_id : Hash) : Hook Z :=
  r ← process_revert_one xtx_id; mret r.1.

Fixpoint revert_all (l : list Hash) (current_weight : Z) : Hook Z :=
  match l with
  | [] => mret current_weight
  | xtx_id :: rest =>
      weight ← revert_one_weight xtx_id;
      revert_all rest (add_weight current_weight weight)
  end.

Definition adaptive_due (n : BlockNumber) w : list Hash :=
  map fst (List.filter (λ kv, estimated_height_here kv.2 <? n)
             (storage_iter (pending_xtx_timeouts w))).

Definition process_adaptive_xtx_timeout_queue (n : BlockNumber) : Hook Z :=
  due ← gets (adaptive_due n);
  revert_all due 0.

Definition emergency_due (n : BlockNumber) w : list Hash :=
  map fst (List.filter (λ kv, emergency_timeout_here kv.2 <=? n)
             (storage_iter (pending_xtx_timeouts w))).

Definition process_emergency_revert_xtx_queue (n revert_interval : BlockNumber)
    (max_allowed_weight : Z) : Hook Z :=
  if revert_interval =? 0 then mret 0
  else if n mod revert_interval =? 0 then
    due ← gets (emergency_due n);
    process_while revert_one_weight max_allowed_weight due 0
  else mret 0.

(** ** The signal queue *)

(** The loop of [process_signal_queue]; [fuel] is the length of the queue,
    which every iteration shortens.  The weight the caller's [post_update] adds
    is added after [kill], which calls it whenever it returns. *)
Fixpoint process_signals (fuel : nat) (queue : list (AccountId * ExecutionSignal))
    (processed_weight max_weight : Z) : Hook (list (AccountId * ExecutionSignal) * Z) :=
  match fuel, queue with
  | S fuel, (requester, signal) :: rest =>
      if processed_weight <? max_weight then
        let queue := swap_remove_first (requester, signal) rest in
        let processed_weight := bump_weight processed_weight (db_reads 4) in
        loaded ← attempt (load_xtx (execution_id signal));
        match loaded with
        | ROk ctx =>
            kill (ctx_xtx_id ctx) IntentionalKill infallible_no_post_updates ;;
            process_signals fuel queue (bump_weight processed_weight (db_reads_writes 2 1))
              max_weight
        | RErr XtxDoesNotExist => process_signals fuel queue processed_weight max_weight
        | RErr _ => process_signals fuel (slide_first queue) processed_weight max_weight
        end
      else mret (queue, processed_weight)
  | _, _ => mret (queue, processed_weight)
  end.

Definition process_signal_queue (_n _interval : BlockNumber) (max_allowed_weight : Z) : Hook Z :=
  queue ← gets signal_queue;
  if is_empty queue then mret 0
  else
    r ← process_signals (length queue) queue 0 max_allowed_weight;
    modify (set_signal_queue r.1) ;;
    mret (bump_weight r.2 (db_reads_writes 1 1)).
End Queues.
