(* ===== verification/Calls.v ===== *)
(** * The dispatchables of the Circuit

    [#[pallet::call]] of [pallets/circuit/src/lib.rs], with the traits
    [OnLocalTrigger] and [CircuitSubmitAPI] the pallet implements.  A
    dispatchable that fails is rolled back ([transactional]). *)

From S2P Require Import Prelude Types Status AccountManager World SquareUp Bids Validate.
From S2P Require Import Machine Circuit Queues.

Section Calls.
Context {A X : Type} `{Hashing} `{AccountManager A} `{CircuitConfig A X}.
Abbreviation W := (World A X).
Abbreviation C := (M (World A X) CircuitError).
Abbreviation D := (M (World A X) DispatchError).
Implicit Types w : W.

(** ** OnLocalTrigger *)

(** The context of a local trigger: a given transaction, or a fresh one without
    side effects. *)
Definition local_ctx_of (requester : AccountId) (maybe_id : option Hash) : C LocalXtxCtx :=
  match maybe_id with
  | Some xtx_id => load_xtx xtx_id
  | None =>
      ctx ← setup [] requester None Optimistic;
      r ← compile ctx no_mangle no_post_updates;
      mret r.1
  end.

Definition load_local_state (origin : RawOrigin) (maybe_id : option Hash)
    : D LocalStateExecutionView :=
  requester ← authorize origin ContractAuthor;
  ctx ← circ (local_ctx_of requester maybe_id);
  mret {| view_xtx_id := ctx_xtx_id ctx;
          view_local_state := ctx_local_state ctx;
          view_hardened_side_effects :=
            map (map fsx_try_into_hardened) (ctx_full_side_effects ctx);
          view_steps_cnt := xtx_steps_cnt (ctx_xtx ctx) |}.

Definition exec_in_xtx_ctx (_xtx_id : Hash) (_local_state : gmap Z (list Z))
    (_full_side_effects : list FullSideEffect) (_steps_cnt : Z * Z)
    : result CircuitError (list FullSideEffect) := ROk [].

Definition local_precompile (xtx_id : Hash) : Precompile A X :=
  λ current_fsx local_state steps_cnt status _,
    match exec_in_xtx_ctx xtx_id local_state current_fsx steps_cnt with
    | RErr err =>
        if status_eqb status Ready then mret (TryKill IntentionalKill, current_fsx) else throw err
    | ROk new_fsx => mret (TryUpdateFSX new_fsx, current_fsx)
    end.

Definition on_local_trigger (origin : RawOrigin) (trigger : LocalTrigger)
    : D LocalStateExecutionView :=
  requester ← authorize origin ContractAuthor;
  ctx ← circ (local_ctx_of requester (maybe_xtx_id trigger));
  let xtx_id := ctx_xtx_id ctx in
  circ (compile ctx (local_precompile xtx_id)
          (λ _ ctx, emit_sfx (ctx_xtx_id ctx) requester
                      (map fsx_input (concat (ctx_full_side_effects ctx))))) ;;
  load_local_state origin (Some xtx_id).

Definition on_signal (origin : RawOrigin) (signal : ExecutionSignal) : D unit :=
  requester ← authorize origin ContractAuthor;
  queue ← gets signal_queue;
  ensure (Z.of_nat (length queue) <? SignalQueueDepth) (CircuitModuleError SignalQueueFull) ;;
  modify (set_signal_queue (queue ++ [(requester, signal)])).

(** ** Calls *)

Definition call_on_local_trigger (origin : RawOrigin) (trigger : list Z) : D unit :=
  transactional
    (decoded ← ok_or (local_trigger_decode trigger) (CircuitModuleError InsuranceBondNotRequired);
     on_local_trigger origin decoded ;;
     mret tt).

Definition on_xcm_trigger (_origin : RawOrigin) : D unit :=
  throw (CircuitModuleError NotImplemented).

Definition on_remote_gateway_trigger (_origin : RawOrigin) : D unit :=
  throw (CircuitModuleError NotImplemented).

Definition cancel_precompile (attempting_requester : AccountId) : Precompile A X :=
  λ current_fsx _ _ status requester,
    ensure (negb (negb (attempting_requester =? requester) || status_ltb PendingBidding status))
      UnauthorizedCancellation ;;
    ensure (negb (existsb (λ fsx, is_some (fsx_best_bid fsx)) current_fsx))
      UnauthorizedCancellation ;;
    mret (TryKill IntentionalKill, current_fsx).

Definition cancel_xtx (origin : RawOrigin) (xtx_id : Hash) : D unit :=
  transactional
    (attempting_requester ← authorize origin Requester;
     ctx ← circ (load_xtx xtx_id);
     circ (compile ctx (cancel_precompile attempting_requester) no_post_updates) ;;
     mret tt).

Definition call_revert (origin : RawOrigin) (xtx_id : Hash) : D unit :=
  transactional
    (ensure_root origin ;;
     revert xtx_id IntentionalKill infallible_no_post_updates ;;
     mret tt).

Definition trigger_dlq (origin : RawOrigin) : D unit :=
  transactional
    (ensure_signed origin ;;
     block ← gets w_block;
     process_dlq block ;;
     mret tt).

(** A call that another pallet makes through [CircuitSubmitAPI] runs without a
    storage layer of its own: its body is a definition. *)
Definition remote_origin_trigger (origin : RawOrigin) (order_origin : AccountId)
    (side_effects : list SideEffect) (speed_mode : SpeedMode) : D unit :=
  call_origin ← authorize origin Executor;
  ensure (is_remote (order_origin_new order_origin)) (CircuitModuleError InvalidOrderOrigin) ;;
  circ (do_on_extrinsic_trigger order_origin side_effects speed_mode Escrow
          (Some call_origin)) ;;
  mret tt.

Definition on_remote_origin_trigger (origin : RawOrigin) (order_origin : AccountId)
    (side_effects : list SideEffect) (speed_mode : SpeedMode) : D unit :=
  transactional (remote_origin_trigger origin order_origin side_effects speed_mode).

Definition extrinsic_trigger (origin : RawOrigin) (side_effects : list SideEffect)
    (speed_mode : SpeedMode) (preferred_security_level : SecurityLvl) : D unit :=
  requester ← authorize origin Requester;
  circ (do_on_extrinsic_trigger requester side_effects speed_mode preferred_security_level
          None) ;;
  mret tt.

Definition on_extrinsic_trigger (origin : RawOrigin) (side_effects : list SideEffect)
    (speed_mode : SpeedMode) (preferred_security_level : SecurityLvl) : D unit :=
  transactional (extrinsic_trigger origin side_effects speed_mode preferred_security_level).

(** After a confirmation: the event, the attestations of a finished
    transaction and the status update. *)
Definition confirmed_post_update (sfx_id : Hash) : PostUpdate A X := λ status_change ctx,
  deposit_event (SideEffectConfirmed sfx_id) ;;
  (if status_eqb status_change.2 FinishedAllSteps || status_eqb status_change.2 Committed
   then request_sfx_attestation ctx else mret tt) ;;
  emit_status_update (ctx_xtx_id ctx) (Some (ctx_xtx ctx)) (Some (ctx_full_side_effects ctx)).

Definition escrow_charge (executor : AccountId) (args : option AssetId * AccountId * Balance)
    : RequestCharge :=
  {| payee := executor; offered_reward := args.2; charge_fee := 0; source := EscrowUnlock;
     role := Requester; recipient := Some args.1.2; maybe_asset_id := args.1.1 |}.

Definition escrow (origin : RawOrigin) (sfx_id : Hash) : D unit :=
  transactional
    (executor ← authorize origin Executor;
     link ← gets (λ w, sfx2xtx_links w !! sfx_id);
     xtx_id ← ok_or link (CircuitModuleError XtxNotFound);
     ctx ← circ (load_xtx xtx_id);
     fsx ← ok_or (List.find (λ fsx, has_sfx_id (ctx_xtx_id ctx) sfx_id fsx
                                    && bool_decide (fsx_security_lvl fsx = Escrow))
                    (concat (ctx_full_side_effects ctx)))
             (CircuitModuleError EscrowExecutionNotApplicableForThisSFX);
     ensure (bool_decide (sfx_enforce_executor (fsx_input fsx) = Some executor))
       (CircuitModuleError EscrowExecutionNotApplicableForThisSFX) ;;
     args ← ok_or (recover_escrow_arguments fsx)
              (CircuitModuleError EscrowExecutionNotApplicableForThisSFX);
     let escrow_id := escrow_id_of sfx_id in
     with_am (am_deposit escrow_id (escrow_charge executor args)) ;;
     block ← gets w_block;
     r ← circ (compile ctx
           (λ current_fsx _ _ _ _,
              mret (TryConfirm sfx_id
                      {| conf_err := None; conf_output := None; conf_inclusion_data := [];
                         conf_executioner := executor; conf_received_at := block;
                         conf_cost := None |}, current_fsx))
           (confirmed_post_update sfx_id));
     swapped ← map_err (λ _, CircuitModuleError FailedToPerformDynamicDestinationDealHotSwap)
                 (perform_ddd_hot_swap r.1 executor);
     deposit_event (SideEffectConfirmed sfx_id) ;;
     for_each swapped (λ e, deposit_event
       (DynamicDestinationDealReplaced e.1.1.1 e.1.1.2 e.1.2 e.2))).

Definition place_bid (origin : RawOrigin) (sfx_id : Hash) (bid_amt : Balance) : D unit :=
  bidder ← authorize origin Executor;
  link ← gets (λ w, sfx2xtx_links w !! sfx_id);
  xtx_id ← ok_or link (CircuitModuleError LocalSideEffectExecutionNotApplicable);
  ctx ← circ (load_xtx xtx_id);
  circ (compile ctx
    (λ current_fsx _ _ _ _, mret (TryBid sfx_id bid_amt bidder, current_fsx))
    (λ _ _, deposit_event (SFXNewBidReceived sfx_id bidder bid_amt))) ;;
  mret tt.

Definition bid_sfx (origin : RawOrigin) (sfx_id : Hash) (bid_amt : Balance) : D unit :=
  transactional (place_bid origin sfx_id bid_amt).

Definition confirm_precompile (xtx_id sfx_id : Hash) (confirmation : ConfirmedSideEffect)
    : Precompile A X := λ current_fsx _ _ _ _,
  current_fsx ← map_err (λ _, ConfirmationFailed) (confirm xtx_id current_fsx sfx_id confirmation);
  mret (TryConfirm sfx_id confirmation, current_fsx).

Definition confirm_side_effect (origin : RawOrigin) (sfx_id : Hash)
    (confirmation : ConfirmedSideEffect) : D unit :=
  transactional
    (_executor ← authorize origin Executor;
     link ← gets (λ w, sfx2xtx_links w !! sfx_id);
     xtx_id ← ok_or link (CircuitModuleError LocalSideEffectExecutionNotApplicable);
     ctx ← circ (load_xtx xtx_id);
     circ (compile ctx (confirm_precompile xtx_id sfx_id confirmation)
             (confirmed_post_update sfx_id)) ;;
     mret tt).

(** ** CircuitSubmitAPI *)

Definition store_gmp_payload (id payload : Hash) w : W * bool :=
  if is_some (w_gmp w !! id) then (w, false)
  else (set_gmp (<[id := payload]> (w_gmp w)) w, true).

Definition get_gmp_payload (id : Hash) w : option Hash := w_gmp w !! id.

Definition verify_sfx_proof (target : TargetId) (speed_mode : SpeedMode)
    (src : option (list Z)) (encoded_proof : list Z) w : result DispatchError InclusionReceipt :=
  verify_event_inclusion (w_ext w) target speed_mode src encoded_proof.
End Calls.
