(* ===== verification/StandardAbi.v ===== *)
(** * Interfaces of the side effects

    [types/abi/src/sfx_abi.rs] (the interface [SFXAbi] of a side effect and the
    order of its arguments) and [types/abi/src/standard.rs] (the interfaces
    every gateway can be given).  A name and a descriptor are byte strings;
    [bytes_of] is the literal [b"..".to_vec()]. *)

From Stdlib Require Import Ascii String.
From S2P Require Import Prelude Types World.

Definition bytes_of (s : string) : list Z :=
  map (λ c, Z.of_N (N_of_ascii c)) (list_ascii_of_string s).

(** ** Interfaces (sfx_abi.rs) *)

Record PerCodecAbiDescriptors := mkDescriptors {
  for_rlp : list Z;
  for_scale : list Z;
}.

#[export] Instance PerCodecAbiDescriptors_eq_dec : EqDecision PerCodecAbiDescriptors.
Proof. solve_decision. Defined.

(** [SFXAbi]. *)
Record SfxAbi := mkSfxAbi {
  args_names : list (list Z * bool);
  maybe_prefix_memo : option Z;
  egress_abi_descriptors : PerCodecAbiDescriptors;
  ingress_abi_descriptors : PerCodecAbiDescriptors;
}.

#[export] Instance SfxAbi_eq_dec : EqDecision SfxAbi.
Proof. solve_decision. Defined.

Definition set_maybe_prefix_memo (m : option Z) (a : SfxAbi) : SfxAbi :=
  mkSfxAbi (args_names a) m (egress_abi_descriptors a) (ingress_abi_descriptors a).

Definition set_prefix_memo (prefix_memo : Z) (a : SfxAbi) : SfxAbi :=
  set_maybe_prefix_memo (Some prefix_memo) a.

Definition for_codec (c : Codec) (d : PerCodecAbiDescriptors) : list Z :=
  match c with Scale => for_scale d | Rlp => for_rlp d end.

Definition get_expected_ingress_descriptor (a : SfxAbi) (c : Codec) : list Z :=
  for_codec c (ingress_abi_descriptors a).
Definition get_expected_egress_descriptor (a : SfxAbi) (c : Codec) : list Z :=
  for_codec c (egress_abi_descriptors a).

(** The loop of [ensure_arguments_order]: an argument that is to be validated is
    not empty. *)
Fixpoint args_present (names : list (list Z * bool)) (ordered_args : list (list Z)) : bool :=
  match ordered_args, names with
  | [], _ => true
  | arg :: rest, (_, required) :: names =>
      if required && match arg with [] => true | _ => false end then false
      else args_present names rest
  | _ :: _, [] => false
  end.

Definition ensure_arguments_order (a : SfxAbi) (ordered_args : list (list Z))
    : result DispatchError unit :=
  if negb (Nat.eqb (length ordered_args) (length (args_names a)))
  then RErr (Other "SFXAbi::ensure args order - Invalid number of arguments")
  else if args_present (args_names a) ordered_args then ROk tt
  else RErr (Other "SFXAbi::ensure args order - Invalid argument").

(** ** Standard interfaces (standard.rs) *)

Definition get_dynamic_destination_deal_abi : SfxAbi := {|
  args_names := [(bytes_of "asset_id", true); (bytes_of "amount", true)];
  maybe_prefix_memo := None;
  egress_abi_descriptors := mkDescriptors
    (bytes_of "DynamicDestinationDeal:Tuple(asset_id+:Value32,amount+:Value256)")
    (bytes_of "DynamicDestinationDeal:Tuple(asset_id:Value32,amount:Value128)");
  ingress_abi_descriptors := mkDescriptors
    (bytes_of "")
    (bytes_of "");
|}.

Definition get_sfx_transfer_abi : SfxAbi := {|
  args_names := [(bytes_of "to", true); (bytes_of "amount", true)];
  maybe_prefix_memo := None;
  egress_abi_descriptors := mkDescriptors
    (bytes_of "Transfer:Struct(to+:Account20,amount+:Value256)")
    (bytes_of "Transfer:Struct(to:Account32,amount:Value128)");
  ingress_abi_descriptors := mkDescriptors
    (bytes_of "Transfer:Log(from+:Account20,to+:Account20,amount+:Value256)")
    (bytes_of "Balances:Struct(Transfer:Event(from:Account32,to:Account32,amount:Value128))");
|}.

Definition get_sfx_transfer_asset_abi : SfxAbi := {|
  args_names := [(bytes_of "asset_id", false); (bytes_of "to", true); (bytes_of "amount", true)];
  maybe_prefix_memo := None;
  egress_abi_descriptors := mkDescriptors
    (bytes_of "Assets:Struct(asset_id:Value32,to:Account32,amount:Value128)")
    (bytes_of "Assets:Struct(asset_id:Value32,to:Account32,amount:Value128)");
  ingress_abi_descriptors := mkDescriptors
    (bytes_of "Transfer:Log(from+:Account20,to+:Account20,amount:Value256)")
    (bytes_of "Assets:Struct(Transferred:Event(asset_id:Value32,from:Account32,to:Account32,amount:Value128))");
|}.

Definition get_data_abi : SfxAbi := {|
  args_names := [(bytes_of "key", true)];
  maybe_prefix_memo := None;
  egress_abi_descriptors := mkDescriptors
    (bytes_of "H256")
    (bytes_of "H256");
  ingress_abi_descriptors := mkDescriptors
    (bytes_of "Tuple(key:Data,value:Data)")
    (bytes_of "Tuple(key:Data,value:Data)");
|}.

Definition get_swap_abi : SfxAbi := {|
  args_names := [(bytes_of "to", true); (bytes_of "amount_from", true);
                 (bytes_of "amount_to", true); (bytes_of "asset_from", true);
                 (bytes_of "asset_to", true)];
  maybe_prefix_memo := None;
  egress_abi_descriptors := mkDescriptors
    (bytes_of "Swap:Struct(to:Account20,amount_from:Value128,amount_to:Value128,asset_from:Account20,asset_to:Account20)")
    (bytes_of "Swap:Struct(to:Account32,amount_from:Value128,amount_to:Value128,asset_from:Account32,asset_to:Account32)");
  ingress_abi_descriptors := mkDescriptors
    (bytes_of "Swap:Log(from+:Account20,to+:Account20,amount_from+:Value128,amount_to+:Value128,asset_from+:Account20,asset_to+:Account20)")
    (bytes_of "Assets:Struct(Swap:Event(from:Account32,to:Account32,amount_from:Value128,amount_to:Value128,asset_from:Account32,asset_to:Account32))");
|}.

Definition get_add_liquidity_abi : SfxAbi := {|
  args_names := [(bytes_of "to", true); (bytes_of "asset_left", true);
                 (bytes_of "asset_right", true); (bytes_of "liquidity_token", true);
                 (bytes_of "amount_left", true); (bytes_of "amount_right", true);
                 (bytes_of "amount_liquidity_token", true)];
  maybe_prefix_memo := None;
  egress_abi_descriptors := mkDescriptors
    (bytes_of "AddLiquidity:Struct(to:Account20,amount_left:Value256,amount_right:Value256,asset_right:Account20,asset_left:Account20,liquidity_token:Account20,amount_liquidity_token:Value256)")
    (bytes_of "AddLiquidity:Struct(to:Account32,amount_left:Value128,amount_right:Value128,asset_right:Account32,asset_left:Account32,liquidity_token:Account32,amount_liquidity_token:Value128)");
  ingress_abi_descriptors := mkDescriptors
    (bytes_of "AddLiquidity:Log(from+:Account20,to+:Account20,amount_left+:Value256,amount_right+:Value256,asset_right+:Account20,asset_left+:Account20,liquidity_token+:Account20,amount_liquidity_token+:Value256)")
    (bytes_of "Assets:Struct(AddLiquidity:Event(from:Account32,to:Account32,amount_left:Value128,amount_right:Value128,asset_right+:Account32,asset_left:Account32,liquidity_token:Account32,amount_liquidity_token:Value128))");
|}.

Definition get_remove_liquidity_abi : SfxAbi := {|
  args_names := [(bytes_of "to", true); (bytes_of "asset_left", true);
                 (bytes_of "asset_right", true); (bytes_of "liquidity_token", true);
                 (bytes_of "amount_left", true); (bytes_of "amount_right", true);
                 (bytes_of "amount_liquidity_token", true)];
  maybe_prefix_memo := None;
  egress_abi_descriptors := mkDescriptors
    (bytes_of "RemoveLiquidity:Struct(to:Account20,amount_left:Value256,amount_right:Value256,asset_right:Account20,asset_left:Account20,liquidity_token:Account20,amount_liquidity_token:Value256)")
    (bytes_of "RemoveLiquidity:Struct(to:Account32,amount_left:Value128,amount_right:Value128,asset_right:Account32,asset_left:Account32,liquidity_token:Account32,amount_liquidity_token:Value128)");
  ingress_abi_descriptors := mkDescriptors
    (bytes_of "RemoveLiquidity:Log(from+:Account20,to+:Account20,amount_left+:Value256,amount_right+:Value256,asset_right+:Account20,asset_left+:Account20,liquidity_token+:Account20,amount_liquidity_token+:Value256)")
    (bytes_of "Assets:Struct(RemoveLiquidity:Event(from:Account32,to:Account32,amount_left:Value128,amount_right:Value128,asset_right+:Account32,asset_left:Account32,liquidity_token:Account32,amount_liquidity_token:Value128))");
|}.

Definition get_call_evm_contract_abi : SfxAbi := {|
  args_names := [(bytes_of "target", true); (bytes_of "value", false);
                 (bytes_of "input", true); (bytes_of "gas_limit", false);
                 (bytes_of "max_fee_per_gas", false);
                 (bytes_of "max_priority_fee_per_gas", false); (bytes_of "nonce", false);
                 (bytes_of "access_list", false)];
  maybe_prefix_memo := None;
  egress_abi_descriptors := mkDescriptors
    (bytes_of "CallEvm:Struct(target:Account20,value:Value256,input:Bytes,gas_limit:Value256,max_fee_per_gas:Value256,max_priority_fee_per_gas:Value256,nonce:Value256,access_list:Bytes)")
    (bytes_of "CallEvm:Struct(target:Account20,value:Value128,input:Bytes,gas_limit:Value128,max_fee_per_gas:Value128,max_priority_fee_per_gas:Value128,nonce:Value128,access_list:Bytes)");
  ingress_abi_descriptors := mkDescriptors
    (bytes_of "CallEvm:Log(target+:Account20,source+:Account20,tx_hash+:H256,input-:Bytes)")
    (bytes_of "Evm:Struct(Call:Event(source+:Account20,target+:Account20))");
|}.

Definition get_call_wasm_contract_abi : SfxAbi := {|
  args_names := [(bytes_of "contract", true); (bytes_of "value", false);
                 (bytes_of "gas_limit", false); (bytes_of "storage_deposit_limit", false);
                 (bytes_of "input", false)];
  maybe_prefix_memo := None;
  egress_abi_descriptors := mkDescriptors
    (bytes_of "CallWasm:Struct(contract:Account32,value:Value128,gas_limit:Value128,storage_deposit_limit:Value128,input:Bytes)")
    (bytes_of "CallWasm:Struct(contract:Account32,value:Value128,gas_limit:Value128,storage_deposit_limit:Value128,input:Bytes)");
  ingress_abi_descriptors := mkDescriptors
    (bytes_of "CallWasm:Log(caller+:Account32,contract+:Account32)")
    (bytes_of "Contracts:Struct(Call:Event(caller:Account32,contract:Account32))");
|}.

Definition get_call_generic_abi : SfxAbi := {|
  args_names := [(bytes_of "target", false); (bytes_of "value", false);
                 (bytes_of "input", true); (bytes_of "limit", false);
                 (bytes_of "additional_params", false)];
  maybe_prefix_memo := None;
  egress_abi_descriptors := mkDescriptors
    (bytes_of "Call:Struct(target:Account20,value:Value128,input:Bytes,limit:Value128,additional_params:Bytes)")
    (bytes_of "Call:Struct(target:Account32,value:Value128,input:Bytes,limit:Value128,additional_params:Bytes)");
  ingress_abi_descriptors := mkDescriptors
    (bytes_of "Call:Log(source+:Account20,target+:Account20,value+:Value128,input-:Bytes)")
    (bytes_of "Pallet:Struct(Call:Event(source+:Account32,target+:Account32,value+:Value128,input+:Bytes,limit+:Value128))");
|}.

Definition standard_sfx_abi : list (list Z * SfxAbi) :=
  [(bytes_of "data", get_data_abi);
   (bytes_of "tddd", get_dynamic_destination_deal_abi);
   (bytes_of "tran", get_sfx_transfer_abi);
   (bytes_of "tass", get_sfx_transfer_asset_abi);
   (bytes_of "swap", get_swap_abi);
   (bytes_of "aliq", get_add_liquidity_abi);
   (bytes_of "rliq", get_remove_liquidity_abi);
   (bytes_of "cevm", get_call_evm_contract_abi);
   (bytes_of "wasm", get_call_wasm_contract_abi);
   (bytes_of "cgen", get_call_generic_abi)].

Definition get_standard_interface (sfx_4b_id : list Z) : option SfxAbi :=
  snd <$> find (λ e, bool_decide (e.1 = sfx_4b_id)) standard_sfx_abi.

Definition standard_sfx_abi_ids : list (list Z) :=
  map bytes_of ["data"; "tran"; "tass"; "orml"; "swap"; "aliq"; "cevm"; "wasm"; "comp"; "tddd"].
