(* ===== verification/Abi.v ===== *)
(** * Descriptors and filled interfaces

    [types/abi/src/to_abi.rs] (the types [Abi] and their descriptors) and the
    data part of [types/abi/src/to_filled_abi.rs] ([FilledAbi]).

    A descriptor is a byte string such as
    [Transfer:Struct(to:Account32,amount:Value128)].  It is first split into
    tokens with their names and levels, from which the type is built.  Its
    characters are processed as bytes: the separators are ASCII, and no byte of
    a longer character is.  Constructors of [Abi] have the prefix [A], those of
    [FilledAbi] the prefix [F]. *)

From S2P Require Import Prelude Types World StandardAbi.

Inductive Abi :=
| AStruct (name : option (list Z)) (fields : list Abi)
| ALog (name : option (list Z)) (fields : list Abi)
| AEvent (name : option (list Z)) (fields : list Abi)
| AEnum (name : option (list Z)) (fields : list Abi)
| AOption (name : option (list Z)) (field : Abi)
| AAccount20 (name : option (list Z))
| AAccount32 (name : option (list Z))
| AH256 (name : option (list Z))
| ABytes (name : option (list Z))
| ABytes4 (name : option (list Z))
| AValue256 (name : option (list Z))
| AValue128 (name : option (list Z))
| AValue64 (name : option (list Z))
| AValue32 (name : option (list Z))
| AByte (name : option (list Z))
| ACodec (name : option (list Z))
| ABool (name : option (list Z))
| AVec (name : option (list Z)) (field : Abi)
| AUniple (name : option (list Z)) (field : Abi)
| ATuple (name : option (list Z)) (field1 field2 : Abi)
| ATriple (name : option (list Z)) (field1 field2 field3 : Abi)
| AQuadruple (name : option (list Z)) (field1 field2 field3 field4 : Abi)
| AQuintuple (name : option (list Z)) (field1 field2 field3 field4 field5 : Abi)
| ASextuple (name : option (list Z)) (field1 field2 field3 field4 field5 field6 : Abi).

Definition abi_get_name (a : Abi) : option (list Z) :=
  match a with
  | AStruct n _ | ALog n _ | AEvent n _ | AEnum n _ | AOption n _ | AAccount20 n | AAccount32 n
  | AH256 n | ABytes n | ABytes4 n | AValue256 n | AValue128 n | AValue64 n | AValue32 n | AByte n
  | ACodec n | ABool n | AVec n _ | AUniple n _ | ATuple n _ _ | ATriple n _ _ _
  | AQuadruple n _ _ _ _ | AQuintuple n _ _ _ _ _ | ASextuple n _ _ _ _ _ _ => n
  end.

Definition get_type_size (a : Abi) : nat :=
  match a with
  | AStruct _ _ | ALog _ _ | AEnum _ _ | AOption _ _ | AByte _ | ABool _ | AVec _ _ | AEvent _ _
  | ACodec _ => 1
  | AAccount20 _ => 20
  | AAccount32 _ | AH256 _ | ABytes _ | AValue256 _ => 32
  | AValue128 _ => 16
  | AValue64 _ => 8
  | AValue32 _ | ABytes4 _ => 4
  | AUniple _ _ | ATuple _ _ _ | ATriple _ _ _ _ | AQuadruple _ _ _ _ _ | AQuintuple _ _ _ _ _ _
  | ASextuple _ _ _ _ _ _ _ => 0
  end.

Fixpoint get_size (a : Abi) : nat :=
  match a with
  | AStruct _ fields | ALog _ fields | AEnum _ fields | AEvent _ fields =>
      1 + foldr Nat.add 0 (map get_size fields)
  | AOption _ field | AVec _ field => 1 + get_size field
  | AAccount20 _ => 20
  | AAccount32 _ | AH256 _ | ABytes _ | AValue256 _ => 32
  | AValue128 _ => 16
  | AValue64 _ => 8
  | AValue32 _ | ABytes4 _ => 4
  | AByte _ | ABool _ | ACodec _ => 1
  | AUniple _ f1 => get_size f1
  | ATuple _ f1 f2 => get_size f1 + get_size f2
  | ATriple _ f1 f2 f3 => get_size f1 + get_size f2 + get_size f3
  | AQuadruple _ f1 f2 f3 f4 => get_size f1 + get_size f2 + get_size f3 + get_size f4
  | AQuintuple _ f1 f2 f3 f4 f5 =>
      get_size f1 + get_size f2 + get_size f3 + get_size f4 + get_size f5
  | ASextuple _ f1 f2 f3 f4 f5 f6 =>
      get_size f1 + get_size f2 + get_size f3 + get_size f4 + get_size f5 + get_size f6
  end%nat.

(** ** UTF-8 ([str::from_utf8]) *)

Definition continuation (b : Z) : bool := (128 <=? b) && (b <? 192).

Fixpoint utf8_valid (l : list Z) : bool :=
  match l with
  | [] => true
  | b :: l1 =>
      if b <? 128 then utf8_valid l1
      else match l1 with
      | [] => false
      | b1 :: l2 =>
          if (194 <=? b) && (b <? 224) then continuation b1 && utf8_valid l2
          else match l2 with
          | [] => false
          | b2 :: l3 =>
              if (224 <=? b) && (b <? 240) then
                continuation b1 && continuation b2
                && (if b =? 224 then 160 <=? b1 else true)
                && (if b =? 237 then b1 <? 160 else true) && utf8_valid l3
              else match l3 with
              | [] => false
              | b3 :: l4 =>
                  (240 <=? b) && (b <? 245)
                  && continuation b1 && continuation b2 && continuation b3
                  && (if b =? 240 then 144 <=? b1 else true)
                  && (if b =? 244 then b1 <? 144 else true) && utf8_valid l4
              end
          end
      end
  end.

(** ** Tokens *)

(** A field, its name and its level ([usize]). *)
Definition Token : Type := list Z * option (list Z) * Z.

Record Scan := mkScan {
  scan_lvl : Z;
  scan_tokens : list Token;
  scan_name : option (list Z);
  scan_field : list Z;
}.

Definition push_token (lvl : Z) (s : Scan) : Scan :=
  mkScan lvl (scan_tokens s ++ [(scan_field s, scan_name s, scan_lvl s)]) None [].

(** One character: ['<' '(' '>' ')' ',' ':'] are 60, 40, 62, 41, 44, 58. *)
Definition scan_char (s : Scan) (x : Z) : Scan :=
  if (x =? 60) || (x =? 40) then push_token (wrap64 (scan_lvl s + 1)) s
  else if (x =? 62) || (x =? 41) then push_token (wrap64 (scan_lvl s - 1)) s
  else if x =? 44 then push_token (scan_lvl s) s
  else if x =? 58 then mkScan (scan_lvl s) (scan_tokens s) (Some (scan_field s)) []
  else mkScan (scan_lvl s) (scan_tokens s) (scan_name s) (scan_field s ++ [x]).

Definition token_field (t : Token) : list Z := t.1.1.
Definition token_name (t : Token) : option (list Z) := t.1.2.
Definition token_lvl (t : Token) : Z := t.2.

Definition nonempty {T} (l : list T) : bool := match l with [] => false | _ => true end.

Definition parse_descriptor_flat (descriptor : list Z) : result DispatchError (list Token) :=
  if utf8_valid descriptor then
    ROk (List.filter (λ t, nonempty (token_field t))
           (scan_tokens (fold_left scan_char descriptor (mkScan 0 [] None []))))
  else RErr (Other "CrossCodec::failed to stringify field descriptor").

(** ** Parsing *)

Definition MAX_DEPTH : nat := 10.

(** The types without fields. *)
Definition atomic (field : list Z) : option (option (list Z) → Abi) :=
  snd <$> find (λ e, bool_decide (e.1 = field))
    [(bytes_of "Bytes", ABytes); (bytes_of "Account20", AAccount20);
     (bytes_of "Account32", AAccount32); (bytes_of "H256", AH256); (bytes_of "Value256", AValue256);
     (bytes_of "Value128", AValue128); (bytes_of "Value64", AValue64); (bytes_of "Value32", AValue32);
     (bytes_of "Byte", AByte); (bytes_of "Codec", ACodec); (bytes_of "Bytes4", ABytes4);
     (bytes_of "Bool", ABool)].

(** The types with any number of fields. *)
Definition variadic (field : list Z) : option (option (list Z) → list Abi → Abi) :=
  snd <$> find (λ e, bool_decide (e.1 = field))
    [(bytes_of "Struct", AStruct); (bytes_of "Enum", AEnum); (bytes_of "Event", AEvent);
     (bytes_of "Log", ALog)].

(** The types with a fixed number of fields. *)
Definition fixed_arity (field : list Z) : option nat :=
  snd <$> find (λ e, bool_decide (e.1 = field))
    [(bytes_of "Option", 1%nat); (bytes_of "Vec", 1%nat); (bytes_of "Uniple", 1%nat);
     (bytes_of "Tuple", 2%nat); (bytes_of "Triple", 3%nat); (bytes_of "Quadruple", 4%nat);
     (bytes_of "Quintuple", 5%nat); (bytes_of "Sextuple", 6%nat)].

Definition build_fixed (field : list Z) (name : option (list Z)) (l : list Abi) : option Abi :=
  match l with
  | [a] =>
      if bool_decide (field = bytes_of "Option") then Some (AOption name a)
      else if bool_decide (field = bytes_of "Vec") then Some (AVec name a)
      else Some (AUniple name a)
  | [a; b] => Some (ATuple name a b)
  | [a; b; c] => Some (ATriple name a b c)
  | [a; b; c; d] => Some (AQuadruple name a b c d)
  | [a; b; c; d; e] => Some (AQuintuple name a b c d e)
  | [a; b; c; d; e; f] => Some (ASextuple name a b c d e f)
  | _ => None
  end.

Abbreviation Parsed := (result DispatchError (Abi * list Token)).

(** [k] fields one after the other. *)
Fixpoint parse_fields (parse : list Token → Parsed) (k : nat) (tokens : list Token)
    : result DispatchError (list Abi * list Token) :=
  match k with
  | O => ROk ([], tokens)
  | S k =>
      match parse tokens with
      | RErr e => RErr e
      | ROk (a, rest) =>
          match parse_fields parse k rest with
          | RErr e => RErr e
          | ROk (l, rest) => ROk (a :: l, rest)
          end
      end
  end.

(** The fields of a type with any number of them: until the next token is more
    than one level below.  [n] is the number of tokens, each field takes one. *)
Fixpoint parse_while (parse : list Token → Parsed) (max_lvl : Z) (n : nat) (tokens : list Token)
    : result DispatchError (list Abi * list Token) :=
  match n, tokens with
  | S n, t :: _ =>
      if max_lvl <? token_lvl t then ROk ([], tokens)
      else
        match parse tokens with
        | RErr e => RErr e
        | ROk (a, rest) =>
            match parse_while parse max_lvl n rest with
            | RErr e => RErr e
            | ROk (l, rest) => ROk (a :: l, rest)
            end
        end
  | _, _ => ROk ([], tokens)
  end.

(** [from_parsed_descriptor_recursive] at the depth [MAX_DEPTH + 1 - d]. *)
Fixpoint from_parsed_descriptor (d : nat) (tokens : list Token) : Parsed :=
  match d with
  | O => RErr (Other "CrossCodec::from_parsed_descriptor_recursive: max depth reached")
  | S d' =>
      match tokens with
      | [] => RErr (Other "CrossCodec::from_parsed_descriptor_recursive: no more fields")
      | t :: rest =>
          let field := token_field t in
          let name := token_name t in
          match variadic field with
          | Some build =>
              match parse_while (from_parsed_descriptor d')
                      (Z.of_nat (MAX_DEPTH - d' + 1)) (length rest) rest with
              | RErr e => RErr e
              | ROk (l, rest) => ROk (build name l, rest)
              end
          | None =>
              match atomic field with
              | Some build => ROk (build name, rest)
              | None =>
                  match fixed_arity field with
                  | Some k =>
                      match parse_fields (from_parsed_descriptor d') k rest with
                      | RErr e => RErr e
                      | ROk (l, rest) =>
                          match build_fixed field name l with
                          | Some a => ROk (a, rest)
                          | None => RErr (Other "unreachable")
                          end
                      end
                  | None =>
                      RErr (Other "CrossCodec::failed to parse field descriptor - field not recognized")
                  end
              end
          end
      end
  end.

(** [Abi::try_from]: what follows the first type is dropped. *)
Definition abi_try_from (descriptor : list Z) : result DispatchError Abi :=
  match parse_descriptor_flat descriptor with
  | RErr e => RErr e
  | ROk tokens =>
      match from_parsed_descriptor (S MAX_DEPTH) tokens with
      | ROk (a, _) => ROk a
      | RErr e => RErr e
      end
  end.

(** ** Filled interfaces (to_filled_abi.rs) *)

Inductive FilledAbi :=
| FStruct (name : option (list Z)) (fields : list FilledAbi) (prefix_memo : Z)
| FEnum (name : option (list Z)) (fields : list FilledAbi) (prefix_memo : Z)
| FEvent (name : option (list Z)) (fields : list FilledAbi) (prefix_memo : Z)
| FLog (name : option (list Z)) (fields : list FilledAbi) (prefix_memo : Z)
| FOption (name : option (list Z)) (field : FilledAbi)
| FBytes (name : option (list Z)) (data : list Z)
| FBytes4 (name : option (list Z)) (data : list Z)
| FAccount20 (name : option (list Z)) (data : list Z)
| FAccount32 (name : option (list Z)) (data : list Z)
| FH256 (name : option (list Z)) (data : list Z)
| FValue256 (name : option (list Z)) (data : list Z)
| FValue128 (name : option (list Z)) (data : list Z)
| FValue64 (name : option (list Z)) (data : list Z)
| FValue32 (name : option (list Z)) (data : list Z)
| FByte (name : option (list Z)) (data : list Z)
| FCodec (name : option (list Z)) (data : list Z)
| FBool (name : option (list Z)) (data : list Z)
| FVec (name : option (list Z)) (fields : list FilledAbi) (prefix_memo : Z)
| FUniple (name : option (list Z)) (field : FilledAbi)
| FTuple (name : option (list Z)) (field1 field2 : FilledAbi)
| FTriple (name : option (list Z)) (field1 field2 field3 : FilledAbi)
| FQuadruple (name : option (list Z)) (field1 field2 field3 field4 : FilledAbi)
| FQuintuple (name : option (list Z)) (field1 field2 field3 field4 field5 : FilledAbi)
| FSextuple (name : option (list Z)) (field1 field2 field3 field4 field5 field6 : FilledAbi).

(** A name matches without a final [+] (43) or [-] (45). *)
Definition matches_name (field_name : option (list Z)) (by_name : list Z) : bool :=
  match field_name with
  | None => false
  | Some n =>
      match last n with
      | None => false
      | Some c =>
          (((c =? 43) || (c =? 45)) && bool_decide (take (length n - 1) n = by_name))
          || bool_decide (n = by_name)
      end
  end.

Definition get_prefix_memo (a : FilledAbi) : option Z :=
  match a with
  | FStruct _ _ p | FEnum _ _ p | FEvent _ _ p | FLog _ _ p => Some p
  | _ => None
  end.

Definition filled_name (a : FilledAbi) : option (list Z) :=
  match a with
  | FStruct n _ _ | FEnum n _ _ | FEvent n _ _ | FLog n _ _ | FOption n _ | FBytes n _ | FBytes4 n _
  | FAccount20 n _ | FAccount32 n _ | FH256 n _ | FValue256 n _ | FValue128 n _ | FValue64 n _
  | FValue32 n _ | FByte n _ | FCodec n _ | FBool n _ | FVec n _ _ | FUniple n _ | FTuple n _ _
  | FTriple n _ _ _ | FQuadruple n _ _ _ _ | FQuintuple n _ _ _ _ _ | FSextuple n _ _ _ _ _ _ => n
  end.

Fixpoint get_data (a : FilledAbi) : list Z :=
  match a with
  | FStruct _ fields p | FEnum _ fields p | FEvent _ fields p | FLog _ fields p | FVec _ fields p =>
      p :: flat_map get_data fields
  | FOption _ field =>
      match get_data field with [] => [0] | d => 1 :: d end
  | FBytes _ d | FBytes4 _ d | FAccount20 _ d | FAccount32 _ d | FH256 _ d | FValue256 _ d
  | FValue128 _ d | FValue64 _ d | FValue32 _ d | FByte _ d | FCodec _ d | FBool _ d => d
  | FUniple _ f1 => get_data f1
  | FTuple _ f1 f2 => get_data f1 ++ get_data f2
  | FTriple _ f1 f2 f3 => get_data f1 ++ get_data f2 ++ get_data f3
  | FQuadruple _ f1 f2 f3 f4 => get_data f1 ++ get_data f2 ++ get_data f3 ++ get_data f4
  | FQuintuple _ f1 f2 f3 f4 f5 =>
      get_data f1 ++ get_data f2 ++ get_data f3 ++ get_data f4 ++ get_data f5
  | FSextuple _ f1 f2 f3 f4 f5 f6 =>
      get_data f1 ++ get_data f2 ++ get_data f3 ++ get_data f4 ++ get_data f5 ++ get_data f6
  end.

(** The first result in a list of fields. *)
Fixpoint first_some {T} (l : list (option T)) : option T :=
  match l with
  | [] => None
  | Some x :: _ => Some x
  | None :: l => first_some l
  end.

(** A tuple does not match by its own name here. *)
Fixpoint get_by_name (by_name : list Z) (a : FilledAbi) : option FilledAbi :=
  match a with
  | FStruct n fields _ | FEvent n fields _ | FEnum n fields _ | FLog n fields _ =>
      if matches_name n by_name then Some a else first_some (map (get_by_name by_name) fields)
  | FOption n field => if matches_name n by_name then Some a else get_by_name by_name field
  | FBytes n _ | FBytes4 n _ | FCodec n _ | FAccount20 n _ | FAccount32 n _ | FH256 n _
  | FValue256 n _ | FValue128 n _ | FValue64 n _ | FValue32 n _ | FBool n _ | FByte n _ =>
      if matches_name n by_name then Some a else None
  | FVec _ fields _ => match fields with [] => None | f :: _ => get_by_name by_name f end
  | FUniple _ f1 => get_by_name by_name f1
  | FTuple _ f1 f2 => first_some [get_by_name by_name f1; get_by_name by_name f2]
  | FTriple _ f1 f2 f3 =>
      first_some [get_by_name by_name f1; get_by_name by_name f2; get_by_name by_name f3]
  | FQuadruple _ f1 f2 f3 f4 =>
      first_some [get_by_name by_name f1; get_by_name by_name f2; get_by_name by_name f3;
                  get_by_name by_name f4]
  | FQuintuple _ f1 f2 f3 f4 f5 =>
      first_some [get_by_name by_name f1; get_by_name by_name f2; get_by_name by_name f3;
                  get_by_name by_name f4; get_by_name by_name f5]
  | FSextuple _ f1 f2 f3 f4 f5 f6 =>
      first_some [get_by_name by_name f1; get_by_name by_name f2; get_by_name by_name f3;
                  get_by_name by_name f4; get_by_name by_name f5; get_by_name by_name f6]
  end.

(** The data of what is found; a tuple matches by its name. *)
Fixpoint get_data_by_name (by_name : list Z) (a : FilledAbi) : option (list Z) :=
  match a with
  | FStruct n fields _ | FEvent n fields _ | FEnum n fields _ | FLog n fields _ =>
      if matches_name n by_name then Some (get_data a)
      else first_some (map (get_data_by_name by_name) fields)
  | FOption n field =>
      if matches_name n by_name then Some (get_data a) else get_data_by_name by_name field
  | FBytes n d | FCodec n d | FBytes4 n d | FAccount20 n d | FAccount32 n d | FH256 n d
  | FValue256 n d | FValue128 n d | FValue64 n d | FValue32 n d | FByte n d | FBool n d =>
      if matches_name n by_name then Some d else None
  | FVec _ fields _ => match fields with [] => None | f :: _ => get_data_by_name by_name f end
  | FUniple n f1 =>
      if matches_name n by_name then Some (get_data a) else get_data_by_name by_name f1
  | FTuple n f1 f2 =>
      if matches_name n by_name then Some (get_data a)
      else first_some [get_data_by_name by_name f1; get_data_by_name by_name f2]
  | FTriple n f1 f2 f3 =>
      if matches_name n by_name then Some (get_data a)
      else first_some [get_data_by_name by_name f1; get_data_by_name by_name f2;
                       get_data_by_name by_name f3]
  | FQuadruple n f1 f2 f3 f4 =>
      if matches_name n by_name then Some (get_data a)
      else first_some [get_data_by_name by_name f1; get_data_by_name by_name f2;
                       get_data_by_name by_name f3; get_data_by_name by_name f4]
  | FQuintuple n f1 f2 f3 f4 f5 =>
      if matches_name n by_name then Some (get_data a)
      else first_some [get_data_by_name by_name f1; get_data_by_name by_name f2;
                       get_data_by_name by_name f3; get_data_by_name by_name f4;
                       get_data_by_name by_name f5]
  | FSextuple n f1 f2 f3 f4 f5 f6 =>
      if matches_name n by_name then Some (get_data a)
      else first_some [get_data_by_name by_name f1; get_data_by_name by_name f2;
                       get_data_by_name by_name f3; get_data_by_name by_name f4;
                       get_data_by_name by_name f5; get_data_by_name by_name f6]
  end.
