(* ===== verification/AbiFill.v ===== *)
(** * Filling an interface with encoded data

    [recursive_fill_abi] of [types/abi/src/to_filled_abi.rs] with what it calls in
    [recode.rs], [recode_scale.rs] and [recode_rlp.rs]: the encoded bytes of a
    side effect or of an event are cut along an [Abi].

    The crate [rlp] is the parameter [RlpLib], its documented behaviour the class
    [RlpLaws].  A slice out of range and [Bytes::advance] past the end are
    [Panic]; so is the loop over the items of a vector when an item takes no
    byte, since the vector of items then grows until no memory is left. *)

From S2P Require Import Prelude Types World StandardAbi Abi.

(** ** The rlp crate *)

Class RlpLib := {
  (** The raw items of [Rlp::new(data)], in the order of its iterator. *)
  rlp_items : list Z → list (list Z);
  (** [Rlp::as_raw]. *)
  rlp_as_raw : list Z → list Z;
  (** [rlp::encode] of a byte string and of an integer of [n] bytes;
      [rlp::encode_list] of a slice of [u8]; a list of encoded items. *)
  rlp_encode_bytes : list Z → list Z;
  rlp_encode_uint : nat → Z → list Z;
  rlp_encode_list_u8 : list Z → list Z;
  rlp_encode_list : list (list Z) → list Z;
  (** [rlp::decode] of an integer of [n] bytes. *)
  rlp_decode_uint : nat → list Z → option Z;
  (** [val_at] for a hash of [n] bytes and for a byte string; [list_at] for
      hashes of [n] bytes. *)
  rlp_val_at_hash : nat → list Z → nat → option (list Z);
  rlp_val_at_bytes : list Z → nat → option (list Z);
  rlp_list_at_hash : nat → list Z → nat → option (list (list Z));
}.

(** The sizes are below [2 ^ 32]; an item is a byte string or a list of byte
    strings. *)
Definition short (items : list (list Z)) : Prop := Z.of_nat (length (concat items)) < 2 ^ 32.

Definition rlp_item `{RlpLib} (item : list Z) : Prop :=
  (∃ b, Forall is_byte b ∧ item = rlp_encode_bytes b) ∨
  (∃ l, Forall (Forall is_byte) l ∧ item = rlp_encode_list (map rlp_encode_bytes l)).

(** What is encoded is decoded, and an encoding adds at most five bytes. *)
Class RlpLaws `{RlpLib} : Prop := {
  rlp_uint_roundtrip n z :
    (n ≤ 16)%nat → 0 ≤ z < 256 ^ Z.of_nat n → rlp_decode_uint n (rlp_encode_uint n z) = Some z;
  rlp_hash_roundtrip n items i b :
    short items → Forall rlp_item items → items !! i = Some (rlp_encode_bytes b) →
    length b = n → Forall is_byte b → rlp_val_at_hash n (rlp_encode_list items) i = Some b;
  rlp_bytes_roundtrip items i b :
    short items → Forall rlp_item items → items !! i = Some (rlp_encode_bytes b) →
    Forall is_byte b → rlp_val_at_bytes (rlp_encode_list items) i = Some b;
  rlp_hashes_roundtrip n items i l :
    short items → Forall rlp_item items →
    items !! i = Some (rlp_encode_list (map rlp_encode_bytes l)) →
    Forall (λ b, length b = n ∧ Forall is_byte b) l →
    rlp_list_at_hash n (rlp_encode_list items) i = Some l;
  rlp_bytes_length b :
    Z.of_nat (length b) < 2 ^ 32 → (length (rlp_encode_bytes b) ≤ length b + 5)%nat;
  rlp_list_length items :
    short items → (length (rlp_encode_list items) ≤ length (concat items) + 5)%nat;
}.

Abbreviation Fill := (M unit DispatchError).

(** [From<&'static str>]. *)
Abbreviation fail_with s := (throw (Other s)).

(** [Bytes::advance(1)]. *)
Definition advance1 (l : list Z) : Fill (list Z) :=
  match l with [] => panic | _ :: l => mret l end.

(** The slice [l[n..]]. *)
Definition slice_from (n : nat) (l : list Z) : Fill (list Z) :=
  if (n <=? length l)%nat then mret (drop n l) else panic.

(** [Vec::truncate(len - n)], the difference modulo [2 ^ 64]. *)
Definition truncate_by (n : nat) (l : list Z) : list Z :=
  if (n <=? length l)%nat then take (length l - n) l else l.

Section Fill.
Context `{RlpLib}.

(** ** Chopping *)

(** [RecodeScale::chop_encoded], the pieces. *)
Fixpoint chop_fields (fields : list Abi) (data : list Z) : result DispatchError (list (list Z)) :=
  match fields with
  | [] => ROk []
  | f :: fields =>
      let field_size := get_size f in
      if (field_size <=? length data)%nat then
        match chop_fields fields (drop field_size data) with
        | ROk rest => ROk (take field_size data :: rest)
        | RErr e => RErr e
        end
      else RErr (Other "RecodeScale::chop_encoded - not enough data to decode")
  end.

Definition chop_encoded_scale (field_data : list Z) (fields : list Abi)
    : Fill (list (list Z) * Z) :=
  match field_data with
  | [] => fail_with "RecodeScale::chop_encoded - no data to decode"
  | memo_prefix :: data =>
      chopped ← lift_result (chop_fields fields data);
      mret (chopped, memo_prefix)
  end.

Definition chop_encoded_rlp (field_data : list Z) : Fill (list (list Z) * Z) :=
  memo_prefix ← ok_or (head field_data)
                  (Other "RecodeRlp::chop_encoded - memo byte cannot be empty for RLP structs");
  mret (rlp_items field_data, memo_prefix).

Definition chop_encoded (codec : Codec) (field_data : list Z) (fields : list Abi)
    : Fill (list (list Z) * Z) :=
  match codec with
  | Scale => chop_encoded_scale field_data fields
  | Rlp => chop_encoded_rlp field_data
  end.

(** ** Topics of a log (recode_rlp.rs) *)

Record Eth2IngressEventLog := mkEthLog {
  eth_log_address : list Z;
  eth_log_topics : list (list Z);
  eth_log_data : list Z;
}.

Definition decode_eth_log (data : list Z) : option Eth2IngressEventLog :=
  address ← rlp_val_at_hash 20 data 0;
  topics ← rlp_list_at_hash 32 data 1;
  bytes ← rlp_val_at_bytes data 2;
  Some (mkEthLog address topics bytes).

Definition encode_eth_log (l : Eth2IngressEventLog) : list Z :=
  rlp_encode_list [rlp_encode_bytes (eth_log_address l);
                   rlp_encode_list (map rlp_encode_bytes (eth_log_topics l));
                   rlp_encode_bytes (eth_log_data l)].

Definition MINIMUM_INPUT_LENGTH : nat := 32.

Abbreviation drop_last l := (take (length l - MINIMUM_INPUT_LENGTH) l).

(** [u128::try_from(U256)], and [u64], [u32]. *)
Definition u256_to (n : nat) (max : Z) (overflow : string) (word : list Z) : Fill (list Z) :=
  let z := from_be_bytes word in
  if z <=? max then mret (rlp_encode_uint n z) else fail_with overflow.

(** The items of a vector, the last first. *)
Fixpoint topics_vec (decode : list Z → Fill (FilledAbi * nat)) (n : nat) (input : list Z)
    : Fill (list FilledAbi) :=
  match n, input with
  | _, [] => mret []
  | S n, _ =>
      filled ← decode input;
      rest ← topics_vec decode n (drop_last input);
      mret (filled.1 :: rest)
  | O, _ => mret []
  end.

(** The fields of a structure: the first from the last word. *)
Definition topics_struct (decode : Abi → list Z → Fill (FilledAbi * nat))
    : list Abi → list Z → Fill (list FilledAbi) :=
  fix go fields input :=
    match fields with
    | [] => mret []
    | f :: fields =>
        filled ← decode f input;
        rest ← go fields (drop_last input);
        mret (filled.1 :: rest)
    end.

Fixpoint decode_topics_as_rlp (a : Abi) (input : list Z) : Fill (FilledAbi * nat) :=
  _ ← ensure (MINIMUM_INPUT_LENGTH <=? length input)%nat
        (Other "decode_topics_as_rlp -- Invalid input length lesser than 32");
  let last_32b := drop (length input - MINIMUM_INPUT_LENGTH) input in
  match a with
  | AAccount20 n => mret (FAccount20 n (drop (MINIMUM_INPUT_LENGTH - 20) last_32b), MINIMUM_INPUT_LENGTH)
  | AH256 n | AAccount32 n => mret (FH256 n last_32b, MINIMUM_INPUT_LENGTH)
  | ABytes n => mret (FBytes n input, MINIMUM_INPUT_LENGTH)
  | ABytes4 n => mret (FBytes4 n (take 4 last_32b), MINIMUM_INPUT_LENGTH)
  | AValue256 n => mret (FValue256 n last_32b, MINIMUM_INPUT_LENGTH)
  | AValue128 n =>
      v ← u256_to 16 u128_max "integer overflow when casting to u128" last_32b;
      mret (FValue128 n v, MINIMUM_INPUT_LENGTH)
  | AValue64 n =>
      v ← u256_to 8 u64_max "integer overflow when casting to u64" last_32b;
      mret (FValue64 n v, MINIMUM_INPUT_LENGTH)
  | AValue32 n =>
      v ← u256_to 4 u32_max "integer overflow when casting to u32" last_32b;
      mret (FValue32 n v, MINIMUM_INPUT_LENGTH)
  | AByte n | ABool n => mret (FByte n (drop 31 last_32b), MINIMUM_INPUT_LENGTH)
  | ATuple n field1 field2 =>
      '(filled_2, filled_2_size) ← decode_topics_as_rlp field2 input;
      _ ← ensure (filled_2_size <=? length input)%nat
            (Other "decode_topics_as_rlp -- Invalid input length for Tuple");
      '(filled_1, filled_1_size) ← decode_topics_as_rlp field1 (take filled_2_size input);
      mret (FTuple n filled_1 filled_2, filled_2_size + filled_1_size)%nat
  | AVec n field =>
      filled ← topics_vec (decode_topics_as_rlp field) (length input) input;
      mret (FVec n filled 0, length filled * MINIMUM_INPUT_LENGTH)%nat
  | AOption n field =>
      filled ← decode_topics_as_rlp field input;
      mret (FOption n filled.1, MINIMUM_INPUT_LENGTH)
  | AStruct n fields =>
      filled ← topics_struct decode_topics_as_rlp fields input;
      mret (FStruct n filled 0, length filled * MINIMUM_INPUT_LENGTH)%nat
  | _ => panic
  end.

(** The fields of a log, from the last; a field whose name ends with [+] (43) is
    among the topics, as is one without a name.  The accumulator is
    [flat_topics], [flat_data] and [total_size]. *)
Fixpoint log_fields_rev (fields : list Abi) (flat_topics flat_data : list Z) (total_size : nat)
    : Fill (list FilledAbi * nat) :=
  match fields with
  | [] => mret ([], total_size)
  | f :: fields =>
      let name := default [43] (abi_get_name f) in
      if bool_decide (last name = Some 43) then
        '(filled, size) ← decode_topics_as_rlp f flat_topics;
        '(rest, total) ← log_fields_rev fields (truncate_by size flat_topics) flat_data
                           (total_size + size);
        mret (filled :: rest, total)
      else
        '(filled, size) ← decode_topics_as_rlp f flat_data;
        '(rest, total) ← log_fields_rev fields flat_topics (truncate_by size flat_data)
                           (total_size + size);
        mret (filled :: rest, total)
  end.

(** [RecodeRlp::event_to_filled]. *)
Definition event_to_filled_rlp (field_data : list Z) (name : option (list Z)) (fields : list Abi)
    : Fill (FilledAbi * nat) :=
  log ← ok_or (decode_eth_log field_data)
          (Other "Eth2IngressEventLog::decode can't be derived with provided data");
  '(filled, total_size) ←
    log_fields_rev (reverse fields) (concat (drop 1 (eth_log_topics log))) (eth_log_data log) 0;
  mret (FLog name (reverse filled) 0, total_size).

(** ** Filling *)

Definition ensure_vector_and_trim_prefix (data : list Z) (in_codec : Codec) : Fill (list Z) :=
  match in_codec with
  | Scale =>
      data_buf ← advance1 data;
      _ ← ensure (nonempty data_buf) (Other "recode_as_vector::Scale::InvalidDataSize");
      mret data_buf
  | Rlp =>
      rlp_buf ← advance1 (rlp_as_raw data);
      _ ← ensure (nonempty rlp_buf) (Other "recode_as_vector::Rlp::InvalidDataSize");
      mret rlp_buf
  end.

(** The fields of a structure with their data, and their total size. *)
Definition fill_fields (fill : Abi → list Z → Fill (FilledAbi * nat))
    : list Abi → list (list Z) → Fill (list FilledAbi * nat) :=
  fix go fields chopped :=
    match fields with
    | [] => mret ([], 0%nat)
    | f :: fields =>
        match chopped with
        | [] => fail_with "Abi::Struct - Not enough data"
        | d :: chopped =>
            '(field, size) ← fill f d;
            '(rest, total) ← go fields chopped;
            mret (field :: rest, size + total)%nat
        end
    end.

(** The variant of an enum that the first byte selects. *)
Definition fill_variant (fill : Abi → list Z → Fill (FilledAbi * nat)) (data : list Z)
    : list Abi → nat → Fill (FilledAbi * nat) :=
  fix go fields i :=
    match fields, i with
    | f :: _, O => fill f data
    | _ :: fields, S i => go fields i
    | [], _ => fail_with "FilledAbi::Enum - Invalid data"
    end.

Definition fill_enum (fill : Abi → list Z → Fill (FilledAbi * nat)) (fields : list Abi)
    (field_data : list Z) : Fill (FilledAbi * nat) :=
  match field_data with
  | [] => fail_with "FilledAbi::Enum - Not enough data"
  | first_byte :: data => fill_variant fill data fields (Z.to_nat first_byte)
  end.

(** The items of a vector of [data], [max_size] bytes being given to each; [n]
    is above the number of bytes. *)
Fixpoint fill_vec (fill : list Z → Fill (FilledAbi * nat)) (max_size n : nat) (data : list Z)
    : Fill (list FilledAbi) :=
  match n with
  | O => panic
  | S n =>
      if (max_size <=? length data)%nat then
        '(field, size) ← fill (take max_size data);
        rest ← fill_vec fill max_size n (drop size data);
        mret (field :: rest)
      else mret []
  end.

(** A member of a tuple, from the slice [field_data[offset..]]. *)
Definition fill_at (fill : list Z → Fill (FilledAbi * nat)) (field_data : list Z) (offset : nat)
    : Fill (FilledAbi * nat) :=
  d ← slice_from offset field_data;
  fill d.

(** Tuples: each member from where the previous ones end. *)
Abbreviation Filler := (list Z → Fill (FilledAbi * nat)).

Definition fill_tuple (name : option (list Z)) (g1 g2 : Filler) (field_data : list Z)
    : Fill (FilledAbi * nat) :=
  '(a1, s1) ← g1 field_data;
  '(a2, s2) ← fill_at g2 field_data s1;
  mret (FTuple name a1 a2, s1 + s2)%nat.

Definition fill_triple (name : option (list Z)) (g1 g2 g3 : Filler) (field_data : list Z)
    : Fill (FilledAbi * nat) :=
  '(a1, s1) ← g1 field_data;
  '(a2, s2) ← fill_at g2 field_data s1;
  '(a3, s3) ← fill_at g3 field_data (s1 + s2);
  mret (FTriple name a1 a2 a3, s1 + s2 + s3)%nat.

Definition fill_quadruple (name : option (list Z)) (g1 g2 g3 g4 : Filler) (field_data : list Z)
    : Fill (FilledAbi * nat) :=
  '(a1, s1) ← g1 field_data;
  '(a2, s2) ← fill_at g2 field_data s1;
  '(a3, s3) ← fill_at g3 field_data (s1 + s2);
  '(a4, s4) ← fill_at g4 field_data (s1 + s2 + s3);
  mret (FQuadruple name a1 a2 a3 a4, s1 + s2 + s3 + s4)%nat.

Definition fill_quintuple (name : option (list Z)) (g1 g2 g3 g4 g5 : Filler) (field_data : list Z)
    : Fill (FilledAbi * nat) :=
  '(a1, s1) ← g1 field_data;
  '(a2, s2) ← fill_at g2 field_data s1;
  '(a3, s3) ← fill_at g3 field_data (s1 + s2);
  '(a4, s4) ← fill_at g4 field_data (s1 + s2 + s3);
  '(a5, s5) ← fill_at g5 field_data (s1 + s2 + s3 + s4);
  mret (FQuintuple name a1 a2 a3 a4 a5, s1 + s2 + s3 + s4 + s5)%nat.

Definition fill_sextuple (name : option (list Z)) (g1 g2 g3 g4 g5 g6 : Filler) (field_data : list Z)
    : Fill (FilledAbi * nat) :=
  '(a1, s1) ← g1 field_data;
  '(a2, s2) ← fill_at g2 field_data s1;
  '(a3, s3) ← fill_at g3 field_data (s1 + s2);
  '(a4, s4) ← fill_at g4 field_data (s1 + s2 + s3);
  '(a5, s5) ← fill_at g5 field_data (s1 + s2 + s3 + s4);
  '(a6, s6) ← fill_at g6 field_data (s1 + s2 + s3 + s4 + s5);
  mret (FSextuple name a1 a2 a3 a4 a5 a6, s1 + s2 + s3 + s4 + s5 + s6)%nat.

Definition first_byte_of (error : string) (field_data : list Z) : Fill (list Z) :=
  byte ← ok_or (head field_data) (Other error);
  mret [byte].

Fixpoint recursive_fill_abi (in_codec : Codec) (a : Abi) (field_data : list Z)
    : Fill (FilledAbi * nat) :=
  let fill := recursive_fill_abi in_codec in
  match a with
  | ALog name fields =>
      match in_codec with
      | Scale => fill_enum fill fields field_data
      | Rlp => event_to_filled_rlp field_data name fields
      end
  | AStruct name fields | AEvent name fields =>
      '(chopped, memo_prefix) ← chop_encoded in_codec field_data fields;
      '(filled, total_struct_size) ← fill_fields fill fields chopped;
      mret (FStruct name filled memo_prefix, total_struct_size)
  | AEnum _ fields => fill_enum fill fields field_data
  | AOption name field =>
      data ← advance1 field_data;
      '(filled, size) ← fill field data;
      mret (FOption name filled, size + 1)%nat
  | ABytes name => mret (FBytes name field_data, length field_data)
  | AAccount20 name =>
      let bytes := if Nat.eqb (length field_data) 21 then drop 1 field_data else field_data in
      _ ← ensure (Nat.eqb (length bytes) 20)
            (Other "Account20::InvalidDataSize: expected 20 bytes");
      mret (FAccount20 name bytes, 20%nat)
  | AAccount32 name =>
      let bytes := if Nat.eqb (length field_data) 33 then drop 1 field_data else field_data in
      _ ← ensure (Nat.eqb (length bytes) 32)
            (Other "Account20::InvalidDataSize: expected 20 bytes");
      mret (FAccount32 name bytes, length field_data)
  | AH256 name =>
      _ ← ensure (32 <=? length field_data)%nat
            (Other "H256/Account32::InvalidDataSize: expected 32 bytes");
      mret (FH256 name (take 32 field_data), 32%nat)
  | AValue256 name => mret (FValue256 name field_data, length field_data)
  | AValue128 name => mret (FValue128 name field_data, length field_data)
  | AValue64 name => mret (FValue64 name field_data, length field_data)
  | AValue32 name => mret (FValue32 name field_data, length field_data)
  | ABytes4 name =>
      if (4 <=? length field_data)%nat then mret (FBytes4 name (take 4 field_data), 4%nat) else panic
  | AByte name => b ← first_byte_of "Byte::InvalidDataSize" field_data; mret (FByte name b, 1%nat)
  | ABool name => b ← first_byte_of "Bool::InvalidDataSize" field_data; mret (FBool name b, 1%nat)
  | ACodec name => b ← first_byte_of "Codec::InvalidDataSize" field_data; mret (FCodec name b, 1%nat)
  | AVec name field =>
      match in_codec with
      | Rlp => fail_with "Abi::Vec::NotImplemented for RLP - undeterministc size of vec items with RLP makes it diff to predict the size"
      | Scale =>
          data ← ensure_vector_and_trim_prefix field_data in_codec;
          items ← fill_vec (fill field) (get_size field) (S (length data)) data;
          mret (FVec name items 0, length data)
      end
  | AUniple name f1 =>
      '(a1, s1) ← fill f1 field_data;
      mret (FUniple name a1, s1)
  | ATuple name f1 f2 => fill_tuple name (fill f1) (fill f2) field_data
  | ATriple name f1 f2 f3 => fill_triple name (fill f1) (fill f2) (fill f3) field_data
  | AQuadruple name f1 f2 f3 f4 =>
      fill_quadruple name (fill f1) (fill f2) (fill f3) (fill f4) field_data
  | AQuintuple name f1 f2 f3 f4 f5 =>
      fill_quintuple name (fill f1) (fill f2) (fill f3) (fill f4) (fill f5) field_data
  | ASextuple name f1 f2 f3 f4 f5 f6 =>
      fill_sextuple name (fill f1) (fill f2) (fill f3) (fill f4) (fill f5) (fill f6) field_data
  end.

Definition try_fill_abi (a : Abi) (data : list Z) (in_codec : Codec) : Fill FilledAbi :=
  '(filled, _) ← recursive_fill_abi in_codec a data;
  mret filled.

End Fill.
