(* ===== verification/AbiRecode.v ===== *)
(** * Recoding between SCALE and RLP, and the validation of arguments

    [recode_as] and [recode_bytes_with_descriptor] of [types/abi/src/recode.rs],
    and the two validations of [types/abi/src/sfx_abi.rs]: of the arguments of a
    side effect against its interface, and of an event received from a target
    against the arguments it must confirm. *)

From S2P Require Import Prelude Types World StandardAbi Abi AbiFill.

Section Recode.
Context `{RlpLib}.

(** [Decode::decode] of [n] bytes: what follows is ignored. *)
Definition scale_fixed (n : nat) (error : string) (data : list Z) : Fill (list Z) :=
  if (n <=? length data)%nat then mret (take n data) else fail_with error.

(** The fields, one after the other. *)
Definition recode_all (recode : FilledAbi → Fill (list Z)) : list FilledAbi → Fill (list Z) :=
  fix go fields :=
    match fields with
    | [] => mret []
    | f :: fields =>
        d ← recode f;
        rest ← go fields;
        mret (d ++ rest)
    end.

(** A tuple or a vector of encoded fields. *)
Definition sequence_as (out_codec : Codec) (encoded_fields : list Z) : Fill (list Z) :=
  mret match out_codec with Scale => encoded_fields | Rlp => rlp_encode_list_u8 encoded_fields end.

(** A hash of 32 bytes. *)
Definition recode_hash (in_codec out_codec : Codec) (data : list Z) : Fill (list Z) :=
  match in_codec, out_codec with
  | Scale, Scale | Rlp, Rlp => mret data
  | Scale, Rlp =>
      account ← scale_fixed 32 "Account32 error at recoding back to Scale" data;
      mret (rlp_encode_bytes account)
  | Rlp, Scale => scale_fixed 32 "Account32 error at recoding back to Scale" data
  end.

Definition recode_account20 (in_codec out_codec : Codec) (widen : bool) (data : list Z)
    : Fill (list Z) :=
  match in_codec, out_codec with
  | Scale, Scale | Rlp, Rlp => mret data
  | Scale, Rlp =>
      account ← scale_fixed 20 "Account20 error at recoding back to Scale" data;
      mret (rlp_encode_bytes account)
  | Rlp, Scale =>
      _ ← ensure (Nat.eqb (length data) 20) (Other "RLP encoded account should be 20 bytes long");
      mret (if widen then replicate 12 0 ++ data else data)
  end.

(** An integer of [n] bytes; [scale_error] and [rlp_error] are the errors of the
    two decoders.  [widen]: to 16 bytes. *)
Definition recode_uint (n : nat) (scale_error rlp_error : string) (in_codec out_codec : Codec)
    (widen : bool) (data : list Z) : Fill (list Z) :=
  match in_codec, out_codec with
  | Scale, Scale | Rlp, Rlp => mret data
  | Scale, Rlp =>
      b ← scale_fixed n scale_error data;
      mret (rlp_encode_uint n (from_le_bytes b))
  | Rlp, Scale =>
      value ← ok_or (rlp_decode_uint n data) (Other rlp_error);
      mret (le_bytes (if widen then 16%nat else n) value)
  end.

(** [U256::from_little_endian] and [U256::from_big_endian] trap on more than 32
    bytes, [as_u128] on overflow. *)
Definition recode_value256 (in_codec out_codec : Codec) (widen : bool) (data : list Z)
    : Fill (list Z) :=
  match in_codec, out_codec with
  | Scale, Scale | Rlp, Rlp => mret data
  | Scale, Rlp =>
      if (length data <=? 32)%nat then mret (be_bytes 32 (from_le_bytes data)) else panic
  | Rlp, Scale =>
      if (length data <=? 32)%nat then
        let value := from_be_bytes data in
        if widen then
          if value <=? u128_max then mret (le_bytes 16 value) else panic
        else mret (le_bytes 32 value)
      else panic
  end.

Definition recode_bytes4 (in_codec out_codec : Codec) (data : list Z) : Fill (list Z) :=
  match in_codec, out_codec with
  | Scale, Scale | Rlp, Rlp => mret data
  | Scale, Rlp =>
      if (4 <=? length data)%nat then mret (rlp_encode_bytes (drop (length data - 4) data)) else panic
  | Rlp, Scale => if (4 <=? length data)%nat then mret (take 4 data) else panic
  end.

(** [widen] is [recode_rlp_to_u128_values_and_32b_accounts]. *)
Fixpoint recode_as (in_codec out_codec : Codec) (widen : bool) (a : FilledAbi) : Fill (list Z) :=
  let recode := recode_as in_codec out_codec widen in
  match a with
  | FStruct _ fields prefix | FEvent _ fields prefix | FEnum _ fields prefix
  | FLog _ fields prefix =>
      encoded_fields ← recode_all recode fields;
      mret match in_codec, out_codec with
           | Scale, Scale | Rlp, Rlp => encoded_fields
           | _, _ => prefix :: encoded_fields
           end
  | FOption _ field =>
      encoded ← recode field;
      mret match out_codec with
           | Scale => (if nonempty encoded then 1 else 0) :: encoded
           | Rlp => 195 :: encoded
           end
  | FTuple _ f1 f2 =>
      d1 ← recode f1; d2 ← recode f2;
      sequence_as out_codec (d1 ++ d2)
  | FTriple _ f1 f2 f3 =>
      d1 ← recode f1; d2 ← recode f2; d3 ← recode f3;
      sequence_as out_codec (d1 ++ d2 ++ d3)
  | FQuadruple _ f1 f2 f3 f4 =>
      d1 ← recode f1; d2 ← recode f2; d3 ← recode f3; d4 ← recode f4;
      sequence_as out_codec (d1 ++ d2 ++ d3 ++ d4)
  | FQuintuple _ f1 f2 f3 f4 f5 =>
      d1 ← recode f1; d2 ← recode f2; d3 ← recode f3; d4 ← recode f4; d5 ← recode f5;
      sequence_as out_codec (d1 ++ d2 ++ d3 ++ d4 ++ d5)
  | FSextuple _ f1 f2 f3 f4 f5 f6 =>
      d1 ← recode f1; d2 ← recode f2; d3 ← recode f3; d4 ← recode f4; d5 ← recode f5;
      d6 ← recode f6;
      sequence_as out_codec (d1 ++ d2 ++ d3 ++ d4 ++ d5 ++ d6)
  | FBytes _ data | FCodec _ data | FByte _ data | FBool _ data => mret data
  | FVec _ fields _ =>
      encoded_fields ← recode_all recode fields;
      sequence_as out_codec encoded_fields
  | FBytes4 _ data => recode_bytes4 in_codec out_codec data
  | FH256 _ data | FAccount32 _ data => recode_hash in_codec out_codec data
  | FAccount20 _ data => recode_account20 in_codec out_codec widen data
  | FValue32 _ data =>
      recode_uint 4 "Recode::recode_as failed to decode Value32 from Scale"
        "Recode::recode_as failed to decode Value32 from Scale" in_codec out_codec widen data
  | FValue64 _ data =>
      recode_uint 8 "Recode::recode_as failed to decode Value64 from Scale"
        "Recode::recode_as failed to decode Value64 from Rlp" in_codec out_codec widen data
  | FValue128 _ data =>
      recode_uint 16 "Recode::recode_as failed to decode Value128 from Scale"
        "Recode::recode_as failed to decode Value128 Scale from Rlp" in_codec out_codec widen data
  | FValue256 _ data => recode_value256 in_codec out_codec widen data
  | FUniple _ _ => fail_with "Recoding filled ABI not implemented for this type"
  end.

Definition recode_bytes_with_descriptor (encoded_bytes abi_descriptor : list Z)
    (in_codec out_codec : Codec) : Fill (list Z) :=
  abi ← lift_result (abi_try_from abi_descriptor);
  filled ← try_fill_abi abi encoded_bytes in_codec;
  recode_as in_codec out_codec false filled.

(** ** Validation (sfx_abi.rs) *)

Definition validate_ordered_arguments (s : SfxAbi) (ordered_args : list (list Z))
    (ordered_args_codec : Codec) : Fill FilledAbi :=
  _ ← lift_result (ensure_arguments_order s ordered_args);
  abi ← lift_result (abi_try_from (get_expected_egress_descriptor s ordered_args_codec));
  let prefix := match maybe_prefix_memo s with Some m => [m] | None => [] end in
  try_fill_abi abi (prefix ++ concat ordered_args) ordered_args_codec.

(** The loop over the arguments, with their names. *)
Fixpoint validate_args (filled : FilledAbi) (payload_codec ordered_args_codec : Codec)
    (names : list (list Z * bool)) (ordered_args : list (list Z)) : Fill unit :=
  match ordered_args with
  | [] => mret tt
  | arg :: ordered_args =>
      match names with
      | [] => fail_with "SFXAbi::Invalid argument - check ensure arguments order"
      | (name, is_to_verify) :: names =>
          _ ← ensure (utf8_valid name)
                (Other "CrossCodec::failed to stringify current_arg_name_str, it's useful for debug message");
          _ ←
            (if is_to_verify : bool then
               field ← ok_or (get_by_name name filled)
                         (Other "SFXAbi::Cannot find payload argument by name");
               recoded ← recode_as payload_codec ordered_args_codec true field;
               ensure (bool_decide (recoded = arg))
                 (Other "SFXAbi::invalid payload argument for -- expected: doesn't match received and recoded")
             else mret tt);
          validate_args filled payload_codec ordered_args_codec names ordered_args
      end
  end.

Definition validate_arguments_against_received (s : SfxAbi) (ordered_args : list (list Z))
    (received_payload : list Z) (ordered_args_codec payload_codec : Codec) : Fill unit :=
  _ ← lift_result (ensure_arguments_order s ordered_args);
  abi ← lift_result (abi_try_from (get_expected_ingress_descriptor s payload_codec));
  filled ← try_fill_abi abi received_payload payload_codec;
  let memo_checked :=
    match payload_codec, maybe_prefix_memo s with
    | Scale, Some _ => bool_decide (get_prefix_memo filled = maybe_prefix_memo s)
    | _, _ => true
    end in
  _ ← ensure memo_checked
        (Other "SFXAbi::invalid prefix memo for -- expected: doesn't match received");
  validate_args filled payload_codec ordered_args_codec (args_names s) ordered_args.

End Recode.
