(* ===== verification/AbiParse.v ===== *)
(** * Descriptors: printing and parsing

    The printer that the descriptors of [standard.rs] follow, and what
    [Abi::try_from] makes of a printed type: the type itself when a type with any
    number of fields is always the last field of its parent, and otherwise a type
    in which the later fields have moved into the nested one. *)

From S2P Require Import Prelude Types World StandardAbi Abi.

(** ** Types as trees *)

Definition children (a : Abi) : list Abi :=
  match a with
  | AStruct _ fields | ALog _ fields | AEvent _ fields | AEnum _ fields => fields
  | AOption _ f | AVec _ f | AUniple _ f => [f]
  | ATuple _ f1 f2 => [f1; f2]
  | ATriple _ f1 f2 f3 => [f1; f2; f3]
  | AQuadruple _ f1 f2 f3 f4 => [f1; f2; f3; f4]
  | AQuintuple _ f1 f2 f3 f4 f5 => [f1; f2; f3; f4; f5]
  | ASextuple _ f1 f2 f3 f4 f5 f6 => [f1; f2; f3; f4; f5; f6]
  | _ => []
  end.

Definition abi_fold {R} (f : Abi → list R → R) : Abi → R :=
  fix go a :=
    f a match a with
        | AStruct _ fields | ALog _ fields | AEvent _ fields | AEnum _ fields => map go fields
        | AOption _ f | AVec _ f | AUniple _ f => [go f]
        | ATuple _ f1 f2 => [go f1; go f2]
        | ATriple _ f1 f2 f3 => [go f1; go f2; go f3]
        | AQuadruple _ f1 f2 f3 f4 => [go f1; go f2; go f3; go f4]
        | AQuintuple _ f1 f2 f3 f4 f5 => [go f1; go f2; go f3; go f4; go f5]
        | ASextuple _ f1 f2 f3 f4 f5 f6 => [go f1; go f2; go f3; go f4; go f5; go f6]
        | _ => []
        end.

Lemma abi_fold_eq {R} (f : Abi → list R → R) a :
  abi_fold f a = f a (map (abi_fold f) (children a)).
Proof. by destruct a. Qed.

(** Induction over the fields. *)
Lemma abi_tree_ind (P : Abi → Prop) :
  (∀ a, Forall P (children a) → P a) → ∀ a, P a.
Proof.
  intros HP. fix IH 1. intros a. apply HP.
  destruct a; simpl; repeat first [apply Forall_nil_2 | apply Forall_cons_2; [apply IH|]];
    match goal with fields : list Abi |- _ =>
      induction fields as [|f fields IHf]; [apply Forall_nil_2 | apply Forall_cons_2; [apply IH|exact IHf]]
    end.
Qed.

Definition type_label (a : Abi) : list Z :=
  match a with
  | AStruct _ _ => bytes_of "Struct" | ALog _ _ => bytes_of "Log" | AEvent _ _ => bytes_of "Event"
  | AEnum _ _ => bytes_of "Enum" | AOption _ _ => bytes_of "Option"
  | AAccount20 _ => bytes_of "Account20" | AAccount32 _ => bytes_of "Account32"
  | AH256 _ => bytes_of "H256" | ABytes _ => bytes_of "Bytes" | ABytes4 _ => bytes_of "Bytes4"
  | AValue256 _ => bytes_of "Value256" | AValue128 _ => bytes_of "Value128"
  | AValue64 _ => bytes_of "Value64" | AValue32 _ => bytes_of "Value32" | AByte _ => bytes_of "Byte"
  | ACodec _ => bytes_of "Codec" | ABool _ => bytes_of "Bool" | AVec _ _ => bytes_of "Vec"
  | AUniple _ _ => bytes_of "Uniple" | ATuple _ _ _ => bytes_of "Tuple"
  | ATriple _ _ _ _ => bytes_of "Triple" | AQuadruple _ _ _ _ _ => bytes_of "Quadruple"
  | AQuintuple _ _ _ _ _ _ => bytes_of "Quintuple" | ASextuple _ _ _ _ _ _ _ => bytes_of "Sextuple"
  end.

Definition is_variadic (a : Abi) : bool :=
  match a with AStruct _ _ | ALog _ _ | AEvent _ _ | AEnum _ _ => true | _ => false end.

Definition is_atomic (a : Abi) : bool :=
  negb (is_variadic a) && match children a with [] => true | _ => false end.

(** What the parser looks up from a label, and how it rebuilds the type. *)
Lemma label_variadic a :
  is_variadic a = true →
  ∃ build, variadic (type_label a) = Some build ∧ build (abi_get_name a) (children a) = a.
Proof. destruct a; try discriminate; intros _; eexists; (split; [vm_compute; reflexivity|done]). Qed.

Lemma label_atomic a :
  is_atomic a = true →
  variadic (type_label a) = None ∧
  ∃ build, atomic (type_label a) = Some build ∧ build (abi_get_name a) = a ∧ children a = [].
Proof.
  destruct a; try discriminate; intros _; (split; [vm_compute; reflexivity|]); eexists;
    (split; [vm_compute; reflexivity|done]).
Qed.

Lemma label_fixed a :
  is_variadic a = false → is_atomic a = false →
  variadic (type_label a) = None ∧ atomic (type_label a) = None ∧
  fixed_arity (type_label a) = Some (length (children a)) ∧
  build_fixed (type_label a) (abi_get_name a) (children a) = Some a.
Proof. destruct a; try discriminate; intros _ _; repeat split. Qed.

(** ** Printing *)

Fixpoint join (l : list (list Z)) : list Z :=
  match l with
  | [] => []
  | [x] => x
  | x :: l => x ++ 44 :: join l
  end.

Definition print_label (a : Abi) : list Z :=
  match abi_get_name a with Some n => n ++ [58] | None => [] end ++ type_label a.

(** [name:Type(field,...)]. *)
Definition print_abi : Abi → list Z :=
  abi_fold (λ a fields, print_label a ++ if is_atomic a then [] else 40 :: join fields ++ [41]).

(** Names: ASCII without separators. *)
Definition plain (c : Z) : bool :=
  (0 <=? c) && (c <? 128) && negb (existsb (Z.eqb c) [60; 40; 62; 41; 44; 58]).

Definition plain_names : Abi → bool :=
  abi_fold (λ a l, match abi_get_name a with Some n => forallb plain n | None => true end
                   && forallb id l).

(** The levels of a type. *)
Definition depth : Abi → nat := abi_fold (λ _ l, S (max_list l)).

(** [closed]: no type with any number of fields in it; [tail_nested]: none but
    in a last field. *)
Definition nesting : Abi → bool * bool :=
  abi_fold (λ a l,
    (negb (is_variadic a) && forallb fst l,
     forallb fst (removelast l) && match last l with Some x => x.2 | None => true end)).
Definition closed (a : Abi) : bool := (nesting a).1.
Definition tail_nested (a : Abi) : bool := (nesting a).2.

(** The tokens of a type at a level. *)
Definition tokens_of : Abi → Z → list Token :=
  abi_fold (λ a l lvl,
    (type_label a, abi_get_name a, lvl) :: flat_map (λ t, t (lvl + 1)) l).

Lemma tokens_of_eq a lvl :
  tokens_of a lvl = (type_label a, abi_get_name a, lvl)
                    :: flat_map (λ c, tokens_of c (lvl + 1)) (children a).
Proof.
  unfold tokens_of at 1. rewrite abi_fold_eq. f_equal.
  by rewrite !flat_map_concat_map, map_map.
Qed.

Lemma print_abi_eq a :
  print_abi a = print_label a ++ if is_atomic a then [] else 40 :: join (map print_abi (children a)) ++ [41].
Proof. unfold print_abi at 1. by rewrite abi_fold_eq. Qed.

Lemma plain_names_eq a :
  plain_names a = true →
  match abi_get_name a with Some n => forallb plain n | None => true end = true ∧
  Forall (λ c, plain_names c = true) (children a).
Proof.
  unfold plain_names at 1. rewrite abi_fold_eq. intros [? Hf]%andb_prop. split; [done|].
  rewrite forallb_forall in Hf. apply Forall_forall. intros c Hc.
  apply (Hf (plain_names c)). apply in_map, list_elem_of_In, Hc.
Qed.

(** ** Scanning a printed type *)

Definition live (l : list Token) : list Token := List.filter (λ t, nonempty (token_field t)) l.

Lemma live_app l1 l2 : live (l1 ++ l2) = live l1 ++ live l2.
Proof. apply List.filter_app. Qed.

Lemma scan_plain_char s c :
  plain c = true →
  scan_char s c = mkScan (scan_lvl s) (scan_tokens s) (scan_name s) (scan_field s ++ [c]).
Proof.
  unfold plain. intros [_ Hc]%andb_prop. apply negb_true_iff in Hc. cbn [existsb] in Hc.
  repeat (apply orb_false_elim in Hc as [? Hc]). unfold scan_char.
  repeat match goal with Hn : (c =? _) = false |- _ => rewrite Hn; clear Hn end. done.
Qed.

Lemma scan_plain l lvl T nm f :
  forallb plain l = true →
  fold_left scan_char l (mkScan lvl T nm f) = mkScan lvl T nm (f ++ l).
Proof.
  revert f. induction l as [|c l IH]; intros f Hl; simpl; [by rewrite app_nil_r|].
  apply andb_prop in Hl as [Hc Hl]. rewrite scan_plain_char by done. simpl.
  rewrite IH by done. by rewrite <-app_assoc.
Qed.

Lemma label_plain a : forallb plain (type_label a) = true.
Proof. by destruct a. Qed.

Lemma label_nonempty a lvl : live [(type_label a, abi_get_name a, lvl)] = [(type_label a, abi_get_name a, lvl)].
Proof. by destruct a. Qed.

Lemma scan_label a lvl T :
  plain_names a = true →
  fold_left scan_char (print_label a) (mkScan lvl T None []) = mkScan lvl T (abi_get_name a) (type_label a).
Proof.
  intros [Hn _]%plain_names_eq. unfold print_label. destruct (abi_get_name a) as [n|].
  - rewrite !fold_left_app, scan_plain by done. cbn [fold_left app].
    change (scan_char _ 58) with (mkScan lvl T (Some n) []). by rewrite scan_plain by apply label_plain.
  - cbn [app]. by rewrite scan_plain by apply label_plain.
Qed.

(** The last token of a type is pushed by the separator that follows it: [pending]
    says which tokens are live then. *)
Definition pending (s : Scan) : list Token :=
  live (scan_tokens s ++ [(scan_field s, scan_name s, scan_lvl s)]).

Definition scans (lvl : Z) (T : list Token) (l : list Z) (new : list Token) : Prop :=
  let s := fold_left scan_char l (mkScan lvl T None []) in
  scan_lvl s = lvl ∧ pending s = live T ++ new.

Lemma scans_join lvl fields :
  Forall (λ c, ∀ T, scans lvl T (print_abi c) (tokens_of c lvl)) fields →
  ∀ T, scans lvl T (join (map print_abi fields)) (flat_map (λ c, tokens_of c lvl) fields).
Proof.
  induction 1 as [|c fields Hc Hfields IH]; intros T.
  { unfold scans, pending. simpl. by rewrite live_app. }
  destruct fields as [|c' fields]; [simpl; rewrite app_nil_r; apply Hc|].
  change (join (map print_abi (c :: c' :: fields)))
    with (print_abi c ++ 44 :: join (map print_abi (c' :: fields))).
  specialize (Hc T) as [Hl Hp]. unfold scans. rewrite fold_left_app.
  set (s := fold_left scan_char (print_abi c) _) in *.
  assert (∀ l, fold_left scan_char (44 :: l) s = fold_left scan_char l
            (mkScan lvl (scan_tokens s ++ [(scan_field s, scan_name s, lvl)]) None [])) as ->.
  { intros l. rewrite <-Hl. reflexivity. }
  destruct (IH (scan_tokens s ++ [(scan_field s, scan_name s, lvl)])) as [Hl' Hp'].
  split; [exact Hl'|]. etrans; [exact Hp'|]. unfold pending in Hp. rewrite Hl in Hp. rewrite Hp.
  by rewrite <-app_assoc.
Qed.

Lemma wrap64_small z : 0 ≤ z < 2 ^ 64 → wrap64 z = z.
Proof. apply Z.mod_small. Qed.

Lemma depth_eq a : depth a = S (max_list (map depth (children a))).
Proof. unfold depth at 1. by rewrite abi_fold_eq. Qed.

Lemma depth_children a c : c ∈ children a → (depth c < depth a)%nat.
Proof.
  intros Hc. rewrite (depth_eq a). apply Nat.lt_succ_r.
  by apply max_list_elem_of_le, (list_elem_of_fmap_2 depth).
Qed.

Lemma scans_print a :
  plain_names a = true →
  ∀ lvl T, 0 ≤ lvl → lvl + Z.of_nat (depth a) < 2 ^ 64 →
  scans lvl T (print_abi a) (tokens_of a lvl).
Proof.
  induction a as [a IH] using abi_tree_ind. intros Hn lvl T Hlvl Hd.
  pose proof (plain_names_eq _ Hn) as [_ Hns]. rewrite print_abi_eq, tokens_of_eq.
  unfold scans. rewrite fold_left_app, scan_label by done.
  destruct (is_atomic a) eqn:Ha.
  - destruct (label_atomic a Ha) as (_ & build & _ & _ & Hc). rewrite Hc. simpl.
    split; [done|]. unfold pending. simpl. by rewrite live_app, label_nonempty.
  - cbn [fold_left]. change (scan_char _ 40) with (push_token (wrap64 (lvl + 1))
      (mkScan lvl T (abi_get_name a) (type_label a))).
    rewrite wrap64_small by (pose proof (depth_eq a); lia).
    unfold push_token. cbn [scan_tokens scan_field scan_name scan_lvl]. rewrite fold_left_app.
    destruct (scans_join (lvl + 1) (children a)) with (T := T ++ [(type_label a, abi_get_name a, lvl)])
      as [Hl Hp].
    { rewrite Forall_forall in IH, Hns |- *. intros c Hc T'. apply IH; [done|by apply Hns|lia|].
      pose proof (depth_children a c Hc). lia. }
    set (s := fold_left scan_char (join _) _) in *. cbn [fold_left].
    change (scan_char s 41) with (push_token (wrap64 (scan_lvl s - 1)) s). unfold push_token.
    rewrite Hl, wrap64_small by lia. cbn [scan_tokens scan_field scan_name scan_lvl].
    split; [simpl; lia|]. unfold pending in *. cbn [scan_tokens scan_field scan_name scan_lvl].
    rewrite Hl in Hp. rewrite live_app, Hp, live_app, label_nonempty. simpl.
    by rewrite app_nil_r, <-app_assoc.
Qed.

Lemma utf8_ascii l : Forall (λ c, 0 ≤ c < 128) l → utf8_valid l = true.
Proof. induction 1 as [|c l Hc _ IH]; [done|]. simpl. by rewrite (proj2 (Z.ltb_lt c 128)) by lia. Qed.

Lemma plain_ascii l : forallb plain l = true → Forall (λ c, 0 ≤ c < 128) l.
Proof.
  rewrite forallb_forall. intros Hl. apply Forall_forall. intros c Hc%list_elem_of_In.
  specialize (Hl c Hc). unfold plain in Hl. apply andb_prop in Hl as [Hl _].
  apply andb_prop in Hl. lia.
Qed.

Lemma join_Forall (P : Z → Prop) l : P 44 → Forall (Forall P) l → Forall P (join l).
Proof.
  intros H44. induction 1 as [|x l Hx Hl IH]; [constructor|].
  destruct l; [done|]. simpl in *. apply Forall_app. by split; [|constructor].
Qed.

Lemma print_ascii a : plain_names a = true → Forall (λ c, 0 ≤ c < 128) (print_abi a).
Proof.
  induction a as [a IH] using abi_tree_ind. intros [Hn Hns]%plain_names_eq.
  rewrite print_abi_eq. unfold print_label. rewrite !Forall_app. split_and!.
  - destruct (abi_get_name a); [|constructor]. apply Forall_app. split; [by apply plain_ascii|].
    repeat constructor; lia.
  - apply plain_ascii, label_plain.
  - destruct (is_atomic a); [constructor|]. constructor; [lia|]. apply Forall_app.
    split; [|repeat constructor; lia]. apply join_Forall; [lia|].
    rewrite Forall_fmap. rewrite Forall_forall in *. intros c Hc. by apply IH, Hns.
Qed.

(** The tokens of a printed type that is not atomic. *)
Lemma print_tokens a :
  plain_names a = true → is_atomic a = false → Z.of_nat (depth a) < 2 ^ 64 →
  parse_descriptor_flat (print_abi a) = ROk (tokens_of a 0).
Proof.
  intros Hn Ha Hd. unfold parse_descriptor_flat. rewrite utf8_ascii by by apply print_ascii.
  f_equal. destruct (scans_print a Hn 0 []) as [_ Hp]; [lia|lia|]. simpl in Hp. rewrite <-Hp.
  set (s := fold_left _ _ _). unfold pending. rewrite live_app.
  assert (live [(scan_field s, scan_name s, scan_lvl s)] = []) as ->; [|by rewrite app_nil_r].
  subst s. rewrite print_abi_eq, Ha, app_comm_cons, app_assoc, fold_left_app. reflexivity.
Qed.

(** ** Parsing the tokens *)

Lemma forallb_map {T U} (f : U → bool) (g : T → U) l : forallb f (map g l) = forallb (λ x, f (g x)) l.
Proof. induction l; simpl; congruence. Qed.

Lemma nesting_eq a :
  closed a = negb (is_variadic a) && forallb closed (children a) ∧
  tail_nested a = forallb closed (removelast (children a))
                  && match last (children a) with Some c => tail_nested c | None => true end.
Proof.
  unfold closed, tail_nested, nesting. rewrite abi_fold_eq. cbn [fst snd].
  set (g := abi_fold _). split.
  - f_equal. by rewrite forallb_map.
  - f_equal.
    + generalize (children a). intros l. induction l as [|x [|y l] IH]; [done..|].
      change (forallb fst (g x :: removelast (map g (y :: l)))
              = forallb (λ c, (g c).1) (x :: removelast (y :: l))).
      cbn [forallb]. f_equal. exact IH.
    + rewrite fmap_last. by destruct (last (children a)).
Qed.

Lemma closed_inv a :
  closed a = true → is_variadic a = false ∧ Forall (λ c, closed c = true) (children a).
Proof.
  rewrite (proj1 (nesting_eq a)). intros [Hv Hc]%andb_prop. split; [by apply negb_true_iff|].
  apply Forall_forall. intros c Hin%list_elem_of_In. rewrite forallb_forall in Hc. by apply Hc.
Qed.

Lemma tail_nested_inv a :
  tail_nested a = true →
  children a = [] ∨
  ∃ l c, children a = l ++ [c] ∧ Forall (λ c, closed c = true) l ∧ tail_nested c = true.
Proof.
  rewrite (proj2 (nesting_eq a)). intros [Hl Hc]%andb_prop.
  destruct (children a) as [|x l _] using rev_ind; [by left|right].
  rewrite removelast_last in Hl. rewrite last_snoc in Hc. eexists _, _. split; [done|]. split; [|done].
  apply Forall_forall. intros y Hin%list_elem_of_In. rewrite forallb_forall in Hl. by apply Hl.
Qed.

(** Fields that are each parsed whatever follows. *)
Lemma parse_fields_closed parse lvl fields rest :
  Forall (λ c, ∀ rest, parse (tokens_of c lvl ++ rest) = ROk (c, rest)) fields →
  parse_fields parse (length fields) (flat_map (λ c, tokens_of c lvl) fields ++ rest)
  = ROk (fields, rest).
Proof.
  induction 1 as [|c fields Hc _ IH]; [done|]. cbn [flat_map length parse_fields].
  rewrite <-app_assoc, Hc. by rewrite IH.
Qed.

Lemma parse_fields_tail parse lvl fields c :
  Forall (λ c, ∀ rest, parse (tokens_of c lvl ++ rest) = ROk (c, rest)) fields →
  parse (tokens_of c lvl) = ROk (c, []) →
  parse_fields parse (length (fields ++ [c])) (flat_map (λ c, tokens_of c lvl) (fields ++ [c]))
  = ROk (fields ++ [c], []).
Proof.
  intros Hf Hc. induction Hf as [|x fields Hx _ IH].
  - simpl. by rewrite app_nil_r, Hc.
  - cbn [flat_map length parse_fields app]. rewrite Hx. by rewrite IH.
Qed.

Lemma parse_while_tail parse lvl fields c n :
  Forall (λ c, ∀ rest, parse (tokens_of c lvl ++ rest) = ROk (c, rest)) fields →
  parse (tokens_of c lvl) = ROk (c, []) →
  (length fields < n)%nat →
  parse_while parse lvl n (flat_map (λ c, tokens_of c lvl) (fields ++ [c])) = ROk (fields ++ [c], []).
Proof.
  intros Hf Hc. revert n. induction Hf as [|x fields Hx _ IH]; intros [|n] Hn; simpl in Hn; try lia.
  - simpl. rewrite app_nil_r, Hc. rewrite tokens_of_eq. cbn [token_lvl snd].
    rewrite Z.ltb_irrefl. by destruct n.
  - cbn [flat_map app]. specialize (Hx (flat_map (λ c, tokens_of c lvl) (fields ++ [c]))).
    rewrite tokens_of_eq in Hx |- *. cbn [parse_while app token_lvl snd] in *.
    rewrite Z.ltb_irrefl, Hx. by rewrite IH by lia.
Qed.

Lemma parse_atomic d a lvl rest :
  is_atomic a = true → from_parsed_descriptor (S d) (tokens_of a lvl ++ rest) = ROk (a, rest).
Proof.
  intros Ha. destruct (label_atomic a Ha) as (Hv & build & Hb & Hbuild & Hc).
  rewrite tokens_of_eq, Hc. simpl. cbn [token_field token_name fst snd].
  by rewrite Hv, Hb, Hbuild.
Qed.

Lemma parse_fixed d a lvl l rest :
  is_variadic a = false → is_atomic a = false →
  parse_fields (from_parsed_descriptor d) (length (children a)) l = ROk (children a, rest) →
  from_parsed_descriptor (S d) ((type_label a, abi_get_name a, lvl) :: l) = ROk (a, rest).
Proof.
  intros Hv Ha Hp. destruct (label_fixed a Hv Ha) as (Hl1 & Hl2 & Hl3 & Hl4). simpl.
  cbn [token_field token_name fst snd]. by rewrite Hl1, Hl2, Hl3, Hp, Hl4.
Qed.

(** A type without fields of any number is read whatever follows it. *)
Lemma parse_closed a :
  closed a = true → ∀ d lvl rest, (depth a ≤ d)%nat →
  from_parsed_descriptor d (tokens_of a lvl ++ rest) = ROk (a, rest).
Proof.
  induction a as [a IH] using abi_tree_ind. intros [Hv Hcs]%closed_inv d lvl rest Hd.
  rewrite depth_eq in Hd. destruct d as [|d]; [lia|].
  destruct (is_atomic a) eqn:Ha; [by apply parse_atomic|].
  rewrite tokens_of_eq. cbn [app]. apply parse_fixed; [done..|].
  apply parse_fields_closed. rewrite Forall_forall in *. intros c Hc rest'.
  apply IH; [done|by apply Hcs|].
  pose proof (depth_children a c Hc) as Hdc. rewrite (depth_eq a) in Hdc. lia.
Qed.

Lemma tokens_length lvl fields :
  (length fields ≤ length (flat_map (λ c, tokens_of c lvl) fields))%nat.
Proof.
  induction fields as [|c fields IH]; [done|]. cbn [flat_map length]. rewrite length_app, tokens_of_eq.
  simpl. lia.
Qed.

(** The fields of such a type, at the next level. *)
Definition field_parsed (d : nat) (c : Abi) : Prop :=
  from_parsed_descriptor d (tokens_of c (Z.of_nat (S MAX_DEPTH - d))) = ROk (c, []).
Definition field_parsed_in (d : nat) (c : Abi) : Prop :=
  ∀ rest, from_parsed_descriptor d (tokens_of c (Z.of_nat (S MAX_DEPTH - d)) ++ rest) = ROk (c, rest).

Lemma fields_parsed a d l c :
  Forall (λ a, tail_nested a = true → ∀ d, (depth a ≤ d ≤ S MAX_DEPTH)%nat → field_parsed d a)
    (children a) →
  (depth a ≤ S d ≤ S MAX_DEPTH)%nat → children a = l ++ [c] →
  Forall (λ c, closed c = true) l → tail_nested c = true →
  Forall (field_parsed_in d) l ∧ field_parsed d c.
Proof.
  intros IH Hd Hc Hl Htc. rewrite Forall_forall in *. split.
  - intros x Hx rest. apply parse_closed; [by apply Hl|].
    assert (x ∈ children a) as Hin by (rewrite Hc; set_solver).
    pose proof (depth_children a x Hin). lia.
  - assert (c ∈ children a) as Hin by (rewrite Hc; set_solver).
    pose proof (depth_children a c Hin). apply IH; [done|done|lia].
Qed.

(** A type whose fields of any number come last is read to the end. *)
Lemma parse_tail_nested a :
  tail_nested a = true → ∀ d, (depth a ≤ d ≤ S MAX_DEPTH)%nat → field_parsed d a.
Proof.
  induction a as [a IH] using abi_tree_ind. intros Ht [|d] Hd; [rewrite depth_eq in Hd; lia|].
  unfold field_parsed. destruct (is_atomic a) eqn:Ha.
  { rewrite <-(app_nil_r (tokens_of _ _)). by apply parse_atomic. }
  rewrite tokens_of_eq.
  replace (Z.of_nat (S MAX_DEPTH - S d) + 1) with (Z.of_nat (S MAX_DEPTH - d)) by lia.
  destruct (is_variadic a) eqn:Hv.
  - destruct (label_variadic a Hv) as (build & Hb & Hbuild).
    cbn [from_parsed_descriptor token_field token_name fst snd]. rewrite Hb.
    replace (Z.of_nat (MAX_DEPTH - d + 1)) with (Z.of_nat (S MAX_DEPTH - d)) by lia.
    destruct (tail_nested_inv a Ht) as [Hc|(l & c & Hc & Hl & Htc)].
    + rewrite Hc. simpl. by rewrite <-Hc, Hbuild.
    + destruct (fields_parsed a d l c IH Hd Hc Hl Htc) as [Hpl Hpc]. rewrite Hc.
      rewrite parse_while_tail; [by rewrite <-Hc, Hbuild|done|done|].
      eapply Nat.lt_le_trans; [|apply tokens_length]. rewrite length_app. simpl. lia.
  - apply parse_fixed; [done..|].
    destruct (tail_nested_inv a Ht) as [Hc|(l & c & Hc & Hl & Htc)]; [by rewrite Hc|].
    destruct (fields_parsed a d l c IH Hd Hc Hl Htc) as [Hpl Hpc]. rewrite Hc.
    by apply parse_fields_tail.
Qed.

(** ** Round trip *)

(** C33: The descriptor of a type reads back as that type, when the type is not
    atomic, a type with any number of fields is the last field of its parent,
    and there are at most eleven levels. *)
Theorem descriptor_roundtrip a :
  plain_names a = true → is_atomic a = false → tail_nested a = true → (depth a ≤ S MAX_DEPTH)%nat →
  abi_try_from (print_abi a) = ROk a.
Proof.
  intros Hn Ha Ht Hd. unfold abi_try_from. rewrite print_tokens by (done || unfold MAX_DEPTH in *; lia).
  pose proof (parse_tail_nested a Ht (S MAX_DEPTH) (conj Hd (Nat.le_refl _))) as Hp.
  unfold field_parsed in Hp. change (Z.of_nat (S MAX_DEPTH - S MAX_DEPTH)) with 0 in Hp. by rewrite Hp.
Qed.

(** The descriptor of an atomic type is refused: its only token is never
    followed by a separator. *)
Lemma atomic_descriptor_refused a :
  plain_names a = true → is_atomic a = true →
  abi_try_from (print_abi a)
  = RErr (Other "CrossCodec::from_parsed_descriptor_recursive: no more fields").
Proof.
  intros Hn Ha. unfold abi_try_from, parse_descriptor_flat.
  rewrite utf8_ascii by by apply print_ascii. rewrite print_abi_eq, Ha, app_nil_r.
  by rewrite scan_label.
Qed.

(** ** Fields after a nested type *)

Lemma parse_while_closed d max (l : list (Abi * Z)) n :
  Forall (λ p, closed p.1 = true ∧ (depth p.1 ≤ d)%nat ∧ p.2 ≤ max) l → (length l ≤ n)%nat →
  parse_while (from_parsed_descriptor d) max n (flat_map (λ p, tokens_of p.1 p.2) l)
  = ROk (map fst l, []).
Proof.
  intros Hl. revert n. induction Hl as [|[c lvl] l (Hc & Hd & Hmax) _ IH]; intros n Hn.
  { by destruct n. }
  destruct n as [|n]; simpl in Hn; [lia|]. simpl in Hc, Hd, Hmax.
  cbn [flat_map map fst snd].
  pose proof (parse_closed c Hc d lvl (flat_map (λ p, tokens_of p.1 p.2) l) Hd) as Hp.
  rewrite tokens_of_eq in Hp |- *. cbn [parse_while app token_lvl snd] in *.
  rewrite (proj2 (Z.ltb_ge max lvl)) by done. rewrite Hp. by rewrite IH by lia.
Qed.

Definition at_level (lvl : Z) (fields : list Abi) : list (Abi * Z) := map (λ c, (c, lvl)) fields.

Lemma at_level_tokens lvl fields :
  flat_map (λ p, tokens_of p.1 p.2) (at_level lvl fields) = flat_map (λ c, tokens_of c lvl) fields.
Proof. unfold at_level. by rewrite !flat_map_concat_map, map_map. Qed.

Lemma parse_struct d m lvl l fields rest :
  parse_while (from_parsed_descriptor d) (Z.of_nat (MAX_DEPTH - d + 1)) (length l) l
  = ROk (fields, rest) →
  from_parsed_descriptor (S d) ((bytes_of "Struct", m, lvl) :: l) = ROk (AStruct m fields, rest).
Proof.
  intros Hp. cbn [from_parsed_descriptor token_field token_name fst snd].
  change (variadic (bytes_of "Struct")) with (Some AStruct). by rewrite Hp.
Qed.

Lemma at_level_fst lvl fields : map fst (at_level lvl fields) = fields.
Proof. unfold at_level. rewrite map_map. apply map_id. Qed.

(** The tokens of the fields of a nested structure, then those of the fields
    that follow it. *)
Lemma nested_struct_parsed m fields later :
  Forall (λ c, closed c = true ∧ (depth c ≤ 9)%nat) (fields ++ later) →
  from_parsed_descriptor MAX_DEPTH
    (tokens_of (AStruct m fields) 1 ++ flat_map (λ c, tokens_of c 1) later)
  = ROk (AStruct m (fields ++ later), []).
Proof.
  intros Hall. apply Forall_app in Hall as [Hf Hl].
  rewrite tokens_of_eq. cbn [app children type_label abi_get_name].
  rewrite <-!at_level_tokens, <-flat_map_app. apply (parse_struct 9).
  rewrite parse_while_closed; [by rewrite map_app, !at_level_fst|..].
  - unfold at_level. rewrite Forall_app, !Forall_fmap. unfold compose. simpl.
    split; [eapply Forall_impl; [exact Hf|]|eapply Forall_impl; [exact Hl|]]; simpl;
      intros c []; (split_and!; [done..|lia]).
  - rewrite flat_map_app, !at_level_tokens, !length_app. unfold at_level. rewrite !length_map.
    pose proof (tokens_length (1 + 1) fields). pose proof (tokens_length 1 later). lia.
Qed.

Lemma max_list_le n l : Forall (λ x, (x ≤ n)%nat) l → (max_list l ≤ n)%nat.
Proof. induction 1; simpl; lia. Qed.

(** In the descriptor of a structure, the fields written after a nested
    structure are read as fields of the nested one. *)
Theorem nested_struct_absorbs n m fields later :
  plain_names (AStruct n (AStruct m fields :: later)) = true →
  Forall (λ c, closed c = true ∧ (depth c ≤ 9)%nat) (fields ++ later) →
  abi_try_from (print_abi (AStruct n (AStruct m fields :: later)))
  = ROk (AStruct n [AStruct m (fields ++ later)]).
Proof.
  intros Hn Hall. unfold abi_try_from. rewrite print_tokens; [|done|done|].
  - rewrite tokens_of_eq. cbn [children type_label abi_get_name flat_map].
    pose proof (nested_struct_parsed m fields later Hall) as Hp.
    erewrite (parse_struct 10); [reflexivity|]. change (0 + 1) with 1.
    rewrite tokens_of_eq in Hp |- *. cbn [app length parse_while token_lvl snd] in *.
    change (Z.of_nat (MAX_DEPTH - 10 + 1) <? 1) with false. cbv iota.
    change MAX_DEPTH with 10%nat in Hp. rewrite Hp. by destruct (length _).
  - rewrite depth_eq. cbn [children map max_list]. rewrite (depth_eq (AStruct m fields)). cbn [children].
    assert (∀ l, Forall (λ c, closed c = true ∧ (depth c ≤ 9)%nat) l → (max_list (map depth l) ≤ 9)%nat)
      as Hmax.
    { intros l Hl. apply max_list_le, Forall_fmap. eapply Forall_impl; [exact Hl|]. by intros c []. }
    apply Forall_app in Hall as [Hf Hl]. pose proof (Hmax _ Hf). pose proof (Hmax _ Hl). simpl. lia.
Qed.
