(* ===== verification/AbiProps.v ===== *)
(** * Side effect interfaces: validation of the received events

    When [validate_arguments_against_received] accepts an event for the
    arguments of a side effect: of a transfer on a Substrate chain, and of a token
    transfer on an Ethereum chain; and how tuples are filled. *)

From S2P Require Import Prelude Types World Orders StandardAbi Abi AbiFill AbiRecode AbiParse.

(** ** Filling and recoding: facts

    What the parts of [AbiFill] and [AbiRecode] compute on data of the declared
    layout: a SCALE payload of a structure, the topics and the data of a log whose
    fields are words of 32 bytes, and the validation of arguments. *)

(** A word. *)
Abbreviation is_hash w := (length w = 32%nat).

Section Facts.
Context `{RlpLib}.

(** ** Structures in SCALE *)

(** Atomic types and structures of them. *)
Definition flat_layout : Abi → bool :=
  abi_fold (λ a l,
    match a with
    | AStruct _ _ | AEvent _ _ => forallb id l
    | _ => is_atomic a
    end).

Definition sizes (fields : list Abi) : nat := foldr Nat.add 0%nat (map get_size fields).

Lemma flat_layout_cases a :
  flat_layout a = true →
  is_atomic a = true ∨
  ((∃ n fields, a = AStruct n fields ∨ a = AEvent n fields) ∧
   Forall (λ c, flat_layout c = true) (children a)).
Proof.
  unfold flat_layout at 1. rewrite abi_fold_eq.
  assert (∀ l, forallb id (map flat_layout l) = true → Forall (λ c, flat_layout c = true) l) as Hl.
  { intros l Hl. rewrite forallb_map in Hl. apply Forall_forall. intros c Hc%list_elem_of_In.
    rewrite forallb_forall in Hl. by apply Hl. }
  destruct a; intros Ha; first [by left | right; split; [by eauto|by apply Hl]].
Qed.

Lemma chop_fields_app f fields d rest :
  length d = get_size f →
  chop_fields (f :: fields) (d ++ rest)
  = match chop_fields fields rest with ROk l => ROk (d :: l) | RErr e => RErr e end.
Proof.
  intros Hd. cbn [chop_fields]. rewrite length_app, <-Hd.
  rewrite (proj2 (Nat.leb_le _ _)) by lia. by rewrite drop_app_length, take_app_length.
Qed.

(** An atomic type takes exactly the bytes of its size. *)
Lemma fill_atomic a data :
  is_atomic a = true → length data = get_size a →
  ∃ f, recursive_fill_abi Scale a data tt = Ok (f, length data) tt ∧ get_data f = data ∧
       filled_name f = abi_get_name a.
Proof.
  intros Ha Hd. assert (∀ k, length data = k → take k data = data) as Htake
    by (intros k Hk; apply take_ge; lia).
  destruct a; try discriminate; simpl in Hd; cbn [recursive_fill_abi];
    unfold ensure, first_byte_of, mbind, M_bind, mret, M_ret; rewrite ?Hd; cbn [Nat.eqb Nat.leb];
    rewrite ?Hd; cbn [Nat.eqb Nat.leb];
    try (eexists; split; [reflexivity|split; [simpl; by rewrite ?Htake|done]]);
    destruct data as [|b [|]]; try discriminate; eexists; (split; [reflexivity|done]).
Qed.

(** The arguments of a list of fields: each has the size of its field. *)
Definition args_fit : list Abi → list (list Z) → Prop :=
  Forall2 (λ f arg, length arg = get_size f).

Lemma chop_args fields args rest :
  args_fit fields args → chop_fields fields (concat args ++ rest) = ROk args.
Proof.
  induction 1 as [|f arg fields args Hf _ IH]; [done|]. cbn [concat].
  rewrite <-app_assoc, chop_fields_app by done. by rewrite IH.
Qed.

Lemma chop_args_exact fields args : args_fit fields args → chop_fields fields (concat args) = ROk args.
Proof. intros Hf. rewrite <-(app_nil_r (concat args)). by apply chop_args. Qed.

Lemma chop_short fields args :
  args_fit fields args → concat args ≠ [] →
  chop_fields fields (drop 1 (concat args))
  = RErr (Other "RecodeScale::chop_encoded - not enough data to decode").
Proof.
  intros Hf. assert (∀ data, (length data < length (concat args))%nat →
    chop_fields fields data = RErr (Other "RecodeScale::chop_encoded - not enough data to decode")) as Hs.
  { induction Hf as [|f arg fields args Hl _ IH]; intros data Hd; simpl in Hd; [lia|].
    rewrite length_app in Hd. cbn [chop_fields]. destruct (Nat.leb_spec (get_size f) (length data)); [|done].
    rewrite IH by (rewrite length_drop; lia). done. }
  intros Hne. apply Hs. rewrite length_drop. destruct (concat args); [done|simpl; lia].
Qed.

(** [a] is filled with any [data] of its size, and keeps it. *)
Definition fills (a : Abi) : Prop :=
  ∀ data, length data = get_size a →
  ∃ f n, recursive_fill_abi Scale a data tt = Ok (f, n) tt ∧ get_data f = data ∧
         filled_name f = abi_get_name a.

Lemma fill_fields_cons fill f fields d l x n fs k :
  fill f d tt = Ok (x, n) tt → fill_fields fill fields l tt = Ok (fs, k) tt →
  fill_fields fill (f :: fields) (d :: l) tt = Ok (x :: fs, n + k)%nat tt.
Proof.
  intros Hx Hfs.
  change (fill_fields fill (f :: fields) (d :: l))
    with ('(field, size) ← fill f d; '(rest, total) ← fill_fields fill fields l;
          mret (M:=M unit DispatchError) (field :: rest, size + total)%nat).
  rewrite (bind_Ok _ _ _ _ _ Hx). by rewrite (bind_Ok _ _ _ _ _ Hfs).
Qed.

Lemma fill_fields_args fields args :
  Forall fills fields → args_fit fields args →
  ∃ fs n, fill_fields (recursive_fill_abi Scale) fields args tt = Ok (fs, n) tt ∧
          map get_data fs = args ∧ map filled_name fs = map abi_get_name fields.
Proof.
  intros Hfields Hargs. induction Hargs as [|f arg fields args Hf _ IH]; [by eexists _, _|].
  apply Forall_cons in Hfields as [Hfill Hfields].
  destruct (Hfill arg Hf) as (x & n & Hx & Hdx & Hnx).
  destruct (IH Hfields) as (fs & n' & Hfs & Hd & Hn).
  exists (x :: fs), (n + n')%nat. split; [|simpl; split; congruence].
  by apply fill_fields_cons.
Qed.

Lemma sizes_args fields data :
  length data = sizes fields → ∃ args, data = concat args ∧ args_fit fields args.
Proof.
  revert data. induction fields as [|f fields IH]; intros data Hd; unfold sizes in Hd; simpl in Hd.
  - exists []. destruct data; [split; [done|constructor]|discriminate].
  - destruct (IH (drop (get_size f) data)) as (args & Hargs & Hfit).
    { rewrite length_drop, Hd. unfold sizes. lia. }
    exists (take (get_size f) data :: args). simpl. rewrite <-Hargs, take_drop.
    split; [done|]. constructor; [rewrite length_take; lia|done].
Qed.

Lemma flat_concat {T} (g : T → list Z) l : flat_map g l = concat (map g l).
Proof. apply flat_map_concat_map. Qed.

(** A structure: the first byte is its prefix. *)
Lemma fill_struct n fields prefix args :
  Forall fills fields → args_fit fields args →
  ∃ fs k, recursive_fill_abi Scale (AStruct n fields) (prefix :: concat args) tt
          = Ok (FStruct n fs prefix, k) tt ∧
          map get_data fs = args ∧ map filled_name fs = map abi_get_name fields.
Proof.
  intros Hfields Hargs. destruct (fill_fields_args fields args Hfields Hargs) as (fs & k & Hfs & ? & ?).
  exists fs, k. split; [|done]. cbn [recursive_fill_abi chop_encoded chop_encoded_scale].
  unfold mbind, M_bind, lift_result, mret, M_ret. rewrite chop_args_exact by done.
  by rewrite Hfs.
Qed.

Lemma fill_layout a : flat_layout a = true → fills a.
Proof.
  induction a as [a IH] using abi_tree_ind. intros Ha data Hd.
  destruct (flat_layout_cases a Ha) as [Hat|[(n & fields & Hs) Hc]].
  { destruct (fill_atomic a data Hat Hd) as (f & Hf & ? & ?). eauto. }
  assert (children a = fields ∧ get_size a = S (sizes fields) ∧ abi_get_name a = n ∧
    recursive_fill_abi Scale a = recursive_fill_abi Scale (AStruct n fields)) as (Hch & Hsz & Hn & Heq)
    by (destruct Hs as [->| ->]; done).
  rewrite Hch in IH, Hc. destruct data as [|prefix data]; [by rewrite Hsz in Hd|].
  rewrite Hsz in Hd. injection Hd as Hd. destruct (sizes_args fields data Hd) as (args & -> & Hfit).
  destruct (fill_struct n fields prefix args) as (fs & k & Hf & Hg & Hnames); [|done|].
  { rewrite Forall_forall in *. intros c Hin. by apply IH, Hc. }
  rewrite Heq. exists (FStruct n fs prefix), k. split; [done|]. split; [|done].
  simpl. by rewrite flat_concat, Hg.
Qed.

(** A SCALE payload of the declared size is cut along the interface without
    loss. *)
Theorem scale_payload_kept a data :
  flat_layout a = true → length data = get_size a →
  ∃ f, try_fill_abi a data Scale tt = Ok f tt ∧ get_data f = data.
Proof.
  intros Ha Hd. destruct (fill_layout a Ha data Hd) as (f & n & Hf & Hg & _).
  exists f. split; [|done]. unfold try_fill_abi. by erewrite bind_Ok by exact Hf.
Qed.

(** Arguments of the declared sizes are accepted by
    [validate_ordered_arguments] exactly when the interface has a prefix, which
    nothing but [set_prefix_memo] sets; each field then holds its argument. *)
Theorem ordered_arguments_need_prefix s n fields args :
  abi_try_from (get_expected_egress_descriptor s Scale) = ROk (AStruct n fields) →
  forallb flat_layout fields = true → args_fit fields args → concat args ≠ [] →
  ensure_arguments_order s args = ROk tt →
  match maybe_prefix_memo s with
  | Some prefix =>
      ∃ fs, validate_ordered_arguments s args Scale tt = Ok (FStruct n fs prefix) tt ∧
            map get_data fs = args ∧ map filled_name fs = map abi_get_name fields
  | None =>
      validate_ordered_arguments s args Scale tt
      = Err (Other "RecodeScale::chop_encoded - not enough data to decode") tt
  end.
Proof.
  intros Habi Hl Hfit Hne Hord. unfold validate_ordered_arguments.
  rewrite (bind_Ok _ _ tt tt tt) by (by unfold lift_result; rewrite Hord).
  rewrite (bind_Ok _ _ tt (AStruct n fields) tt) by (by unfold lift_result; rewrite Habi).
  destruct (maybe_prefix_memo s) as [prefix|]; cbn [app].
  - destruct (fill_struct n fields prefix args) as (fs & k & Hf & ? & ?); [|done|].
    { rewrite forallb_forall in Hl. apply Forall_forall. intros c Hc%list_elem_of_In.
      by apply fill_layout, Hl. }
    exists fs. split; [|done]. unfold try_fill_abi. by erewrite bind_Ok by exact Hf.
  - unfold try_fill_abi. pose proof (chop_short fields args Hfit Hne) as Hs.
    destruct (concat args) as [|b l]; [done|]. cbn [drop] in Hs. rewrite drop_0 in Hs.
    cbn [recursive_fill_abi chop_encoded chop_encoded_scale].
    unfold mbind, M_bind, lift_result. by rewrite Hs.
Qed.

(** ** Logs of words *)

(** The field of one word of 32 bytes, for the types that have one, when its
    value has their width. *)
Definition word_filled (a : Abi) (w : list Z) : option FilledAbi :=
  let uint (build : list Z → FilledAbi) n max :=
    if from_be_bytes w <=? max then Some (build (rlp_encode_uint n (from_be_bytes w))) else None in
  match a with
  | AAccount20 n => Some (FAccount20 n (drop 12 w))
  | AH256 n | AAccount32 n => Some (FH256 n w)
  | ABytes4 n => Some (FBytes4 n (take 4 w))
  | AValue256 n => Some (FValue256 n w)
  | AValue128 n => uint (FValue128 n) 16%nat u128_max
  | AValue64 n => uint (FValue64 n) 8%nat u64_max
  | AValue32 n => uint (FValue32 n) 4%nat u32_max
  | AByte n | ABool n => Some (FByte n (drop 31 w))
  | _ => None
  end.

Lemma decode_word a w pre f :
  is_hash w → word_filled a w = Some f →
  decode_topics_as_rlp a (pre ++ w) tt = Ok (f, 32%nat) tt.
Proof.
  intros Hw Hf.
  assert (drop (length (pre ++ w) - MINIMUM_INPUT_LENGTH) (pre ++ w) = w) as Hlast.
  { rewrite length_app, Hw. unfold MINIMUM_INPUT_LENGTH. rewrite Nat.add_sub. apply drop_app_length. }
  assert ((MINIMUM_INPUT_LENGTH <=? length (pre ++ w))%nat = true) as Hlen.
  { apply Nat.leb_le. rewrite length_app, Hw. unfold MINIMUM_INPUT_LENGTH. lia. }
  destruct a; try discriminate; cbn [decode_topics_as_rlp];
    unfold ensure, mbind, M_bind, mret, M_ret; rewrite Hlen, Hlast;
    simpl in Hf; unfold u256_to, mret, M_ret; repeat case_match; by simplify_eq.
Qed.

(** A field, its word and what it is filled with. *)
Definition WordField : Type := Abi * list Z * FilledAbi.
Definition word_abi (x : WordField) : Abi := x.1.1.
Definition word_of (x : WordField) : list Z := x.1.2.
Definition word_fill (x : WordField) : FilledAbi := x.2.
Definition word_ok (x : WordField) : Prop :=
  is_hash (word_of x) ∧ Forall is_byte (word_of x) ∧
  word_filled (word_abi x) (word_of x) = Some (word_fill x).

(** A field is among the topics when its name ends with [+]. *)
Definition in_topics (x : WordField) : bool :=
  bool_decide (last (default [43] (abi_get_name (word_abi x))) = Some 43).
Definition topic_words (l : list WordField) : list Z :=
  concat (map word_of (List.filter in_topics l)).
Definition data_words (l : list WordField) : list Z :=
  concat (map word_of (List.filter (λ x, negb (in_topics x)) l)).

Lemma map_reverse {T U} (g : T → U) (l : list T) : map g (reverse l) = reverse (map g l).
Proof. apply fmap_reverse. Qed.

Lemma truncate_word pre w : is_hash w → truncate_by 32 (pre ++ w) = pre.
Proof.
  intros Hw. unfold truncate_by. rewrite length_app, Hw.
  rewrite (proj2 (Nat.leb_le _ _)) by lia. by rewrite Nat.add_sub, take_app_length.
Qed.

Lemma log_fields_words l pt pd n :
  Forall word_ok l →
  log_fields_rev (map word_abi (reverse l)) (pt ++ topic_words l) (pd ++ data_words l) n tt
  = Ok (map word_fill (reverse l), n + 32 * length l)%nat tt.
Proof.
  revert n. induction l as [|x l IH] using rev_ind; intros n Hl.
  { simpl. by rewrite Nat.add_0_r. }
  apply Forall_app in Hl as [Hl Hx]. rewrite Forall_singleton in Hx. destruct Hx as (Hw & _ & Hf).
  rewrite reverse_snoc. cbn [map log_fields_rev]. specialize (IH (n + 32)%nat Hl).
  replace (n + 32 + 32 * length l)%nat with (n + 32 * length (l ++ [x]))%nat in IH
    by (rewrite length_app; simpl length; lia).
  set (k := (n + 32 * length (l ++ [x]))%nat) in *.
  unfold topic_words, data_words. rewrite !List.filter_app, !map_app, !concat_app. simpl.
  change (bool_decide (last (default [43] (abi_get_name (word_abi x))) = Some 43)) with (in_topics x).
  destruct (in_topics x); simpl; rewrite !app_nil_r, app_assoc;
    rewrite (bind_Ok _ _ _ _ _ (decode_word _ _ _ _ Hw Hf)), truncate_word by done;
    by rewrite (bind_Ok _ _ _ _ _ IH).
Qed.

Lemma log_filled data log n l pd :
  decode_eth_log data = Some log →
  concat (drop 1 (eth_log_topics log)) = topic_words l → eth_log_data log = pd ++ data_words l →
  Forall word_ok l →
  recursive_fill_abi Rlp (ALog n (map word_abi l)) data tt
  = Ok (FLog n (map word_fill l) 0, 32 * length l)%nat tt.
Proof.
  intros Hdec Ht Hd Hl. cbn [recursive_fill_abi]. unfold event_to_filled_rlp.
  rewrite Hdec. cbn [ok_or]. rewrite (bind_Ok _ _ tt log tt) by done.
  rewrite Ht, Hd, <-map_reverse.
  rewrite (bind_Ok _ _ _ _ _ (log_fields_words l [] pd 0 Hl)).
  unfold mret, M_ret. by rewrite <-map_reverse, reverse_involutive.
Qed.

(** The SCALE encoding of such a field. *)
Definition word_scale (x : WordField) : list Z :=
  let w := word_of x in
  match word_abi x with
  | AAccount20 _ => drop 12 w
  | ABytes4 _ => take 4 w
  | AValue256 _ => le_bytes 32 (from_be_bytes w)
  | AValue128 _ => le_bytes 16 (from_be_bytes w)
  | AValue64 _ => le_bytes 8 (from_be_bytes w)
  | AValue32 _ => le_bytes 4 (from_be_bytes w)
  | AByte _ | ABool _ => drop 31 w
  | _ => w
  end.

Lemma recode_uint_word `{!RlpLaws} n z e1 e2 :
  (n ≤ 16)%nat → 0 ≤ z < 256 ^ Z.of_nat n →
  recode_uint n e1 e2 Rlp Scale false (rlp_encode_uint n z) tt = Ok (le_bytes n z) tt.
Proof.
  intros Hn Hz. unfold recode_uint, ok_or. by rewrite rlp_uint_roundtrip.
Qed.

Lemma from_be_bytes_nonneg l : Forall is_byte l → 0 ≤ from_be_bytes l.
Proof.
  intros Hl%Forall_reverse. unfold from_be_bytes. induction Hl as [|b l' Hb _ IH]; simpl; [done|].
  unfold is_byte in Hb. lia.
Qed.

Lemma recode_word `{!RlpLaws} x :
  word_ok x → recode_as Rlp Scale false (word_fill x) tt = Ok (word_scale x) tt.
Proof.
  destruct x as [[a w] f]. intros (Hw & Hb & Hf). unfold word_of, word_abi, word_fill in *. simpl in *.
  unfold word_scale, word_of, word_abi. cbn [fst snd].
  pose proof (from_be_bytes_nonneg w Hb) as Hpos.
  destruct a; simpl in Hf; try discriminate; repeat case_match; simplify_eq; cbn [recode_as]; try done;
    try (apply recode_uint_word; [lia|]; unfold u128_max, u64_max, u32_max in *; simpl; lia).
  - unfold recode_account20, ensure. by rewrite length_drop, Hw.
  - unfold recode_hash, scale_fixed. by rewrite Hw, take_ge by lia.
  - unfold recode_hash, scale_fixed. by rewrite Hw, take_ge by lia.
  - unfold recode_bytes4. rewrite length_take, Hw. cbn. by rewrite take_idemp.
  - unfold recode_value256. by rewrite Hw.
Qed.

Lemma recode_all_cons recode f fields d rest :
  recode f tt = Ok d tt → recode_all recode fields tt = Ok rest tt →
  recode_all recode (f :: fields) tt = Ok (d ++ rest) tt.
Proof.
  intros Hd Hrest.
  change (recode_all recode (f :: fields))
    with (x ← recode f; y ← recode_all recode fields; mret (M:=M unit DispatchError) (x ++ y)).
  rewrite (bind_Ok _ _ _ _ _ Hd). by rewrite (bind_Ok _ _ _ _ _ Hrest).
Qed.

Lemma recode_words `{!RlpLaws} l :
  Forall word_ok l →
  recode_all (recode_as Rlp Scale false) (map word_fill l) tt = Ok (flat_map word_scale l) tt.
Proof.
  induction 1 as [|x l Hx _ IH]; [done|]. cbn [map flat_map].
  apply recode_all_cons; [by apply recode_word|done].
Qed.

(** ** Encoded logs *)

Definition hash_bytes (w : list Z) : Prop := is_hash w ∧ Forall is_byte w.

Definition eth_log_ok (log : Eth2IngressEventLog) : Prop :=
  length (eth_log_address log) = 20%nat ∧ Forall is_byte (eth_log_address log) ∧
  Forall hash_bytes (eth_log_topics log) ∧ Forall is_byte (eth_log_data log) ∧
  Z.of_nat (length (eth_log_data log) + 37 * length (eth_log_topics log)) < 2 ^ 31.

Lemma encoded_topics_length `{!RlpLaws} l :
  Forall hash_bytes l → (length (concat (map rlp_encode_bytes l)) ≤ 37 * length l)%nat.
Proof.
  induction 1 as [|w l [Hw _] _ IH]; [done|]. cbn [map concat]. rewrite length_app.
  pose proof (rlp_bytes_length w) as Hl. rewrite Hw in Hl. specialize (Hl eq_refl). simpl length. lia.
Qed.

Lemma encoded_log_items `{!RlpLaws} log :
  eth_log_ok log →
  let items := [rlp_encode_bytes (eth_log_address log);
                rlp_encode_list (map rlp_encode_bytes (eth_log_topics log));
                rlp_encode_bytes (eth_log_data log)] in
  short items ∧ Forall rlp_item items.
Proof.
  intros (Ha & Hab & Ht & Hd & Hs) items. split.
  - unfold short, items. cbn [concat]. rewrite !length_app.
    pose proof (rlp_bytes_length (eth_log_address log)) as H1. rewrite Ha in H1. specialize (H1 eq_refl).
    pose proof (rlp_bytes_length (eth_log_data log) ltac:(lia)).
    pose proof (encoded_topics_length _ Ht).
    assert (short (map rlp_encode_bytes (eth_log_topics log))) as Hts by (unfold short; lia).
    apply rlp_list_length in Hts.
    simpl length. lia.
  - repeat (apply Forall_cons; split); [left; eauto| |left; eauto|by apply Forall_nil].
    right. eexists. split; [|done]. eapply Forall_impl; [exact Ht|]. by intros w [].
Qed.

Lemma eth_log_roundtrip `{!RlpLaws} log :
  eth_log_ok log → decode_eth_log (encode_eth_log log) = Some log.
Proof.
  intros Hlog. pose proof (encoded_log_items log Hlog) as [Hshort Hitems].
  destruct Hlog as (Ha & Hab & Ht & Hd & Hs). unfold decode_eth_log, encode_eth_log.
  set (items := [_; _; _]) in *.
  rewrite (rlp_hash_roundtrip 20 items 0 (eth_log_address log)) by done. simpl.
  rewrite (rlp_hashes_roundtrip 32 items 1 (eth_log_topics log)) by done. simpl.
  rewrite (rlp_bytes_roundtrip items 2 (eth_log_data log)) by done. by destruct log.
Qed.

(** A log of Ethereum whose fields are words is recoded to the SCALE encoding
    of its fields in the order of the descriptor, after a zero byte.  The fields
    whose names end with [+] come from the topics after the first, the others
    from the end of the data. *)
Lemma evm_log_recoded `{!RlpLaws} descriptor n l log pd :
  abi_try_from descriptor = ROk (ALog n (map word_abi l)) → Forall word_ok l → eth_log_ok log →
  concat (drop 1 (eth_log_topics log)) = topic_words l → eth_log_data log = pd ++ data_words l →
  recode_bytes_with_descriptor (encode_eth_log log) descriptor Rlp Scale tt
  = Ok (0 :: flat_map word_scale l) tt.
Proof.
  intros Habi Hl Hlog Ht Hd. unfold recode_bytes_with_descriptor, try_fill_abi.
  rewrite (bind_Ok _ _ tt (ALog n (map word_abi l)) tt) by (by unfold lift_result; rewrite Habi).
  erewrite bind_Ok.
  2: { by rewrite (bind_Ok _ _ _ _ _ (log_filled _ log n l pd (eth_log_roundtrip log Hlog) Ht Hd Hl)). }
  cbn [recode_as]. by rewrite (bind_Ok _ _ _ _ _ (recode_words l Hl)).
Qed.

End Facts.

Abbreviation named s := (Some (bytes_of s)).

Section Props.
Context `{RlpLib}.

(** ** Transfers on Substrate *)

Definition transfer_event_abi : Abi :=
  AStruct (named "Balances")
    [AEvent (named "Transfer")
       [AAccount32 (named "from"); AAccount32 (named "to"); AValue128 (named "amount")]].

Lemma transfer_ingress_abi m :
  abi_try_from (get_expected_ingress_descriptor (set_prefix_memo m get_sfx_transfer_abi) Scale)
  = ROk transfer_event_abi.
Proof. vm_compute. reflexivity. Qed.

(** Filling a structure or an event, from its fields. *)
Lemma fill_struct_of n fields prefix args rest fs k :
  args_fit fields args →
  fill_fields (recursive_fill_abi Scale) fields args tt = Ok (fs, k) tt →
  recursive_fill_abi Scale (AStruct n fields) (prefix :: concat args ++ rest) tt
  = Ok (FStruct n fs prefix, k) tt.
Proof.
  intros Hfit Hfs. cbn [recursive_fill_abi chop_encoded chop_encoded_scale].
  unfold mbind, M_bind, lift_result, mret, M_ret. rewrite chop_args by done. by rewrite Hfs.
Qed.

Lemma fill_account32 n d :
  length d = 32%nat → recursive_fill_abi Scale (AAccount32 n) d tt = Ok (FAccount32 n d, 32%nat) tt.
Proof.
  intros Hd. cbn [recursive_fill_abi]. unfold ensure, mbind, M_bind, mret, M_ret. rewrite Hd.
  cbn [Nat.eqb]. by rewrite Hd.
Qed.

(** What the payload of a transfer is filled to: the sizes are 32, 32 and 16. *)
Lemma transfer_event_filled p ev from to amount rest :
  length from = 32%nat → length to = 32%nat → length amount = 16%nat →
  try_fill_abi transfer_event_abi (p :: (ev :: from ++ to ++ amount) ++ rest) Scale tt
  = Ok (FStruct (named "Balances")
          [FStruct (named "Transfer")
             [FAccount32 (named "from") from; FAccount32 (named "to") to;
              FValue128 (named "amount") amount] ev] p) tt.
Proof.
  intros Hf Ht Ha. unfold try_fill_abi.
  assert (length (ev :: from ++ to ++ amount) = 81%nat) as Hlen.
  { simpl length. rewrite !length_app, Hf, Ht, Ha. done. }
  replace ((ev :: from ++ to ++ amount) ++ rest)
    with (concat [ev :: from ++ to ++ amount] ++ rest) by (cbn [concat]; by rewrite app_nil_r).
  eassert (recursive_fill_abi Scale transfer_event_abi
             (p :: concat [ev :: from ++ to ++ amount] ++ rest) tt
           = Ok (FStruct _ [FStruct _ [_; _; _] ev] p, _) tt) as Hfill.
  { apply fill_struct_of; [constructor; [exact Hlen|constructor]|].
    apply fill_fields_cons; [|reflexivity].
    change (recursive_fill_abi Scale (AEvent ?n ?l)) with (recursive_fill_abi Scale (AStruct n l)).
    rewrite <-(app_nil_r (from ++ to ++ amount)).
    replace (from ++ to ++ amount) with (concat [from; to; amount]) by (simpl; by rewrite app_nil_r).
    apply fill_struct_of; [by repeat constructor|].
    apply fill_fields_cons; [by apply fill_account32|].
    apply fill_fields_cons; [by apply fill_account32|]. by apply fill_fields_cons. }
  by rewrite (bind_Ok _ _ _ _ _ Hfill).
Qed.

Lemma transfer_event_short payload :
  (length payload < 82)%nat →
  ∃ e, try_fill_abi transfer_event_abi payload Scale tt = Err e tt.
Proof.
  intros Hlen. unfold try_fill_abi, transfer_event_abi.
  destruct payload as [|p d]; [by eexists|].
  cbn [recursive_fill_abi chop_encoded chop_encoded_scale]. unfold mbind, M_bind, lift_result.
  cbn [chop_fields]. simpl length in Hlen. rewrite (proj2 (Nat.leb_gt _ _)); [by eexists|].
  simpl. lia.
Qed.

(** One argument that is to be verified. *)
Lemma validate_arg filled pc oc name names arg args field d :
  utf8_valid name = true → get_by_name name filled = Some field →
  recode_as pc oc true field tt = Ok d tt →
  validate_args filled pc oc ((name, true) :: names) (arg :: args) tt
  = if bool_decide (d = arg) then validate_args filled pc oc names args tt
    else Err (Other "SFXAbi::invalid payload argument for -- expected: doesn't match received and recoded") tt.
Proof.
  intros Hu Hg Hr. cbn [validate_args]. unfold ensure. rewrite Hu, Hg. cbn [ok_or].
  unfold mbind, M_bind, mret, M_ret. rewrite Hr. by destruct (bool_decide (d = arg)).
Qed.

Lemma transfer_args_checked p ev from to' amount' to amount :
  validate_args
    (FStruct (named "Balances")
       [FStruct (named "Transfer")
          [FAccount32 (named "from") from; FAccount32 (named "to") to';
           FValue128 (named "amount") amount'] ev] p) Scale Scale
    (args_names get_sfx_transfer_abi) [to; amount] tt = Ok tt tt ↔ to' = to ∧ amount' = amount.
Proof.
  cbn [args_names get_sfx_transfer_abi].
  rewrite (validate_arg _ _ _ _ _ _ _ (FAccount32 (named "to") to') to')
    by first [by vm_compute|done].
  rewrite (validate_arg _ _ _ _ _ _ _ (FValue128 (named "amount") amount') amount')
    by first [by vm_compute|done].
  cbn [validate_args]. repeat case_bool_decide; naive_solver.
Qed.

(** A payload is too short or has the parts of a transfer. *)
Lemma transfer_payload_parts (payload : list Z) :
  (82 ≤ length payload)%nat →
  ∃ p ev from to amount rest,
    payload = p :: (ev :: from ++ to ++ amount) ++ rest ∧
    length from = 32%nat ∧ length to = 32%nat ∧ length amount = 16%nat.
Proof.
  intros Hlen. destruct payload as [|p [|ev d]]; simpl in Hlen; [lia..|].
  exists p, ev, (take 32 d), (take 32 (drop 32 d)), (take 16 (drop 64 d)), (drop 80 d).
  split; [|rewrite !length_take, !length_drop; lia]. do 2 f_equal. cbn [app].
  rewrite <-!app_assoc. rewrite <-(take_drop 32 d) at 1. f_equal.
  rewrite <-(take_drop 32 (drop 32 d)) at 1. f_equal. rewrite drop_drop. change (32 + 32)%nat with 64%nat.
  rewrite <-(take_drop 16 (drop 64 d)) at 1. f_equal. by rewrite drop_drop.
Qed.

(** C32: An event of a Substrate chain confirms a transfer exactly when it has the
    prefix of the interface, then any byte, any sender, and the arguments; what
    follows is ignored.  The byte after the prefix is the index of the event in
    its pallet, which is not checked. *)
Theorem transfer_event_accepted_iff m to amount payload :
  validate_arguments_against_received (set_prefix_memo m get_sfx_transfer_abi) [to; amount] payload
    Scale Scale tt = Ok tt tt ↔
  ∃ ev from rest,
    payload = m :: (ev :: from ++ to ++ amount) ++ rest ∧
    length from = 32%nat ∧ length to = 32%nat ∧ length amount = 16%nat.
Proof.
  unfold validate_arguments_against_received. rewrite transfer_ingress_abi.
  split.
  - intros Hv. apply bind_Ok_inv in Hv as ([] & [] & Hord & Hv).
    apply bind_Ok_inv in Hv as (abi & [] & [= <-] & Hv).
    apply bind_Ok_inv in Hv as (filled & [] & Hfill & Hv).
    destruct (decide (82 ≤ length payload)%nat) as [Hlen|Hlen].
    2: { destruct (transfer_event_short payload) as [e He]; [lia|]. by rewrite He in Hfill. }
    destruct (transfer_payload_parts payload Hlen) as (p & ev & from & to' & am' & rest & -> & Hf & Ht & Ha).
    rewrite transfer_event_filled in Hfill by done. injection Hfill as <-.
    apply bind_Ok_inv in Hv as ([] & [] & Hm & Hv). apply transfer_args_checked in Hv as [-> ->].
    cbn in Hm. unfold ensure in Hm. case_bool_decide as Hp; [|done]. injection Hp as ->.
    by exists ev, from, rest.
  - intros (ev & from & rest & -> & Hf & Ht & Ha).
    rewrite (bind_Ok _ _ tt tt tt) by (by destruct to, amount).
    rewrite (bind_Ok _ _ tt transfer_event_abi tt) by done.
    rewrite (bind_Ok _ _ _ _ _ (transfer_event_filled m ev from to amount rest Hf Ht Ha)).
    rewrite (bind_Ok _ _ tt tt tt) by (cbn; by rewrite bool_decide_eq_true_2).
    by apply transfer_args_checked.
Qed.

(** ** Token transfers on Ethereum *)

(** [Transfer(from, to, amount)] with its three words. *)
Definition transfer_log_fields (from to amount : list Z) : list WordField :=
  [(AAccount20 (named "from+"), from, FAccount20 (named "from+") (drop 12 from));
   (AAccount20 (named "to+"), to, FAccount20 (named "to+") (drop 12 to));
   (AValue256 (named "amount"), amount, FValue256 (named "amount") amount)].

Lemma transfer_asset_ingress_abi from to amount :
  abi_try_from (get_expected_ingress_descriptor get_sfx_transfer_asset_abi Rlp)
  = ROk (ALog (named "Transfer") (map word_abi (transfer_log_fields from to amount))).
Proof. vm_compute. reflexivity. Qed.

Lemma transfer_log_fields_ok from to amount :
  hash_bytes from → hash_bytes to → hash_bytes amount →
  Forall word_ok (transfer_log_fields from to amount).
Proof. intros [] [] []. by repeat constructor. Qed.

Lemma transfer_log_words from to amount :
  topic_words (transfer_log_fields from to amount) = from ++ to ∧
  data_words (transfer_log_fields from to amount) = amount.
Proof.
  split.
  - change (topic_words _) with (concat [from; to]). simpl. by rewrite app_nil_r.
  - change (data_words _) with (concat [amount]). apply app_nil_r.
Qed.

(** The addresses are widened to 32 bytes and the amount is narrowed to 16. *)
Lemma recode_address_wide n w :
  is_hash w →
  recode_as Rlp Scale true (FAccount20 n (drop 12 w)) tt = Ok (replicate 12 0 ++ drop 12 w) tt.
Proof. intros Hw. cbn [recode_as]. unfold recode_account20, ensure. by rewrite length_drop, Hw. Qed.

Lemma recode_amount_wide n w :
  is_hash w →
  recode_as Rlp Scale true (FValue256 n w) tt
  = if from_be_bytes w <=? u128_max then Ok (le_bytes 16 (from_be_bytes w)) tt else Panic.
Proof. intros Hw. cbn [recode_as]. unfold recode_value256. rewrite Hw. simpl. by case_match. Qed.

(** The last argument, when it cannot be recoded. *)
Lemma validate_arg_trap filled pc oc name names arg args field :
  utf8_valid name = true → get_by_name name filled = Some field →
  recode_as pc oc true field tt = Panic →
  validate_args filled pc oc ((name, true) :: names) (arg :: args) tt = Panic.
Proof.
  intros Hu Hg Hr. cbn [validate_args]. unfold ensure. rewrite Hu, Hg. cbn [ok_or].
  unfold mbind, M_bind, mret, M_ret. by rewrite Hr.
Qed.

Definition transfer_log_filled (from to amount : list Z) : FilledAbi :=
  FLog (named "Transfer") (map word_fill (transfer_log_fields from to amount)) 0.

(** The fields of the log of a transfer, and the bounds of its words. *)
Lemma transfer_log_read `{!RlpLaws} log topic0 pd from to amount :
  eth_log_ok log → eth_log_topics log = [topic0; from; to] → eth_log_data log = pd ++ amount →
  is_hash amount →
  is_hash to ∧
  try_fill_abi (ALog (named "Transfer") (map word_abi (transfer_log_fields from to amount)))
    (encode_eth_log log) Rlp tt = Ok (transfer_log_filled from to amount) tt.
Proof.
  intros Hlog Ht Hd Ha. pose proof Hlog as (_ & _ & Htopics & Hbytes & _).
  rewrite Ht in Htopics. rewrite Hd in Hbytes. apply Forall_app in Hbytes as [_ Hab].
  rewrite !Forall_cons in Htopics. destruct Htopics as (_ & Hfrom & Hto & _).
  split; [apply Hto|]. destruct (transfer_log_words from to amount) as [Htw Hdw].
  unfold try_fill_abi.
  rewrite (bind_Ok _ _ _ _ _ (log_filled (encode_eth_log log) log (named "Transfer")
    (transfer_log_fields from to amount) pd (eth_log_roundtrip log Hlog)
    ltac:(rewrite Ht, Htw; cbn [drop concat]; by rewrite app_nil_r) ltac:(by rewrite Hdw)
    (transfer_log_fields_ok from to amount Hfrom Hto (conj Ha Hab)))).
  done.
Qed.

Lemma transfer_asset_args_checked from to amount asset amount_arg :
  is_hash to → is_hash amount →
  validate_args (transfer_log_filled from to amount) Rlp Scale
    (args_names get_sfx_transfer_asset_abi) [asset; replicate 12 0 ++ drop 12 to; amount_arg] tt
  = if from_be_bytes amount <=? u128_max then
      if bool_decide (le_bytes 16 (from_be_bytes amount) = amount_arg) then Ok tt tt
      else Err (Other "SFXAbi::invalid payload argument for -- expected: doesn't match received and recoded") tt
    else Panic.
Proof.
  intros Ht Ha. set (filled := transfer_log_filled from to amount).
  change (validate_args filled Rlp Scale (args_names get_sfx_transfer_asset_abi) (asset :: ?args) tt)
    with (validate_args filled Rlp Scale [(bytes_of "to", true); (bytes_of "amount", true)] args tt).
  erewrite validate_arg; [|done|by vm_compute|by apply recode_address_wide].
  rewrite bool_decide_eq_true_2 by done.
  pose proof (recode_amount_wide (named "amount") amount Ha) as Hr. destruct (from_be_bytes amount <=? u128_max).
  - by erewrite validate_arg; [|done|by vm_compute|exact Hr].
  - by eapply validate_arg_trap; [|by vm_compute|exact Hr].
Qed.

(** The log of a token transfer to the right account confirms exactly the
    amount of the log in 16 bytes; if that amount does not fit, the validation
    traps. *)
Theorem token_transfer_checked `{!RlpLaws} log topic0 pd from to amount asset amount_arg :
  eth_log_ok log → eth_log_topics log = [topic0; from; to] → eth_log_data log = pd ++ amount →
  is_hash amount → amount_arg ≠ [] →
  validate_arguments_against_received get_sfx_transfer_asset_abi
    [asset; replicate 12 0 ++ drop 12 to; amount_arg] (encode_eth_log log) Scale Rlp tt
  = if from_be_bytes amount <=? u128_max then
      if bool_decide (le_bytes 16 (from_be_bytes amount) = amount_arg) then Ok tt tt
      else Err (Other "SFXAbi::invalid payload argument for -- expected: doesn't match received and recoded") tt
    else Panic.
Proof.
  intros Hlog Ht Hd Ha Harg.
  destruct (transfer_log_read log topic0 pd from to amount Hlog Ht Hd Ha) as [Hto Hfill].
  unfold validate_arguments_against_received. rewrite (transfer_asset_ingress_abi from to amount).
  rewrite (bind_Ok _ _ tt tt tt) by (by destruct amount_arg).
  erewrite (bind_Ok (lift_result _)) by done. rewrite (bind_Ok _ _ _ _ _ Hfill).
  rewrite (bind_Ok _ _ tt tt tt) by done. by apply transfer_asset_args_checked.
Qed.

(** ** Tuples and vectors *)

(** The arguments of a dynamic destination deal are accepted whatever their
    lengths are: the first member of the tuple takes the bytes of both, the
    second none. *)
Theorem deal_arguments_unchecked asset amount :
  asset ≠ [] → amount ≠ [] →
  validate_ordered_arguments get_dynamic_destination_deal_abi [asset; amount] Scale tt
  = Ok (FTuple (named "DynamicDestinationDeal")
          (FValue32 (named "asset_id") (asset ++ amount)) (FValue128 (named "amount") [])) tt.
Proof.
  intros Ha Hm. unfold validate_ordered_arguments.
  rewrite (bind_Ok _ _ tt tt tt) by (by destruct asset, amount).
  rewrite (bind_Ok _ _ tt (ATuple (named "DynamicDestinationDeal") (AValue32 (named "asset_id"))
    (AValue128 (named "amount"))) tt) by (vm_compute; reflexivity).
  cbn [maybe_prefix_memo get_dynamic_destination_deal_abi app concat]. rewrite app_nil_r.
  unfold try_fill_abi. cbn [recursive_fill_abi]. unfold fill_tuple, fill_at, slice_from, mbind, M_bind, mret, M_ret.
  by rewrite Nat.leb_refl, drop_all.
Qed.

(** A tuple of two words in a log is read from the last word and from the first
    one, whatever is between them. *)
Lemma topic_tuple_takes_first a b fa fb w0 w1 w2 n :
  is_hash w0 → is_hash w2 → word_filled a w0 = Some fa → word_filled b w2 = Some fb →
  decode_topics_as_rlp (ATuple n a b) (w0 ++ w1 ++ w2) tt = Ok (FTuple n fa fb, 64%nat) tt.
Proof.
  intros Hw0 Hw2 Ha Hb. cbn [decode_topics_as_rlp].
  rewrite (bind_Ok _ _ tt tt tt).
  2: { unfold ensure. rewrite (proj2 (Nat.leb_le _ _)); [done|].
       rewrite !length_app, Hw0. unfold MINIMUM_INPUT_LENGTH. lia. }
  pose proof (decode_word b w2 (w0 ++ w1) fb Hw2 Hb) as H2. rewrite <-app_assoc in H2.
  rewrite (bind_Ok _ _ _ _ _ H2). rewrite (bind_Ok _ _ tt tt tt).
  2: { unfold ensure. rewrite (proj2 (Nat.leb_le _ _)); [done|]. rewrite !length_app, Hw0. lia. }
  rewrite <-Hw0 at 1. rewrite take_app_length.
  by rewrite (bind_Ok _ _ _ _ _ (decode_word a w0 [] fa Hw0 Ha)).
Qed.

(** An item that takes no byte is read again without end. *)
Lemma fill_vec_stuck fill max_size k data f :
  (max_size ≤ length data)%nat → fill (take max_size data) tt = Ok (f, 0%nat) tt →
  fill_vec fill max_size k data tt = Panic.
Proof.
  intros Hlen Hf. induction k as [|k IH]; [done|]. cbn [fill_vec].
  rewrite (proj2 (Nat.leb_le _ _)) by done. rewrite (bind_Ok _ _ _ _ _ Hf), drop_0.
  unfold mbind, M_bind. by rewrite IH.
Qed.

Lemma vector_of_empty_structs_traps n m prefix data :
  data ≠ [] → recursive_fill_abi Scale (AVec n (AStruct m [])) (prefix :: data) tt = Panic.
Proof.
  intros Hd.
  change (recursive_fill_abi Scale (AVec n (AStruct m [])) (prefix :: data)) with
    (d ← ensure_vector_and_trim_prefix (prefix :: data) Scale;
     items ← fill_vec (recursive_fill_abi Scale (AStruct m [])) 1 (S (length d)) d;
     mret (M:=M unit DispatchError) (FVec n items 0, length d)).
  destruct data as [|b data]; [done|]. rewrite (bind_Ok _ _ tt (b :: data) tt) by done.
  unfold mbind, M_bind. erewrite fill_vec_stuck; [done|simpl; lia|done].
Qed.

End Props.
