(* ===== verification/Vacuum.v ===== *)
(** * The vacuum pallet

    [pallets/circuit/vacuum/src/lib.rs]: the entry of orders into the Circuit.
    Local orders, dynamic destination deals, orders proved to be placed on a
    remote EVM chain, the order status and the fault proofs, as calls of the
    pallet and, through [VacuumAccess], from the EVM.

    The pallet has no storage of its own; its state is the Circuit with the
    events it deposits.  [assert!] traps.  The recoding of logs (crate
    [t3rn_abi]), the registry [Xdns], the address mapping and the rewards pallet
    are the class [VacuumConfig]. *)

From S2P Require Import Prelude Types Status AccountManager World SquareUp Bids Validate.
From S2P Require Import Machine Circuit Orders Queues Calls.

(** ** Data *)

Record SubstrateToken := mkSubstrateToken {
  sub_id : Z;
  sub_symbol : list Z;
  sub_decimals : Z;
}.

Record EthereumToken := mkEthereumToken {
  eth_symbol : list Z;
  eth_decimals : Z;
  eth_address : option Z;
}.

Inductive TokenInfo := TokenSubstrate (t : SubstrateToken) | TokenEthereum (t : EthereumToken).

Record TokenRecord := mkTokenRecord {
  token_id : AssetId;
  token_gateway_id : TargetId;
  token_props : TokenInfo;
}.

Record OrderStatusRead := mkStatusRead {
  read_xtx_id : Hash;
  read_status : CircuitStatus;
  read_all_included_sfx : list (Hash * CircuitStatus * option AccountId);
  read_timeouts_at : AdaptiveTimeout;
}.

Inductive VacuumEvent :=
| EvOrderStatusRead (r : OrderStatusRead)
| EvFaultProofConfirmed (gateway : TargetId) (p : VacuumEVMProof).

(** A remote order with its reward asset looked up in the registry. *)
Record RemoteEVMOrderLocalized := mkLocalized {
  loc_from : Z;
  loc_destination : TargetId;
  loc_asset : AssetId;
  loc_target_account : AccountId;
  loc_reward_asset : Z;
  loc_amount : Z;
  loc_insurance : Z;
  loc_max_reward : Z;
  loc_nonce : Z;
}.

(** The ABI descriptors of the logs. *)
Definition remote_bid_abi_descriptor : string :=
  "WinnerSelected:Log(sfxId+:H256,winner+:Account20)".
Definition remote_transfer_commit_applied_abi_descriptor : string :=
  "TransferCommitApplied:Log(sfxId+:H256,executor+:Account20)".
Definition remote_order_abi_descriptor : string :=
  "RemoteOrderIndexed:Log(sfxId+:H256,nonce+:Value32,sender+:Account20,destination:Bytes4,asset:Bytes4,targetAccount:Account32,amount:Value256,rewardAsset:Account20,insurance:Value256,maxReward:Value256)".

Class VacuumConfig (A X : Type) := {
  (** [T::Currency::minimum_balance()]. *)
  vacuum_minimum_balance : Balance;
  (** [t3rn_abi::recode::recode_bytes_with_descriptor]. *)
  recode_bytes_with_descriptor : list Z → string → Codec → Codec → result DispatchError (list Z);
  (** [T::Xdns]. *)
  get_token_by_eth_address : X → TargetId → Z → result DispatchError TokenRecord;
  get_remote_order_contract_address : X → TargetId → result DispatchError Hash;
  get_remote_bidding_contract_address : X → TargetId → result DispatchError Hash;
  get_escrow_account : X → TargetId → result DispatchError (list Z);
  is_target_active : X → TargetId → SecurityLvl → bool;
  list_available_mint_assets : X → TargetId → list TokenRecord;
  check_asset_is_mintable : X → TargetId → AssetId → bool;
  xdns_mint : X → AssetId → AccountId → Balance → M A DispatchError unit;
  get_self_token_id : X → AssetId;
  (** [T::AddressMapping]. *)
  into_account_id : X → Z → AccountId;
  (** [T::RewardsWriteApi]. *)
  repatriate_for_faulty_or_missing_attestation :
    Hash → FullSideEffect → CircuitStatus → option AccountId → A * X → A * X * bool;
}.

Record Vacuum (A X : Type) := mkVacuum {
  v_circuit : World A X;
  v_events : list VacuumEvent;
}.
Arguments mkVacuum {A X} v_circuit v_events.
Arguments v_circuit {A X} v.
Arguments v_events {A X} v.

(** ** The calls *)

Section Vacuum.
Context {A X : Type} `{Hashing} `{AccountManager A} `{CircuitConfig A X} `{VacuumConfig A X}.
Abbreviation V := (M (Vacuum A X) DispatchError).

Definition set_v_circuit (w : World A X) (v : Vacuum A X) : Vacuum A X := mkVacuum w (v_events v).

(** A call into the Circuit. *)
Definition circuit {T} (m : M (World A X) DispatchError T) : V T := zoom v_circuit set_v_circuit m.

Definition ext : V X := gets (λ v, w_ext (v_circuit v)).

Definition vacuum_event (e : VacuumEvent) : V unit :=
  modify (λ v, mkVacuum (v_circuit v) (e :: v_events v)).

(** [assert!]. *)
Definition assert_that (b : bool) : V unit := if b then mret tt else panic.

(** [U256::as_u128]: traps on overflow. *)
Definition as_u128 (z : Z) : V Z := expect (if z <=? u128_max then Some z else None).

(** A query of the Circuit. *)
Definition read_sfx {T} (q : World A X → result DispatchError T) : V T :=
  v ← gets v_circuit;
  lift_result (q v).

(** ** Remote orders *)

Definition localize_order (l : RemoteEVMOrderLog) (asset : AssetId) : RemoteEVMOrderLocalized :=
  {| loc_from := log_sender l; loc_destination := log_destination l; loc_asset := asset;
     loc_target_account := log_target_account l; loc_reward_asset := log_reward_asset l;
     loc_amount := log_amount l; loc_insurance := log_insurance l;
     loc_max_reward := log_max_reward l; loc_nonce := log_nonce l |}.

Definition token_id_of (gateway : TargetId) (eth : Z) : V AssetId :=
  x ← ext;
  token ← lift_result (get_token_by_eth_address x gateway eth);
  mret (token_id token).

Definition rlp_to_remote_order_log (verified_event_bytes : list Z) (remote_target_id : TargetId)
    : V RemoteEVMOrderLocalized :=
  recoded_message ←
    lift_result (recode_bytes_with_descriptor verified_event_bytes remote_order_abi_descriptor
                   Rlp Scale);
  log ← ok_or (decode_with decode_order_log recoded_message)
          (Other "RemoteEVMOrderLocalized::remote_order -- error decoding RemoteEVMOrderLog");
  asset ← token_id_of remote_target_id (log_reward_asset log);
  mret (localize_order log asset).

Definition rlp_to_confirmation_log (verified_event_bytes : list Z) : V RemoteEVMConfirmationLog :=
  recoded_message ←
    lift_result (recode_bytes_with_descriptor verified_event_bytes
                   remote_transfer_commit_applied_abi_descriptor Rlp Scale);
  ok_or (decode_with decode_confirmation_log recoded_message)
    (Other "RemoteEVMConfirmationAppliedLocalized::remote_order -- error decoding RemoteEVMCommitLog").

Definition rlp_to_commit_log (verified_event_bytes : list Z) : V RemoteEVMCommitLog :=
  recoded_message ←
    lift_result (recode_bytes_with_descriptor verified_event_bytes
                   remote_transfer_commit_applied_abi_descriptor Rlp Scale);
  ok_or (decode_with decode_commit_log recoded_message)
    (Other "RemoteEVMCommitAppliedLocalized::remote_order -- error decoding RemoteEVMCommitLog").

Definition rlp_to_remote_bid_log (verified_event_bytes : list Z) : V RemoteEVMBidLog :=
  recoded_message ←
    lift_result (recode_bytes_with_descriptor verified_event_bytes remote_bid_abi_descriptor
                   Rlp Scale);
  ok_or (decode_with decode_bid_log recoded_message)
    (Other "RemoteEVMBidLocalized::remote_order -- error decoding RemoteEVMBidLog").

(** [RemoteEVMOrderLocalized::try_into]. *)
Definition localized_try_into (o : RemoteEVMOrderLocalized) : V SideEffect :=
  amount ← as_u128 (loc_amount o);
  max_reward ← as_u128 (loc_max_reward o);
  insurance ← as_u128 (loc_insurance o);
  mret {| sfx_target := loc_destination o;
          sfx_max_reward := max_reward;
          sfx_insurance := insurance;
          sfx_action := act_tass;
          sfx_encoded_args :=
            [le_bytes 4 (loc_asset o); be_bytes 32 (loc_target_account o); le_bytes 16 amount];
          sfx_signature := [];
          sfx_enforce_executor := None;
          sfx_reward_asset_id := None |}.

Definition set_reward_asset (a : option AssetId) (s : SideEffect) : SideEffect :=
  {| sfx_target := sfx_target s; sfx_max_reward := sfx_max_reward s;
     sfx_insurance := sfx_insurance s; sfx_action := sfx_action s;
     sfx_encoded_args := sfx_encoded_args s; sfx_signature := sfx_signature s;
     sfx_enforce_executor := sfx_enforce_executor s; sfx_reward_asset_id := a |}.

(** ** Local orders *)

Definition order (origin : RawOrigin) (sfx_actions : list OrderSFX) (speed_mode : SpeedMode)
    : V unit :=
  transactional
    (circuit (extrinsic_trigger origin (map order_try_into sfx_actions) speed_mode Optimistic)).

Definition place_single_order (origin : RawOrigin) (destination : TargetId) (asset : AssetId)
    (amount : Balance) (reward_asset : AssetId) (max_reward insurance : Balance)
    (target_account : AccountId) (speed_mode : SpeedMode) : V unit :=
  let sfx_order :=
    {| sfx_order_action := ActTransfer destination asset target_account amount;
       order_max_reward := max_reward; order_reward_asset := reward_asset;
       order_insurance := insurance; remote_origin_nonce := None |} in
  circuit (extrinsic_trigger origin [order_try_into sfx_order] speed_mode Optimistic).

Definition single_order (origin : RawOrigin) (destination : TargetId) (asset : AssetId)
    (amount : Balance) (reward_asset : AssetId) (max_reward insurance : Balance)
    (target_account : AccountId) (speed_mode : SpeedMode) : V unit :=
  transactional (place_single_order origin destination asset amount reward_asset max_reward
                   insurance target_account speed_mode).

(** ** Dynamic destination deals *)

(** The gateway of the Circuit itself, [[3; 3; 3; 3]]. *)
Definition self_gateway : TargetId := [3; 3; 3; 3].

Definition deal_order (destination : TargetId) (reward_asset : AssetId) (max_reward : Balance)
    (nonce : Z) : OrderSFX :=
  {| sfx_order_action := ActDynamicDestinationDeal destination reward_asset max_reward;
     order_max_reward := max_reward; order_reward_asset := reward_asset;
     order_insurance := vacuum_minimum_balance; remote_origin_nonce := Some nonce |}.

Definition escrow_order (requester_here : AccountId) (asset : AssetId) (amount : Balance)
    : OrderSFX :=
  {| sfx_order_action := ActTransfer self_gateway asset requester_here amount;
     order_max_reward := amount; order_reward_asset := asset;
     order_insurance := vacuum_minimum_balance; remote_origin_nonce := None |}.

Definition place_deal (origin : RawOrigin) (destination : TargetId) (asset : AssetId)
    (amount : Balance) (reward_asset : AssetId) (max_reward : Balance) (nonce : Z)
    (speed_mode : SpeedMode) : V unit :=
  requester_here ← ensure_signed origin;
  let sfx_escrow := order_try_into (escrow_order requester_here asset amount) in
  let sfx_optimistic := order_try_into (deal_order destination reward_asset max_reward nonce) in
  circuit (remote_origin_trigger origin (to_account_id (from_remote_nonce nonce))
             [sfx_escrow; sfx_optimistic] speed_mode) ;;
  xtx_id ← read_sfx recover_latest_submitted_xtx_id;
  circuit (place_bid origin (generate_id (be_bytes 32 xtx_id) 1) vacuum_minimum_balance).

Definition dynamic_destination_deal (origin : RawOrigin) (destination : TargetId) (asset : AssetId)
    (amount : Balance) (reward_asset : AssetId) (max_reward : Balance) (nonce : Z)
    (speed_mode : SpeedMode) : V unit :=
  transactional (place_deal origin destination asset amount reward_asset max_reward nonce
                   speed_mode).

(** ** Orders from a remote chain *)

(** The token of a mintable asset on the Circuit is the reward asset. *)
Definition is_wrapped (o : RemoteEVMOrderLocalized) (t : TokenRecord) : bool :=
  (token_id t =? loc_asset o)
  && match token_props t with
     | TokenEthereum info => bool_decide (eth_address info = Some (loc_reward_asset o))
     | TokenSubstrate _ => false
     end.

(** Mint the wrapped asset for the executor and the target account. *)
Definition mint_wrapped (who : AccountId) (o : RemoteEVMOrderLocalized) : V unit :=
  amount ← as_u128 (loc_amount o);
  max_reward ← as_u128 (loc_max_reward o);
  assert_that (max_reward <=? amount) ;;
  x ← ext;
  assert_that (check_asset_is_mintable x self_gateway (loc_asset o)) ;;
  circuit (with_am (xdns_mint x (loc_asset o) who max_reward)) ;;
  circuit (with_am (xdns_mint x (loc_asset o) (loc_target_account o)
                      (Z.max 0 (max_reward - amount)))).

Definition remote_order (origin : RawOrigin) (order_remote_proof : list Z)
    (remote_target_id : TargetId) (speed_mode : SpeedMode) : V unit :=
  transactional
    (who ← ensure_signed origin;
     x ← ext;
     address ← lift_result (get_remote_order_contract_address x remote_target_id);
     receipt ← read_sfx (verify_sfx_proof remote_target_id speed_mode
                           (Some (be_bytes 32 address)) order_remote_proof);
     decoded ← rlp_to_remote_order_log (receipt_message receipt) remote_target_id;
     assert_that (is_target_active x remote_target_id Optimistic) ;;
     sfx ← localized_try_into decoded;
     let side_effect := set_reward_asset (Some (loc_asset decoded)) sfx in
     let remote_origin := from_remote_nonce (loc_nonce decoded) in
     if bool_decide (loc_destination decoded = self_gateway)
        && existsb (is_wrapped decoded) (list_available_mint_assets x self_gateway)
     then mint_wrapped who decoded
     else circuit (remote_origin_trigger origin (to_account_id remote_origin) [side_effect]
                     speed_mode)).

(** ** Order status *)

Fixpoint status_of_sfx (ids : list Hash) (w : World A X)
    : result DispatchError (list (Hash * CircuitStatus * option AccountId)) :=
  match ids with
  | [] => ROk []
  | sfx :: rest =>
      match get_fsx_status sfx w, get_fsx_executor sfx w, status_of_sfx rest w with
      | ROk status, ROk executor, ROk l => ROk ((sfx, status, executor) :: l)
      | RErr e, _, _ => RErr e
      | _, RErr e, _ => RErr e
      | _, _, RErr e => RErr e
      end
  end.

Definition emit_order_status (xtx_id : Hash) : V unit :=
  s ← read_sfx (get_xtx_status xtx_id);
  sfx_of_xtx ← read_sfx (get_fsx_of_xtx xtx_id);
  all_included_sfx ← read_sfx (status_of_sfx sfx_of_xtx);
  vacuum_event (EvOrderStatusRead
    {| read_xtx_id := xtx_id; read_status := s.1; read_all_included_sfx := all_included_sfx;
       read_timeouts_at := s.2 |}).

Definition read_order_status (_origin : RawOrigin) (xtx_id : Hash) : V unit :=
  transactional (emit_order_status xtx_id).

Definition read_all_pending_orders_status (_origin : RawOrigin) : V unit :=
  transactional
    (ids ← gets (λ v, get_pending_xtx_ids (v_circuit v));
     for_each ids emit_order_status).

(** ** VacuumAccess: calls from the EVM *)

Definition evm_order (origin : RawOrigin) (o : VacuumEVMOrder) : V bool :=
  amount ← as_u128 (evo_amount o);
  max_reward ← as_u128 (evo_max_reward o);
  insurance ← as_u128 (evo_insurance o);
  reward_asset ← token_id_of (evo_destination o) (evo_reward_asset o);
  map_err (λ _, Other "Vacuum::evm_order -- error calling single_order")
    (place_single_order origin (evo_destination o) (evo_asset o) amount reward_asset max_reward
       insurance (evo_target_account o) Fast) ;;
  mret true.

Definition evm_confirm (_origin : RawOrigin) (_o : VacuumEVMOrder) : V bool := mret true.

Definition evm_3d_order (origin : RawOrigin) (o : VacuumEVM3DOrder) : V bool :=
  let nonce := evo3d_nonce o in
  let o := evo3d_order o in
  amount ← as_u128 (evo_amount o);
  max_reward ← as_u128 (evo_max_reward o);
  reward_asset ← token_id_of (evo_destination o) (evo_reward_asset o);
  map_err (λ _, Other "Vacuum::evm_order -- error calling single_order")
    (place_deal origin (evo_destination o) (evo_asset o) amount reward_asset max_reward nonce
       Fast) ;;
  mret true.

Definition evm_teleport_order (origin : RawOrigin) (o : VacuumEVMTeleportOrder) : V bool :=
  _who ← ensure_signed origin;
  receipt ← read_sfx (verify_sfx_proof (tel_gateway_id o) Finalized None (tel_order_proof o));
  log ← ok_or (decode_with decode_order_log (receipt_message receipt))
          (Other "Vecuum::remote_order -- error decoding RemoteEVMOrderLog");
  asset ← token_id_of (tel_gateway_id o) (log_reward_asset log);
  let decoded := localize_order log asset in
  side_effect ← localized_try_into decoded;
  map_err (λ _, Other "Vacuum::evm_teleport_order -- error calling on_remote_origin_trigger")
    (circuit (remote_origin_trigger origin
                (to_account_id (from_remote_nonce (loc_nonce decoded))) [side_effect] Fast)) ;;
  mret true.

(** [ExecutionSource::decode]. *)
Definition source_of (bytes : list Z) (e : VacuumError) : V (list Z) :=
  ok_or (decode_fixed 32 bytes) (VacuumModuleError e).

(** The logs of an execution agree with the order, the winning bid and the
    submitter of the proof. *)
Definition assert_execution (who : AccountId) (x : X) (o : RemoteEVMOrderLocalized)
    (bid : RemoteEVMBidLog) (commit : RemoteEVMConfirmationLog) : V unit :=
  assert_that (bid_log_winner bid =? conf_log_sender commit) ;;
  assert_that (into_account_id x (bid_log_winner bid) =? who) ;;
  assert_that (conf_log_amount commit =? loc_amount o) ;;
  assert_that (conf_log_asset commit =? loc_reward_asset o) ;;
  assert_that (from_be_bytes (replicate 12 0 ++ be_bytes 20 (conf_log_target commit)) =?
               loc_target_account o).

(** The attestation was not released to the winner, for the same side effect. *)
Definition assert_fault (bid : RemoteEVMBidLog) (commit : RemoteEVMConfirmationLog)
    (attestation : RemoteEVMCommitLog) : V unit :=
  assert_that (negb (commit_log_executor attestation =? bid_log_winner bid)) ;;
  assert_that (conf_log_sfx_id commit =? bid_log_sfx_id bid) ;;
  assert_that (conf_log_sfx_id commit =? commit_log_sfx_id attestation).

Definition set_am_ext (p : A * X) (w : World A X) : World A X := set_ext p.2 (set_am p.1 w).

Definition evm_submit_fault_proof (origin : RawOrigin) (p : VacuumEVMProof) : V bool :=
  who ← ensure_signed origin;
  let circuit_id := circuit_gateway_id p in
  let source_id := circuit_gateway_id p in
  let destination_id := destination_gateway_id p in
  x ← ext;
  assert_that (is_target_active x circuit_id Optimistic) ;;
  assert_that (is_target_active x source_id Optimistic) ;;
  assert_that (is_target_active x destination_id Optimistic) ;;
  bidding ← lift_result (get_remote_bidding_contract_address x source_id);
  bidding_source ← source_of (be_bytes 32 bidding)
                     XdnsGatewayDoesNotHaveRemoteOrderAddressRegistered;
  escrow_account ← lift_result (get_escrow_account x source_id);
  attesters_source ← source_of escrow_account XdnsGatewayDoesNotHaveEscrowAddressRegistered;
  source_order ← lift_result (get_remote_order_contract_address x source_id);
  source_order_source ← source_of (be_bytes 32 source_order)
                          XdnsGatewayDoesNotHaveRemoteOrderAddressRegistered;
  destination_order ← lift_result (get_remote_order_contract_address x destination_id);
  destination_source ← source_of (be_bytes 32 destination_order)
                         XdnsGatewayDoesNotHaveRemoteOrderAddressRegistered;
  order_receipt ← read_sfx (verify_sfx_proof source_id Finalized (Some source_order_source)
                              (order_proof p));
  localized ← rlp_to_remote_order_log (receipt_message order_receipt) source_id;
  side_effect ← localized_try_into localized;
  ensure (loc_asset localized =? get_self_token_id x)
    (Other "Vacuum::evm_submit_fault_proof -- only native asset fault-proof claims are supported") ;;
  bid_receipt ← read_sfx (verify_sfx_proof circuit_id Finalized (Some bidding_source)
                            (bid_proof p));
  bid ← rlp_to_remote_bid_log (receipt_message bid_receipt);
  execution_receipt ← read_sfx (verify_sfx_proof destination_id Finalized
                                  (Some destination_source) (execution_proof p));
  commit ← rlp_to_confirmation_log (receipt_message execution_receipt);
  assert_execution who x localized bid commit ;;
  attestation_receipt ← read_sfx (verify_sfx_proof source_id Finalized (Some attesters_source)
                                    (attestation_proof p));
  attestation ← rlp_to_commit_log (receipt_message attestation_receipt);
  assert_fault bid commit attestation ;;
  let sfx_only_fsx :=
    {| fsx_input := side_effect; fsx_confirmed := None; fsx_security_lvl := Escrow;
       fsx_submission_target_height := 0; fsx_best_bid := None; fsx_index := 0 |} in
  success ← circuit (zoom (λ w, (w_am w, w_ext w)) set_am_ext
              (run_total (repatriate_for_faulty_or_missing_attestation
                 (commit_log_sfx_id attestation) sfx_only_fsx Finished (Some who))));
  assert_that success ;;
  vacuum_event (EvFaultProofConfirmed destination_id p) ;;
  mret true.
End Vacuum.
