(* ===== verification/Invariant.v ===== *)
(** * The storage invariant of the Circuit and its status automaton

    What holds of the storage between calls ([circuit_inv]), the life cycle of
    a transaction as an automaton on its stored status ([xtx_edge]), and the
    proof that [Machine::compile] on a loaded or freshly set up transaction
    never traps, keeps the invariant and follows the automaton. *)

From S2P Require Import Prelude Types Status AccountManager World SquareUp Bids Validate.
From S2P Require Import Machine Circuit Queues Calls.

(** ** Definitions *)

Definition is_bidding (s : CircuitStatus) : bool :=
  match s with Reserved | PendingBidding | InBidding => true | _ => false end.

(** A stored transaction has one step; nothing is bid on before InBidding; only
    fully confirmed side effects are in FinishedAllSteps. *)
Definition xtx_ok (x : XExecSignal) (steps : list (list FullSideEffect)) : Prop :=
  ∃ step, steps = [step] ∧
  match xtx_status x with
  | Reserved => step = []
  | PendingBidding => step ≠ [] ∧ existsb has_bid step = false
  | InBidding | Ready | PendingExecution => True
  | FinishedAllSteps => determine_xtx_status [step] = FinishedAllSteps
  | _ => False
  end.

Section Invariant.
Context {A X : Type}.
Implicit Types w : World A X.

(** The five maps describe the same transactions. *)
Record circuit_inv w : Prop := {
  inv_stored : ∀ id x, x_exec_signals w !! id = Some x →
    is_Some (local_xtx_states w !! id) ∧
    ∃ steps, full_side_effects w !! id = Some steps ∧ xtx_ok x steps;
  inv_fsx : ∀ id, is_Some (full_side_effects w !! id) → is_Some (x_exec_signals w !! id);
  inv_local : ∀ id, is_Some (local_xtx_states w !! id) → is_Some (x_exec_signals w !! id);
  inv_bids : ∀ id, is_Some (pending_xtx_bids_timeouts w !! id) ↔
    ∃ x, x_exec_signals w !! id = Some x ∧ is_bidding (xtx_status x) = true;
  inv_finalized : ∀ id x, x_exec_signals w !! id = Some x →
    (is_Some (finalized_xtx w !! id) ↔ xtx_status x = FinishedAllSteps);
}.

Definition status_of w (id : Hash) : option CircuitStatus := xtx_status <$> x_exec_signals w !! id.

(** The maps the invariant speaks of. *)
Definition same_core w w' : Prop :=
  x_exec_signals w' = x_exec_signals w ∧ full_side_effects w' = full_side_effects w ∧
  local_xtx_states w' = local_xtx_states w ∧
  pending_xtx_bids_timeouts w' = pending_xtx_bids_timeouts w ∧
  finalized_xtx w' = finalized_xtx w.

(** The context of a stored transaction. *)
Definition ctx_loaded (ctx : LocalXtxCtx) w : Prop :=
  x_exec_signals w !! ctx_xtx_id ctx = Some (ctx_xtx ctx) ∧
  full_side_effects w !! ctx_xtx_id ctx = Some (ctx_full_side_effects ctx) ∧
  local_xtx_states w !! ctx_xtx_id ctx = Some (ctx_local_state ctx).

(** The context of a transaction that is being set up. *)
Definition ctx_fresh (ctx : LocalXtxCtx) w : Prop :=
  x_exec_signals w !! ctx_xtx_id ctx = None ∧ finalized_xtx w !! ctx_xtx_id ctx = None ∧
  xtx_status (ctx_xtx ctx) = Requested ∧
  ∃ step, ctx_full_side_effects ctx = [step] ∧ fresh_step step.
End Invariant.

(** The life cycle of a transaction: [None] before it is stored and after it
    is killed, reverted or committed. *)
Inductive xtx_edge : option CircuitStatus → option CircuitStatus → Prop :=
| edge_reserve : xtx_edge None (Some Reserved)
| edge_request : xtx_edge None (Some PendingBidding)
| edge_first_bid : xtx_edge (Some PendingBidding) (Some InBidding)
| edge_kill s : is_bidding s = true → xtx_edge (Some s) None
| edge_ready : xtx_edge (Some InBidding) (Some Ready)
| edge_confirm : xtx_edge (Some Ready) (Some PendingExecution)
| edge_finish s : s = Ready ∨ s = PendingExecution → xtx_edge (Some s) (Some FinishedAllSteps)
| edge_revert s : s = Ready ∨ s = PendingExecution → xtx_edge (Some s) None
| edge_commit : xtx_edge (Some FinishedAllSteps) None.

#[export] Hint Constructors xtx_edge : t3rn.

(** A step of the pallet keeps the invariant and moves every transaction along
    the automaton. *)
Definition step_ok {A X} (w w' : World A X) : Prop :=
  circuit_inv w' ∧ ∀ id, rtc xtx_edge (status_of w id) (status_of w' id).

(** Two maps that agree but at [id]. *)
Definition same_elsewhere {V} (id : Hash) (m m' : gmap Z V) : Prop :=
  ∀ j, j ≠ id → m' !! j = m !! j.

(** A step that works on the transaction [id] only. *)
Definition step_at {A X} (id : Hash) (w w' : World A X) : Prop :=
  step_ok w w' ∧
  same_elsewhere id (x_exec_signals w) (x_exec_signals w') ∧
  same_elsewhere id (full_side_effects w) (full_side_effects w') ∧
  same_elsewhere id (local_xtx_states w) (local_xtx_states w') ∧
  same_elsewhere id (pending_xtx_bids_timeouts w) (pending_xtx_bids_timeouts w') ∧
  same_elsewhere id (finalized_xtx w) (finalized_xtx w').

Lemma same_elsewhere_insert {V} id (v : V) m : same_elsewhere id m (<[id := v]> m).
Proof. intros j Hne. by apply lookup_insert_ne. Qed.

Lemma same_elsewhere_delete {V} id (m : gmap Z V) : same_elsewhere id m (delete id m).
Proof. intros j Hne. by apply lookup_delete_ne. Qed.

Lemma same_elsewhere_refl {V} id (m : gmap Z V) : same_elsewhere id m m.
Proof. done. Qed.
#[export] Hint Resolve same_elsewhere_insert same_elsewhere_delete same_elsewhere_refl : t3rn.

(** ** Lemmas on the storage *)

Section Facts.
Context {A X : Type}.
Implicit Types w : World A X.

Lemma same_core_refl w : same_core w w.
Proof. done. Qed.

Lemma same_core_trans w1 w2 w3 : same_core w1 w2 → same_core w2 w3 → same_core w1 w3.
Proof. unfold same_core. by intros (<- & <- & <- & <- & <-) ?. Qed.

Lemma same_core_inv w w' : same_core w w' → circuit_inv w → circuit_inv w'.
Proof.
  intros (Hs & Hf & Hl & Hb & Hz) [I1 I2 I3 I4 I5].
  constructor; rewrite ?Hs, ?Hf, ?Hl, ?Hb, ?Hz; done.
Qed.

Lemma same_core_loaded ctx w w' : same_core w w' → ctx_loaded ctx w → ctx_loaded ctx w'.
Proof. unfold ctx_loaded. by intros (-> & -> & -> & _ & _). Qed.

Lemma step_ok_refl w : circuit_inv w → step_ok w w.
Proof. by split. Qed.

Lemma step_ok_trans w1 w2 w3 : step_ok w1 w2 → step_ok w2 w3 → step_ok w1 w3.
Proof. intros [_ H12] [Hinv H23]. split; [done|]. intros id. by trans (status_of w2 id). Qed.

Lemma same_core_step w w' : circuit_inv w → same_core w w' → step_ok w w'.
Proof.
  intros Hinv Hc. split; [by eapply same_core_inv|].
  intros id. unfold status_of. by destruct Hc as [-> _].
Qed.

Lemma same_core_step_trans w w1 w2 : same_core w w1 → step_ok w1 w2 → step_ok w w2.
Proof.
  intros Hc [Hinv He]. split; [done|]. intros id. specialize (He id).
  unfold status_of in *. by destruct Hc as [<- _].
Qed.

Lemma step_ok_core_trans w w1 w2 : step_ok w w1 → same_core w1 w2 → step_ok w w2.
Proof. intros Hs Hc. eapply step_ok_trans; [done|]. apply same_core_step; [apply Hs|done]. Qed.

Lemma same_core_step_at id w w' : circuit_inv w → same_core w w' → step_at id w w'.
Proof.
  intros Hinv Hc. split; [by apply same_core_step|].
  destruct Hc as (-> & -> & -> & -> & ->). auto with t3rn.
Qed.

Lemma same_core_step_at_trans id w w1 w2 : same_core w w1 → step_at id w1 w2 → step_at id w w2.
Proof.
  intros Hc [Hs He]. split; [by eapply same_core_step_trans|].
  by destruct Hc as (<- & <- & <- & <- & <-).
Qed.

Lemma step_at_core_trans id w w1 w2 : step_at id w w1 → same_core w1 w2 → step_at id w w2.
Proof.
  intros [Hs He] Hc. split; [by eapply step_ok_core_trans|].
  by destruct Hc as (-> & -> & -> & -> & ->).
Qed.

Lemma load_xtx_loaded id w c w' :
  load_xtx id w = Ok c w' → w' = w ∧ ctx_xtx_id c = id ∧ ctx_loaded c w.
Proof.
  intros (-> & Hid & Hx & Hf & Hl)%load_xtx_Ok. unfold ctx_loaded. by rewrite Hid.
Qed.

Lemma load_xtx_wp id w :
  wp (load_xtx id) (λ c w', w' = w ∧ ctx_xtx_id c = id ∧ ctx_loaded c w) (λ _ w', w' = w) w.
Proof.
  pose proof (load_xtx_total id w) as Ht. unfold wp in *.
  destruct (load_xtx id w) eqn:Hl; [|done..]. by apply load_xtx_loaded in Hl.
Qed.

Lemma inv_load id w x :
  circuit_inv w → x_exec_signals w !! id = Some x →
  ∃ c, load_xtx id w = Ok c w ∧ ctx_xtx c = x ∧ ctx_xtx_id c = id ∧ ctx_loaded c w.
Proof.
  intros Hinv Hx. destruct (inv_stored _ Hinv id x Hx) as ([l Hl] & steps & Hf & _).
  rewrite (load_xtx_Some id w x steps l) by done. eexists. split; [done|].
  split_and!; done.
Qed.

Lemma ctx_loaded_ok ctx w :
  circuit_inv w → ctx_loaded ctx w → xtx_ok (ctx_xtx ctx) (ctx_full_side_effects ctx).
Proof.
  intros Hinv (Hx & Hf & _). destruct (inv_stored _ Hinv _ _ Hx) as (_ & steps & Hf' & Hok).
  congruence.
Qed.

Lemma determine_single_not_finished step : determine_xtx_status [step] ≠ Finished.
Proof.
  destruct step as [|f step]; [done|]. rewrite determine_xtx_status_single by done.
  by repeat case_match.
Qed.
End Facts.

(** ** Writes that keep the invariant *)

Section Writes.
Context {A X : Type}.
Implicit Types w : World A X.

Lemma update_ok w w' id x x' steps' :
  circuit_inv w → x_exec_signals w !! id = Some x →
  x_exec_signals w' = <[id := x']> (x_exec_signals w) →
  full_side_effects w' = <[id := steps']> (full_side_effects w) →
  local_xtx_states w' = local_xtx_states w →
  same_elsewhere id (pending_xtx_bids_timeouts w) (pending_xtx_bids_timeouts w') →
  (is_Some (pending_xtx_bids_timeouts w' !! id) ↔ is_bidding (xtx_status x') = true) →
  same_elsewhere id (finalized_xtx w) (finalized_xtx w') →
  (is_Some (finalized_xtx w' !! id) ↔ xtx_status x' = FinishedAllSteps) →
  xtx_ok x' steps' →
  rtc xtx_edge (Some (xtx_status x)) (Some (xtx_status x')) →
  step_at id w w'.
Proof.
  intros Hinv Hx Hs Hf Hl Hb Hbid Hz Hzid Hok Hedge.
  destruct (inv_stored _ Hinv _ _ Hx) as [Hlid _].
  split; [|rewrite Hs, Hf, Hl, ?Hz; auto 10 with t3rn].
  split; [constructor|].
  - intros j y. rewrite Hs, Hf, Hl. destruct (decide (j = id)) as [->|Hne].
    + rewrite !lookup_insert_eq. intros [= <-]. split; [done|]. by eexists.
    + rewrite !lookup_insert_ne by done. apply (inv_stored _ Hinv).
  - intros j. rewrite Hs, Hf. rewrite !lookup_insert_is_Some. intros [->|[? Hj]]; [by left|].
    right. split; [done|]. by apply (inv_fsx _ Hinv).
  - intros j. rewrite Hs, Hl. rewrite lookup_insert_is_Some. intros Hj.
    destruct (decide (id = j)); [by left|]. right. split; [done|]. by apply (inv_local _ Hinv).
  - intros j. rewrite Hs. destruct (decide (j = id)) as [->|Hne].
    + rewrite Hbid, lookup_insert_eq. naive_solver.
    + rewrite Hb, lookup_insert_ne by done. apply (inv_bids _ Hinv).
  - intros j y. rewrite Hs. destruct (decide (j = id)) as [->|Hne].
    + rewrite lookup_insert_eq. by intros [= <-].
    + rewrite Hz, lookup_insert_ne by done. by apply (inv_finalized _ Hinv).
  - intros j. unfold status_of. rewrite Hs. destruct (decide (j = id)) as [->|Hne].
    + by rewrite lookup_insert_eq, Hx.
    + by rewrite lookup_insert_ne.
Qed.

Lemma remove_ok w w' id x :
  circuit_inv w → x_exec_signals w !! id = Some x →
  x_exec_signals w' = delete id (x_exec_signals w) →
  full_side_effects w' = delete id (full_side_effects w) →
  local_xtx_states w' = delete id (local_xtx_states w) →
  same_elsewhere id (pending_xtx_bids_timeouts w) (pending_xtx_bids_timeouts w') →
  pending_xtx_bids_timeouts w' !! id = None →
  finalized_xtx w' = finalized_xtx w →
  xtx_edge (Some (xtx_status x)) None →
  step_at id w w'.
Proof.
  intros Hinv Hx Hs Hf Hl Hb Hbid Hz Hedge. split; [|rewrite Hs, Hf, Hl, ?Hz; auto 10 with t3rn].
  split; [constructor|].
  - intros j y. rewrite Hs, Hf, Hl. intros [Hne Hy]%lookup_delete_Some.
    rewrite !lookup_delete_ne by done. by apply (inv_stored _ Hinv).
  - intros j. rewrite Hs, Hf, !lookup_delete_is_Some. intros [? Hj]. split; [done|].
    by apply (inv_fsx _ Hinv).
  - intros j. rewrite Hs, Hl, !lookup_delete_is_Some. intros [? Hj]. split; [done|].
    by apply (inv_local _ Hinv).
  - intros j. rewrite Hs. destruct (decide (j = id)) as [->|Hne].
    + rewrite Hbid, lookup_delete_eq. split; [by intros []|]. by intros (? & ? & _).
    + rewrite Hb, lookup_delete_ne by done. apply (inv_bids _ Hinv).
  - intros j y. rewrite Hs, Hz. intros [Hne Hy]%lookup_delete_Some. by apply (inv_finalized _ Hinv).
  - intros j. unfold status_of. rewrite Hs. destruct (decide (j = id)) as [->|Hne].
    + rewrite lookup_delete_eq, Hx. by apply rtc_once.
    + by rewrite lookup_delete_ne.
Qed.

Lemma create_ok w w' id x' steps' l' :
  circuit_inv w → x_exec_signals w !! id = None → finalized_xtx w !! id = None →
  x_exec_signals w' = <[id := x']> (x_exec_signals w) →
  full_side_effects w' = <[id := steps']> (full_side_effects w) →
  local_xtx_states w' = <[id := l']> (local_xtx_states w) →
  same_elsewhere id (pending_xtx_bids_timeouts w) (pending_xtx_bids_timeouts w') →
  is_Some (pending_xtx_bids_timeouts w' !! id) →
  finalized_xtx w' = finalized_xtx w →
  xtx_ok x' steps' → is_bidding (xtx_status x') = true →
  xtx_edge None (Some (xtx_status x')) →
  step_at id w w'.
Proof.
  intros Hinv Hx Hfin Hs Hf Hl Hb Hbid Hz Hok Hbidding Hedge. split; [|rewrite Hs, Hf, Hl, ?Hz; auto 10 with t3rn].
  split; [constructor|].
  - intros j y. rewrite Hs, Hf, Hl. destruct (decide (j = id)) as [->|Hne].
    + rewrite !lookup_insert_eq. intros [= <-]. split; [done|]. by eexists.
    + rewrite !lookup_insert_ne by done. apply (inv_stored _ Hinv).
  - intros j. rewrite Hs, Hf. rewrite !lookup_insert_is_Some. intros [->|[? Hj]]; [by left|].
    right. split; [done|]. by apply (inv_fsx _ Hinv).
  - intros j. rewrite Hs, Hl. rewrite !lookup_insert_is_Some. intros [->|[? Hj]]; [by left|].
    right. split; [done|]. by apply (inv_local _ Hinv).
  - intros j. rewrite Hs. destruct (decide (j = id)) as [->|Hne].
    + rewrite lookup_insert_eq. naive_solver.
    + rewrite Hb, lookup_insert_ne by done. apply (inv_bids _ Hinv).
  - intros j y. rewrite Hs, Hz. destruct (decide (j = id)) as [->|Hne].
    + rewrite lookup_insert_eq, Hfin. intros [= <-].
      split; [by intros []|]. by destruct (xtx_status x').
    + rewrite lookup_insert_ne by done. by apply (inv_finalized _ Hinv).
  - intros j. unfold status_of. rewrite Hs. destruct (decide (j = id)) as [->|Hne].
    + rewrite lookup_insert_eq, Hx. by apply rtc_once.
    + by rewrite lookup_insert_ne.
Qed.

End Writes.

(** ** Transitions *)

(** The statuses a precompile result may enforce on a stored transaction. *)
Definition enforceable (old : CircuitStatus) (enforced : option CircuitStatus) : Prop :=
  match enforced with
  | None | Some (Killed _) | Some (Reverted _) => True
  | Some InBidding => old = PendingBidding ∨ old = InBidding
  | Some Ready => old = InBidding
  | Some Committed => old = FinishedAllSteps
  | _ => False
  end.

(** The transitions of a stored transaction: those that are written, and those
    that [apply] ignores. *)
Definition transition_ok (old new determined : CircuitStatus) : Prop :=
  match old, new with
  | PendingBidding, InBidding | InBidding, InBidding | InBidding, Ready => True
  | (Reserved | PendingBidding | InBidding), Killed _ => True
  | (Ready | PendingExecution), Reverted _ => True
  | FinishedAllSteps, Committed => True
  | (Ready | PendingExecution), FinishedAllSteps => determined = FinishedAllSteps
  | Ready, (Ready | PendingExecution) => True
  | PendingExecution, PendingExecution => True
  (* ignored by apply *)
  | Reserved, (Reserved | PendingBidding) => True
  | PendingBidding, Ready => True
  | (Ready | PendingExecution | FinishedAllSteps), Killed _ => True
  | (Reserved | PendingBidding | InBidding | FinishedAllSteps), Reverted _ => True
  | (Reserved | PendingBidding | InBidding), FinishedAllSteps => True
  | FinishedAllSteps, (FinishedAllSteps | InBidding) => True
  | PendingBidding, PendingBidding => True
  | _, _ => False
  end.

Definition stored_status (s : CircuitStatus) : bool :=
  match s with
  | Reserved | PendingBidding | InBidding | Ready | PendingExecution | FinishedAllSteps => true
  | _ => false
  end.

Lemma determine_single_stored step : stored_status (determine_xtx_status [step]) = true.
Proof.
  destruct step as [|f step]; [done|]. rewrite determine_xtx_status_single by done.
  by repeat case_match.
Qed.

Lemma check_transition_ok old determined enforced new :
  stored_status old = true → stored_status determined = true → enforceable old enforced →
  check_transition old determined enforced = ROk new → transition_ok old new determined.
Proof.
  destruct enforced as [e|]; destruct_status old; try done; destruct_status determined; try done;
    try destruct_status e; intros _ _ He; simpl in He; try done; try naive_solver;
    intros Hc; vm_compute in Hc; simplify_eq; done.
Qed.

(** ** Compile *)

Lemma wp_with_am {A X E T} (m : M A E T) Q QE (w : World A X) :
  wp m (λ t a, Q t (set_am a w)) (λ e a, QE e (set_am a w)) (w_am w) → wp (with_am m) Q QE w.
Proof. unfold wp, with_am, zoom. by destruct (m (w_am w)). Qed.

Lemma same_core_set_am {A X} a (w w' : World A X) : same_core w w' → same_core w (set_am a w').
Proof. done. Qed.
#[export] Hint Resolve same_core_set_am same_core_refl : t3rn.

Section Compile.
Context {A X : Type} `{Hashing} `{AccountManagerSpec A} `{!CircuitConfig A X}.
Implicit Types w : World A X.

(** An operation that leaves the transactions alone and does not trap. *)
Definition keeps_core {E T} (m : M (World A X) E T) (Q : T → Prop) w : Prop :=
  wp m (λ t w', same_core w w' ∧ Q t) (λ _ w', same_core w w') w.

Lemma keeps_core_with_am {E T} (m : M A E T) (Q : T → Prop) w :
  wp m (λ t _, Q t) (λ _ _, True) (w_am w) → keeps_core (with_am m) Q w.
Proof.
  intros Hm. apply wp_with_am. eapply wp_mono; [exact Hm|by intros ? ? ?|by intros ? ? ?].
Qed.

(** The effect of [apply] with the side effects [step]: the transaction is
    gone, or its side effects are written, or nothing changed. *)
Definition applied_at id step w w' : Prop :=
  step_at id w w' ∧
  (is_Some (x_exec_signals w' !! id) → full_side_effects w' !! id = Some [step] ∨ same_core w w').

Lemma applied_at_core_trans id step w w1 w2 :
  applied_at id step w w1 → same_core w1 w2 → applied_at id step w w2.
Proof.
  intros [Hs Hw] Hc. split; [by eapply step_at_core_trans|].
  pose proof Hc as (-> & -> & _). intros Hx. destruct (Hw Hx); [by left|right].
  by eapply same_core_trans.
Qed.

Lemma same_core_applied_at_trans id step w w1 w2 :
  same_core w w1 → applied_at id step w1 w2 → applied_at id step w w2.
Proof.
  intros Hc [Hs Hw]. split; [by eapply same_core_step_at_trans|].
  intros Hx. destruct (Hw Hx); [by left|right]. by eapply same_core_trans.
Qed.

(** [apply] after a storage update [f]: squaring up does not touch the
    transactions. *)
Lemma wp_apply_write {E} id step (f : World A X → World A X) (m : M A E bool) w :
  wp m (λ _ _, True) (λ _ _, False) (w_am (f w)) → applied_at id step w (f w) →
  wp (modify f ;; with_am m ;; mret true) (λ _ w', applied_at id step w w') (λ _ _, False) w.
Proof.
  intros Hm Hf. apply wp_bind, wp_modify, wp_bind, wp_with_am.
  eapply wp_mono; [exact Hm| |done]. intros b a _. apply wp_ret.
  by eapply applied_at_core_trans.
Qed.

Lemma square_up_kill_ok {E} ctx step a :
  ctx_full_side_effects ctx = [step] →
  wp (E:=E) (square_up_kill ctx) (λ _ _, True) (λ _ _, False) a.
Proof.
  intros Hs. destruct (square_up_kill_run (E:=E) ctx step a) as (k & a' & Hk & _);
    [by apply read_current_step_single|]. unfold wp. by rewrite Hk.
Qed.

Lemma square_up_finalize_ok {E} ctx step a :
  ctx_full_side_effects ctx = [step] →
  wp (E:=E) (square_up_finalize ctx) (λ _ _, True) (λ _ _, False) a.
Proof.
  intros Hs. destruct (square_up_finalize_run (E:=E) ctx step a) as (k & Hk);
    [by apply read_current_step_single|]. unfold wp. by rewrite Hk.
Qed.

(** The writes of [apply] on a stored transaction [x] that becomes
    [ctx_xtx ctx]. *)
Section Apply.
Context (w : World A X) (ctx : LocalXtxCtx) (x : XExecSignal) (step : list FullSideEffect).
Context (Hinv : circuit_inv w) (Hx : x_exec_signals w !! ctx_xtx_id ctx = Some x).
Context (Hstep : ctx_full_side_effects ctx = [step]).
Abbreviation old := (xtx_status x).
Abbreviation new := (xtx_status (ctx_xtx ctx)).

Lemma bids_iff : is_Some (pending_xtx_bids_timeouts w !! ctx_xtx_id ctx) ↔ is_bidding old = true.
Proof. rewrite (inv_bids _ Hinv), Hx. naive_solver. Qed.

Lemma finalized_iff : is_Some (finalized_xtx w !! ctx_xtx_id ctx) ↔ old = FinishedAllSteps.
Proof. by apply (inv_finalized _ Hinv). Qed.

(** Writing the transaction and its side effects. *)
Lemma put_ok :
  is_bidding new = is_bidding old → (new = FinishedAllSteps ↔ old = FinishedAllSteps) →
  xtx_ok (ctx_xtx ctx) [step] → rtc xtx_edge (Some old) (Some new) →
  applied_at (ctx_xtx_id ctx) step w (put_fsx ctx (put_xtx ctx w)).
Proof.
  intros Hb Hf Hok Hedge. split; [|intros _; left; cbn; by rewrite Hstep, lookup_insert_eq].
  eapply update_ok; try done; cbn; try done.
  - by rewrite Hb, bids_iff.
  - by rewrite Hf, finalized_iff.
  - by rewrite Hstep.
Qed.

Lemma put_fsx_ok :
  xtx_ok x [step] → applied_at (ctx_xtx_id ctx) step w (put_fsx ctx w).
Proof.
  intros Hok. split; [|intros _; left; cbn; by rewrite Hstep, lookup_insert_eq].
  eapply (update_ok _ _ _ x x); try done; cbn.
  - by rewrite insert_id.
  - apply bids_iff.
  - apply finalized_iff.
  - by rewrite Hstep.
Qed.

Lemma apply_ready_ok :
  old = InBidding → new = Ready → applied_at (ctx_xtx_id ctx) step w (apply_ready ctx w).
Proof.
  intros Ho Hn. split; [|intros _; left; cbn; by rewrite Hstep, lookup_insert_eq].
  eapply update_ok; try done; cbn; rewrite ?Hn, ?Ho; auto with t3rn.
  - rewrite lookup_delete_eq. split; [by intros []|done].
  - rewrite finalized_iff, Ho. done.
  - exists step. by rewrite Hn.
  - apply rtc_once. constructor.
Qed.

Lemma apply_kill_ok : is_bidding old = true → applied_at (ctx_xtx_id ctx) step w (apply_kill ctx w).
Proof.
  intros Ho. split; [|cbn; rewrite lookup_delete_eq; by intros []].
  eapply remove_ok; try done; cbn; auto with t3rn.
  apply lookup_delete_eq.
Qed.

Lemma apply_revert_ok : old = Ready ∨ old = PendingExecution → applied_at (ctx_xtx_id ctx) step w (apply_revert ctx w).
Proof.
  intros Ho. split; [|cbn; rewrite lookup_delete_eq; by intros []].
  eapply remove_ok; try done; cbn; auto with t3rn.
  apply eq_None_not_Some. rewrite bids_iff. by destruct Ho as [-> | ->].
Qed.

Lemma apply_commit_ok : old = FinishedAllSteps → applied_at (ctx_xtx_id ctx) step w (apply_commit ctx w).
Proof.
  intros Ho. split; [|cbn; rewrite lookup_delete_eq; by intros []].
  eapply remove_ok; try done; cbn; rewrite ?Ho; auto with t3rn.
  apply eq_None_not_Some. by rewrite bids_iff, Ho.
Qed.

Lemma apply_finish_ok :
  old = Ready ∨ old = PendingExecution → new = FinishedAllSteps →
  determine_xtx_status [step] = FinishedAllSteps → applied_at (ctx_xtx_id ctx) step w (apply_finish ctx w).
Proof.
  intros Ho Hn Hd. split; [|intros _; left; cbn; by rewrite Hstep, lookup_insert_eq].
  eapply update_ok; try done; cbn; rewrite ?Hn; auto with t3rn.
  - rewrite bids_iff. by destruct Ho as [-> | ->].
  - rewrite lookup_insert_eq. naive_solver.
  - rewrite Hstep. exists step. by rewrite Hn.
  - apply rtc_once. by constructor.
Qed.

Lemma put_xtx_fsx_comm : put_xtx ctx (put_fsx ctx w) = put_fsx ctx (put_xtx ctx w).
Proof. done. Qed.

Lemma apply_wp {E} determined :
  stored_status old = true → transition_ok old new determined →
  determined = determine_xtx_status [step] →
  wp (E:=E) (apply ctx (old, new)) (λ _ w', applied_at (ctx_xtx_id ctx) step w w') (λ _ _, False) w.
Proof.
  intros Hst Htr Hdet.
  assert (wp (E:=E) (mret false) (λ _ w', applied_at (ctx_xtx_id ctx) step w w') (λ _ _, False) w) as Hnop
    by (split; [by apply same_core_step_at|by right]).
  pose proof (square_up_kill_ok (E:=E) ctx step (w_am (apply_kill ctx w)) Hstep) as Hkill.
  pose proof (square_up_finalize_ok (E:=E) ctx step (w_am (apply_finish ctx w)) Hstep) as Hfin.
  pose proof (square_up_finalize_ok (E:=E) ctx step (w_am (apply_revert ctx w)) Hstep) as Hrev.
  pose proof put_ok as Hput. pose proof put_fsx_ok as Hputf.
  pose proof apply_ready_ok as Hready. pose proof apply_kill_ok as Hk.
  pose proof apply_revert_ok as Hr. pose proof apply_commit_ok as Hc.
  pose proof apply_finish_ok as Hf.
  assert (∀ s, s = InBidding ∨ s = Ready ∨ s = PendingExecution → xtx_status x = s →
    xtx_ok x [step]) as Hokx.
  { intros s Hs Hxs. exists step. rewrite Hxs. by destruct Hs as [-> | [-> | ->]]. }
  assert (∀ s, s = InBidding ∨ s = Ready ∨ s = PendingExecution → xtx_status (ctx_xtx ctx) = s →
    xtx_ok (ctx_xtx ctx) [step]) as Hokc.
  { intros s Hs Hxs. exists step. rewrite Hxs. by destruct Hs as [-> | [-> | ->]]. }
  unfold apply. destruct old eqn:Ho; try done; destruct new eqn:Hn; try done;
    cbn -[put_fsx put_xtx apply_ready apply_kill apply_revert apply_commit apply_finish];
    first
      [ exact Hnop
      | apply wp_apply_write; [done|]; first [by apply Hk|by apply Hr; auto|apply Hf; [auto|done|congruence]]
      | apply wp_bind, wp_modify, wp_ret; first
          [ by apply Hready | by apply Hc
          | apply Hputf; by eapply Hokx; [|done]; auto
          | rewrite ?put_xtx_fsx_comm; apply Hput; [done|done|by eapply Hokc; [|done]; auto|];
            first [reflexivity | by apply rtc_once; constructor] ] ].
Qed.
End Apply.

(** What a precompile result may ask of a transaction in status [status]. *)
Definition pre_allowed (status : CircuitStatus) (r : PrecompileResult) : Prop :=
  match r with
  | ForceUpdateStatus s => enforceable status (Some s)
  | _ => True
  end.

Definition pre_ok (pre : Precompile A X) : Prop :=
  ∀ fsx ls cnt status req w,
    keeps_core (pre fsx ls cnt status req) (λ r, pre_allowed status r.1) w.

Definition post_ok (post : PostUpdate A X) : Prop :=
  ∀ change ctx step w,
    ctx_full_side_effects ctx = [step] → keeps_core (post change ctx) (λ _, True) w.

Lemma set_ctx_fsx_id ctx step :
  ctx_full_side_effects ctx = [step] → ctx = set_ctx_fsx [step] ctx.
Proof. destruct ctx. simpl. by intros ->. Qed.

Lemma with_am_request_core ctx step w :
  ctx_full_side_effects ctx = [step] →
  keeps_core (with_am (try_request ctx)) (λ _, True) w.
Proof.
  intros Hs. apply keeps_core_with_am. eapply wp_mono; [|done..].
  apply try_request_charges. by apply read_current_step_single.
Qed.

Lemma run_precompile_wp ctx step cur r w :
  ctx_full_side_effects ctx = [step] → pre_allowed (xtx_status (ctx_xtx ctx)) r →
  keeps_core (run_precompile ctx cur r)
    (λ e, enforceable (xtx_status (ctx_xtx ctx)) e.1 ∧ ∃ step', e.2 = set_ctx_fsx [step'] ctx) w.
Proof.
  intros Hs Hr. pose proof (set_ctx_fsx_id _ _ Hs) as Hid. unfold keeps_core, run_precompile.
  destruct r as [l|sfx amt who|sfx c| | |s|c|c].
  - rewrite (update_current_step_single _ _ _ Hs). apply wp_bind, wp_ret, wp_ret. split; [done|].
    split; [done|by eexists].
  - destruct (xtx_status (ctx_xtx ctx)) eqn:Hst; try done;
      (apply wp_bind; eapply wp_mono;
       [apply try_bid_spec| |intros ?? [? ->]; auto with t3rn];
       intros fsx' w' (_ & bid & a' & _ & _ & _ & _ & _ & _ & -> & _);
       rewrite (update_current_step_single _ _ _ Hs); apply wp_bind, wp_ret, wp_ret;
       (split; [done|]); (split; [simpl; auto|by eexists])).
  - apply wp_bind, wp_ensure; [intros _|auto with t3rn].
    rewrite (update_current_step_single _ _ _ Hs). apply wp_bind, wp_ret, wp_ret. split; [done|].
    split; [done|by eexists].
  - apply wp_bind, wp_map_err. eapply wp_mono; [by eapply with_am_request_core| |done].
    intros [] w' [Hc _]. apply wp_ret. split; [done|]. split; [done|by eexists].
  - apply wp_ret. split; [done|]. split; [done|by eexists].
  - destruct (status_eqb _ _ && _).
    + apply wp_bind, wp_with_am.
      destruct (bind_bidders_run (E:=CircuitError) ctx step (w_am w) Hs) as (b & a' & Hb & _).
      unfold wp at 1. rewrite Hb. apply wp_ret. split; [done|]. split; [done|by eexists].
    + apply wp_ret. split; [done|]. split; [done|by eexists].
  - apply wp_ret. split; [done|]. split; [done|by eexists].
  - apply wp_ret. split; [done|]. split; [done|by eexists].
Qed.

Lemma update_status_wp ctx enforced w :
  wp (update_status ctx enforced)
    (λ u w', w' = w ∧ ∃ n steps,
       u = (xtx_status (ctx_xtx ctx), n, set_ctx_xtx (set_status_steps n steps (ctx_xtx ctx)) ctx) ∧
       check_transition (xtx_status (ctx_xtx ctx))
         (determine_xtx_status (ctx_full_side_effects ctx)) enforced = ROk n)
    (λ _ w', w' = w) w.
Proof.
  unfold update_status. apply wp_bind.
  assert (wp (E:=CircuitError) (match xtx_status (ctx_xtx ctx) with
     | Killed _ => throw UpdateAttemptDoubleKill
     | Reverted _ => throw UpdateAttemptDoubleRevert
     | _ => mret tt end) (λ _ w', w' = w) (λ _ w', w' = w) w) as Hpre by by case_match.
  eapply wp_mono; [exact Hpre| |done]. intros [] w' ->.
  apply wp_bind, wp_map_err. destruct (check_transition _ _ _) as [n|e] eqn:Hc; [|done].
  apply wp_ret, wp_ret. split; [done|]. by eexists _, _.
Qed.

Lemma stored_status_ok x steps : xtx_ok x steps → stored_status (xtx_status x) = true.
Proof. intros (step & _ & Hs). by destruct (xtx_status x). Qed.

(** [compile] on a stored transaction. *)
Lemma compile_loaded_wp ctx pre post w :
  circuit_inv w → ctx_loaded ctx w → pre_ok pre → post_ok post →
  wp (compile ctx pre post)
    (λ r w', step_at (ctx_xtx_id ctx) w w' ∧ ctx_xtx_id r.1 = ctx_xtx_id ctx ∧
             ∃ step, ctx_full_side_effects r.1 = [step])
    (λ _ w', same_core w w') w.
Proof.
  intros Hinv Hl Hpre Hpost. pose proof (ctx_loaded_ok _ _ Hinv Hl) as Hok.
  pose proof (stored_status_ok _ _ Hok) as Hst. destruct Hok as (step & Hs & _).
  unfold compile. rewrite (read_current_step_single _ _ Hs). apply wp_bind, wp_ret, wp_bind.
  eapply wp_mono; [apply Hpre| |done]. intros [r cur] w1 [Hc1 Hr]. cbn [fst snd] in *.
  apply wp_bind. eapply wp_mono; [by eapply run_precompile_wp|
    |intros ?? ?; by eapply same_core_trans].
  intros [enf ctx1] w2 (Hc2 & Henf & step' & Hctx1). cbn [fst snd] in *. subst ctx1.
  pose proof (same_core_trans _ _ _ Hc1 Hc2) as Hc12. clear Hc1 Hc2.
  apply wp_bind. eapply wp_mono; [apply update_status_wp| |by intros ?? ->].
  intros ? w3 (-> & n & steps & -> & Hcheck). cbn [fst snd] in *.
  apply wp_bind. eapply wp_mono; [by eapply Hpost|
    |intros ?? ?; by eapply same_core_trans].
  intros [] w3 [Hc3 _]. pose proof (same_core_trans _ _ _ Hc12 Hc3) as Hc. clear Hc12 Hc3.
  apply wp_bind. eapply wp_mono;
    [eapply (apply_wp w3 (set_ctx_xtx (set_status_steps n steps (ctx_xtx ctx))
                            (set_ctx_fsx [step'] ctx)) (ctx_xtx ctx) step')| |done].
  - by eapply same_core_inv.
  - destruct Hc as [-> _]. apply Hl.
  - done.
  - done.
  - by eapply check_transition_ok; [done|apply determine_single_stored| |exact Hcheck].
  - done.
  - intros b w4 Hw4. apply wp_ret. split; [eapply same_core_step_at_trans; [done|apply Hw4]|]. split; [done|by eexists].
Qed.

(** [compile] on a transaction that is being set up. *)
Definition pre_plain (pre : Precompile A X) : Prop :=
  ∀ fsx ls cnt status req w,
    keeps_core (pre fsx ls cnt status req) (λ r, r.1 = TryRequest ∨ r.1 = Continue) w.

Lemma run_precompile_plain ctx step cur r w :
  ctx_full_side_effects ctx = [step] → r = TryRequest ∨ r = Continue →
  keeps_core (run_precompile ctx cur r) (λ e, e = (None, ctx)) w.
Proof.
  intros Hs [-> | ->]; unfold keeps_core, run_precompile; [|by apply wp_ret].
  apply wp_bind, wp_map_err. eapply wp_mono; [by eapply with_am_request_core| |done].
  intros [] w' [Hc _]. by apply wp_ret.
Qed.

Lemma fresh_no_bid step : fresh_step step → existsb has_bid step = false.
Proof.
  induction 1 as [|f step [_ Hf] _ IH]; [done|]. cbn [existsb]. rewrite IH.
  unfold has_bid. by rewrite Hf.
Qed.

Lemma determine_fresh step :
  fresh_step step →
  determine_xtx_status [step] = if is_empty step then Reserved else PendingBidding.
Proof.
  intros Hf. destruct step as [|f step]; [done|].
  rewrite determine_xtx_status_single, fresh_no_bid by done. done.
Qed.

Lemma apply_request_ok w ctx step x :
  circuit_inv w → x_exec_signals w !! ctx_xtx_id ctx = None →
  finalized_xtx w !! ctx_xtx_id ctx = None →
  ctx_full_side_effects ctx = [step] → fresh_step step →
  xtx_status (ctx_xtx ctx) = (if is_empty step then Reserved else PendingBidding) →
  ctx_xtx ctx = x →
  step_at (ctx_xtx_id ctx) w (apply_request ctx w) ∧ ctx_loaded ctx (apply_request ctx w).
Proof.
  intros Hinv Hx Hfin Hs Hf Hst <-. split.
  - eapply create_ok; try done; cbn; auto with t3rn.
    + rewrite lookup_insert_eq. by eexists.
    + exists step. split; [done|]. rewrite Hst. destruct step as [|f step]; [done|].
      split; [done|]. by apply fresh_no_bid.
    + rewrite Hst. by destruct (is_empty step).
    + rewrite Hst. destruct (is_empty step); constructor.
  - unfold ctx_loaded. cbn. by rewrite !lookup_insert_eq.
Qed.

Lemma apply_requested {E} ctx n :
  n = Reserved ∨ n = PendingBidding →
  apply (A:=A) (X:=X) (E:=E) ctx (Requested, n) = (modify (apply_request ctx) ;; mret true).
Proof. by intros [-> | ->]. Qed.

Lemma ctx_fresh_core ctx w w' : same_core w w' → ctx_fresh ctx w → ctx_fresh ctx w'.
Proof. unfold ctx_fresh. by intros (-> & _ & _ & _ & ->). Qed.

Lemma compile_fresh_wp ctx pre post w :
  circuit_inv w → ctx_fresh ctx w → pre_plain pre → post_ok post →
  wp (compile ctx pre post)
    (λ r w', step_at (ctx_xtx_id ctx) w w' ∧ ctx_xtx_id r.1 = ctx_xtx_id ctx ∧ ctx_loaded r.1 w')
    (λ _ w', same_core w w') w.
Proof.
  intros Hinv Hl Hpre Hpost. pose proof Hl as (_ & _ & Hst & step & Hs & Hf).
  unfold compile. rewrite (read_current_step_single _ _ Hs). apply wp_bind, wp_ret, wp_bind.
  eapply wp_mono; [apply Hpre| |done]. intros [r cur] w1 [Hc1 Hr]. cbn [fst snd] in *.
  apply wp_bind. eapply wp_mono; [by eapply run_precompile_plain|
    |intros ?? ?; by eapply same_core_trans].
  intros ? w2 (Hc2 & ->). cbn [fst snd]. pose proof (same_core_trans _ _ _ Hc1 Hc2) as Hc12.
  apply wp_bind. eapply wp_mono; [apply update_status_wp| |by intros ?? ->].
  intros ? w3 (-> & n & steps & -> & Hcheck). cbn [fst snd].
  rewrite Hst, Hs, determine_fresh in Hcheck by done.
  assert (n = if is_empty step then Reserved else PendingBidding) as Hn
    by (by destruct (is_empty step); cbn in Hcheck; simplify_eq).
  apply wp_bind. eapply wp_mono; [by eapply Hpost|
    |intros ?? ?; by eapply same_core_trans].
  intros [] w3 [Hc3 _]. pose proof (same_core_trans _ _ _ Hc12 Hc3) as Hc.
  pose proof (ctx_fresh_core _ _ _ Hc Hl) as (Hx & Hfin & _).
  apply (same_core_inv _ _ Hc) in Hinv as Hinv3.
  edestruct (apply_request_ok w3 (set_ctx_xtx (set_status_steps n steps (ctx_xtx ctx)) ctx) step)
    as [Hok Hld]; [done..|].
  apply wp_bind. rewrite Hst, apply_requested by (rewrite Hn; destruct (is_empty step); auto).
  apply wp_bind, wp_modify, wp_ret, wp_ret.
  split; [by eapply same_core_step_at_trans|]. split; [done|]. apply Hld.
Qed.
End Compile.
