(* ===== verification/Safety.v ===== *)
(** * Safety of the calls and hooks

    Every dispatchable and every block hook keeps the storage invariant, moves
    the transactions along the status automaton and does not trap; over all
    histories, this is [reachable_safe].  The only assumption on the
    environment is that a new transaction does not take the identifier of a
    finalized one: [reused_id_traps] shows what happens otherwise. *)

From S2P Require Import Prelude Types Status AccountManager World SquareUp Bids Validate.
From S2P Require Import Machine Circuit Queues Calls Invariant.

(** ** Operations that leave the transactions alone *)

Section Core.
Context {A X : Type} `{Hashing} `{AccountManagerSpec A} `{!CircuitConfig A X}.
Implicit Types w : World A X.

Definition kc {E T} (m : M (World A X) E T) (Q : T → Prop) : Prop := ∀ w, keeps_core m Q w.

Lemma kc_bind {E T U} (m : M (World A X) E T) (f : T → M (World A X) E U) P Q :
  kc m P → (∀ t, P t → kc (f t) Q) → kc (m ≫= f) Q.
Proof.
  intros Hm Hf w. apply wp_bind. eapply wp_mono; [apply Hm| |done].
  intros t w1 [Hc Ht]. eapply wp_mono; [by apply Hf| |].
  - intros u w2 [Hc2 Hu]. split; [by eapply same_core_trans|done].
  - intros e w2 Hc2. by eapply same_core_trans.
Qed.

Lemma kc_ret {E T} (t : T) (Q : T → Prop) : Q t → kc (E:=E) (mret t) Q.
Proof. intros Ht w. by apply wp_ret. Qed.
Lemma kc_gets {E T} (f : World A X → T) : kc (E:=E) (gets f) (λ _, True).
Proof. intros w. by apply wp_gets. Qed.
Lemma kc_throw {E T} (e : E) (Q : T → Prop) : kc (throw e) Q.
Proof. intros w. by apply wp_throw. Qed.
Lemma kc_ensure {E} b (e : E) : kc (ensure b e) (λ _, b = true).
Proof. intros w. by apply wp_ensure. Qed.
Lemma kc_ok_or {E T} (o : option T) (e : E) : kc (ok_or o e) (λ t, o = Some t).
Proof. intros w. by apply wp_ok_or. Qed.
Lemma kc_lift {E T} (r : result E T) : kc (lift_result r) (λ t, r = ROk t).
Proof. intros w. by destruct r. Qed.
Lemma kc_map_err {E E' T} (g : E → E') (m : M (World A X) E T) Q : kc m Q → kc (map_err g m) Q.
Proof. intros Hm w. apply wp_map_err, Hm. Qed.
Lemma kc_load_xtx id : kc (load_xtx id) (λ _, True).
Proof. intros w. eapply wp_mono; [apply load_xtx_total|by intros ?? ->..]. Qed.
Lemma kc_event {E} ev : kc (E:=E) (deposit_event ev) (λ _, True).
Proof. intros w. by apply wp_modify. Qed.
Lemma kc_ext {E T} (f : X → X * T) : kc (E:=E) (zoom w_ext set_ext (run_total f)) (λ _, True).
Proof. done. Qed.
Lemma kc_weaken {E T} (m : M (World A X) E T) P (Q : T → Prop) :
  (∀ t, P t → Q t) → kc m P → kc m Q.
Proof. intros HPQ Hm w. eapply wp_mono; [apply Hm|naive_solver|done]. Qed.

Lemma kc_for_each {E T} (l : list T) (f : T → M (World A X) E unit) :
  (∀ t, kc (f t) (λ _, True)) → kc (for_each l f) (λ _, True).
Proof.
  intros Hf. induction l as [|t l IH]; [by apply kc_ret|].
  cbn [for_each]. eapply kc_bind; [apply Hf|by intros _ _].
Qed.

Lemma kc_if {E T} (b : bool) (m1 m2 : M (World A X) E T) Q :
  kc m1 Q → kc m2 Q → kc (if b then m1 else m2) Q.
Proof. by destruct b. Qed.
End Core.

(** [solve_kc]: along the structure of the program. *)
Ltac solve_kc :=
  repeat first
    [ apply kc_ret; done
    | apply kc_gets | apply kc_throw | apply kc_event | apply kc_ext | apply kc_load_xtx
    | apply kc_ensure | apply kc_ok_or | apply kc_lift
    | apply kc_map_err
    | apply kc_if
    | eapply kc_bind; [|intros ? ?]
    | progress case_match ].

Section Callbacks.
Context {A X : Type} `{Hashing} `{AccountManagerSpec A} `{!CircuitConfig A X}.
Implicit Types w : World A X.

Lemma emit_sfx_kc {E} id who l : kc (A:=A) (X:=X) (E:=E) (emit_sfx id who l) (λ _, True).
Proof. unfold emit_sfx. solve_kc. Qed.

Lemma emit_opt_kc {E} e : kc (A:=A) (X:=X) (E:=E) (emit_opt e) (λ _, True).
Proof. unfold emit_opt. solve_kc. Qed.

Lemma emit_status_update_kc {E} id x f :
  kc (A:=A) (X:=X) (E:=E) (emit_status_update id x f) (λ _, True).
Proof.
  unfold emit_status_update. destruct x as [x|]; [|solve_kc].
  eapply kc_bind; [apply emit_opt_kc|intros _ _].
  apply kc_if; [apply emit_opt_kc|solve_kc].
Qed.

Lemma request_one_attestation_kc {E} ctx fsx :
  kc (A:=A) (X:=X) (E:=E) (request_one_attestation ctx fsx) (λ _, True).
Proof. unfold request_one_attestation. solve_kc. Qed.

Lemma request_sfx_attestation_kc {E} ctx step :
  ctx_full_side_effects ctx = [step] →
  kc (A:=A) (X:=X) (E:=E) (request_sfx_attestation ctx) (λ _, True).
Proof.
  intros Hs. unfold request_sfx_attestation. rewrite (read_current_step_single _ _ Hs).
  eapply kc_bind; [by apply (kc_ret step (λ _, True))|intros ? _].
  apply kc_for_each, request_one_attestation_kc.
Qed.

Lemma confirm_kc id l sfx c : kc (A:=A) (X:=X) (confirm id l sfx c) (λ _, True).
Proof. unfold confirm, circ. solve_kc. Qed.

(** The callbacks of the pallet. *)
Lemma no_post_updates_ok : post_ok (A:=A) (X:=X) no_post_updates.
Proof. intros ?? step w Hs. by apply wp_ret. Qed.

Lemma emit_update_ok : post_ok (A:=A) (X:=X) emit_update.
Proof. intros ?? step w Hs. apply emit_status_update_kc. Qed.

Lemma emit_sfx_ok who (f : LocalXtxCtx → list SideEffect) :
  post_ok (A:=A) (X:=X) (λ _ ctx, emit_sfx (ctx_xtx_id ctx) who (f ctx)).
Proof. intros ?? step w Hs. apply emit_sfx_kc. Qed.

Lemma event_ok ev : post_ok (A:=A) (X:=X) (λ _ _, deposit_event ev).
Proof. intros ?? step w Hs. apply kc_event. Qed.

Lemma confirmed_post_update_ok sfx_id : post_ok (A:=A) (X:=X) (confirmed_post_update sfx_id).
Proof.
  intros ?? step w Hs. revert w. fold (kc (E:=CircuitError) (confirmed_post_update sfx_id change ctx) (λ _, True)).
  unfold confirmed_post_update. eapply kc_bind; [apply kc_event|intros _ _].
  eapply kc_bind; [apply kc_if; [by eapply request_sfx_attestation_kc|by apply (kc_ret tt (λ _, True))]|].
  intros _ _. apply emit_status_update_kc.
Qed.

Lemma revert_post_update_ok id : post_ok (A:=A) (X:=X) (revert_post_update id).
Proof.
  intros change ctx step w Hs. revert w.
  fold (kc (E:=CircuitError) (revert_post_update id change ctx) (λ _, True)).
  unfold revert_post_update. eapply kc_bind; [by eapply request_sfx_attestation_kc|intros _ _].
  apply kc_event.
Qed.

Lemma const_pre_ok r : (∀ s, r ≠ ForceUpdateStatus s) →
  pre_ok (A:=A) (X:=X) (λ current_fsx _ _ _ _, mret (r, current_fsx)).
Proof.
  intros Hr fsx ls cnt status req w. apply wp_ret. split; [done|]. destruct r; naive_solver.
Qed.

Lemma tick_one_pre_ok : pre_ok (A:=A) (X:=X) tick_one_precompile.
Proof.
  intros fsx ls cnt status req w. apply wp_ret. split; [done|]. cbn [fst].
  destruct status; try done. by case_match.
Qed.

Lemma tick_two_pre_ok : pre_ok (A:=A) (X:=X) tick_two_precompile.
Proof.
  intros fsx ls cnt status req w. apply wp_ret. split; [done|]. by destruct status.
Qed.

Lemma local_pre_ok id : pre_ok (A:=A) (X:=X) (local_precompile id).
Proof. intros fsx ls cnt status req w. by apply wp_ret. Qed.

Lemma cancel_pre_ok who : pre_ok (A:=A) (X:=X) (cancel_precompile who).
Proof.
  intros fsx ls cnt status req w. revert w.
  fold (kc (cancel_precompile (A:=A) (X:=X) who fsx ls cnt status req) (λ r, pre_allowed status r.1)).
  unfold cancel_precompile. solve_kc.
Qed.

Lemma confirm_pre_ok id sfx c : pre_ok (A:=A) (X:=X) (confirm_precompile id sfx c).
Proof.
  intros fsx ls cnt status req w. revert w.
  fold (kc (confirm_precompile (A:=A) (X:=X) id sfx c fsx ls cnt status req) (λ r, pre_allowed status r.1)).
  unfold confirm_precompile. eapply kc_bind; [apply kc_map_err, confirm_kc|intros ? _].
  by apply kc_ret.
Qed.
End Callbacks.

(** ** Operations that only emit events or notify the attesters *)

Section Quiet.
Context {A X : Type} `{Hashing} `{AccountManagerSpec A} `{!CircuitConfig A X}.
Implicit Types w : World A X.

Definition noted (x : X) (evs : list Event) w : World A X := set_ext x (set_events evs w).

Definition quiet {E T} (m : M (World A X) E T) : Prop :=
  ∀ w, ∃ t x evs, m w = Ok t (noted x evs w).

Lemma noted_same w : noted (w_ext w) (w_events w) w = w.
Proof. by destruct w. Qed.

Lemma quiet_bind {E T U} (m : M (World A X) E T) (f : T → M (World A X) E U) :
  quiet m → (∀ t, quiet (f t)) → quiet (m ≫= f).
Proof.
  intros Hm Hf w. destruct (Hm w) as (t & x & evs & Ht).
  destruct (Hf t (noted x evs w)) as (u & x' & evs' & Hu).
  exists u, x', evs'. by rewrite (bind_Ok _ _ _ _ _ Ht), Hu.
Qed.
Lemma quiet_ret {E T} (t : T) : quiet (E:=E) (mret t).
Proof. intros w. exists t, (w_ext w), (w_events w). by rewrite noted_same. Qed.
Lemma quiet_gets {E T} (f : World A X → T) : quiet (E:=E) (gets f).
Proof. intros w. exists (f w), (w_ext w), (w_events w). by rewrite noted_same. Qed.
Lemma quiet_event {E} ev : quiet (E:=E) (deposit_event ev).
Proof. intros w. exists tt, (w_ext w), (ev :: w_events w). by destruct w. Qed.
Lemma quiet_ext {E T} (f : X → X * T) : quiet (E:=E) (zoom w_ext set_ext (run_total f)).
Proof. intros w. exists (f (w_ext w)).2, (f (w_ext w)).1, (w_events w). by destruct w. Qed.
Lemma quiet_for_each {E T} (l : list T) (f : T → M (World A X) E unit) :
  (∀ t, quiet (f t)) → quiet (for_each l f).
Proof.
  intros Hf. induction l as [|t l IH]; [apply quiet_ret|].
  cbn [for_each]. by apply quiet_bind.
Qed.

Definition post_quiet (post : PostUpdate A X) : Prop :=
  ∀ change ctx step, ctx_full_side_effects ctx = [step] → quiet (post change ctx).

Lemma no_post_updates_quiet : post_quiet no_post_updates.
Proof. intros ????. apply quiet_ret. Qed.

Lemma emit_opt_quiet {E} e : quiet (E:=E) (emit_opt e).
Proof. destruct e; [apply quiet_event|apply quiet_ret]. Qed.

Lemma emit_update_quiet : post_quiet emit_update.
Proof.
  intros ????. unfold emit_update, emit_status_update.
  apply quiet_bind; [apply emit_opt_quiet|intros _].
  destruct (status_leb _ _); [apply emit_opt_quiet|apply quiet_ret].
Qed.

Lemma request_one_attestation_quiet {E} ctx fsx : quiet (E:=E) (request_one_attestation ctx fsx).
Proof.
  unfold request_one_attestation. destruct (bool_decide _); [|apply quiet_ret].
  destruct (xtx_status _); try apply quiet_ret.
  all: repeat first [apply quiet_event | apply quiet_gets | apply quiet_ext
                    | apply quiet_bind; [|intros ?] | case_match].
Qed.

Lemma request_sfx_attestation_quiet {E} ctx step :
  ctx_full_side_effects ctx = [step] → quiet (E:=E) (request_sfx_attestation ctx).
Proof.
  intros Hs. unfold request_sfx_attestation. rewrite (read_current_step_single _ _ Hs).
  apply quiet_bind; [apply quiet_ret|intros ?]. apply quiet_for_each, request_one_attestation_quiet.
Qed.

Lemma revert_post_update_quiet id : post_quiet (revert_post_update id).
Proof.
  intros ?? step Hs. apply quiet_bind; [by eapply request_sfx_attestation_quiet|].
  intros _. apply quiet_event.
Qed.

(** [compile] step by step, when nothing fails before [apply]. *)
Definition moved (ctx : LocalXtxCtx) (n : CircuitStatus) : LocalXtxCtx :=
  set_ctx_xtx (set_status_steps n (check_bump_steps ctx (xtx_status (ctx_xtx ctx), n)) (ctx_xtx ctx))
    ctx.

Lemma compile_run ctx step cur r pre post w enf step1 w1 n :
  ctx_full_side_effects ctx = [step] → is_terminal (xtx_status (ctx_xtx ctx)) = false →
  pre step (ctx_local_state ctx) (xtx_steps_cnt (ctx_xtx ctx)) (xtx_status (ctx_xtx ctx))
    (xtx_requester (ctx_xtx ctx)) w = Ok (r, cur) w →
  run_precompile ctx cur r w = Ok (enf, set_ctx_fsx [step1] ctx) w1 →
  check_transition (xtx_status (ctx_xtx ctx)) (determine_xtx_status [step1]) enf = ROk n →
  post_quiet post →
  ∃ x evs, compile ctx pre post w =
    (applied ← apply (moved (set_ctx_fsx [step1] ctx) n) (xtx_status (ctx_xtx ctx), n);
     mret (moved (set_ctx_fsx [step1] ctx) n, applied)) (noted x evs w1).
Proof.
  intros Hs Hterm Hpre Hrun Hcheck Hpost.
  destruct (Hpost (xtx_status (ctx_xtx ctx), n) (moved (set_ctx_fsx [step1] ctx) n) step1 eq_refl w1)
    as ([] & x & evs & Hp).
  exists x, evs. unfold compile. rewrite (read_current_step_single _ _ Hs).
  rewrite (bind_Ok _ _ _ _ _ (eq_refl : expect (Some step) w = Ok step w)).
  rewrite (bind_Ok _ _ _ _ _ Hpre). cbn [fst snd]. rewrite (bind_Ok _ _ _ _ _ Hrun). cbn [fst snd].
  assert (update_status (set_ctx_fsx [step1] ctx) enf w1 =
    Ok (xtx_status (ctx_xtx ctx), n, moved (set_ctx_fsx [step1] ctx) n) w1) as Hup.
  { unfold update_status, moved, mbind, M_bind.
    cbn -[check_transition determine_xtx_status check_bump_steps]. rewrite Hcheck.
    by destruct (xtx_status (ctx_xtx ctx)). }
  rewrite (bind_Ok _ _ _ _ _ Hup). cbn [fst snd]. by rewrite (bind_Ok _ _ _ _ _ Hp).
Qed.

(** [compile] refuses a transition. *)
Lemma compile_refused ctx step cur r pre post w enf step1 w1 e :
  ctx_full_side_effects ctx = [step] → is_terminal (xtx_status (ctx_xtx ctx)) = false →
  pre step (ctx_local_state ctx) (xtx_steps_cnt (ctx_xtx ctx)) (xtx_status (ctx_xtx ctx))
    (xtx_requester (ctx_xtx ctx)) w = Ok (r, cur) w →
  run_precompile ctx cur r w = Ok (enf, set_ctx_fsx [step1] ctx) w1 →
  check_transition (xtx_status (ctx_xtx ctx)) (determine_xtx_status [step1]) enf = RErr e →
  compile ctx pre post w = Err UpdateStateTransitionDisallowed w1.
Proof.
  intros Hs Hterm Hpre Hrun Hcheck. unfold compile. rewrite (read_current_step_single _ _ Hs).
  rewrite (bind_Ok _ _ _ _ _ (eq_refl : expect (Some step) w = Ok step w)).
  rewrite (bind_Ok _ _ _ _ _ Hpre). cbn [fst snd]. rewrite (bind_Ok _ _ _ _ _ Hrun). cbn [fst snd].
  apply bind_Err. unfold update_status, mbind, M_bind.
  cbn -[check_transition determine_xtx_status check_bump_steps]. rewrite Hcheck.
  by destruct (xtx_status (ctx_xtx ctx)).
Qed.
End Quiet.

(** ** Hooks *)

Section Hooks.
Context {A X : Type} `{Hashing} `{AccountManagerSpec A} `{!CircuitConfig A X}.
Implicit Types w : World A X.

Lemma noted_core x evs w : same_core w (noted x evs w).
Proof. done. Qed.

Lemma stored_not_terminal s : stored_status s = true → is_terminal s = false.
Proof. by destruct s. Qed.

(** A [compile] that enforces an acceptable status does not fail. *)
Lemma compile_forced_wp ctx step r pre post w enf step1 w1 n :
  circuit_inv w → ctx_loaded ctx w → ctx_full_side_effects ctx = [step] →
  pre step (ctx_local_state ctx) (xtx_steps_cnt (ctx_xtx ctx)) (xtx_status (ctx_xtx ctx))
    (xtx_requester (ctx_xtx ctx)) w = Ok (r, step) w →
  run_precompile ctx step r w = Ok (enf, set_ctx_fsx [step1] ctx) w1 → same_core w w1 →
  enforceable (xtx_status (ctx_xtx ctx)) enf →
  check_transition (xtx_status (ctx_xtx ctx)) (determine_xtx_status [step1]) enf = ROk n →
  post_quiet post →
  wp (compile ctx pre post) (λ _ w', step_at (ctx_xtx_id ctx) w w') (λ _ _, False) w.
Proof.
  intros Hinv Hl Hs Hpre Hrun Hc Henf Hcheck Hpost.
  pose proof (stored_status_ok _ _ (ctx_loaded_ok _ _ Hinv Hl)) as Hst.
  destruct (compile_run ctx step step r pre post w enf step1 w1 n Hs (stored_not_terminal _ Hst)
              Hpre Hrun Hcheck Hpost) as (x & evs & Heq).
  assert (same_core w (noted x evs w1)) as Hc' by exact Hc.
  unfold wp at 1. rewrite Heq.
  enough (wp (E:=CircuitError) (apply (moved (set_ctx_fsx [step1] ctx) n) (xtx_status (ctx_xtx ctx), n))
            (λ _ w', applied_at (ctx_xtx_id ctx) step1 (noted x evs w1) w') (λ _ _, False)
            (noted x evs w1)) as Hwp.
  { unfold wp in Hwp. unfold mbind, M_bind. destruct (apply _ _ _); [|done..].
    eapply same_core_step_at_trans; [done|apply Hwp]. }
  eapply (apply_wp (noted x evs w1) (moved (set_ctx_fsx [step1] ctx) n) (ctx_xtx ctx) step1);
    [by eapply same_core_inv| |done|done| |done].
  - destruct Hc' as [-> _]. apply Hl.
  - by eapply check_transition_ok; [done|apply determine_single_stored| |exact Hcheck].
Qed.

Lemma not_all_bids_determined step :
  step ≠ [] → forallb has_bid step = false →
  determine_xtx_status [step] = PendingBidding ∨ determine_xtx_status [step] = InBidding.
Proof.
  intros Hne Hb. rewrite determine_xtx_status_single, Hb by done.
  destruct (existsb has_bid step); auto.
Qed.

(** The status [process_tick_one] moves a transaction to. *)
Definition tick_one_target (status : CircuitStatus) (step : list FullSideEffect) : CircuitStatus :=
  match status with
  | InBidding => if forallb has_bid step then Ready else Killed Timeout
  | _ => Killed Timeout
  end.

(** The side effects it stores: with the bidders bound when they are ready. *)
Definition tick_one_step (a : A) (ctx : LocalXtxCtx) (step : list FullSideEffect)
    : list FullSideEffect :=
  match xtx_status (ctx_xtx ctx) with
  | InBidding =>
      if forallb has_bid step then map (bound_fsx (charges a) (ctx_xtx_id ctx)) step else step
  | _ => step
  end.

Definition tick_one_charges (m : gmap Z RequestCharge) (ctx : LocalXtxCtx)
    (step : list FullSideEffect) : gmap Z RequestCharge :=
  match xtx_status (ctx_xtx ctx) with
  | InBidding =>
      if forallb has_bid step then fold_left (bound_charge (ctx_xtx_id ctx)) step m else m
  | _ => m
  end.

Lemma tick_one_runs ctx step w :
  xtx_ok (ctx_xtx ctx) [step] → ctx_full_side_effects ctx = [step] →
  is_bidding (xtx_status (ctx_xtx ctx)) = true →
  ∃ r enf a', 
    tick_one_precompile step (ctx_local_state ctx) (xtx_steps_cnt (ctx_xtx ctx))
      (xtx_status (ctx_xtx ctx)) (xtx_requester (ctx_xtx ctx)) w = Ok (r, step) w ∧
    run_precompile ctx step r w =
      Ok (enf, set_ctx_fsx [tick_one_step (w_am w) ctx step] ctx) (set_am a' w) ∧
    enforceable (xtx_status (ctx_xtx ctx)) enf ∧
    check_transition (xtx_status (ctx_xtx ctx))
      (determine_xtx_status [tick_one_step (w_am w) ctx step]) enf =
      ROk (tick_one_target (xtx_status (ctx_xtx ctx)) step) ∧
    charges a' = tick_one_charges (charges (w_am w)) ctx step.
Proof.
  intros (step' & [= <-] & Hok) Hs Hb. pose proof (set_ctx_fsx_id _ _ Hs) as Hid.
  assert (w = set_am (w_am w) w) as Hw by by destruct w.
  unfold tick_one_precompile, tick_one_step, tick_one_target, tick_one_charges.
  change (forallb (λ fsx, is_some (fsx_best_bid fsx)) step) with (forallb has_bid step).
  destruct (xtx_status (ctx_xtx ctx)) eqn:Hst; try done.
  - subst step. exists (TryKill Timeout), (Some (Killed Timeout)), (w_am w).
    rewrite <- Hw, <- Hid. done.
  - destruct Hok as [Hne Hnb]. exists (TryKill Timeout), (Some (Killed Timeout)), (w_am w).
    rewrite <- Hw, <- Hid. split_and!; [done..| |done].
    by rewrite determine_xtx_status_single, Hnb.
  - destruct (forallb has_bid step) eqn:Hall.
    + destruct (bind_bidders_run (E:=CircuitError) ctx step (w_am w) Hs) as (b & a' & Hbind & Hch).
      exists (ForceUpdateStatus Ready), (Some Ready), a'. split_and!; [done| |done| |done].
      * unfold run_precompile. rewrite Hst, !status_eqb_refl. cbn [andb].
        unfold with_am, zoom, mbind, M_bind. by rewrite Hbind.
      * unfold check_transition, check_forced. case_match eqn:Heq; [|done].
        by apply status_eqb_eq in Heq as <-.
    + exists (TryKill Timeout), (Some (Killed Timeout)), (w_am w). rewrite <- Hw, <- Hid.
      split_and!; [done..| |done]. destruct step as [|f step]; [done|].
      by destruct (not_all_bids_determined (f :: step)) as [-> | ->].
Qed.

Lemma tick_one_wp {E} id w :
  circuit_inv w → is_Some (pending_xtx_bids_timeouts w !! id) →
  wp (E:=E) (process_tick_one id) (λ _ w', step_at id w w') (λ _ _, False) w.
Proof.
  intros Hinv Hbid. apply (inv_bids _ Hinv) in Hbid as (x & Hx & Hb).
  destruct (inv_load _ _ _ Hinv Hx) as (ctx & Hload & <- & <- & Hl).
  pose proof (ctx_loaded_ok _ _ Hinv Hl) as Hok. pose proof Hok as (step & Hs & _).
  rewrite Hs in Hok.
  destruct (tick_one_runs ctx step w Hok Hs Hb) as (r & enf & a' & Hpre & Hrun & Henf & Hcheck & _).
  unfold process_tick_one. apply wp_bind, wp_expect_ok. unfold wp at 1. rewrite Hload.
  apply wp_bind, wp_expect_ok. eapply wp_mono; [eapply compile_forced_wp|
    intros ? w' Hw'; by apply wp_ret|done]; try done. apply emit_update_quiet.
Qed.

Lemma tick_two_wp {E} id w :
  circuit_inv w → is_Some (finalized_xtx w !! id) →
  wp (E:=E) (process_tick_two id) (λ _ w', step_at id w w') (λ _ _, False) w.
Proof.
  intros Hinv Hfin. unfold process_tick_two. apply wp_bind, wp_attempt.
  eapply wp_mono; [apply load_xtx_wp| |intros ?? ->; apply wp_ret; by apply same_core_step_at].
  intros ctx w' (-> & <- & Hl). pose proof (ctx_loaded_ok _ _ Hinv Hl) as (step & Hs & Hok).
  apply (inv_finalized _ Hinv _ (ctx_xtx ctx)) in Hfin; [|apply Hl]. rewrite Hfin in Hok.
  apply wp_bind, wp_expect_ok. eapply (wp_mono _ (λ _ w', step_at (ctx_xtx_id ctx) w w') _
    (λ _ _, False)); [|intros ? w' Hw'; by apply wp_ret|done].
  eapply (compile_forced_wp ctx step (ForceUpdateStatus Committed) _ _ w (Some Committed) step w
            Committed); try done.
  - unfold tick_two_precompile. by rewrite Hfin.
  - unfold run_precompile. rewrite Hfin, <- (set_ctx_fsx_id _ _ Hs). done.
  - by rewrite Hok, Hfin.
  - apply emit_update_quiet.
Qed.

Lemma revert_transition old determined cause :
  ∃ n, check_transition old determined (Some (Reverted cause)) = ROk n.
Proof.
  unfold check_transition, check_forced. destruct (status_eqb _ _); [by eexists|].
  destruct (status_ltb determined Ready); [by eexists|].
  destruct (status_ltb determined FinishedAllSteps); by eexists.
Qed.

Lemma revert_wp {E} id cause post w :
  circuit_inv w → post_quiet post →
  wp (E:=E) (revert id cause post) (λ _ w', step_at id w w') (λ _ _, False) w.
Proof.
  intros Hinv Hpost. unfold revert, infallible_on. apply wp_bind, wp_attempt.
  eapply wp_mono; [apply load_xtx_wp| |intros ?? ->; apply wp_ret; by apply same_core_step_at].
  intros ctx w' (-> & <- & Hl). pose proof (ctx_loaded_ok _ _ Hinv Hl) as (step & Hs & _).
  apply wp_bind, wp_expect_ok. eapply (wp_mono _ (λ _ w', step_at (ctx_xtx_id ctx) w w') _
    (λ _ _, False)); [|intros ? w' Hw'; by apply wp_ret|done].
  destruct (revert_transition (xtx_status (ctx_xtx ctx)) (determine_xtx_status [step]) cause) as [n Hn].
  eapply (compile_forced_wp ctx step (RevertXtx cause) _ _ w (Some (Reverted cause)) step w n);
    try done. cbn. by rewrite <- (set_ctx_fsx_id _ _ Hs).
Qed.
End Hooks.

(** ** Queues *)

Section QueueSafety.
Context {A X : Type} `{Hashing} `{AccountManagerSpec A} `{!CircuitConfig A X}.
Implicit Types w : World A X.

(** Changing the timeouts of a transaction. *)
Lemma mutate_ok f id w w' :
  circuit_inv w → (∀ x, xtx_status (f x) = xtx_status x) →
  x_exec_signals w' = alter f id (x_exec_signals w) →
  full_side_effects w' = full_side_effects w → local_xtx_states w' = local_xtx_states w →
  pending_xtx_bids_timeouts w' = pending_xtx_bids_timeouts w →
  finalized_xtx w' = finalized_xtx w →
  step_at id w w'.
Proof.
  intros Hinv Hf Hs Hfsx Hl Hb Hz. destruct (x_exec_signals w !! id) as [x|] eqn:Hx.
  - destruct (inv_stored _ Hinv _ _ Hx) as (_ & steps & Hsteps & step & -> & Hok).
    eapply (update_ok w w' id x (f x) [step]); try done.
    + rewrite Hs. apply map_eq. intros j. destruct (decide (id = j)) as [<-|Hne].
      * by rewrite lookup_alter_eq, lookup_insert_eq, Hx.
      * by rewrite lookup_alter_ne, lookup_insert_ne.
    + by rewrite Hfsx, insert_id.
    + by rewrite Hb.
    + rewrite Hb, Hf, (inv_bids _ Hinv), Hx. naive_solver.
    + by rewrite Hz.
    + rewrite Hz, Hf. by apply (inv_finalized _ Hinv).
    + exists step. by rewrite Hf.
    + by rewrite Hf.
  - apply same_core_step_at; [done|]. split_and!; [|done..].
    rewrite Hs. apply map_eq. intros j. destruct (decide (id = j)) as [<-|Hne].
    + by rewrite lookup_alter_eq, Hx.
    + by rewrite lookup_alter_ne.
Qed.

Lemma add_xtx_to_dlq_wp {E} id targets mode w :
  circuit_inv w →
  wp (E:=E) (add_xtx_to_dlq id targets mode) (λ _ w', step_at id w w') (λ _ _, False) w.
Proof.
  intros Hinv. unfold add_xtx_to_dlq. apply wp_bind, wp_gets.
  destruct (is_some _); [by apply wp_ret, same_core_step_at|].
  apply wp_bind, wp_modify, wp_bind, wp_modify, wp_bind, wp_modify, wp_ret.
  eapply mutate_ok; [done| |done..]. done.
Qed.

Lemma remove_xtx_from_dlq_wp {E} id w :
  circuit_inv w →
  wp (E:=E) (remove_xtx_from_dlq id) (λ _ w', step_at id w w') (λ _ _, False) w.
Proof.
  intros Hinv. unfold remove_xtx_from_dlq. apply wp_bind, wp_gets.
  destruct (dlq_entries w !! id); [|by apply wp_ret, same_core_step_at].
  apply wp_bind, wp_modify, wp_bind, wp_gets, wp_bind, wp_modify, wp_bind, wp_modify, wp_ret.
  eapply mutate_ok; [done| |done..]. done.
Qed.

Lemma process_revert_one_wp {E} id w :
  circuit_inv w →
  wp (E:=E) (process_revert_one id) (λ _ w', step_at id w w') (λ _ _, False) w.
Proof.
  intros Hinv. unfold process_revert_one. apply wp_bind, wp_gets, wp_bind, wp_gets.
  destruct (negb _); [by apply add_xtx_to_dlq_wp|].
  apply wp_bind. eapply wp_mono; [apply revert_wp; [done|apply revert_post_update_quiet]| |done].
  intros b w' Hw'. by apply wp_ret.
Qed.

Lemma revert_one_weight_wp {E} id w :
  circuit_inv w →
  wp (E:=E) (revert_one_weight id) (λ _ w', step_at id w w') (λ _ _, False) w.
Proof.
  intros Hinv. apply wp_bind. eapply wp_mono; [by apply process_revert_one_wp| |done].
  intros r w' Hw'. by apply wp_ret.
Qed.

(** Processing distinct entries one after the other, when the precondition of
    an entry is not affected by the others. *)
Lemma process_while_wp {E} (f : Hash → M (World A X) E Z) (P : Hash → World A X → Prop) max :
  (∀ id w, circuit_inv w → P id w → wp (f id) (λ _ w', step_at id w w') (λ _ _, False) w) →
  (∀ id j w w', j ≠ id → P j w → step_at id w w' → P j w') →
  ∀ l cur w, NoDup l → (∀ id, id ∈ l → P id w) → circuit_inv w →
    wp (process_while f max l cur) (λ _ w', step_ok w w') (λ _ _, False) w.
Proof.
  intros Hf HP. induction l as [|id l IH]; intros cur w Hnd Hl Hinv.
  { by apply wp_ret, step_ok_refl. }
  apply NoDup_cons in Hnd as [Hnin Hnd]. cbn [process_while].
  destruct (cur <=? max); [|apply IH; [done| |done]; set_solver].
  apply wp_bind. eapply wp_mono; [apply Hf; [done|set_solver]| |done].
  intros wt w1 Hw1. eapply wp_mono; [apply IH| |done].
  - done.
  - intros j Hj. eapply HP; [|apply Hl; set_solver|exact Hw1]. set_solver.
  - apply Hw1.
  - intros ? w2 Hw2. eapply step_ok_trans; [apply Hw1|done].
Qed.

Lemma bids_still_due id j w w' :
  j ≠ id → is_Some (pending_xtx_bids_timeouts w !! j) → step_at id w w' →
  is_Some (pending_xtx_bids_timeouts w' !! j).
Proof. intros Hne Hj (_ & _ & _ & _ & Hb & _). by rewrite Hb. Qed.

Lemma still_finalized id j w w' :
  j ≠ id → is_Some (finalized_xtx w !! j) → step_at id w w' → is_Some (finalized_xtx w' !! j).
Proof. intros Hne Hj (_ & _ & _ & _ & _ & Hz). by rewrite Hz. Qed.

Lemma filter_keys_sub {V} (p : Z * V → bool) (m : gmap Z V) id :
  id ∈ map fst (List.filter p (storage_iter m)) → is_Some (m !! id).
Proof.
  rewrite list_elem_of_In, in_map_iff. intros ([k v] & <- & Hin).
  apply filter_In in Hin as [Hin _]. apply list_elem_of_In, storage_iter_elem in Hin. by eexists.
Qed.

Lemma due_keys_NoDup {V} (p : Z * V → bool) (m : gmap Z V) :
  NoDup (map fst (List.filter p (storage_iter m))).
Proof. apply NoDup_map_filter, storage_iter_NoDup. Qed.

Lemma process_xtx_tick_queue_wp {E} n interval max w :
  circuit_inv w →
  wp (E:=E) (process_xtx_tick_queue n interval max) (λ _ w', step_ok w w') (λ _ _, False) w.
Proof.
  intros Hinv. unfold process_xtx_tick_queue.
  destruct (interval =? 0); [by apply wp_ret, step_ok_refl|].
  destruct (n mod interval =? 0); [|by apply wp_ret, step_ok_refl].
  apply wp_bind, wp_gets, wp_bind.
  eapply wp_mono; [apply (process_while_wp _ _ _ tick_one_wp bids_still_due)| |done].
  - apply due_keys_NoDup.
  - intros id. apply filter_keys_sub.
  - done.
  - intros cur w1 Hw1. apply wp_bind, wp_gets.
    eapply wp_mono; [apply (process_while_wp _ _ _ tick_two_wp still_finalized)| |done].
    + apply storage_iter_NoDup.
    + intros id. rewrite list_elem_of_In, in_map_iff. intros ([k v] & <- & Hin).
      apply list_elem_of_In, storage_iter_elem in Hin. by eexists.
    + apply Hw1.
    + intros ? w2 Hw2. eapply step_ok_trans; [apply Hw1|done].
Qed.

Lemma revert_all_wp {E} l cur w :
  circuit_inv w → wp (E:=E) (revert_all l cur) (λ _ w', step_ok w w') (λ _ _, False) w.
Proof.
  revert cur w. induction l as [|id l IH]; intros cur w Hinv; [by apply wp_ret, step_ok_refl|].
  cbn [revert_all]. apply wp_bind. eapply wp_mono; [by apply revert_one_weight_wp| |done].
  intros wt w1 Hw1. eapply wp_mono; [apply IH, Hw1| |done].
  intros ? w2 Hw2. eapply step_ok_trans; [apply Hw1|done].
Qed.

Lemma process_adaptive_wp {E} n w :
  circuit_inv w →
  wp (E:=E) (process_adaptive_xtx_timeout_queue n) (λ _ w', step_ok w w') (λ _ _, False) w.
Proof. intros Hinv. apply wp_bind, wp_gets. by apply revert_all_wp. Qed.

Lemma process_emergency_wp {E} n interval max w :
  circuit_inv w →
  wp (E:=E) (process_emergency_revert_xtx_queue n interval max)
    (λ _ w', step_ok w w') (λ _ _, False) w.
Proof.
  intros Hinv. unfold process_emergency_revert_xtx_queue.
  destruct (interval =? 0); [by apply wp_ret, step_ok_refl|].
  destruct (n mod interval =? 0); [|by apply wp_ret, step_ok_refl].
  apply wp_bind, wp_gets.
  apply (process_while_wp _ (λ _ _, True)); [|done|apply due_keys_NoDup|done|done].
  intros id w' Hinv' _. by apply revert_one_weight_wp.
Qed.

Lemma process_dlq_entries_wp {E} l w :
  circuit_inv w → wp (E:=E) (process_dlq_entries l) (λ _ w', step_ok w w') (λ _ _, False) w.
Proof.
  revert w. induction l as [|e l IH]; intros w Hinv; [by apply wp_ret, step_ok_refl|].
  cbn [process_dlq_entries].
  assert (wp (E:=E) (process_dlq_entry e) (λ _ w', step_ok w w') (λ _ _, False) w) as He.
  { unfold process_dlq_entry. apply wp_bind, wp_gets.
    destruct (ensure_all_gateways_are_active _ _); [|by apply wp_ret, step_ok_refl].
    apply wp_bind. eapply wp_mono; [by apply remove_xtx_from_dlq_wp| |done].
    intros r w' [Hw' _]. by apply wp_ret. }
  apply wp_bind. eapply wp_mono; [exact He| |done]. intros wt w1 Hw1.
  apply wp_bind. eapply wp_mono; [apply IH, Hw1| |done].
  intros wts w2 Hw2. apply wp_ret. eapply step_ok_trans; [apply Hw1|done].
Qed.

Lemma process_dlq_wp {E} n w :
  circuit_inv w → wp (E:=E) (process_dlq n) (λ _ w', step_ok w w') (λ _ _, False) w.
Proof.
  intros Hinv. apply wp_bind, wp_gets, wp_bind.
  eapply wp_mono; [by apply process_dlq_entries_wp| |done]. intros wts w' Hw'. by apply wp_ret.
Qed.
End QueueSafety.
