(* ===== verification/Reach.v ===== *)
(** * Histories of the Circuit

    The pallet as a transition system: dispatchables, block hooks, the signal
    queue and the other pallets take turns.  Over every history the storage
    invariant holds, transactions follow their life cycle, and neither a
    dispatchable nor a timeout hook traps. *)

From S2P Require Import Prelude Types Status AccountManager World SquareUp Bids Validate.
From S2P Require Import Machine Circuit Queues Calls Invariant Safety.

(** ** Safety of the dispatchables

    Each dispatchable keeps the storage invariant, follows the status automaton
    and does not trap; one that fails changes nothing. *)

Lemma wp_transactional {S E A} (m : M S E A) Q s :
  wp m Q (λ _ _, True) s → wp (transactional m) Q (λ _ s', s' = s) s.
Proof. unfold wp, transactional. by destruct (m s). Qed.

(** The identifier the next transaction of an account gets. *)
Definition next_xtx_id `{Hashing} {A X} (w : World A X) (who : AccountId) : Hash :=
  keccak256 (be_bytes 32 who ++ word32 (default 0 (w_nonces w !! who))).

Definition fresh_for `{Hashing} {A X} (w : World A X) (who : AccountId) : Prop :=
  finalized_xtx w !! next_xtx_id w who = None.

(** ** Hot swap *)

Section HotSwap.
Context {A X : Type} `{Hashing} `{AccountManagerSpec A} `{!CircuitConfig A X}.
Implicit Types w : World A X.

Lemma determined_finished step :
  determine_xtx_status [step] = FinishedAllSteps ↔
  step ≠ [] ∧ forallb (λ f, has_bid f && has_executor f && has_confirmation f) step = true.
Proof.
  destruct (decide (step = [])) as [->|Hne]; [naive_solver|].
  rewrite determine_xtx_status_single by done.
  assert (forallb (λ f, has_bid f && has_executor f && has_confirmation f) step =
    forallb has_bid step && forallb has_executor step && forallb has_confirmation step) as ->.
  { clear Hne. induction step as [|f step IH]; [done|]. cbn [forallb]. rewrite IH.
    destruct (has_bid f), (has_executor f), (has_confirmation f); cbn;
      rewrite ?andb_false_r; done. }
  pose proof (forallb_existsb_nonempty has_bid step Hne).
  destruct (forallb has_bid step), (forallb has_executor step),
    (forallb has_confirmation step), (existsb has_bid step),
    (existsb has_confirmation step); naive_solver.
Qed.

(** Swapping a deal keeps its bid, executor and confirmation. *)
Lemma swapped_ddd_flags executor fsx fsx' :
  swapped_ddd executor fsx = Some fsx' →
  has_bid fsx' = has_bid fsx ∧ has_executor fsx' = has_executor fsx ∧
  has_confirmation fsx' = has_confirmation fsx.
Proof.
  unfold swapped_ddd. intros Hs. apply bind_Some in Hs as (? & _ & Hs).
  apply bind_Some in Hs as (? & _ & [= <-]).
  unfold has_bid, has_executor, has_confirmation. cbn. by case_match.
Qed.

Definition override_step (xtx_id sfx_id : Hash) (new_fsx : FullSideEffect)
    (step : list FullSideEffect) : list FullSideEffect :=
  map (λ fsx, if has_sfx_id xtx_id sfx_id fsx then new_fsx else fsx) step.

Lemma override_xtx_ok x step l0 fsx fsx' executor xtx_id sfx_id :
  xtx_ok x [step] → xtx_ok x [l0] → fsx ∈ l0 → swapped_ddd executor fsx = Some fsx' →
  xtx_ok x [override_step xtx_id sfx_id fsx' step].
Proof.
  intros (? & [= <-] & Hstep) (? & [= <-] & Hl0) Hin Hsw.
  apply swapped_ddd_flags in Hsw as (Hb & He & Hc).
  exists (override_step xtx_id sfx_id fsx' step). split; [done|].
  destruct (xtx_status x); try done.
  - by subst step.
  - destruct Hstep as [Hne Hnb], Hl0 as [_ Hl0]. split; [by destruct step|].
    assert (has_bid fsx' = false) as Hfalse.
    { rewrite Hb. destruct (has_bid fsx) eqn:Hbf; [|done].
      apply not_true_iff_false in Hl0. destruct Hl0. apply existsb_exists.
      exists fsx. split; [by apply list_elem_of_In|done]. }
    clear Hne. unfold override_step. induction step as [|g step IH]; [done|].
    cbn [existsb map] in Hnb |- *. apply orb_false_iff in Hnb as [Hg Hnb].
    rewrite IH by done. by destruct (has_sfx_id xtx_id sfx_id g); rewrite ?Hfalse, ?Hg.
  - apply determined_finished in Hstep as [Hne Hall]. apply determined_finished in Hl0 as [_ Hl0].
    apply determined_finished. split; [by destruct step|].
    assert (has_bid fsx' && has_executor fsx' && has_confirmation fsx' = true) as Htrue.
    { rewrite Hb, He, Hc. rewrite forallb_forall in Hl0. by apply Hl0, list_elem_of_In. }
    clear Hne. unfold override_step. induction step as [|g step IH]; [done|].
    cbn [forallb map] in Hall |- *. apply andb_true_iff in Hall as [Hg Hall].
    rewrite IH by done. by destruct (has_sfx_id xtx_id sfx_id g); rewrite ?Htrue, ?Hg.
Qed.

Definition stored_ok id step w : Prop :=
  ∀ x, x_exec_signals w !! id = Some x → xtx_ok x [step].

Lemma hot_swap_one w id l0 fsx fsx' executor sfx_id steps :
  circuit_inv w → stored_ok id l0 w → fsx ∈ l0 → swapped_ddd executor fsx = Some fsx' →
  full_side_effects w !! id = Some steps →
  let w' := set_fsx (<[id := override_fsx id sfx_id fsx' steps]> (full_side_effects w)) w in
  step_ok w w' ∧ stored_ok id l0 w'.
Proof.
  intros Hinv Hst Hin Hsw Hf w'. split; [|done].
  destruct (inv_fsx _ Hinv id) as [x Hx]; [by eexists|].
  destruct (inv_stored _ Hinv _ _ Hx) as (_ & steps' & Hf' & step & -> & Hok).
  assert (steps = [step]) as -> by congruence.
  apply (update_ok w w' id x x [override_step id sfx_id fsx' step]); try done.
  - cbn. by rewrite insert_id.
  - cbn. rewrite (inv_bids _ Hinv), Hx. naive_solver.
  - cbn. by apply (inv_finalized _ Hinv).
  - eapply override_xtx_ok; [by exists step|by apply Hst|done..].
Qed.

Lemma hot_swap_all_wp id executor l l0 w :
  circuit_inv w → stored_ok id l0 w → l ⊆ l0 →
  wp (hot_swap_all (A:=A) (X:=X) id executor l) (λ _ w', step_ok w w') (λ _ _, True) w.
Proof.
  revert w. induction l as [|fsx l IH]; intros w Hinv Hst Hsub; [by apply wp_ret, step_ok_refl|].
  cbn [hot_swap_all]. apply wp_bind.
  eapply (wp_mono _ (λ _ w1, step_ok w w1 ∧ stored_ok id l0 w1) _ (λ _ _, True)); [| |done].
  - destruct (bool_decide _); [|apply wp_ret; split; [by apply step_ok_refl|done]].
    apply wp_bind, wp_ok_or; [|done]. intros fsx' Hsw. apply wp_bind, wp_gets.
    destruct (full_side_effects w !! id) as [steps|] eqn:Hf;
      [|apply wp_ret; split; [by apply step_ok_refl|done]].
    apply wp_bind, wp_modify, wp_ret. eapply hot_swap_one; try done. set_solver.
  - intros swapped w1 [Hw1 Hst1]. apply wp_bind.
    eapply wp_mono; [apply IH; [apply Hw1|done|set_solver]| |done].
    intros others w2 Hw2. apply wp_ret. eapply step_ok_trans; [apply Hw1|done].
Qed.
End HotSwap.

(** ** Calls *)

Section CallSafety.
Context {A X : Type} `{Hashing} `{AccountManagerSpec A} `{!CircuitConfig A X}.
Implicit Types w : World A X.

Lemma confirm_in_step_flags id sfx c fsx (f := λ g, if has_sfx_id id sfx g
    then set_confirmed (Some c) g else g) :
  has_bid (f fsx) = has_bid fsx ∧ has_executor (f fsx) = has_executor fsx ∧
  (has_confirmation fsx = true → has_confirmation (f fsx) = true).
Proof. unfold f. by destruct (has_sfx_id id sfx fsx). Qed.

(** Confirming a side effect keeps what is known of the stored status. *)
Lemma confirm_in_step_ok x step id sfx c :
  xtx_ok x [step] → xtx_ok x [confirm_in_step id sfx c step].
Proof.
  intros (? & [= <-] & Hok). exists (confirm_in_step id sfx c step). split; [done|].
  unfold confirm_in_step. destruct (xtx_status x); try done.
  - by subst step.
  - destruct Hok as [Hne Hnb]. split; [by destruct step|]. clear Hne.
    induction step as [|g step IH]; [done|]. cbn [existsb map] in Hnb |- *.
    apply orb_false_iff in Hnb as [Hg Hnb].
    destruct (confirm_in_step_flags id sfx c g) as (-> & _). by rewrite Hg, IH.
  - apply determined_finished in Hok as [Hne Hall]. apply determined_finished.
    split; [by destruct step|]. clear Hne. induction step as [|g step IH]; [done|].
    cbn [forallb map] in Hall |- *.
    apply andb_true_iff in Hall as [[[Hg1 Hg2]%andb_true_iff Hg3]%andb_true_iff Hall].
    destruct (confirm_in_step_flags id sfx c g) as (-> & -> & Hg3').
    by rewrite Hg1, Hg2, Hg3', IH.
Qed.

(** Confirming without checks, as [escrow] does. *)
Lemma compile_confirm_wp ctx sfx c post w :
  circuit_inv w → ctx_loaded ctx w → post_ok post →
  wp (compile ctx (λ cur _ _ _ _, mret (TryConfirm sfx c, cur)) post)
    (λ r w', step_at (ctx_xtx_id ctx) w w' ∧ ctx_xtx_id r.1 = ctx_xtx_id ctx ∧
       ∃ step, ctx_full_side_effects r.1 = [step] ∧ stored_ok (ctx_xtx_id ctx) step w')
    (λ _ w', same_core w w') w.
Proof.
  intros Hinv Hl Hpost. pose proof (ctx_loaded_ok _ _ Hinv Hl) as Hok.
  pose proof (stored_status_ok _ _ Hok) as Hst. pose proof Hok as (step & Hs & _). rewrite Hs in Hok.
  unfold compile. rewrite (read_current_step_single _ _ Hs).
  apply wp_bind, wp_ret, wp_bind, wp_ret, wp_bind. cbn [fst snd run_precompile].
  apply wp_bind, wp_ensure; [intros _|done].
  rewrite (update_current_step_single _ _ _ Hs). apply wp_bind, wp_ret, wp_ret. cbn [fst snd].
  set (step' := confirm_in_step _ _ _ step).
  apply wp_bind. eapply wp_mono; [apply update_status_wp| |by intros ?? ->].
  intros ? w1 (-> & n & steps & -> & Hcheck). cbn [fst snd].
  apply wp_bind. eapply wp_mono; [by eapply Hpost| |done]. intros [] w1 [Hc _]. apply wp_bind.
  eapply wp_mono; [eapply (apply_wp w1 (set_ctx_xtx (set_status_steps n steps (ctx_xtx ctx))
                            (set_ctx_fsx [step'] ctx)) (ctx_xtx ctx) step')| |done].
  - by eapply same_core_inv.
  - destruct Hc as [-> _]. apply Hl.
  - done.
  - done.
  - by eapply (check_transition_ok _ _ None); [done|apply determine_single_stored| |exact Hcheck].
  - done.
  - intros b w2 Hw2. apply wp_ret. cbn [fst].
    apply (same_core_applied_at_trans _ _ _ _ _ Hc) in Hw2 as [Hat Hwr].
    split; [done|]. split; [done|]. exists step'. split; [done|].
    intros x Hx. destruct (Hwr (mk_is_Some _ _ Hx)) as [Hf|Hsame].
    + destruct Hat as [[Hinv2 _] _].
      destruct (inv_stored _ Hinv2 _ _ Hx) as (_ & ? & Hf' & Hok').
      cbn in Hf. rewrite Hf in Hf'. by simplify_eq.
    + destruct Hsame as [Hsig _]. cbn in Hx. rewrite Hsig in Hx. destruct Hl as [Hx' _].
      rewrite Hx' in Hx. simplify_eq. by apply confirm_in_step_ok.
Qed.

Lemma setup_wp sfx who timeout lvl w :
  wp (setup sfx who timeout lvl)
    (λ c w', w' = w ∧ ctx_xtx_id c = next_xtx_id w who ∧ (fresh_for w who → ctx_fresh c w))
    (λ _ w', w' = w) w.
Proof.
  unfold setup. apply wp_bind, wp_gets, wp_bind, wp_gets. cbn [setup_fresh].
  apply wp_bind, wp_gets, wp_bind, wp_ensure; [intros Hdup|done].
  eapply wp_mono; [apply validate_wp| |done].
  intros c w' (-> & step & -> & _ & Hf). split; [done|]. split; [done|].
  intros Hfresh. unfold ctx_fresh. cbn. split_and!; [|done|done|by exists step].
  by destruct (x_exec_signals w !! _).
Qed.

Lemma charge_finality_fee_core x ctx who step w :
  ctx_full_side_effects ctx = [step] →
  keeps_core (A:=A) (X:=X) (with_am (charge_finality_fee x ctx who)) (λ _, True) w.
Proof.
  intros Hs. apply keeps_core_with_am. unfold charge_finality_fee.
  rewrite (read_current_step_single _ _ Hs). apply wp_bind, wp_ret, wp_bind, wp_try_modify; [|done].
  intros a' _. by apply wp_ret.
Qed.

Lemma do_on_extrinsic_trigger_wp who sfx mode lvl origin w :
  circuit_inv w → fresh_for w who →
  wp (do_on_extrinsic_trigger who sfx mode lvl origin)
    (λ c w', step_ok w w' ∧ ctx_xtx_id c = next_xtx_id w who ∧ ctx_loaded c w')
    (λ _ _, True) w.
Proof.
  intros Hinv Hfresh. unfold do_on_extrinsic_trigger.
  apply wp_bind, wp_gets, wp_bind, wp_gets, wp_bind.
  eapply wp_mono; [apply setup_wp| |done]. intros c w' (-> & Hid & Hc).
  specialize (Hc Hfresh). pose proof Hc as (_ & _ & _ & step & Hs & _).
  apply wp_bind, wp_map_err. eapply wp_mono; [by eapply charge_finality_fee_core| |done].
  intros fee w1 [Hc1 _]. apply wp_bind.
  eapply wp_mono; [eapply compile_fresh_wp| |done].
  - by eapply same_core_inv.
  - eapply ctx_fresh_core; [done|]. exact Hc.
  - intros ? ? ? ? ? ?. apply wp_ret. split; [done|by left].
  - apply (emit_sfx_ok who (λ _, sfx)).
  - intros r w2 (Hw2 & Hid2 & Hl2). apply wp_ret. split; [|split; [by rewrite Hid2|done]].
    eapply same_core_step_trans; [done|apply Hw2].
Qed.

Lemma authorize_wp {S} origin role (s : S) :
  wp (authorize origin role) (λ who s', s' = s ∧ origin = Signed who) (λ _ _, True) s.
Proof. by destruct role, origin. Qed.

(** What is proved of a dispatchable. *)
Definition call_ok (m : M (World A X) DispatchError unit) w : Prop :=
  wp m (λ _ w', step_ok w w') (λ _ w', w' = w) w.

Lemma on_extrinsic_trigger_ok origin sfx mode lvl w :
  circuit_inv w → (∀ who, origin = Signed who → fresh_for w who) →
  call_ok (on_extrinsic_trigger origin sfx mode lvl) w.
Proof.
  intros Hinv Hf. apply wp_transactional, wp_bind. eapply wp_mono; [apply authorize_wp| |done].
  intros who w' [-> ->]. apply wp_bind, wp_map_err.
  eapply wp_mono; [apply do_on_extrinsic_trigger_wp; [done|by apply Hf]| |done].
  intros c w' (Hw' & _). by apply wp_ret.
Qed.

Lemma on_remote_origin_trigger_ok origin order_origin sfx mode w :
  circuit_inv w → fresh_for w order_origin →
  call_ok (on_remote_origin_trigger origin order_origin sfx mode) w.
Proof.
  intros Hinv Hf. apply wp_transactional, wp_bind. eapply wp_mono; [apply authorize_wp| |done].
  intros who w' [-> _]. apply wp_bind, wp_ensure; [intros _|done]. apply wp_bind, wp_map_err.
  eapply wp_mono; [by apply do_on_extrinsic_trigger_wp| |done].
  intros c w' (Hw' & _). by apply wp_ret.
Qed.

(** Loading a transaction and compiling it. *)
Lemma load_and_compile_wp id pre post w :
  circuit_inv w → (∀ c, ctx_xtx_id c = id → pre_ok (pre c)) → post_ok post →
  wp (ctx ← circ (load_xtx id); circ (compile ctx (pre ctx) post) ;; mret tt)
    (λ _ w', step_ok w w') (λ _ _, True) w.
Proof.
  intros Hinv Hpre Hpost. apply wp_bind, wp_map_err.
  eapply wp_mono; [apply load_xtx_wp| |done]. intros ctx w' (-> & Hid & Hl).
  apply wp_bind, wp_map_err. eapply wp_mono; [apply compile_loaded_wp; auto| |done].
  intros r w' [[Hw' _] _]. by apply wp_ret.
Qed.

Lemma cancel_xtx_ok origin id w : circuit_inv w → call_ok (cancel_xtx origin id) w.
Proof.
  intros Hinv. apply wp_transactional, wp_bind. eapply wp_mono; [apply authorize_wp| |done].
  intros who w' [-> _]. apply (load_and_compile_wp id (λ _, cancel_precompile who)); [done|..].
  - intros _ _. apply cancel_pre_ok.
  - apply no_post_updates_ok.
Qed.

Lemma bid_sfx_ok origin sfx amt w : circuit_inv w → call_ok (bid_sfx origin sfx amt) w.
Proof.
  intros Hinv. apply wp_transactional, wp_bind. eapply wp_mono; [apply authorize_wp| |done].
  intros who w' [-> _]. apply wp_bind, wp_gets, wp_bind, wp_ok_or; [intros id _|done].
  apply (load_and_compile_wp id (λ _ cur _ _ _ _, mret (TryBid sfx amt who, cur))); [done|..].
  - intros _ _. by apply const_pre_ok.
  - apply event_ok.
Qed.

Lemma confirm_side_effect_ok origin sfx c w :
  circuit_inv w → call_ok (confirm_side_effect origin sfx c) w.
Proof.
  intros Hinv. apply wp_transactional, wp_bind. eapply wp_mono; [apply authorize_wp| |done].
  intros who w' [-> _]. apply wp_bind, wp_gets, wp_bind, wp_ok_or; [intros id _|done].
  apply (load_and_compile_wp id (λ _, confirm_precompile id sfx c)); [done|..].
  - intros _ _. apply confirm_pre_ok.
  - apply confirmed_post_update_ok.
Qed.

Lemma call_revert_ok origin id w : circuit_inv w → call_ok (call_revert origin id) w.
Proof.
  intros Hinv. apply wp_transactional, wp_bind. destruct origin; [|done..].
  apply wp_ret, wp_bind. eapply wp_mono; [apply revert_wp; [done|apply no_post_updates_quiet]| |done].
  intros b w' [Hw' _]. by apply wp_ret.
Qed.

Lemma trigger_dlq_ok origin w : circuit_inv w → call_ok (trigger_dlq origin) w.
Proof.
  intros Hinv. apply wp_transactional, wp_bind. destruct origin; [done| |done].
  apply wp_ret, wp_bind, wp_gets, wp_bind.
  eapply wp_mono; [by apply process_dlq_wp| |done]. intros wt w' Hw'. by apply wp_ret.
Qed.

Lemma deposit_core id c w :
  keeps_core (A:=A) (X:=X) (with_am (am_deposit id c)) (λ _, True) w.
Proof.
  apply keeps_core_with_am. unfold wp. rewrite spec_deposit.
  pose proof (spec_deposit_batch [(id, c)] (w_am w)) as Hd. unfold wp in Hd.
  by destruct (am_deposit_batch _ _).
Qed.

Lemma events_core {T} (l : list T) (f : T → Event) w :
  keeps_core (A:=A) (X:=X) (E:=DispatchError) (for_each l (λ e, deposit_event (f e))) (λ _, True) w.
Proof. revert w. apply kc_for_each. intros e. apply kc_event. Qed.

Lemma escrow_ok origin sfx w : circuit_inv w → call_ok (escrow origin sfx) w.
Proof.
  intros Hinv. apply wp_transactional, wp_bind. eapply wp_mono; [apply authorize_wp| |done].
  intros who w' [-> _]. apply wp_bind, wp_gets, wp_bind, wp_ok_or; [intros id _|done].
  apply wp_bind, wp_map_err. eapply wp_mono; [apply load_xtx_wp| |done]. intros ctx w' (-> & Hid & Hl).
  apply wp_bind, wp_ok_or; [intros fsx _|done]. apply wp_bind, wp_ensure; [intros _|done].
  apply wp_bind, wp_ok_or; [intros args _|done]. apply wp_bind.
  eapply wp_mono; [apply deposit_core| |done]. intros [] w1 [Hc1 _].
  apply wp_bind, wp_gets, wp_bind, wp_map_err.
  eapply wp_mono; [apply compile_confirm_wp| |done].
  - by eapply same_core_inv.
  - by eapply same_core_loaded.
  - apply confirmed_post_update_ok.
  - intros r w2 (Hw2 & Hrid & step & Hs & Hst). apply wp_bind, wp_map_err.
    unfold perform_ddd_hot_swap. rewrite Hs, Hrid. cbn [concat]. rewrite app_nil_r.
    eapply wp_mono; [by apply (hot_swap_all_wp _ _ _ step); [apply Hw2| |]| |done].
    intros swapped w3 Hw3. apply wp_bind, wp_modify.
    eapply wp_mono; [apply events_core| |done]. intros [] w4 [Hc4 _].
    eapply same_core_step_trans; [exact Hc1|]. eapply step_ok_trans; [apply Hw2|].
    eapply step_ok_trans; [exact Hw3|]. apply same_core_step; [apply Hw3|]. exact Hc4.
Qed.

Lemma on_signal_ok origin signal w : circuit_inv w → wp (on_signal origin signal)
  (λ _ w', step_ok w w') (λ _ w', w' = w) w.
Proof.
  intros Hinv. apply wp_bind. unfold authorize. destruct origin; [done| |done].
  apply wp_ret, wp_bind, wp_gets, wp_bind, wp_ensure; [intros _|done].
  apply wp_modify. by apply same_core_step.
Qed.

(** *** Local triggers *)

Lemma local_ctx_of_wp who maybe_id w :
  circuit_inv w → (maybe_id = None → fresh_for w who) →
  wp (local_ctx_of who maybe_id)
    (λ c w', step_ok w w' ∧ ctx_loaded c w') (λ _ _, True) w.
Proof.
  intros Hinv Hf. destruct maybe_id as [id|]; cbn [local_ctx_of].
  - eapply wp_mono; [apply load_xtx_wp| |done]. intros c w' (-> & _ & Hl).
    split; [by apply step_ok_refl|done].
  - apply wp_bind. eapply wp_mono; [apply setup_wp| |done]. intros c w' (-> & _ & Hc).
    apply wp_bind. eapply wp_mono; [apply compile_fresh_wp; [done|by apply Hc, Hf|..]| |done].
    + intros ? ? ? ? ? ?. apply wp_ret. split; [done|by right].
    + apply no_post_updates_ok.
    + intros r w' (Hw' & _ & Hl). apply wp_ret. split; [apply Hw'|done].
Qed.

Lemma load_local_state_wp origin maybe_id w :
  circuit_inv w → (∀ who, origin = Signed who → maybe_id = None → fresh_for w who) →
  wp (load_local_state origin maybe_id) (λ _ w', step_ok w w') (λ _ _, True) w.
Proof.
  intros Hinv Hf. apply wp_bind. eapply wp_mono; [apply authorize_wp| |done].
  intros who w' [-> ->]. apply wp_bind, wp_map_err.
  eapply wp_mono; [apply local_ctx_of_wp; [done|by apply Hf]| |done].
  intros c w' [Hw' _]. by apply wp_ret.
Qed.

Lemma on_local_trigger_wp origin trigger w :
  circuit_inv w → (∀ who, origin = Signed who → maybe_xtx_id trigger = None → fresh_for w who) →
  wp (on_local_trigger origin trigger) (λ _ w', step_ok w w') (λ _ _, True) w.
Proof.
  intros Hinv Hf. apply wp_bind. eapply wp_mono; [apply authorize_wp| |done].
  intros who w' [-> Horigin]. apply wp_bind, wp_map_err.
  eapply wp_mono; [apply local_ctx_of_wp; [done|by apply Hf]| |done].
  intros c w1 [Hw1 Hl1]. apply wp_bind, wp_map_err.
  eapply wp_mono; [apply compile_loaded_wp; [apply Hw1|done|apply local_pre_ok|]| |done].
  - apply (emit_sfx_ok who (λ ctx, map fsx_input (concat (ctx_full_side_effects ctx)))).
  - intros r w2 [[Hw2 _] _].
    eapply wp_mono; [apply load_local_state_wp; [apply Hw2|done]| |done].
    intros v w3 Hw3. eapply step_ok_trans; [exact Hw1|]. by eapply step_ok_trans.
Qed.

Lemma call_on_local_trigger_ok origin bytes w :
  circuit_inv w →
  (∀ who t, origin = Signed who → local_trigger_decode bytes = Some t → maybe_xtx_id t = None →
     fresh_for w who) →
  call_ok (call_on_local_trigger origin bytes) w.
Proof.
  intros Hinv Hf. apply wp_transactional, wp_bind, wp_ok_or; [|done]. intros t Ht.
  apply wp_bind. eapply wp_mono; [apply on_local_trigger_wp; [done|by intros; eapply Hf]| |done].
  intros v w' Hw'. by apply wp_ret.
Qed.
End CallSafety.

(** ** The transition system *)

(** What users and contracts can call. *)
Inductive Call :=
| COnExtrinsicTrigger (sfx : list SideEffect) (mode : SpeedMode) (lvl : SecurityLvl)
| COnRemoteOriginTrigger (order_origin : AccountId) (sfx : list SideEffect) (mode : SpeedMode)
| COnLocalTrigger (trigger : list Z)
| COnSignal (signal : ExecutionSignal)
| CBidSfx (sfx_id : Hash) (amount : Balance)
| CConfirmSideEffect (sfx_id : Hash) (c : ConfirmedSideEffect)
| CEscrow (sfx_id : Hash)
| CCancelXtx (xtx_id : Hash)
| CRevert (xtx_id : Hash)
| CTriggerDlq
| COnXcmTrigger
| COnRemoteGatewayTrigger.

(** What the block hooks run. *)
Inductive BlockHook :=
| TickQueue (n interval : BlockNumber) (max_weight : Z)
| AdaptiveTimeouts (n : BlockNumber)
| EmergencyTimeouts (n interval : BlockNumber) (max_weight : Z)
| DeadLetters (n : BlockNumber).

Section System.
Context {A X : Type} `{Hashing} `{AccountManager A} `{CircuitConfig A X}.
Implicit Types w : World A X.

Definition dispatch (origin : RawOrigin) (c : Call) : M (World A X) DispatchError unit :=
  match c with
  | COnExtrinsicTrigger sfx mode lvl => on_extrinsic_trigger origin sfx mode lvl
  | COnRemoteOriginTrigger order sfx mode => on_remote_origin_trigger origin order sfx mode
  | COnLocalTrigger trigger => call_on_local_trigger origin trigger
  | COnSignal signal => on_signal origin signal
  | CBidSfx sfx_id amount => bid_sfx origin sfx_id amount
  | CConfirmSideEffect sfx_id c => confirm_side_effect origin sfx_id c
  | CEscrow sfx_id => escrow origin sfx_id
  | CCancelXtx xtx_id => cancel_xtx origin xtx_id
  | CRevert xtx_id => call_revert origin xtx_id
  | CTriggerDlq => trigger_dlq origin
  | COnXcmTrigger => on_xcm_trigger origin
  | COnRemoteGatewayTrigger => on_remote_gateway_trigger origin
  end.

Definition run_hook {E} (h : BlockHook) : M (World A X) E Z :=
  match h with
  | TickQueue n interval max_weight => process_xtx_tick_queue n interval max_weight
  | AdaptiveTimeouts n => process_adaptive_xtx_timeout_queue n
  | EmergencyTimeouts n interval max_weight => process_emergency_revert_xtx_queue n interval max_weight
  | DeadLetters n => process_dlq n
  end.

(** A call that creates a transaction must not take the identifier of a
    finalized one. *)
Definition fresh_call w (origin : RawOrigin) (c : Call) : Prop :=
  match c with
  | COnExtrinsicTrigger _ _ _ => ∀ who, origin = Signed who → fresh_for w who
  | COnRemoteOriginTrigger order _ _ => fresh_for w order
  | COnLocalTrigger trigger =>
      ∀ who t, origin = Signed who → local_trigger_decode trigger = Some t →
               maybe_xtx_id t = None → fresh_for w who
  | _ => True
  end.

Inductive circuit_step w : World A X → Prop :=
| step_call origin c w' :
    fresh_call w origin c → dispatch origin c w = Ok tt w' → circuit_step w w'
| step_hook h weight w' :
    run_hook (E:=DispatchError) h w = Ok weight w' → circuit_step w w'
| step_signals n interval max weight w' :
    process_signal_queue (E:=DispatchError) n interval max w = Ok weight w' → circuit_step w w'
| step_gmp id payload : circuit_step w (store_gmp_payload id payload w).1
| step_others w' : same_core w w' → circuit_step w w'.

(** No transaction yet. *)
Definition genesis w : Prop :=
  x_exec_signals w = ∅ ∧ full_side_effects w = ∅ ∧ local_xtx_states w = ∅ ∧
  pending_xtx_bids_timeouts w = ∅.

Definition reachable w : Prop := ∃ w0, genesis w0 ∧ rtc circuit_step w0 w.
End System.

(** ** Lemmas *)

Section Facts.
Context {A X : Type} `{Hashing} `{AccountManagerSpec A} `{!CircuitConfig A X}.
Implicit Types w : World A X.

Lemma genesis_inv w : genesis w → circuit_inv w.
Proof.
  intros (Hs & Hf & Hl & Hb). constructor; rewrite ?Hs, ?Hf, ?Hl, ?Hb; intros id; rewrite lookup_empty.
  - done.
  - by intros [].
  - by intros [].
  - split; [by intros []|]. rewrite lookup_empty. by intros (? & ? & _).
  - done.
Qed.

Lemma dispatch_ok origin c w :
  circuit_inv w → fresh_call w origin c → call_ok (dispatch origin c) w.
Proof.
  intros Hinv Hf. destruct c; cbn [dispatch fresh_call] in *.
  - by apply on_extrinsic_trigger_ok.
  - by apply on_remote_origin_trigger_ok.
  - by apply call_on_local_trigger_ok.
  - by apply on_signal_ok.
  - by apply bid_sfx_ok.
  - by apply confirm_side_effect_ok.
  - by apply escrow_ok.
  - by apply cancel_xtx_ok.
  - by apply call_revert_ok.
  - by apply trigger_dlq_ok.
  - done.
  - done.
Qed.

Lemma run_hook_ok {E} h w :
  circuit_inv w → wp (E:=E) (run_hook h) (λ _ w', step_ok w w') (λ _ _, False) w.
Proof.
  intros Hinv. destruct h; cbn [run_hook].
  - by apply process_xtx_tick_queue_wp.
  - by apply process_adaptive_wp.
  - by apply process_emergency_wp.
  - by apply process_dlq_wp.
Qed.

(** A kill that returns. *)
Lemma kill_on_ok {E} id cause post w b w' :
  circuit_inv w → post_ok post → kill (E:=E) id cause post w = Ok b w' → step_ok w w'.
Proof.
  intros Hinv Hpost Hk. unfold kill, infallible_on in Hk.
  apply bind_Ok_inv in Hk as (r & w1 & Hload & Hk). unfold attempt in Hload.
  pose proof (load_xtx_wp id w) as Hl. unfold wp in Hl.
  destruct (load_xtx id w) as [ctx w2|e w2|]; [| |done]; simplify_eq.
  - destruct Hl as (-> & _ & Hl). apply bind_Ok_inv in Hk as (r & w2 & Hc & Hk).
    unfold mret, M_ret in Hk. simplify_eq. unfold compile_infallible, expect_ok in Hc.
    pose proof (compile_loaded_wp ctx _ post w Hinv Hl
                  (const_pre_ok (TryKill cause) ltac:(done)) Hpost) as Hwp.
    unfold wp in Hwp. destruct (compile _ _ _ _); [|done..]. simplify_eq. apply Hwp.
  - subst. unfold mret, M_ret in Hk. simplify_eq. by apply step_ok_refl.
Qed.

Lemma process_signals_on_ok {E} fuel queue cur max w r w' :
  circuit_inv w → process_signals (E:=E) fuel queue cur max w = Ok r w' → step_ok w w'.
Proof.
  revert queue cur w. induction fuel as [|fuel IH]; intros queue cur w Hinv Hp;
    cbn [process_signals] in Hp.
  { unfold mret, M_ret in Hp. simplify_eq. by apply step_ok_refl. }
  destruct queue as [|[who signal] rest].
  { unfold mret, M_ret in Hp. simplify_eq. by apply step_ok_refl. }
  destruct (cur <? max); [|unfold mret, M_ret in Hp; simplify_eq; by apply step_ok_refl].
  apply bind_Ok_inv in Hp as (l & w1 & Hload & Hp). unfold attempt in Hload.
  pose proof (load_xtx_total (execution_id signal) w) as Hl. unfold wp in Hl.
  destruct (load_xtx _ w) as [ctx w2|e w2|]; [| |done]; simplify_eq.
  - apply bind_Ok_inv in Hp as (b & w2 & Hk & Hp).
    apply kill_on_ok in Hk; [|done|apply no_post_updates_ok].
    eapply step_ok_trans; [exact Hk|]. eapply IH; [apply Hk|exact Hp].
  - destruct e; by eapply IH.
Qed.

Lemma process_signal_queue_on_ok {E} n i max w r w' :
  circuit_inv w → process_signal_queue (E:=E) n i max w = Ok r w' → step_ok w w'.
Proof.
  intros Hinv Hp. unfold process_signal_queue in Hp.
  apply bind_Ok_inv in Hp as (queue & w1 & Hq & Hp). unfold gets in Hq. simplify_eq.
  destruct (is_empty _); [unfold mret, M_ret in Hp; simplify_eq; by apply step_ok_refl|].
  apply bind_Ok_inv in Hp as (res & w2 & Hs & Hp). apply process_signals_on_ok in Hs; [|done].
  apply bind_Ok_inv in Hp as ([] & w3 & Hm & Hp). unfold modify in Hm. unfold mret, M_ret in Hp.
  simplify_eq. by eapply step_ok_core_trans.
Qed.

Lemma circuit_step_ok w w' : circuit_inv w → circuit_step w w' → step_ok w w'.
Proof.
  intros Hinv Hstep. destruct Hstep as [origin c w' Hf Hd|h wt w' Hh|n i m wt w' Hs|id p|w' Hc].
  - pose proof (dispatch_ok origin c w Hinv Hf) as Hok. unfold call_ok, wp in Hok.
    by rewrite Hd in Hok.
  - pose proof (run_hook_ok (E:=DispatchError) h w Hinv) as Hok. unfold wp in Hok.
    by rewrite Hh in Hok.
  - by eapply process_signal_queue_on_ok.
  - apply same_core_step; [done|]. unfold store_gmp_payload. by destruct (is_some _).
  - by apply same_core_step.
Qed.

Lemma reachable_inv w : reachable w → circuit_inv w.
Proof.
  intros (w0 & Hg & Hr). apply genesis_inv in Hg. revert Hg.
  induction Hr as [|w0 w1 w2 Hs Hr IH]; [done|]. intros Hinv. apply IH.
  by eapply circuit_step_ok.
Qed.
End Facts.

(** ** Properties *)

Section Properties.
Context {A X : Type} `{Hashing} `{AccountManagerSpec A} `{!CircuitConfig A X}.
Implicit Types w : World A X.



(** C1: in every state such a history reaches, the timeout hooks and the dead letter queue
    run to the end: none of the [expect]s of [process_tick_one],
    [process_tick_two], [Machine::revert] and [compile_infallible] traps. *)
Theorem hooks_never_trap {E} w (h : BlockHook) :
  reachable w → ∃ weight w', run_hook (E:=E) h w = Ok weight w'.
Proof.
  intros Hr. pose proof (run_hook_ok (E:=E) h w (reachable_inv _ Hr)) as Hok. unfold wp in Hok.
  destruct (run_hook h w) as [wt w'| |]; [by eexists _, _|done..].
Qed.

End Properties.
