(* ===== verification/Lifecycle.v ===== *)
(** * What each operation does to a transaction

    The functional behaviour of the operations that end a phase of a
    transaction: the end of the bidding, a cancellation, a revert, the
    confirmation of a side effect, and the dead letter queue. *)

From S2P Require Import Prelude Types Status AccountManager World SquareUp Bids Validate.
From S2P Require Import Machine Circuit Queues Calls Invariant Safety Reach.

(** ** Definitions *)

(** No trace of a transaction in the maps of active transactions. *)
Definition erased {A X} (id : Hash) (w : World A X) : Prop :=
  x_exec_signals w !! id = None ∧ full_side_effects w !! id = None ∧
  local_xtx_states w !! id = None ∧ pending_xtx_timeouts w !! id = None ∧
  pending_xtx_bids_timeouts w !! id = None.

(** ** Lemmas *)

Section Facts.
Context {A X : Type} `{Hashing} `{AccountManagerSpec A} `{!CircuitConfig A X}.
Implicit Types w : World A X.

Lemma apply_killed {E} ctx s c :
  is_bidding s = true →
  apply (E:=E) (A:=A) (X:=X) ctx (s, Killed c) =
    (modify (apply_kill ctx) ;; with_am (square_up_kill ctx) ;; mret true).
Proof. by destruct s. Qed.

Lemma apply_made_ready {E} ctx :
  apply (E:=E) (A:=A) (X:=X) ctx (InBidding, Ready) = (modify (apply_ready ctx) ;; mret true).
Proof. done. Qed.

Lemma apply_reverted {E} ctx s c :
  s = Ready ∨ s = PendingExecution →
  apply (E:=E) (A:=A) (X:=X) ctx (s, Reverted c) =
    (modify (apply_revert ctx) ;; with_am (square_up_finalize ctx) ;; mret true).
Proof. by intros [-> | ->]. Qed.

(** Running a kill: the storage is erased and the deposits are released. *)
Lemma kill_run {E} ctx step s c w :
  ctx_full_side_effects ctx = [step] → is_bidding s = true →
  ∃ w', apply (E:=E) ctx (s, Killed c) w = Ok true w' ∧ erased (ctx_xtx_id ctx) w' ∧
    charges (w_am w') = delete_all (flat_map (charge_ids (ctx_xtx_id ctx)) step) (charges (w_am w)) ∧
    Forall (λ id, sfx2xtx_links w' !! id = None) (sfx_ids_of ctx).
Proof.
  intros Hs Hb. rewrite apply_killed by done.
  destruct (square_up_kill_run (E:=E) ctx step (w_am w)) as (k & a' & Hk & Hch);
    [by apply read_current_step_single|].
  exists (set_am a' (apply_kill ctx w)). split_and!.
  - unfold mbind, M_bind, modify, with_am, zoom. cbn -[square_up_kill apply_kill].
    change (w_am (apply_kill ctx w)) with (w_am w). by rewrite Hk.
  - unfold erased. cbn. by rewrite !lookup_delete_eq.
  - done.
  - cbn. apply Forall_forall. intros id Hid. generalize (sfx2xtx_links w).
    induction (sfx_ids_of ctx) as [|j l IH]; [set_solver|]. intros m. cbn [fold_left].
    destruct (decide (id ∈ l)) as [Hin|Hnin]; [by apply IH|].
    apply elem_of_cons in Hid as [->|]; [|done].
    assert (∀ m' : gmap Z Z, m' !! j = None → fold_left (λ m k, delete k m) l m' !! j = None) as Hkeep.
    { clear. induction l as [|k l IH]; intros m' Hm'; [done|]. cbn [fold_left]. apply IH.
      apply lookup_delete_None. auto. }
    apply Hkeep, lookup_delete_eq.
Qed.

(** [process_tick_one] up to [apply]. *)
Lemma tick_one_eq {E} ctx step w :
  circuit_inv w → load_xtx (ctx_xtx_id ctx) w = Ok ctx w → ctx_full_side_effects ctx = [step] →
  is_bidding (xtx_status (ctx_xtx ctx)) = true →
  ∃ a' x evs,
    let target := tick_one_target (xtx_status (ctx_xtx ctx)) step in
    let ctx' := moved (set_ctx_fsx [tick_one_step (w_am w) ctx step] ctx) target in
    charges a' = tick_one_charges (charges (w_am w)) ctx step ∧
    ∀ w', apply (E:=CircuitError) ctx' (xtx_status (ctx_xtx ctx), target)
            (noted x evs (set_am a' w)) = Ok true w' →
      process_tick_one (E:=E) (ctx_xtx_id ctx) w = Ok (db_reads_writes 1 4) w'.
Proof.
  intros Hinv Hload Hs Hb. pose proof (load_xtx_loaded _ _ _ _ Hload) as (_ & _ & Hl).
  pose proof (ctx_loaded_ok _ _ Hinv Hl) as Hok. rewrite Hs in Hok.
  destruct (tick_one_runs ctx step w Hok Hs Hb)
    as (r & enf & a' & Hpre & Hrun & Henf & Hcheck & Hch).
  edestruct (compile_run ctx step step r tick_one_precompile emit_update w enf) as (x & evs & Heq);
    [done|by destruct (xtx_status (ctx_xtx ctx))|done|done|done|apply emit_update_quiet|].
  exists a', x, evs. split; [done|]. intros w' Happ. unfold process_tick_one.
  unfold mbind at 1, M_bind at 1, expect_ok at 1. rewrite Hload.
  unfold compile_infallible, mbind, M_bind, expect_ok. rewrite Heq.
  unfold mbind, M_bind. by rewrite Happ.
Qed.

(** *** Cancellation *)

Definition cancellable (who : AccountId) (x : XExecSignal) : Prop :=
  xtx_requester x = who ∧ (xtx_status x = Reserved ∨ xtx_status x = PendingBidding).

Lemma cancel_determined x step :
  xtx_ok x [step] → xtx_status x = Reserved ∨ xtx_status x = PendingBidding →
  existsb has_bid step = false ∧ determine_xtx_status [step] = xtx_status x.
Proof.
  intros (? & [= <-] & Hok) [Hst|Hst]; rewrite Hst in Hok |- *; [by subst step|].
  destruct Hok as [Hne Hnb]. by rewrite determine_xtx_status_single, Hnb.
Qed.

Lemma cancel_run w who id ctx step :
  circuit_inv w → load_xtx id w = Ok ctx w → ctx_full_side_effects ctx = [step] →
  cancellable who (ctx_xtx ctx) →
  ∃ w', cancel_xtx (Signed who) id w = Ok tt w' ∧ erased id w' ∧
    charges (w_am w') = delete_all (flat_map (charge_ids id) step) (charges (w_am w)).
Proof.
  intros Hinv Hload Hs [Hreq Hst]. pose proof (load_xtx_loaded _ _ _ _ Hload) as (_ & Hid & Hl).
  pose proof (ctx_loaded_ok _ _ Hinv Hl) as Hok. rewrite Hs in Hok. subst id.
  destruct (cancel_determined _ _ Hok Hst) as [Hnb Hdet].
  pose proof (set_ctx_fsx_id _ _ Hs) as Hctx.
  edestruct (compile_run ctx step step (TryKill IntentionalKill) (cancel_precompile who)
    no_post_updates w (Some (Killed IntentionalKill)) step w (Killed IntentionalKill))
    as (x & evs & Heq); [done|by destruct Hst as [-> | ->]| |by cbn; rewrite <- Hctx| |
      apply no_post_updates_quiet|].
  { unfold cancel_precompile. rewrite Hreq, Z.eqb_refl. change (existsb _ step) with (existsb has_bid step).
    rewrite Hnb. by destruct Hst as [-> | ->]. }
  { rewrite Hdet. by destruct Hst as [-> | ->]. }
  edestruct (kill_run (E:=CircuitError) (moved (set_ctx_fsx [step] ctx) (Killed IntentionalKill)) step
    (xtx_status (ctx_xtx ctx)) IntentionalKill (noted x evs w)) as (w' & Hk & He & Hc & _);
    [done|by destruct Hst as [-> | ->]|].
  exists w'. split; [|done]. unfold cancel_xtx, transactional, circ.
  unfold mbind, M_bind. cbn -[load_xtx compile]. unfold map_err at 1. rewrite Hload.
  unfold map_err. rewrite Heq. unfold mbind, M_bind. by rewrite Hk.
Qed.

Lemma cancel_only_if w who id w' :
  circuit_inv w → cancel_xtx (Signed who) id w = Ok tt w' →
  ∃ ctx step, load_xtx id w = Ok ctx w ∧ ctx_full_side_effects ctx = [step] ∧
    cancellable who (ctx_xtx ctx).
Proof.
  intros Hinv Hc. unfold cancel_xtx in Hc. rewrite transactional_Ok in Hc.
  apply bind_Ok_inv in Hc as (who' & w1 & [= <- <-] & Hc).
  apply bind_Ok_inv in Hc as (ctx & w1 & Hload & Hc). unfold circ, map_err in Hload.
  destruct (load_xtx id w) as [ctx' w2|e w2|] eqn:Hl; simplify_eq.
  apply load_xtx_loaded in Hl as (-> & _ & Hl).
  pose proof (ctx_loaded_ok _ _ Hinv Hl) as Hok. pose proof (stored_status_ok _ _ Hok) as Hst.
  pose proof Hok as (step & Hs & _). exists ctx, step. split; [done|]. split; [done|].
  apply bind_Ok_inv in Hc as (r & w2 & Hc & _). unfold circ, map_err in Hc.
  destruct (compile _ _ _ _) as [r' w3| |] eqn:Hcomp; simplify_eq.
  unfold compile in Hcomp. rewrite (read_current_step_single _ _ Hs) in Hcomp.
  apply bind_Ok_inv in Hcomp as (? & ? & [= <- <-] & Hcomp).
  apply bind_Ok_inv in Hcomp as (r2 & w4 & Hpre & _). unfold cancel_precompile in Hpre.
  apply bind_Ok_inv in Hpre as ([] & w5 & He & _). unfold ensure in He.
  destruct (negb _) eqn:Hn in He; [|done].
  apply negb_true_iff, orb_false_iff in Hn as [Hw Hlt].
  apply negb_false_iff, Z.eqb_eq in Hw. split; [done|].
  destruct (xtx_status (ctx_xtx ctx)); naive_solver.
Qed.

(** *** Revert and finish *)

Lemma apply_finished {E} ctx s :
  s = Ready ∨ s = PendingExecution →
  apply (E:=E) (A:=A) (X:=X) ctx (s, FinishedAllSteps) =
    (modify (apply_finish ctx) ;; with_am (square_up_finalize ctx) ;; mret true).
Proof. by intros [-> | ->]. Qed.

(** Finalizing after a storage update that leaves the account manager alone. *)
Lemma finalize_run {E} (f : World A X → World A X) ctx step w :
  ctx_full_side_effects ctx = [step] → w_am (f w) = w_am w →
  (modify f ;; with_am (square_up_finalize ctx) ;; mret true) w =
    Ok (E:=E) true (set_am (run_plan (finalize_plan (ctx_xtx_id ctx) step) (w_am w)) (f w)).
Proof.
  intros Hs Hf. destruct (square_up_finalize_run (E:=E) ctx step (w_am w)) as [k Hk];
    [by apply read_current_step_single|].
  unfold mbind, M_bind, modify, with_am, zoom. rewrite Hf, Hk. done.
Qed.

Lemma all_confirmed_outcome step :
  forallb has_confirmation step = true → requester_outcome step = Commit.
Proof.
  intros Hall. unfold requester_outcome.
  replace (forallb _ step) with true; [done|]. symmetry. apply forallb_forall.
  intros f Hf. rewrite forallb_forall in Hall. rewrite Hall by done. apply orb_true_r.
Qed.

Lemma executing_step step :
  determine_xtx_status [step] = Ready ∨ determine_xtx_status [step] = PendingExecution →
  forallb has_bid step = true ∧ forallb has_confirmation step = false.
Proof.
  destruct step as [|f step]; [by intros [|]|]. rewrite determine_xtx_status_single by done.
  destruct (existsb has_bid (f :: step)); [|by intros [|]].
  destruct (forallb has_bid (f :: step)); [|by intros [|]].
  destruct (forallb has_executor (f :: step)); [|by intros [|]]. cbn [negb andb].
  destruct (forallb has_confirmation (f :: step)); [by intros [|]|done].
Qed.

Lemma unconfirmed_outcome step :
  forallb has_bid step = true → forallb has_confirmation step = false →
  requester_outcome step = Revert.
Proof.
  unfold requester_outcome. intros Hb Hc.
  replace (forallb _ step) with false; [done|]. symmetry.
  induction step as [|f step IH]; [done|]. cbn [forallb] in *.
  apply andb_true_iff in Hb as [Hb1 Hb2]. rewrite Hb1. cbn [negb orb].
  destruct (has_confirmation f); [by apply IH|done].
Qed.
End Facts.

(** ** Properties *)

Section Properties.
Context {A X : Type} `{Hashing} `{AccountManagerSpec A} `{!CircuitConfig A X}.
Implicit Types w : World A X.

(** C3: when the bidding period of a transaction is over, [process_tick_one]
    makes it ready if every side effect has a bid, with the best bidders bound
    to the side effects and to the requester's deposits; otherwise it erases
    the transaction and releases exactly its deposits. *)
Theorem bidding_round_ends {E} w id ctx step :
  circuit_inv w → is_Some (pending_xtx_bids_timeouts w !! id) →
  load_xtx id w = Ok ctx w → ctx_full_side_effects ctx = [step] →
  ∃ w', process_tick_one (E:=E) id w = Ok (db_reads_writes 1 4) w' ∧
    if status_eqb (xtx_status (ctx_xtx ctx)) InBidding && forallb has_bid step then
      status_of w' id = Some Ready ∧
      full_side_effects w' !! id = Some [map (bound_fsx (charges (w_am w)) id) step] ∧
      pending_xtx_bids_timeouts w' !! id = None ∧
      charges (w_am w') = fold_left (bound_charge id) step (charges (w_am w))
    else
      erased id w' ∧
      charges (w_am w') = delete_all (flat_map (charge_ids id) step) (charges (w_am w)).
Proof.
  intros Hinv Hbid Hload Hs. pose proof (load_xtx_loaded _ _ _ _ Hload) as (_ & Hid & Hl).
  subst id. apply (inv_bids _ Hinv) in Hbid as (x & Hx & Hb).
  destruct Hl as (Hx' & _). rewrite Hx' in Hx. simplify_eq.
  destruct (tick_one_eq (E:=E) ctx step w Hinv Hload Hs Hb) as (a' & ex & evs & Hch & Hrun).
  unfold tick_one_target, tick_one_step, tick_one_charges in Hch, Hrun.
  destruct (status_eqb (xtx_status (ctx_xtx ctx)) InBidding && forallb has_bid step) eqn:Hcase.
  - apply andb_true_iff in Hcase as [Hst Hall]. apply status_eqb_eq in Hst.
    rewrite Hst, Hall in Hrun, Hch. eexists. split; [apply Hrun; by rewrite apply_made_ready|].
    cbn. unfold status_of. cbn. rewrite !lookup_insert_eq, lookup_delete_eq. done.
  - assert (match xtx_status (ctx_xtx ctx) with
      | InBidding => if forallb has_bid step then Ready else Killed Timeout
      | _ => Killed Timeout end = Killed Timeout) as Ht.
    { destruct (xtx_status (ctx_xtx ctx)); try done. by destruct (forallb has_bid step). }
    rewrite Ht in Hrun.
    assert (match xtx_status (ctx_xtx ctx) with
      | InBidding => if forallb has_bid step
                     then map (bound_fsx (charges (w_am w)) (ctx_xtx_id ctx)) step else step
      | _ => step end = step) as Hstep.
    { destruct (xtx_status (ctx_xtx ctx)); try done. by destruct (forallb has_bid step). }
    rewrite Hstep in Hrun.
    edestruct (kill_run (E:=CircuitError) (moved (set_ctx_fsx [step] ctx) (Killed Timeout)) step
                 (xtx_status (ctx_xtx ctx)) Timeout) as (w' & Hk & He & Hc' & _); [done..|].
    exists w'. split; [by apply Hrun|]. split; [done|]. rewrite Hc'. cbn. f_equal. rewrite Hch.
    destruct (xtx_status (ctx_xtx ctx)); try done. by destruct (forallb has_bid step).
Qed.

(** [cancel_xtx] succeeds exactly for the requester of a transaction that
    is reserved or waits for its first bid; it then erases the transaction and
    releases exactly its deposits. *)
Theorem cancel_xtx_spec w who id :
  circuit_inv w →
  ((∃ w', cancel_xtx (Signed who) id w = Ok tt w') ↔
   ∃ x, x_exec_signals w !! id = Some x ∧ cancellable who x) ∧
  (∀ w', cancel_xtx (Signed who) id w = Ok tt w' →
     erased id w' ∧ ∃ step, full_side_effects w !! id = Some [step] ∧
     charges (w_am w') = delete_all (flat_map (charge_ids id) step) (charges (w_am w))).
Proof.
  intros Hinv.
  assert (∀ w', cancel_xtx (Signed who) id w = Ok tt w' →
    ∃ x step, x_exec_signals w !! id = Some x ∧ cancellable who x ∧
      full_side_effects w !! id = Some [step] ∧ erased id w' ∧
      charges (w_am w') = delete_all (flat_map (charge_ids id) step) (charges (w_am w))) as Hdo.
  { intros w' Hc. destruct (cancel_only_if _ _ _ _ Hinv Hc) as (ctx & step & Hload & Hs & Hcan).
    destruct (cancel_run w who id ctx step Hinv Hload Hs Hcan) as (w2 & Hc2 & He & Hch).
    rewrite Hc in Hc2. simplify_eq. apply load_xtx_Ok in Hload as (_ & _ & Hx & Hf & _).
    exists (ctx_xtx ctx), step. by rewrite <- Hs. }
  split; [split|].
  - intros [w' Hc]. destruct (Hdo w' Hc) as (x & step & ? & ? & _). by exists x.
  - intros (x & Hx & Hcan). destruct (inv_load _ _ _ Hinv Hx) as (ctx & Hload & <- & _ & Hl).
    pose proof (ctx_loaded_ok _ _ Hinv Hl) as (step & Hs & _).
    destruct (cancel_run w who id ctx step Hinv Hload Hs Hcan) as (w' & Hc & _). by exists w'.
  - intros w' Hc. destruct (Hdo w' Hc) as (x & step & _ & _ & ? & ? & ?). by split; [|exists step].
Qed.

(** C18: reverting a transaction in execution removes it and its timeouts,
    refunds the requester, slashes the executors whose side effects are not
    confirmed and returns the insurance of the others. *)
Theorem revert_settles {E} w id cause post ctx step :
  load_xtx id w = Ok ctx w → ctx_full_side_effects ctx = [step] →
  xtx_status (ctx_xtx ctx) = Ready ∨ xtx_status (ctx_xtx ctx) = PendingExecution →
  determine_xtx_status [step] = Ready ∨ determine_xtx_status [step] = PendingExecution →
  post_quiet post →
  ∃ w', revert (E:=E) id cause post w = Ok true w' ∧
    x_exec_signals w' !! id = None ∧ full_side_effects w' !! id = None ∧
    local_xtx_states w' !! id = None ∧ pending_xtx_timeouts w' !! id = None ∧
    dlq_entries w' !! id = None ∧
    w_am w' = run_plan (finalize_plan id step) (w_am w) ∧
    requester_outcome step = Revert.
Proof.
  intros Hload Hs Hst Hdet Hpost. apply load_xtx_loaded in Hload as Hl. destruct Hl as (_ & Hid & Hl).
  subst id. pose proof (set_ctx_fsx_id _ _ Hs) as Hctx.
  edestruct (compile_run ctx step step (RevertXtx cause)
    ((λ current_fsx _ _ _ _, mret (RevertXtx cause, current_fsx)) : Precompile A X) post w
    (Some (Reverted cause)) step w (Reverted cause)) as (x & evs & Heq);
    [done|by destruct Hst as [-> | ->]|done|by cbn; rewrite <- Hctx| |done|].
  { by destruct Hdet as [-> | ->]. }
  pose proof (finalize_run (E:=CircuitError)
    (apply_revert (moved (set_ctx_fsx [step] ctx) (Reverted cause)))
    (moved (set_ctx_fsx [step] ctx) (Reverted cause)) step (noted x evs w) eq_refl eq_refl) as Hfin.
  rewrite <- (apply_reverted _ (xtx_status (ctx_xtx ctx)) cause) in Hfin by done.
  eexists. split.
  { unfold revert, infallible_on, attempt, compile_infallible, expect_ok, mbind, M_bind.
    rewrite Hload, Heq. unfold mbind, M_bind. by rewrite Hfin. }
  cbn. rewrite !lookup_delete_eq. split_and!; try done.
  destruct (executing_step step Hdet). by apply unconfirmed_outcome.
Qed.

(** C15: confirming the last unconfirmed side effect of a transaction in
    execution finishes it: it is stored as finalized with all confirmations,
    its timeouts are removed, the requester's deposits are committed and every
    executor gets its insurance back. *)
Theorem last_confirmation_finishes w ctx step cur sfx_id c pre post :
  ctx_full_side_effects ctx = [step] →
  xtx_status (ctx_xtx ctx) = Ready ∨ xtx_status (ctx_xtx ctx) = PendingExecution →
  pre step (ctx_local_state ctx) (xtx_steps_cnt (ctx_xtx ctx)) (xtx_status (ctx_xtx ctx))
    (xtx_requester (ctx_xtx ctx)) w = Ok (TryConfirm sfx_id c, cur) w →
  existsb (has_sfx_id (ctx_xtx_id ctx) sfx_id) cur = true →
  determine_xtx_status [confirm_in_step (ctx_xtx_id ctx) sfx_id c cur] = FinishedAllSteps →
  post_quiet post →
  let id := ctx_xtx_id ctx in
  let step' := confirm_in_step id sfx_id c cur in
  ∃ ctx' w', compile ctx pre post w = Ok (ctx', true) w' ∧
    status_of w' id = Some FinishedAllSteps ∧ full_side_effects w' !! id = Some [step'] ∧
    finalized_xtx w' !! id = Some (w_block w) ∧ pending_xtx_timeouts w' !! id = None ∧
    dlq_entries w' !! id = None ∧
    w_am w' = run_plan (finalize_plan id step') (w_am w) ∧
    requester_outcome step' = Commit ∧ Forall (λ f, executor_outcome f = Revert) step'.
Proof.
  intros Hs Hst Hpre Hfound Hdet Hpost id step'.
  edestruct (compile_run ctx step cur (TryConfirm sfx_id c) pre post w None step' w FinishedAllSteps)
    as (x & evs & Heq); [done|by destruct Hst as [-> | ->]|done| | |done|].
  { unfold run_precompile. rewrite Hfound. cbn [ensure].
    rewrite (update_current_step_single _ _ _ Hs). done. }
  { unfold step', id. rewrite Hdet. by destruct Hst as [-> | ->]. }
  set (ctx' := moved (set_ctx_fsx [step'] ctx) FinishedAllSteps) in *.
  pose proof (finalize_run (E:=CircuitError) (apply_finish ctx') ctx' step' (noted x evs w)
                eq_refl eq_refl) as Hfin.
  rewrite <- (apply_finished _ (xtx_status (ctx_xtx ctx))) in Hfin by done.
  eexists ctx', _. split.
  { rewrite Heq. unfold mbind, M_bind. by rewrite Hfin. }
  unfold status_of. cbn. rewrite !lookup_insert_eq, !lookup_delete_eq.
  apply determined_finished in Hdet as [_ Hall]. fold step' in Hall.
  assert (∀ f, In f step' → has_confirmation f = true) as Hconf.
  { intros f Hf. rewrite forallb_forall in Hall. specialize (Hall f Hf).
    by apply andb_true_iff in Hall as [_ ->]. }
  split_and!; try done.
  - apply all_confirmed_outcome, forallb_forall, Hconf.
  - apply Forall_forall. intros f Hf. unfold executor_outcome. rewrite Hconf; [done|].
    by apply list_elem_of_In.
Qed.
End Properties.

(** ** Submission, confirmation and the dead letter queue

    What a successful submission leaves in the storage, what a confirmation
    must have passed, what the dead letter queue does to its entries, and how
    an order of remote origin can halt the chain when its identifier is used
    twice. *)

(** ** Submission *)

Section Submission.
Context {A X : Type} `{Hashing} `{AccountManagerSpec A} `{!CircuitConfig A X}.
Implicit Types w : World A X.

Lemma emit_sfx_quiet {E} id who l : quiet (A:=A) (X:=X) (E:=E) (emit_sfx id who l).
Proof.
  unfold emit_sfx. destruct (is_empty l); [apply quiet_ret|].
  apply quiet_bind; [apply quiet_event|intros _; apply quiet_event].
Qed.

Lemma register_all_is_Some batch m k : k ∈ batch.*1 → is_Some (register_all batch m !! k).
Proof.
  revert m. induction batch as [|[id c] batch IH]; intros m Hk; [set_solver|].
  change (is_Some (register_all batch (<[id := c]> m) !! k)).
  destruct (decide (k ∈ batch.*1)) as [Hin|Hnin]; [by apply IH|].
  rewrite register_all_lookup_ne by done. rewrite fmap_cons in Hk.
  apply elem_of_cons in Hk as [->|]; [|done]. rewrite lookup_insert_eq. by eexists.
Qed.

Lemma links_inserted (ids : list Hash) (id : Hash) (m : gmap Z Z) k :
  k ∈ ids → fold_left (λ m j, <[j := id]> m) ids m !! k = Some id.
Proof.
  revert m. induction ids as [|j ids IH]; intros m Hk; [set_solver|]. cbn [fold_left].
  destruct (decide (k ∈ ids)) as [Hin|Hnin]; [by apply IH|].
  apply elem_of_cons in Hk as [->|]; [|done].
  assert (∀ m' : gmap Z Z, m' !! j = Some id → fold_left (λ m k, <[k := id]> m) ids m' !! j = Some id)
    as Hkeep; [|apply Hkeep, lookup_insert_eq].
  clear. induction ids as [|i ids IH]; intros m' Hm'; [done|]. cbn [fold_left]. apply IH.
  destruct (decide (i = j)) as [->|]; [apply lookup_insert_eq|by rewrite lookup_insert_ne].
Qed.

(** The storage after a request is compiled. *)
Definition requested ctx step w w' : Prop :=
  ∃ a x evs n, n = (if is_empty step then Reserved else PendingBidding) ∧
    charges a = register_all (local_request_charges ctx step) (charges (w_am w)) ∧
    Forall (λ e, charges (w_am w) !! e.1 = None) (local_request_charges ctx step) ∧
    w' = apply_request (moved ctx n) (noted x evs (set_am a w)).

Lemma compile_request_wp ctx step post w :
  ctx_full_side_effects ctx = [step] → fresh_step step →
  xtx_status (ctx_xtx ctx) = Requested → post_quiet post →
  wp (compile ctx try_request_precompile post)
    (λ r w', requested ctx step w w' ∧
       r.1 = moved ctx (if is_empty step then Reserved else PendingBidding))
    (λ _ _, True) w.
Proof.
  intros Hs Hf Hst Hpost. pose proof (set_ctx_fsx_id _ _ Hs) as Hctx.
  pose proof (try_request_charges ctx step (w_am w) (read_current_step_single _ _ Hs)) as Hreq.
  unfold wp in Hreq. destruct (try_request ctx (w_am w)) as [[] a|e a|] eqn:Htry; [| |done].
  - set (n := if is_empty step then Reserved else PendingBidding).
    edestruct (compile_run ctx step step TryRequest try_request_precompile post w None step
      (set_am a w) n) as (x & evs & Heq); [done|by rewrite Hst|done| | |done|].
    { unfold run_precompile, map_err, with_am, zoom, mbind, M_bind. rewrite Htry.
      unfold mret, M_ret. by rewrite <- Hctx. }
    { rewrite determine_fresh, Hst by done. unfold n. by destruct (is_empty step). }
    unfold wp. rewrite Heq, <- Hctx, Hst, apply_requested
      by (unfold n; destruct (is_empty step); auto).
    cbn -[apply_request moved]. split; [|done]. destruct Hreq. by exists a, x, evs, n.
  - unfold wp, compile. rewrite (read_current_step_single _ _ Hs).
    rewrite (bind_Ok _ _ _ _ _ (eq_refl : expect (Some step) w = Ok step w)).
    rewrite (bind_Ok _ _ _ _ _ (eq_refl : try_request_precompile step _ _ _ _ w =
                                           Ok (TryRequest, step) w)).
    cbn [fst snd run_precompile]. unfold with_am, zoom, map_err, mbind, M_bind. by rewrite Htry.
Qed.
(** A context that [setup] returns for a non-empty submission. *)
Definition set_up (w : World A X) (who : AccountId) (sfx : list SideEffect) (ctx : LocalXtxCtx) : Prop :=
  x_exec_signals w !! next_xtx_id w who = None ∧
  ensure_all_gateways_are_active (w_ext w) (map sfx_target sfx) = true ∧
  ctx_xtx_id ctx = next_xtx_id w who ∧ xtx_status (ctx_xtx ctx) = Requested ∧
  ∃ step, ctx_full_side_effects ctx = [step] ∧ map fsx_input step = sfx ∧ fresh_step step.

Lemma setup_set_up w who sfx timeout lvl :
  sfx ≠ [] → Z.of_nat (length sfx) ≤ 2 ^ 32 →
  wp (setup sfx who timeout lvl) (λ ctx w', w' = w ∧ set_up w who sfx ctx) (λ _ _, True) w.
Proof.
  intros Hne Hn. unfold setup. apply wp_bind, wp_gets, wp_bind, wp_gets. cbn [setup_fresh].
  apply wp_bind, wp_gets, wp_bind, wp_ensure; [intros Hdup|done].
  unfold validate. rewrite (proj2 (is_empty_false sfx) Hne).
  apply wp_bind, wp_gets, wp_bind, wp_ensure; [intros Hact|done].
  destruct (validate_all _ 0 sfx) as [fsx|] eqn:Hval; [|done].
  apply wp_bind, wp_ret, wp_ret. split; [done|]. split.
  { change (negb (is_some (x_exec_signals w !! next_xtx_id w who)) = true) in Hdup.
    by destruct (x_exec_signals w !! next_xtx_id w who). }
  split_and!; try done. exists (sort_by_index fsx). split; [done|].
  apply validate_all_length in Hval as Hlen. apply validate_all_spec in Hval as (Hin & Hidx & Hf).
  by rewrite (sort_by_index_numbered _ 0) by (rewrite ?Hlen; done || lia).
Qed.

Lemma do_trigger_set_up w who sfx mode lvl origin ctx' w' :
  sfx ≠ [] → Z.of_nat (length sfx) ≤ 2 ^ 32 →
  do_on_extrinsic_trigger who sfx mode lvl origin w = Ok ctx' w' →
  ∃ ctx a, set_up w who sfx ctx ∧
    ∀ step, ctx_full_side_effects ctx = [step] → requested ctx step (set_am a w) w'.
Proof.
  intros Hne Hn Hdo. unfold do_on_extrinsic_trigger in Hdo.
  apply bind_Ok_inv in Hdo as (x & ? & [= <- <-] & Hdo).
  apply bind_Ok_inv in Hdo as (b & ? & [= <- <-] & Hdo).
  apply bind_Ok_inv in Hdo as (fresh & w2 & Hsetup & Hdo).
  match type of Hsetup with setup _ _ ?t _ _ = _ =>
    pose proof (setup_set_up w who sfx t lvl Hne Hn) as Hwp end.
  unfold wp in Hwp. rewrite Hsetup in Hwp.
  destruct Hwp as [-> Hset].
  apply bind_Ok_inv in Hdo as (fee & w4 & Hfee & Hdo).
  assert (∃ a, w4 = set_am a w) as [a ->].
  { revert Hfee. unfold map_err, with_am, zoom.
    destruct (charge_finality_fee _ _ _ _); intros Hfee; simplify_eq; by eexists. }
  apply bind_Ok_inv in Hdo as (r & w5 & Hcomp & [= <- <-]).
  destruct Hset as (Hno & Hact & Hid & Hst & step & Hs & Hin & Hfresh).
  exists (set_ctx_xtx (set_speed_mode mode (ctx_xtx fresh)) fresh), a. split.
  - by split_and!; [..|exists step].
  - intros step' Hs'. change (ctx_full_side_effects fresh = [step']) in Hs'.
    rewrite Hs in Hs'. injection Hs' as <-.
    pose proof (compile_request_wp (set_ctx_xtx (set_speed_mode mode (ctx_xtx fresh)) fresh) step
      (λ _ ctx, emit_sfx (ctx_xtx_id ctx) who sfx) (set_am a w) Hs Hfresh Hst) as Hwp.
    unfold wp in Hwp. rewrite Hcomp in Hwp. apply Hwp. intros ????. apply emit_sfx_quiet.
Qed.

(** What a submission leaves in the storage. *)
Definition submitted w (who : AccountId) (sfx : list SideEffect) w' : Prop :=
  let id := next_xtx_id w who in
  x_exec_signals w !! id = None ∧ status_of w' id = Some PendingBidding ∧
  ensure_all_gateways_are_active (w_ext w) (map sfx_target sfx) = true ∧
  pending_xtx_bids_timeouts w' !! id = Some (wrap32 (SFXBiddingPeriod + w_block w)) ∧
  ∃ step, full_side_effects w' !! id = Some [step] ∧
    map fsx_input step = sfx ∧ fresh_step step ∧
    ∀ f, f ∈ step → sfx2xtx_links w' !! calc_sfx_id f id = Some id ∧
      is_Some (charges (w_am w') !! calc_sfx_id f id).

Lemma trigger_submitted w who sfx mode lvl origin ctx w' :
  sfx ≠ [] → Z.of_nat (length sfx) ≤ 2 ^ 32 →
  do_on_extrinsic_trigger who sfx mode lvl origin w = Ok ctx w' → submitted w who sfx w'.
Proof.
  intros Hne Hlen Hdo. unfold submitted. set (id := next_xtx_id w who).
  apply do_trigger_set_up in Hdo as (c & a & (Hno & Hact & Hid & _ & step & Hs & Hin & Hf) & Hr);
    [|done..].
  destruct (Hr step Hs) as (a' & x & evs & n & Hn & Hch & _ & ->). fold id in Hid, Hno.
  assert (is_empty step = false) as Hstep.
  { apply is_empty_false. intros Heq. by rewrite Heq in Hin; subst sfx. }
  rewrite Hstep in Hn. subst n.
  unfold status_of. cbn. rewrite Hid, !lookup_insert_eq, Hs. split_and!; try done.
  exists step. split_and!; try done. intros f Hel.
  assert (calc_sfx_id f id ∈ map (λ g, calc_sfx_id g id) step) as Hel'.
  { apply list_elem_of_In, (in_map (λ g, calc_sfx_id g id)), list_elem_of_In. done. }
  split.
  - apply links_inserted. unfold sfx_ids_of. cbn.
    by rewrite ?Hs, ?Hid; cbn; rewrite app_nil_r.
  - rewrite Hch. apply register_all_is_Some. by rewrite local_request_charges_keys, Hid.
Qed.
End Submission.

(** ** The dead letter queue *)

Section DeadLetters.
Context {A X : Type} `{Hashing} `{AccountManagerSpec A} `{!CircuitConfig A X}.
Implicit Types w : World A X.

Abbreviation Letter := (BlockNumber * list TargetId * SpeedMode)%type.

(** What the queue does to a letter: it leaves when its targets are active. *)
Definition delivered (x : X) (entry : Letter) : bool :=
  ensure_all_gateways_are_active x entry.1.2.

(** The state of one entry after the entries of [l] are processed. *)
Definition letter_done w w' (id : Hash) (entry : Letter) : Prop :=
  if delivered (w_ext w) entry
  then dlq_entries w' !! id = None ∧ is_Some (pending_xtx_timeouts w' !! id)
  else dlq_entries w' !! id = Some entry ∧
       pending_xtx_timeouts w' !! id = pending_xtx_timeouts w !! id.

Definition letters_kept id w w' : Prop :=
  dlq_entries w' !! id = dlq_entries w !! id ∧
  pending_xtx_timeouts w' !! id = pending_xtx_timeouts w !! id.

Lemma process_dlq_entry_run {E} id entry w :
  dlq_entries w !! id = Some entry →
  ∃ wt w', process_dlq_entry (E:=E) (id, entry) w = Ok wt w' ∧ w_ext w' = w_ext w ∧
    letter_done w w' id entry ∧ ∀ j, j ≠ id → letters_kept j w w'.
Proof.
  intros Hd. unfold process_dlq_entry, letter_done, delivered, mbind, M_bind, gets.
  cbn [fst snd]. destruct (ensure_all_gateways_are_active (w_ext w) entry.1.2).
  - unfold remove_xtx_from_dlq, mbind, M_bind, gets. rewrite Hd. unfold modify.
    eexists _, _. split; [done|]. split; [done|]. cbn. rewrite lookup_delete_eq, lookup_insert_eq.
    split; [by split; [|eexists]|]. intros j Hj. unfold letters_kept. cbn.
    by rewrite lookup_delete_ne, lookup_insert_ne.
  - by eexists _, _.
Qed.

Lemma process_dlq_entries_run {E} (l : list (Hash * Letter)) w :
  NoDup l.*1 → (∀ id entry, (id, entry) ∈ l → dlq_entries w !! id = Some entry) →
  ∃ wts w', process_dlq_entries (E:=E) l w = Ok wts w' ∧ w_ext w' = w_ext w ∧
    (∀ id entry, (id, entry) ∈ l → letter_done w w' id entry) ∧
    (∀ j, j ∉ l.*1 → letters_kept j w w').
Proof.
  revert w. induction l as [|[id entry] l IH]; intros w Hnd Hin.
  { by eexists _, _; split_and!; [done|done|set_solver|]. }
  rewrite fmap_cons in Hnd. apply NoDup_cons in Hnd as [Hnin Hnd]. cbn [fst] in Hnin.
  destruct (process_dlq_entry_run (E:=E) id entry w) as (wt & w1 & Hr1 & Hx1 & Hdone & Hkeep);
    [apply Hin; set_solver|].
  assert (∀ j e, (j, e) ∈ l → j ≠ id) as Hne.
  { intros j e Hj ->. apply Hnin. apply list_elem_of_fmap. by exists (id, e). }
  destruct (IH w1) as (wts & w2 & Hr2 & Hx2 & Hdone2 & Hkeep2); [done|..].
  { intros j e Hj. destruct (Hkeep j) as [-> _]; [by eapply Hne|]. apply Hin. set_solver. }
  eexists _, w2. split.
  { cbn [process_dlq_entries]. rewrite (bind_Ok _ _ _ _ _ Hr1), (bind_Ok _ _ _ _ _ Hr2). done. }
  split; [congruence|]. split.
  - intros j e [[= -> ->]|Hj]%elem_of_cons.
    + destruct (Hkeep2 id Hnin) as [Hk1 Hk2]. unfold letter_done in Hdone |- *.
      by rewrite Hk1, Hk2.
    + specialize (Hdone2 j e Hj). destruct (Hkeep j) as [_ Hk]; [by eapply Hne|].
      revert Hdone2. unfold letter_done. rewrite Hx1.
      destruct (delivered (w_ext w) e); [done|]. by rewrite Hk.
  - intros j Hj. rewrite fmap_cons in Hj.
    destruct (Hkeep j) as [Ha Hb]; [set_solver|]. destruct (Hkeep2 j) as [Hc Hd]; [set_solver|].
    split; congruence.
Qed.
End DeadLetters.

(** ** Properties *)

Section Properties.
Context {A X : Type} `{Hashing} `{AccountManagerSpec A} `{!CircuitConfig A X}.
Implicit Types w : World A X.

(** [process_dlq] takes every transaction whose targets are all active
    out of the dead letter queue and gives it a timeout again, and leaves the
    other entries and every other timeout as they are. *)
Theorem dead_letters_delivered {E} w n :
  ∃ weight w', process_dlq (E:=E) n w = Ok weight w' ∧
    (∀ id entry, dlq_entries w !! id = Some entry → letter_done w w' id entry) ∧
    (∀ id, dlq_entries w !! id = None → letters_kept id w w').
Proof.
  destruct (process_dlq_entries_run (E:=E) (storage_iter (dlq_entries w)) w)
    as (wts & w' & Hrun & _ & Hdone & Hkeep).
  - apply storage_iter_NoDup.
  - intros id entry. by rewrite storage_iter_elem.
  - eexists _, w'. split.
    { unfold process_dlq, mbind at 1, M_bind at 1, gets.
      rewrite (bind_Ok _ _ _ _ _ Hrun). done. }
    split.
    + intros id entry Hd. apply Hdone. by apply storage_iter_elem.
    + intros id Hd. apply Hkeep. intros ([k e] & -> & Hin)%list_elem_of_fmap.
      apply storage_iter_elem in Hin. cbn in Hd. congruence.
Qed.

(** A submission accepted by [on_extrinsic_trigger] is stored under the
    next identifier of the requester, waiting for bids, with one fresh side
    effect per submitted one; all targets are active, the bidding period is
    set, every side effect is linked to the transaction and has a deposit. *)
Theorem submission_stored w who sfx mode lvl w' :
  sfx ≠ [] → Z.of_nat (length sfx) ≤ 2 ^ 32 →
  on_extrinsic_trigger (Signed who) sfx mode lvl w = Ok tt w' →
  submitted w who sfx w'.
Proof.
  intros Hne Hlen Hcall. unfold on_extrinsic_trigger, extrinsic_trigger in Hcall.
  rewrite transactional_Ok in Hcall.
  apply bind_Ok_inv in Hcall as (who' & w0 & [= <- <-] & Hcall).
  apply bind_Ok_inv in Hcall as (ctx & w1 & Hdo & [= <-]). unfold circ, map_err in Hdo.
  destruct (do_on_extrinsic_trigger _ _ _ _ _ _) as [ctx' w2| |] eqn:Hdo'; simplify_eq.
  by eapply trigger_submitted.
Qed.

(** A confirmation passes [confirm] only when the side effect is
    unconfirmed and all targets of the step are active, the light client
    verified the inclusion at a height not below the submission height, and
    the received message matches the arguments under the ABI of the action; it
    then sets the confirmation of that side effect and changes no storage. *)
Theorem confirm_checks w xtx_id step sfx_id c step' w' :
  confirm xtx_id step sfx_id c w = Ok step' w' →
  w' = w ∧
  step' = update_first (has_sfx_id xtx_id sfx_id) (set_confirmed (Some c)) step ∧
  ensure_all_gateways_are_active (w_ext w) (map (λ f, sfx_target (fsx_input f)) step) = true ∧
  ∃ fsx x receipt abi codec,
    List.find (has_sfx_id xtx_id sfx_id) step = Some fsx ∧ fsx_confirmed fsx = None ∧
    x_exec_signals w !! xtx_id = Some x ∧
    verify_event_inclusion (w_ext w) (sfx_target (fsx_input fsx)) (xtx_speed_mode x) None
      (conf_inclusion_data c) = ROk receipt ∧
    fsx_submission_target_height fsx ≤ receipt_height receipt ∧
    get_sfx_abi (w_ext w) (sfx_target (fsx_input fsx)) (sfx_action (fsx_input fsx)) = Some abi ∧
    get_target_codec (w_ext w) (sfx_target (fsx_input fsx)) = ROk codec ∧
    validate_arguments_against_received abi (sfx_encoded_args (fsx_input fsx))
      (receipt_message receipt) Scale codec = ROk tt.
Proof.
  unfold confirm, circ. intros Hc.
  apply bind_Ok_inv in Hc as ([] & ? & Hne & Hc). inv_ok Hne.
  apply bind_Ok_inv in Hc as (ext & ? & Hext & Hc). inv_ok Hext.
  apply bind_Ok_inv in Hc as ([] & ? & Hact & Hc). inv_ok Hact.
  apply bind_Ok_inv in Hc as (found & ? & Hf & Hc). inv_ok Hf.
  apply bind_Ok_inv in Hc as ([] & ? & Hn & Hc). inv_ok Hn.
  apply bind_Ok_inv in Hc as (ctx & ? & Hl & Hc). inv_ok Hl.
  match goal with Hl : load_xtx _ _ = Ok _ _ |- _ => apply load_xtx_Ok in Hl as (-> & _ & Hx & _ & _) end.
  apply bind_Ok_inv in Hc as (receipt & ? & Hr & Hc). inv_ok Hr.
  match goal with Hv : lift_result _ _ = Ok _ _ |- _ => inv_ok Hv end.
  apply bind_Ok_inv in Hc as (abi & ? & Ha & Hc). inv_ok Ha.
  apply bind_Ok_inv in Hc as ([] & ? & Hh & Hc). inv_ok Hh.
  apply bind_Ok_inv in Hc as (codec & ? & Hcd & Hc). inv_ok Hcd.
  apply bind_Ok_inv in Hc as ([] & ? & Hva & Hc). inv_ok Hva. inv_ok Hc.
  split_and!; [done..|]. eexists _, _, _, _, _.
  split_and!; [done| |exact Hx|done| |done|done|done].
  - by destruct (fsx_confirmed _).
  - cbn in *. lia.
Qed.

(** A finalized identifier that is used again halts the chain: once the
    new transaction is ready, [process_tick_two] runs into the [expect] of
    [compile_infallible]. *)
Theorem reused_id_traps {E} w id ctx step :
  load_xtx id w = Ok ctx w → ctx_full_side_effects ctx = [step] →
  xtx_status (ctx_xtx ctx) = Ready → determine_xtx_status [step] = Ready →
  process_tick_two (E:=E) id w = Panic.
Proof.
  intros Hload Hs Hst Hdet. unfold process_tick_two, attempt, mbind, M_bind. rewrite Hload.
  unfold compile_infallible, expect_ok.
  rewrite (compile_refused ctx step step (TryKill Timeout) _ _ w (Some (Killed Timeout)) step w
             (Other "UpdateForcedStateTransitionDisallowed")); [done|done|by rewrite Hst| | |].
  - unfold tick_two_precompile. by rewrite Hst.
  - cbn. by rewrite <- (set_ctx_fsx_id _ _ Hs).
  - by rewrite Hst, Hdet.
Qed.

(** A signal for a transaction that is being bid on halts the chain: the
    intentional kill is refused, and [process_signal_queue] runs into the
    [expect] of [compile_infallible]. *)
Theorem signal_in_bidding_traps {E} w n interval max who signal rest ctx step :
  signal_queue w = (who, signal) :: rest → 0 < max →
  load_xtx (execution_id signal) w = Ok ctx w → ctx_full_side_effects ctx = [step] →
  xtx_status (ctx_xtx ctx) = InBidding → determine_xtx_status [step] = InBidding →
  process_signal_queue (E:=E) n interval max w = Panic.
Proof.
  intros Hq Hmax Hload Hs Hst Hdet. pose proof (load_xtx_loaded _ _ _ _ Hload) as (_ & Hid & _).
  unfold process_signal_queue, mbind at 1, M_bind at 1, gets. rewrite Hq. cbn [is_empty length].
  cbn [process_signals]. apply Z.ltb_lt in Hmax. rewrite Hmax.
  unfold attempt, mbind, M_bind. rewrite Hload. unfold kill, infallible_on, attempt, mbind, M_bind.
  rewrite Hid, Hload. unfold compile_infallible, expect_ok.
  rewrite (compile_refused ctx step step (TryKill IntentionalKill) _ _ w
             (Some (Killed IntentionalKill)) step w
             (Other "UpdateForcedStateTransitionDisallowed")); [done|done|by rewrite Hst|done| |].
  - cbn. by rewrite <- (set_ctx_fsx_id _ _ Hs).
  - by rewrite Hst, Hdet.
Qed.
End Properties.
