(* ===== verification/VacuumFacts.v ===== *)
(** * Properties of the vacuum pallet

    What a local order leaves in the Circuit, what a bridged order mints, and
    the fate of fault proofs. *)

From S2P Require Import Prelude Types Status AccountManager World SquareUp Bids Validate.
From S2P Require Import Machine Circuit Orders Queues Calls Vacuum Reach Lifecycle.

Section Facts.
Context {A X : Type} `{Hashing} `{AccountManagerSpec A} `{!CircuitConfig A X} `{!VacuumConfig A X}.
Implicit Types v : Vacuum A X.

(** A call into the Circuit changes the Circuit alone. *)
Lemma circuit_Ok_inv {T} (m : M (World A X) DispatchError T) v r v' :
  circuit m v = Ok r v' →
  ∃ w', m (v_circuit v) = Ok r w' ∧ v' = mkVacuum w' (v_events v).
Proof.
  unfold circuit, zoom. destruct (m (v_circuit v)) as [r' w'| |]; [|done..].
  intros [= <- <-]. by exists w'.
Qed.

Lemma with_am_Ok_inv {E T} (m : M A E T) (w : World A X) r w' :
  with_am m w = Ok r w' → ∃ a', m (w_am w) = Ok r a' ∧ w' = set_am a' w.
Proof.
  unfold with_am, zoom. destruct (m (w_am w)) as [r' a'| |]; [|done..].
  intros [= <- <-]. by exists a'.
Qed.

Lemma assert_that_Ok_inv b v u v' : assert_that b v = Ok u v' → b = true ∧ v' = v.
Proof. unfold assert_that. destruct b; [|done]. by intros [= _ <-]. Qed.

Lemma as_u128_Ok_inv z v r v' : as_u128 z v = Ok r v' → r = z ∧ z ≤ u128_max ∧ v' = v.
Proof.
  unfold as_u128. destruct (Z.leb_spec z u128_max); [|done]. by intros [= <- <-].
Qed.

(** The confirmation log is 125 bytes long with the byte that is skipped. *)
Lemma reads_confirmation_log : reads 125 decode_confirmation_log.
Proof.
  change 125%nat with (1 + (32 + (20 + (32 + (20 + (20 + 0))))))%nat. unfold decode_confirmation_log.
  repeat (apply reads_bind; [solve [apply reads_bytes|apply reads_word|apply reads_uint]|intros ?]).
  apply reads_ret.
Qed.

(** The recoding of a commit log: a prefix byte, a hash and an address. *)
Definition commit_log_recoding : Prop :=
  ∀ bytes out,
    recode_bytes_with_descriptor bytes remote_transfer_commit_applied_abi_descriptor Rlp Scale =
      ROk out → length out = 53%nat.

Lemma confirmation_log_fails bytes v l v' :
  commit_log_recoding → rlp_to_confirmation_log bytes v ≠ Ok l v'.
Proof.
  intros Hrecode Hlog. unfold rlp_to_confirmation_log in Hlog.
  apply bind_Ok_inv in Hlog as (out & v1 & Hout & Hlog).
  destruct (recode_bytes_with_descriptor _ _ _ _) as [out'|] eqn:Hr; [|done].
  apply Hrecode in Hr. unfold lift_result, mret, M_ret in Hout. simplify_eq.
  unfold decode_with, ok_or in Hlog.
  destruct (decode_confirmation_log out) as [l' s| |] eqn:Hd; [|done..].
  apply reads_confirmation_log in Hd as [Hlen _]. lia.
Qed.
End Facts.

(** ** Properties *)

Section Properties.
Context {A X : Type} `{Hashing} `{AccountManagerSpec A} `{!CircuitConfig A X} `{!VacuumConfig A X}.
Implicit Types v : Vacuum A X.

(** An order accepted by [Vacuum::order] is a submission to the Circuit of
    the side effects the orders stand for, in the name of the caller, and
    deposits no event of the pallet. *)
Theorem order_submits v who orders mode v' :
  orders ≠ [] → Z.of_nat (length orders) ≤ 2 ^ 32 →
  order (Signed who) orders mode v = Ok tt v' →
  submitted (v_circuit v) who (map order_try_into orders) (v_circuit v') ∧
  v_events v' = v_events v.
Proof.
  intros Hne Hlen Hcall. unfold order in Hcall. rewrite transactional_Ok in Hcall.
  apply circuit_Ok_inv in Hcall as (w' & Hcall & ->). cbn [v_circuit v_events].
  split; [|done]. unfold extrinsic_trigger in Hcall.
  apply bind_Ok_inv in Hcall as (who' & w0 & [= <- <-] & Hcall).
  apply bind_Ok_inv in Hcall as (ctx & w1 & Hdo & [= <-]). unfold circ, map_err in Hdo.
  destruct (do_on_extrinsic_trigger _ _ _ _ _ _) as [ctx' w2| |] eqn:Hdo'; simplify_eq.
  eapply trigger_submitted; [by destruct orders|by rewrite length_map|done].
Qed.

(** When the wrapped asset of a remote order is minted, the executor gets
    the maximal reward and the target account of the order gets nothing,
    whatever the amount that was bridged. *)
Theorem bridged_amount_not_minted v who o v' :
  mint_wrapped who o v = Ok tt v' →
  let x := w_ext (v_circuit v) in
  loc_max_reward o ≤ loc_amount o ∧
  ∃ a1 a2,
    xdns_mint x (loc_asset o) who (loc_max_reward o) (w_am (v_circuit v)) = Ok tt a1 ∧
    xdns_mint x (loc_asset o) (loc_target_account o) 0 a1 = Ok tt a2 ∧
    v' = mkVacuum (set_am a2 (v_circuit v)) (v_events v).
Proof.
  intros Hm x. unfold mint_wrapped in Hm.
  apply bind_Ok_inv in Hm as (amount & v1 & (-> & _ & ->)%as_u128_Ok_inv & Hm).
  apply bind_Ok_inv in Hm as (max_reward & v1 & (-> & _ & ->)%as_u128_Ok_inv & Hm).
  apply bind_Ok_inv in Hm as ([] & v1 & (Hle%Z.leb_le & ->)%assert_that_Ok_inv & Hm).
  apply bind_Ok_inv in Hm as (x' & v1 & [= <- <-] & Hm).
  apply bind_Ok_inv in Hm as ([] & v1 & (_ & ->)%assert_that_Ok_inv & Hm).
  apply bind_Ok_inv in Hm as ([] & v1 & Hm1 & Hm2).
  apply circuit_Ok_inv in Hm1 as (w1 & (a1 & Hm1 & ->)%with_am_Ok_inv & ->).
  apply circuit_Ok_inv in Hm2 as (w2 & (a2 & Hm2 & ->)%with_am_Ok_inv & ->).
  rewrite Z.max_l in Hm2 by lia. split; [done|]. by exists a1, a2.
Qed.

(** No fault proof is ever accepted: the confirmation log is recoded under
    the descriptor of the commit log, which yields a prefix byte, a hash and an
    address, and is then decoded as a confirmation log, which is longer. *)
Theorem fault_proof_never_accepted v origin p :
  commit_log_recoding → ¬ ∃ r v', evm_submit_fault_proof origin p v = Ok r v'.
Proof.
  intros Hrecode (r & v' & Hok). unfold evm_submit_fault_proof in Hok.
  repeat (apply bind_Ok_inv in Hok as (? & ? & Hm & Hok);
          try (by apply confirmation_log_fails in Hm); clear Hm).
Qed.

(** After a dynamic destination deal is submitted, the bid of its requester
    goes to the second side effect of the pending transaction with the largest
    identifier, whether or not that is the deal. *)
Theorem deal_bids_on_largest_id v who destination asset amount reward_asset max_reward nonce mode v' :
  dynamic_destination_deal (Signed who) destination asset amount reward_asset max_reward nonce
    mode v = Ok tt v' →
  ∃ w1 id,
    remote_origin_trigger (Signed who) (to_account_id (from_remote_nonce nonce))
      [order_try_into (escrow_order who asset amount);
       order_try_into (deal_order destination reward_asset max_reward nonce)] mode
      (v_circuit v) = Ok tt w1 ∧
    (∀ j x, x_exec_signals w1 !! j = Some x → status_ltb (xtx_status x) Finished = true → j ≤ id) ∧
    place_bid (Signed who) (generate_id (be_bytes 32 id) 1) vacuum_minimum_balance w1 =
      Ok tt (v_circuit v').
Proof.
  intros Hcall. unfold dynamic_destination_deal in Hcall. rewrite transactional_Ok in Hcall.
  unfold place_deal in Hcall. apply bind_Ok_inv in Hcall as (who' & v0 & [= <- <-] & Hcall).
  apply bind_Ok_inv in Hcall as ([] & v1 & Hsub & Hcall).
  apply circuit_Ok_inv in Hsub as (w1 & Hsub & ->).
  apply bind_Ok_inv in Hcall as (id & v1 & Hlast & Hbid).
  apply circuit_Ok_inv in Hbid as (w2 & Hbid & ->).
  unfold read_sfx, recover_latest_submitted_xtx_id, mbind, M_bind, gets in Hlast. cbn in Hlast.
  destruct (last (get_pending_xtx_ids w1)) as [id'|] eqn:Hid; [|done].
  unfold lift_result, mret, M_ret in Hlast. simplify_eq.
  exists w1, id. split_and!; [done| |done].
  intros j x Hj Hx. by eapply (storage_iter_last _ _ _ Hid j x).
Qed.
End Properties.
