(* ===== verification/AbiRemote.v ===== *)
(** * Remote orders read from Ethereum logs

    [Vacuum] reads an order from the receipt of a log with
    [recode_bytes_with_descriptor] and the decoder of [evm_ingress_logs.rs].  Here
    the recoding is the one of [AbiRecode], and the order is the one that was
    logged. *)

From S2P Require Import Prelude Types AccountManager World SquareUp Bids Validate Machine.
From S2P Require Import Circuit Orders Queues Calls StandardAbi Vacuum VacuumFacts Abi AbiFill.
From S2P Require Import AbiRecode AbiParse AbiProps.

(** ** Words *)

Lemma le_bytes_split n m z : le_bytes (n + m) z = le_bytes n z ++ le_bytes m (z / 256 ^ Z.of_nat n).
Proof.
  revert z. induction n as [|n IH]; intros z.
  - simpl. by rewrite Z.div_1_r.
  - change (le_bytes (S n + m) z) with (z mod 256 :: le_bytes (n + m) (z / 256)).
    cbn [le_bytes app]. f_equal. rewrite IH. do 2 f_equal.
    rewrite Nat2Z.inj_succ, Z.pow_succ_r by lia. by rewrite Z.div_div by lia.
Qed.

(** The last [m] bytes of a word. *)
Lemma drop_be_bytes n m z : drop n (be_bytes (m + n) z) = be_bytes m z.
Proof.
  unfold be_bytes. rewrite le_bytes_split, reverse_app.
  rewrite drop_app_ge by (by rewrite length_reverse, length_le_bytes).
  by rewrite length_reverse, length_le_bytes, Nat.sub_diag.
Qed.

Lemma be_bytes_hash z : hash_bytes (be_bytes 32 z).
Proof. split; [apply length_be_bytes|apply be_bytes_is_byte]. Qed.

(** Four bytes, then zeros. *)
Definition left_word (l : list Z) : list Z := l ++ replicate 28 0.

Lemma left_word_hash l : length l = 4%nat → Forall is_byte l → hash_bytes (left_word l).
Proof.
  intros Hl Hb. split; [unfold left_word; by rewrite length_app, Hl|].
  apply Forall_app. split; [done|]. by repeat constructor.
Qed.

(** ** Instant commits (evm_ingress_logs.rs) *)

Definition instant_order_commit_abi_descriptor : string :=
  "OrderCommitted:Log(sfxId+:H256,to+:Account20,amount:Value256,empty32Bytes:H256,signatureLength:Value32,signaturePart1:H256,signaturePart2:H256,signaturePart3:H256)".

Record RemoteEVMInstantOrderCommitLog := mkInstantCommitLog {
  instant_sfx_id : Hash;
  instant_to : Z;
  instant_amount : Z;
  instant_signature : list Z;
}.

(** The length word must be 65 ([assert_eq!]): the signature is two words and
    the first byte of a third. *)
Definition decode_instant_commit_log : Reader RemoteEVMInstantOrderCommitLog :=
  _ ← Orders.read_bytes 1;
  sfx_id ← read_word 32;
  to ← read_word 20;
  amount ← read_uint 32;
  _ ← Orders.read_bytes 32;
  signature_length ← read_uint 4;
  signature_part_1 ← Orders.read_bytes 32;
  signature_part_2 ← Orders.read_bytes 32;
  signature_part_3 ← Orders.read_bytes 32;
  if signature_length =? 65 then
    mret (mkInstantCommitLog sfx_id to amount
            (signature_part_1 ++ signature_part_2 ++ take 1 signature_part_3))
  else panic.

(** The word of the amount, six words before the end, replaces the last one. *)
Definition trim_signature (event_bytes : list Z) : Fill (list Z) :=
  let n := length event_bytes in
  if (192 <? n)%nat then
    let amount_bytes := take 32 (drop (n - 192) event_bytes) in
    mret (take (n - 32) event_bytes ++ amount_bytes)
  else panic.

Lemma trim_signature_moves_amount pre amount signature last_word :
  pre ≠ [] → is_hash amount → length signature = 128%nat → is_hash last_word →
  trim_signature (pre ++ amount ++ signature ++ last_word) tt
  = Ok (pre ++ amount ++ signature ++ amount) tt.
Proof.
  intros Hpre Ha Hs Hl. unfold trim_signature. rewrite !length_app, Ha, Hs, Hl.
  rewrite (proj2 (Nat.ltb_lt _ _)) by (destruct pre; [done|simpl; lia]).
  replace (length pre + (32 + (128 + 32)) - 192)%nat with (length pre) by lia.
  rewrite drop_app_length, (take_app_length' amount) by done.
  rewrite !app_assoc, (take_app_length' ((pre ++ amount) ++ signature)).
  - by rewrite <-!app_assoc.
  - rewrite !length_app, Ha, Hs. lia.
Qed.

(** ** Orders *)

Section Remote.
Context `{RlpLib, !RlpLaws}.

(** The fields of the log of an order, with what they are filled with. *)
Definition order_fields (o : RemoteEVMOrderLog) : list WordField :=
  let word a w := (a, w, default (FBytes None []) (word_filled a w)) in
  [word (AH256 (named "sfxId+")) (be_bytes 32 (log_sfx_id o));
   word (AValue32 (named "nonce+")) (be_bytes 32 (log_nonce o));
   word (AAccount20 (named "sender+")) (be_bytes 32 (log_sender o));
   word (ABytes4 (named "destination")) (left_word (log_destination o));
   word (ABytes4 (named "asset")) (left_word (le_bytes 4 (log_asset o)));
   word (AAccount32 (named "targetAccount")) (be_bytes 32 (log_target_account o));
   word (AValue256 (named "amount")) (be_bytes 32 (log_amount o));
   word (AAccount20 (named "rewardAsset")) (be_bytes 32 (log_reward_asset o));
   word (AValue256 (named "insurance")) (be_bytes 32 (log_insurance o));
   word (AValue256 (named "maxReward")) (be_bytes 32 (log_max_reward o))].

(** The log: three topics after the first, seven words at the end of the data. *)
Definition order_topics (o : RemoteEVMOrderLog) : list (list Z) :=
  [be_bytes 32 (log_sfx_id o); be_bytes 32 (log_nonce o); be_bytes 32 (log_sender o)].
Definition order_words (o : RemoteEVMOrderLog) : list (list Z) :=
  [left_word (log_destination o); left_word (le_bytes 4 (log_asset o));
   be_bytes 32 (log_target_account o); be_bytes 32 (log_amount o);
   be_bytes 32 (log_reward_asset o); be_bytes 32 (log_insurance o);
   be_bytes 32 (log_max_reward o)].
Definition order_eth_log (address topic0 pd : list Z) (o : RemoteEVMOrderLog) : Eth2IngressEventLog :=
  mkEthLog address (topic0 :: order_topics o) (pd ++ concat (order_words o)).

Lemma order_descriptor_parsed o :
  abi_try_from (bytes_of remote_order_abi_descriptor)
  = ROk (ALog (named "RemoteOrderIndexed") (map word_abi (order_fields o))).
Proof. vm_compute. reflexivity. Qed.

Lemma order_fields_words o :
  topic_words (order_fields o) = concat (order_topics o) ∧
  data_words (order_fields o) = concat (order_words o).
Proof. split; reflexivity. Qed.

Lemma is_word_mono n m z : (n ≤ m)%nat → is_word n z → is_word m z.
Proof.
  unfold is_word. intros Hn [? Hz]. split; [done|]. eapply Z.lt_le_trans; [exact Hz|].
  apply Z.pow_le_mono_r; lia.
Qed.

Lemma order_fields_ok o :
  order_log_ok o → Forall is_byte (log_destination o) → Forall word_ok (order_fields o).
Proof.
  intros (_ & Hn & _ & Hd & _) Hdb.
  assert (∀ a w, hash_bytes w → is_Some (word_filled a w) →
    word_ok (a, w, default (FBytes None []) (word_filled a w))) as Hok.
  { intros a w [Hw Hb] [f Hf]. rewrite Hf. by split_and!. }
  pose proof (left_word_hash (le_bytes 4 (log_asset o)) (length_le_bytes _ _) (le_bytes_is_byte _ _)).
  pose proof (left_word_hash _ Hd Hdb).
  unfold order_fields. repeat (apply Forall_cons; split; [apply Hok; [first [apply be_bytes_hash|done]|]|]);
    try apply Forall_nil_2; try (by eexists).
  cbn [word_filled]. rewrite word_be_bytes by (apply (is_word_mono 4); [lia|done]).
  unfold is_word in Hn. rewrite (proj2 (Z.leb_le _ _)) by (unfold u32_max; simpl in Hn; lia). by eexists.
Qed.

(** The recoded fields are the SCALE encoding of the order. *)
Lemma order_fields_scale o :
  order_log_ok o → flat_map word_scale (order_fields o) = order_log_encode o.
Proof.
  intros (Hid & Hn & Hs & Hd & Has & Hta & Ham & Hra & Hin & Hmr).
  unfold order_fields, order_log_encode, word_scale, word_of, word_abi. cbn [flat_map fst snd].
  rewrite !word_be_bytes by first [done|apply (is_word_mono 4); [lia|done]].
  assert (∀ z, drop 12 (be_bytes 32 z) = be_bytes 20 z) as Haddr by apply (drop_be_bytes 12 20).
  assert (∀ l, length l = 4%nat → take 4 (left_word l) = l) as Hleft
    by (intros l Hl; unfold left_word; by rewrite take_app_le, take_ge by lia).
  rewrite !Haddr, !Hleft by first [done|apply length_le_bytes]. by rewrite app_nil_r.
Qed.

(** The bytes of a log with an order, recoded with the descriptor of orders. *)
Lemma order_log_recoded o address topic0 pd :
  order_log_ok o → Forall is_byte (log_destination o) → eth_log_ok (order_eth_log address topic0 pd o) →
  AbiRecode.recode_bytes_with_descriptor (encode_eth_log (order_eth_log address topic0 pd o))
    (bytes_of remote_order_abi_descriptor) Rlp Scale tt
  = Ok (0 :: order_log_encode o) tt.
Proof.
  intros Ho Hdb Hlog. destruct (order_fields_words o) as [Ht Hd].
  rewrite (evm_log_recoded _ (named "RemoteOrderIndexed") (order_fields o) _ pd).
  - by rewrite order_fields_scale.
  - apply order_descriptor_parsed.
  - by apply order_fields_ok.
  - done.
  - by rewrite Ht.
  - by rewrite Hd.
Qed.

(** ** Commit logs *)

(** A hash or an address of a log that is recoded has 32 or 20 bytes. *)
Lemma topic_hash_scale n input f k out :
  decode_topics_as_rlp (AH256 n) input tt = Ok (f, k) tt →
  recode_as Rlp Scale false f tt = Ok out tt → length out = 32%nat.
Proof.
  intros Hd Hr. cbn [decode_topics_as_rlp] in Hd. apply bind_Ok_inv in Hd as (? & [] & _ & Hd).
  unfold mret, M_ret in Hd. simplify_eq. cbn [recode_as] in Hr. unfold recode_hash, scale_fixed in Hr.
  destruct (Nat.leb_spec 32 (length (drop (length input - MINIMUM_INPUT_LENGTH) input))); [|done].
  unfold mret, M_ret in Hr. simplify_eq. rewrite length_take. lia.
Qed.

Lemma topic_address_scale n input f k out :
  decode_topics_as_rlp (AAccount20 n) input tt = Ok (f, k) tt →
  recode_as Rlp Scale false f tt = Ok out tt → length out = 20%nat.
Proof.
  intros Hd Hr. cbn [decode_topics_as_rlp] in Hd. apply bind_Ok_inv in Hd as (? & [] & _ & Hd).
  unfold mret, M_ret in Hd. simplify_eq. cbn [recode_as] in Hr. unfold recode_account20, ensure in Hr.
  case_match eqn:Hlen; [|done]. apply Nat.eqb_eq in Hlen. unfold mbind, M_bind, mret, M_ret in Hr.
  by simplify_eq.
Qed.

(** Two fields among the topics. *)
Lemma two_topics_filled a b flat_topics flat_data n fs total :
  (∀ f, abi_get_name f = abi_get_name a ∨ abi_get_name f = abi_get_name b →
     bool_decide (last (default [43] (abi_get_name f)) = Some 43) = true) →
  log_fields_rev [b; a] flat_topics flat_data n tt = Ok (fs, total) tt →
  ∃ fa fb ka kb ia ib, fs = [fb; fa] ∧ decode_topics_as_rlp a ia tt = Ok (fa, ka) tt ∧
    decode_topics_as_rlp b ib tt = Ok (fb, kb) tt.
Proof.
  intros Hplus Hf. cbn [log_fields_rev] in Hf. rewrite !Hplus in Hf by auto.
  apply bind_Ok_inv in Hf as ([fb kb] & [] & Hb & Hf).
  apply bind_Ok_inv in Hf as ([rest k] & [] & Hrest & [= <- <-]).
  apply bind_Ok_inv in Hrest as ([fa ka] & [] & Ha & [= <- <-]).
  by eexists fa, fb, ka, kb, _, _.
Qed.

Lemma commit_descriptor_parsed :
  abi_try_from (bytes_of remote_transfer_commit_applied_abi_descriptor)
  = ROk (ALog (named "TransferCommitApplied") [AH256 (named "sfxId+"); AAccount20 (named "executor+")]).
Proof. vm_compute. reflexivity. Qed.

(** A log of a hash and an address is recoded to a prefix byte, the hash and the
    address. *)
Lemma hash_address_log_length name n1 n2 bytes filled out :
  (∀ f, abi_get_name f = n1 ∨ abi_get_name f = n2 →
     bool_decide (last (default [43] (abi_get_name f)) = Some 43) = true) →
  try_fill_abi (ALog name [AH256 n1; AAccount20 n2]) bytes Rlp tt = Ok filled tt →
  recode_as Rlp Scale false filled tt = Ok out tt → length out = 53%nat.
Proof.
  intros Hplus Hf Hr. unfold try_fill_abi in Hf. apply bind_Ok_inv in Hf as ([f k] & [] & Hf & [= <-]).
  change (event_to_filled_rlp bytes name [AH256 n1; AAccount20 n2] tt = Ok (f, k) tt) in Hf.
  apply bind_Ok_inv in Hf as (log & [] & _ & Hf).
  apply bind_Ok_inv in Hf as ([fs total] & [] & Hf & [= <- <-]).
  apply two_topics_filled in Hf as (fa & fb & ka & kb & ia & ib & -> & Ha & Hb); [|exact Hplus].
  change (reverse [fb; fa]) with [fa; fb] in Hr. cbn [recode_as] in Hr.
  apply bind_Ok_inv in Hr as (enc & [] & Henc & [= <-]).
  apply bind_Ok_inv in Henc as (d1 & [] & H1 & Henc).
  apply bind_Ok_inv in Henc as (rest & [] & Hrest & [= <-]).
  apply bind_Ok_inv in Hrest as (d2 & [] & H2 & [= <-]).
  apply (topic_hash_scale _ _ _ _ _ Ha) in H1. apply (topic_address_scale _ _ _ _ _ Hb) in H2.
  simpl length. rewrite app_nil_r, length_app. lia.
Qed.

Lemma commit_log_recoded_length bytes out :
  AbiRecode.recode_bytes_with_descriptor bytes
    (bytes_of remote_transfer_commit_applied_abi_descriptor) Rlp Scale tt = Ok out tt →
  length out = 53%nat.
Proof.
  unfold AbiRecode.recode_bytes_with_descriptor. rewrite commit_descriptor_parsed. intros Hr.
  apply bind_Ok_inv in Hr as (abi & [] & [= <-] & Hr).
  apply bind_Ok_inv in Hr as (filled & [] & Hf & Hr).
  refine (hash_address_log_length _ _ _ _ _ _ _ Hf Hr). by intros g [->| ->].
Qed.

Context {A X : Type} `{Hashing, AccountManager A, !CircuitConfig A X, !VacuumConfig A X}.

(** The recoding the pallet uses is that of [AbiRecode]. *)
Definition recodes_with_abi : Prop :=
  ∀ bytes descriptor recoded,
    Vacuum.recode_bytes_with_descriptor bytes descriptor Rlp Scale = ROk recoded ↔
    AbiRecode.recode_bytes_with_descriptor bytes (bytes_of descriptor) Rlp Scale tt = Ok recoded tt.


(** No fault proof is ever accepted. *)
Theorem fault_proofs_refused v origin p :
  recodes_with_abi → ¬ ∃ r v', evm_submit_fault_proof origin p v = Ok r v'.
Proof.
  intros Hrec. apply fault_proof_never_accepted. intros bytes out Hout.
  by apply (commit_log_recoded_length bytes), Hrec.
Qed.

End Remote.
