(* ===== verification/Batches.v ===== *)
(** * Batches of attestations

    [pallets/attesters/src/lib.rs] ([BatchMessage], its encoding and the
    messages attesters sign) and [primitives/src/attesters.rs] (the keys of an
    attester and the verification of a signature).

    - A committed side effect is a 64-byte word [H512]: the identifier followed
      by the payload of a general message.  It is a [Z] below [2 ^ 512].
    - Elliptic curves are library code: the class [AttesterCrypto] has the
      operations the source calls. *)

From S2P Require Import Prelude Types.

(** ** Keys of an attester (primitives/src/attesters.rs) *)

(** [GatewayVendor] (primitives/src/lib.rs). *)
Inductive GatewayVendor :=
| Polkadot | Kusama | Rococo | Ethereum | Sepolia | XBI | AttestersVendor.

#[export] Instance GatewayVendor_eq_dec : EqDecision GatewayVendor.
Proof. solve_decision. Defined.

(** The position of a constructor, which is its order and its encoding. *)
Definition vendor_index (v : GatewayVendor) : Z :=
  match v with
  | Polkadot => 0 | Kusama => 1 | Rococo => 2 | Ethereum => 3 | Sepolia => 4 | XBI => 5
  | AttestersVendor => 6
  end.

Definition all_vendors : list GatewayVendor :=
  [Polkadot; Kusama; Rococo; Ethereum; Sepolia; XBI; AttestersVendor].

#[export] Instance GatewayVendor_countable : Countable GatewayVendor.
Proof.
  refine (inj_countable vendor_index (λ z, find (λ v, vendor_index v =? z) all_vendors) _).
  by intros [].
Defined.

(** [ExecutionVendor] (primitives/src/lib.rs). *)
Inductive ExecutionVendor := SubstrateVendor | EVMVendor.

Inductive KeyTypeId :=
| ECDSA_ATTESTER_KEY_TYPE_ID | ED25519_ATTESTER_KEY_TYPE_ID | SR25519_ATTESTER_KEY_TYPE_ID
| OtherKeyTypeId.

Record AttesterInfo := mkAttesterInfo {
  key_ed : list Z;
  key_ec : list Z;
  key_sr : list Z;
  commission : Z;
  attester_index : Z;
}.

(** What the source calls of [libsecp256k1], [k256] and [sp_application_crypto]. *)
Class AttesterCrypto := {
  (** [PublicKey::parse_slice(.., Compressed)] and [serialize]: 65 bytes. *)
  parse_serialize_compressed : list Z → option (list Z);
  (** [Signature::from_slice], [recover_from_prehash] and [to_encoded_point]:
      the compressed key recovered from a message, 64 bytes and a recovery id. *)
  recover_from_prehash : list Z → list Z → Z → option (list Z);
  (** [verify] of a key on a message and a signature of 64 bytes. *)
  ed25519_verify : list Z → list Z → list Z → bool;
  sr25519_verify : list Z → list Z → list Z → bool;
}.

Section Keys.
Context `{Hashing} `{AttesterCrypto}.

(** The last 20 bytes of the hash of the uncompressed key without its prefix. *)
Definition ecdsa_pubkey_to_eth_address (pubkey : list Z) : result DispatchError (list Z) :=
  match parse_serialize_compressed pubkey with
  | None => RErr (Other "Failed to parse ECDSA public key - Compressed 33b secp256k1 PK expected")
  | Some serialized => ROk (drop 12 (be_bytes 32 (keccak256 (drop 1 serialized))))
  end.

(** [None] is the error [libsecp256k1::Error::InvalidSignature]. *)
Definition verify_secp256k1_ecdsa_signature (message signature compressed_ecdsa_pk : list Z)
    : option bool :=
  if negb (Nat.eqb (length signature) 65) then None
  else
    let v := nth 64 signature 0 in
    let recovery_id := if 26 <? v then v - 27 else v in
    if 3 <? recovery_id then None
    else
      match recover_from_prehash message (take 64 signature) recovery_id with
      | None => None
      | Some encoded_pk => Some (bool_decide (encoded_pk = compressed_ecdsa_pk))
      end.

Definition verify_attestation_signature (info : AttesterInfo) (key_type : KeyTypeId)
    (message signature attested_recoverable : list Z) (target_finality : GatewayVendor)
    : result DispatchError bool :=
  match key_type with
  | ECDSA_ATTESTER_KEY_TYPE_ID =>
      let verify :=
        match verify_secp256k1_ecdsa_signature message signature (key_ec info) with
        | Some b => ROk b
        | None => RErr (Other "InvalidSecp256k1Signature")
        end in
      if bool_decide (target_finality = Ethereum) then
        match ecdsa_pubkey_to_eth_address (key_ec info) with
        | RErr e => RErr e
        | ROk recovered_address =>
            if bool_decide (recovered_address = attested_recoverable) then verify
            else RErr (Other "RecoveredAddressMismatch")
        end
      else verify
  | ED25519_ATTESTER_KEY_TYPE_ID =>
      if Nat.eqb (length signature) 64 then ROk (ed25519_verify (key_ed info) message signature)
      else RErr (Other "InvalidSignature")
  | SR25519_ATTESTER_KEY_TYPE_ID =>
      if Nat.eqb (length signature) 64 then ROk (sr25519_verify (key_sr info) message signature)
      else RErr (Other "InvalidSignature")
  | OtherKeyTypeId => RErr (Other "InvalidKeyTypeId")
  end.
End Keys.

(** ** Batches *)

Inductive BatchStatus :=
| PendingMessage | PendingAttestation | ReadyForSubmissionByMajority
| ReadyForSubmissionFullyApproved | Repatriated | Expired | BatchStatusCommitted.

#[export] Instance BatchStatus_eq_dec : EqDecision BatchStatus.
Proof. solve_decision. Defined.

(** Missed windows and successful repatriations. *)
Inductive LatencyStatus := OnTime | Late (windows repatriations : Z).

#[export] Instance LatencyStatus_eq_dec : EqDecision LatencyStatus.
Proof. solve_decision. Defined.

Record BatchMessage := mkBatch {
  available_to_commit_at : BlockNumber;
  committed_sfx : option (list Z);
  reverted_sfx : option (list Hash);
  next_committee : option (list (list Z));
  banned_committee : option (list (list Z));
  batch_index : Z;
  signatures : list (Z * list Z);
  created : BlockNumber;
  batch_status : BatchStatus;
  latency : LatencyStatus;
  halt : bool;
}.

Definition set_available_at (v : BlockNumber) (b : BatchMessage) : BatchMessage :=
  mkBatch v (committed_sfx b) (reverted_sfx b) (next_committee b) (banned_committee b)
    (batch_index b) (signatures b) (created b) (batch_status b) (latency b) (halt b).
Definition set_committed_sfx (v : option (list Z)) (b : BatchMessage) : BatchMessage :=
  mkBatch (available_to_commit_at b) v (reverted_sfx b) (next_committee b) (banned_committee
    b) (batch_index b) (signatures b) (created b) (batch_status b) (latency b) (halt b).
Definition set_reverted_sfx (v : option (list Hash)) (b : BatchMessage) : BatchMessage :=
  mkBatch (available_to_commit_at b) (committed_sfx b) v (next_committee b)
    (banned_committee b) (batch_index b) (signatures b) (created b) (batch_status b) (latency
    b) (halt b).
Definition set_next_committee (v : option (list (list Z))) (b : BatchMessage) : BatchMessage :=
  mkBatch (available_to_commit_at b) (committed_sfx b) (reverted_sfx b) v (banned_committee
    b) (batch_index b) (signatures b) (created b) (batch_status b) (latency b) (halt b).
Definition set_banned_committee (v : option (list (list Z))) (b : BatchMessage) : BatchMessage :=
  mkBatch (available_to_commit_at b) (committed_sfx b) (reverted_sfx b) (next_committee b) v
    (batch_index b) (signatures b) (created b) (batch_status b) (latency b) (halt b).
Definition set_batch_index (v : Z) (b : BatchMessage) : BatchMessage :=
  mkBatch (available_to_commit_at b) (committed_sfx b) (reverted_sfx b) (next_committee b)
    (banned_committee b) v (signatures b) (created b) (batch_status b) (latency b) (halt b).
Definition set_signatures (v : list (Z * list Z)) (b : BatchMessage) : BatchMessage :=
  mkBatch (available_to_commit_at b) (committed_sfx b) (reverted_sfx b) (next_committee b)
    (banned_committee b) (batch_index b) v (created b) (batch_status b) (latency b) (halt b).
Definition set_created (v : BlockNumber) (b : BatchMessage) : BatchMessage :=
  mkBatch (available_to_commit_at b) (committed_sfx b) (reverted_sfx b) (next_committee b)
    (banned_committee b) (batch_index b) (signatures b) v (batch_status b) (latency b) (halt
    b).
Definition set_batch_status (v : BatchStatus) (b : BatchMessage) : BatchMessage :=
  mkBatch (available_to_commit_at b) (committed_sfx b) (reverted_sfx b) (next_committee b)
    (banned_committee b) (batch_index b) (signatures b) (created b) v (latency b) (halt b).
Definition set_latency (v : LatencyStatus) (b : BatchMessage) : BatchMessage :=
  mkBatch (available_to_commit_at b) (committed_sfx b) (reverted_sfx b) (next_committee b)
    (banned_committee b) (batch_index b) (signatures b) (created b) (batch_status b) v (halt
    b).
Definition set_halt (v : bool) (b : BatchMessage) : BatchMessage :=
  mkBatch (available_to_commit_at b) (committed_sfx b) (reverted_sfx b) (next_committee b)
    (banned_committee b) (batch_index b) (signatures b) (created b) (batch_status b) (latency
    b) v.

#[export] Instance BatchMessage_eq_dec : EqDecision BatchMessage.
Proof. solve_decision. Defined.

Definition default_batch : BatchMessage :=
  {| available_to_commit_at := 0; committed_sfx := None; reverted_sfx := None;
     next_committee := None; banned_committee := None; batch_index := 0; signatures := [];
     created := 0; batch_status := PendingMessage; latency := OnTime; halt := false |}.

(** An Ethereum address is padded to a word; an entry of another length is
    skipped with a warning. *)
Definition encode_eth_committee_addresses (committee : list (list Z)) : list Z :=
  concat (map (λ recoverable : list Z,
                 if Nat.eqb (length recoverable) 20 then replicate 12 0 ++ recoverable else [])
              committee).

Definition message (b : BatchMessage) : list Z :=
  match next_committee b with Some c => encode_eth_committee_addresses c | None => [] end ++
  match banned_committee b with Some c => encode_eth_committee_addresses c | None => [] end ++
  match committed_sfx b with Some l => concat (map (be_bytes 64) l) | None => [] end ++
  match reverted_sfx b with Some l => concat (map (be_bytes 32) l) | None => [] end ++
  be_bytes 4 (batch_index b).

Definition message_hash `{Hashing} (b : BatchMessage) : Hash := keccak256 (message b).

Definition is_empty (b : BatchMessage) : bool :=
  is_none (next_committee b) && is_none (banned_committee b) &&
  is_none (committed_sfx b) && is_none (reverted_sfx b).

Definition has_no_sfx (b : BatchMessage) : bool :=
  is_none (committed_sfx b) && is_none (reverted_sfx b).

(** [len() as u16] and a saturating sum on [u16]. *)
Definition read_batching_factor (b : BatchMessage) : Z :=
  let batching_factor :=
    match committed_sfx b with Some sfx => Z.of_nat (length sfx) mod 2 ^ 16 | None => 0 end in
  match reverted_sfx b with
  | Some sfx => saturating_add (2 ^ 16 - 1) batching_factor (Z.of_nat (length sfx) mod 2 ^ 16)
  | None => batching_factor
  end.

Record BatchingFactor := mkBatchingFactor {
  latest_confirmed : Z;
  latest_signed : Z;
  current_next : Z;
  up_to_last_10_confirmed : list Z;
}.

(** The event an escrow contract emits for a batch: a hash, an address of 20
    bytes and the hash of a committee. *)
Record TargetBatchDispatchEvent := mkDispatchEvent {
  event_hash : Hash;
  executor_on_target : list Z;
  attesting_committee : Hash;
}.

Definition decode_dispatch_event (bytes : list Z) : option TargetBatchDispatchEvent :=
  if Nat.ltb (length bytes) 84 then None
  else Some (mkDispatchEvent (from_be_bytes (take 32 bytes)) (take 20 (drop 32 bytes))
               (from_be_bytes (take 32 (drop 52 bytes)))).

(** ** Lemmas *)

Lemma set_signatures_message l b : message (set_signatures l b) = message b.
Proof. done. Qed.
Lemma set_batch_status_message st b : message (set_batch_status st b) = message b.
Proof. done. Qed.
Lemma set_latency_message x b : message (set_latency x b) = message b.
Proof. done. Qed.

Lemma batch_nonempty_iff b :
  is_empty b = false ↔
  is_Some (next_committee b) ∨ is_Some (banned_committee b) ∨
  is_Some (committed_sfx b) ∨ is_Some (reverted_sfx b).
Proof.
  unfold is_empty, is_none, is_some.
  destruct (next_committee b), (banned_committee b), (committed_sfx b), (reverted_sfx b);
    simpl; rewrite ?is_Some_alt; naive_solver.
Qed.

(** A word of 64 bytes is two words of 32. *)
Lemma be_bytes_halves h1 h2 :
  0 ≤ h2 < 2 ^ 256 → be_bytes 64 (h1 * 2 ^ 256 + h2) = be_bytes 32 h1 ++ be_bytes 32 h2.
Proof.
  intros Hh. change 64%nat with (32 + 32)%nat. rewrite be_bytes_app.
  change (256 ^ Z.of_nat 32) with (2 ^ 256). f_equal.
  - f_equal. rewrite Z.div_add_l by lia. rewrite Z.div_small by lia. lia.
  - rewrite <- (be_bytes_mod 32 (h1 * 2 ^ 256 + h2)). change (256 ^ Z.of_nat 32) with (2 ^ 256).
    rewrite Z.add_comm, Z.mod_add by lia. by rewrite Z.mod_small by lia.
Qed.

(** ** Property *)

(** The message the attesters sign does not say what it is for.  Announcing a
    committee and banning the same members are the same bytes; and so are one
    committed side effect of 64 bytes and two reverted side effects.  Only the
    index of the batch can be read back. *)
Theorem batch_message_ambiguous b b' committee h1 h2 :
  0 ≤ h2 < 2 ^ 256 →
  message (set_banned_committee None (set_next_committee (Some committee) b)) =
  message (set_banned_committee (Some committee) (set_next_committee None b)) ∧
  message (set_reverted_sfx None (set_committed_sfx (Some [h1 * 2 ^ 256 + h2]) b)) =
  message (set_reverted_sfx (Some [h1; h2]) (set_committed_sfx None b)) ∧
  (0 ≤ batch_index b < 2 ^ 32 → 0 ≤ batch_index b' < 2 ^ 32 →
   message b = message b' → batch_index b = batch_index b').
Proof.
  intros Hh. split; [|split].
  - unfold message. simpl. done.
  - unfold message. cbn [committed_sfx reverted_sfx next_committee banned_committee batch_index
      set_reverted_sfx set_committed_sfx map concat]. rewrite !app_nil_r, !app_nil_l.
    do 3 f_equal. exact (be_bytes_halves h1 h2 Hh).
  - intros Hb Hb' Hm. unfold message in Hm. rewrite !app_assoc in Hm.
    apply app_inj_2 in Hm as [_ Hm]; [|by rewrite !length_be_bytes].
    assert (from_be_bytes (be_bytes 4 (batch_index b)) = from_be_bytes (be_bytes 4 (batch_index b')))
      as He by by rewrite Hm.
    rewrite !from_be_bytes_be_bytes in He. change (256 ^ Z.of_nat 4) with (2 ^ 32) in He.
    by rewrite !Z.mod_small in He.
Qed.
