(* ===== verification/Attesters.v ===== *)
(** * The attesters pallet

    [pallets/attesters/src/lib.rs]: attesters register with a bond and are
    nominated; the best nominated ones form the active set, from which
    committees are drawn; the Circuit asks for attestations of side effects,
    which are collected in the next batch of a target; every batching window
    turns it into a batch to sign; a batch that has enough signatures can be
    committed with a proof from the target.

    The state is [AttState E]: the storage items of the pallet and the state [E]
    of what it calls, through the class [AttestersConfig].

    - [T::Currency] is a reservable currency; plain [+] and [-] on balances and
      block numbers wrap, as the release profile has no overflow checks.
    - Maps hashed with [Blake2_128Concat] are iterated in the order of the
      hashes of their keys. *)

From S2P Require Import Prelude Types AccountManager World Batches.

(** ** Events *)

Inductive AttEvent :=
| AttesterRegistered (who : AccountId)
| AttesterDeregistrationScheduled (who : AccountId) (at_block : BlockNumber)
| AttesterDeregistered (who : AccountId)
| AttestationSubmitted (who : AccountId)
| BatchingFactorRead (l : list (TargetId * option BatchingFactor))
| BatchCommitted (target : TargetId) (b : BatchMessage) (msg : list Z) (h : Hash) (paid : Balance)
| ConfirmationRewardCalculated (target : TargetId) (index : Z) (reward : Balance)
    (regression_before regression_after : Z)
| CollusionWithPermanentSlashDetected (target : TargetId) (h : Hash)
| UserFinalityFeeEstimated (target : TargetId) (fee : Balance)
| NewAttestationBatch (target : TargetId) (b : BatchMessage)
| NewAttestationMessageHash (target : TargetId) (h : Hash) (vendor : ExecutionVendor)
| NewConfirmationBatch (target : TargetId) (b : BatchMessage) (msg : list Z) (h : Hash)
| Nominated (nominator attester : AccountId) (amount : Balance)
| NewTargetActivated (target : TargetId)
| NewTargetProposed (target : TargetId)
| AttesterAgreedToNewTarget (who : AccountId) (target : TargetId) (recoverable : list Z)
| CurrentPendingAttestationBatches (target : TargetId) (l : list (Z * Hash))
| AttestationsRemovedFromLateBatches (l : list Z)
| AttestationTargetRemoved (target : TargetId) (l : list TargetId)
| ShufflingCompleted (current previous next : list AccountId).

(** ** Storage *)

Record AttState (E : Type) := mkAtt {
  att_ext : E;
  att_block : BlockNumber;
  attesters : gmap Z AttesterInfo;
  NextCommittee : list AccountId;
  CurrentCommittee : list AccountId;
  PreviousCommittee : list AccountId;
  CommitteeTransitionOn : gmap (list Z) Z;
  sorted_nominated_attesters : list (AccountId * Balance);
  active_set : list AccountId;
  permanent_slashes : list AccountId;
  invulnerable_attester : option AccountId;
  attestation_targets : list TargetId;
  pending_attestation_targets : list TargetId;
  attesters_agreements : gmap (Z * list Z) (list Z);
  next_batches : gmap (list Z) BatchMessage;
  next_committee_on_target : gmap (list Z) (list (Z * list Z));
  batches_to_sign : gmap (list Z) (list BatchMessage);
  batches : gmap (list Z) (list BatchMessage);
  pending_unnominations : gmap Z (list (AccountId * Balance * BlockNumber));
  nominations : gmap (Z * Z) Balance;
  paid_finality_fees : gmap (list Z) (list Balance);
  att_events : list AttEvent;
}.
Arguments mkAtt {E}.
Arguments att_ext {E}.
Arguments att_block {E}.
Arguments attesters {E}.
Arguments NextCommittee {E}.
Arguments CurrentCommittee {E}.
Arguments PreviousCommittee {E}.
Arguments CommitteeTransitionOn {E}.
Arguments sorted_nominated_attesters {E}.
Arguments active_set {E}.
Arguments permanent_slashes {E}.
Arguments invulnerable_attester {E}.
Arguments attestation_targets {E}.
Arguments pending_attestation_targets {E}.
Arguments attesters_agreements {E}.
Arguments next_batches {E}.
Arguments next_committee_on_target {E}.
Arguments batches_to_sign {E}.
Arguments batches {E}.
Arguments pending_unnominations {E}.
Arguments nominations {E}.
Arguments paid_finality_fees {E}.
Arguments att_events {E}.

Section AttStateSetters.
Context {E : Type}.
Definition set_att_ext (v : E) (s : AttState E) : AttState E :=
  mkAtt v (att_block s) (attesters s) (NextCommittee s) (CurrentCommittee s)
    (PreviousCommittee s) (CommitteeTransitionOn s) (sorted_nominated_attesters s) (active_set
    s) (permanent_slashes s) (invulnerable_attester s) (attestation_targets s)
    (pending_attestation_targets s) (attesters_agreements s) (next_batches s)
    (next_committee_on_target s) (batches_to_sign s) (batches s) (pending_unnominations s)
    (nominations s) (paid_finality_fees s) (att_events s).
Definition set_att_block (v : BlockNumber) (s : AttState E) : AttState E :=
  mkAtt (att_ext s) v (attesters s) (NextCommittee s) (CurrentCommittee s)
    (PreviousCommittee s) (CommitteeTransitionOn s) (sorted_nominated_attesters s) (active_set
    s) (permanent_slashes s) (invulnerable_attester s) (attestation_targets s)
    (pending_attestation_targets s) (attesters_agreements s) (next_batches s)
    (next_committee_on_target s) (batches_to_sign s) (batches s) (pending_unnominations s)
    (nominations s) (paid_finality_fees s) (att_events s).
Definition set_attesters (v : gmap Z AttesterInfo) (s : AttState E) : AttState E :=
  mkAtt (att_ext s) (att_block s) v (NextCommittee s) (CurrentCommittee s)
    (PreviousCommittee s) (CommitteeTransitionOn s) (sorted_nominated_attesters s) (active_set
    s) (permanent_slashes s) (invulnerable_attester s) (attestation_targets s)
    (pending_attestation_targets s) (attesters_agreements s) (next_batches s)
    (next_committee_on_target s) (batches_to_sign s) (batches s) (pending_unnominations s)
    (nominations s) (paid_finality_fees s) (att_events s).
Definition set_NextCommittee (v : list AccountId) (s : AttState E) : AttState E :=
  mkAtt (att_ext s) (att_block s) (attesters s) v (CurrentCommittee s) (PreviousCommittee s)
    (CommitteeTransitionOn s) (sorted_nominated_attesters s) (active_set s) (permanent_slashes
    s) (invulnerable_attester s) (attestation_targets s) (pending_attestation_targets s)
    (attesters_agreements s) (next_batches s) (next_committee_on_target s) (batches_to_sign s)
    (batches s) (pending_unnominations s) (nominations s) (paid_finality_fees s) (att_events
    s).
Definition set_CurrentCommittee (v : list AccountId) (s : AttState E) : AttState E :=
  mkAtt (att_ext s) (att_block s) (attesters s) (NextCommittee s) v (PreviousCommittee s)
    (CommitteeTransitionOn s) (sorted_nominated_attesters s) (active_set s) (permanent_slashes
    s) (invulnerable_attester s) (attestation_targets s) (pending_attestation_targets s)
    (attesters_agreements s) (next_batches s) (next_committee_on_target s) (batches_to_sign s)
    (batches s) (pending_unnominations s) (nominations s) (paid_finality_fees s) (att_events
    s).
Definition set_PreviousCommittee (v : list AccountId) (s : AttState E) : AttState E :=
  mkAtt (att_ext s) (att_block s) (attesters s) (NextCommittee s) (CurrentCommittee s) v
    (CommitteeTransitionOn s) (sorted_nominated_attesters s) (active_set s) (permanent_slashes
    s) (invulnerable_attester s) (attestation_targets s) (pending_attestation_targets s)
    (attesters_agreements s) (next_batches s) (next_committee_on_target s) (batches_to_sign s)
    (batches s) (pending_unnominations s) (nominations s) (paid_finality_fees s) (att_events
    s).
Definition set_CommitteeTransitionOn (v : gmap (list Z) Z) (s : AttState E) : AttState E :=
  mkAtt (att_ext s) (att_block s) (attesters s) (NextCommittee s) (CurrentCommittee s)
    (PreviousCommittee s) v (sorted_nominated_attesters s) (active_set s) (permanent_slashes
    s) (invulnerable_attester s) (attestation_targets s) (pending_attestation_targets s)
    (attesters_agreements s) (next_batches s) (next_committee_on_target s) (batches_to_sign s)
    (batches s) (pending_unnominations s) (nominations s) (paid_finality_fees s) (att_events
    s).
Definition set_sorted_nominated (v : list (AccountId * Balance)) (s : AttState E) : AttState E :=
  mkAtt (att_ext s) (att_block s) (attesters s) (NextCommittee s) (CurrentCommittee s)
    (PreviousCommittee s) (CommitteeTransitionOn s) v (active_set s) (permanent_slashes s)
    (invulnerable_attester s) (attestation_targets s) (pending_attestation_targets s)
    (attesters_agreements s) (next_batches s) (next_committee_on_target s) (batches_to_sign s)
    (batches s) (pending_unnominations s) (nominations s) (paid_finality_fees s) (att_events
    s).
Definition set_active_set (v : list AccountId) (s : AttState E) : AttState E :=
  mkAtt (att_ext s) (att_block s) (attesters s) (NextCommittee s) (CurrentCommittee s)
    (PreviousCommittee s) (CommitteeTransitionOn s) (sorted_nominated_attesters s) v
    (permanent_slashes s) (invulnerable_attester s) (attestation_targets s)
    (pending_attestation_targets s) (attesters_agreements s) (next_batches s)
    (next_committee_on_target s) (batches_to_sign s) (batches s) (pending_unnominations s)
    (nominations s) (paid_finality_fees s) (att_events s).
Definition set_permanent_slashes (v : list AccountId) (s : AttState E) : AttState E :=
  mkAtt (att_ext s) (att_block s) (attesters s) (NextCommittee s) (CurrentCommittee s)
    (PreviousCommittee s) (CommitteeTransitionOn s) (sorted_nominated_attesters s) (active_set
    s) v (invulnerable_attester s) (attestation_targets s) (pending_attestation_targets s)
    (attesters_agreements s) (next_batches s) (next_committee_on_target s) (batches_to_sign s)
    (batches s) (pending_unnominations s) (nominations s) (paid_finality_fees s) (att_events
    s).
Definition set_invulnerable (v : option AccountId) (s : AttState E) : AttState E :=
  mkAtt (att_ext s) (att_block s) (attesters s) (NextCommittee s) (CurrentCommittee s)
    (PreviousCommittee s) (CommitteeTransitionOn s) (sorted_nominated_attesters s) (active_set
    s) (permanent_slashes s) v (attestation_targets s) (pending_attestation_targets s)
    (attesters_agreements s) (next_batches s) (next_committee_on_target s) (batches_to_sign s)
    (batches s) (pending_unnominations s) (nominations s) (paid_finality_fees s) (att_events
    s).
Definition set_attestation_targets (v : list TargetId) (s : AttState E) : AttState E :=
  mkAtt (att_ext s) (att_block s) (attesters s) (NextCommittee s) (CurrentCommittee s)
    (PreviousCommittee s) (CommitteeTransitionOn s) (sorted_nominated_attesters s) (active_set
    s) (permanent_slashes s) (invulnerable_attester s) v (pending_attestation_targets s)
    (attesters_agreements s) (next_batches s) (next_committee_on_target s) (batches_to_sign s)
    (batches s) (pending_unnominations s) (nominations s) (paid_finality_fees s) (att_events
    s).
Definition set_pending_targets (v : list TargetId) (s : AttState E) : AttState E :=
  mkAtt (att_ext s) (att_block s) (attesters s) (NextCommittee s) (CurrentCommittee s)
    (PreviousCommittee s) (CommitteeTransitionOn s) (sorted_nominated_attesters s) (active_set
    s) (permanent_slashes s) (invulnerable_attester s) (attestation_targets s) v
    (attesters_agreements s) (next_batches s) (next_committee_on_target s) (batches_to_sign s)
    (batches s) (pending_unnominations s) (nominations s) (paid_finality_fees s) (att_events
    s).
Definition set_agreements (v : gmap (Z * list Z) (list Z)) (s : AttState E) : AttState E :=
  mkAtt (att_ext s) (att_block s) (attesters s) (NextCommittee s) (CurrentCommittee s)
    (PreviousCommittee s) (CommitteeTransitionOn s) (sorted_nominated_attesters s) (active_set
    s) (permanent_slashes s) (invulnerable_attester s) (attestation_targets s)
    (pending_attestation_targets s) v (next_batches s) (next_committee_on_target s)
    (batches_to_sign s) (batches s) (pending_unnominations s) (nominations s)
    (paid_finality_fees s) (att_events s).
Definition set_next_batches (v : gmap (list Z) BatchMessage) (s : AttState E) : AttState E :=
  mkAtt (att_ext s) (att_block s) (attesters s) (NextCommittee s) (CurrentCommittee s)
    (PreviousCommittee s) (CommitteeTransitionOn s) (sorted_nominated_attesters s) (active_set
    s) (permanent_slashes s) (invulnerable_attester s) (attestation_targets s)
    (pending_attestation_targets s) (attesters_agreements s) v (next_committee_on_target s)
    (batches_to_sign s) (batches s) (pending_unnominations s) (nominations s)
    (paid_finality_fees s) (att_events s).
Definition set_committee_on_target (v : gmap (list Z) (list (Z * list Z))) (s : AttState E) : AttState E :=
  mkAtt (att_ext s) (att_block s) (attesters s) (NextCommittee s) (CurrentCommittee s)
    (PreviousCommittee s) (CommitteeTransitionOn s) (sorted_nominated_attesters s) (active_set
    s) (permanent_slashes s) (invulnerable_attester s) (attestation_targets s)
    (pending_attestation_targets s) (attesters_agreements s) (next_batches s) v
    (batches_to_sign s) (batches s) (pending_unnominations s) (nominations s)
    (paid_finality_fees s) (att_events s).
Definition set_batches_to_sign (v : gmap (list Z) (list BatchMessage)) (s : AttState E) : AttState E :=
  mkAtt (att_ext s) (att_block s) (attesters s) (NextCommittee s) (CurrentCommittee s)
    (PreviousCommittee s) (CommitteeTransitionOn s) (sorted_nominated_attesters s) (active_set
    s) (permanent_slashes s) (invulnerable_attester s) (attestation_targets s)
    (pending_attestation_targets s) (attesters_agreements s) (next_batches s)
    (next_committee_on_target s) v (batches s) (pending_unnominations s) (nominations s)
    (paid_finality_fees s) (att_events s).
Definition set_batches (v : gmap (list Z) (list BatchMessage)) (s : AttState E) : AttState E :=
  mkAtt (att_ext s) (att_block s) (attesters s) (NextCommittee s) (CurrentCommittee s)
    (PreviousCommittee s) (CommitteeTransitionOn s) (sorted_nominated_attesters s) (active_set
    s) (permanent_slashes s) (invulnerable_attester s) (attestation_targets s)
    (pending_attestation_targets s) (attesters_agreements s) (next_batches s)
    (next_committee_on_target s) (batches_to_sign s) v (pending_unnominations s) (nominations
    s) (paid_finality_fees s) (att_events s).
Definition set_pending_unnominations (v : gmap Z (list (AccountId * Balance * BlockNumber))) (s : AttState E) : AttState E :=
  mkAtt (att_ext s) (att_block s) (attesters s) (NextCommittee s) (CurrentCommittee s)
    (PreviousCommittee s) (CommitteeTransitionOn s) (sorted_nominated_attesters s) (active_set
    s) (permanent_slashes s) (invulnerable_attester s) (attestation_targets s)
    (pending_attestation_targets s) (attesters_agreements s) (next_batches s)
    (next_committee_on_target s) (batches_to_sign s) (batches s) v (nominations s)
    (paid_finality_fees s) (att_events s).
Definition set_nominations (v : gmap (Z * Z) Balance) (s : AttState E) : AttState E :=
  mkAtt (att_ext s) (att_block s) (attesters s) (NextCommittee s) (CurrentCommittee s)
    (PreviousCommittee s) (CommitteeTransitionOn s) (sorted_nominated_attesters s) (active_set
    s) (permanent_slashes s) (invulnerable_attester s) (attestation_targets s)
    (pending_attestation_targets s) (attesters_agreements s) (next_batches s)
    (next_committee_on_target s) (batches_to_sign s) (batches s) (pending_unnominations s) v
    (paid_finality_fees s) (att_events s).
Definition set_paid_fees (v : gmap (list Z) (list Balance)) (s : AttState E) : AttState E :=
  mkAtt (att_ext s) (att_block s) (attesters s) (NextCommittee s) (CurrentCommittee s)
    (PreviousCommittee s) (CommitteeTransitionOn s) (sorted_nominated_attesters s) (active_set
    s) (permanent_slashes s) (invulnerable_attester s) (attestation_targets s)
    (pending_attestation_targets s) (attesters_agreements s) (next_batches s)
    (next_committee_on_target s) (batches_to_sign s) (batches s) (pending_unnominations s)
    (nominations s) v (att_events s).
Definition set_att_events (v : list AttEvent) (s : AttState E) : AttState E :=
  mkAtt (att_ext s) (att_block s) (attesters s) (NextCommittee s) (CurrentCommittee s)
    (PreviousCommittee s) (CommitteeTransitionOn s) (sorted_nominated_attesters s) (active_set
    s) (permanent_slashes s) (invulnerable_attester s) (attestation_targets s)
    (pending_attestation_targets s) (attesters_agreements s) (next_batches s)
    (next_committee_on_target s) (batches_to_sign s) (batches s) (pending_unnominations s)
    (nominations s) (paid_finality_fees s) v.
End AttStateSetters.

(** ** Configuration *)

(** [LightClientHeartbeat] (primitives/src/light_client.rs). *)
Record LightClientHeartbeat := mkHeartbeat {
  last_heartbeat : BlockNumber;
  last_finalized_height : BlockNumber;
  last_rational_height : BlockNumber;
  last_fast_height : BlockNumber;
  is_halted : bool;
  ever_initialized : bool;
}.

Class AttestersConfig (E : Type) := {
  CommitteeSize : Z;
  BatchingWindow : BlockNumber;
  RepatriationPeriod : BlockNumber;
  ShufflingFrequency : BlockNumber;
  DefaultCommission : Z;
  MinNominatorBond : Balance;
  MinAttesterBond : Balance;
  attesters_treasury : TreasuryAccount → AccountId;
  (** [T::DbWeight], in units of reference time. *)
  att_reads : Z → Z;
  att_writes : Z → Z;
  att_reads_writes : Z → Z → Z;
  (** The hash [Blake2_128] of an account, which orders the iterations. *)
  blake2_128 : AccountId → Z;
  (** [T::Currency]. *)
  att_free_balance : E → AccountId → Balance;
  att_reserve : AccountId → Balance → E → result DispatchError E;
  att_unreserve : AccountId → Balance → E → E;
  att_transfer : AccountId → AccountId → Balance → E → result DispatchError E;
  (** [T::RandomnessSource::random] on a subject: the bytes of the hash. *)
  att_random : E → list Z → list Z;
  (** [T::Xdns]. *)
  att_escrow_account : E → TargetId → result DispatchError (list Z);
  att_verification_vendor : E → TargetId → result DispatchError GatewayVendor;
  att_target_codec : E → TargetId → result DispatchError Codec;
  (** [T::Portal::verify_event_inclusion] with [SpeedMode::Finalized]. *)
  att_verify_inclusion : E → TargetId → list Z → list Z → result DispatchError InclusionReceipt;
  (** [FilledAbi::try_fill_abi] and [recode_as] of the event [BatchApplied]. *)
  recode_batch_event : list Z → Codec → result DispatchError (list Z);
  (** [T::ReadSFX]. *)
  att_fsx_requester : E → Hash → result DispatchError AccountId;
  att_fsx : E → Hash → result DispatchError FullSideEffect;
  (** [T::Rewards] and [T::LightClientAsyncAPI]. *)
  repatriate : Hash → FullSideEffect → CircuitStatus → option AccountId → E → E * bool;
  on_new_epoch : GatewayVendor → BlockNumber → LightClientHeartbeat → E → E;
}.

(** ** Lists *)

(** [iter().position(|x| x == y)] and [remove]. *)
Definition remove_first `{EqDecision T} (x : T) (l : list T) : list T :=
  match list_find (x =.) l with Some (i, _) => delete i l | None => l end.

Definition push_if_absent `{EqDecision T} (x : T) (l : list T) : list T :=
  if bool_decide (x ∈ l) then l else l ++ [x].

(** [slice::swap] within the bounds. *)
Definition list_swap {T} (i j : nat) (l : list T) : list T :=
  match l !! i, l !! j with
  | Some a, Some b => <[i := b]> (<[j := a]> l)
  | _, _ => l
  end.

(** [sort_by(|(_, n1), (_, n2)| n2.cmp(n1))], a stable sort. *)
Definition amount_ge (x y : AccountId * Balance) : Prop := y.2 ≤ x.2.
#[export] Instance amount_ge_dec : RelDecision amount_ge := λ x y, decide (y.2 ≤ x.2).
Definition sort_by_amount (l : list (AccountId * Balance)) : list (AccountId * Balance) :=
  merge_sort amount_ge l.

(** [sort_by(|a, b| b.created.cmp(&a.created))]. *)
Definition newer (x y : BatchMessage) : Prop := created y ≤ created x.
#[export] Instance newer_dec : RelDecision newer := λ x y, decide (created y ≤ created x).

Definition older (x y : BatchMessage) : Prop := created x ≤ created y.
#[export] Instance older_dec : RelDecision older := λ x y, decide (created x ≤ created y).

(** [sort_by(|a, b| b.index.cmp(&a.index))]. *)
Definition larger_index (x y : BatchMessage) : Prop := batch_index y ≤ batch_index x.
#[export] Instance larger_index_dec : RelDecision larger_index :=
  λ x y, decide (batch_index y ≤ batch_index x).

Section Attesters.
Context {E : Type} `{Hashing} `{AttesterCrypto} `{AttestersConfig E}.
Abbreviation S := (AttState E).
Abbreviation D := (M (AttState E) DispatchError).
Implicit Types s : AttState E.

Definition att_error (e : AttestersError) : DispatchError := AttestersModuleError e.

Definition emit (e : AttEvent) s : S := set_att_events (e :: att_events s) s.

(** Iteration in the order of the hashes of the keys. *)
Definition hash_le {V} (x y : AccountId * V) : Prop :=
  blake2_128 x.1 < blake2_128 y.1 ∨ (blake2_128 x.1 = blake2_128 y.1 ∧ x.1 ≤ y.1).
#[export] Instance hash_le_dec {V} : RelDecision (@hash_le V).
Proof. intros x y. unfold hash_le. apply _. Defined.

Definition blake_iter {V} (m : gmap Z V) : list (AccountId * V) :=
  merge_sort hash_le (map_to_list m).

(** [Nominations::iter_prefix]. *)
Definition read_nominations (for_attester : AccountId) s : list (AccountId * Balance) :=
  merge_sort hash_le
    (omap (λ kv : (Z * Z) * Balance,
             if bool_decide (kv.1.1 = for_attester) then Some (kv.1.2, kv.2) else None)
          (map_to_list (nominations s))).

(** ** Reads *)

Definition is_permanently_slashed s (account : AccountId) : bool :=
  bool_decide (account ∈ permanent_slashes s).

Definition honest_active_set s : list AccountId :=
  List.filter (λ a, negb (is_permanently_slashed s a)) (active_set s).

Definition get_batches (target : TargetId) (by_status : BatchStatus) s : list BatchMessage :=
  match batches s !! target with
  | Some l => List.filter (λ b, bool_decide (batch_status b = by_status)) l
  | None => []
  end.

Definition get_batch_by_message (target : TargetId) (msg : list Z) s : option BatchMessage :=
  match batches s !! target with
  | Some l => List.find (λ b, bool_decide (message b = msg)) l
  | None => None
  end.

Definition get_batch_by_message_hash (target : TargetId) (h : Hash) s : option BatchMessage :=
  match batches s !! target with
  | Some l => List.find (λ b, message_hash b =? h) l
  | None => None
  end.

Definition is_committable (b : BatchMessage) : bool :=
  bool_decide (batch_status b = ReadyForSubmissionByMajority)
  || bool_decide (batch_status b = ReadyForSubmissionFullyApproved).

Definition get_batches_to_commit (target : TargetId) s : list BatchMessage :=
  match batches s !! target with
  | Some l => List.filter is_committable l
  | None => []
  end.

Definition get_latest_batch_to_commit (target : TargetId) s : option BatchMessage :=
  head (merge_sort larger_index (get_batches_to_commit target s)).

Definition get_all_batches_to_sign (target : TargetId) s : list BatchMessage :=
  merge_sort newer (get_batches target PendingAttestation s).

Definition get_latest_batch_to_sign (target : TargetId) s : option BatchMessage :=
  head (get_all_batches_to_sign target s).

Definition get_latest_batch_to_sign_hash (target : TargetId) s : option Hash :=
  message_hash <$> head (merge_sort newer (get_batches target PendingAttestation s)).

Definition get_latest_batch_to_sign_message (target : TargetId) s : option (list Z) :=
  message <$> head (merge_sort newer (get_batches target PendingAttestation s)).

Definition read_attestation_latency (target : TargetId) s : option LatencyStatus :=
  latency <$> head (merge_sort older (get_batches target PendingAttestation s)).

Definition read_latest_batching_factor (target : TargetId) s : option BatchingFactor :=
  if negb (bool_decide (target ∈ attestation_targets s)) then None
  else
    let last_10 :=
      map read_batching_factor (take 10 (reverse (get_batches target BatchStatusCommitted s))) in
    let factor_of := λ o : option BatchMessage,
      match o with Some b => read_batching_factor b | None => 0 end in
    Some {| latest_confirmed := default 0 (head last_10);
            latest_signed := factor_of (get_latest_batch_to_sign target s);
            current_next := factor_of (next_batches s !! target);
            up_to_last_10_confirmed := last_10 |}.

(** *** Fees *)

Definition base_user_fee_for_single_user : Balance := 10000000000000.
Definition OVERCHARGE_FACTOR : Z := 32.
Definition REWARD_ADJUSTMENT : Z := 25.
Definition ONE_EPOCH_IN_LOCAL_BLOCKS : Z := 32.
Definition TWO_EPOCHS_IN_LOCAL_BLOCKS : Z := 64.
Definition SIX_EPOCHS_IN_LOCAL_BLOCKS : Z := 192.

Definition estimate_finality_fee (target : TargetId) s : Balance :=
  let number_of_users :=
    match read_latest_batching_factor target s with
    | Some f => latest_signed f
    | None => 1
    end in
  let paid := default [base_user_fee_for_single_user] (paid_finality_fees s !! target) in
  let latest_fee := default base_user_fee_for_single_user (last paid) in
  let base_user_fee :=
    if number_of_users =? 0 then base_user_fee_for_single_user
    else latest_fee / number_of_users in
  saturating_add u128_max (percent_mul_ceil OVERCHARGE_FACTOR base_user_fee) base_user_fee.

(** One epoch of delay raises the reward by a quarter. *)
Definition raise_reward (r : Balance) : Balance :=
  saturating_add u128_max (percent_mul_ceil REWARD_ADJUSTMENT r) r.

Definition estimate_finality_reward (target : TargetId) (blocks_delay : BlockNumber) s : Balance :=
  let finality_reward :=
    match paid_finality_fees s !! target with
    | Some fees => default base_user_fee_for_single_user (last fees)
    | None => base_user_fee_for_single_user
    end in
  let capped_delay_in_blocks := Z.min blocks_delay SIX_EPOCHS_IN_LOCAL_BLOCKS in
  let epochs_delayed := Z.to_nat (capped_delay_in_blocks / ONE_EPOCH_IN_LOCAL_BLOCKS) in
  let finality_reward := Nat.iter epochs_delayed raise_reward finality_reward in
  if capped_delay_in_blocks <? ONE_EPOCH_IN_LOCAL_BLOCKS
  then saturating_sub finality_reward (percent_mul_ceil REWARD_ADJUSTMENT finality_reward)
  else finality_reward.

(** *** Committees *)

Definition index_le (x y : Z * list Z) : Prop := x.1 ≤ y.1.
#[export] Instance index_le_dec : RelDecision index_le := λ x y, decide (x.1 ≤ y.1).

Definition get_current_committee_transition_for_target (target : TargetId) s
    : list (Z * list Z) :=
  merge_sort index_le
    (omap (λ attester,
             info ← attesters s !! attester;
             recoverable ← attesters_agreements s !! (attester, target);
             Some (attester_index info, recoverable))
          (NextCommittee s)).

(** [None] is the index out of range for a committee of more than 32 members. *)
Definition get_current_committee_indices s : option (list Z) :=
  let fill := λ (acc : option (list Z)) (ia : nat * AccountId),
    indices ← acc;
    match attesters s !! ia.2 with
    | None => Some indices
    | Some info =>
        if Nat.ltb ia.1 32 then Some (<[ia.1 := attester_index info]> indices) else None
    end in
  let numbered := imap (λ i a, (i, a)) (CurrentCommittee s) in
  merge_sort Z.le <$> fold_left fill numbered (Some (replicate 32 0)).

Definition is_last_transition_attested s : bool :=
  forallb (λ ti : list Z * Z,
             match batches s !! ti.1 with
             | Some l =>
                 match List.find (λ b, batch_index b =? ti.2) l with
                 | Some b => negb (bool_decide (batch_status b = PendingAttestation))
                 | None => true
                 end
             | None => true
             end)
          (map_to_list (CommitteeTransitionOn s)).

(** ** Nominations *)

(** The sum of the nominations, with the additions of [u128]. *)
Definition total_nomination (l : list (AccountId * Balance)) : Balance :=
  fold_left (λ acc nb, wrap128 (acc + nb.2)) l 0.

(** Set the amount of an attester of the list, or append it. *)
Definition put_amount (attester : AccountId) (amount : Balance)
    (l : list (AccountId * Balance)) : list (AccountId * Balance) :=
  match list_find (λ x, x.1 = attester) l with
  | Some (i, _) => <[i := (attester, amount)]> l
  | None => l ++ [(attester, amount)]
  end.

Definition do_nominate (nominator attester : AccountId) (amount : Balance) : D unit :=
  s ← gets id;
  ensure (amount <=? att_free_balance (att_ext s) nominator) (att_error NominatorNotEnoughBalance) ;;
  let current_nomination := default 0 (nominations s !! (attester, nominator)) in
  let new_nomination := wrap128 (current_nomination + amount) in
  modify (set_nominations (<[(attester, nominator) := new_nomination]> (nominations s))) ;;
  modify (λ s,
    let total := total_nomination (read_nominations attester s) in
    set_sorted_nominated
      (take 32 (sort_by_amount (put_amount attester total (sorted_nominated_attesters s)))) s) ;;
  s ← gets id;
  e ← lift_result (att_reserve nominator amount (att_ext s));
  modify (set_att_ext e).

(** [attesters[index].1 - amount] wraps. *)
Definition update_sorted_nominated_attesters (attester : AccountId) (amount : Balance) s : S :=
  let l := sorted_nominated_attesters s in
  match list_find (λ x, x.1 = attester) l with
  | Some (i, (_, n)) =>
      let total_nomination := wrap128 (n - amount) in
      let l := if total_nomination =? 0 then delete i l
               else <[i := (attester, total_nomination)]> l in
      set_sorted_nominated (take 32 (sort_by_amount l)) s
  | None => s
  end.

Definition do_register_attester (account_id : AccountId) (self_nominate_amount : Balance)
    (ecdsa_key ed25519_key sr25519_key : list Z) (custom_commission : option Z) : D unit :=
  s ← gets id;
  ensure (MinAttesterBond <=? self_nominate_amount) (att_error AttesterBondTooSmall) ;;
  ensure (is_none (attesters s !! account_id)) (att_error AlreadyRegistered) ;;
  let commission := default DefaultCommission custom_commission in
  let next_index := wrap32 (Z.of_nat (size (attesters s))) in
  modify (set_attesters
    (<[account_id := mkAttesterInfo ed25519_key ecdsa_key sr25519_key commission next_index]>
       (attesters s))) ;;
  do_nominate account_id account_id self_nominate_amount ;;
  modify (emit (AttesterRegistered account_id)).

(** The nominations of an attester that leaves are released one by one. *)
Definition release_nominations (attester : AccountId) s : S :=
  fold_left (λ s nb,
    set_att_ext (att_unreserve nb.1 nb.2 (att_ext s))
      (set_nominations (delete (attester, nb.1) (nominations s)) s))
    (read_nominations attester s) s.

Definition deregister (attester : AccountId) s : S :=
  let s := release_nominations attester s in
  let s := set_attesters (delete attester (attesters s)) s in
  let s := set_sorted_nominated
    (match list_find (λ x, x.1 = attester) (sorted_nominated_attesters s) with
     | Some (i, _) => delete i (sorted_nominated_attesters s)
     | None => sorted_nominated_attesters s
     end) s in
  let s := set_pending_unnominations (delete attester (pending_unnominations s)) s in
  emit (AttesterDeregistered attester) s.

(** One entry that is due. *)
Definition process_unnomination (nominator : AccountId)
    (p : AccountId * Balance * BlockNumber) s : S * Z :=
  let '(attester, amount, _) := p in
  let self_nomination := default 0 (nominations s !! (attester, attester)) in
  if (nominator =? attester) && (saturating_sub self_nomination amount <? MinAttesterBond) then
    let released := Z.of_nat (length (read_nominations attester s)) in
    (deregister attester s, released * att_writes 2 + 3 * att_writes 1)
  else
    let s := set_att_ext (att_unreserve nominator amount (att_ext s)) s in
    let s := set_nominations (delete (attester, nominator) (nominations s)) s in
    (update_sorted_nominated_attesters attester amount s, 3 * att_writes 1).

Definition unlocked (n : BlockNumber) (p : AccountId * Balance * BlockNumber) : bool :=
  p.2 <=? n.

(** The entries of one nominator. *)
Definition process_nominator (n : BlockNumber) (sw : S * Z)
    (np : AccountId * list (AccountId * Balance * BlockNumber)) : S * Z :=
  let '(nominator, pending) := np in
  let due := List.filter (unlocked n) pending in
  let '(s, w) := fold_left (λ sw p,
                   let '(s, w) := process_unnomination nominator p sw.1 in
                   (s, wrap64 (sw.2 + w))) due sw in
  let remaining := List.filter (λ p, negb (unlocked n p)) pending in
  match due with
  | [] => (s, w)
  | _ =>
      (set_pending_unnominations
         (match remaining with
          | [] => delete nominator (pending_unnominations s)
          | _ => <[nominator := remaining]> (pending_unnominations s)
          end) s, wrap64 (w + att_writes 1))
  end.

Definition process_pending_unnominations (n : BlockNumber) (aggregated_weight : Z) s : S * Z :=
  fold_left (process_nominator n) (blake_iter (pending_unnominations s))
    (s, wrap64 (aggregated_weight + att_reads 1)).

(** *** Partial slashes *)

Definition apply_partial_stake_slash (attester : AccountId)
    (nominations : list (AccountId * Balance)) (percent_slash percent_nominator_grace : Z)
    : Balance * list (AccountId * Balance) :=
  let self_nomination_balance :=
    match list_find (λ nb, nb.1 = attester) nominations with
    | Some (_, (_, balance)) => balance
    | None => 0
    end in
  if self_nomination_balance =? 0 then (0, [])
  else
    let slash_amount := percent_mul_ceil percent_slash self_nomination_balance in
    let nominators_after_slash :=
      map (λ nb : AccountId * Balance,
             if nb.1 =? attester then (nb.1, saturating_sub nb.2 slash_amount)
             else (nb.1, saturating_sub nb.2 (percent_mul_ceil percent_nominator_grace nb.2)))
          nominations in
    (saturating_sub self_nomination_balance slash_amount, nominators_after_slash).

Definition apply_permanent_attesters_slash (l : list AccountId) s : S :=
  set_permanent_slashes (permanent_slashes s ++ l) s.

(** ** Requests of the Circuit ([AttestersWriteApi]) *)

(** [H512]: the identifier and the payload. *)
Definition sfx_id_and_gmp_payload (sfx_id : Hash) (maybe_gmp_payload : option Hash) : Z :=
  sfx_id * 2 ^ 256 + default 0 maybe_gmp_payload.

Definition request_sfx_attestation_commit (target : TargetId) (sfx_id : Hash)
    (maybe_gmp_payload : option Hash) : D unit :=
  let entry := sfx_id_and_gmp_payload sfx_id maybe_gmp_payload in
  s ← gets id;
  match next_batches s !! target with
  | None => throw (Other "BatchNotFound")
  | Some next_batch =>
      match committed_sfx next_batch with
      | Some batch_sfx =>
          if bool_decide (entry ∈ batch_sfx) then throw (Other "SfxAlreadyRequested")
          else modify (set_next_batches
                 (<[target := set_committed_sfx (Some (batch_sfx ++ [entry])) next_batch]>
                    (next_batches s)))
      | None =>
          modify (set_next_batches
            (<[target := set_committed_sfx (Some [entry]) next_batch]> (next_batches s)))
      end
  end.

Definition request_sfx_attestation_revert (target : TargetId) (sfx_id : Hash) : D unit :=
  s ← gets id;
  match next_batches s !! target with
  | None => throw (att_error BatchNotFound)
  | Some next_batch =>
      match reverted_sfx next_batch with
      | Some batch_sfx =>
          if bool_decide (sfx_id ∈ batch_sfx) then throw (att_error SfxAlreadyRequested)
          else modify (set_next_batches
                 (<[target := set_reverted_sfx (Some (batch_sfx ++ [sfx_id])) next_batch]>
                    (next_batches s)))
      | None =>
          modify (set_next_batches
            (<[target := set_reverted_sfx (Some [sfx_id]) next_batch]> (next_batches s)))
      end
  end.

Definition ban_on_target (ban_attester : AccountId) (target : TargetId) : D unit :=
  s ← gets id;
  recoverable ← ok_or (attesters_agreements s !! (ban_attester, target))
                  (att_error AttesterDidNotAgreeToNewTarget);
  next_batch ← ok_or (next_batches s !! target) (att_error BatchNotFound);
  let banned := default [] (banned_committee next_batch) in
  ensure (negb (bool_decide (recoverable ∈ banned))) (att_error BanAttesterAlreadyRequested) ;;
  modify (set_next_batches
    (<[target := set_banned_committee (Some (banned ++ [recoverable])) next_batch]>
       (next_batches s))).

Definition request_ban_attesters_attestation (ban_attester : AccountId) : D unit :=
  targets ← gets attestation_targets;
  for_each targets (ban_on_target ban_attester).

(** One target of [request_next_committee_attestation]. *)
Definition request_committee_on (acc : S * list (TargetId * Z)) (target : TargetId)
    : S * list (TargetId * Z) :=
  let '(s, indices) := acc in
  match next_batches s !! target with
  | None => (s, indices)
  | Some next_batch =>
      match next_committee next_batch with
      | Some _ => (s, indices)
      | None =>
          let transition := get_current_committee_transition_for_target target s in
          let next_committee :=
            match transition with [] => None | _ => Some (map snd transition) end in
          let s := set_next_batches
            (<[target := set_next_committee next_committee next_batch]> (next_batches s)) s in
          let s := set_committee_on_target
            (<[target := transition]> (next_committee_on_target s)) s in
          (s, indices ++ [(target, batch_index next_batch)])
      end
  end.

Definition request_next_committee_attestation s : S * list (TargetId * Z) :=
  fold_left request_committee_on (attestation_targets s) (s, []).

(** ** Committees *)

(** The index drawn for position [i]: the bytes of the randomness folded
    modulo [i + 1].  The subject is a [usize] of the 32-bit target. *)
Definition random_index (e : E) (i : nat) : nat :=
  fold_left (λ acc val, ((acc + Z.to_nat val) mod (i + 1))%nat)
    (att_random e (be_bytes 4 (Z.of_nat i))) 0%nat.

(** [for i in (1..len).rev()]. *)
Fixpoint shuffle_loop (e : E) (i : nat) (l : list AccountId) : list AccountId :=
  match i with
  | O => l
  | Datatypes.S i' => shuffle_loop e i' (list_swap i (random_index e i) l)
  end.

Definition shuffle_active_set (e : E) (l : list AccountId) : list AccountId :=
  shuffle_loop e (pred (length l)) l.

Definition shuffle_committee s : S * bool :=
  let active := active_set s in
  let full_shuffle := negb (Z.of_nat (length active) <? CommitteeSize) in
  let committee_size := if full_shuffle then Z.to_nat CommitteeSize else length active in
  let shuffled := shuffle_active_set (att_ext s) active in
  let with_invulnerable :=
    match invulnerable_attester s, shuffled with
    | Some a, _ :: rest => a :: rest
    | _, _ => shuffled
    end in
  let new_committee := take committee_size with_invulnerable in
  let next_committee :=
    match NextCommittee s with
    | [] => take committee_size (shuffle_active_set (att_ext s) active)
    | l => l
    end in
  let previous := CurrentCommittee s in
  (set_NextCommittee new_committee
     (set_PreviousCommittee previous (set_CurrentCommittee next_committee s)), full_shuffle).

(** ** Batches *)

Definition quorum : nat := Z.to_nat (wrap32 (CommitteeSize * 2) / 3).

Definition missed_window (x : LatencyStatus) : LatencyStatus :=
  match x with
  | OnTime => Late 1 0
  | Late n r => Late (saturating_add u32_max n 1) r
  end.

(** A batch at the end of a batching window, and the event it causes. *)
Definition close_window (n : BlockNumber) (b : BatchMessage) : BatchMessage * bool :=
  if bool_decide (batch_status b = PendingAttestation) && Nat.leb quorum (length (signatures b))
  then (set_batch_status ReadyForSubmissionByMajority b, true)
  else if negb (n mod RepatriationPeriod =? 0) || has_no_sfx b
  then (set_latency (missed_window (latency b)) b, false)
  else (b, false).

Definition close_windows (n : BlockNumber) (target : TargetId) s : S :=
  match batches s !! target with
  | None => s
  | Some l =>
      let closed := map (close_window n) l in
      let s := fold_left (λ s bc,
                 if bc.2 : bool
                 then emit (NewConfirmationBatch target bc.1 (message bc.1) (message_hash bc.1)) s
                 else s) closed s in
      set_batches (<[target := map fst closed]> (batches s)) s
  end.

Definition emit_pending (target : TargetId) s : S :=
  match get_batches target PendingAttestation s with
  | [] => s
  | l => emit (CurrentPendingAttestationBatches target
                 (map (λ b, (batch_index b, message_hash b)) l)) s
  end.

(** The next batch is put up for attestation unless it is empty. *)
Definition open_window (n : BlockNumber) (target : TargetId) s : S :=
  let new_next_batch := set_created n default_batch in
  match next_batches s !! target with
  | Some next_batch =>
      if is_empty next_batch then s
      else
        let h := message_hash next_batch in
        let next_batch := set_batch_status PendingAttestation next_batch in
        let s := set_batches
          (<[target := default [] (batches s !! target) ++ [next_batch]]> (batches s)) s in
        let index := saturating_add u32_max (batch_index next_batch) 1 in
        let s := set_next_batches
          (<[target := set_batch_index index new_next_batch]> (next_batches s)) s in
        let s := emit (NewAttestationBatch target next_batch) s in
        let execution_vendor :=
          match att_verification_vendor (att_ext s) target with
          | ROk Ethereum => EVMVendor
          | ROk _ => SubstrateVendor
          | RErr _ => EVMVendor
          end in
        emit (NewAttestationMessageHash target h execution_vendor) s
  | None =>
      let s := set_next_batches (<[target := new_next_batch]> (next_batches s)) s in
      (request_next_committee_attestation s).1
  end.

Definition process_target_window (n : BlockNumber) s (target : TargetId) : S :=
  open_window n target (emit_pending target (close_windows n target s)).

Definition process_next_batch_window (n : BlockNumber) s : S :=
  fold_left (process_target_window n) (attestation_targets s) s.

(** *** Repatriation *)

Definition sfx_to_repatriate (b : BatchMessage) : list (CircuitStatus * Hash) :=
  map (λ x, (Committed, x / 2 ^ 256)) (default [] (committed_sfx b)) ++
  map (λ x, (Reverted Timeout, x)) (default [] (reverted_sfx b)).

Definition repatriate_sfx (acc : E * bool) (p : CircuitStatus * Hash) : E * bool :=
  let '(e, repatriated) := acc in
  let '(status, sfx_id) := p in
  let requester := match att_fsx_requester e sfx_id with ROk r => Some r | RErr _ => None end in
  match att_fsx e sfx_id with
  | ROk fsx =>
      let '(e, done) := repatriate sfx_id fsx status requester e in
      (e, done || repatriated)
  | RErr _ => (e, repatriated)
  end.

Definition late_batch (repatriated : bool) (x : LatencyStatus) : LatencyStatus :=
  match x with
  | OnTime => if repatriated then Late 1 1 else Late 1 0
  | Late n r =>
      if repatriated then Late (saturating_add u32_max n 1) (saturating_add u32_max r 1)
      else Late (saturating_add u32_max n 1) r
  end.

(** The flag [repatriated] is shared by the batches of a target. *)
Fixpoint repatriate_batches (n : BlockNumber) (l : list BatchMessage) (acc : E * bool)
    : list BatchMessage * E :=
  match l with
  | [] => ([], acc.1)
  | b :: rest =>
      if bool_decide (batch_status b = PendingAttestation)
         && (wrap32 (created b + RepatriationPeriod) <=? n)
      then
        let acc := fold_left repatriate_sfx (sfx_to_repatriate b) acc in
        let '(rest, e) := repatriate_batches n rest acc in
        (set_latency (late_batch acc.2 (latency b)) b :: rest, e)
      else
        let '(rest, e) := repatriate_batches n rest acc in
        (b :: rest, e)
  end.

Definition repatriate_target (n : BlockNumber) s (target : TargetId) : S :=
  match batches s !! target with
  | None => s
  | Some l =>
      let '(l, e) := repatriate_batches n l (att_ext s, false) in
      set_batches (<[target := l]> (batches s)) (set_att_ext e s)
  end.

Definition process_repatriations (n : BlockNumber) s : S :=
  fold_left (repatriate_target n) (attestation_targets s) s.

(** ** The hook *)

(** [%] traps on zero. *)
Definition rem_is_zero (n d : Z) : D bool :=
  if d =? 0 then panic else mret (n mod d =? 0).

(** The block in which a shuffling round ends. *)
Definition shuffle_block (n : BlockNumber) s : S * Z :=
  let '(s, w) := process_pending_unnominations n 0 s in
  let s := set_active_set
    (map fst (take 32 (List.filter (λ ab, negb (is_permanently_slashed s ab.1))
                         (sorted_nominated_attesters s)))) s in
  let w := wrap64 (w + att_reads_writes 1 1) in
  let s := (shuffle_committee s).1 in
  let w := wrap64 (w + att_reads_writes 2 2) in
  let s := emit (ShufflingCompleted (CurrentCommittee s) (PreviousCommittee s)
                   (NextCommittee s)) s in
  let '(s, indices) := request_next_committee_attestation s in
  let s := fold_left (λ s ti,
             set_CommitteeTransitionOn (<[ti.1 := ti.2]> (CommitteeTransitionOn s)) s) indices s in
  (s, wrap64 (w + att_reads_writes 2 3)).

Definition on_initialize (n : BlockNumber) : D Z :=
  shuffling ← rem_is_zero n ShufflingFrequency;
  attested ← gets is_last_transition_attested;
  if shuffling && attested then run_total (shuffle_block n)
  else
    window ← rem_is_zero n BatchingWindow;
    (if (window : bool) then
       modify (process_next_batch_window n) ;;
       modify (λ s,
         let current_block := att_block s in
         set_att_ext
           (on_new_epoch AttestersVendor (n mod BatchingWindow)
              (mkHeartbeat current_block current_block current_block current_block false true)
              (att_ext s)) s)
     else mret tt) ;;
    period ← rem_is_zero n RepatriationPeriod;
    (if (period : bool) then modify (process_repatriations n) else mret tt) ;;
    mret 0.

(** ** Targets *)

Definition try_activate_new_target (target : TargetId) s : S * bool :=
  let agreed := List.filter (λ a, is_some (attesters_agreements s !! (a, target))) (active_set s) in
  if Nat.eqb (length agreed) (length (active_set s)) then
    let s := set_pending_targets (remove_first target (pending_attestation_targets s)) s in
    (set_attestation_targets (push_if_absent target (attestation_targets s)) s, true)
  else (s, false).

(** The genesis block: a fresh batch per target. *)
Definition genesis_build (targets : list TargetId) s : S :=
  let s := set_attestation_targets (attestation_targets s ++ targets) s in
  fold_left (λ s target,
    set_next_batches (<[target := set_created (att_block s) default_batch]> (next_batches s)) s)
    (attestation_targets s) s.
End Attesters.
