(* ===== verification/AttesterCalls.v ===== *)
(** * The dispatchables of the attesters pallet

    [pallets/attesters/src/lib.rs], [#[pallet::call]] with the helpers
    [find_and_set_batch_as_committed] and [reward_submitter].  A dispatchable
    that fails leaves no trace: [transactional]. *)

From S2P Require Import Prelude Types AccountManager World Batches Attesters.

Section Calls.
Context {E : Type} `{Hashing} `{AttesterCrypto} `{AttestersConfig E}.
Abbreviation D := (M (AttState E) DispatchError).
Implicit Types s : AttState E.

(** ** Registration *)

Definition register_attester (origin : RawOrigin) (self_nominate_amount : Balance)
    (ecdsa_key ed25519_key sr25519_key : list Z) (custom_commission : option Z) : D unit :=
  transactional
    (account_id ← ensure_signed origin;
     do_register_attester account_id self_nominate_amount ecdsa_key ed25519_key sr25519_key
       custom_commission).

Definition register_invulnerable_attester (origin : RawOrigin) (self_nominate_amount : Balance)
    (ecdsa_key ed25519_key sr25519_key : list Z) (custom_commission : option Z) : D unit :=
  transactional
    (ensure_root origin ;;
     let account_id := attesters_treasury TreasuryEscrow in
     do_register_attester account_id self_nominate_amount ecdsa_key ed25519_key sr25519_key
       custom_commission ;;
     modify (set_invulnerable (Some account_id))).

Definition push_unnomination (nominator : AccountId) (p : AccountId * Balance * BlockNumber) s
    : AttState E :=
  set_pending_unnominations
    (<[nominator := default [] (pending_unnominations s !! nominator) ++ [p]]>
       (pending_unnominations s)) s.

Definition deregister_attester (origin : RawOrigin) : D unit :=
  transactional
    (attester ← ensure_signed origin;
     s ← gets id;
     ensure (is_some (attesters s !! attester)) (att_error NotRegistered) ;;
     let self_nomination := default 0 (nominations s !! (attester, attester)) in
     let overflow := att_error AttestersArithmeticOverflow in
     twice ← ok_or (if ShufflingFrequency * 2 <=? u32_max then Some (ShufflingFrequency * 2)
                    else None) overflow;
     unlock_block ← ok_or (checked_add u32_max (att_block s) twice) overflow;
     modify (push_unnomination attester (attester, self_nomination, unlock_block)) ;;
     modify (emit (AttesterDeregistrationScheduled attester unlock_block))).

(** ** Targets *)

Definition remove_attestation_target (origin : RawOrigin) (target : TargetId) : D unit :=
  transactional
    (ensure_root origin ;;
     modify (λ s, set_attestation_targets (remove_first target (attestation_targets s)) s) ;;
     modify (λ s, set_pending_targets (remove_first target (pending_attestation_targets s)) s) ;;
     modify (λ s, set_batches (delete target (batches s)) s) ;;
     modify (λ s, set_batches_to_sign (delete target (batches_to_sign s)) s) ;;
     modify (λ s, set_next_batches (delete target (next_batches s)) s) ;;
     modify (λ s, emit (AttestationTargetRemoved target (attestation_targets s)) s)).

Definition agree_to_new_attestation_target (origin : RawOrigin) (target : TargetId)
    (recoverable : list Z) : D unit :=
  transactional
    (attester ← ensure_signed origin;
     s ← gets id;
     ensure (is_some (attesters s !! attester)) (att_error NotRegistered) ;;
     modify (set_agreements (<[(attester, target) := recoverable]> (attesters_agreements s))) ;;
     modify (emit (AttesterAgreedToNewTarget attester target recoverable)) ;;
     activated ← run_total (try_activate_new_target target);
     if (activated : bool) then modify (emit (NewTargetActivated target)) else mret tt).

Definition has_escrow_account (target : TargetId) s : bool :=
  match att_escrow_account (att_ext s) target with ROk _ => true | RErr _ => false end.

Definition force_activate_target (origin : RawOrigin) (target : TargetId) : D unit :=
  transactional
    (ensure_root origin ;;
     escrow ← gets (has_escrow_account target);
     ensure escrow (att_error GatewayDoesNotHaveEscrowAddressRegistered) ;;
     modify (λ s, set_pending_targets (remove_first target (pending_attestation_targets s)) s) ;;
     modify (λ s, set_attestation_targets (push_if_absent target (attestation_targets s)) s) ;;
     modify (emit (NewTargetActivated target))).

Definition add_attestation_target (origin : RawOrigin) (target : TargetId) : D unit :=
  transactional
    (ensure_root origin ;;
     escrow ← gets (has_escrow_account target);
     ensure escrow (att_error GatewayDoesNotHaveEscrowAddressRegistered) ;;
     active ← gets attestation_targets;
     ensure (negb (bool_decide (target ∈ active))) (att_error TargetAlreadyActive) ;;
     modify (λ s, set_pending_targets
                    (push_if_absent target (pending_attestation_targets s)) s) ;;
     modify (emit (NewTargetProposed target))).

(** ** Signing *)

(** A signature is added to a batch; the flag says that the batch is complete. *)
Definition sign_batch (index : Z) (signature : list Z) (b : BatchMessage)
    : result DispatchError (BatchMessage * bool) :=
  if negb (bool_decide (batch_status b = PendingAttestation)
           || bool_decide (batch_status b = ReadyForSubmissionByMajority))
  then RErr (att_error BatchFoundWithUnsignableStatus)
  else if existsb (λ sg, sg.1 =? index) (signatures b)
  then RErr (att_error AttestationDoubleSignAttempt)
  else
    let b := set_signatures (signatures b ++ [(index, signature)]) b in
    if Nat.leb (Z.to_nat CommitteeSize) (length (signatures b))
    then ROk (set_batch_status ReadyForSubmissionFullyApproved b, true)
    else ROk (b, false).

(** The guards of [submit_attestation]: the signer and whether the signature is
    one of its key on the message. *)
Definition check_attestation (origin : RawOrigin) (msg : Hash) (signature : list Z)
    (target : TargetId) : D (AccountId * AttesterInfo * bool) :=
  account_id ← ensure_signed origin;
  s ← gets id;
  ensure (bool_decide (target ∈ attestation_targets s)) (att_error TargetNotActive) ;;
  attester ← ok_or (attesters s !! account_id) (att_error NotRegistered);
  ensure (bool_decide (account_id ∈ active_set s)) (att_error NotActiveSet) ;;
  ensure (bool_decide (account_id ∈ CurrentCommittee s)) (att_error NotInCurrentCommittee) ;;
  attested_recoverable ← ok_or (attesters_agreements s !! (account_id, target))
                           (att_error AttesterDidNotAgreeToNewTarget);
  vendor ← map_err (λ _, att_error XdnsTargetNotActive)
             (lift_result (att_verification_vendor (att_ext s) target));
  is_verified ← map_err (λ _, att_error InvalidSignature)
                  (lift_result (verify_attestation_signature attester
                     ECDSA_ATTESTER_KEY_TYPE_ID (be_bytes 32 msg) signature
                     attested_recoverable vendor));
  ensure (Nat.eqb (length signature) 65) (att_error InvalidSignature) ;;
  mret (account_id, attester, is_verified).

(** The signature is added to the batch with the given hash. *)
Definition add_signature (account_id : AccountId) (index : Z) (msg : Hash) (signature : list Z)
    (target : TargetId) : D unit :=
  s ← gets id;
  l ← ok_or (batches s !! target) (att_error BatchNotFound);
  ib ← ok_or (list_find (λ b, message_hash b = msg) l) (att_error BatchNotFound);
  r ← lift_result (sign_batch index signature ib.2);
  modify (set_batches (<[target := <[ib.1 := r.1]> l]> (batches s))) ;;
  (if (r.2 : bool)
   then modify (emit (NewConfirmationBatch target r.1 (message r.1) (message_hash r.1)))
   else mret tt) ;;
  modify (emit (AttestationSubmitted account_id)).

Definition submit_attestation (origin : RawOrigin) (msg : Hash) (signature : list Z)
    (target : TargetId) : D unit :=
  transactional
    (r ← check_attestation origin msg signature target;
     let '(account_id, attester, is_verified) := r in
     if negb is_verified then
       modify (λ s, set_permanent_slashes (permanent_slashes s ++ [account_id]) s) ;;
       throw (att_error RejectingFromSlashedAttester)
     else add_signature account_id (attester_index attester) msg signature target).

(** ** Committing *)

Definition find_and_set_batch_as_committed (target : TargetId) (h : Hash) : D unit :=
  s ← gets id;
  l ← ok_or (batches s !! target) (att_error BatchNotFound);
  ib ← ok_or (list_find (λ b, message_hash b = h) l) (att_error BatchNotFound);
  modify (set_batches
    (<[target := <[ib.1 := set_batch_status BatchStatusCommitted ib.2]> l]> (batches s))).

Definition reward_submitter (submitter : AccountId) (submitter_on_target : list Z)
    (target : TargetId) (to_pay : Balance) : D unit :=
  s ← gets id;
  recoverable ← ok_or (attesters_agreements s !! (submitter, target))
                  (att_error AttesterDidNotAgreeToNewTarget);
  if bool_decide (recoverable = submitter_on_target) then
    e ← lift_result (att_transfer (attesters_treasury TreasuryFee) submitter to_pay (att_ext s));
    modify (set_att_ext e)
  else throw (att_error AttesterDidNotAgreeToNewTarget).

(** The SCALE encoding of a vector of accounts. *)
Definition encode_committee (l : list AccountId) : list Z :=
  compact_len (Z.of_nat (length l)) ++ concat (map (be_bytes 32) l).

(** [ExecutionSource::decode]: the first 32 bytes. *)
Definition decode_source (bytes : list Z) : option (list Z) :=
  if Nat.ltb (length bytes) 32 then None else Some (take 32 bytes).

(** What the proof from the target shows: the checks before any batch is read. *)
Definition read_target_event (target : TargetId) (proof : list Z) : D TargetBatchDispatchEvent :=
  s ← gets id;
  target_codec ← lift_result (att_target_codec (att_ext s) target);
  target_escrow_address ← lift_result (att_escrow_account (att_ext s) target);
  escrow_address ← ok_or (decode_source target_escrow_address)
                     (att_error GatewayDoesNotHaveEscrowAddressRegistered);
  receipt ← lift_result (att_verify_inclusion (att_ext s) target escrow_address proof);
  recoded ← lift_result (recode_batch_event (receipt_message receipt) target_codec);
  ok_or (decode_dispatch_event recoded) (att_error InvalidTargetInclusionProof).

Definition pay_submitter (submitter : AccountId) (event : TargetBatchDispatchEvent)
    (target : TargetId) (to_pay : Balance) : D unit :=
  if 0 <? to_pay then
    reward_submitter submitter (executor_on_target event) target to_pay ;;
    modify (λ s, set_paid_fees
      (<[target := default [] (paid_finality_fees s !! target) ++ [to_pay]]>
         (paid_finality_fees s)) s)
  else mret tt.

Definition commit_batch (origin : RawOrigin) (target : TargetId) (proof : list Z) : D unit :=
  transactional
    (submitter ← ensure_signed origin;
     event ← read_target_event target proof;
     s ← gets id;
     let committee_to_penalize :=
       if attesting_committee event =? system_hash (encode_committee (PreviousCommittee s))
       then PreviousCommittee s else CurrentCommittee s in
     match List.find (λ b, message_hash b =? event_hash event) (get_batches_to_commit target s) with
     | None =>
         modify (apply_permanent_attesters_slash committee_to_penalize) ;;
         modify (emit (CollusionWithPermanentSlashDetected target (event_hash event)))
     | Some batch =>
         ensure (is_committable batch) (att_error BatchNotFound) ;;
         find_and_set_batch_as_committed target (event_hash event) ;;
         let delay := saturating_sub (saturating_sub (att_block s) (available_to_commit_at batch))
                        TWO_EPOCHS_IN_LOCAL_BLOCKS in
         to_pay ← gets (estimate_finality_reward target delay);
         modify (emit (BatchCommitted target batch (message batch) (message_hash batch) to_pay)) ;;
         pay_submitter submitter event target to_pay
     end).

(** ** Queries that deposit events *)

Definition read_pending_batches (origin : RawOrigin) : D unit :=
  transactional
    (_ ← ensure_signed origin;
     targets ← gets attestation_targets;
     for_each targets (λ target,
       modify (λ s, emit (CurrentPendingAttestationBatches target
         (map (λ b, (batch_index b, message_hash b)) (get_all_batches_to_sign target s))) s))).

Definition read_latest_batching_factor_overview (origin : RawOrigin) : D unit :=
  transactional
    (_ ← ensure_signed origin;
     modify (λ s, emit (BatchingFactorRead
       (map (λ target, (target, read_latest_batching_factor target s))
            (attestation_targets s))) s)).

Definition estimate_user_finality_fee (origin : RawOrigin) (target : TargetId) : D unit :=
  transactional
    (_ ← ensure_signed origin;
     targets ← gets attestation_targets;
     ensure (bool_decide (target ∈ targets)) (att_error TargetNotActive) ;;
     modify (λ s, emit (UserFinalityFeeEstimated target (estimate_finality_fee target s)) s)).

(** ** Nominations *)

Definition nominate (origin : RawOrigin) (attester : AccountId) (amount : Balance) : D unit :=
  transactional
    (nominator ← ensure_signed origin;
     ensure (MinNominatorBond <=? amount) (att_error NominatorBondTooSmall) ;;
     do_nominate nominator attester amount ;;
     modify (emit (Nominated nominator attester amount))).

Definition unnominate (origin : RawOrigin) (attester : AccountId) : D unit :=
  transactional
    (nominator ← ensure_signed origin;
     s ← gets id;
     nomination ← ok_or (List.find (λ nb, nb.1 =? nominator) (read_nominations attester s))
                    (att_error NoNominationFound);
     ensure (nomination.1 =? nominator) (att_error NoNominationFound) ;;
     let unlock_block := wrap32 (att_block s + wrap32 (ShufflingFrequency * 2)) in
     modify (push_unnomination nominator (attester, nomination.2, unlock_block))).
End Calls.
