(* ===== verification/AttesterReach.v ===== *)
(** * The attesters pallet as a transition system

    Every operation of the pallet [advances] its state: the invariant [att_inv]
    is kept and the batches only move forward.  [att_reach]: the states of all
    histories of calls, requests, blocks and changes of the other pallets. *)

From S2P Require Import Prelude Types AccountManager World Batches Attesters AttesterCalls.

(** ** The attesters pallet keeps its storage consistent

    [att_inv]: the list of nominated attesters is sorted, without duplicates and
    not longer than 32; the batches of a target are numbered by their position;
    a batch is signed by distinct attesters and its status agrees with the
    number of its signatures.  [batches_le]: a batch is never rewritten, only
    signed and moved forward. *)

(** ** Nominated attesters *)

Record nom_ok (l : list (AccountId * Balance)) : Prop := {
  nom_sorted : StronglySorted amount_ge l;
  nom_short : (length l ≤ 32)%nat;
  nom_distinct : NoDup (map fst l);
}.

#[export] Instance amount_ge_total : Total amount_ge.
Proof. intros x y. unfold amount_ge. lia. Qed.
#[export] Instance amount_ge_trans : Transitive amount_ge.
Proof. intros x y z. unfold amount_ge. lia. Qed.

(** Sorting and truncating establishes the invariant. *)
Lemma nom_ok_truncate l : NoDup (map fst l) → nom_ok (take 32 (sort_by_amount l)).
Proof.
  intros Hl. split.
  - eapply StronglySorted_app_1_l. rewrite take_drop.
    apply StronglySorted_merge_sort; apply _.
  - rewrite length_take. lia.
  - rewrite map_take. apply NoDup_take. unfold sort_by_amount.
    by rewrite merge_sort_Permutation.
Qed.

Lemma map_fst_insert_same (l : list (AccountId * Balance)) i a x n :
  l !! i = Some (a, x) → map fst (<[i := (a, n)]> l) = map fst l.
Proof.
  intros Hi. change (map fst (<[i := (a, n)]> l)) with (fst <$> <[i := (a, n)]> l).
  rewrite list_fmap_insert. apply list_insert_id. by rewrite list_lookup_fmap, Hi.
Qed.

Lemma put_amount_distinct a n l : NoDup (map fst l) → NoDup (map fst (put_amount a n l)).
Proof.
  intros Hl. unfold put_amount. destruct (list_find _ l) as [[i [b x]]|] eqn:Hf.
  - apply list_find_Some in Hf as (Hi & Hb & _). simpl in Hb. subst b.
    by erewrite map_fst_insert_same.
  - apply list_find_None in Hf. rewrite map_app. apply NoDup_app. split; [done|].
    split; [|apply NoDup_singleton]. intros y Hy Hy'. apply list_elem_of_singleton in Hy'.
    simpl in Hy'. subst y. apply list_elem_of_fmap in Hy as (z & -> & Hz).
    rewrite Forall_forall in Hf. by apply (Hf z).
Qed.

Lemma NoDup_delete {A} i (l : list A) : NoDup l → NoDup (delete i l).
Proof. intros Hl. eapply sublist_NoDup; [done|]. apply sublist_delete. Qed.

Lemma map_delete {A B} (g : A → B) i (l : list A) : map g (delete i l) = delete i (map g l).
Proof.
  revert i. induction l as [|x l IH]; intros [|i]; [done..|].
  change (g x :: map g (delete i l) = g x :: delete i (map g l)). by rewrite IH.
Qed.

Lemma nom_ok_delete i l : nom_ok l → nom_ok (delete i l).
Proof.
  intros [Hs Hn Hd]. split.
  - eapply StronglySorted_sublist; [|done]. apply sublist_delete.
  - pose proof (sublist_length _ _ (sublist_delete l i)). lia.
  - rewrite map_delete. by apply NoDup_delete.
Qed.

(** ** Batches *)

(** The index of the [i]-th batch: [u32] saturates. *)
Definition idx (i : nat) : Z := Z.min u32_max (Z.of_nat i).

Lemma idx_succ i : saturating_add u32_max (idx i) 1 = idx (S i).
Proof. unfold idx, saturating_add, u32_max. lia. Qed.

(** A batch still collecting messages. *)
Record next_ok (b : BatchMessage) : Prop := {
  next_pending : batch_status b = PendingMessage;
  next_unsigned : signatures b = [];
  next_available : available_to_commit_at b = 0;
  next_committed : NoDup (default [] (committed_sfx b));
  next_reverted : NoDup (default [] (reverted_sfx b));
}.

Section Batches.
Context {E : Type} `{Hashing} `{AttesterCrypto} `{AttestersConfig E}.

(** How many signatures a status stands for. *)
Definition signed_as (st : BatchStatus) (n : nat) : Prop :=
  match st with
  | PendingAttestation => (n < Z.to_nat CommitteeSize)%nat
  | ReadyForSubmissionByMajority => (quorum ≤ n < Z.to_nat CommitteeSize)%nat
  | ReadyForSubmissionFullyApproved => n = Z.to_nat CommitteeSize
  | BatchStatusCommitted => (quorum ≤ n ≤ Z.to_nat CommitteeSize)%nat
  | _ => False
  end.

Record batch_ok (b : BatchMessage) : Prop := {
  batch_nonempty : is_empty b = false;
  batch_signers : NoDup (map fst (signatures b));
  batch_signed : signed_as (batch_status b) (length (signatures b));
  batch_committed : NoDup (default [] (committed_sfx b));
  batch_reverted : NoDup (default [] (reverted_sfx b));
  batch_available : available_to_commit_at b = 0;
}.

(** The batches of a target and the one that comes next. *)
Definition target_ok (ob : option (list BatchMessage)) (on : option BatchMessage) : Prop :=
  match on with
  | None => ob = None
  | Some nb =>
      next_ok nb ∧ batch_index nb = idx (length (default [] ob)) ∧
      ∀ i b, default [] ob !! i = Some b → batch_index b = idx i ∧ batch_ok b
  end.

Definition batches_ok (bs : gmap (list Z) (list BatchMessage))
    (ns : gmap (list Z) BatchMessage) : Prop := ∀ t, target_ok (bs !! t) (ns !! t).

Record att_inv (s : AttState E) : Prop := {
  inv_nominated : nom_ok (sorted_nominated_attesters s);
  inv_active : NoDup (active_set s) ∧ (length (active_set s) ≤ 32)%nat;
  inv_batches : batches_ok (batches s) (next_batches s);
}.

(** *** A batch is never rewritten *)

Inductive status_arrow : BatchStatus → BatchStatus → Prop :=
| pending_majority : status_arrow PendingAttestation ReadyForSubmissionByMajority
| pending_full : status_arrow PendingAttestation ReadyForSubmissionFullyApproved
| majority_full : status_arrow ReadyForSubmissionByMajority ReadyForSubmissionFullyApproved
| majority_committed : status_arrow ReadyForSubmissionByMajority BatchStatusCommitted
| full_committed : status_arrow ReadyForSubmissionFullyApproved BatchStatusCommitted.

Record batch_le (b b' : BatchMessage) : Prop := {
  le_committed : committed_sfx b' = committed_sfx b;
  le_reverted : reverted_sfx b' = reverted_sfx b;
  le_next : next_committee b' = next_committee b;
  le_banned : banned_committee b' = banned_committee b;
  le_index : batch_index b' = batch_index b;
  le_created : created b' = created b;
  le_signatures : signatures b `prefix_of` signatures b';
  le_status : rtc status_arrow (batch_status b) (batch_status b');
}.

Definition batches_le (bs bs' : gmap (list Z) (list BatchMessage)) : Prop :=
  ∀ t l, bs !! t = Some l →
    ∃ l', bs' !! t = Some l' ∧ ∀ i b, l !! i = Some b → ∃ b', l' !! i = Some b' ∧ batch_le b b'.

#[export] Instance batch_le_preorder : PreOrder batch_le.
Proof.
  split.
  - intros b. by split.
  - intros b1 b2 b3 [] []. split; try congruence; by etrans.
Qed.

#[export] Instance batches_le_preorder : PreOrder batches_le.
Proof.
  split.
  - intros bs t l Hl. exists l. split; [done|]. intros i b Hb. by exists b.
  - intros b1 b2 b3 H12 H23 t l Hl. destruct (H12 t l Hl) as (l2 & Hl2 & H2).
    destruct (H23 t l2 Hl2) as (l3 & Hl3 & H3). exists l3. split; [done|]. intros i b Hb.
    destruct (H2 i b Hb) as (b2' & Hb2 & Hle2). destruct (H3 i b2' Hb2) as (b3' & Hb3 & Hle3).
    exists b3'. split; [done|]. by etrans.
Qed.

(** The batches of one target are replaced. *)
Lemma batches_le_insert bs t (l l' : list BatchMessage) :
  default [] (bs !! t) = l →
  (∀ i b, l !! i = Some b → ∃ b', l' !! i = Some b' ∧ batch_le b b') →
  batches_le bs (<[t := l']> bs).
Proof.
  intros Hl Hle t' k Hk. destruct (decide (t' = t)) as [->|].
  - exists l'. rewrite lookup_insert_eq. split; [done|]. intros i b Hb. apply Hle.
    rewrite <- Hl, Hk. done.
  - exists k. rewrite lookup_insert_ne by done. split; [done|]. intros i b Hb. by exists b.
Qed.

Lemma batch_le_update (l : list BatchMessage) i b b' :
  l !! i = Some b → batch_le b b' →
  ∀ j c, l !! j = Some c → ∃ c', <[i := b']> l !! j = Some c' ∧ batch_le c c'.
Proof.
  intros Hi Hle j c Hj. destruct (decide (j = i)) as [->|].
  - exists b'. rewrite list_lookup_insert_eq by by eapply lookup_lt_Some.
    split; [done|]. congruence.
  - exists c. by rewrite list_lookup_insert_ne.
Qed.

(** *** Updates that keep [batches_ok] *)

Lemma batches_ok_next bs ns t nb :
  batches_ok bs ns → target_ok (bs !! t) (Some nb) → batches_ok bs (<[t := nb]> ns).
Proof.
  intros Hok Hnb t'. destruct (decide (t' = t)) as [->|].
  - by rewrite lookup_insert_eq.
  - rewrite lookup_insert_ne by done. apply Hok.
Qed.

Lemma batches_ok_put bs ns t l :
  batches_ok bs ns → target_ok (Some l) (ns !! t) → batches_ok (<[t := l]> bs) ns.
Proof.
  intros Hok Hl t'. destruct (decide (t' = t)) as [->|].
  - by rewrite lookup_insert_eq.
  - rewrite lookup_insert_ne by done. apply Hok.
Qed.

Lemma target_ok_replace l l' on :
  target_ok (Some l) on → length l' = length l →
  (∀ i b', l' !! i = Some b' →
     ∃ b, l !! i = Some b ∧ batch_index b' = batch_index b ∧ (batch_ok b → batch_ok b')) →
  target_ok (Some l') on.
Proof.
  destruct on as [nb|]; [|done]. intros (Hn & Hi & Hb) Hlen Hl. split; [done|].
  split; [simpl in *; by rewrite Hlen|]. intros i b' Hb'. destruct (Hl i b' Hb') as (b & Hbl & Hbi & Hok).
  destruct (Hb i b Hbl) as [Hidx Hbok]. split; [congruence|]. by apply Hok.
Qed.

(** The next batch may be changed in its messages only. *)
Lemma target_ok_next_messages ob nb nb' :
  target_ok ob (Some nb) → next_ok nb' → batch_index nb' = batch_index nb →
  target_ok ob (Some nb').
Proof. intros (Hn & Hi & Hb) Hn' Hi'. split; [done|]. split; [congruence|done]. Qed.

Lemma quorum_le : 0 ≤ CommitteeSize → (quorum ≤ Z.to_nat CommitteeSize)%nat.
Proof.
  intros HC. unfold quorum, wrap32. apply Z2Nat.inj_le; [|done|].
  - apply Z.div_pos; [|lia]. apply Z.mod_pos_bound. lia.
  - assert ((CommitteeSize * 2) mod 2 ^ 32 ≤ CommitteeSize * 2) by (apply Z.mod_le; lia).
    apply Z.div_le_upper_bound; lia.
Qed.
End Batches.

Section Advances.
Context {E : Type} `{Hashing} `{AttesterCrypto} `{AttestersConfig E}.
Implicit Types s : AttState E.

Record advances s s' : Prop := {
  adv_inv : att_inv s → att_inv s';
  adv_le : att_inv s → batches_le (batches s) (batches s');
}.

#[export] Instance advances_preorder : PreOrder advances.
Proof.
  split.
  - intros s. split; [done|]. by intros _.
  - intros s1 s2 s3 [Hi1 Hl1] [Hi2 Hl2]. split; [naive_solver|]. intros Hs.
    etrans; [by apply Hl1|]. by apply Hl2, Hi1.
Qed.

(** The part of the state the invariant is about. *)
Definition core s :=
  (sorted_nominated_attesters s, active_set s, batches s, next_batches s).

Lemma advances_core s s' : core s' = core s → advances s s'.
Proof.
  unfold core. intros Hc. simplify_eq. destruct s, s'; simpl in *; simplify_eq.
  split; [|done]. intros [Hn Ha Hb]. by split.
Qed.

Lemma advances_fold {T} (f : AttState E → T → AttState E) (l : list T) s :
  (∀ s x, advances s (f s x)) → advances s (fold_left f l s).
Proof.
  intros Hf. apply (fold_left_inv (advances s)); [done|]. intros s' x _ Hs'.
  etrans; [done|]. apply Hf.
Qed.

End Advances.

(** [peel_core]: drop outer updates that do not touch the core. *)
Ltac peel_core :=
  repeat match goal with
  | |- advances _ (?f ?s1) => transitivity s1; [|solve [by apply advances_core]]
  end.

Section Steps.
Context {E : Type} `{Hashing} `{AttesterCrypto} `{AttestersConfig E}.
Context (HC : 0 < CommitteeSize).
Implicit Types s : AttState E.

(** *** Nominations *)

Lemma advances_sorted s l :
  (nom_ok (sorted_nominated_attesters s) → nom_ok l) → advances s (set_sorted_nominated l s).
Proof. intros Hl. split; [|done]. intros [Hn Ha Hb]. split; [by apply Hl|done..]. Qed.

Lemma do_nominate_advances nominator attester amount s s' u :
  do_nominate nominator attester amount s = Ok u s' → advances s s'.
Proof.
  unfold do_nominate. intros Hd. monad_inv. inv_ok H7.
  peel_core. match goal with |- advances ?s (set_sorted_nominated ?l ?s1) => trans s1; [by apply advances_core|] end.
  apply advances_sorted. intros Hn. apply nom_ok_truncate, put_amount_distinct, Hn.
Qed.

Lemma update_sorted_advances attester amount s :
  advances s (update_sorted_nominated_attesters attester amount s).
Proof.
  unfold update_sorted_nominated_attesters.
  destruct (list_find _ _) as [[i [a n]]|] eqn:Hf; [|done].
  apply list_find_Some in Hf as (Hi & Ha & _). simpl in Ha. subst a.
  apply advances_sorted. intros Hn. apply nom_ok_truncate. destruct (_ =? 0).
  - rewrite map_delete. apply NoDup_delete, Hn.
  - erewrite map_fst_insert_same by done. apply Hn.
Qed.

Lemma release_nominations_advances attester s : advances s (release_nominations attester s).
Proof. apply advances_fold. intros. by apply advances_core. Qed.

Lemma deregister_advances attester s : advances s (deregister attester s).
Proof.
  unfold deregister. etrans; [apply (release_nominations_advances attester)|].
  generalize (release_nominations attester s). clear s. intros s.
  peel_core. trans (set_attesters (delete attester (attesters s)) s); [by apply advances_core|].
  apply advances_sorted. intros Hn. destruct (list_find _ _) as [[i x]|]; [|done].
  by apply nom_ok_delete.
Qed.

Lemma process_unnomination_advances nominator p s :
  advances s (process_unnomination nominator p s).1.
Proof.
  destruct p as [[attester amount] b]. unfold process_unnomination.
  destruct (_ && _); simpl; [apply deregister_advances|].
  etrans; [|apply update_sorted_advances]. by apply advances_core.
Qed.

Lemma process_nominator_advances n s w np : advances s (process_nominator n (s, w) np).1.
Proof.
  destruct np as [nominator pending]. unfold process_nominator.
  match goal with |- context [fold_left ?f ?l (s, w)] =>
    assert (advances s (fold_left f l (s, w)).1) as Hf end.
  { apply (fold_left_inv (λ sw : AttState E * Z, advances s sw.1)); [done|].
    intros [s1 w1] p _ Hs1. simpl. etrans; [exact Hs1|].
    pose proof (process_unnomination_advances nominator p s1) as Hp.
    by destruct (process_unnomination nominator p s1). }
  destruct (fold_left _ _ _) as [s1 w1]. destruct (List.filter (unlocked n) pending); simpl; [done|].
  etrans; [exact Hf|]. by apply advances_core.
Qed.

Lemma process_pending_advances n w s : advances s (process_pending_unnominations n w s).1.
Proof.
  unfold process_pending_unnominations.
  apply (fold_left_inv (λ sw : AttState E * Z, advances s sw.1)); [done|].
  intros [s1 w1] np _ Hs1. etrans; [exact Hs1|]. apply process_nominator_advances.
Qed.

(** *** Requests *)

(** A change of the messages of the next batch of a target. *)
Lemma advances_next s t nb nb' :
  next_batches s !! t = Some nb → batch_index nb' = batch_index nb →
  (next_ok nb → next_ok nb') →
  advances s (set_next_batches (<[t := nb']> (next_batches s)) s).
Proof.
  intros Hnb Hi Hok. split; [|done]. intros [Hn Ha Hb]. split; [done..|].
  specialize (Hb t) as Ht. rewrite Hnb in Ht. apply batches_ok_next; [done|].
  eapply target_ok_next_messages; [done| |done]. apply Hok, Ht.
Qed.

Lemma NoDup_snoc {T} (x : T) l : NoDup l → x ∉ l → NoDup (l ++ [x]).
Proof.
  intros Hl Hx. apply NoDup_app. split; [done|]. split; [|apply NoDup_singleton].
  intros y Hy Hy'. apply list_elem_of_singleton in Hy'. by subst.
Qed.

Lemma request_commit_advances t sfx_id gmp s s' u :
  request_sfx_attestation_commit t sfx_id gmp s = Ok u s' → advances s s'.
Proof.
  unfold request_sfx_attestation_commit. intros Hr. monad_inv.
  destruct (next_batches _ !! t) as [nb|] eqn:Hnb; [|done].
  destruct (committed_sfx nb) as [l|] eqn:Hl.
  - case_bool_decide as Hin; [done|]. monad_inv. eapply advances_next; [done..|].
    intros []. split; simpl; try done. rewrite Hl in *. by apply NoDup_snoc.
  - monad_inv. eapply advances_next; [done..|]. intros []. split; simpl; try done.
    apply NoDup_singleton.
Qed.

Lemma request_revert_advances t sfx_id s s' u :
  request_sfx_attestation_revert t sfx_id s = Ok u s' → advances s s'.
Proof.
  unfold request_sfx_attestation_revert. intros Hr. monad_inv.
  destruct (next_batches _ !! t) as [nb|] eqn:Hnb; [|done].
  destruct (reverted_sfx nb) as [l|] eqn:Hl.
  - case_bool_decide as Hin; [done|]. monad_inv. eapply advances_next; [done..|].
    intros []. split; simpl; try done. rewrite Hl in *. by apply NoDup_snoc.
  - monad_inv. eapply advances_next; [done..|]. intros []. split; simpl; try done.
    apply NoDup_singleton.
Qed.

Lemma ban_on_target_advances who t s s' u : ban_on_target who t s = Ok u s' → advances s s'.
Proof.
  unfold ban_on_target. intros Hr. monad_inv. eapply advances_next; [done..|].
  intros []. by split.
Qed.

Lemma for_each_advances {T} (f : T → M (AttState E) DispatchError unit) l s s' u :
  (∀ x s s' u, f x s = Ok u s' → advances s s') → for_each l f s = Ok u s' → advances s s'.
Proof.
  intros Hf. revert s. induction l as [|x l IH]; intros s Hl; simpl in Hl; monad_inv; [done|].
  etrans; [by eapply Hf|]. by apply IH.
Qed.

Lemma request_ban_advances who s s' u :
  request_ban_attesters_attestation who s = Ok u s' → advances s s'.
Proof.
  unfold request_ban_attesters_attestation. intros Hr. monad_inv.
  eapply for_each_advances; [|done]. intros. by eapply ban_on_target_advances.
Qed.

Lemma request_committee_on_advances s l t : advances s (request_committee_on (s, l) t).1.
Proof.
  unfold request_committee_on. destruct (next_batches _ !! t) as [nb|] eqn:Hnb; [|done].
  destruct (next_committee nb); [done|]. simpl. peel_core.
  eapply advances_next; [done..|]. intros []. by split.
Qed.

Lemma request_next_committee_advances s : advances s (request_next_committee_attestation s).1.
Proof.
  unfold request_next_committee_attestation.
  apply (fold_left_inv (λ sl : AttState E * _, advances s sl.1)); [done|].
  intros [s1 l1] t _ Hs1. etrans; [exact Hs1|]. apply request_committee_on_advances.
Qed.

(** *** Windows *)

(** A batch that is signed, moved forward or marked late. *)
Record moves (b b' : BatchMessage) : Prop := {
  moves_index : batch_index b' = batch_index b;
  moves_ok : batch_ok b → batch_ok b';
  moves_le : batch_ok b → batch_le b b';
}.

Lemma moves_refl b : moves b b.
Proof. by split. Qed.

Lemma moves_latency x b : moves b (set_latency x b).
Proof. split; [done|intros []; by split|by split]. Qed.

(** The batches of a target are replaced one by one. *)
Lemma advances_batches s t l l' :
  batches s !! t = Some l → Forall2 moves l l' →
  advances s (set_batches (<[t := l']> (batches s)) s).
Proof.
  intros Hl Hm. split.
  - intros [Hn Ha Hb]. split; [done..|]. simpl. specialize (Hb t) as Ht. rewrite Hl in Ht.
    apply batches_ok_put; [done|]. eapply target_ok_replace; [done|by symmetry; eapply Forall2_length|].
    intros i b' Hb'. destruct (Forall2_lookup_r _ _ _ _ _ Hm Hb') as (b & Hbl & [Hbi Hbok _]).
    by exists b.
  - intros [_ _ Hb]. specialize (Hb t). rewrite Hl in Hb.
    destruct (next_batches s !! t) as [nb|]; [|done]. destruct Hb as (_ & _ & Hb).
    apply batches_le_insert with l; [by rewrite Hl|]. intros i b Hi.
    destruct (Forall2_lookup_l _ _ _ _ _ Hm Hi) as (b' & Hb' & [_ _ Hle]).
    exists b'. split; [done|]. by apply Hle, (Hb i).
Qed.

(** One batch of a target is replaced. *)
Lemma advances_one_batch s t l i b b' :
  batches s !! t = Some l → l !! i = Some b → moves b b' →
  advances s (set_batches (<[t := <[i := b']> l]> (batches s)) s).
Proof.
  intros Hl Hi Hm. eapply advances_batches; [done|]. apply Forall2_same_length_lookup.
  split; [by rewrite length_insert|]. intros j x y Hx Hy.
  destruct (decide (i = j)) as [<-|Hne].
  - rewrite list_lookup_insert_eq in Hy by by eapply lookup_lt_Some. by simplify_eq.
  - rewrite list_lookup_insert_ne in Hy by done. simplify_eq. apply moves_refl.
Qed.

Lemma close_window_moves n b : moves b (close_window n b).1.
Proof.
  unfold close_window. destruct (bool_decide _ && _) eqn:Hq; simpl.
  - apply andb_true_iff in Hq as [Hp Hq]. apply bool_decide_eq_true in Hp.
    apply Nat.leb_le in Hq. split; [done| |].
    + intros [Hne Hd Hs Hc Hr Hav]. rewrite Hp in Hs. split; simpl in *; try done.
    + intros _. split; try done. simpl. rewrite Hp. apply rtc_once. constructor.
  - destruct (_ || _); [apply moves_latency|apply moves_refl].
Qed.

Lemma close_windows_advances n t s : advances s (close_windows n t s).
Proof.
  unfold close_windows. destruct (batches s !! t) as [l|] eqn:Hl; [|done].
  match goal with |- context [fold_left ?f ?k s] =>
    set (s1 := fold_left f k s);
    assert (core s1 = core s) as Hc by
      (apply (fold_left_inv (λ s1, core s1 = core s)); [done|];
       intros s2 [b []] _ Hs2; exact Hs2) end.
  trans s1; [by apply advances_core|].
  assert (batches s1 = batches s) as Hb1 by (unfold core in Hc; congruence).
  apply advances_batches with l; [by rewrite Hb1|].
  rewrite map_map. clear. induction l; constructor; [apply close_window_moves|done].
Qed.

Lemma emit_pending_advances t s : advances s (emit_pending t s).
Proof. unfold emit_pending. case_match; [done|]. by apply advances_core. Qed.

Lemma opened_ok nb :
  next_ok nb → is_empty nb = false → batch_ok (set_batch_status PendingAttestation nb).
Proof.
  intros [Hp Hs Hav Hc Hr] Hne. split; simpl; try done.
  - rewrite Hs. constructor.
  - rewrite Hs. simpl. lia.
Qed.

Lemma fresh_next_ok n i : next_ok (set_batch_index i (set_created n default_batch)).
Proof. split; simpl; try done; constructor. Qed.

(** The next batch is appended to the batches and replaced by a fresh one. *)
Lemma open_target_ok ob nb n :
  target_ok ob (Some nb) → is_empty nb = false →
  target_ok (Some (default [] ob ++ [set_batch_status PendingAttestation nb]))
    (Some (set_batch_index (saturating_add u32_max (batch_index nb) 1)
             (set_created n default_batch))).
Proof.
  intros (Hn & Hi & Hb) Hne. split; [apply fresh_next_ok|]. split.
  - simpl. rewrite Hi, idx_succ, length_app. simpl. by rewrite Nat.add_1_r.
  - intros i b Hib. simpl in Hib. apply lookup_app_Some in Hib as [Hib|[Hge Hib]]; [by apply Hb|].
    apply list_lookup_singleton_Some in Hib as [Hz <-]. split; [|by apply opened_ok].
    simpl. rewrite Hi. f_equal. lia.
Qed.

Lemma open_window_advances n t s : advances s (open_window n t s).
Proof.
  unfold open_window. destruct (next_batches s !! t) as [nb|] eqn:Hnb.
  - destruct (is_empty nb) eqn:Hne; [done|]. peel_core. split.
    + intros [Hn Ha Hb]. split; [done..|]. intros t'. simpl. specialize (Hb t') as Ht.
      destruct (decide (t' = t)) as [->|]; [|by rewrite !lookup_insert_ne].
      rewrite !lookup_insert_eq. rewrite Hnb in Ht. by apply open_target_ok.
    + intros _. eapply batches_le_insert; [done|]. intros i b Hb. exists b. split; [|done].
      by apply lookup_app_l_Some.
  - etrans; [|apply request_next_committee_advances]. split; [|done].
    intros [Hn Ha Hb]. split; [done..|]. apply batches_ok_next; [done|].
    specialize (Hb t). rewrite Hnb in Hb. rewrite Hb. split; [apply (fresh_next_ok n 0)|]. done.
Qed.

Lemma process_window_advances n s : advances s (process_next_batch_window n s).
Proof.
  apply advances_fold. intros s' t. unfold process_target_window.
  etrans; [apply (close_windows_advances n t)|]. etrans; [apply (emit_pending_advances t)|].
  apply open_window_advances.
Qed.

(** *** Repatriation *)

Lemma repatriate_batches_moves n l acc : Forall2 moves l (repatriate_batches n l acc).1.
Proof.
  revert acc. induction l as [|b l IH]; intros acc; simpl; [constructor|].
  destruct (_ && _).
  - specialize (IH (fold_left repatriate_sfx (sfx_to_repatriate b) acc)).
    destruct (repatriate_batches _ _ _) as [k e]. constructor; [apply moves_latency|done].
  - specialize (IH acc). destruct (repatriate_batches _ _ _) as [k e].
    constructor; [apply moves_refl|done].
Qed.

Lemma process_repatriations_advances n s : advances s (process_repatriations n s).
Proof.
  apply advances_fold. clear s. intros s t. unfold repatriate_target.
  destruct (batches s !! t) as [l|] eqn:Hl; [|done].
  pose proof (repatriate_batches_moves n l (att_ext s, false)) as Hm.
  destruct (repatriate_batches _ _ _) as [k e]. trans (set_att_ext e s); [by apply advances_core|].
  by apply (advances_batches (set_att_ext e s) t l k).
Qed.

(** *** The hook *)

Lemma shuffle_block_advances n s : advances s (shuffle_block n s).1.
Proof.
  unfold shuffle_block. pose proof (process_pending_advances n 0 s) as Hp.
  destruct (process_pending_unnominations n 0 s) as [s1 w1]. simpl in Hp. etrans; [exact Hp|].
  clear Hp s. set (active := map fst _).
  trans (set_active_set active s1).
  { split; [|done]. intros [Hn Ha Hb]. split; [done| |done]. split; simpl.
    - subst active. rewrite map_take. apply NoDup_take, NoDup_map_filter, Hn.
    - subst active. rewrite length_map, length_take. lia. }
  set (s2 := set_active_set active s1).
  trans (emit (ShufflingCompleted (CurrentCommittee (shuffle_committee s2).1)
    (PreviousCommittee (shuffle_committee s2).1) (NextCommittee (shuffle_committee s2).1))
    (shuffle_committee s2).1); [by apply advances_core|].
  set (s3 := emit _ _). pose proof (request_next_committee_advances s3) as Hr.
  destruct (request_next_committee_attestation s3) as [s4 l]. simpl in *. etrans; [exact Hr|].
  apply advances_fold. intros. by apply advances_core.
Qed.

Lemma rem_is_zero_inv n d s b s' : rem_is_zero n d s = Ok b s' → s' = s.
Proof. unfold rem_is_zero. destruct (d =? 0); [done|]. intros Hr. by monad_inv. Qed.

Lemma on_initialize_advances n s w s' : on_initialize n s = Ok w s' → advances s s'.
Proof.
  unfold on_initialize. intros Ho.
  apply bind_Ok_inv in Ho as (b1 & s1 & Hb1 & Ho). apply rem_is_zero_inv in Hb1 as ->.
  apply bind_Ok_inv in Ho as (b2 & s2 & Hb2 & Ho). inv_ok Hb2.
  destruct (b1 && _).
  { unfold run_total in Ho. simplify_eq. apply shuffle_block_advances. }
  apply bind_Ok_inv in Ho as (b3 & s3 & Hb3 & Ho). apply rem_is_zero_inv in Hb3 as ->.
  apply bind_Ok_inv in Ho as ([] & s4 & H4 & Ho).
  apply bind_Ok_inv in Ho as (b5 & s5 & Hb5 & Ho). apply rem_is_zero_inv in Hb5 as ->.
  apply bind_Ok_inv in Ho as ([] & s6 & H6 & Ho). monad_inv.
  trans s4.
  - destruct b3; monad_inv; [|done]. peel_core. apply process_window_advances.
  - destruct b5; monad_inv; [|done]. apply process_repatriations_advances.
Qed.
End Steps.
