(* ===== verification/AttesterSystem.v ===== *)
(** * Histories of the attesters pallet

    The dispatchables and the requests as steps, the invariant over every
    history, and what it says: which batches can be committed, and that a batch
    that was put up for attestation is never rewritten. *)

From S2P Require Import Prelude Types AccountManager World Batches Attesters AttesterCalls.
From S2P Require Import AttesterReach.

Section Calls.
Context {E : Type} `{Hashing} `{AttesterCrypto} `{AttestersConfig E}.
Context (HC : 0 < CommitteeSize).
Implicit Types s : AttState E.

Lemma register_advances who amount k1 k2 k3 c s s' u :
  do_register_attester who amount k1 k2 k3 c s = Ok u s' → advances s s'.
Proof.
  unfold do_register_attester. intros Hd. monad_inv.
  match goal with H : do_nominate _ _ _ ?s1 = Ok _ ?s2 |- advances _ (emit _ ?s2) =>
    apply do_nominate_advances in H; trans s2; [|by apply advances_core];
    trans s1; [by apply advances_core|done] end.
Qed.

(** *** Signing *)

(** The status of a batch with the given number of signatures. *)
Definition status_signed (st : BatchStatus) (n : nat) : BatchStatus :=
  if Nat.leb (Z.to_nat CommitteeSize) n then ReadyForSubmissionFullyApproved else st.

Lemma sign_batch_spec i sig b r :
  sign_batch i sig b = ROk r →
  (batch_status b = PendingAttestation ∨ batch_status b = ReadyForSubmissionByMajority) ∧
  (i ∉ map fst (signatures b)) ∧
  r.1 = let sigs := signatures b ++ [(i, sig)] in
        set_batch_status (status_signed (batch_status b) (length sigs)) (set_signatures sigs b).
Proof.
  unfold sign_batch. destruct (_ || _) eqn:Hst; [|done]. simpl.
  rewrite orb_true_iff, !bool_decide_eq_true in Hst.
  destruct (existsb _ _) eqn:Hex; [done|]. intros Hr. split; [done|]. split.
  - intros Hin. apply list_elem_of_In in Hin. apply in_map_iff in Hin as (sg & Hsg & Hin).
    apply Bool.not_true_iff_false in Hex. apply Hex, existsb_exists. exists sg.
    split; [done|]. by apply Z.eqb_eq.
  - unfold status_signed. simpl in *. destruct (Nat.leb _ _); simplify_eq; by destruct b.
Qed.

Lemma sign_batch_moves i sig b r : sign_batch i sig b = ROk r → moves b r.1.
Proof.
  intros (Hst & Hnew & ->)%sign_batch_spec. unfold status_signed. split; [done| |].
  - intros [Hne Hd Hs Hc Hr Hav]. split; simpl in *; try done.
    + rewrite map_app. by apply NoDup_snoc.
    + rewrite length_app in *. simpl in *. destruct (Nat.leb _ _) eqn:Hn.
      * apply Nat.leb_le in Hn. destruct Hst as [Hst|Hst]; rewrite Hst in Hs; simpl in *; lia.
      * apply Nat.leb_gt in Hn. destruct Hst as [Hst|Hst]; rewrite Hst in *; simpl in *; lia.
  - intros _. split; simpl; try done; [by apply prefix_app_r|].
    destruct (Nat.leb _ _); [|done]. destruct Hst as [->| ->]; apply rtc_once; constructor.
Qed.

Lemma check_attestation_reads o msg sig t s r s' :
  check_attestation o msg sig t s = Ok r s' →
  s' = s ∧ o = Signed r.1.1 ∧ attesters s !! r.1.1 = Some r.1.2 ∧ r.1.1 ∈ active_set s ∧
  r.1.1 ∈ CurrentCommittee s ∧ t ∈ attestation_targets s ∧ length sig = 65%nat.
Proof.
  unfold check_attestation, lift_result. intros Hs.
  destruct o; unfold ensure_signed in Hs; monad_inv.
  repeat case_match; monad_inv; rewrite ?bool_decide_eq_true, ?Nat.eqb_eq in *; done.
Qed.

Lemma add_signature_spec who i msg sig t s s' u :
  add_signature who i msg sig t s = Ok u s' →
  ∃ l j b r, batches s !! t = Some l ∧ l !! j = Some b ∧ message_hash b = msg ∧
    sign_batch i sig b = ROk r ∧
    core s' = core (set_batches (<[t := <[j := r.1]> l]> (batches s)) s).
Proof.
  unfold add_signature. intros Hs. monad_inv.
  match goal with H : list_find _ _ = Some ?p |- _ =>
    destruct p as [j b]; apply list_find_Some in H as (Hj & Hh & _) end.
  unfold lift_result in *. destruct (sign_batch _ _ _) as [r|] eqn:Hb; [|done].
  monad_inv. eexists _, j, b, _. split; [done|]. split; [done|]. split; [done|].
  split; [done|]. case_match; by monad_inv.
Qed.

Lemma add_signature_advances who i msg sig t s s' u :
  add_signature who i msg sig t s = Ok u s' → advances s s'.
Proof.
  intros (l & j & b & r & Hl & Hj & _ & Hb & Hc)%add_signature_spec.
  apply sign_batch_moves in Hb. etrans; [|by apply advances_core].
  by eapply advances_one_batch.
Qed.

Lemma submit_attestation_advances o msg sig t s s' u :
  submit_attestation o msg sig t s = Ok u s' → advances s s'.
Proof.
  unfold submit_attestation. rewrite transactional_Ok. intros Hs.
  apply bind_Ok_inv in Hs as ([[who info] ok] & s1 & Hc & Hs).
  apply check_attestation_reads in Hc as (-> & _). destruct ok; simpl in Hs.
  - by eapply add_signature_advances.
  - by monad_inv.
Qed.

(** *** Committing *)

(** No two batches of a target have the same hash. *)
Definition unambiguous s : Prop := ∀ t l i j bi bj,
  batches s !! t = Some l → l !! i = Some bi → l !! j = Some bj →
  message_hash bi = message_hash bj → i = j.

Lemma is_committable_spec b :
  is_committable b = true ↔
  batch_status b = ReadyForSubmissionByMajority ∨ batch_status b = ReadyForSubmissionFullyApproved.
Proof. unfold is_committable. by rewrite orb_true_iff, !bool_decide_eq_true. Qed.

Lemma committed_moves b :
  is_committable b = true → moves b (set_batch_status BatchStatusCommitted b).
Proof.
  rewrite is_committable_spec. intros Hst. assert (0 ≤ CommitteeSize) as HC0 by lia. pose proof (quorum_le HC0).
  split; [done| |].
  - intros [Hne Hd Hs Hc Hr Hav]. split; simpl; try done.
    destruct Hst as [Hst|Hst]; rewrite Hst in Hs; simpl in Hs; lia.
  - intros _. split; try done. simpl. destruct Hst as [->| ->]; apply rtc_once; constructor.
Qed.

(** The batch that a commitment finds among those to commit is the one it marks. *)
Lemma find_to_commit s t h b :
  unambiguous s → List.find (λ b, message_hash b =? h) (get_batches_to_commit t s) = Some b →
  ∃ l i, batches s !! t = Some l ∧ list_find (λ b, message_hash b = h) l = Some (i, b) ∧
         is_committable b = true.
Proof.
  intros Hu Hf. apply find_some in Hf as [Hin Hh]. apply Z.eqb_eq in Hh.
  unfold get_batches_to_commit in Hin. destruct (batches s !! t) as [l|] eqn:Hl; [|done].
  apply filter_In in Hin as [Hin Hc]. apply list_elem_of_In, list_elem_of_lookup in Hin as [j Hj].
  destruct (list_find_elem_of (λ b, message_hash b = h) l b) as [[i b'] Hi];
    [by eapply list_elem_of_lookup_2|done|].
  exists l, i. split; [done|]. split; [|done]. rewrite Hi.
  apply list_find_Some in Hi as (Hi & Hh' & _).
  assert (i = j) as -> by (eapply Hu; [done..|congruence]). congruence.
Qed.

Lemma pay_submitter_core who ev t n s s' u :
  pay_submitter who ev t n s = Ok u s' → core s' = core s.
Proof.
  unfold pay_submitter. destruct (0 <? n); intros Hp; [|by monad_inv].
  unfold reward_submitter, lift_result in Hp. monad_inv.
  repeat case_match; monad_inv; done.
Qed.

Lemma pay_submitter_slashes who ev t n s s' u :
  pay_submitter who ev t n s = Ok u s' → permanent_slashes s' = permanent_slashes s.
Proof.
  unfold pay_submitter. destruct (0 <? n); intros Hp; [|by monad_inv].
  unfold reward_submitter, lift_result in Hp. monad_inv.
  repeat case_match; monad_inv; done.
Qed.

Lemma read_target_event_reads t proof s ev s' :
  read_target_event t proof s = Ok ev s' → s' = s.
Proof.
  unfold read_target_event, lift_result. intros Hr. monad_inv. repeat case_match; by monad_inv.
Qed.

Lemma commit_batch_advances o t proof s s' u :
  unambiguous s → commit_batch o t proof s = Ok u s' → advances s s'.
Proof.
  intros Hu. unfold commit_batch. rewrite transactional_Ok. intros Hs.
  apply bind_Ok_inv in Hs as (who & s1 & Ho & Hs). destruct o; unfold ensure_signed in Ho; monad_inv.
  match goal with H : read_target_event _ _ _ = _ |- _ => apply read_target_event_reads in H as -> end.
  destruct (List.find _ _) as [b|] eqn:Hf; [|monad_inv; peel_core; done].
  apply find_to_commit in Hf as (l & i & Hl & Hi & Hc); [|done].
  unfold find_and_set_batch_as_committed in *. monad_inv.
  match goal with H : pay_submitter _ _ _ _ ?s1 = Ok _ _ |- _ =>
    apply pay_submitter_core in H; trans s1; [|by apply advances_core] end.
  peel_core. simplify_eq/=. apply list_find_Some in Hi as (Hi & _ & _).
  eapply advances_one_batch; [done..|]. by apply committed_moves.
Qed.
End Calls.

(** ** The system *)

Inductive AttCall :=
| RegisterAttester (amount : Balance) (ec ed sr : list Z) (commission : option Z)
| RegisterInvulnerableAttester (amount : Balance) (ec ed sr : list Z) (commission : option Z)
| DeregisterAttester
| RemoveAttestationTarget (target : TargetId)
| AgreeToNewAttestationTarget (target : TargetId) (recoverable : list Z)
| ForceActivateTarget (target : TargetId)
| AddAttestationTarget (target : TargetId)
| SubmitAttestation (msg : Hash) (signature : list Z) (target : TargetId)
| CommitBatch (target : TargetId) (proof : list Z)
| ReadPendingBatches
| ReadLatestBatchingFactorOverview
| EstimateUserFinalityFee (target : TargetId)
| Nominate (attester : AccountId) (amount : Balance)
| Unnominate (attester : AccountId).

Section System.
Context {E : Type} `{Hashing} `{AttesterCrypto} `{AttestersConfig E}.
Implicit Types s : AttState E.

Definition att_dispatch (o : RawOrigin) (c : AttCall) : M (AttState E) DispatchError unit :=
  match c with
  | RegisterAttester amount ec ed sr commission => register_attester o amount ec ed sr commission
  | RegisterInvulnerableAttester amount ec ed sr commission =>
      register_invulnerable_attester o amount ec ed sr commission
  | DeregisterAttester => deregister_attester o
  | RemoveAttestationTarget target => remove_attestation_target o target
  | AgreeToNewAttestationTarget target recoverable =>
      agree_to_new_attestation_target o target recoverable
  | ForceActivateTarget target => force_activate_target o target
  | AddAttestationTarget target => add_attestation_target o target
  | SubmitAttestation msg signature target => submit_attestation o msg signature target
  | CommitBatch target proof => commit_batch o target proof
  | ReadPendingBatches => read_pending_batches o
  | ReadLatestBatchingFactorOverview => read_latest_batching_factor_overview o
  | EstimateUserFinalityFee target => estimate_user_finality_fee o target
  | Nominate attester amount => nominate o attester amount
  | Unnominate attester => unnominate o attester
  end.

(** A step: a successful call or request, the hook of a block, or a change of
    the block number and of the other pallets.  The hashes of the batches of a
    target are assumed distinct. *)
Inductive att_step s : AttState E → Prop :=
| step_att_call o c s' : unambiguous s → att_dispatch o c s = Ok tt s' → att_step s s'
| step_commit_request t sfx_id gmp s' :
    request_sfx_attestation_commit t sfx_id gmp s = Ok tt s' → att_step s s'
| step_revert_request t sfx_id s' :
    request_sfx_attestation_revert t sfx_id s = Ok tt s' → att_step s s'
| step_ban_request who s' :
    request_ban_attesters_attestation who s = Ok tt s' → att_step s s'
| step_block n w s' : on_initialize n s = Ok w s' → att_step s s'
| step_outside e b : att_step s (set_att_ext e (set_att_block b s)).

(** The storage before the genesis block is built. *)
Definition empty_att (e : E) : AttState E :=
  mkAtt e 0 ∅ [] [] [] ∅ [] [] [] None [] [] ∅ ∅ ∅ ∅ ∅ ∅ ∅ ∅ [].

Inductive att_reach : AttState E → Prop :=
| reach_genesis e targets : att_reach (genesis_build targets (empty_att e))
| reach_att_step s s' : att_reach s → att_step s s' → att_reach s'.
End System.

Section Facts.
Context {E : Type} `{Hashing} `{AttesterCrypto} `{AttestersConfig E}.
Context (HC : 0 < CommitteeSize).
Implicit Types s : AttState E.

Lemma try_activate_core t s : core (try_activate_new_target t s).1 = core s.
Proof. unfold try_activate_new_target. by destruct (Nat.eqb _ _). Qed.

(** Every call but the removal of a target advances the state. *)
Lemma dispatch_advances o c s s' :
  unambiguous s → att_dispatch o c s = Ok tt s' →
  advances s s' ∨ ∃ t, c = RemoveAttestationTarget t.
Proof.
  intros Hu Hd. destruct c; try (right; by eexists); left; simpl in Hd;
    try (by eapply submit_attestation_advances); try (by eapply commit_batch_advances);
    match type of Hd with ?f = _ => let g := eval unfold register_attester,
      register_invulnerable_attester, deregister_attester, agree_to_new_attestation_target,
      force_activate_target, add_attestation_target, read_pending_batches,
      read_latest_batching_factor_overview, estimate_user_finality_fee, nominate, unnominate in f
      in change (g = Ok tt s') in Hd end;
    rewrite transactional_Ok in Hd; destruct o; try done;
    unfold ensure_signed, ensure_root in Hd; monad_inv.
  - by eapply register_advances.
  - match goal with H : do_register_attester _ _ _ _ _ _ _ = _ |- _ =>
      apply register_advances in H end. by peel_core.
  - by apply advances_core.
  - match goal with H : run_total (try_activate_new_target ?t) ?s1 = Ok ?b _ |- _ =>
      rewrite run_total_Ok in H; pose proof (try_activate_core t s1) as Ht; rewrite H in Ht;
      destruct b; monad_inv; apply advances_core; unfold core; simpl;
      congruence end.
  - by apply advances_core.
  - by apply advances_core.
  - eapply for_each_advances; [|done]. intros ? ? ? ? Hm. cbv beta in Hm. monad_inv.
    by apply advances_core.
  - by apply advances_core.
  - by apply advances_core.
  - match goal with H : do_nominate _ _ _ _ = _ |- _ => apply do_nominate_advances in H end.
    by peel_core.
  - by apply advances_core.
Qed.

Lemma remove_target_step o t s s' :
  remove_attestation_target o t s = Ok tt s' →
  core s' = (sorted_nominated_attesters s, active_set s, delete t (batches s),
             delete t (next_batches s)).
Proof.
  unfold remove_attestation_target. rewrite transactional_Ok. intros Hd.
  destruct o; unfold ensure_root in Hd; by monad_inv.
Qed.

Lemma remove_target_inv s s' t :
  core s' = (sorted_nominated_attesters s, active_set s, delete t (batches s),
             delete t (next_batches s)) → att_inv s → att_inv s'.
Proof.
  intros Hc [Hn Ha Hb]. unfold core in Hc. injection Hc as Hs1 Hs2 Hs3 Hs4.
  split; try congruence. intros t'. rewrite Hs3, Hs4.
  destruct (decide (t' = t)) as [->|]; [by rewrite !lookup_delete_eq|].
  rewrite !lookup_delete_ne by done. apply Hb.
Qed.

Lemma step_inv s s' : att_inv s → att_step s s' → att_inv s'.
Proof.
  intros Hinv Hstep.
  assert (advances s s' ∨ ∃ o t, remove_attestation_target o t s = Ok tt s') as [Ha|(o & t & Hr)].
  { destruct Hstep as [o c s' Hu Hd| | | | |].
    - destruct (dispatch_advances o c s s' Hu Hd) as [|[t ->]]; [by left|]. right. by exists o, t.
    - left. by eapply request_commit_advances.
    - left. by eapply request_revert_advances.
    - left. by eapply request_ban_advances.
    - left. by eapply on_initialize_advances.
    - left. by apply advances_core. }
  - by apply Ha.
  - eapply remove_target_inv; [|done]. by eapply remove_target_step.
Qed.

Lemma genesis_att_inv e targets : att_inv (genesis_build targets (empty_att e)).
Proof.
  unfold genesis_build.
  apply (fold_left_inv (λ s, att_inv s ∧ batches s = ∅)).
  - split; [|done].
    split; simpl; [split; [constructor|simpl; lia|constructor]|split; [constructor|simpl; lia]|].
    intros t. by rewrite !lookup_empty.
  - intros s t _ [[Hn Ha Hb] He]. split; [|done]. split; [done..|].
    apply batches_ok_next; [done|]. simpl. rewrite He, lookup_empty.
    split; [apply (fresh_next_ok (att_block s) 0)|done].
Qed.

Lemma reach_inv s : att_reach s → att_inv s.
Proof. induction 1 as [e targets|s s' _ IH Hs]; [apply genesis_att_inv|by eapply step_inv]. Qed.

(** The success of the proof of a commitment. *)
Lemma commit_batch_unfold who t proof s ev :
  read_target_event t proof s = Ok ev s →
  commit_batch (Signed who) t proof s =
  transactional
    (match List.find (λ b, message_hash b =? event_hash ev) (get_batches_to_commit t s) with
     | None =>
         modify (apply_permanent_attesters_slash
           (if attesting_committee ev =? system_hash (encode_committee (PreviousCommittee s))
            then PreviousCommittee s else CurrentCommittee s)) ;;
         modify (emit (CollusionWithPermanentSlashDetected t (event_hash ev)))
     | Some batch =>
         ensure (is_committable batch) (att_error BatchNotFound) ;;
         find_and_set_batch_as_committed t (event_hash ev) ;;
         to_pay ← gets (estimate_finality_reward t
                    (saturating_sub (saturating_sub (att_block s) (available_to_commit_at batch))
                       TWO_EPOCHS_IN_LOCAL_BLOCKS));
         modify (emit (BatchCommitted t batch (message batch) (message_hash batch) to_pay)) ;;
         pay_submitter who ev t to_pay
     end) s.
Proof.
  intros Hr. unfold commit_batch, transactional at 1 2.
  erewrite bind_Ok by (simpl; reflexivity). by erewrite bind_Ok by exact Hr.
Qed.

(** Once committed, a batch is no longer among those to commit. *)
Lemma committed_not_found s t l i b :
  unambiguous s → batches s !! t = Some l → l !! i = Some b →
  List.find (λ c, message_hash c =? message_hash b)
    (List.filter is_committable (<[i := set_batch_status BatchStatusCommitted b]> l)) = None.
Proof.
  intros Hu Hl Hi. destruct (List.find _ _) as [c|] eqn:Hf; [|done]. exfalso.
  apply find_some in Hf as [Hin Hh]. apply Z.eqb_eq in Hh. apply filter_In in Hin as [Hin Hc].
  apply list_elem_of_In, list_elem_of_lookup in Hin as [j Hj].
  destruct (decide (i = j)) as [<-|Hne].
  - rewrite list_lookup_insert_eq in Hj by by eapply lookup_lt_Some. by simplify_eq.
  - rewrite list_lookup_insert_ne in Hj by done. apply Hne. eapply Hu; [done..|congruence].
Qed.

(** A commitment that finds its batch. *)
Lemma commit_found s s' who t proof ev b u :
  unambiguous s → read_target_event t proof s = Ok ev s →
  List.find (λ b, message_hash b =? event_hash ev) (get_batches_to_commit t s) = Some b →
  commit_batch (Signed who) t proof s = Ok u s' →
  ∃ l i, batches s !! t = Some l ∧ l !! i = Some b ∧ message_hash b = event_hash ev ∧
    is_committable b = true ∧
    batches s' = <[t := <[i := set_batch_status BatchStatusCommitted b]> l]> (batches s) ∧
    permanent_slashes s' = permanent_slashes s.
Proof.
  intros Hu Hev Hf Hs. rewrite (commit_batch_unfold _ _ _ _ _ Hev), Hf in Hs.
  apply find_to_commit in Hf as (l & i & Hl & Hi & Hc); [|done].
  apply list_find_Some in Hi as Hi'. destruct Hi' as (Hib & Hh & _).
  exists l, i. split; [done|]. split; [done|]. split; [done|]. split; [done|].
  rewrite transactional_Ok in Hs. unfold find_and_set_batch_as_committed in Hs. monad_inv.
  match goal with H : pay_submitter _ _ _ _ _ = _ |- _ =>
    pose proof (pay_submitter_core _ _ _ _ _ _ _ H) as Hp;
    pose proof (pay_submitter_slashes _ _ _ _ _ _ _ H) as Hq end.
  unfold core in Hp. injection Hp as _ _ Hp _. by rewrite Hp, Hq.
Qed.
End Facts.

(** ** Properties *)

Section Properties.
Context {E : Type} `{Hashing} `{AttesterCrypto} `{AttestersConfig E}.
Implicit Types s : AttState E.


(** A batch that was put up for attestation is never rewritten.  A step of
    the pallet, unless it removes the target, keeps the contents and the number
    of the batch, only adds signatures, and moves the status forward: from
    pending over approved by majority or by all to committed. *)
Theorem batch_moves_forward s s' t l i b :
  0 < CommitteeSize → att_reach s → att_step s s' → batches s !! t = Some l → l !! i = Some b →
  (batches s' !! t = None ∧ next_batches s' !! t = None) ∨
  ∃ l' b', batches s' !! t = Some l' ∧ l' !! i = Some b' ∧ batch_le b b'.
Proof.
  intros HC Hreach Hstep Hl Hi. apply reach_inv in Hreach as Hinv; [|done].
  assert (advances s s' → ∃ l' b', batches s' !! t = Some l' ∧ l' !! i = Some b' ∧ batch_le b b')
    as Hadv.
  { intros [_ Hle]. destruct (Hle Hinv t l Hl) as (l' & Hl' & Hb).
    destruct (Hb i b Hi) as (b' & Hb' & Hble). by exists l', b'. }
  destruct Hstep as [o c s' Hu Hd|t' sfx gmp s' Hr|t' sfx s' Hr|who s' Hr|n w s' Ho|e n].
  - destruct (dispatch_advances HC o c s s' Hu Hd) as [|[t' ->]]; [right; by apply Hadv|].
    apply remove_target_step in Hd. unfold core in Hd. injection Hd as _ _ Hb Hn.
    rewrite Hb, Hn. destruct (decide (t = t')) as [->|]; [left; by rewrite !lookup_delete_eq|].
    right. exists l, b. rewrite lookup_delete_ne by done. done.
  - right. apply Hadv. by eapply request_commit_advances.
  - right. apply Hadv. by eapply request_revert_advances.
  - right. apply Hadv. by eapply request_ban_advances.
  - right. apply Hadv. by eapply on_initialize_advances.
  - right. apply Hadv. by apply advances_core.
Qed.


(** A commitment can be replayed.  When the proof of a batch that has been
    committed is submitted again, by anyone, the batch is no longer found among
    those to commit, the pallet takes the proof for a collusion and slashes the
    whole committee for good. *)
Theorem replayed_commitment_slashes_committee s s1 who t proof ev b u anyone :
  unambiguous s →
  read_target_event t proof s = Ok ev s →
  List.find (λ b, message_hash b =? event_hash ev) (get_batches_to_commit t s) = Some b →
  commit_batch (Signed who) t proof s = Ok u s1 →
  read_target_event t proof s1 = Ok ev s1 →
  ∃ s2 committee,
    commit_batch (Signed anyone) t proof s1 = Ok tt s2 ∧
    permanent_slashes s2 = permanent_slashes s1 ++ committee ∧
    (committee = PreviousCommittee s1 ∨ committee = CurrentCommittee s1).
Proof.
  intros Hu Hev Hf Hs Hev1.
  destruct (commit_found _ _ _ _ _ _ _ _ Hu Hev Hf Hs) as (l & i & Hl & Hi & Hh & _ & Hb & _).
  rewrite (commit_batch_unfold _ _ _ _ _ Hev1). unfold get_batches_to_commit.
  rewrite Hb, lookup_insert_eq, <- Hh, (committed_not_found s t l i b) by done.
  eexists _, _. split; [reflexivity|]. split; [reflexivity|].
  destruct (_ =? _); [by left|by right].
Qed.

(** An attestation with a signature that does not verify is rejected and
    leaves no trace: the permanent slash the source writes before it returns the
    error is rolled back with the call. *)
Theorem invalid_attestation_not_slashed s o msg sig t who info :
  check_attestation o msg sig t s = Ok (who, info, false) s →
  submit_attestation o msg sig t s = Err (att_error RejectingFromSlashedAttester) s.
Proof.
  intros Hc. unfold submit_attestation, transactional. by erewrite bind_Ok by exact Hc.
Qed.

(** A successful attestation comes from a registered attester of the active
    set and of the current committee whose signature verifies; it adds exactly
    this signature to the batch with the signed hash, which the attester had not
    signed, and completes the batch when it is the last one of the committee. *)
Theorem attestation_recorded s s' o msg sig t u :
  submit_attestation o msg sig t s = Ok u s' →
  ∃ who info l i b,
    o = Signed who ∧ attesters s !! who = Some info ∧ who ∈ active_set s ∧
    who ∈ CurrentCommittee s ∧ batches s !! t = Some l ∧ l !! i = Some b ∧
    message_hash b = msg ∧ (attester_index info ∉ map fst (signatures b)) ∧
    (batch_status b = PendingAttestation ∨ batch_status b = ReadyForSubmissionByMajority) ∧
    batches s' =
      <[t := <[i := let sigs := signatures b ++ [(attester_index info, sig)] in
                    set_batch_status (status_signed (batch_status b) (length sigs))
                      (set_signatures sigs b)]> l]> (batches s).
Proof.
  unfold submit_attestation. rewrite transactional_Ok. intros Hs.
  apply bind_Ok_inv in Hs as ([[who info] ok] & s1 & Hc & Hs).
  apply check_attestation_reads in Hc as (-> & Ho & Ha & Hact & Hcur & _).
  destruct ok; simpl in Hs; [|by monad_inv].
  apply add_signature_spec in Hs as (l & i & b & r & Hl & Hi & Hh & Hb & Hcore).
  apply sign_batch_spec in Hb as (Hst & Hnew & Hr). exists who, info, l, i, b.
  repeat (split; [done|]). unfold core in Hcore. injection Hcore as _ _ -> _. by rewrite Hr.
Qed.
End Properties.
