(* ===== verification/AttesterRequests.v ===== *)
(** * From a request of the Circuit to a batch to sign

    A side effect the Circuit asks an attestation for is collected in the next
    batch of its target, and the next batching window puts it up for signing. *)

From S2P Require Import Prelude Types AccountManager World Batches Attesters AttesterCalls.
From S2P Require Import AttesterReach AttesterSystem.

(** ** Nominations, committees and fees of the attesters pallet

    What a nomination and a deregistration do, how committees are drawn, the
    bounds of the finality reward, and that a requested attestation is put up
    for signing in the next batching window. *)

(** ** Shuffling *)

Lemma list_swap_Permutation {T} i j (l : list T) : list_swap i j l ≡ₚ l.
Proof.
  unfold list_swap. destruct (l !! i) as [a|] eqn:Hi; [|done].
  destruct (l !! j) as [b|] eqn:Hj; [|done].
  apply Permutation_inj. split; [by rewrite !length_insert|].
  exists (λ k, if decide (k = i) then j else if decide (k = j) then i else k). split.
  - intros k1 k2. repeat case_decide; naive_solver.
  - intros k. apply lookup_lt_Some in Hi as Hli. apply lookup_lt_Some in Hj as Hlj.
    destruct (decide (k = i)) as [->|].
    { by rewrite list_lookup_insert_eq by by rewrite length_insert. }
    rewrite list_lookup_insert_ne by done. destruct (decide (k = j)) as [->|].
    { by rewrite list_lookup_insert_eq. }
    by rewrite list_lookup_insert_ne.
Qed.

Section Shuffle.
Context {E : Type} `{Hashing} `{AttesterCrypto} `{AttestersConfig E}.

(** The index drawn for a position is not beyond it: the swaps are in range. *)
Lemma random_index_le (e : E) i : (random_index e i ≤ i)%nat.
Proof.
  unfold random_index. apply (fold_left_inv (λ acc, (acc ≤ i)%nat)); [lia|].
  intros acc x _ _. pose proof (Nat.mod_upper_bound (acc + Z.to_nat x) (i + 1)). lia.
Qed.

Lemma shuffle_loop_Permutation (e : E) i l : shuffle_loop e i l ≡ₚ l.
Proof.
  revert l. induction i as [|i IH]; intros l; [done|]. simpl. rewrite IH.
  apply list_swap_Permutation.
Qed.

Lemma shuffle_Permutation (e : E) l : shuffle_active_set e l ≡ₚ l.
Proof. apply shuffle_loop_Permutation. Qed.

(** The size of a committee drawn from the active set. *)
Definition committee_size (s : AttState E) : nat :=
  Nat.min (Z.to_nat CommitteeSize) (length (active_set s)).

Lemma committee_size_eq (s : AttState E) :
  (if negb (Z.of_nat (length (active_set s)) <? CommitteeSize)
   then Z.to_nat CommitteeSize else length (active_set s)) = committee_size s.
Proof. unfold committee_size. destruct (Z.ltb_spec (Z.of_nat (length (active_set s))) CommitteeSize); simpl; lia. Qed.
End Shuffle.

(** ** Fees *)

Section Fees.
Context {E : Type} `{Hashing} `{AttesterCrypto} `{AttestersConfig E}.

Lemma percent_mul_ceil_25 r : 0 ≤ r → r ≤ 4 * percent_mul_ceil REWARD_ADJUSTMENT r ≤ r + 3.
Proof.
  intros Hr. unfold percent_mul_ceil, REWARD_ADJUSTMENT.
  pose proof (Z.div_mod (25 * r + 99) 100 ltac:(lia)).
  pose proof (Z.mod_pos_bound (25 * r + 99) 100 ltac:(lia)). lia.
Qed.

Lemma raise_reward_bounds r :
  0 ≤ r ≤ u128_max → r ≤ raise_reward r ≤ u128_max ∧ 4 * raise_reward r ≤ 5 * r + 3.
Proof.
  intros Hr. unfold raise_reward, saturating_add.
  pose proof (percent_mul_ceil_25 r ltac:(lia)). lia.
Qed.

Lemma iter_raise_bounds n r :
  0 ≤ r ≤ u128_max → r ≤ Nat.iter n raise_reward r ≤ u128_max.
Proof.
  intros Hr. induction n as [|n IH]; simpl; [lia|].
  destruct (raise_reward_bounds (Nat.iter n raise_reward r)); lia.
Qed.

Lemma iter_raise_mono n m r :
  0 ≤ r ≤ u128_max → (n ≤ m)%nat → Nat.iter n raise_reward r ≤ Nat.iter m raise_reward r.
Proof.
  intros Hr. induction 1 as [|m _ IH]; [done|]. simpl.
  pose proof (iter_raise_bounds m r Hr).
  destruct (raise_reward_bounds (Nat.iter m raise_reward r)); lia.
Qed.

(** Six raises by a quarter stay below the fourfold. *)
Lemma iter_raise_upper n r :
  0 ≤ r ≤ u128_max → (n ≤ 6)%nat → Nat.iter n raise_reward r ≤ 4 * r + 12.
Proof.
  intros Hr Hn. etrans; [by apply (iter_raise_mono n 6)|].
  change (Nat.iter 6 raise_reward r)
    with (raise_reward (raise_reward (raise_reward (raise_reward (raise_reward (raise_reward r)))))).
  do 6 (match goal with |- context [raise_reward ?x] =>
    lazymatch x with context [raise_reward] => fail | _ => idtac end;
    let y := fresh "y" in
    destruct (raise_reward_bounds x); [lia|]; set (y := raise_reward x) in *; clearbody y end).
  lia.
Qed.

(** The fee the reward of a target starts from. *)
Definition last_fee (t : TargetId) (s : AttState E) : Balance :=
  match paid_finality_fees s !! t with
  | Some fees => default base_user_fee_for_single_user (last fees)
  | None => base_user_fee_for_single_user
  end.

Definition delayed_epochs (d : BlockNumber) : nat :=
  Z.to_nat (Z.min d SIX_EPOCHS_IN_LOCAL_BLOCKS / ONE_EPOCH_IN_LOCAL_BLOCKS).

Lemma delayed_epochs_le d : (delayed_epochs d ≤ 6)%nat.
Proof.
  unfold delayed_epochs, SIX_EPOCHS_IN_LOCAL_BLOCKS, ONE_EPOCH_IN_LOCAL_BLOCKS.
  assert (Z.min d 192 / 32 ≤ 6); [|lia]. apply Z.div_le_upper_bound; lia.
Qed.

Lemma delayed_epochs_mono d d' : d ≤ d' → (delayed_epochs d ≤ delayed_epochs d')%nat.
Proof.
  intros Hd. unfold delayed_epochs, SIX_EPOCHS_IN_LOCAL_BLOCKS, ONE_EPOCH_IN_LOCAL_BLOCKS.
  assert (Z.min d 192 / 32 ≤ Z.min d' 192 / 32); [|lia]. apply Z.div_le_mono; lia.
Qed.

Lemma reward_early t d (s : AttState E) :
  0 ≤ d < 32 → estimate_finality_reward t d s =
  saturating_sub (last_fee t s) (percent_mul_ceil REWARD_ADJUSTMENT (last_fee t s)).
Proof.
  intros Hd. unfold estimate_finality_reward, last_fee.
  unfold SIX_EPOCHS_IN_LOCAL_BLOCKS, ONE_EPOCH_IN_LOCAL_BLOCKS.
  replace (Z.min d 192) with d by lia. rewrite Z.div_small by lia.
  destruct (Z.ltb_spec d 32); [done|lia].
Qed.

Lemma reward_late t d (s : AttState E) :
  32 ≤ d → estimate_finality_reward t d s = Nat.iter (delayed_epochs d) raise_reward (last_fee t s).
Proof.
  intros Hd. unfold estimate_finality_reward, last_fee, delayed_epochs.
  unfold SIX_EPOCHS_IN_LOCAL_BLOCKS, ONE_EPOCH_IN_LOCAL_BLOCKS.
  destruct (Z.ltb_spec (Z.min d 192) 32); [lia|done].
Qed.
End Fees.

Section Properties.
Context {E : Type} `{Hashing} `{AttesterCrypto} `{AttestersConfig E}.
Implicit Types s : AttState E.

(** The reward for committing a batch starts from the last fee paid on the
    target: three quarters of it within an epoch, otherwise at least the fee and
    at most about its fourfold, never above the largest balance; and a longer
    delay never lowers it. *)
Theorem finality_reward_bounds t d d' s :
  0 ≤ d ≤ d' → 0 ≤ last_fee t s ≤ u128_max →
  let r := estimate_finality_reward t d s in
  (d < 32 → 3 * last_fee t s - 3 ≤ 4 * r ≤ 3 * last_fee t s) ∧
  (32 ≤ d → last_fee t s ≤ r ≤ Z.min u128_max (4 * last_fee t s + 12)) ∧
  r ≤ estimate_finality_reward t d' s.
Proof.
  intros Hd Hf r. subst r. pose proof (percent_mul_ceil_25 (last_fee t s) ltac:(lia)) as Hq.
  assert (d < 32 → 3 * last_fee t s - 3 ≤ 4 * estimate_finality_reward t d s ≤ 3 * last_fee t s)
    as Hearly.
  { intros. rewrite reward_early by lia. unfold saturating_sub. lia. }
  split; [done|]. split.
  - intros Hl. rewrite reward_late by done.
    pose proof (iter_raise_bounds (delayed_epochs d) _ Hf).
    pose proof (iter_raise_upper (delayed_epochs d) _ Hf (delayed_epochs_le d)). lia.
  - destruct (Z.lt_ge_cases d 32) as [Hlt|Hge].
    + specialize (Hearly Hlt). destruct (Z.lt_ge_cases d' 32).
      * rewrite !reward_early by lia. done.
      * rewrite (reward_late t d') by done.
        pose proof (iter_raise_bounds (delayed_epochs d') _ Hf). lia.
    + rewrite !reward_late by lia. apply iter_raise_mono; [done|]. apply delayed_epochs_mono. lia.
Qed.

(** A shuffling round moves the committees on: the current one becomes the
    previous one, the next one the current one, and a new next committee of the
    configured size is drawn from a permutation of the active set, in which the
    invulnerable attester takes the first place. *)
Theorem shuffle_rotates_committees s :
  ∃ drawn, drawn ≡ₚ active_set s ∧
    let s' := (shuffle_committee s).1 in
    PreviousCommittee s' = CurrentCommittee s ∧
    CurrentCommittee s' = match NextCommittee s with
                          | [] => take (committee_size s) drawn
                          | l => l
                          end ∧
    NextCommittee s' = take (committee_size s)
      (match invulnerable_attester s with
       | Some a => match drawn with [] => [] | _ :: rest => a :: rest end
       | None => drawn
       end) ∧
    length (NextCommittee s') = committee_size s ∧
    (NoDup (active_set s) → invulnerable_attester s = None → NoDup (NextCommittee s')).
Proof.
  exists (shuffle_active_set (att_ext s) (active_set s)).
  pose proof (shuffle_Permutation (att_ext s) (active_set s)) as Hp. split; [done|].
  unfold shuffle_committee. simpl. rewrite committee_size_eq.
  pose proof (Permutation_length Hp) as Hlen. assert (committee_size s ≤ length (active_set s))%nat
    as Hle by (unfold committee_size; lia).
  generalize dependent (shuffle_active_set (att_ext s) (active_set s)). intros p Hp Hlen.
  split; [done|]. split; [by destruct (NextCommittee s)|]. split; [|split].
  - by destruct (invulnerable_attester s), p.
  - rewrite length_take. destruct (invulnerable_attester s), p; simpl in *; lia.
  - intros Hnd Hinv. rewrite Hinv. apply NoDup_take. by rewrite Hp.
Qed.
End Properties.

Section Requests.
Context {E : Type} `{Hashing} `{AttesterCrypto} `{AttestersConfig E}.
Context (HC : 0 < CommitteeSize).
Implicit Types s : AttState E.

(** What is asked for: the commitment or the revert of a side effect. *)
Inductive request := RequestCommit (entry : Z) | RequestRevert (sfx_id : Hash).

Definition requested (r : request) (b : BatchMessage) : Prop :=
  match r with
  | RequestCommit entry => entry ∈ default [] (committed_sfx b)
  | RequestRevert sfx_id => sfx_id ∈ default [] (reverted_sfx b)
  end.

(** The request waits in the next batch, or is part of a batch to sign. *)
Definition waiting (r : request) (t : TargetId) s : Prop :=
  ∃ nb, next_batches s !! t = Some nb ∧ requested r nb.
Definition put_up (r : request) (t : TargetId) s : Prop :=
  ∃ l i b, batches s !! t = Some l ∧ l !! i = Some b ∧ requested r b.

Lemma requested_le r b b' : batch_le b b' → requested r b → requested r b'.
Proof. intros [Hc Hr _ _ _ _ _ _]. destruct r; simpl; congruence. Qed.

Lemma requested_nonempty r b : requested r b → is_empty b = false.
Proof.
  intros Hr. apply batch_nonempty_iff. destruct r; simpl in Hr.
  - destruct (committed_sfx b); [naive_solver|]. by apply elem_of_nil in Hr.
  - destruct (reverted_sfx b); [naive_solver|]. by apply elem_of_nil in Hr.
Qed.

Lemma put_up_advances r t s s' : att_inv s → advances s s' → put_up r t s → put_up r t s'.
Proof.
  intros Hinv Ha (l & i & b & Hl & Hi & Hr). destruct (adv_le _ _ Ha Hinv t l Hl) as (l' & Hl' & Hb).
  destruct (Hb i b Hi) as (b' & Hb' & Hle). exists l', i, b'. split; [done|]. split; [done|].
  by eapply requested_le.
Qed.

(** Drawing a committee keeps what waits. *)
Lemma waiting_request_committee r t s :
  waiting r t s → waiting r t (request_next_committee_attestation s).1.
Proof.
  intros Hw. unfold request_next_committee_attestation.
  apply (fold_left_inv (λ sl : AttState E * _, waiting r t sl.1)); [done|].
  intros [s1 l1] t' _ (nb & Hnb & Hr). unfold request_committee_on. simpl in Hnb.
  destruct (next_batches s1 !! t') as [nb'|] eqn:Hnb'; [|by exists nb].
  destruct (next_committee nb'); [by exists nb|]. unfold waiting. simpl.
  destruct (decide (t' = t)) as [->|].
  - rewrite lookup_insert_eq. eexists. split; [done|]. simplify_eq. by destruct r.
  - rewrite lookup_insert_ne by done. by exists nb.
Qed.

Lemma next_batches_emit_pending t s : next_batches (emit_pending t s) = next_batches s.
Proof. unfold emit_pending. by case_match. Qed.

Lemma next_batches_close n t s : next_batches (close_windows n t s) = next_batches s.
Proof.
  unfold close_windows. destruct (batches s !! t) as [l|]; [|done]. simpl.
  apply (fold_left_inv (λ s1, next_batches s1 = next_batches s)); [done|].
  by intros s1 [b []] _ Hs1.
Qed.

(** The window of another target keeps what waits. *)
Lemma waiting_other r t t' n s :
  t' ≠ t → waiting r t s → waiting r t (process_target_window n s t').
Proof.
  intros Hne (nb & Hnb & Hr). unfold process_target_window, open_window.
  rewrite next_batches_emit_pending, next_batches_close.
  destruct (next_batches s !! t') as [nb'|] eqn:Hnb'.
  - destruct (is_empty nb').
    + exists nb. by rewrite next_batches_emit_pending, next_batches_close.
    + exists nb. simpl. rewrite lookup_insert_ne by done.
      by rewrite next_batches_emit_pending, next_batches_close.
  - apply waiting_request_committee. exists nb. simpl. by rewrite lookup_insert_ne.
Qed.

(** The window of the target puts it up. *)
Lemma waiting_put_up r t n s : waiting r t s → put_up r t (process_target_window n s t).
Proof.
  intros (nb & Hnb & Hr). unfold process_target_window, open_window.
  rewrite next_batches_emit_pending, next_batches_close, Hnb, (requested_nonempty _ _ Hr).
  unfold put_up. simpl. rewrite lookup_insert_eq.
  eexists _, _, (set_batch_status PendingAttestation nb). split; [done|]. split.
  - apply list_lookup_middle. done.
  - by destruct r.
Qed.

Lemma window_advances n s t : advances s (process_target_window n s t).
Proof.
  unfold process_target_window.
  etrans; [apply (close_windows_advances n t)|]. etrans; [apply (emit_pending_advances t)|].
  by apply open_window_advances.
Qed.

(** All the windows of a block. *)
Lemma windows_put_up r t n targets s :
  att_inv s → (waiting r t s ∧ t ∈ targets) ∨ put_up r t s →
  put_up r t (fold_left (process_target_window n) targets s).
Proof.
  revert s. induction targets as [|t' targets IH]; intros s Hinv Hs; simpl.
  - destruct Hs as [[_ Hin]|]; [by inversion Hin|done].
  - pose proof (window_advances n s t') as Ha. apply IH; [by apply Ha|].
    destruct Hs as [[Hw Hin]|Hp]; [|right; by eapply put_up_advances].
    destruct (decide (t' = t)) as [->|Hne]; [right; by apply waiting_put_up|].
    left. split; [by apply waiting_other|]. apply elem_of_cons in Hin as [->|]; done.
Qed.

Lemma request_commit_waiting t sfx_id gmp s s' u :
  request_sfx_attestation_commit t sfx_id gmp s = Ok u s' →
  waiting (RequestCommit (sfx_id_and_gmp_payload sfx_id gmp)) t s' ∧
  attestation_targets s' = attestation_targets s.
Proof.
  clear HC. unfold request_sfx_attestation_commit. intros Hr. monad_inv.
  destruct (next_batches _ !! t) as [nb|] eqn:Hnb; [|done].
  destruct (committed_sfx nb) as [l|] eqn:Hl; [case_bool_decide; [done|]|];
    monad_inv; (split; [|done]); unfold waiting; simpl; rewrite lookup_insert_eq;
    (eexists; split; [done|]); simpl; set_solver.
Qed.

Lemma request_revert_waiting t sfx_id s s' u :
  request_sfx_attestation_revert t sfx_id s = Ok u s' →
  waiting (RequestRevert sfx_id) t s' ∧ attestation_targets s' = attestation_targets s.
Proof.
  clear HC. unfold request_sfx_attestation_revert. intros Hr. monad_inv.
  destruct (next_batches _ !! t) as [nb|] eqn:Hnb; [|done].
  destruct (reverted_sfx nb) as [l|] eqn:Hl; [case_bool_decide; [done|]|];
    monad_inv; (split; [|done]); unfold waiting; simpl; rewrite lookup_insert_eq;
    (eexists; split; [done|]); simpl; set_solver.
Qed.
End Requests.

Section Properties.
Context {E : Type} `{Hashing} `{AttesterCrypto} `{AttestersConfig E}.
Implicit Types s : AttState E.

End Properties.
