(* ===== verification/AttesterBonds.v ===== *)
(** * Bonds of attesters and nominators

    What a nomination, a deregistration and a repeated unnomination do to the
    nominations and to the reserved funds, and what a commitment pays. *)

From S2P Require Import Prelude Types AccountManager World Batches Attesters AttesterCalls.
From S2P Require Import AttesterReach AttesterSystem AttesterRequests.

Section Facts.
Context {E : Type} `{Hashing} `{AttesterCrypto} `{AttestersConfig E}.
Implicit Types s : AttState E.

Lemma read_nominations_elem a s n x :
  (n, x) ∈ read_nominations a s ↔ nominations s !! (a, n) = Some x.
Proof.
  unfold read_nominations. rewrite merge_sort_Permutation, list_elem_of_omap. split.
  - intros ([[a' n'] x'] & Hin & Hf). apply elem_of_map_to_list in Hin.
    simpl in Hf. case_bool_decide; by simplify_eq.
  - intros Hx. exists ((a, n), x). rewrite elem_of_map_to_list. split; [done|].
    simpl. by rewrite bool_decide_eq_true_2.
Qed.

Lemma read_nominations_find a s n x :
  nominations s !! (a, n) = Some x →
  List.find (λ nb, nb.1 =? n) (read_nominations a s) = Some (n, x).
Proof.
  intros Hx. destruct (List.find _ _) as [[n' x']|] eqn:Hf.
  - apply find_some in Hf as [Hin Hn]. apply Z.eqb_eq in Hn. simpl in Hn. subst n'.
    apply list_elem_of_In, read_nominations_elem in Hin. congruence.
  - apply find_none with (x := (n, x)) in Hf; [by rewrite Z.eqb_refl in Hf|].
    by apply list_elem_of_In, read_nominations_elem.
Qed.

(** *** Releasing the nominations of an attester *)

Definition unreserve_all (l : list (AccountId * Balance)) (e : E) : E :=
  fold_left (λ e nb, att_unreserve nb.1 nb.2 e) l e.

Definition release_each (a : AccountId) (l : list (AccountId * Balance)) s : AttState E :=
  fold_left (λ s nb,
    set_att_ext (att_unreserve nb.1 nb.2 (att_ext s))
      (set_nominations (delete (a, nb.1) (nominations s)) s)) l s.

Lemma release_each_ext a l s : att_ext (release_each a l s) = unreserve_all l (att_ext s).
Proof. revert s. induction l as [|nb l IH]; intros s; [done|]. apply IH. Qed.

Lemma release_each_other a l s : core (release_each a l s) = core s ∧
  attesters (release_each a l s) = attesters s ∧
  pending_unnominations (release_each a l s) = pending_unnominations s.
Proof.
  revert s. induction l as [|nb l IH]; intros s; [done|].
  destruct (IH (release_each a [nb] s)) as (Hc & Ha & Hp). done.
Qed.

Lemma release_each_none a l s n :
  n ∈ map fst l ∨ nominations s !! (a, n) = None →
  nominations (release_each a l s) !! (a, n) = None.
Proof.
  revert s. induction l as [|nb l IH]; intros s Hn.
  - destruct Hn as [Hn|]; [by inversion Hn|done].
  - apply IH. simpl. destruct (decide (n = nb.1)) as [->|Hne].
    + right. apply lookup_delete_eq.
    + destruct Hn as [Hn|Hn].
      * simpl in Hn. apply elem_of_cons in Hn as [|]; [done|by left].
      * right. rewrite lookup_delete_ne; [done|]. congruence.
Qed.

Lemma release_each_keeps a l s k :
  k.1 ≠ a → nominations (release_each a l s) !! k = nominations s !! k.
Proof.
  intros Hk. revert s. induction l as [|nb l IH]; intros s; [done|].
  etrans; [apply (IH (release_each a [nb] s))|]. simpl.
  apply lookup_delete_ne. destruct k. naive_solver.
Qed.

Lemma release_all a s n : nominations (release_nominations a s) !! (a, n) = None.
Proof.
  apply release_each_none. destruct (nominations s !! (a, n)) as [x|] eqn:Hx; [left|by right].
  apply list_elem_of_fmap. exists (n, x). split; [done|]. by apply read_nominations_elem.
Qed.

(** *** The list of nominated attesters *)

Lemma put_amount_elem a n l y x :
  NoDup (map fst l) →
  (y, x) ∈ put_amount a n l ↔ (y = a ∧ x = n) ∨ (y ≠ a ∧ (y, x) ∈ l).
Proof.
  intros Hnd. unfold put_amount. destruct (list_find _ l) as [[i [b m]]|] eqn:Hf.
  - apply list_find_Some in Hf as (Hi & Hb & _). simpl in Hb. subst b.
    rewrite list_elem_of_lookup. split.
    + intros [j Hj]. destruct (decide (i = j)) as [<-|Hne].
      * rewrite list_lookup_insert_eq in Hj by by eapply lookup_lt_Some. naive_solver.
      * rewrite list_lookup_insert_ne in Hj by done. right. split; [|by eapply list_elem_of_lookup_2].
        intros ->. apply Hne. eapply (NoDup_lookup (map fst l)); [done|..];
          rewrite list_lookup_fmap; [by rewrite Hi|by rewrite Hj].
    + intros [[-> ->]|[Hne Hin]].
      * exists i. apply list_lookup_insert_eq. by eapply lookup_lt_Some.
      * apply list_elem_of_lookup in Hin as [j Hj]. exists j. rewrite list_lookup_insert_ne; [done|].
        intros ->. congruence.
  - apply list_find_None in Hf. rewrite Forall_forall in Hf.
    rewrite elem_of_app, list_elem_of_singleton. split.
    + intros [Hin|Heq]; [|naive_solver]. right. split; [|done]. intros ->. by apply (Hf _ Hin).
    + naive_solver.
Qed.

Lemma strike_elem a l (y m : Z) :
  NoDup (map fst l) →
  (y, m) ∈ (match list_find (λ x : Z * Z, x.1 = a) l with
            | Some (i, _) => delete i l
            | None => l
            end) → y ≠ a ∧ (y, m) ∈ l.
Proof.
  intros Hnd. destruct (list_find _ l) as [[i [b k]]|] eqn:Hf.
  - apply list_find_Some in Hf as (Hi & Hb & _). simpl in Hb. subst b. intros Hin.
    apply delete_Permutation in Hi. rewrite Hi in Hnd |- *. cbn [map] in Hnd.
    apply NoDup_cons in Hnd as [Hnot _]. split; [|by right]. intros ->. apply Hnot.
    apply list_elem_of_fmap. by exists (a, m).
  - apply list_find_None in Hf. rewrite Forall_forall in Hf. intros Hin. split; [|done].
    intros ->. by apply (Hf _ Hin).
Qed.

Lemma update_sorted_ext a x s :
  att_ext (update_sorted_nominated_attesters a x s) = att_ext s.
Proof. unfold update_sorted_nominated_attesters. by repeat case_match. Qed.

(** The nomination stays until the request is processed. *)
Lemma unnominate_again s n a x :
  nominations s !! (a, n) = Some x →
  unnominate (Signed n) a s = Ok tt (push_unnomination n
    (a, x, wrap32 (att_block s + wrap32 (ShufflingFrequency * 2))) s).
Proof.
  intros Hx. unfold unnominate, transactional, ensure_signed.
  erewrite bind_Ok by reflexivity. erewrite bind_Ok by reflexivity.
  rewrite (read_nominations_find a _ n x) by done. erewrite bind_Ok by reflexivity.
  erewrite bind_Ok; [reflexivity|]. cbn [fst]. by rewrite Z.eqb_refl.
Qed.

Lemma push_unnomination_twice s n p :
  pending_unnominations s !! n = None →
  pending_unnominations (push_unnomination n p (push_unnomination n p s)) !! n = Some [p; p].
Proof. intros Hp. unfold push_unnomination. simpl. by rewrite Hp, !lookup_insert_eq. Qed.

Lemma process_nominator_twice s n a x unlock w :
  n ≠ a →
  att_ext (process_nominator unlock (s, w) (n, [(a, x, unlock); (a, x, unlock)])).1 =
  att_unreserve n x (att_unreserve n x (att_ext s)).
Proof.
  intros Hne. unfold process_nominator, unlocked. simpl. rewrite Z.leb_refl. simpl.
  rewrite (proj2 (Z.eqb_neq n a)) by done. simpl. by rewrite !update_sorted_ext.
Qed.

Lemma pay_submitter_fee who ev t n s s' u :
  0 < n → pay_submitter who ev t n s = Ok u s' → last_fee t s' = n.
Proof.
  intros Hn. unfold pay_submitter, reward_submitter, lift_result.
  destruct (Z.ltb_spec 0 n); [|lia]. intros Hp. monad_inv. unfold last_fee. simpl.
  by rewrite lookup_insert_eq, last_snoc.
Qed.

(** What a commitment that finds its batch pays. *)
Lemma commit_found_pays s s' who t proof ev b u :
  read_target_event t proof s = Ok ev s →
  List.find (λ b, message_hash b =? event_hash ev) (get_batches_to_commit t s) = Some b →
  commit_batch (Signed who) t proof s = Ok u s' →
  ∃ s1 s2, paid_finality_fees s1 = paid_finality_fees s ∧
    pay_submitter who ev t
      (estimate_finality_reward t
         (saturating_sub (saturating_sub (att_block s) (available_to_commit_at b))
            TWO_EPOCHS_IN_LOCAL_BLOCKS) s1) s2 = Ok u s'.
Proof.
  intros Hev Hf Hs. rewrite (commit_batch_unfold _ _ _ _ _ Hev), Hf, transactional_Ok in Hs.
  apply bind_Ok_inv in Hs as ([] & s1 & He & Hs). inv_ok He.
  apply bind_Ok_inv in Hs as ([] & s2 & Hc & Hs).
  apply bind_Ok_inv in Hs as (to_pay & s3 & Hg & Hs). unfold gets in Hg. injection Hg as <- <-.
  apply bind_Ok_inv in Hs as ([] & s4 & Hm & Hs). exists s2, s4. split; [|exact Hs].
  clear Hs Hm. unfold find_and_set_batch_as_committed in Hc. by monad_inv.
Qed.

Lemma delayed_epochs_six d : 192 ≤ d → delayed_epochs d = 6%nat.
Proof.
  intros Hd. unfold delayed_epochs, SIX_EPOCHS_IN_LOCAL_BLOCKS, ONE_EPOCH_IN_LOCAL_BLOCKS.
  by replace (Z.min d 192) with 192 by lia.
Qed.

Lemma found_available (HC : 0 < CommitteeSize) s t h b :
  att_reach s → unambiguous s →
  List.find (λ b, message_hash b =? h) (get_batches_to_commit t s) = Some b →
  available_to_commit_at b = 0.
Proof.
  intros [_ _ Hinv]%reach_inv Hu Hf; [|done].
  apply find_to_commit in Hf as (l & i & Hl & Hi & _); [|done].
  apply list_find_Some in Hi as (Hi & _ & _). specialize (Hinv t). rewrite Hl in Hinv.
  destruct (next_batches s !! t); [|done]. destruct Hinv as (_ & _ & Hinv).
  by destruct (Hinv i b Hi) as [_ []].
Qed.

Lemma nominate_spec n a x s s' u :
  nominate (Signed n) a x s = Ok u s' →
  ∃ e, att_reserve n x (att_ext s) = ROk e ∧
    nominations s' =
      <[(a, n) := wrap128 (default 0 (nominations s !! (a, n)) + x)]> (nominations s) ∧
    att_ext s' = e ∧
    sorted_nominated_attesters s' = take 32 (sort_by_amount
      (put_amount a (total_nomination (read_nominations a s')) (sorted_nominated_attesters s))).
Proof.
  unfold nominate. rewrite transactional_Ok. unfold ensure_signed, do_nominate, lift_result.
  intros Hn. monad_inv. case_match; monad_inv. eexists. done.
Qed.

(** Who is cut off has not more than any that stays. *)
Lemma truncate_elem n l x :
  x ∈ l → x ∈ take n (sort_by_amount l) ∨
          (length (take n (sort_by_amount l)) = n ∧
           ∀ y, y ∈ take n (sort_by_amount l) → x.2 ≤ y.2).
Proof.
  intros Hx. assert (x ∈ sort_by_amount l) as Hs
    by (unfold sort_by_amount; by rewrite merge_sort_Permutation).
  assert (StronglySorted amount_ge (sort_by_amount l)) as Hsort
    by (apply StronglySorted_merge_sort; apply _).
  rewrite <- (take_drop n (sort_by_amount l)) in Hs, Hsort.
  apply elem_of_app in Hs as [Hs|Hs]; [by left|]. right. split.
  - rewrite length_take. assert (drop n (sort_by_amount l) ≠ []) as Hd.
    { intros Hd. rewrite Hd in Hs. by inversion Hs. }
    assert (length (drop n (sort_by_amount l)) ≠ 0%nat) by by intros ?%length_zero_iff_nil.
    rewrite length_drop in *. lia.
  - intros y Hy. exact (StronglySorted_app_1_elem_of _ _ _ _ _ Hsort Hy Hs).
Qed.
End Facts.

Section Properties.
Context {E : Type} `{Hashing} `{AttesterCrypto} `{AttestersConfig E}.
Implicit Types s : AttState E.

(** A successful nomination reserves the amount, adds it to the nomination of
    the nominator, and lists the attester with the sum of all its nominations,
    unless 32 others have at least as much; the other entries of the list are
    the old ones. *)
Theorem nomination_lists_attester s s' n a x u :
  0 < CommitteeSize → att_reach s → nominate (Signed n) a x s = Ok u s' →
  let total := total_nomination (read_nominations a s') in
  nominations s' = <[(a, n) := wrap128 (default 0 (nominations s !! (a, n)) + x)]> (nominations s) ∧
  (∃ e, att_reserve n x (att_ext s) = ROk e ∧ att_ext s' = e) ∧
  (∀ y m, (y, m) ∈ sorted_nominated_attesters s' →
     (y = a ∧ m = total) ∨ (y ≠ a ∧ (y, m) ∈ sorted_nominated_attesters s)) ∧
  ((a, total) ∈ sorted_nominated_attesters s' ∨
   (length (sorted_nominated_attesters s') = 32%nat ∧
    ∀ y m, (y, m) ∈ sorted_nominated_attesters s' → total ≤ m)).
Proof.
  intros HC [[_ _ Hd] _ _]%reach_inv Hn total; [|done].
  apply nominate_spec in Hn as (e & He & Hnom & Hext & Hsort). split; [done|].
  split; [by exists e|]. rewrite Hsort. fold total.
  set (l1 := put_amount a total (sorted_nominated_attesters s)). split.
  - intros y m Hin. eapply put_amount_elem; [exact Hd|].
    eapply elem_of_sublist in Hin; [|apply sublist_take]. unfold sort_by_amount in Hin.
    by rewrite merge_sort_Permutation in Hin.
  - destruct (truncate_elem 32 l1 (a, total)) as [Hin|[Hlen Hle]].
    + apply put_amount_elem; [done|by left].
    + by left.
    + right. split; [done|]. intros y m Hy. by apply (Hle (y, m)).
Qed.

(** When an attester leaves, every nomination of the attester is released to
    its nominator and removed, the attester is struck from the registry, from
    the list of nominated attesters and from the pending unnominations; the
    nominations of other attesters stay. *)
Theorem deregistration_releases_all s a :
  0 < CommitteeSize → att_reach s →
  let s' := deregister a s in
  att_ext s' = unreserve_all (read_nominations a s) (att_ext s) ∧
  (∀ n, nominations s' !! (a, n) = None) ∧
  (∀ b n, b ≠ a → nominations s' !! (b, n) = nominations s !! (b, n)) ∧
  attesters s' = delete a (attesters s) ∧
  pending_unnominations s' = delete a (pending_unnominations s) ∧
  (∀ y m, (y, m) ∈ sorted_nominated_attesters s' →
     y ≠ a ∧ (y, m) ∈ sorted_nominated_attesters s).
Proof.
  intros HC [[_ _ Hd] _ _]%reach_inv s'; [|done]. subst s'. unfold deregister. simpl.
  destruct (release_each_other a (read_nominations a s) s) as (Hc & Ha & Hp).
  unfold core in Hc. injection Hc as Hc _ _ _.
  split; [apply release_each_ext|]. split; [apply release_all|].
  split; [intros b n Hb; by apply release_each_keeps|].
  split; [unfold release_nominations; by rewrite <- Ha|].
  split; [unfold release_nominations; by rewrite <- Hp|].
  intros y m Hin. change (release_nominations a s) with (release_each a (read_nominations a s) s) in Hin.
  rewrite Hc in Hin. by eapply strike_elem.
Qed.

(** An unnomination can be asked for again while it is pending.  A nominator
    with one nomination who asks twice is granted the amount twice when the
    requests are processed, out of whatever else the nominator has reserved. *)
Theorem repeated_unnomination_unreserves_twice s n a x w :
  n ≠ a → nominations s !! (a, n) = Some x → pending_unnominations s !! n = None →
  let unlock := wrap32 (att_block s + wrap32 (ShufflingFrequency * 2)) in
  ∃ s1 s2,
    unnominate (Signed n) a s = Ok tt s1 ∧ unnominate (Signed n) a s1 = Ok tt s2 ∧
    pending_unnominations s2 !! n = Some [(a, x, unlock); (a, x, unlock)] ∧
    att_ext (process_nominator unlock (s2, w) (n, [(a, x, unlock); (a, x, unlock)])).1 =
      att_unreserve n x (att_unreserve n x (att_ext s)).
Proof.
  intros Hne Hx Hp unlock.
  exists (push_unnomination n (a, x, unlock) s),
    (push_unnomination n (a, x, unlock) (push_unnomination n (a, x, unlock) s)).
  split; [by apply unnominate_again|].
  split; [by apply (unnominate_again (push_unnomination n (a, x, unlock) s))|].
  split; [by apply push_unnomination_twice|]. by rewrite process_nominator_twice.
Qed.

(** The block from which a batch can be committed is never set, so that the
    delay of a commitment is counted from the first block of the chain: from
    block 256 on, every commitment pays the last fee raised six times by a
    quarter, and becomes the fee the next one starts from. *)
Theorem commitment_pays_maximal_reward s s' who t proof ev b u :
  0 < CommitteeSize → att_reach s → unambiguous s → 256 ≤ att_block s →
  read_target_event t proof s = Ok ev s →
  List.find (λ b, message_hash b =? event_hash ev) (get_batches_to_commit t s) = Some b →
  0 < last_fee t s ≤ u128_max →
  commit_batch (Signed who) t proof s = Ok u s' →
  last_fee t s' = Nat.iter 6 raise_reward (last_fee t s).
Proof.
  intros HC Hreach Hu Hblock Hev Hf Hfee Hs.
  pose proof (found_available HC s t _ b Hreach Hu Hf) as Hav.
  destruct (commit_found_pays _ _ _ _ _ _ _ _ Hev Hf Hs) as (s1 & s2 & Hpaid & Hpay).
  rewrite Hav, reward_late, delayed_epochs_six in Hpay
    by (unfold saturating_sub, TWO_EPOCHS_IN_LOCAL_BLOCKS; lia).
  replace (last_fee t s1) with (last_fee t s) in Hpay by (unfold last_fee; by rewrite Hpaid).
  eapply pay_submitter_fee; [|exact Hpay]. destruct Hfee as [Hpos Hmax].
  assert (0 ≤ last_fee t s ≤ u128_max) as Hb by (split; [by apply Z.lt_le_incl|done]).
  eapply Z.lt_le_trans; [exact Hpos|]. apply (iter_raise_bounds 6 _ Hb).
Qed.
End Properties.
