(* ===== verification/Clock.v ===== *)
(** * The clock pallet and the shared primitives

    [pallets/clock/src/lib.rs] (rounds) and [primitives/src/common.rs]
    ([RoundInfo], [Range] and [OrderedSet], a set kept as a sorted vector).

    A round is the triple of its index, the block it started at and its length,
    as in the account manager.  Block numbers are [u32] and their difference
    wraps. *)

From S2P Require Import Prelude Types AccountManager.

(** ** Constants and ranges (primitives/src/common.rs) *)

Definition SECONDS_PER_HOUR : Z := 3600.
Definition SECONDS_PER_YEAR : Z := 31557600.
Definition SECONDS_PER_BLOCK : Z := 12.
Definition BLOCKS_PER_HOUR : Z := SECONDS_PER_HOUR / SECONDS_PER_BLOCK.
Definition BLOCKS_PER_DAY : Z := 24 * BLOCKS_PER_HOUR.
Definition BLOCKS_PER_YEAR : Z := SECONDS_PER_YEAR / SECONDS_PER_BLOCK.
Definition DEFAULT_ROUND_TERM : Z := 6 * BLOCKS_PER_HOUR.

Record Range := mkRange { range_min : Z; range_ideal : Z; range_max : Z }.

Definition is_valid (r : Range) : bool :=
  (range_min r <=? range_ideal r) && (range_ideal r <=? range_max r).

(** ** Rounds *)

Definition round_index (r : RoundInfo) : Z := r.1.1.
Definition round_head (r : RoundInfo) : BlockNumber := r.1.2.
Definition round_term (r : RoundInfo) : BlockNumber := r.2.

Definition round_new (index : Z) (head term : BlockNumber) : RoundInfo := (index, head, term).

Definition should_update (r : RoundInfo) (now : BlockNumber) : bool :=
  round_term r <=? wrap32 (now - round_head r).

Definition round_update (r : RoundInfo) (now : BlockNumber) : RoundInfo :=
  (saturating_add u32_max (round_index r) 1, now, round_term r).

Definition default_round : RoundInfo := round_new 1 1 299.

Class ClockConfig := {
  RoundDuration : BlockNumber;
  clock_reads : Z → Z;
  clock_reads_writes : Z → Z → Z;
}.

Inductive ClockEvent := NewRound (index : Z) (head term : BlockNumber).

Record ClockState := mkClock { CurrentRound : Z * Z * Z; clock_events : list ClockEvent }.

Section Clock.
Context `{ClockConfig}.

Definition check_bump_round (n : BlockNumber) (s : ClockState) : ClockState * Z :=
  let past_round := CurrentRound s in
  let new_round := (saturating_add u32_max (round_index past_round) 1, n, RoundDuration) in
  if should_update past_round n then
    (mkClock new_round
       (NewRound (round_index new_round) (round_head new_round) (round_term new_round)
          :: clock_events s), clock_reads_writes 2 1)
  else (s, clock_reads 2).

(** The trait [Clock]. *)
Definition clock_current_round (s : ClockState) : RoundInfo := CurrentRound s.
Definition clock_round_duration : BlockNumber := RoundDuration.
End Clock.

(** [Clock::on_initialize] gives the queues a fifth of a block. *)
Definition clock_on_initialize {S E} (max_block : Z) (process : BlockNumber → Z → M S E Z)
    (n : BlockNumber) : M S E Z := process n (max_block / 5).

(** ** Ordered sets *)

(** [slice::binary_search]: the position of the value, or where to insert it. *)
Fixpoint binary_search_loop (fuel : nat) (v : list Z) (x : Z) (left right : nat)
    : option (nat + nat) :=
  match fuel with
  | O => None
  | S fuel =>
      if Nat.ltb left right then
        let mid := (left + (right - left) / 2)%nat in
        match v !! mid with
        | None => None
        | Some y =>
            match Z.compare y x with
            | Eq => Some (inl mid)
            | Lt => binary_search_loop fuel v x (mid + 1) right
            | Gt => binary_search_loop fuel v x left mid
            end
        end
      else Some (inr left)
  end.

(** Every iteration shortens the range; the length is enough fuel. *)
Definition binary_search (v : list Z) (x : Z) : nat + nat :=
  default (inr 0%nat) (binary_search_loop (S (length v)) v x 0 (length v)).

(** [OrderedSet] is a vector. *)
Definition ordered_set_new : list Z := [].

(** [dedup]: of equal neighbours the first stays. *)
Fixpoint dedup (l : list Z) : list Z :=
  match l with
  | x :: rest =>
      match rest with
      | y :: _ => if x =? y then dedup rest else x :: dedup rest
      | [] => [x]
      end
  | [] => []
  end.

Definition ordered_set_from (v : list Z) : list Z := dedup (merge_sort Z.le v).

(** [Vec::insert]. *)
Definition vec_insert (i : nat) (x : Z) (v : list Z) : list Z := take i v ++ x :: drop i v.

Definition ordered_set_insert (x : Z) (v : list Z) : list Z * bool :=
  match binary_search v x with
  | inl _ => (v, false)
  | inr loc => (vec_insert loc x v, true)
  end.

Definition ordered_set_remove (x : Z) (v : list Z) : list Z * bool :=
  match binary_search v x with
  | inl loc => (delete loc v, true)
  | inr _ => (v, false)
  end.

Definition ordered_set_contains (x : Z) (v : list Z) : bool :=
  match binary_search v x with inl _ => true | inr _ => false end.

Definition ordered_set_clear (_ : list Z) : list Z := [].

(** ** Binary search is correct *)

(** An ordered set: strictly ascending. *)
Definition ascending (v : list Z) : Prop := StronglySorted Z.lt v.

Lemma ascending_lookup v i j x y :
  ascending v → v !! i = Some x → v !! j = Some y → (i < j)%nat → x < y.
Proof.
  intros Hv Hi Hj Hij. rewrite <- (take_drop j v) in Hv.
  eapply StronglySorted_app_1_elem_of; [exact Hv| |].
  - apply (list_elem_of_lookup_2 _ i). by rewrite lookup_take_lt.
  - apply (list_elem_of_lookup_2 _ 0). by rewrite lookup_drop, Nat.add_0_r.
Qed.

Lemma ascending_NoDup v : ascending v → NoDup v.
Proof.
  induction 1 as [|x v Hv IH Hx]; constructor; [|done]. intros Hin.
  rewrite Forall_forall in Hx. specialize (Hx x Hin). lia.
Qed.

(** What the search finds: the value, or the place before all larger ones. *)
Definition search_result (v : list Z) (x : Z) (r : nat + nat) : Prop :=
  match r with
  | inl i => v !! i = Some x
  | inr i => (i ≤ length v)%nat ∧ (∀ j y, v !! j = Some y → (j < i)%nat → y < x) ∧
             (∀ j y, v !! j = Some y → (i ≤ j)%nat → x < y)
  end.

Lemma binary_search_loop_ok fuel v x left right :
  ascending v → (left ≤ right ≤ length v)%nat → (right - left < fuel)%nat →
  (∀ j y, v !! j = Some y → (j < left)%nat → y < x) →
  (∀ j y, v !! j = Some y → (right ≤ j)%nat → x < y) →
  ∃ r, binary_search_loop fuel v x left right = Some r ∧ search_result v x r.
Proof.
  intros Hv. revert left right. induction fuel as [|fuel IH]; intros left right Hlr Hf Hl Hr; [lia|].
  cbn [binary_search_loop]. destruct (Nat.ltb_spec left right) as [Hlt|Hge].
  - set (mid := (left + (right - left) / 2)%nat).
    assert (left ≤ mid < right)%nat as Hmid.
    { subst mid. pose proof (Nat.div_lt (right - left) 2). lia. }
    destruct (lookup_lt_is_Some_2 v mid) as [y Hy]; [lia|]. rewrite Hy.
    destruct (Z.compare_spec y x) as [->|Hyx|Hyx]; [by eexists| |].
    + apply IH; [lia|lia| |done]. intros j z Hz Hj. destruct (decide (j = mid)) as [->|].
      * congruence.
      * destruct (decide (j < mid)%nat); [|lia].
        pose proof (ascending_lookup v j mid z y Hv Hz Hy). lia.
    + apply IH; [lia|lia|done|]. intros j z Hz Hj. destruct (decide (j = mid)) as [->|].
      * congruence.
      * pose proof (ascending_lookup v mid j y z Hv Hy Hz). lia.
  - exists (inr left). split; [done|]. assert (left = right) as -> by lia. by split; [lia|].
Qed.

Lemma binary_search_ok v x : ascending v → search_result v x (binary_search v x).
Proof.
  intros Hv. unfold binary_search.
  destruct (binary_search_loop_ok (S (length v)) v x 0 (length v)) as (r & -> & Hr);
    [done|lia|lia|intros; lia| |done].
  intros j y Hj Hle. apply lookup_lt_Some in Hj. lia.
Qed.

Lemma binary_search_elem v x : ascending v →
  match binary_search v x with inl _ => x ∈ v | inr _ => x ∉ v end.
Proof.
  intros Hv. pose proof (binary_search_ok v x Hv) as Hr. destruct (binary_search v x) as [i|i].
  - by eapply list_elem_of_lookup_2.
  - destruct Hr as (_ & Hlt & Hge). intros [j Hj]%list_elem_of_lookup.
    destruct (decide (j < i)%nat); [specialize (Hlt j x Hj)|specialize (Hge j x Hj)]; lia.
Qed.

Lemma vec_insert_elem i x v y : y ∈ vec_insert i x v ↔ y = x ∨ y ∈ v.
Proof.
  unfold vec_insert. rewrite <- (take_drop i v) at 3. set_solver.
Qed.

Lemma vec_insert_ascending i x v :
  ascending v → search_result v x (inr i) → ascending (vec_insert i x v).
Proof.
  intros Hv (_ & Hlt & Hge). unfold ascending, vec_insert.
  assert (∀ y, y ∈ take i v → y < x) as Hl.
  { intros y [j Hj]%list_elem_of_lookup. apply lookup_take_Some in Hj as [Hj Hji].
    by eapply Hlt. }
  assert (∀ y, y ∈ drop i v → x < y) as Hr.
  { intros y [j Hj]%list_elem_of_lookup. rewrite lookup_drop in Hj.
    eapply Hge; [done|]. lia. }
  rewrite <- (take_drop i v) in Hv. apply StronglySorted_app in Hv as (Hcross & Htake & Hdrop).
  apply StronglySorted_app. split; [|split; [done|]].
  - intros y1 y2 Hy1 Hy2. apply elem_of_cons in Hy2 as [->|Hy2]; [by apply Hl|by apply Hcross].
  - constructor; [done|]. apply Forall_forall. exact Hr.
Qed.

Lemma delete_ascending i v : ascending v → ascending (delete i v).
Proof. apply StronglySorted_sublist, sublist_delete. Qed.

Lemma delete_elem i x v y :
  ascending v → v !! i = Some x → y ∈ delete i v ↔ y ∈ v ∧ y ≠ x.
Proof.
  intros Hv%ascending_NoDup Hi. apply delete_Permutation in Hi.
  pose proof Hv as Hnd. rewrite Hi in Hnd. apply NoDup_cons in Hnd as [Hx _].
  assert (y ∈ v ↔ y = x ∨ y ∈ delete i v) as -> by (rewrite <- elem_of_cons; by rewrite <- Hi).
  split; [|naive_solver]. intros Hy. split; [by right|]. by intros ->.
Qed.

Lemma dedup_elem l x : x ∈ dedup l ↔ x ∈ l.
Proof.
  induction l as [|y [|z l] IH]; [done..|]. cbn [dedup]. destruct (Z.eqb_spec y z) as [->|].
  - rewrite IH. set_solver.
  - set_solver.
Qed.

Lemma dedup_ascending l : StronglySorted Z.le l → ascending (dedup l).
Proof.
  induction 1 as [|y l Hl IH Hy]; [constructor|]. destruct l as [|z l]; [constructor; constructor|].
  change (ascending (if y =? z then dedup (z :: l) else y :: dedup (z :: l))).
  destruct (Z.eqb_spec y z) as [->|Hne]; [done|]. constructor; [done|].
  apply Forall_forall. intros w Hw. rewrite dedup_elem in Hw. rewrite Forall_forall in Hy.
  inversion Hl as [|? ? _ Hz]; subst. rewrite Forall_forall in Hz.
  assert (y ≤ z) by (apply Hy; left). apply elem_of_cons in Hw as [->|Hw]; [lia|].
  specialize (Hz w Hw). lia.
Qed.

(** Every iteration at least halves the range. *)
Lemma binary_search_loop_halves k v x left right :
  (left ≤ right ≤ length v)%nat → (right - left < 2 ^ k)%nat →
  is_Some (binary_search_loop (S k) v x left right).
Proof.
  revert left right. induction k as [|k IH]; intros left right Hlr Hk.
  { simpl in Hk. cbn [binary_search_loop]. destruct (Nat.ltb_spec left right); [lia|by eexists]. }
  cbn [binary_search_loop]. destruct (Nat.ltb_spec left right) as [Hlt|]; [|by eexists].
  set (half := ((right - left) / 2)%nat).
  assert (2 * half ≤ right - left < 2 * half + 2)%nat as Hh.
  { subst half. pose proof (Nat.div_mod (right - left) 2). pose proof (Nat.mod_upper_bound (right - left) 2).
    lia. }
  rewrite Nat.pow_succ_r' in Hk. destruct (lookup_lt_is_Some_2 v (left + half)) as [y ->]; [lia|].
  destruct (y ?= x); [by eexists| |]; apply IH; lia.
Qed.

(** ** Properties *)

(** The operations of [OrderedSet] refine the operations of a set.  Built
    from any vector it is strictly ascending and has the elements of the vector;
    inserting and removing keep it ascending, change the set of its elements
    accordingly and report whether they did; and a value is found exactly when
    it is an element.  The binary search always ends. *)
Theorem ordered_set_refines_set v x :
  (ascending (ordered_set_from v) ∧ ∀ y, y ∈ ordered_set_from v ↔ y ∈ v) ∧
  (ascending v →
    (ordered_set_contains x v = true ↔ x ∈ v) ∧
    (let '(v', inserted) := ordered_set_insert x v in
     ascending v' ∧ (∀ y, y ∈ v' ↔ y = x ∨ y ∈ v) ∧ (inserted = true ↔ x ∉ v)) ∧
    (let '(v', removed) := ordered_set_remove x v in
     ascending v' ∧ (∀ y, y ∈ v' ↔ y ∈ v ∧ y ≠ x) ∧ (removed = true ↔ x ∈ v))).
Proof.
  split.
  { unfold ordered_set_from. split; [apply dedup_ascending, StronglySorted_merge_sort; apply _|].
    intros y. by rewrite dedup_elem, merge_sort_Permutation. }
  intros Hv. pose proof (binary_search_ok v x Hv) as Hr. pose proof (binary_search_elem v x Hv) as He.
  unfold ordered_set_contains, ordered_set_insert, ordered_set_remove.
  destruct (binary_search v x) as [i|i].
  - split; [done|]. split; [split; [done|]; split; [set_solver|naive_solver]|].
    split; [by apply delete_ascending|]. split; [|done]. intros y. by apply delete_elem.
  - split; [naive_solver|]. split.
    + split; [by apply vec_insert_ascending|]. split; [|done]. intros y. apply vec_insert_elem.
    + split; [done|]. split; [set_solver|naive_solver].
Qed.

(** A round lasts its term and is then followed by the next one.  While less
    than the term has passed the clock keeps the round; from then on the next
    check starts the round with the next index at the current block, with the
    configured length, and announces it. *)
Theorem round_advances `{ClockConfig} s n :
  is_u32 n → 0 ≤ round_head (CurrentRound s) ≤ n →
  let s' := (check_bump_round n s).1 in
  let r := CurrentRound s in
  (n < round_head r + round_term r → s' = s) ∧
  (round_head r + round_term r ≤ n → round_index r < u32_max →
   CurrentRound s' = (round_index r + 1, n, RoundDuration) ∧
   clock_events s' = NewRound (round_index r + 1) n RoundDuration :: clock_events s).
Proof.
  intros Hn Hh s' r. subst s' r. unfold check_bump_round, should_update, wrap32.
  unfold is_u32, u32_max in *. rewrite Z.mod_small by lia.
  destruct (Z.leb_spec (round_term (CurrentRound s)) (n - round_head (CurrentRound s))).
  - split; [lia|]. intros _ Hi. simpl. unfold saturating_add.
    rewrite !Z.min_r by lia. done.
  - split; [done|lia].
Qed.

