(* ===== verification/Rewards.v ===== *)
(** * The rewards pallet

    [pallets/rewards/src/lib.rs] and [primitives/src/claimable.rs]: the yearly
    inflation is distributed to attesters, collators and executors, settled
    executions and repatriations become pending claims, and accounts claim them.

    - The pallet works on the state of the account manager ([AMState], with the
      ledger and the current round of the clock) and reads the attesters through
      the class [AttestersReadApi].
    - A [Perbill] is a number of billionths, a [Percent] of hundredths;
      [Perbill::from_rational] and the currency are library code, taken from the
      class [RewardsConfig].
    - [AccumulatedSettlements] is hashed with [Identity]: the native entries are
      iterated in the order of the accounts.  A [BTreeMap] of authors is iterated
      in the order of its keys. *)

From S2P Require Import Prelude Types AccountManager World Batches.

(** ** Data *)

(** [ClaimableArtifacts] (primitives/src/claimable.rs). *)
Record ClaimableArtifacts := mkClaim {
  beneficiary : AccountId;
  claim_role : CircuitRole;
  total_round_claim : Balance;
  non_native_asset_id : option AssetId;
  benefit_source : BenefitSource;
}.

#[export] Instance ClaimableArtifacts_eq_dec : EqDecision ClaimableArtifacts.
Proof. solve_decision. Defined.

Inductive AssetType := Native | NonNative (id : AssetId).

#[export] Instance AssetType_eq_dec : EqDecision AssetType.
Proof. solve_decision. Defined.
#[export] Instance AssetType_countable : Countable AssetType.
Proof.
  refine (inj_countable' (λ t, match t with Native => None | NonNative i => Some i end)
            (λ o, match o with None => Native | Some i => NonNative i end) _).
  by intros [].
Defined.

Record DistributionRecord := mkDistribution {
  dr_block_number : BlockNumber;
  dr_attester_rewards : Balance;
  dr_collator_rewards : Balance;
  dr_executor_rewards : Balance;
  dr_treasury_rewards : Balance;
  dr_available : Balance;
  dr_distributed : Balance;
}.

Record TreasuryBalanceSheet := mkSheet {
  sheet_treasury : Balance;
  sheet_escrow : Balance;
  sheet_fee : Balance;
  sheet_slash : Balance;
  sheet_parachain : Balance;
}.

Inductive RewardsEvent :=
| NewMaxRewardExecutorsKickbackSet (old_kickback new_kickback : Z)
| Claimed (who : AccountId) (total : list (Balance * option AssetId))
| PendingClaim (who : AccountId) (reward : Balance).

Record RewState (B T : Type) := mkRewards {
  rw_am : AMState B;
  rw_att : T;
  rw_block : BlockNumber;
  authors : gmap Z Z;
  authors_this_period : gmap Z Z;
  accumulated_settlements : gmap (Z * AssetType) Balance;
  estimated_treasury_balance : TreasuryBalanceSheet;
  repatriation_percentage : Z;
  DistributionBlock : option BlockNumber;
  DistributionHistory : list DistributionRecord;
  IsDistributionHalted : bool;
  IsSettlementAccumulationHalted : bool;
  LastProcessedRound : option (Z * Z * Z);
  MaxRewardExecutorsKickback : Z;
  IsClaimingHalted : bool;
  pending_claims : gmap Z (list ClaimableArtifacts);
  rw_events : list RewardsEvent;
}.
Arguments mkRewards {B T}.
Arguments rw_am {B T}.
Arguments rw_att {B T}.
Arguments rw_block {B T}.
Arguments authors {B T}.
Arguments authors_this_period {B T}.
Arguments accumulated_settlements {B T}.
Arguments estimated_treasury_balance {B T}.
Arguments repatriation_percentage {B T}.
Arguments DistributionBlock {B T}.
Arguments DistributionHistory {B T}.
Arguments IsDistributionHalted {B T}.
Arguments IsSettlementAccumulationHalted {B T}.
Arguments LastProcessedRound {B T}.
Arguments MaxRewardExecutorsKickback {B T}.
Arguments IsClaimingHalted {B T}.
Arguments pending_claims {B T}.
Arguments rw_events {B T}.

Section RewStateSetters.
Context {B T : Type}.
Definition set_rw_am (v : AMState B) (s : RewState B T) : RewState B T :=
  mkRewards v (rw_att s) (rw_block s) (authors s) (authors_this_period s)
    (accumulated_settlements s) (estimated_treasury_balance s) (repatriation_percentage s)
    (DistributionBlock s) (DistributionHistory s) (IsDistributionHalted s)
    (IsSettlementAccumulationHalted s) (LastProcessedRound s) (MaxRewardExecutorsKickback s)
    (IsClaimingHalted s) (pending_claims s) (rw_events s).
Definition set_rw_att (v : T) (s : RewState B T) : RewState B T :=
  mkRewards (rw_am s) v (rw_block s) (authors s) (authors_this_period s)
    (accumulated_settlements s) (estimated_treasury_balance s) (repatriation_percentage s)
    (DistributionBlock s) (DistributionHistory s) (IsDistributionHalted s)
    (IsSettlementAccumulationHalted s) (LastProcessedRound s) (MaxRewardExecutorsKickback s)
    (IsClaimingHalted s) (pending_claims s) (rw_events s).
Definition set_rw_block (v : BlockNumber) (s : RewState B T) : RewState B T :=
  mkRewards (rw_am s) (rw_att s) v (authors s) (authors_this_period s)
    (accumulated_settlements s) (estimated_treasury_balance s) (repatriation_percentage s)
    (DistributionBlock s) (DistributionHistory s) (IsDistributionHalted s)
    (IsSettlementAccumulationHalted s) (LastProcessedRound s) (MaxRewardExecutorsKickback s)
    (IsClaimingHalted s) (pending_claims s) (rw_events s).
Definition set_authors (v : gmap Z Z) (s : RewState B T) : RewState B T :=
  mkRewards (rw_am s) (rw_att s) (rw_block s) v (authors_this_period s)
    (accumulated_settlements s) (estimated_treasury_balance s) (repatriation_percentage s)
    (DistributionBlock s) (DistributionHistory s) (IsDistributionHalted s)
    (IsSettlementAccumulationHalted s) (LastProcessedRound s) (MaxRewardExecutorsKickback s)
    (IsClaimingHalted s) (pending_claims s) (rw_events s).
Definition set_authors_this_period (v : gmap Z Z) (s : RewState B T) : RewState B T :=
  mkRewards (rw_am s) (rw_att s) (rw_block s) (authors s) v (accumulated_settlements s)
    (estimated_treasury_balance s) (repatriation_percentage s) (DistributionBlock s)
    (DistributionHistory s) (IsDistributionHalted s) (IsSettlementAccumulationHalted s)
    (LastProcessedRound s) (MaxRewardExecutorsKickback s) (IsClaimingHalted s) (pending_claims
    s) (rw_events s).
Definition set_accumulated (v : gmap (Z * AssetType) Balance) (s : RewState B T) : RewState B T :=
  mkRewards (rw_am s) (rw_att s) (rw_block s) (authors s) (authors_this_period s) v
    (estimated_treasury_balance s) (repatriation_percentage s) (DistributionBlock s)
    (DistributionHistory s) (IsDistributionHalted s) (IsSettlementAccumulationHalted s)
    (LastProcessedRound s) (MaxRewardExecutorsKickback s) (IsClaimingHalted s) (pending_claims
    s) (rw_events s).
Definition set_estimated_balance (v : TreasuryBalanceSheet) (s : RewState B T) : RewState B T :=
  mkRewards (rw_am s) (rw_att s) (rw_block s) (authors s) (authors_this_period s)
    (accumulated_settlements s) v (repatriation_percentage s) (DistributionBlock s)
    (DistributionHistory s) (IsDistributionHalted s) (IsSettlementAccumulationHalted s)
    (LastProcessedRound s) (MaxRewardExecutorsKickback s) (IsClaimingHalted s) (pending_claims
    s) (rw_events s).
Definition set_repatriation_percentage (v : Z) (s : RewState B T) : RewState B T :=
  mkRewards (rw_am s) (rw_att s) (rw_block s) (authors s) (authors_this_period s)
    (accumulated_settlements s) (estimated_treasury_balance s) v (DistributionBlock s)
    (DistributionHistory s) (IsDistributionHalted s) (IsSettlementAccumulationHalted s)
    (LastProcessedRound s) (MaxRewardExecutorsKickback s) (IsClaimingHalted s) (pending_claims
    s) (rw_events s).
Definition set_DistributionBlock (v : option BlockNumber) (s : RewState B T) : RewState B T :=
  mkRewards (rw_am s) (rw_att s) (rw_block s) (authors s) (authors_this_period s)
    (accumulated_settlements s) (estimated_treasury_balance s) (repatriation_percentage s) v
    (DistributionHistory s) (IsDistributionHalted s) (IsSettlementAccumulationHalted s)
    (LastProcessedRound s) (MaxRewardExecutorsKickback s) (IsClaimingHalted s) (pending_claims
    s) (rw_events s).
Definition set_DistributionHistory (v : list DistributionRecord) (s : RewState B T) : RewState B T :=
  mkRewards (rw_am s) (rw_att s) (rw_block s) (authors s) (authors_this_period s)
    (accumulated_settlements s) (estimated_treasury_balance s) (repatriation_percentage s)
    (DistributionBlock s) v (IsDistributionHalted s) (IsSettlementAccumulationHalted s)
    (LastProcessedRound s) (MaxRewardExecutorsKickback s) (IsClaimingHalted s) (pending_claims
    s) (rw_events s).
Definition set_IsDistributionHalted (v : bool) (s : RewState B T) : RewState B T :=
  mkRewards (rw_am s) (rw_att s) (rw_block s) (authors s) (authors_this_period s)
    (accumulated_settlements s) (estimated_treasury_balance s) (repatriation_percentage s)
    (DistributionBlock s) (DistributionHistory s) v (IsSettlementAccumulationHalted s)
    (LastProcessedRound s) (MaxRewardExecutorsKickback s) (IsClaimingHalted s) (pending_claims
    s) (rw_events s).
Definition set_IsSettlementAccumulationHalted (v : bool) (s : RewState B T) : RewState B T :=
  mkRewards (rw_am s) (rw_att s) (rw_block s) (authors s) (authors_this_period s)
    (accumulated_settlements s) (estimated_treasury_balance s) (repatriation_percentage s)
    (DistributionBlock s) (DistributionHistory s) (IsDistributionHalted s) v
    (LastProcessedRound s) (MaxRewardExecutorsKickback s) (IsClaimingHalted s) (pending_claims
    s) (rw_events s).
Definition set_LastProcessedRound (v : option (Z * Z * Z)) (s : RewState B T) : RewState B T :=
  mkRewards (rw_am s) (rw_att s) (rw_block s) (authors s) (authors_this_period s)
    (accumulated_settlements s) (estimated_treasury_balance s) (repatriation_percentage s)
    (DistributionBlock s) (DistributionHistory s) (IsDistributionHalted s)
    (IsSettlementAccumulationHalted s) v (MaxRewardExecutorsKickback s) (IsClaimingHalted s)
    (pending_claims s) (rw_events s).
Definition set_MaxRewardExecutorsKickback (v : Z) (s : RewState B T) : RewState B T :=
  mkRewards (rw_am s) (rw_att s) (rw_block s) (authors s) (authors_this_period s)
    (accumulated_settlements s) (estimated_treasury_balance s) (repatriation_percentage s)
    (DistributionBlock s) (DistributionHistory s) (IsDistributionHalted s)
    (IsSettlementAccumulationHalted s) (LastProcessedRound s) v (IsClaimingHalted s)
    (pending_claims s) (rw_events s).
Definition set_IsClaimingHalted (v : bool) (s : RewState B T) : RewState B T :=
  mkRewards (rw_am s) (rw_att s) (rw_block s) (authors s) (authors_this_period s)
    (accumulated_settlements s) (estimated_treasury_balance s) (repatriation_percentage s)
    (DistributionBlock s) (DistributionHistory s) (IsDistributionHalted s)
    (IsSettlementAccumulationHalted s) (LastProcessedRound s) (MaxRewardExecutorsKickback s) v
    (pending_claims s) (rw_events s).
Definition set_pending_claims (v : gmap Z (list ClaimableArtifacts)) (s : RewState B T) : RewState B T :=
  mkRewards (rw_am s) (rw_att s) (rw_block s) (authors s) (authors_this_period s)
    (accumulated_settlements s) (estimated_treasury_balance s) (repatriation_percentage s)
    (DistributionBlock s) (DistributionHistory s) (IsDistributionHalted s)
    (IsSettlementAccumulationHalted s) (LastProcessedRound s) (MaxRewardExecutorsKickback s)
    (IsClaimingHalted s) v (rw_events s).
Definition set_rw_events (v : list RewardsEvent) (s : RewState B T) : RewState B T :=
  mkRewards (rw_am s) (rw_att s) (rw_block s) (authors s) (authors_this_period s)
    (accumulated_settlements s) (estimated_treasury_balance s) (repatriation_percentage s)
    (DistributionBlock s) (DistributionHistory s) (IsDistributionHalted s)
    (IsSettlementAccumulationHalted s) (LastProcessedRound s) (MaxRewardExecutorsKickback s)
    (IsClaimingHalted s) (pending_claims s) v.
End RewStateSetters.

(** ** What the pallet reads and calls *)

(** [AttestersReadApi], as far as it is used. *)
Class AttestersReadApi (T : Type) := {
  api_honest_active_set : T → list AccountId;
  api_active_set : T → list AccountId;
  api_read_attester_info : T → AccountId → option AttesterInfo;
  api_read_nominations : T → AccountId → list (AccountId * Balance);
}.

Class RewardsConfig (B : Type) := {
  (** Billionths. *)
  TotalInflation : Z;
  AttesterInflation : Z;
  ExecutorInflation : Z;
  CollatorInflation : Z;
  TreasuryInflation : Z;
  OneYear : BlockNumber;
  InflationDistributionPeriod : BlockNumber;
  StartingRepatriationPercentage : Z;
  rewards_treasury : TreasuryAccount → AccountId;
  rw_reads : Z → Z;
  rw_reads_writes : Z → Z → Z;
  (** [Perbill::from_rational], an approximation of the fraction. *)
  perbill_from_rational : Z → Z → Z;
  total_issuance : B → Balance;
  (** [ensure_can_withdraw(who, amount, TRANSFER, new_balance).is_ok()]. *)
  ensure_can_withdraw : AccountId → Balance → Balance → B → bool;
  (** [withdraw(who, amount, TRANSFER, KeepAlive)]. *)
  withdraw_transfer : AccountId → Balance → B → result DispatchError B;
}.

(** [Perbill::mul_ceil]. *)
Definition perbill_mul_ceil (p x : Z) : Z := (p * x + (10 ^ 9 - 1)) / 10 ^ 9.

Definition MAX_AUTHORS : nat := 512.

Section Rewards.
Context {B T : Type} `{Ledger B} `{AMConfig} `{RewardsConfig B} `{AttestersReadApi T}.
Abbreviation S := (RewState B T).
Abbreviation D := (M (RewState B T) DispatchError).
Implicit Types s : RewState B T.

Definition rw_emit (e : RewardsEvent) s : S := set_rw_events (e :: rw_events s) s.
Definition rw_bank s : B := bank (rw_am s).
Definition set_rw_bank (b : B) s : S := set_rw_am (set_bank b (rw_am s)) s.

(** ** Pending claims *)

Definition same_claim (r : CircuitRole) (src : BenefitSource) (asset : option AssetId)
    (c : ClaimableArtifacts) : Prop :=
  claim_role c = r ∧ benefit_source c = src ∧ non_native_asset_id c = asset.
#[export] Instance same_claim_dec r src asset c : Decision (same_claim r src asset c).
Proof. unfold same_claim. apply _. Defined.

Definition set_claim_amount (n : Balance) (c : ClaimableArtifacts) : ClaimableArtifacts :=
  mkClaim (beneficiary c) (claim_role c) n (non_native_asset_id c) (benefit_source c).

Definition add_to_pending_claims (account : AccountId) (r : CircuitRole) (reward : Balance)
    (src : BenefitSource) (asset : option AssetId) s : S :=
  let claims := default [] (pending_claims s !! account) in
  let claims :=
    match list_find (same_claim r src asset) claims with
    | Some (i, c) =>
        <[i := set_claim_amount (saturating_add u128_max reward (total_round_claim c)) c]> claims
    | None => claims ++ [mkClaim account r reward asset src]
    end in
  rw_emit (PendingClaim account reward)
    (set_pending_claims (<[account := claims]> (pending_claims s)) s).

Definition update_pending_claims (account : AccountId) (r : CircuitRole) (reward : Balance)
    (src : BenefitSource) (asset : option AssetId) s : S :=
  let claims := default [] (pending_claims s !! account) ++ [mkClaim account r reward asset src] in
  rw_emit (PendingClaim account reward)
    (set_pending_claims (<[account := claims]> (pending_claims s)) s).

(** ** Distribution of the inflation *)

(** [None] is a division by zero ([checked_div]). *)
Definition nominator_reward (remaining balance total : Balance) : option Balance :=
  if total =? 0 then None else Some (Z.min u128_max (remaining * balance) / total).

Definition reward_nominator (remaining total : Balance) s (nb : AccountId * Balance) : S :=
  match nominator_reward remaining nb.2 total with
  | Some reward => update_pending_claims nb.1 Staker reward Inflation None s
  | None => s
  end.

Definition distribute_to_nominators (remaining : Balance) (nominators : list (AccountId * Balance))
    s : S :=
  let total := fold_left (λ acc nb, saturating_add u128_max acc nb.2) nominators 0 in
  fold_left (reward_nominator remaining total) nominators s.

Definition reward_attester (reward_per_attester : Balance) s (attester : AccountId) : S :=
  match api_read_attester_info (rw_att s) attester with
  | None => s
  | Some info =>
      let commission_reward := percent_mul_ceil (commission info) reward_per_attester in
      let s := update_pending_claims attester Attester commission_reward Inflation None s in
      distribute_to_nominators (saturating_sub reward_per_attester commission_reward)
        (api_read_nominations (rw_att s) attester) s
  end.

Definition distribute_attester_rewards (current_distribution : Balance) s : S * Balance :=
  let honest := api_honest_active_set (rw_att s) in
  let active_set_size := Z.of_nat (length (api_active_set (rw_att s))) in
  let total_attesters := Z.of_nat (length honest) in
  if total_attesters =? 0 then (s, 0)
  else
    let reward_per_attester := current_distribution / active_set_size in
    (fold_left (reward_attester reward_per_attester) honest s,
     Z.min u128_max (total_attesters * reward_per_attester)).

Definition author_reward (current_distribution : Balance) (block_count : Z) : Balance :=
  perbill_mul_ceil (perbill_from_rational block_count InflationDistributionPeriod)
    current_distribution.

Definition reward_author (current_distribution : Balance) (sd : S * Balance)
    (ac : AccountId * Z) : S * Balance :=
  let reward := author_reward current_distribution ac.2 in
  (update_pending_claims ac.1 Collator reward Inflation None sd.1,
   saturating_add u128_max sd.2 reward).

Definition distribute_collator_rewards (current_distribution : Balance) s : S * Balance :=
  fold_left (reward_author current_distribution) (storage_iter (authors_this_period s)) (s, 0).

(** The native entries of [AccumulatedSettlements], by account. *)
Definition native_settlements s : list (AccountId * Balance) :=
  merge_sort key_le
    (omap (λ kv : (Z * AssetType) * Balance,
             if bool_decide (kv.1.2 = Native) then Some (kv.1.1, kv.2) else None)
          (map_to_list (accumulated_settlements s))).

Fixpoint total_settled (acc : Balance) (l : list (AccountId * Balance)) : option Balance :=
  match l with
  | [] => Some acc
  | (_, x) :: rest => acc ← checked_add u128_max acc x; total_settled acc rest
  end.

Definition total_settled_executions_this_round (l : list (AccountId * Balance))
    : result DispatchError Balance :=
  match total_settled 0 l with
  | Some t => ROk t
  | None => RErr (RewardsModuleError RewardsArithmeticOverflow)
  end.

Definition executions_proportionally_of_total_this_round (l : list (AccountId * Balance))
    (total : Balance) : list (AccountId * Balance * Z) :=
  map (λ es, (es, perbill_from_rational es.2 total)) l.

(** [AccumulatedSettlements::remove_prefix]. *)
Definition forget_settlements (who : AccountId) s : S :=
  set_accumulated (filter (λ kv, kv.1.1 ≠ who) (accumulated_settlements s)) s.

Definition executor_reward (current_distribution settlement proportion kickback : Z) : Balance :=
  Z.min (perbill_mul_ceil proportion current_distribution) (percent_mul_ceil kickback settlement).

Definition reward_executor (current_distribution kickback : Z) (sd : S * Balance)
    (p : AccountId * Balance * Z) : S * Balance :=
  let '(executor, settlement, proportion) := p in
  let reward := executor_reward current_distribution settlement proportion kickback in
  (forget_settlements executor
     (update_pending_claims executor Executor reward Inflation None sd.1),
   wrap128 (sd.2 + reward)).

Definition distribute_executor_rewards (current_distribution : Balance) s : S * Balance :=
  let kickback := MaxRewardExecutorsKickback s in
  if kickback =? 0 then (s, 0)
  else
    let settlements := native_settlements s in
    match total_settled_executions_this_round settlements with
    | RErr _ => (s, 0)
    | ROk total =>
        fold_left (reward_executor current_distribution kickback)
          (executions_proportionally_of_total_this_round settlements total) (s, 0)
    end.

Definition balance_for_distribution s : Balance :=
  perbill_mul_ceil (perbill_from_rational InflationDistributionPeriod OneYear)
    (perbill_mul_ceil TotalInflation (total_issuance (rw_bank s))).

Definition distribute_inflation s : S * Z :=
  if IsDistributionHalted s then (s, rw_reads 1)
  else
    let available := balance_for_distribution s in
    let attester_rewards := perbill_mul_ceil AttesterInflation available in
    let executor_rewards := perbill_mul_ceil ExecutorInflation available in
    let collator_rewards := perbill_mul_ceil CollatorInflation available in
    let treasury_rewards := perbill_mul_ceil TreasuryInflation available in
    let '(s, attester_distributed) := distribute_attester_rewards attester_rewards s in
    let '(s, collator_distributed) := distribute_collator_rewards collator_rewards s in
    let '(s, executor_distributed) := distribute_executor_rewards executor_rewards s in
    let s := set_rw_bank
      (deposit_creating (rewards_treasury TreasuryParachain) treasury_rewards (rw_bank s)) s in
    let s := set_DistributionBlock (Some (rw_block s)) s in
    let record :=
      {| dr_block_number := rw_block s; dr_attester_rewards := attester_distributed;
         dr_collator_rewards := collator_distributed; dr_executor_rewards := executor_distributed;
         dr_treasury_rewards := treasury_rewards;
         dr_distributed := wrap128 (attester_distributed + collator_distributed
                                    + executor_distributed + treasury_rewards);
         dr_available := available |} in
    (set_DistributionHistory (DistributionHistory s ++ [record]) s, rw_reads_writes 8 8).

(** ** Settlements *)

Definition executions_this_round s : list (AccountId * Settlement) :=
  get_settlements_by_role Executor (rw_am s).

Definition asset_type (asset : option AssetId) : AssetType :=
  match asset with Some i => NonNative i | None => Native end.

Definition accumulate (s : S) (es : AccountId * Settlement) : S :=
  let '(executor, settlement) := es in
  let amount := settlement_amount settlement in
  let s := add_to_pending_claims executor Executor amount TrafficRewards
             (st_maybe_asset_id settlement) s in
  let key := (executor, asset_type (st_maybe_asset_id settlement)) in
  let accumulated :=
    match accumulated_settlements s !! key with
    | Some a => saturating_add u128_max a amount
    | None => amount
    end in
  set_accumulated (<[key := accumulated]> (accumulated_settlements s)) s.

Definition process_accumulated_settlements s : S * Z :=
  if IsSettlementAccumulationHalted s then (s, rw_reads_writes 1 0)
  else if bool_decide (LastProcessedRound s = Some (current_round (rw_am s)))
  then (s, rw_reads_writes 2 0)
  else
    let executions := executions_this_round s in
    let round := current_round (rw_am s) in
    let s := fold_left accumulate executions s in
    (set_LastProcessedRound (Some round) s,
     wrap64 (Z.of_nat (length executions) * rw_reads_writes 1 1)).

(** ** Authors *)

(** [iter().min_by(|a, b| a.1.cmp(b.1))]: the first of the smallest. *)
Definition min_author (m : gmap Z Z) : option AccountId :=
  let smaller := λ (best : option (Z * Z)) (x : Z * Z),
    match best with
    | Some b => if x.2 <? b.2 then Some x else Some b
    | None => Some x
    end in
  fst <$> fold_left smaller (storage_iter m) None.

Definition count_author (author : AccountId) (m : gmap Z Z) : gmap Z Z :=
  <[author := wrap32 (default 0 (m !! author) + 1)]> m.

Definition process_author (author : option AccountId) s : S * (bool * Z) :=
  match author with
  | None => (s, (false, rw_reads_writes 1 0))
  | Some a =>
      let m := count_author a (authors_this_period s) in
      let m := if Nat.ltb MAX_AUTHORS (size m)
               then delete (default (rewards_treasury TreasuryEscrow) (min_author m)) m else m in
      (set_authors_this_period m s, (true, rw_reads_writes 2 2))
  end.

Definition find_inactive_authors (current_session_validators : list AccountId) s
    : list AccountId :=
  map fst (List.filter (λ ac, negb (bool_decide (ac.1 ∈ current_session_validators)))
             (storage_iter (authors_this_period s))).

Definition process_authors_this_period s : S * Z :=
  let m := fold_left (λ m ac, <[ac.1 := wrap32 (default 0 (m !! ac.1) + ac.2)]> m)
             (storage_iter (authors_this_period s)) (authors s) in
  (set_authors_this_period ∅ (set_authors m s), rw_reads_writes 2 2).

Definition process_update_estimated_treasury_balance s : S * Z :=
  let balance := λ t, free_balance (rw_bank s) (rewards_treasury t) in
  (set_estimated_balance
     (mkSheet (balance TreasuryMain) (balance TreasuryEscrow) (balance TreasuryFee)
        (balance TreasurySlash) (balance TreasuryParachain)) s, rw_reads_writes 1 1).

(** ** Repatriation ([RewardsWriteApi]) *)

(** [Perbill::from_percent(200)] saturates at one. *)
Definition max_repatriation (fsx : FullSideEffect) : Balance :=
  perbill_mul_ceil (10 ^ 9) (sfx_max_reward (fsx_input fsx)).

Definition amount_to_be_repatriated (fsx : FullSideEffect) s : Balance :=
  let slash_treasury_balance := free_balance (rw_bank s) (rewards_treasury TreasurySlash) in
  Z.min (max_repatriation fsx)
    (percent_mul_ceil (repatriation_percentage s) slash_treasury_balance / 2).

Definition repatriation_beneficiary (fsx : FullSideEffect) (status : CircuitStatus)
    (requester : option AccountId) : option AccountId * CircuitRole :=
  match status with
  | Committed => (requester, Requester)
  | _ => (sfx_enforce_executor (fsx_input fsx), Executor)
  end.

(** The withdrawal that fails is the [expect]. *)
Definition repatriate_for_faulty_or_missing_attestation (sfx_id : Hash) (fsx : FullSideEffect)
    (status : CircuitStatus) (requester : option AccountId) : D bool :=
  s ← gets id;
  let slash_account := rewards_treasury TreasurySlash in
  let balance := free_balance (rw_bank s) slash_account in
  let amount := amount_to_be_repatriated fsx s in
  if amount <=? minimum_balance then mret false
  else
    let '(maybe_beneficiary, r) := repatriation_beneficiary fsx status requester in
    match maybe_beneficiary with
    | None => mret false
    | Some who =>
        if negb (ensure_can_withdraw slash_account amount balance (rw_bank s)) then mret false
        else
          match withdraw_transfer slash_account (Z.min u128_max (amount * 2)) (rw_bank s) with
          | RErr _ => panic
          | ROk b =>
              modify (set_rw_bank b) ;;
              modify (update_pending_claims who r amount SlashTreasury None) ;;
              modify (λ s, set_rw_bank
                (deposit_creating (rewards_treasury TreasuryFee) amount (rw_bank s)) s) ;;
              mret true
          end
    end.

(** ** Dispatchables *)

Definition set_max_rewards_executors_kickback (origin : RawOrigin) (new_kickback : Z) : D unit :=
  transactional
    (ensure_root origin ;;
     old_kickback ← gets MaxRewardExecutorsKickback;
     modify (set_MaxRewardExecutorsKickback new_kickback) ;;
     modify (rw_emit (NewMaxRewardExecutorsKickbackSet old_kickback new_kickback))).

Definition trigger_distribution (origin : RawOrigin) : D unit :=
  transactional (ensure_root origin ;; modify (λ s, (distribute_inflation s).1)).

Definition turn_on_off_distribution (origin : RawOrigin) : D unit :=
  transactional
    (ensure_root origin ;;
     modify (λ s, set_IsDistributionHalted (negb (IsDistributionHalted s)) s)).

Definition turn_on_off_claims (origin : RawOrigin) : D unit :=
  transactional
    (ensure_root origin ;; modify (λ s, set_IsClaimingHalted (negb (IsClaimingHalted s)) s)).

Definition turn_on_off_settlement_accumulation (origin : RawOrigin) : D unit :=
  transactional
    (ensure_root origin ;;
     modify (λ s, set_IsSettlementAccumulationHalted
                    (negb (IsSettlementAccumulationHalted s)) s)).

(** The claims are summed per asset, in the order of their first occurrence. *)
Definition add_claimed (l : list (Balance * option AssetId)) (c : ClaimableArtifacts)
    : list (Balance * option AssetId) :=
  match list_find (λ ba, ba.2 = non_native_asset_id c) l with
  | Some (i, (balance, asset)) =>
      <[i := (saturating_add u128_max balance (total_round_claim c), asset)]> l
  | None => l ++ [(total_round_claim c, non_native_asset_id c)]
  end.

Definition claims_to_process (role_to_claim : option CircuitRole)
    (claims : list ClaimableArtifacts) : list ClaimableArtifacts :=
  match role_to_claim with
  | Some r => List.filter (λ c, bool_decide (claim_role c = r)) claims
  | None => claims
  end.

Definition pay_claims (who : AccountId) (total : list (Balance * option AssetId)) s : S :=
  fold_left (λ s ba, set_rw_am (deposit_immediately who ba.1 ba.2 (rw_am s)) s) total s.

Definition claim (origin : RawOrigin) (role_to_claim : option CircuitRole) : D unit :=
  transactional
    (halted ← gets IsClaimingHalted;
     ensure (negb halted) (RewardsModuleError Halted) ;;
     who ← ensure_signed origin;
     claims ← gets (λ s, default [] (pending_claims s !! who));
     ensure (negb (bool_decide (claims = []))) (RewardsModuleError NoPendingClaims) ;;
     let to_process := claims_to_process role_to_claim claims in
     ensure (forallb (λ c, 0 <? total_round_claim c) to_process)
       (RewardsModuleError NoPendingClaims) ;;
     let total := fold_left add_claimed to_process [] in
     modify (pay_claims who total) ;;
     let remaining := List.filter (λ c, negb (bool_decide (c ∈ to_process))) claims in
     modify (λ s, set_pending_claims (<[who := remaining]> (pending_claims s)) s) ;;
     (if bool_decide (role_to_claim = Some Executor) || bool_decide (role_to_claim = None)
      then modify (forget_settlements who) else mret tt) ;;
     modify (rw_emit (Claimed who total))).

(** ** Hook and genesis *)

Definition rewards_on_initialize (_n : BlockNumber) s : S * Z :=
  process_update_estimated_treasury_balance s.

Definition rewards_genesis s : S :=
  set_MaxRewardExecutorsKickback 0
    (set_repatriation_percentage StartingRepatriationPercentage
       (set_IsSettlementAccumulationHalted false
          (set_IsDistributionHalted false (set_IsClaimingHalted false s)))).
End Rewards.
