(* ===== verification/RewardsProps.v ===== *)
(** * Properties of the rewards pallet

    Claims are paid in full and once; a distribution creates no more claims than
    it records; a repatriation never traps and is bounded; the map of authors is
    bounded; and two things the code does not intend. *)

From S2P Require Import Prelude Types AccountManager World Batches Attesters AttesterCalls.
From S2P Require Import AttesterReach AttesterSystem AttesterRequests AttesterBonds Rewards.

(** ** What the rewards pallet pays

    Claims are paid once and in full, a distribution creates no more claims than
    it records, repatriations are bounded by the slash treasury and never trap,
    and the number of authors is bounded. *)

(** ** Sums of claims *)

Definition claims_sum (l : list ClaimableArtifacts) : Z :=
  foldr (λ c acc, total_round_claim c + acc) 0 l.

Lemma claims_sum_app l k : claims_sum (l ++ k) = claims_sum l + claims_sum k.
Proof. induction l as [|c l IH]; simpl; lia. Qed.

Section Facts.
Context {B T : Type} `{Ledger B} `{AMConfig} `{RewardsConfig B} `{AttestersReadApi T}.
Implicit Types s : RewState B T.

(** Everything that is waiting to be claimed. *)
Definition pending_total s : Z := map_sum claims_sum (pending_claims s).

Lemma update_pending_total who r reward src asset s :
  pending_total (update_pending_claims who r reward src asset s) = pending_total s + reward.
Proof.
  unfold pending_total, update_pending_claims. simpl.
  rewrite (map_sum_replace _ _ _ _ []) by done. rewrite claims_sum_app. simpl. lia.
Qed.

(** *** Shares of a reward *)

Definition amounts (l : list (AccountId * Balance)) : Z := foldr (λ nb acc, nb.2 + acc) 0 l.

Lemma amounts_nonneg l : Forall (λ nb, 0 ≤ nb.2) l → 0 ≤ amounts l.
Proof. induction 1; simpl; lia. Qed.

Lemma saturating_total l acc :
  Forall (λ nb, 0 ≤ nb.2) l → 0 ≤ acc → acc + amounts l ≤ u128_max →
  fold_left (λ acc (nb : AccountId * Balance), saturating_add u128_max acc nb.2) l acc = acc + amounts l.
Proof.
  intros Hl. revert acc. induction Hl as [|nb l Hnb Hl IH]; intros acc Hacc Hmax; simpl in *; [lia|].
  pose proof (amounts_nonneg l Hl). rewrite IH; unfold saturating_add; lia.
Qed.

(** The shares of the nominators, rounded down, do not exceed the reward. *)
Lemma shares_bounded remaining total l s :
  0 ≤ remaining → 0 < total → Forall (λ nb, 0 ≤ nb.2) l →
  let s' := fold_left (reward_nominator remaining total) l s in
  total * (pending_total s' - pending_total s) ≤ remaining * amounts l ∧
  pending_total s ≤ pending_total s'.
Proof.
  intros Hr Ht Hl. revert s. induction Hl as [|[n x] l Hx Hl IH]; intros s; [simpl; lia|].
  simpl in Hx. cbn [fold_left amounts foldr snd]. fold (amounts l).
  set (reward := Z.min u128_max (remaining * x) / total).
  assert (reward_nominator remaining total s (n, x) =
    update_pending_claims n Staker reward Inflation None s) as ->.
  { unfold reward_nominator, nominator_reward. by destruct (Z.eqb_spec total 0); [lia|]. }
  assert (0 ≤ reward ∧ total * reward ≤ remaining * x) as [Hr0 Hr1].
  { assert (0 ≤ remaining * x) by nia. subst reward. split.
    - apply Z.div_pos; [|lia]. unfold u128_max. lia.
    - etrans; [apply Z.mul_div_le; lia|]. lia. }
  specialize (IH (update_pending_claims n Staker reward Inflation None s)).
  rewrite update_pending_total in IH. simpl in IH. nia.
Qed.

Lemma distribute_to_nominators_bounded remaining l s :
  0 ≤ remaining → Forall (λ nb, 0 ≤ nb.2) l → amounts l ≤ u128_max →
  pending_total s ≤ pending_total (distribute_to_nominators remaining l s)
    ≤ pending_total s + remaining.
Proof.
  intros Hr Hl Hmax. unfold distribute_to_nominators.
  pose proof (amounts_nonneg l Hl) as Hnn. rewrite saturating_total by (done || lia).
  destruct (Z.eq_dec (0 + amounts l) 0) as [Hz|Hnz].
  - rewrite Hz. assert (fold_left (reward_nominator remaining 0) l s = s) as ->
      by (clear; by induction l). lia.
  - pose proof (shares_bounded remaining (0 + amounts l) l s Hr ltac:(lia) Hl) as Hs.
    cbv zeta in Hs. destruct Hs as [Hs1 Hs2]. nia.
Qed.

(** What the pallet expects of the attesters it reads. *)
Record attesters_view_ok (t : T) : Prop := {
  view_commission a info : api_read_attester_info t a = Some info → 0 ≤ commission info ≤ 100;
  view_nominations a : Forall (λ nb, 0 ≤ nb.2) (api_read_nominations t a);
  view_total a : amounts (api_read_nominations t a) ≤ u128_max;
  view_honest : (length (api_honest_active_set t) ≤ length (api_active_set t))%nat;
}.

Lemma rw_att_update who r reward src asset s :
  rw_att (update_pending_claims who r reward src asset s) = rw_att s.
Proof. done. Qed.

Lemma rw_att_distribute remaining l s : rw_att (distribute_to_nominators remaining l s) = rw_att s.
Proof.
  unfold distribute_to_nominators. apply (fold_left_inv (λ s', rw_att s' = rw_att s)); [done|].
  intros s' nb _ Hs'. unfold reward_nominator. by case_match.
Qed.

Lemma percent_mul_ceil_bounds p x : 0 ≤ p ≤ 100 → 0 ≤ x → 0 ≤ percent_mul_ceil p x ≤ x.
Proof.
  intros Hp Hx. unfold percent_mul_ceil. split; [apply Z.div_pos; nia|].
  assert ((p * x + 99) / 100 < x + 1); [|lia]. apply Z.div_lt_upper_bound; nia.
Qed.

Lemma reward_attester_bounded r s a :
  attesters_view_ok (rw_att s) → 0 ≤ r →
  pending_total s ≤ pending_total (reward_attester r s a) ≤ pending_total s + r ∧
  rw_att (reward_attester r s a) = rw_att s.
Proof.
  intros [Hc Hn Ht _] Hr. unfold reward_attester.
  destruct (api_read_attester_info (rw_att s) a) as [info|] eqn:Hi; [|split; [lia|done]].
  rewrite rw_att_distribute. split; [|done]. rewrite rw_att_update.
  pose proof (percent_mul_ceil_bounds (commission info) r (Hc a info Hi) Hr) as Hb.
  unfold saturating_sub. rewrite Z.max_r by lia.
  destruct (distribute_to_nominators_bounded
    (r - percent_mul_ceil (commission info) r) (api_read_nominations (rw_att s) a)
    (update_pending_claims a Attester (percent_mul_ceil (commission info) r) Inflation None s))
    as [H3 H4]; [lia|apply Hn|apply Ht|]. rewrite update_pending_total in H3, H4. lia.
Qed.

Lemma reward_attesters_bounded r l s :
  attesters_view_ok (rw_att s) → 0 ≤ r →
  let s' := fold_left (reward_attester r) l s in
  pending_total s ≤ pending_total s' ≤ pending_total s + Z.of_nat (length l) * r ∧
  rw_att s' = rw_att s.
Proof.
  revert s. induction l as [|a l IH]; intros s Hv Hr; [simpl; split; [lia|done]|].
  destruct (reward_attester_bounded r s a Hv Hr) as [Hb Ha].
  cbn [fold_left length]. destruct (IH (reward_attester r s a)) as [Hb' Ha']; [by rewrite Ha|done|].
  rewrite Ha', Ha. split; [lia|done].
Qed.

(** The attesters get at most their part of the distribution. *)
Lemma distribute_attester_bounded d s :
  attesters_view_ok (rw_att s) → 0 ≤ d ≤ u128_max →
  let '(s', x) := distribute_attester_rewards d s in
  pending_total s ≤ pending_total s' ≤ pending_total s + x ∧ 0 ≤ x ≤ d ∧ rw_att s' = rw_att s.
Proof.
  intros Hv Hd. unfold distribute_attester_rewards.
  destruct (Z.eqb_spec (Z.of_nat (length (api_honest_active_set (rw_att s)))) 0) as [|Hne].
  { split; [lia|]. split; [lia|done]. }
  pose proof (view_honest _ Hv) as Hh.
  set (h := Z.of_nat (length (api_honest_active_set (rw_att s)))) in *.
  set (a := Z.of_nat (length (api_active_set (rw_att s)))) in *.
  assert (0 < h ≤ a) as Hha by lia.
  assert (0 ≤ d / a) as Hr by (apply Z.div_pos; lia).
  assert (a * (d / a) ≤ d) as Hra by (apply Z.mul_div_le; lia).
  destruct (reward_attesters_bounded (d / a) (api_honest_active_set (rw_att s)) s Hv Hr) as [Hb Ha].
  fold h in Hb. rewrite Z.min_r by nia. split; [lia|]. split; [nia|done].
Qed.

(** *** Collators and executors *)

Definition author_rewards (d : Balance) (l : list (AccountId * Z)) : Z :=
  foldr (λ ac acc, author_reward d ac.2 + acc) 0 l.

Lemma distribute_collator_exact d s :
  0 ≤ d → (∀ p q, 0 ≤ perbill_from_rational p q) →
  author_rewards d (storage_iter (authors_this_period s)) ≤ u128_max →
  let '(s', x) := distribute_collator_rewards d s in
  pending_total s' = pending_total s + x.
Proof.
  intros Hd Hp. unfold distribute_collator_rewards.
  generalize (storage_iter (authors_this_period s)). intros l Hmax.
  assert (∀ c, 0 ≤ author_reward d c) as Hnn.
  { intros c. unfold author_reward, perbill_mul_ceil. apply Z.div_pos; [|lia].
    specialize (Hp c InflationDistributionPeriod). nia. }
  set (step := reward_author d).
  assert (∀ s0 x, 0 ≤ x → x + author_rewards d l ≤ u128_max →
    pending_total (fold_left step l (s0, x)).1 - (fold_left step l (s0, x)).2 =
    pending_total s0 - x) as Hgen.
  { clear Hmax. induction l as [|ac l IH]; intros s0 x Hx Hb; [done|].
    cbn [fold_left author_rewards foldr] in *. fold (author_rewards d l) in Hb.
    change (step (s0, x) ac) with
      (update_pending_claims ac.1 Collator (author_reward d ac.2) Inflation None s0,
       saturating_add u128_max x (author_reward d ac.2)).
    assert (0 ≤ author_rewards d l) by (clear -Hnn; induction l as [|ac l IH]; simpl; [lia|];
      specialize (Hnn ac.2); lia).
    specialize (Hnn ac.2) as Hac. rewrite IH; unfold saturating_add in *; [|lia..].
    rewrite update_pending_total. lia. }
  specialize (Hgen s 0). destruct (fold_left step l (s, 0)) as [s' x]. simpl in Hgen. lia.
Qed.

Lemma total_settled_spec acc l t :
  0 ≤ acc → Forall (λ nb, 0 ≤ nb.2) l → total_settled acc l = Some t →
  t = acc + amounts l ∧ (l ≠ [] → t ≤ u128_max).
Proof.
  intros Hacc Hl. revert acc Hacc. induction Hl as [|[n x] l Hx Hl IH]; intros acc Hacc Ht; simpl in *.
  - simplify_eq. split; [lia|done].
  - destruct (checked_add u128_max acc x) as [acc'|] eqn:Hc; [|done]. simpl in Ht.
    apply checked_add_Some in Hc as [-> Hmax]. destruct (IH (acc + x)) as [-> Hle]; [lia|done|].
    split; [lia|]. intros _. destruct l; [simpl; lia|]. by apply Hle.
Qed.

Lemma native_settlements_nonneg s :
  map_Forall (λ _ x, 0 ≤ x) (accumulated_settlements s) →
  Forall (λ nb, 0 ≤ nb.2) (native_settlements s).
Proof.
  intros Hs. apply Forall_forall. intros [a x]. unfold native_settlements.
  rewrite merge_sort_Permutation, list_elem_of_omap. intros ([[a' t] x'] & Hin & Hf).
  apply elem_of_map_to_list in Hin. simpl in Hf. case_bool_decide; simplify_eq.
  exact (Hs _ _ Hin).
Qed.

Lemma reward_executor_bounds d k s0 x e y p :
  0 ≤ d → 0 ≤ k ≤ 100 → 0 ≤ y → 0 ≤ p → 0 ≤ x → x + y ≤ u128_max →
  let r := reward_executor d k (s0, x) (e, y, p) in
  pending_total r.1 = pending_total s0 + (r.2 - x) ∧ x ≤ r.2 ≤ x + y.
Proof.
  intros Hd Hk Hy Hp Hx Hmax. unfold reward_executor. cbv zeta. cbn [fst snd].
  set (reward := executor_reward d y p k).
  assert (0 ≤ reward ≤ y) as Hr.
  { subst reward. unfold executor_reward. pose proof (percent_mul_ceil_bounds k y Hk Hy).
    assert (0 ≤ perbill_mul_ceil p d) by (apply Z.div_pos; nia). lia. }
  change (pending_total (forget_settlements e ?s1)) with (pending_total s1).
  rewrite update_pending_total. unfold wrap128. rewrite Z.mod_small by (unfold u128_max in *; lia). lia.
Qed.

Lemma reward_executors_exact d k t l s0 x :
  0 ≤ d → 0 ≤ k ≤ 100 → (∀ p q, 0 ≤ perbill_from_rational p q) →
  Forall (λ nb, 0 ≤ nb.2) l → 0 ≤ x → (l ≠ [] → x + amounts l ≤ u128_max) →
  let r := fold_left (reward_executor d k) (executions_proportionally_of_total_this_round l t) (s0, x) in
  pending_total r.1 = pending_total s0 + (r.2 - x) ∧ x ≤ r.2 ≤ x + amounts l.
Proof.
  intros Hd Hk Hp. revert s0 x. induction l as [|[e y] l IH]; intros s0 x Hl Hx Hb; [simpl; lia|].
  apply Forall_cons in Hl as [Hy Hl]. simpl in Hy. specialize (Hb ltac:(done)). simpl in Hb.
  pose proof (amounts_nonneg l Hl).
  destruct (reward_executor_bounds d k s0 x e y (perbill_from_rational y t)) as [Hr1 Hr2];
    [done..|by apply Hp|done|lia|].
  unfold executions_proportionally_of_total_this_round in *. cbn [map fold_left snd].
  destruct (reward_executor d k (s0, x) (e, y, perbill_from_rational y t)) as [s1 x1].
  simpl in Hr1, Hr2. destruct (IH s1 x1) as [IH1 IH2]; [done|lia|lia|].
  cbv zeta in *. simpl amounts. lia.
Qed.

(** The executors get at most what they settled. *)
Lemma distribute_executor_exact d s :
  0 ≤ d → 0 ≤ MaxRewardExecutorsKickback s ≤ 100 → (∀ p q, 0 ≤ perbill_from_rational p q) →
  map_Forall (λ _ x, 0 ≤ x) (accumulated_settlements s) →
  let '(s', x) := distribute_executor_rewards d s in
  pending_total s' = pending_total s + x ∧ 0 ≤ x ≤ amounts (native_settlements s).
Proof.
  intros Hd Hk Hp Hs. pose proof (native_settlements_nonneg s Hs) as Hnn.
  pose proof (amounts_nonneg _ Hnn) as Hsum. unfold distribute_executor_rewards.
  destruct (MaxRewardExecutorsKickback s =? 0); [lia|].
  unfold total_settled_executions_this_round.
  destruct (total_settled 0 (native_settlements s)) as [t|] eqn:Ht; [|lia].
  apply total_settled_spec in Ht as [Ht Hmax]; [|lia|done].
  destruct (reward_executors_exact d (MaxRewardExecutorsKickback s) t (native_settlements s) s 0)
    as [H3 H4]; [done..|lia|intros Hne; specialize (Hmax Hne); lia|].
  destruct (fold_left _ _ _) as [s' x]. simpl in *. lia.
Qed.

(** *** What a distribution does not touch *)

Definition books s :=
  (authors_this_period s, accumulated_settlements s, MaxRewardExecutorsKickback s,
   DistributionHistory s).

Lemma reward_nominator_books remaining total s nb : books (reward_nominator remaining total s nb) = books s.
Proof. unfold reward_nominator. by case_match. Qed.

Lemma distribute_to_nominators_books remaining l s :
  books (distribute_to_nominators remaining l s) = books s.
Proof.
  unfold distribute_to_nominators. apply (fold_left_inv (λ s', books s' = books s)); [done|].
  intros s' nb _ Hs'. by rewrite reward_nominator_books.
Qed.

Lemma distribute_attester_books d s : books (distribute_attester_rewards d s).1 = books s.
Proof.
  unfold distribute_attester_rewards. destruct (_ =? 0); [done|]. simpl.
  apply (fold_left_inv (λ s', books s' = books s)); [done|]. intros s' a _ Hs'.
  unfold reward_attester. case_match; [|done]. by rewrite distribute_to_nominators_books.
Qed.

Lemma distribute_collator_books d s : books (distribute_collator_rewards d s).1 = books s.
Proof.
  unfold distribute_collator_rewards.
  by apply (fold_left_inv (λ sx : RewState B T * Balance, books sx.1 = books s)).
Qed.

Lemma distribute_executor_history d s :
  DistributionHistory (distribute_executor_rewards d s).1 = DistributionHistory s.
Proof.
  unfold distribute_executor_rewards. destruct (_ =? 0); [done|].
  destruct (total_settled_executions_this_round _); [|done].
  apply (fold_left_inv (λ sx : RewState B T * Balance,
    DistributionHistory sx.1 = DistributionHistory s)); [done|].
  intros [s' x] [[e y] p] _ Hs'. exact Hs'.
Qed.
(** *** Settlements become claims *)

Definition claims_nonneg s : Prop :=
  map_Forall (λ _, Forall (λ c, 0 ≤ total_round_claim c)) (pending_claims s).

Lemma claims_sum_nonneg l : Forall (λ c, 0 ≤ total_round_claim c) l → 0 ≤ claims_sum l.
Proof. induction 1; simpl; lia. Qed.

Lemma claims_sum_lookup l i c :
  Forall (λ c, 0 ≤ total_round_claim c) l → l !! i = Some c → total_round_claim c ≤ claims_sum l.
Proof.
  intros Hl. revert i. induction Hl as [|c' l Hc' Hl IH]; intros [|i] Hi; simplify_eq/=.
  - pose proof (claims_sum_nonneg l Hl). lia.
  - specialize (IH i Hi). lia.
Qed.

Lemma claims_sum_insert l i c c' :
  l !! i = Some c →
  claims_sum (<[i := c']> l) = claims_sum l + (total_round_claim c' - total_round_claim c).
Proof.
  revert i. induction l as [|x l IH]; intros [|i] Hi; simplify_eq/=; [lia|].
  rewrite (IH i) by done. lia.
Qed.

Lemma pending_claims_account who s :
  claims_nonneg s → Forall (λ c, 0 ≤ total_round_claim c) (default [] (pending_claims s !! who)).
Proof.
  intros Hs. destruct (pending_claims s !! who) as [l|] eqn:Hl; [exact (Hs _ _ Hl)|constructor].
Qed.

Lemma pending_total_account who s :
  claims_nonneg s → claims_sum (default [] (pending_claims s !! who)) ≤ pending_total s.
Proof.
  intros Hs. unfold pending_total. pose proof (pending_claims_account who s Hs) as Hw.
  pose proof (map_sum_replace claims_sum (pending_claims s) who [] [] ltac:(done)) as Hr.
  assert (0 ≤ map_sum claims_sum (<[who := []]> (pending_claims s))) as Hnn.
  { apply map_sum_nonneg. intros k l Hl. apply claims_sum_nonneg.
    apply lookup_insert_Some in Hl as [[_ <-]|[_ Hl]]; [constructor|exact (Hs _ _ Hl)]. }
  simpl in Hr. lia.
Qed.

Lemma add_to_pending_total who r x src asset s :
  claims_nonneg s → 0 ≤ x → pending_total s + x ≤ u128_max →
  let s' := add_to_pending_claims who r x src asset s in
  pending_total s' = pending_total s + x ∧ claims_nonneg s'.
Proof.
  intros Hs Hx Hmax. cbv zeta. pose proof (pending_claims_account who s Hs) as Hw.
  pose proof (pending_total_account who s Hs) as Hle.
  unfold add_to_pending_claims, pending_total, claims_nonneg in *. simpl.
  rewrite (map_sum_replace _ _ _ _ []) by done.
  destruct (list_find _ _) as [[i c]|] eqn:Hf.
  - apply list_find_Some in Hf as (Hi & _ & _).
    pose proof (claims_sum_lookup _ _ _ Hw Hi) as Hc.
    assert (0 ≤ total_round_claim c) by (eapply Forall_lookup_1 in Hw; [exact Hw|exact Hi]).
    rewrite (claims_sum_insert _ _ c) by done. cbn [set_claim_amount total_round_claim].
    unfold saturating_add. rewrite Z.min_r by lia. split; [lia|].
    apply map_Forall_insert_2; [|done]. apply Forall_insert; [done|]. simpl. lia.
  - rewrite claims_sum_app. simpl. split; [lia|]. apply map_Forall_insert_2; [|done].
    apply Forall_app. by split; [done|repeat constructor].
Qed.

(** What the listed settlements add to one entry. *)
Definition execution_key (es : AccountId * Settlement) : Z * AssetType :=
  (es.1, asset_type (st_maybe_asset_id es.2)).
Definition executed (k : Z * AssetType) (l : list (AccountId * Settlement)) : Z :=
  foldr (λ es acc, (if bool_decide (execution_key es = k) then settlement_amount es.2 else 0) + acc) 0 l.
Definition executed_total (l : list (AccountId * Settlement)) : Z :=
  foldr (λ es acc, settlement_amount es.2 + acc) 0 l.

Lemma executed_bounds k l :
  Forall (λ es, 0 ≤ settlement_amount es.2) l → 0 ≤ executed k l ≤ executed_total l.
Proof. induction 1; simpl; [lia|]. case_bool_decide; lia. Qed.

Definition accumulated s k : Z := default 0 (accumulated_settlements s !! k).

Lemma accumulate_entry s es k :
  accumulated s (execution_key es) + settlement_amount es.2 ≤ u128_max →
  accumulated (accumulate s es) k =
  accumulated s k + (if bool_decide (execution_key es = k) then settlement_amount es.2 else 0).
Proof.
  destruct es as [e st]. unfold accumulated, accumulate. cbn [fst snd]. intros Hmax.
  change (accumulated_settlements (set_accumulated ?m ?s')) with m.
  change (accumulated_settlements (add_to_pending_claims ?a ?b ?c ?d ?f s))
    with (accumulated_settlements s).
  fold (execution_key (e, st)) in *. change (e, asset_type (st_maybe_asset_id st))
    with (execution_key (e, st)). case_bool_decide as Hk.
  - subst k. rewrite lookup_insert_eq. simpl default at 1.
    destruct (accumulated_settlements s !! _); simpl in *; unfold saturating_add; lia.
  - rewrite lookup_insert_ne by done. lia.
Qed.

Lemma accumulate_all l s :
  claims_nonneg s → Forall (λ es, 0 ≤ settlement_amount es.2) l → (∀ k, 0 ≤ accumulated s k) →
  pending_total s + executed_total l ≤ u128_max →
  (∀ k, accumulated s k + executed k l ≤ u128_max) →
  let s' := fold_left accumulate l s in
  pending_total s' = pending_total s + executed_total l ∧
  ∀ k, accumulated s' k = accumulated s k + executed k l.
Proof.
  intros Hs Hl. revert s Hs. induction Hl as [|es l Hes Hl IH]; intros s Hs Hacc Hp Hk.
  { simpl. split; intros; lia. }
  cbn [fold_left]. simpl in Hp. pose proof (executed_bounds (execution_key es) l Hl) as Hb.
  pose proof (Hk (execution_key es)) as Hke. simpl in Hke.
  rewrite bool_decide_eq_true_2 in Hke by done.
  pose proof (λ k, accumulate_entry s es k ltac:(lia)) as Hentry.
  destruct es as [e st].
  destruct (add_to_pending_total e Executor (settlement_amount st) TrafficRewards
              (st_maybe_asset_id st) s Hs Hes) as [Hsum Hs']; [simpl in *; lia|].
  change (pending_total (accumulate s (e, st)) = pending_total s + settlement_amount st) in Hsum.
  destruct (IH (accumulate s (e, st)) Hs') as [IH1 IH2].
  - intros k. rewrite Hentry. specialize (Hacc k). simpl in Hes. case_bool_decide; simpl; lia.
  - rewrite Hsum. simpl in Hp. lia.
  - intros k. rewrite Hentry. specialize (Hk k). simpl in Hk |- *. lia.
  - split; [rewrite IH1, Hsum; simpl; lia|]. intros k. rewrite IH2, Hentry. simpl. lia.
Qed.

(** *** Authors *)

Lemma min_author_elem (m : gmap Z Z) a : min_author m = Some a → is_Some (m !! a).
Proof.
  unfold min_author. set (smaller := λ best (x : Z * Z), _).
  assert (∀ l best x, fold_left smaller l best = Some x → x ∈ l ∨ best = Some x) as Hgen.
  { induction l as [|y l IH]; intros best x Hx; [by right|]. cbn [fold_left] in Hx.
    apply IH in Hx as [Hx|Hx]; [left; by right|]. subst smaller. simpl in Hx.
    destruct best as [b|]; [case_match|]; simplify_eq; try (left; left); by right. }
  destruct (fold_left _ _ _) as [[a' n]|] eqn:Hf; [|done]. simpl. intros [= ->].
  apply Hgen in Hf as [Hf|Hf]; [|done]. apply storage_iter_elem in Hf. by eexists.
Qed.

Lemma min_author_some (m : gmap Z Z) : m ≠ ∅ → is_Some (min_author m).
Proof.
  intros Hm. unfold min_author. set (smaller := λ best (x : Z * Z), _).
  assert (∀ l best, is_Some best → is_Some (fold_left smaller l best)) as Hgen.
  { induction l as [|y l IH]; intros best Hb; [done|]. cbn [fold_left]. apply IH.
    subst smaller. destruct best as [b|]; [|by destruct Hb]. simpl. by case_match. }
  apply fmap_is_Some. destruct (map_choose m Hm) as (k & v & Hk).
  apply storage_iter_elem in Hk. destruct (storage_iter m) as [|x l]; [by inversion Hk|].
  cbn [fold_left]. apply Hgen. by eexists.
Qed.
End Facts.

(** ** Claims per asset *)

Definition asset_total (asset : option AssetId) (l : list (Balance * option AssetId)) : Z :=
  foldr (λ ba acc, (if bool_decide (ba.2 = asset) then ba.1 else 0) + acc) 0 l.

Definition claims_asset_sum (asset : option AssetId) (l : list ClaimableArtifacts) : Z :=
  foldr (λ c acc, (if bool_decide (non_native_asset_id c = asset) then total_round_claim c else 0)
                  + acc) 0 l.

Lemma asset_total_app asset l k : asset_total asset (l ++ k) = asset_total asset l + asset_total asset k.
Proof. induction l as [|x l IH]; simpl; lia. Qed.

Lemma asset_total_insert asset l i b a x :
  l !! i = Some (b, a) →
  asset_total asset (<[i := (b + x, a)]> l) =
  asset_total asset l + (if bool_decide (a = asset) then x else 0).
Proof.
  revert i. induction l as [|[b' a'] l IH]; intros [|i] Hi; [done..| |]; simpl in *.
  - simplify_eq. case_bool_decide; lia.
  - rewrite (IH i) by done. lia.
Qed.

(** The sum of one asset is the single entry of the list. *)
Lemma asset_total_entry l i b a :
  NoDup (map snd l) → l !! i = Some (b, a) → asset_total a l = b.
Proof.
  revert i. induction l as [|[b' a'] l IH]; intros [|i] Hnd Hi; [done..| |]; simpl in *;
    apply NoDup_cons in Hnd as [Hnot Hnd]; simplify_eq.
  - rewrite bool_decide_eq_true_2 by done.
    assert (asset_total a l = 0) as ->; [|lia]. clear -Hnot. induction l as [|[b0 a0] l IH]; [done|].
    simpl in *. rewrite bool_decide_eq_false_2 by set_solver. rewrite IH; set_solver.
  - rewrite (IH i) by done. rewrite bool_decide_eq_false_2; [lia|]. intros ->. apply Hnot.
    apply list_elem_of_fmap. exists (b, a). split; [done|]. by eapply list_elem_of_lookup_2.
Qed.

Lemma map_snd_insert_same (l : list (Balance * option AssetId)) i b a n :
  l !! i = Some (b, a) → map snd (<[i := (n, a)]> l) = map snd l.
Proof.
  intros Hi. change (map snd (<[i := (n, a)]> l)) with (snd <$> <[i := (n, a)]> l).
  rewrite list_fmap_insert. apply list_insert_id. by rewrite list_lookup_fmap, Hi.
Qed.

Lemma add_claimed_ok l c :
  NoDup (map snd l) → 0 ≤ total_round_claim c →
  asset_total (non_native_asset_id c) l + total_round_claim c ≤ u128_max →
  NoDup (map snd (add_claimed l c)) ∧
  ∀ asset, asset_total asset (add_claimed l c) =
    asset_total asset l + (if bool_decide (non_native_asset_id c = asset)
                           then total_round_claim c else 0).
Proof.
  intros Hnd Hc Hmax. unfold add_claimed.
  destruct (list_find _ l) as [[i [b a]]|] eqn:Hf.
  - apply list_find_Some in Hf as (Hi & Ha & _). simpl in Ha. subst a.
    rewrite (asset_total_entry _ _ _ _ Hnd Hi) in Hmax. unfold saturating_add.
    rewrite Z.min_r by lia. erewrite map_snd_insert_same by done. split; [done|].
    intros asset. by apply asset_total_insert.
  - apply list_find_None in Hf. rewrite Forall_forall in Hf. split.
    + rewrite map_app. apply NoDup_app. split; [done|]. split; [|apply NoDup_singleton].
      intros a Ha Ha'. apply list_elem_of_singleton in Ha'. simpl in Ha'. subst a.
      apply list_elem_of_fmap in Ha as (ba & Hba & Hin). by apply (Hf ba Hin).
    + intros asset. rewrite asset_total_app. simpl. lia.
Qed.

Lemma add_claimed_all claims l :
  NoDup (map snd l) → Forall (λ c, 0 ≤ total_round_claim c) claims →
  (∀ asset, asset_total asset l + claims_asset_sum asset claims ≤ u128_max) →
  NoDup (map snd (fold_left add_claimed claims l)) ∧
  ∀ asset, asset_total asset (fold_left add_claimed claims l) =
           asset_total asset l + claims_asset_sum asset claims.
Proof.
  intros Hnd Hc. revert l Hnd. induction Hc as [|c claims Hc Hcs IH]; intros l Hnd Hmax; simpl in *.
  - split; [done|]. intros. lia.
  - assert (∀ asset, 0 ≤ claims_asset_sum asset claims) as Hnn.
    { intros asset. clear -Hcs. induction Hcs; simpl; [lia|]. case_bool_decide; lia. }
    destruct (add_claimed_ok l c Hnd Hc) as [Hnd' Hsum].
    { specialize (Hmax (non_native_asset_id c)). rewrite bool_decide_eq_true_2 in Hmax by done.
      specialize (Hnn (non_native_asset_id c)). lia. }
    destruct (IH (add_claimed l c) Hnd') as [Hnd'' Hsum'].
    { intros asset. rewrite Hsum. specialize (Hmax asset). lia. }
    split; [done|]. intros asset. rewrite Hsum', Hsum. lia.
Qed.

Section Facts.
Context {B T : Type} `{Ledger B} `{AMConfig} `{RewardsConfig B} `{AttestersReadApi T}.
Implicit Types s : RewState B T.

Definition role_matches (role_to_claim : option CircuitRole) (c : ClaimableArtifacts) : Prop :=
  match role_to_claim with Some r => claim_role c = r | None => True end.

Lemma claims_to_process_elem r l c : c ∈ claims_to_process r l ↔ c ∈ l ∧ role_matches r c.
Proof.
  unfold claims_to_process, role_matches. destruct r as [r|]; [|naive_solver].
  rewrite list_elem_of_In, filter_In, <- list_elem_of_In, bool_decide_eq_true. naive_solver.
Qed.

(** Paying changes the account manager only. *)
Lemma pay_claims_am who total s :
  pay_claims who total s = set_rw_am (rw_am (pay_claims who total s)) s.
Proof.
  unfold pay_claims. apply (fold_left_inv (λ s', s' = set_rw_am (rw_am s') s)).
  - by destruct s.
  - intros s' ba _ ->. done.
Qed.

(** The steps of a successful claim. *)
Lemma claim_steps who role_to_claim s s' u :
  claim (Signed who) role_to_claim s = Ok u s' →
  let claims := default [] (pending_claims s !! who) in
  let processed := claims_to_process role_to_claim claims in
  ∃ total remaining s1,
    total = fold_left add_claimed processed [] ∧
    (Forall (λ c, 0 < total_round_claim c) processed ∧
     remaining = List.filter (λ c, negb (bool_decide (c ∈ processed))) claims) ∧
    s1 = set_pending_claims (<[who := remaining]> (pending_claims s)) (pay_claims who total s) ∧
    (s' = rw_emit (Claimed who total) s1 ∨
     s' = rw_emit (Claimed who total) (forget_settlements who s1)).
Proof.
  intros Hc claims processed. subst claims processed. revert Hc.
  unfold claim. rewrite transactional_Ok. unfold ensure_signed. intros Hc.
  apply bind_Ok_inv in Hc as (h & s1 & Hh & Hc). inv_ok Hh.
  apply bind_Ok_inv in Hc as (e1 & s2 & He & Hc). inv_ok He.
  apply bind_Ok_inv in Hc as (w & s3 & Hw & Hc). inv_ok Hw.
  apply bind_Ok_inv in Hc as (cl & s4 & Hcl & Hc). inv_ok Hcl.
  apply bind_Ok_inv in Hc as (e2 & s5 & He & Hc). inv_ok He.
  apply bind_Ok_inv in Hc as (e3 & s6 & He & Hc). inv_ok He.
  apply bind_Ok_inv in Hc as (e4 & s7 & He & Hc). inv_ok He.
  apply bind_Ok_inv in Hc as (e5 & s8 & He & Hc). inv_ok He.
  apply bind_Ok_inv in Hc as (e6 & s9 & He & Hc). inv_ok Hc.
  eexists _, _, _. split; [reflexivity|]. split; [split; [|reflexivity]|].
  { apply Forall_forall. intros c Hin.
    match goal with H : forallb _ _ = true |- _ => rewrite forallb_forall in H;
      apply Z.ltb_lt, H, list_elem_of_In, Hin end. }
  split; [reflexivity|]. rewrite pay_claims_am in He. simpl in He. rewrite <- pay_claims_am in He.
  destruct (_ || _); inv_ok He; [by right|by left].
Qed.

(** What a successful claim does. *)
Lemma claim_Ok who role_to_claim s s' u :
  claim (Signed who) role_to_claim s = Ok u s' →
  let claims := default [] (pending_claims s !! who) in
  let processed := claims_to_process role_to_claim claims in
  Forall (λ c, 0 < total_round_claim c) processed ∧
  rw_am s' = rw_am (pay_claims who (fold_left add_claimed processed []) s) ∧
  pending_claims s' =
    <[who := List.filter (λ c, negb (bool_decide (c ∈ processed))) claims]> (pending_claims s).
Proof.
  intros Hc. apply claim_steps in Hc as (total & remaining & s1 & -> & [Hpos ->] & -> & Hs').
  split; [exact Hpos|]. by destruct Hs' as [-> | ->].
Qed.

(** What a claim leaves alone. *)
Lemma claim_frame who role_to_claim s s' u :
  claim (Signed who) role_to_claim s = Ok u s' →
  authors s' = authors s ∧ authors_this_period s' = authors_this_period s ∧
  ∀ k x, accumulated_settlements s' !! k = Some x → accumulated_settlements s !! k = Some x.
Proof.
  intros Hc. apply claim_steps in Hc as (total & remaining & s1 & _ & _ & -> & Hs').
  rewrite pay_claims_am in Hs'. destruct Hs' as [-> | ->]; [done|].
  split; [done|]. split; [done|]. intros k x. simpl. rewrite map_lookup_filter_Some. by intros [Hk _].
Qed.

(** A claim of zero stays through the shares of the nominators. *)
Definition zero_claim a s : Prop :=
  IsClaimingHalted s = false ∧ ∃ c, c ∈ default [] (pending_claims s !! a) ∧
    claim_role c = Attester ∧ total_round_claim c = 0.

Lemma zero_claim_update a s who r n src asset :
  zero_claim a s → zero_claim a (update_pending_claims who r n src asset s).
Proof.
  intros (Hh & c & Hin & Hr & Hz). split; [done|]. exists c. split; [|done].
  unfold update_pending_claims. simpl. destruct (decide (who = a)) as [->|].
  - rewrite lookup_insert_eq. apply elem_of_app. by left.
  - by rewrite lookup_insert_ne.
Qed.

Lemma zero_claim_stays a remaining l s :
  zero_claim a s → zero_claim a (distribute_to_nominators remaining l s).
Proof.
  intros Hz. unfold distribute_to_nominators. apply (fold_left_inv (zero_claim a)); [done|].
  intros s' nb _ Hs'. unfold reward_nominator. case_match; [by apply zero_claim_update|done].
Qed.

(** Half of the treasury pays twice the amount and the minimum. *)
Lemma repatriation_affordable fsx s :
  0 ≤ repatriation_percentage s ≤ 50 →
  0 ≤ free_balance (rw_bank s) (rewards_treasury TreasurySlash) ≤ u128_max →
  0 ≤ minimum_balance → minimum_balance < amount_to_be_repatriated fsx s →
  2 * amount_to_be_repatriated fsx s
    ≤ free_balance (rw_bank s) (rewards_treasury TreasurySlash) - minimum_balance ∧
  amount_to_be_repatriated fsx s * 2 ≤ u128_max.
Proof.
  unfold amount_to_be_repatriated, percent_mul_ceil. intros Hp Hb Hm Hlt.
  set (b := free_balance _ _) in *. set (p := repatriation_percentage s) in *.
  set (c := (p * b + 99) / 100) in *.
  assert (100 * c ≤ p * b + 99) by (apply Z.mul_div_le; lia).
  assert (p * b ≤ 50 * b) by nia.
  assert (2 * (c / 2) ≤ c) by (apply Z.mul_div_le; lia). lia.
Qed.
(** *** Widths *)

Definition is_u128 (x : Z) : Prop := 0 ≤ x ≤ u128_max.

(** Counts are [u32] and amounts are [u128]. *)
Record widths_ok s : Prop := {
  width_authors : map_Forall (λ _, is_u32) (authors s);
  width_period : map_Forall (λ _, is_u32) (authors_this_period s);
  width_claims : map_Forall (λ _, Forall (λ c, is_u128 (total_round_claim c))) (pending_claims s);
  width_accumulated : map_Forall (λ _, is_u128) (accumulated_settlements s);
}.

Lemma wrap32_width x : is_u32 (wrap32 x).
Proof. unfold is_u32, wrap32, u32_max. pose proof (Z.mod_pos_bound x (2 ^ 32)). lia. Qed.

Lemma saturating_width x y : is_u128 x → is_u128 y → is_u128 (saturating_add u128_max x y).
Proof. unfold is_u128, saturating_add, u128_max. lia. Qed.

Lemma claims_width a s :
  widths_ok s → Forall (λ c, is_u128 (total_round_claim c)) (default [] (pending_claims s !! a)).
Proof.
  intros [_ _ Hc _]. destruct (pending_claims s !! a) eqn:Ha; [exact (Hc _ _ Ha)|constructor].
Qed.

Lemma add_to_pending_width who r x src asset s :
  widths_ok s → is_u128 x → widths_ok (add_to_pending_claims who r x src asset s).
Proof.
  intros Hs Hx. pose proof (claims_width who s Hs) as Hw. destruct Hs as [Ha Hp Hc Hacc].
  split; [done..| |done]. unfold add_to_pending_claims. simpl. apply map_Forall_insert_2; [|done].
  destruct (list_find _ _) as [[i c]|] eqn:Hf.
  - apply list_find_Some in Hf as (Hi & _ & _). apply Forall_insert; [done|]. simpl.
    apply saturating_width; [done|]. by eapply (Forall_lookup_1 _ _ i c) in Hw.
  - apply Forall_app. split; [done|]. by apply Forall_singleton.
Qed.

Lemma accumulate_width s es :
  is_u128 (settlement_amount es.2) → widths_ok s → widths_ok (accumulate s es).
Proof.
  destruct es as [e st]. intros Hx Hs. simpl in Hx.
  pose proof (add_to_pending_width e Executor (settlement_amount st) TrafficRewards
    (st_maybe_asset_id st) s Hs Hx) as [Ha Hp Hc Hacc].
  split; [done..|]. simpl. apply map_Forall_insert_2; [|done].
  destruct (accumulated_settlements s !! _) as [y|] eqn:Hy; [|done].
  apply saturating_width; [|done]. exact (width_accumulated _ Hs _ _ Hy).
Qed.

Lemma count_author_width a (m : gmap Z Z) :
  map_Forall (λ _, is_u32) m → map_Forall (λ _, is_u32) (count_author a m).
Proof. intros Hm. apply map_Forall_insert_2; [apply wrap32_width|done]. Qed.

Lemma process_author_width author s : widths_ok s → widths_ok (process_author author s).1.
Proof.
  intros [Ha Hp Hc Hacc]. destruct author as [a|]; [|done]. split; [done| |done..]. simpl.
  pose proof (count_author_width a _ Hp) as Hm. destruct (Nat.ltb _ _); [|done].
  intros k n. rewrite lookup_delete_Some. intros [_ Hk]. exact (Hm _ _ Hk).
Qed.

Lemma process_period_width s : widths_ok s → widths_ok (process_authors_this_period s).1.
Proof.
  intros [Ha Hp Hc Hacc]. split; [|apply map_Forall_empty|done..]. simpl.
  apply (fold_left_inv (λ m : gmap Z Z, map_Forall (λ _, is_u32) m)); [done|].
  intros m ac _ Hm. apply map_Forall_insert_2; [apply wrap32_width|done].
Qed.

Lemma claim_width who role_to_claim s s' u :
  claim (Signed who) role_to_claim s = Ok u s' → widths_ok s → widths_ok s'.
Proof.
  intros Hcl Hs. pose proof (claims_width who s Hs) as Hw. destruct Hs as [Ha Hp Hc Hacc].
  pose proof (claim_Ok _ _ _ _ _ Hcl) as (_ & _ & Hpend).
  pose proof (claim_frame _ _ _ _ _ Hcl) as (Hau & Hpe & Hac).
  split; rewrite ?Hau, ?Hpe; [done..| |].
  - rewrite Hpend. apply map_Forall_insert_2; [|done]. apply Forall_forall. intros c Hin.
    rewrite list_elem_of_In, filter_In, <- list_elem_of_In in Hin. destruct Hin as [Hin _].
    rewrite Forall_forall in Hw. by apply Hw.
  - intros k x Hk. exact (Hacc _ _ (Hac _ _ Hk)).
Qed.
End Facts.

Section Properties.
Context {B T : Type} `{Ledger B} `{AMConfig} `{RewardsConfig B} `{AttestersReadApi T}.
Implicit Types s : RewState B T.


(** A claim of zero blocks its owner.  The share of an attester without
    commission is recorded as a claim of zero, and from then on claiming, with
    no role or as an attester, is refused as if nothing were pending, whatever
    else the attester has earned. *)
Theorem zero_commission_blocks_claims a info r role_to_claim s :
  IsClaimingHalted s = false →
  api_read_attester_info (rw_att s) a = Some info → commission info = 0 →
  role_to_claim = None ∨ role_to_claim = Some Attester →
  let s' := reward_attester r s a in
  claim (Signed a) role_to_claim s' = Err (RewardsModuleError NoPendingClaims) s'.
Proof.
  intros Hh Hi Hc Hr s'.
  assert (IsClaimingHalted s' = false ∧ ∃ c, c ∈ default [] (pending_claims s' !! a) ∧
    claim_role c = Attester ∧ total_round_claim c = 0) as (Hh' & c & Hin & Hrole & Hz).
  { subst s'. unfold reward_attester. rewrite Hi, Hc. apply zero_claim_stays. split; [done|].
    eexists. simpl. rewrite lookup_insert_eq. split; [apply elem_of_app; right; left|].
    by split. }
  clearbody s'. unfold claim, transactional. erewrite bind_Ok by reflexivity. rewrite Hh'.
  erewrite bind_Ok by reflexivity. unfold ensure_signed. erewrite bind_Ok by reflexivity.
  erewrite bind_Ok by reflexivity.
  rewrite (bool_decide_eq_false_2 (default [] (pending_claims s' !! a) = [])).
  2: { intros Hnil. rewrite Hnil in Hin. by inversion Hin. }
  erewrite bind_Ok by reflexivity.
  assert (forallb (λ c, 0 <? total_round_claim c)
    (claims_to_process role_to_claim (default [] (pending_claims s' !! a))) = false) as ->.
  { apply not_true_iff_false. rewrite forallb_forall. intros Hall. specialize (Hall c).
    rewrite Hz in Hall. discriminate Hall. apply list_elem_of_In, claims_to_process_elem.
    split; [done|]. destruct Hr as [->| ->]; done. }
  by erewrite bind_Err by reflexivity.
Qed.

(** A repatriation never traps, as long as at most half of the slash treasury
    may be used and the currency lets an account spend down to its minimum: the
    withdrawal the source expects to succeed does.  Twice the amount claimed is
    taken from the slash treasury, the amount is claimed and the amount goes to
    the fee treasury; it is at most the maximal reward of the side effect. *)
Theorem repatriation_never_traps sfx_id fsx status requester s :
  0 ≤ repatriation_percentage s ≤ 50 →
  0 ≤ free_balance (rw_bank s) (rewards_treasury TreasurySlash) ≤ u128_max →
  0 ≤ minimum_balance →
  (∀ who x b, x ≤ free_balance b who - minimum_balance → ∃ b', withdraw_transfer who x b = ROk b') →
  wp (repatriate_for_faulty_or_missing_attestation sfx_id fsx status requester)
    (λ repatriated s',
       if repatriated : bool then
         let amount := amount_to_be_repatriated fsx s in
         minimum_balance < amount ≤ max_repatriation fsx ∧
         pending_total s' = pending_total s + amount ∧
         ∃ b, withdraw_transfer (rewards_treasury TreasurySlash) (2 * amount) (rw_bank s) = ROk b ∧
              rw_bank s' = deposit_creating (rewards_treasury TreasuryFee) amount b
       else s' = s)
    (λ _ _, False) s.
Proof.
  intros Hp Hb Hm Hw. unfold repatriate_for_faulty_or_missing_attestation. step_wp. step_wp.
  change (id s) with s. set (amount := amount_to_be_repatriated fsx s).
  destruct (Z.leb_spec amount minimum_balance) as [|Hlt]; [done|].
  destruct (repatriation_beneficiary fsx status requester) as [[who|] r]; [|done].
  destruct (negb _); [done|].
  destruct (repatriation_affordable fsx s Hp Hb Hm Hlt) as [Hle Hsmall]. fold amount in Hle, Hsmall.
  destruct (Hw _ _ _ Hle) as [b Hb']. fold amount in Hb'.
  rewrite Z.min_r by lia. rewrite (Z.mul_comm amount 2), Hb'.
  repeat step_wp. simpl. split; [unfold amount, amount_to_be_repatriated in *; lia|].
  split; [|by exists b].
  exact (update_pending_total who r amount SlashTreasury None (set_rw_bank b s)).
Qed.

(** A distribution of the inflation is recorded, and creates no more claims
    than its record says: the attesters together claim at most their part of what
    is available, the executors at most what they have settled. *)
Theorem distribution_creates_recorded_claims s :
  IsDistributionHalted s = false → attesters_view_ok (rw_att s) →
  0 ≤ MaxRewardExecutorsKickback s ≤ 100 →
  (∀ p q, 0 ≤ perbill_from_rational p q) →
  map_Forall (λ _ x, 0 ≤ x) (accumulated_settlements s) →
  let available := balance_for_distribution s in
  0 ≤ available → 0 ≤ AttesterInflation → 0 ≤ ExecutorInflation → 0 ≤ CollatorInflation →
  perbill_mul_ceil AttesterInflation available ≤ u128_max →
  author_rewards (perbill_mul_ceil CollatorInflation available)
    (storage_iter (authors_this_period s)) ≤ u128_max →
  let s' := (distribute_inflation s).1 in
  ∃ r, DistributionHistory s' = DistributionHistory s ++ [r] ∧ dr_available r = available ∧
    pending_total s' ≤ pending_total s + dr_attester_rewards r + dr_collator_rewards r
                       + dr_executor_rewards r ∧
    dr_attester_rewards r ≤ perbill_mul_ceil AttesterInflation available ∧
    dr_executor_rewards r ≤ amounts (native_settlements s).
Proof.
  intros Hh Hv Hk Hp Hs available Ha HA HE HC Hmax Hauth s'. subst s'.
  unfold distribute_inflation. rewrite Hh. fold available.
  assert (∀ p, 0 ≤ p → 0 ≤ perbill_mul_ceil p available) as Hpos
    by (intros p Hp0; apply Z.div_pos; nia).
  pose proof (distribute_attester_bounded (perbill_mul_ceil AttesterInflation available) s Hv) as Ra.
  pose proof (distribute_attester_books (perbill_mul_ceil AttesterInflation available) s) as Ba.
  destruct (distribute_attester_rewards _ s) as [s1 x1].
  destruct Ra as (Ra & Ra' & _); [split; [by apply Hpos|done]|]. simpl in Ba.
  pose proof (distribute_collator_exact (perbill_mul_ceil CollatorInflation available) s1) as Rc.
  pose proof (distribute_collator_books (perbill_mul_ceil CollatorInflation available) s1) as Bc.
  destruct (distribute_collator_rewards _ s1) as [s2 x2]. simpl in Bc. rewrite Ba in Bc.
  injection Ba as Ba1 Ba2 Ba3 Ba4. injection Bc as Bc1 Bc2 Bc3 Bc4.
  rewrite Ba1 in Rc. specialize (Rc (Hpos _ HC) Hp Hauth).
  pose proof (distribute_executor_exact (perbill_mul_ceil ExecutorInflation available) s2) as Re.
  pose proof (distribute_executor_history (perbill_mul_ceil ExecutorInflation available) s2) as Be.
  destruct (distribute_executor_rewards _ s2) as [s3 x3]. simpl in Be.
  rewrite Bc2, Bc3 in Re. destruct Re as [Re Re']; [by apply Hpos|done..|].
  eexists. split; [simpl; rewrite Be, Bc4; reflexivity|]. simpl. split; [done|].
  unfold pending_total at 1. simpl. fold (pending_total s3). split; [lia|]. split; [lia|].
  replace (native_settlements s) with (native_settlements s2); [lia|].
  unfold native_settlements. by rewrite Bc2.
Qed.
(** The settlements of the executors in the current round are turned into claims
    exactly once.  The first run in a round adds every settlement to the claims
    and to the running total of its executor and asset; a second run in the same
    round changes nothing. *)
Theorem settlements_accumulated_once s :
  let executions := executions_this_round s in
  IsSettlementAccumulationHalted s = false →
  LastProcessedRound s ≠ Some (current_round (rw_am s)) →
  claims_nonneg s → Forall (λ es, 0 ≤ settlement_amount es.2) executions →
  (∀ k, 0 ≤ accumulated s k) →
  pending_total s + executed_total executions ≤ u128_max →
  (∀ k, accumulated s k + executed k executions ≤ u128_max) →
  let s' := (process_accumulated_settlements s).1 in
  pending_total s' = pending_total s + executed_total executions ∧
  (∀ k, accumulated s' k = accumulated s k + executed k executions) ∧
  (process_accumulated_settlements s').1 = s'.
Proof.
  intros executions Hh Hr Hs Hl Hacc Hp Hk s'. subst s'.
  unfold process_accumulated_settlements at 1 2 4 5. rewrite Hh.
  rewrite (bool_decide_eq_false_2 _ Hr). fold executions. cbn [fst].
  destruct (accumulate_all executions s Hs Hl Hacc Hp Hk) as [Hsum Hall].
  split; [exact Hsum|]. split; [exact Hall|].
  assert (rw_am (fold_left accumulate executions s) = rw_am s ∧
    IsSettlementAccumulationHalted (fold_left accumulate executions s) = false) as [Ham Hh'].
  { apply (fold_left_inv (λ s', rw_am s' = rw_am s ∧ IsSettlementAccumulationHalted s' = false));
      [done|]. by intros s' [e st] _ Hs'. }
  unfold process_accumulated_settlements. simpl. rewrite Hh', Ham.
  by rewrite bool_decide_eq_true_2.
Qed.

(** The map of the authors of the period never holds more than 512 authors.
    While there is room the block of the author is counted, and no other count
    changes. *)
Theorem authors_bounded a s :
  (size (authors_this_period s) ≤ MAX_AUTHORS)%nat →
  let s' := (process_author (Some a) s).1 in
  (size (authors_this_period s') ≤ MAX_AUTHORS)%nat ∧
  ((size (authors_this_period s) < MAX_AUTHORS)%nat →
   authors_this_period s' !! a = Some (wrap32 (default 0 (authors_this_period s !! a) + 1)) ∧
   ∀ b, b ≠ a → authors_this_period s' !! b = authors_this_period s !! b).
Proof.
  intros Hsize s'. subst s'. unfold process_author. cbn [fst].
  change (authors_this_period (set_authors_this_period ?m s)) with m.
  generalize dependent (authors_this_period s). intros m Hsize.
  assert (size (count_author a m) ≤ S (size m))%nat as Hc.
  { unfold count_author. rewrite map_size_insert. destruct (m !! a); simpl; lia. }
  destruct (Nat.ltb_spec MAX_AUTHORS (size (count_author a m))) as [Hgt|Hle]; split.
  - destruct (min_author_some (count_author a m)) as [k Hk].
    { intros He. rewrite He, map_size_empty in Hgt. lia. }
    rewrite Hk. simpl default. rewrite map_size_delete.
    destruct (min_author_elem _ _ Hk) as [n ->]. simpl. lia.
  - lia.
  - done.
  - intros _. unfold count_author. rewrite lookup_insert_eq. split; [done|].
    intros b Hb. by rewrite lookup_insert_ne.
Qed.

(** The authors reported as inactive are never validators of the session: those
    who produced blocks without being validators.  A validator that produced no
    block, the one to be disabled, is never reported. *)
Theorem no_inactive_validator_found validators a s :
  (a ∈ find_inactive_authors validators s ↔
    is_Some (authors_this_period s !! a) ∧ a ∉ validators) ∧
  (a ∈ validators → a ∉ find_inactive_authors validators s).
Proof.
  assert (a ∈ find_inactive_authors validators s ↔
    is_Some (authors_this_period s !! a) ∧ a ∉ validators) as Hiff; [|naive_solver].
  unfold find_inactive_authors. rewrite list_elem_of_In, in_map_iff. split.
  - intros ([a' n] & <- & [Hin Hv]%filter_In). apply list_elem_of_In, storage_iter_elem in Hin.
    apply negb_true_iff, bool_decide_eq_false in Hv. split; [by eexists|done].
  - intros ([n Hn] & Hv). exists (a, n). split; [done|]. apply filter_In.
    split; [by apply list_elem_of_In, storage_iter_elem|]. by apply negb_true_iff, bool_decide_eq_false.
Qed.

End Properties.

(** ** The attesters as the rewards pallet reads them

    The trait [AttestersReadApi] of [primitives/src/attesters.rs] as
    [pallets/attesters/src/lib.rs] implements it, and what the reads of a
    consistent storage promise to the rewards pallet. *)

Section Reads.
Context {E : Type} `{Hashing} `{AttesterCrypto} `{AttestersConfig E}.
Implicit Types s : AttState E.

Definition read_attester_info (attester : AccountId) s : option AttesterInfo :=
  attesters s !! attester.

#[export] Instance attesters_read_api : AttestersReadApi (AttState E) := {|
  api_honest_active_set := honest_active_set;
  api_active_set := active_set;
  api_read_attester_info s a := read_attester_info a s;
  api_read_nominations s a := read_nominations a s;
|}.

Lemma honest_active_short s : (length (honest_active_set s) ≤ length (active_set s))%nat.
Proof.
  unfold honest_active_set. induction (active_set s) as [|a l IH]; simpl; [lia|].
  destruct (negb _); simpl; lia.
Qed.

(** Commissions are percentages, and the nominations of an attester are amounts
    that exist. *)
Lemma attesters_view s :
  map_Forall (λ _ info, 0 ≤ commission info ≤ 100) (attesters s) →
  map_Forall (λ _ x, 0 ≤ x) (nominations s) →
  (∀ a, amounts (read_nominations a s) ≤ u128_max) → attesters_view_ok s.
Proof.
  intros Hc Hn Ht. split.
  - intros a info Hi. exact (Hc a info Hi).
  - intros a. apply Forall_forall. intros [n x] Hin. apply read_nominations_elem in Hin.
    exact (Hn _ _ Hin).
  - exact Ht.
  - apply honest_active_short.
Qed.
End Reads.
