(* ===== verification/Hooks.v ===== *)
(** * The block hook of the runtime

    [runtime/t0rn-parachain/src/hooks.rs]: at the start of every block
    [GlobalOnInitQueues::process] runs, through [Clock::on_initialize], the queues
    of the Circuit and the periodic work of the rewards and clock pallets.

    - [Runtime] is the state these pallets share.  The Circuit ([World]) has the
      account manager, whose current round is the storage of the clock pallet,
      and the state [X] of the pallets it talks to, in which the rewards pallet
      reads the attesters.  [on_circuit], [on_rewards] and [on_clock] run a
      pallet on its part.
    - The session pallet, the overview of the verifiers in the registry of
      gateways and the author in the digest of the block are taken from the class
      [RuntimeConfig].
    - Weights are reference times. *)

From S2P Require Import Prelude Types Status AccountManager World Machine Circuit Queues Calls.
From S2P Require Import Invariant Safety Reach Batches Clock Rewards RewardsProps.

(** [Percent * Weight]: to the nearest, down when in the middle. *)
Definition percent_weight (p w : Z) : Z := (p * w + 49) / 100.

Definition PROCESS_SIGNAL_SHARE : Z := 5.
Definition XTX_TICK_SHARE : Z := 30.
Definition REVERT_XTX_SHARE : Z := 5.
Definition WEEKLY_SHARE : Z := 20.
Definition BI_WEEKLY_SHARE : Z := 10.
Definition DAILY_SHARE : Z := 10.
Definition HOURLY_SHARE : Z := 20.

Definition HOUR : BlockNumber := 60 * 5.
Definition DAY : BlockNumber := 24 * HOUR.
Definition WEEK : BlockNumber := 7 * DAY.
Definition TWO_WEEKS : BlockNumber := 2 * WEEK.
Definition SESSION_PERIOD : BlockNumber := 6 * HOUR.

Record Runtime (B X Y : Type) := mkRuntime {
  rt_circuit : World (AMState B) X;
  rt_rewards : RewState B X;
  rt_clock_events : list ClockEvent;
  rt_session : Y;
  rt_author : option AccountId;
}.
Arguments mkRuntime {B X Y}.
Arguments rt_circuit {B X Y}.
Arguments rt_rewards {B X Y}.
Arguments rt_clock_events {B X Y}.
Arguments rt_session {B X Y}.
Arguments rt_author {B X Y}.

Class RuntimeConfig (X Y : Type) := {
  (** [Session::validators] and [Session::disable]. *)
  session_validators : Y → list AccountId;
  session_disable : AccountId → Y → Y;
  (** [XDNS::check_for_manual_verifier_overview_process]. *)
  verifier_overview : BlockNumber → X → X * Z;
}.

Section Runtime.
Context {B X Y : Type} `{Hashing} `{Ledger B} `{AMConfig} `{!CircuitConfig (AMState B) X}.
Context `{!RewardsConfig B} `{!AttestersReadApi X} `{ClockConfig} `{!RuntimeConfig X Y}.
Context {E : Type}.
Abbreviation R := (Runtime B X Y).
Abbreviation Hook := (M (Runtime B X Y) E).
Implicit Types rt : R.

Definition set_circuit (w : World (AMState B) X) rt : R :=
  mkRuntime w (rt_rewards rt) (rt_clock_events rt) (rt_session rt) (rt_author rt).
Definition set_rewards (s : RewState B X) rt : R :=
  mkRuntime (rt_circuit rt) s (rt_clock_events rt) (rt_session rt) (rt_author rt).
Definition set_clock_events (l : list ClockEvent) rt : R :=
  mkRuntime (rt_circuit rt) (rt_rewards rt) l (rt_session rt) (rt_author rt).
Definition set_session (y : Y) rt : R :=
  mkRuntime (rt_circuit rt) (rt_rewards rt) (rt_clock_events rt) y (rt_author rt).

(** ** Running a pallet on its part of the state *)

Definition on_circuit {T} (m : M (World (AMState B) X) E T) : Hook T := λ rt,
  match m (rt_circuit rt) with
  | Ok x w => Ok x (set_circuit w rt)
  | Err e w => Err e (set_circuit w rt)
  | Panic => Panic
  end.

(** The rewards pallet with the shared account manager, attesters and block. *)
Definition rewards_view rt : RewState B X :=
  let w := rt_circuit rt in
  set_rw_block (w_block w) (set_rw_att (w_ext w) (set_rw_am (w_am w) (rt_rewards rt))).

Definition put_rewards (s : RewState B X) rt : R :=
  set_circuit (set_am (rw_am s) (rt_circuit rt)) (set_rewards s rt).

Definition on_rewards {T} (f : RewState B X → RewState B X * T) : Hook T := λ rt,
  let '(s, x) := f (rewards_view rt) in Ok x (put_rewards s rt).

Definition set_current_round (r : Z * Z * Z) (a : AMState B) : AMState B :=
  mkAM (bank a) (pending_charges a) (settlements_per_round a)
    (contracts_registry_execution_nonce a) r (am_events a).

Definition clock_view rt : ClockState :=
  mkClock (current_round (w_am (rt_circuit rt))) (rt_clock_events rt).

Definition put_clock (c : ClockState) rt : R :=
  let w := rt_circuit rt in
  set_circuit (set_am (set_current_round (CurrentRound c) (w_am w)) w)
    (set_clock_events (clock_events c) rt).

Definition on_clock (f : ClockState → ClockState * Z) : Hook Z := λ rt,
  let '(c, x) := f (clock_view rt) in Ok x (put_clock c rt).

Definition on_ext {T} (f : X → X * T) : Hook T := λ rt,
  let '(x, r) := f (w_ext (rt_circuit rt)) in Ok r (set_circuit (set_ext x (rt_circuit rt)) rt).

(** ** Periodic work *)

Definition process_hourly (n : BlockNumber) (_hook_weight_limit : Z) : Hook Z :=
  overview ← on_ext (verifier_overview n);
  settled ← on_rewards process_accumulated_settlements;
  bumped ← on_clock (check_bump_round n);
  mret (add_weight (add_weight (add_weight 0 overview) settled) bumped).

Definition process_daily (_n : BlockNumber) (_hook_weight_limit : Z) : Hook Z := mret 0.
Definition process_weekly (_n : BlockNumber) (_hook_weight_limit : Z) : Hook Z := mret 0.

Definition process_bi_weekly (_n : BlockNumber) (_hook_weight_limit : Z) : Hook Z :=
  distributed ← on_rewards distribute_inflation;
  authored ← on_rewards process_authors_this_period;
  mret (add_weight (add_weight 0 distributed) authored).

(** [(n % period).is_zero()]. *)
Definition every (period : BlockNumber) (n : BlockNumber) (share limit consumed : Z)
    (work : BlockNumber → Z → Hook Z) : Hook Z :=
  if n mod period =? 0 then
    weight ← work n (percent_weight share limit);
    mret (add_weight consumed weight)
  else mret consumed.

(** The condition is [n & SESSION_PERIOD], bitwise. *)
Definition disable_inactive (n : BlockNumber) rt : R :=
  if Z.land n SESSION_PERIOD =? 0 then
    set_session
      (fold_left (λ y v, session_disable v y)
         (find_inactive_authors (session_validators (rt_session rt)) (rewards_view rt))
         (rt_session rt)) rt
  else rt.

(** [GlobalOnInitQueues::process]. *)
Definition process (n : BlockNumber) (limit : Z) : Hook Z :=
  if 100 <? PROCESS_SIGNAL_SHARE + XTX_TICK_SHARE + REVERT_XTX_SHARE + WEEKLY_SHARE
            + BI_WEEKLY_SHARE + DAILY_SHARE + HOURLY_SHARE
  then mret 0
  else
    total ← every HOUR n HOURLY_SHARE limit 0 process_hourly;
    total ← every DAY n DAILY_SHARE limit total process_daily;
    total ← every WEEK n WEEKLY_SHARE limit total process_weekly;
    total ← every TWO_WEEKS n BI_WEEKLY_SHARE limit total process_bi_weekly;
    modify (disable_inactive n) ;;
    weight ← on_circuit (process_signal_queue n 1 (percent_weight PROCESS_SIGNAL_SHARE limit));
    let total := add_weight total weight in
    weight ← on_circuit (process_xtx_tick_queue n 1 (percent_weight XTX_TICK_SHARE limit));
    let total := add_weight total weight in
    weight ← on_circuit
      (process_emergency_revert_xtx_queue n 10 (percent_weight REVERT_XTX_SHARE limit));
    let total := add_weight total weight in
    author ← gets rt_author;
    authored ← on_rewards (process_author author);
    mret (add_weight total authored.2).

(** [Clock::on_initialize] of this runtime. *)
Definition runtime_on_initialize (max_block : Z) (n : BlockNumber) : Hook Z :=
  clock_on_initialize max_block process n.
End Runtime.

(** ** Lemmas *)

Section Facts.
Context {B X Y : Type} `{Hashing} `{Ledger B} `{AMConfig} `{!CircuitConfig (AMState B) X}.
Context `{!RewardsConfig B} `{!AttestersReadApi X} `{ClockConfig} `{!RuntimeConfig X Y}.
Abbreviation E := DispatchError.
Implicit Types rt : Runtime B X Y.

Lemma history_step (w w' : World (AMState B) X) : reachable w → circuit_step w w' → reachable w'.
Proof. intros (w0 & Hg & Hr) Hs. exists w0. split; [done|]. by eapply rtc_r. Qed.

Lemma others_reachable (w w' : World (AMState B) X) : reachable w → same_core w w' → reachable w'.
Proof. intros Hr Hc. eapply history_step; [done|by apply step_others]. Qed.

(** No signal waits: the signal queue traps on a transaction in bidding. *)
Definition quiet rt : Prop := reachable (rt_circuit rt) ∧ signal_queue (rt_circuit rt) = [].

(** A hook that ends in a state of the history. *)
Definition runs_on {T} (m : M (Runtime B X Y) E T) rt : Prop :=
  wp m (λ _ rt', quiet rt') (λ _ _, False) rt.

Lemma on_rewards_runs {T} (f : RewState B X → RewState B X * T) rt : quiet rt → runs_on (on_rewards f) rt.
Proof.
  intros [Hr Hq]. unfold runs_on, on_rewards, wp. destruct (f _) as [s x].
  split; [|done]. by eapply others_reachable.
Qed.

Lemma on_clock_runs f rt : quiet rt → runs_on (on_clock f) rt.
Proof.
  intros [Hr Hq]. unfold runs_on, on_clock, wp. destruct (f _) as [c x].
  split; [|done]. by eapply others_reachable.
Qed.

Lemma on_ext_runs {T} (f : X → X * T) rt : quiet rt → runs_on (on_ext f) rt.
Proof.
  intros [Hr Hq]. unfold runs_on, on_ext, wp. destruct (f _) as [x r].
  split; [|done]. by eapply others_reachable.
Qed.

Lemma process_hourly_runs n limit rt : quiet rt → runs_on (process_hourly n limit) rt.
Proof.
  intros Hr. apply wp_bind. eapply wp_mono; [by apply on_ext_runs| |done]. intros ? rt1 Hr1.
  apply wp_bind. eapply wp_mono; [by apply on_rewards_runs| |done]. intros ? rt2 Hr2.
  apply wp_bind. eapply wp_mono; [by apply on_clock_runs| |done]. intros ? rt3 Hr3. by apply wp_ret.
Qed.

Lemma process_bi_weekly_runs n limit rt : quiet rt → runs_on (process_bi_weekly n limit) rt.
Proof.
  intros Hr. apply wp_bind. eapply wp_mono; [by apply on_rewards_runs| |done]. intros ? rt1 Hr1.
  apply wp_bind. eapply wp_mono; [by apply on_rewards_runs| |done]. intros ? rt2 Hr2. by apply wp_ret.
Qed.

Lemma every_runs period n share limit consumed work rt :
  (∀ m l rt', quiet rt' → runs_on (work m l) rt') → quiet rt →
  runs_on (every period n share limit consumed work) rt.
Proof.
  intros Hw Hr. unfold every. destruct (_ =? 0); [|by apply wp_ret].
  apply wp_bind. eapply wp_mono; [by apply Hw| |done]. intros ? rt1 Hr1. by apply wp_ret.
Qed.

Lemma signal_queue_runs n i limit rt :
  quiet rt → runs_on (on_circuit (process_signal_queue n i limit)) rt.
Proof.
  intros Hq. unfold runs_on, on_circuit, wp, process_signal_queue, mbind, M_bind, gets.
  destruct Hq as [Hr Hq]. rewrite Hq. simpl. by split.
Qed.

Lemma on_circuit_runs (h : BlockHook) rt :
  reachable (rt_circuit rt) →
  wp (on_circuit (run_hook (E:=E) h)) (λ _ rt', reachable (rt_circuit rt')) (λ _ _, False) rt.
Proof.
  intros Hr. pose proof (run_hook_ok (E:=E) h _ (reachable_inv _ Hr)) as Hok.
  unfold on_circuit, wp in *. destruct (run_hook h (rt_circuit rt)) as [x w'|e w'|] eqn:Hrun; [|done..].
  simpl. eapply history_step; [exact Hr|]. by eapply step_hook.
Qed.

Lemma disable_inactive_quiet n rt : quiet rt → quiet (disable_inactive n rt).
Proof. unfold disable_inactive. by destruct (_ =? 0). Qed.

(** *** Hours *)

Abbreviation round_now rt := (current_round (w_am (rt_circuit rt))).

(** Hour by hour from genesis; between the hours the other work of the blocks
    does not change the round. *)
Inductive hours : nat → Runtime B X Y → Prop :=
| hours_start rt : round_now rt = default_round → LastProcessedRound (rt_rewards rt) = None → hours 0 rt
| hours_next k rt rt1 limit weight rt' :
    hours k rt → round_now rt1 = round_now rt →
    IsSettlementAccumulationHalted (rt_rewards rt1) = false →
    process_hourly (E:=E) (HOUR * Z.of_nat (S k)) limit rt1 = Ok weight rt' → hours (S k) rt'.

Definition round_of_hour (k : nat) : Z * Z * Z :=
  match k with
  | O => default_round
  | S _ => (Z.of_nat k + 1, HOUR * Z.of_nat k, HOUR)
  end.

(** The hour as a whole, whatever has been processed. *)
Lemma process_hourly_result n limit rt weight rt' :
  IsSettlementAccumulationHalted (rt_rewards rt) = false →
  process_hourly (E:=E) n limit rt = Ok weight rt' →
  round_now rt' = CurrentRound (check_bump_round n (mkClock (round_now rt) [])).1 ∧
  LastProcessedRound (rt_rewards rt') = Some (round_now rt).
Proof.
  intros Hh. unfold process_hourly, on_ext, mbind, M_bind. destruct (verifier_overview n _) as [x wx].
  set (rt1 := set_circuit _ rt). unfold on_rewards. set (v := rewards_view rt1).
  assert (rw_am (process_accumulated_settlements v).1 = w_am (rt_circuit rt) ∧
    LastProcessedRound (process_accumulated_settlements v).1 = Some (round_now rt)) as [Ham Hlast].
  { unfold process_accumulated_settlements. change (IsSettlementAccumulationHalted v) with
      (IsSettlementAccumulationHalted (rt_rewards rt)). rewrite Hh. case_bool_decide as Hd; [done|].
    simpl. split; [|done]. apply (fold_left_inv (λ s', rw_am s' = w_am (rt_circuit rt))); [done|].
    by intros s' [e st] _ Hs'. }
  destruct (process_accumulated_settlements v) as [s xs]. simpl in Ham, Hlast.
  unfold on_clock, check_bump_round, clock_view. simpl. rewrite Ham.
  destruct (should_update _ _); intros Hp; unfold mret, M_ret in Hp; simplify_eq; simpl;
    by rewrite ?Ham.
Qed.

Lemma next_hour k :
  RoundDuration = HOUR → HOUR * Z.of_nat (S k) ≤ u32_max →
  CurrentRound (check_bump_round (HOUR * Z.of_nat (S k)) (mkClock (round_of_hour k) [])).1 =
  round_of_hour (S k).
Proof.
  intros Hd Hmax. unfold check_bump_round. cbn [CurrentRound].
  assert (should_update (round_of_hour k) (HOUR * Z.of_nat (S k)) = true) as ->.
  { unfold should_update, wrap32. unfold HOUR, u32_max in *. destruct k as [|k]; [done|].
    cbn [round_of_hour round_term round_head fst snd]. unfold HOUR.
    rewrite Z.mod_small by lia. apply Z.leb_le. lia. }
  cbn [fst CurrentRound]. rewrite Hd. unfold round_of_hour at 2. unfold saturating_add.
  assert (round_index (round_of_hour k) = Z.of_nat k + 1) as -> by by destruct k.
  unfold HOUR, u32_max in *. rewrite Z.min_r by lia. do 2 f_equal. lia.
Qed.
End Facts.

(** ** Properties *)

Section Properties.
Context {B X Y : Type} `{Hashing} `{Ledger B} `{AMConfig} `{!CircuitConfig (AMState B) X}.
Context `{!RewardsConfig B} `{!AttestersReadApi X} `{ClockConfig} `{!RuntimeConfig X Y}.
Implicit Types rt : Runtime B X Y.


(** When an hour ends in a round that has run its term, the settlements of the
    executors in that round are turned into claims before the next round
    starts: every one of them is added to the running totals, the round is
    marked as processed, and the round with the next index starts at this block. *)
Theorem hour_closes_round n limit rt :
  let r := current_round (w_am (rt_circuit rt)) in
  let s := rt_rewards rt in
  let executions := get_settlements_by_role Executor (w_am (rt_circuit rt)) in
  is_u32 n → 0 ≤ round_head r → round_head r + round_term r ≤ n → 0 ≤ round_term r →
  round_index r < u32_max →
  IsSettlementAccumulationHalted s = false → LastProcessedRound s ≠ Some r →
  claims_nonneg s → Forall (λ es, 0 ≤ settlement_amount es.2) executions →
  (∀ k, 0 ≤ accumulated s k) → pending_total s + executed_total executions ≤ u128_max →
  (∀ k, accumulated s k + executed k executions ≤ u128_max) →
  ∃ weight rt', process_hourly (E:=DispatchError) n limit rt = Ok weight rt' ∧
    pending_total (rt_rewards rt') = pending_total s + executed_total executions ∧
    (∀ k, accumulated (rt_rewards rt') k = accumulated s k + executed k executions) ∧
    LastProcessedRound (rt_rewards rt') = Some r ∧
    current_round (w_am (rt_circuit rt')) = (round_index r + 1, n, RoundDuration).
Proof.
  intros r s executions Hn Hh Hterm Ht Hi Hhalt Hlast Hs Hl Hacc Hp Hk.
  unfold process_hourly, on_ext, mbind, M_bind. destruct (verifier_overview n _) as [x wx].
  set (rt1 := set_circuit _ rt). unfold on_rewards at 1.
  set (v := rewards_view rt1).
  assert (executions_this_round v = executions) as Hex by done.
  destruct (accumulate_all executions v Hs Hl Hacc Hp Hk) as [Hsum Hall].
  assert (rw_am (fold_left accumulate executions v) = w_am (rt_circuit rt)) as Ham.
  { apply (fold_left_inv (λ s', rw_am s' = w_am (rt_circuit rt))); [done|].
    by intros s' [e st] _ Hs'. }
  unfold process_accumulated_settlements. change (IsSettlementAccumulationHalted v) with
    (IsSettlementAccumulationHalted s). rewrite Hhalt.
  change (current_round (rw_am v)) with r. change (LastProcessedRound v) with (LastProcessedRound s).
  rewrite (bool_decide_eq_false_2 _ Hlast), Hex. unfold on_clock, check_bump_round, clock_view.
  cbn [put_rewards rt_circuit set_circuit w_am set_am rw_am set_LastProcessedRound CurrentRound].
  rewrite Ham. fold r. unfold should_update, wrap32.
  unfold is_u32, u32_max in *. rewrite Z.mod_small by lia. rewrite (proj2 (Z.leb_le _ _)) by lia.
  eexists _, _. split; [reflexivity|]. split; [exact Hsum|]. split; [exact Hall|]. split; [done|].
  simpl. unfold saturating_add. by rewrite Z.min_r by lia.
Qed.

(** The clock keeps pace.  From the round of the genesis, with rounds of an hour
    as the runtime configures them, the k-th hour starts the round with index
    k + 1 at its first block, and the round before it is the last one whose
    settlements were processed: no round passes unprocessed. *)
Theorem every_round_processed k rt :
  RoundDuration = HOUR → hours k rt → HOUR * Z.of_nat k ≤ u32_max →
  current_round (w_am (rt_circuit rt)) = round_of_hour k ∧
  LastProcessedRound (rt_rewards rt) =
    match k with O => None | S j => Some (round_of_hour j) end.
Proof.
  intros Hd Hk. induction Hk as [rt Hr Hl|k rt rt1 limit weight rt' Hk IH Hr Hh Hp]; [done|].
  intros Hmax. destruct IH as [IH _]; [unfold HOUR in *; lia|].
  apply process_hourly_result in Hp as [-> ->]; [|done]. rewrite Hr, IH.
  split; [by apply next_hour|done].
Qed.
End Properties.
