(* ===== verification/Xdns.v ===== *)
(** * The registry of gateways

    [pallets/xdns/src/lib.rs], [primitives/src/xdns.rs] and the activity of the
    verifiers in [primitives/src/lib.rs]: which chains the Circuit reaches, with
    which light client, side effects and tokens; which of them are active; and
    how long an execution there may take.

    - [XdnsState E] is the storage of the pallet over the state [E] of the
      pallets it calls (assets, portal, attesters).  Storage that no function
      touches is left out.  [unhashed] has the raw entries of former layouts.
    - Maps hashed with [Identity] are iterated in the order of the bytes of
      their keys: [iter_by], with the key read as a big-endian number.  An asset
      identifier is encoded little-endian.
    - The calls back into the Circuit ([CircuitDLQ]) may read the registry and
      so refresh its overview: they act on the whole state.
    - Sums of [u32] and plain additions wrap. *)

From S2P Require Import Prelude Types AccountManager World Circuit StandardAbi Vacuum Batches Attesters.

(** ** Data *)

(** [EpochEstimate] (primitives/src/xdns.rs). *)
Record EpochEstimate := mkEpochEstimate {
  epoch_local : BlockNumber;
  epoch_remote : BlockNumber;
  moving_average_local : BlockNumber;
  moving_average_remote : BlockNumber;
}.

#[export] Instance ExecutionVendor_eq_dec : EqDecision ExecutionVendor.
Proof. solve_decision. Defined.
#[export] Instance Codec_eq_dec : EqDecision Codec.
Proof. solve_decision. Defined.

Record GatewayRecord := mkGateway {
  gateway_id : TargetId;
  verification_vendor : GatewayVendor;
  execution_vendor : ExecutionVendor;
  gateway_codec : Codec;
  registrant : option AccountId;
  escrow_account : option AccountId;
  gateway_allowed_side_effects : list (list Z * option Z);
}.

#[export] Instance GatewayRecord_eq_dec : EqDecision GatewayRecord.
Proof. solve_decision. Defined.

Definition set_escrow_account (v : option AccountId) (g : GatewayRecord) : GatewayRecord :=
  mkGateway (gateway_id g) (verification_vendor g) (execution_vendor g) (gateway_codec g)
    (registrant g) v (gateway_allowed_side_effects g).
Definition set_gateway_allowed (v : list (list Z * option Z)) (g : GatewayRecord) : GatewayRecord :=
  mkGateway (gateway_id g) (verification_vendor g) (execution_vendor g) (gateway_codec g)
    (registrant g) (escrow_account g) v.

Record FullGatewayRecord := mkFullGateway {
  gateway_record : GatewayRecord;
  gateway_record_tokens : list TokenRecord;
}.

(** [XDNSTopology] (primitives/src/lib.rs). *)
Record XDNSTopology := mkTopology {
  topology_gateways : list FullGatewayRecord;
  topology_assets : list TokenRecord;
}.

Record FinalityVerifierActivity := mkVerifierActivity {
  fva_verifier : GatewayVendor;
  fva_reported_at : BlockNumber;
  fva_justified_height : BlockNumber;
  fva_finalized_height : BlockNumber;
  fva_updated_height : BlockNumber;
  fva_epoch : BlockNumber;
  fva_is_active : bool;
}.

(** [Default]. *)
Definition default_activity : FinalityVerifierActivity :=
  mkVerifierActivity Rococo 0 0 0 0 0 false.

Definition new_for_finalized_compare (reported_at finalized_height : BlockNumber)
    : FinalityVerifierActivity :=
  mkVerifierActivity Rococo reported_at 0 finalized_height 0 0 false.

Record GatewayActivity := mkGatewayActivity {
  ga_gateway_id : TargetId;
  ga_reported_at : BlockNumber;
  ga_justified_height : BlockNumber;
  ga_finalized_height : BlockNumber;
  ga_updated_height : BlockNumber;
  ga_attestation_latency : option LatencyStatus;
  ga_security_lvl : SecurityLvl;
  ga_is_active : bool;
}.

Inductive XdnsEvent :=
| EvGatewayRecordStored (gateway : TargetId)
| EvNewTokenLinkedToGateway (asset : AssetId) (gateway : TargetId)
| EvNewTokenAssetRegistered (asset : AssetId) (gateway : TargetId)
| EvGatewayRecordPurged (requester : AccountId) (gateway : TargetId)
| EvXDNSTopologyZip (topology : XDNSTopology).

(** ** Storage *)

Record XdnsState (E : Type) := mkXdns {
  xd_ext : E;
  xd_block : BlockNumber;
  unhashed : gmap (list Z) (list Z);
  StandardSideEffects : gmap (list Z) (list Z);
  StorageMigrations : Z;
  StandardSFXABIs : gmap (list Z) SfxAbi;
  SFXABIRegistry : gmap (list Z * list Z) SfxAbi;
  Gateways : gmap (list Z) GatewayRecord;
  Tokens : gmap (Z * list Z) TokenRecord;
  GatewayTokens : gmap (list Z) (list Z);
  AllTokenIds : list AssetId;
  AuthorizedMintAssets : list (AssetId * TargetId);
  AllGatewayIds : list TargetId;
  RemoteOrderAddresses : gmap (list Z) Hash;
  RemoteBiddingAddresses : gmap (list Z) Hash;
  GatewaysOverviewStore : list GatewayActivity;
  VerifierOverviewStore : list FinalityVerifierActivity;
  GatewaysOverviewStoreHistory : gmap (list Z) (list GatewayActivity);
  VerifierOverviewStoreHistory : gmap GatewayVendor (list FinalityVerifierActivity);
  EpochHistory : gmap GatewayVendor (list EpochEstimate);
  xd_events : list XdnsEvent;
}.
Arguments mkXdns {E}.
Arguments xd_ext {E}.
Arguments xd_block {E}.
Arguments unhashed {E}.
Arguments StandardSideEffects {E}.
Arguments StorageMigrations {E}.
Arguments StandardSFXABIs {E}.
Arguments SFXABIRegistry {E}.
Arguments Gateways {E}.
Arguments Tokens {E}.
Arguments GatewayTokens {E}.
Arguments AllTokenIds {E}.
Arguments AuthorizedMintAssets {E}.
Arguments AllGatewayIds {E}.
Arguments RemoteOrderAddresses {E}.
Arguments RemoteBiddingAddresses {E}.
Arguments GatewaysOverviewStore {E}.
Arguments VerifierOverviewStore {E}.
Arguments GatewaysOverviewStoreHistory {E}.
Arguments VerifierOverviewStoreHistory {E}.
Arguments EpochHistory {E}.
Arguments xd_events {E}.

Section XdnsStateSetters.
Context {E : Type}.
Definition set_xd_ext (v : E) (s : XdnsState E) : XdnsState E :=
  mkXdns v (xd_block s) (unhashed s) (StandardSideEffects s) (StorageMigrations s)
    (StandardSFXABIs s) (SFXABIRegistry s) (Gateways s) (Tokens s) (GatewayTokens s)
    (AllTokenIds s) (AuthorizedMintAssets s) (AllGatewayIds s) (RemoteOrderAddresses s)
    (RemoteBiddingAddresses s) (GatewaysOverviewStore s) (VerifierOverviewStore s)
    (GatewaysOverviewStoreHistory s) (VerifierOverviewStoreHistory s) (EpochHistory s)
    (xd_events s).
Definition set_xd_block (v : BlockNumber) (s : XdnsState E) : XdnsState E :=
  mkXdns (xd_ext s) v (unhashed s) (StandardSideEffects s) (StorageMigrations s)
    (StandardSFXABIs s) (SFXABIRegistry s) (Gateways s) (Tokens s) (GatewayTokens s)
    (AllTokenIds s) (AuthorizedMintAssets s) (AllGatewayIds s) (RemoteOrderAddresses s)
    (RemoteBiddingAddresses s) (GatewaysOverviewStore s) (VerifierOverviewStore s)
    (GatewaysOverviewStoreHistory s) (VerifierOverviewStoreHistory s) (EpochHistory s)
    (xd_events s).
Definition set_unhashed (v : gmap (list Z) (list Z)) (s : XdnsState E) : XdnsState E :=
  mkXdns (xd_ext s) (xd_block s) v (StandardSideEffects s) (StorageMigrations s)
    (StandardSFXABIs s) (SFXABIRegistry s) (Gateways s) (Tokens s) (GatewayTokens s)
    (AllTokenIds s) (AuthorizedMintAssets s) (AllGatewayIds s) (RemoteOrderAddresses s)
    (RemoteBiddingAddresses s) (GatewaysOverviewStore s) (VerifierOverviewStore s)
    (GatewaysOverviewStoreHistory s) (VerifierOverviewStoreHistory s) (EpochHistory s)
    (xd_events s).
Definition set_StandardSideEffects (v : gmap (list Z) (list Z)) (s : XdnsState E) : XdnsState E :=
  mkXdns (xd_ext s) (xd_block s) (unhashed s) v (StorageMigrations s) (StandardSFXABIs s)
    (SFXABIRegistry s) (Gateways s) (Tokens s) (GatewayTokens s) (AllTokenIds s)
    (AuthorizedMintAssets s) (AllGatewayIds s) (RemoteOrderAddresses s)
    (RemoteBiddingAddresses s) (GatewaysOverviewStore s) (VerifierOverviewStore s)
    (GatewaysOverviewStoreHistory s) (VerifierOverviewStoreHistory s) (EpochHistory s)
    (xd_events s).
Definition set_StorageMigrations (v : Z) (s : XdnsState E) : XdnsState E :=
  mkXdns (xd_ext s) (xd_block s) (unhashed s) (StandardSideEffects s) v (StandardSFXABIs s)
    (SFXABIRegistry s) (Gateways s) (Tokens s) (GatewayTokens s) (AllTokenIds s)
    (AuthorizedMintAssets s) (AllGatewayIds s) (RemoteOrderAddresses s)
    (RemoteBiddingAddresses s) (GatewaysOverviewStore s) (VerifierOverviewStore s)
    (GatewaysOverviewStoreHistory s) (VerifierOverviewStoreHistory s) (EpochHistory s)
    (xd_events s).
Definition set_StandardSFXABIs (v : gmap (list Z) SfxAbi) (s : XdnsState E) : XdnsState E :=
  mkXdns (xd_ext s) (xd_block s) (unhashed s) (StandardSideEffects s) (StorageMigrations s)
    v (SFXABIRegistry s) (Gateways s) (Tokens s) (GatewayTokens s) (AllTokenIds s)
    (AuthorizedMintAssets s) (AllGatewayIds s) (RemoteOrderAddresses s)
    (RemoteBiddingAddresses s) (GatewaysOverviewStore s) (VerifierOverviewStore s)
    (GatewaysOverviewStoreHistory s) (VerifierOverviewStoreHistory s) (EpochHistory s)
    (xd_events s).
Definition set_SFXABIRegistry (v : gmap (list Z * list Z) SfxAbi) (s : XdnsState E) : XdnsState E :=
  mkXdns (xd_ext s) (xd_block s) (unhashed s) (StandardSideEffects s) (StorageMigrations s)
    (StandardSFXABIs s) v (Gateways s) (Tokens s) (GatewayTokens s) (AllTokenIds s)
    (AuthorizedMintAssets s) (AllGatewayIds s) (RemoteOrderAddresses s)
    (RemoteBiddingAddresses s) (GatewaysOverviewStore s) (VerifierOverviewStore s)
    (GatewaysOverviewStoreHistory s) (VerifierOverviewStoreHistory s) (EpochHistory s)
    (xd_events s).
Definition set_Gateways (v : gmap (list Z) GatewayRecord) (s : XdnsState E) : XdnsState E :=
  mkXdns (xd_ext s) (xd_block s) (unhashed s) (StandardSideEffects s) (StorageMigrations s)
    (StandardSFXABIs s) (SFXABIRegistry s) v (Tokens s) (GatewayTokens s) (AllTokenIds s)
    (AuthorizedMintAssets s) (AllGatewayIds s) (RemoteOrderAddresses s)
    (RemoteBiddingAddresses s) (GatewaysOverviewStore s) (VerifierOverviewStore s)
    (GatewaysOverviewStoreHistory s) (VerifierOverviewStoreHistory s) (EpochHistory s)
    (xd_events s).
Definition set_Tokens (v : gmap (Z * list Z) TokenRecord) (s : XdnsState E) : XdnsState E :=
  mkXdns (xd_ext s) (xd_block s) (unhashed s) (StandardSideEffects s) (StorageMigrations s)
    (StandardSFXABIs s) (SFXABIRegistry s) (Gateways s) v (GatewayTokens s) (AllTokenIds s)
    (AuthorizedMintAssets s) (AllGatewayIds s) (RemoteOrderAddresses s)
    (RemoteBiddingAddresses s) (GatewaysOverviewStore s) (VerifierOverviewStore s)
    (GatewaysOverviewStoreHistory s) (VerifierOverviewStoreHistory s) (EpochHistory s)
    (xd_events s).
Definition set_GatewayTokens (v : gmap (list Z) (list Z)) (s : XdnsState E) : XdnsState E :=
  mkXdns (xd_ext s) (xd_block s) (unhashed s) (StandardSideEffects s) (StorageMigrations s)
    (StandardSFXABIs s) (SFXABIRegistry s) (Gateways s) (Tokens s) v (AllTokenIds s)
    (AuthorizedMintAssets s) (AllGatewayIds s) (RemoteOrderAddresses s)
    (RemoteBiddingAddresses s) (GatewaysOverviewStore s) (VerifierOverviewStore s)
    (GatewaysOverviewStoreHistory s) (VerifierOverviewStoreHistory s) (EpochHistory s)
    (xd_events s).
Definition set_AllTokenIds (v : list AssetId) (s : XdnsState E) : XdnsState E :=
  mkXdns (xd_ext s) (xd_block s) (unhashed s) (StandardSideEffects s) (StorageMigrations s)
    (StandardSFXABIs s) (SFXABIRegistry s) (Gateways s) (Tokens s) (GatewayTokens s) v
    (AuthorizedMintAssets s) (AllGatewayIds s) (RemoteOrderAddresses s)
    (RemoteBiddingAddresses s) (GatewaysOverviewStore s) (VerifierOverviewStore s)
    (GatewaysOverviewStoreHistory s) (VerifierOverviewStoreHistory s) (EpochHistory s)
    (xd_events s).
Definition set_AuthorizedMintAssets (v : list (AssetId * TargetId)) (s : XdnsState E) : XdnsState E :=
  mkXdns (xd_ext s) (xd_block s) (unhashed s) (StandardSideEffects s) (StorageMigrations s)
    (StandardSFXABIs s) (SFXABIRegistry s) (Gateways s) (Tokens s) (GatewayTokens s)
    (AllTokenIds s) v (AllGatewayIds s) (RemoteOrderAddresses s) (RemoteBiddingAddresses s)
    (GatewaysOverviewStore s) (VerifierOverviewStore s) (GatewaysOverviewStoreHistory s)
    (VerifierOverviewStoreHistory s) (EpochHistory s) (xd_events s).
Definition set_AllGatewayIds (v : list TargetId) (s : XdnsState E) : XdnsState E :=
  mkXdns (xd_ext s) (xd_block s) (unhashed s) (StandardSideEffects s) (StorageMigrations s)
    (StandardSFXABIs s) (SFXABIRegistry s) (Gateways s) (Tokens s) (GatewayTokens s)
    (AllTokenIds s) (AuthorizedMintAssets s) v (RemoteOrderAddresses s)
    (RemoteBiddingAddresses s) (GatewaysOverviewStore s) (VerifierOverviewStore s)
    (GatewaysOverviewStoreHistory s) (VerifierOverviewStoreHistory s) (EpochHistory s)
    (xd_events s).
Definition set_RemoteOrderAddresses (v : gmap (list Z) Hash) (s : XdnsState E) : XdnsState E :=
  mkXdns (xd_ext s) (xd_block s) (unhashed s) (StandardSideEffects s) (StorageMigrations s)
    (StandardSFXABIs s) (SFXABIRegistry s) (Gateways s) (Tokens s) (GatewayTokens s)
    (AllTokenIds s) (AuthorizedMintAssets s) (AllGatewayIds s) v (RemoteBiddingAddresses s)
    (GatewaysOverviewStore s) (VerifierOverviewStore s) (GatewaysOverviewStoreHistory s)
    (VerifierOverviewStoreHistory s) (EpochHistory s) (xd_events s).
Definition set_RemoteBiddingAddresses (v : gmap (list Z) Hash) (s : XdnsState E) : XdnsState E :=
  mkXdns (xd_ext s) (xd_block s) (unhashed s) (StandardSideEffects s) (StorageMigrations s)
    (StandardSFXABIs s) (SFXABIRegistry s) (Gateways s) (Tokens s) (GatewayTokens s)
    (AllTokenIds s) (AuthorizedMintAssets s) (AllGatewayIds s) (RemoteOrderAddresses s) v
    (GatewaysOverviewStore s) (VerifierOverviewStore s) (GatewaysOverviewStoreHistory s)
    (VerifierOverviewStoreHistory s) (EpochHistory s) (xd_events s).
Definition set_GatewaysOverviewStore (v : list GatewayActivity) (s : XdnsState E) : XdnsState E :=
  mkXdns (xd_ext s) (xd_block s) (unhashed s) (StandardSideEffects s) (StorageMigrations s)
    (StandardSFXABIs s) (SFXABIRegistry s) (Gateways s) (Tokens s) (GatewayTokens s)
    (AllTokenIds s) (AuthorizedMintAssets s) (AllGatewayIds s) (RemoteOrderAddresses s)
    (RemoteBiddingAddresses s) v (VerifierOverviewStore s) (GatewaysOverviewStoreHistory s)
    (VerifierOverviewStoreHistory s) (EpochHistory s) (xd_events s).
Definition set_VerifierOverviewStore (v : list FinalityVerifierActivity) (s : XdnsState E) : XdnsState E :=
  mkXdns (xd_ext s) (xd_block s) (unhashed s) (StandardSideEffects s) (StorageMigrations s)
    (StandardSFXABIs s) (SFXABIRegistry s) (Gateways s) (Tokens s) (GatewayTokens s)
    (AllTokenIds s) (AuthorizedMintAssets s) (AllGatewayIds s) (RemoteOrderAddresses s)
    (RemoteBiddingAddresses s) (GatewaysOverviewStore s) v (GatewaysOverviewStoreHistory s)
    (VerifierOverviewStoreHistory s) (EpochHistory s) (xd_events s).
Definition set_GatewaysOverviewStoreHistory (v : gmap (list Z) (list GatewayActivity)) (s : XdnsState E) : XdnsState E :=
  mkXdns (xd_ext s) (xd_block s) (unhashed s) (StandardSideEffects s) (StorageMigrations s)
    (StandardSFXABIs s) (SFXABIRegistry s) (Gateways s) (Tokens s) (GatewayTokens s)
    (AllTokenIds s) (AuthorizedMintAssets s) (AllGatewayIds s) (RemoteOrderAddresses s)
    (RemoteBiddingAddresses s) (GatewaysOverviewStore s) (VerifierOverviewStore s) v
    (VerifierOverviewStoreHistory s) (EpochHistory s) (xd_events s).
Definition set_VerifierOverviewStoreHistory (v : gmap GatewayVendor (list FinalityVerifierActivity)) (s : XdnsState E) : XdnsState E :=
  mkXdns (xd_ext s) (xd_block s) (unhashed s) (StandardSideEffects s) (StorageMigrations s)
    (StandardSFXABIs s) (SFXABIRegistry s) (Gateways s) (Tokens s) (GatewayTokens s)
    (AllTokenIds s) (AuthorizedMintAssets s) (AllGatewayIds s) (RemoteOrderAddresses s)
    (RemoteBiddingAddresses s) (GatewaysOverviewStore s) (VerifierOverviewStore s)
    (GatewaysOverviewStoreHistory s) v (EpochHistory s) (xd_events s).
Definition set_EpochHistory (v : gmap GatewayVendor (list EpochEstimate)) (s : XdnsState E) : XdnsState E :=
  mkXdns (xd_ext s) (xd_block s) (unhashed s) (StandardSideEffects s) (StorageMigrations s)
    (StandardSFXABIs s) (SFXABIRegistry s) (Gateways s) (Tokens s) (GatewayTokens s)
    (AllTokenIds s) (AuthorizedMintAssets s) (AllGatewayIds s) (RemoteOrderAddresses s)
    (RemoteBiddingAddresses s) (GatewaysOverviewStore s) (VerifierOverviewStore s)
    (GatewaysOverviewStoreHistory s) (VerifierOverviewStoreHistory s) v (xd_events s).
Definition set_xd_events (v : list XdnsEvent) (s : XdnsState E) : XdnsState E :=
  mkXdns (xd_ext s) (xd_block s) (unhashed s) (StandardSideEffects s) (StorageMigrations s)
    (StandardSFXABIs s) (SFXABIRegistry s) (Gateways s) (Tokens s) (GatewayTokens s)
    (AllTokenIds s) (AuthorizedMintAssets s) (AllGatewayIds s) (RemoteOrderAddresses s)
    (RemoteBiddingAddresses s) (GatewaysOverviewStore s) (VerifierOverviewStore s)
    (GatewaysOverviewStoreHistory s) (VerifierOverviewStoreHistory s) (EpochHistory s) v.
End XdnsStateSetters.

Class XdnsConfig (E : Type) := {
  SelfTokenId : AssetId;
  SelfGatewayId : TargetId;
  xd_reads : Z → Z;
  xd_writes : Z → Z;
  xd_reads_writes : Z → Z → Z;
  xdns_treasury : TreasuryAccount → AccountId;
  xdns_minimum_balance : Balance;
  (** [T::AssetsOverlay]. *)
  contains_asset : E → AssetId → bool;
  force_create_asset :
    RawOrigin → AssetId → AccountId → bool → Balance → M E DispatchError unit;
  asset_mint : RawOrigin → AssetId → AccountId → Balance → M E DispatchError unit;
  asset_burn : RawOrigin → AssetId → AccountId → Balance → M E DispatchError unit;
  asset_destroy : RawOrigin → AssetId → M E DispatchError unit;
  (** [T::Portal]. *)
  get_latest_heartbeat : E → TargetId → result DispatchError LightClientHeartbeat;
  get_latest_heartbeat_by_vendor : E → GatewayVendor → LightClientHeartbeat;
  (** [T::AttestersRead]. *)
  attestation_latency : E → TargetId → option LatencyStatus;
  activated_targets : E → list TargetId;
  (** [T::CircuitDLQ]. *)
  dlq_process : BlockNumber → XdnsState E → XdnsState E * Z;
  dlq_adaptive_timeouts : BlockNumber → GatewayVendor → XdnsState E → XdnsState E * Z;
  (** SCALE decoding. *)
  topology_decode : list Z → option XDNSTopology;
  gateway_records_decode : list Z → option (list GatewayRecord);
  standard_abi_decode : list Z → option (list (list Z * SfxAbi));
}.

(** ** Iteration *)

Section Iteration.
Context {K V : Type} `{Countable K} (key : K → Z).

Definition by_key (x y : K * V) : Prop := key x.1 ≤ key y.1.
#[export] Instance by_key_dec : RelDecision by_key := λ x y, decide (key x.1 ≤ key y.1).

Definition iter_by (m : gmap K V) : list (K * V) := merge_sort by_key (map_to_list m).
End Iteration.

(** A key of four bytes, of two such keys, and of an asset and a gateway. *)
Definition key4 (k : list Z) : Z := from_be_bytes k.
Definition key44 (k : list Z * list Z) : Z := from_be_bytes (k.1 ++ k.2).
Definition key_token (k : Z * list Z) : Z := from_be_bytes (le_bytes 4 k.1 ++ k.2).

Definition ensure_signed_or_root {S} (o : RawOrigin) : M S DispatchError (option AccountId) :=
  match o with
  | Root => mret None
  | Signed who => mret (Some who)
  | NoneOrigin => throw BadOrigin
  end.

(** ** Speed of the verifiers (primitives/src/lib.rs) *)

Definition eta_per_speed_mode_in_epochs (v : GatewayVendor) (speed_mode : SpeedMode) : Z :=
  match v with
  | Polkadot | Kusama | Rococo | AttestersVendor | XBI =>
      match speed_mode with Fast => 4 | Rational => 6 | Finalized => 8 | Instant => 1 end
  | Ethereum | Sepolia =>
      match speed_mode with Fast => 1 | Rational => 2 | Finalized => 3 | Instant => 1 end
  end.

Definition saturating_mul32 (a b : Z) : Z := Z.min u32_max (a * b).

Definition calculate_offsets (v : GatewayVendor) (speed_mode : SpeedMode)
    (emergency_offset : BlockNumber) (epoch_history : option (list EpochEstimate))
    : BlockNumber * BlockNumber :=
  let eta_in_epochs := eta_per_speed_mode_in_epochs v speed_mode in
  let '(submit_by_local_offset, submit_by_remote_offset) :=
    match epoch_history ≫= last with
    | Some record =>
        (saturating_mul32 (moving_average_local record) eta_in_epochs,
         saturating_mul32 (moving_average_remote record) eta_in_epochs)
    | None => (emergency_offset, emergency_offset)
    end in
  if (submit_by_local_offset =? 0) || (submit_by_remote_offset =? 0)
  then (emergency_offset, emergency_offset)
  else (submit_by_local_offset, submit_by_remote_offset).

(** The stable sort of the reports by the block they were made at. *)
Fixpoint insert_report (a : FinalityVerifierActivity) (l : list FinalityVerifierActivity)
    : list FinalityVerifierActivity :=
  match l with
  | [] => [a]
  | b :: rest => if fva_reported_at a <=? fva_reported_at b then a :: l else b :: insert_report a rest
  end.

Definition sort_reports (l : list FinalityVerifierActivity) : list FinalityVerifierActivity :=
  foldr insert_report [] l.

Definition determine_finalized_reports_increase (activities : list FinalityVerifierActivity)
    : option (BlockNumber * BlockNumber) :=
  if Nat.ltb (length activities) 2 then None
  else
    let sorted_activities := sort_reports activities in
    oldest_report ← head sorted_activities;
    latest_report ← last sorted_activities;
    if (fva_finalized_height oldest_report =? 0) || (fva_reported_at oldest_report =? 0)
       || (fva_finalized_height latest_report =? 0) || (fva_reported_at latest_report =? 0)
    then None
    else Some (saturating_sub (fva_finalized_height latest_report) (fva_finalized_height oldest_report),
               saturating_sub (fva_reported_at latest_report) (fva_reported_at oldest_report)).

(** ** The pallet *)

Definition MAX_GATEWAY_OVERVIEW_RECORDS : nat := 1000.

Section Xdns.
Context {E : Type} `{!XdnsConfig E}.
Abbreviation X := (XdnsState E).
Abbreviation D := (M (XdnsState E) DispatchError).
Implicit Types s : X.

Definition xdns_event (e : XdnsEvent) s : X := set_xd_events (e :: xd_events s) s.
Definition xdns_err (e : XdnsError) : DispatchError := XdnsModuleError e.

(** A call of the assets pallet. *)
Definition assets {T} (m : M E DispatchError T) : D T := zoom xd_ext set_xd_ext m.

(** *** The activity of the verifiers *)

Definition update_epoch_history (verifier : GatewayVendor)
    (epoch_duration_in_remote_blocks epoch_duration_in_local_blocks : BlockNumber) s : X :=
  let history := default [] (EpochHistory s !! verifier) in
  let history := drop (length history - 10) history in
  let average (f : EpochEstimate → Z) :=
    let n := Z.of_nat (length history) in
    if n =? 0 then 0 else wrap32 (foldr Z.add 0 (map f history)) / n in
  let update := {| epoch_local := epoch_duration_in_local_blocks;
                   epoch_remote := epoch_duration_in_remote_blocks;
                   moving_average_local := average epoch_local;
                   moving_average_remote := average epoch_remote |} in
  set_EpochHistory (<[verifier := history ++ [update]]> (EpochHistory s)) s.

(** [Vec::remove(0)] when the vector is full, and [push]. *)
Definition push_bounded {T} (x : T) (l : list T) : list T :=
  (if Nat.eqb (length l) MAX_GATEWAY_OVERVIEW_RECORDS then drop 1 l else l) ++ [x].

Definition verifier_history (v : GatewayVendor) s : list FinalityVerifierActivity :=
  default [] (VerifierOverviewStoreHistory s !! v).

Definition update_historic_overview (verifier : GatewayVendor)
    (activity : FinalityVerifierActivity) s : X :=
  set_VerifierOverviewStoreHistory
    (<[verifier := push_bounded activity (verifier_history verifier s)]>
       (VerifierOverviewStoreHistory s)) s.

(** [iter_mut().find(..)]: the first entry of the verifier is replaced. *)
Fixpoint replace_overview (verifier : GatewayVendor) (activity : FinalityVerifierActivity)
    (l : list FinalityVerifierActivity) : list FinalityVerifierActivity :=
  match l with
  | [] => [activity]
  | o :: rest =>
      if bool_decide (fva_verifier o = verifier) then activity :: rest
      else o :: replace_overview verifier activity rest
  end.

Definition update_overview_store (verifier : GatewayVendor)
    (activity : FinalityVerifierActivity) s : X :=
  set_VerifierOverviewStore (replace_overview verifier activity (VerifierOverviewStore s)) s.

(** The increase since the last record, [(local, target)]; zero when there is
    none to compare with. *)
Definition report_increase (history : list FinalityVerifierActivity)
    (new_activity : FinalityVerifierActivity) : BlockNumber * BlockNumber :=
  match last history with
  | Some last_record =>
      match determine_finalized_reports_increase [last_record; new_activity] with
      | Some (target_increase, local_increase) =>
          (if 0 <? local_increase then local_increase else 0,
           if 0 <? target_increase then target_increase else 0)
      | None => (0, 0)
      end
  | None => (0, 0)
  end.

(** The comparison over the last three reports. *)
Definition moves_over_three (history : list FinalityVerifierActivity)
    (last_record new_activity : FinalityVerifierActivity) : bool :=
  match reverse history !! 1%nat with
  | Some previous =>
      match determine_finalized_reports_increase [previous; last_record; new_activity] with
      | Some (target_increase, _) => 0 <? target_increase
      | None => false
      end
  | None => false
  end.

Definition process_single_verifier_overview (n : BlockNumber) (verifier : GatewayVendor)
    (new_epoch : BlockNumber) (latest_heartbeat : LightClientHeartbeat) s : X * Z :=
  let is_active := negb (is_halted latest_heartbeat) in
  let historic_overview := verifier_history verifier s in
  let last_record := default default_activity (last historic_overview) in
  let total_weight := add_weight 0 (xd_reads 1) in
  let new_activity := new_for_finalized_compare n (last_finalized_height latest_heartbeat) in
  let '(local_height_increase, target_finalized_height_increase) :=
    report_increase historic_overview new_activity in
  let is_moving := 0 <? target_finalized_height_increase in
  let s := if is_moving
           then update_epoch_history verifier target_finalized_height_increase
                  local_height_increase s
           else s in
  let is_moving := is_moving || moves_over_three historic_overview last_record new_activity in
  let was_active := fva_is_active last_record in
  let activity :=
    if is_active then
      {| fva_verifier := verifier; fva_reported_at := n;
         fva_justified_height := last_rational_height latest_heartbeat;
         fva_finalized_height := last_finalized_height latest_heartbeat;
         fva_updated_height := last_fast_height latest_heartbeat;
         fva_epoch := new_epoch;
         fva_is_active := is_active && is_moving |}
    else
      mkVerifierActivity (fva_verifier last_record) n (fva_justified_height last_record)
        (fva_finalized_height last_record) (fva_updated_height last_record)
        (fva_epoch last_record) false in
  let s := update_historic_overview verifier activity s in
  let s := update_overview_store verifier activity s in
  let total_weight := add_weight total_weight (xd_reads_writes 3 2) in
  let '(s, total_weight) :=
    if negb was_active && fva_is_active activity then
      let '(s, weight) := dlq_process n s in (s, add_weight total_weight weight)
    else (s, total_weight) in
  let '(s, weight) := dlq_adaptive_timeouts n verifier s in
  (s, add_weight total_weight weight).

(** [LightClientAsyncAPI]. *)
Definition xdns_on_new_epoch (verifier : GatewayVendor) (new_epoch : BlockNumber)
    (current_heartbeat : LightClientHeartbeat) s : X :=
  (process_single_verifier_overview (xd_block s) verifier new_epoch current_heartbeat s).1.

(** The heartbeat of [XBI] is the chain's own. *)
Definition manual_heartbeat (verifier : GatewayVendor) s : LightClientHeartbeat :=
  let h := get_latest_heartbeat_by_vendor (xd_ext s) verifier in
  if bool_decide (verifier = XBI) then
    mkHeartbeat (xd_block s) (xd_block s) (xd_block s) (xd_block s) (is_halted h) true
  else h.

(** One verifier in [check_for_manual_verifier_overview_process]. *)
Definition check_manual (n : BlockNumber) (latest_overview : list FinalityVerifierActivity)
    (acc : X * Z) (verifier : GatewayVendor) : X * Z :=
  let '(s, total_weight) := acc in
  let latest_vendor_overview :=
    default default_activity (find (λ x, bool_decide (fva_verifier x = verifier)) latest_overview) in
  let estimated_epoch_length :=
    default 50 (epoch_local <$> (EpochHistory s !! verifier ≫= last)) in
  if wrap32 (fva_reported_at latest_vendor_overview + estimated_epoch_length) <? n then
    let epoch := last_finalized_height (get_latest_heartbeat_by_vendor (xd_ext s) verifier) in
    let '(s, weight) :=
      process_single_verifier_overview n verifier epoch (manual_heartbeat verifier s) s in
    (s, add_weight total_weight weight)
  else (s, total_weight).

Definition check_for_manual_verifier_overview_process (n : BlockNumber) s : X * Z :=
  fold_left (check_manual n (VerifierOverviewStore s)) all_vendors (s, add_weight 0 (xd_reads 1)).

Definition process_all_verifier_overviews (n : BlockNumber) s : X * Z :=
  check_for_manual_verifier_overview_process n s.

(** *** Gateways *)

Definition fetch_gateways s : list GatewayRecord := (iter_by key4 (Gateways s)).*2.

Definition tokens_of_gateway (id : TargetId) s : list TokenRecord :=
  List.filter (λ t, bool_decide (token_gateway_id t = id)) (iter_by key_token (Tokens s)).*2.

Definition fetch_full_gateway_records s : list FullGatewayRecord :=
  map (λ g, mkFullGateway g (tokens_of_gateway (gateway_id g) s)) (fetch_gateways s).

(** The loop of [override_gateway] over the allowed side effects. *)
Fixpoint populate_abi (id : TargetId) (allowed : list (list Z * option Z)) : D unit :=
  match allowed with
  | [] => mret tt
  | (sfx_4b_id, maybe_event_memo_prefix) :: rest =>
      o ← gets (λ s, StandardSFXABIs s !! sfx_4b_id);
      abi ← ok_or o (xdns_err SideEffectABINotFound);
      modify (λ s, set_SFXABIRegistry
        (<[(id, sfx_4b_id) := set_maybe_prefix_memo maybe_event_memo_prefix abi]>
           (SFXABIRegistry s)) s) ;;
      populate_abi id rest
  end.

Definition override_gateway (record : GatewayRecord) : D unit :=
  let id := gateway_id record in
  populate_abi id (gateway_allowed_side_effects record) ;;
  modify (λ s, set_Gateways (<[id := record]> (Gateways s)) s) ;;
  modify (λ s, set_AllGatewayIds (remove_first id (AllGatewayIds s) ++ [id]) s) ;;
  modify (xdns_event (EvGatewayRecordStored id)).

Definition add_new_gateway (record : GatewayRecord) : D unit :=
  known ← gets (λ s, is_some (Gateways s !! gateway_id record));
  if (known : bool) then throw (xdns_err GatewayRecordAlreadyExists)
  else override_gateway record.

Definition add_escrow_account (origin : RawOrigin) (id : TargetId) (account : AccountId) : D unit :=
  ensure_root origin ;;
  o ← gets (λ s, Gateways s !! id);
  record ← ok_or o (xdns_err GatewayRecordNotFound);
  modify (λ s, set_Gateways (<[id := set_escrow_account (Some account) record]> (Gateways s)) s).

Definition xdns_allowed_side_effects (id : TargetId) s : list (list Z * option Z) :=
  match Gateways s !! id with Some g => gateway_allowed_side_effects g | None => [] end.

Definition lookup_gateway (id : TargetId) s : result DispatchError GatewayRecord :=
  match Gateways s !! id with
  | Some rec => ROk rec
  | None => RErr (xdns_err XdnsRecordNotFound)
  end.

Definition get_verification_vendor (id : TargetId) s : result DispatchError GatewayVendor :=
  match lookup_gateway id s with ROk rec => ROk (verification_vendor rec) | RErr e => RErr e end.

Definition xdns_get_target_codec (id : TargetId) s : result DispatchError Codec :=
  match lookup_gateway id s with ROk rec => ROk (gateway_codec rec) | RErr e => RErr e end.

Definition xdns_get_escrow_account (id : TargetId) s : result DispatchError (list Z) :=
  match lookup_gateway id s with
  | ROk rec =>
      match escrow_account rec with
      | Some account => ROk (be_bytes 32 account)
      | None => RErr (xdns_err EscrowAccountNotFound)
      end
  | RErr e => RErr e
  end.

Definition xdns_get_gateway_max_security_lvl (id : TargetId) s : SecurityLvl :=
  if bool_decide (id = [3; 3; 3; 3]) then Escrow
  else match xdns_get_escrow_account id s with ROk _ => Escrow | RErr _ => Optimistic end.

Definition xdns_get_remote_order_contract_address (id : TargetId) s : result DispatchError Hash :=
  match RemoteOrderAddresses s !! id with
  | Some a => ROk a
  | None => RErr (xdns_err RemoteOrderAddressNotFound)
  end.

Definition xdns_get_remote_bidding_contract_address (id : TargetId) s
    : result DispatchError Hash :=
  match RemoteBiddingAddresses s !! id with
  | Some a => ROk a
  | None => RErr (xdns_err RemoteOrderAddressNotFound)
  end.

(** *** Interfaces of side effects *)

(** [SFXABIRegistry::iter_prefix]. *)
Definition get_all_sfx_abi (id : TargetId) s : list (list Z * SfxAbi) :=
  map (λ e, (e.1.2, e.2))
    (List.filter (λ e, bool_decide (e.1.1 = id)) (iter_by key44 (SFXABIRegistry s))).

Definition xdns_get_sfx_abi (id : TargetId) (sfx_4b_id : list Z) s : option SfxAbi :=
  SFXABIRegistry s !! (id, sfx_4b_id).

Definition insert_abi (id : TargetId) (e : list Z * SfxAbi) s : X :=
  set_SFXABIRegistry (<[(id, e.1) := e.2]> (SFXABIRegistry s)) s.

Definition extend_sfx_abi (origin : RawOrigin) (id : TargetId) (sfx_4b_id : list Z)
    (sfx_expected_abi : SfxAbi) : D unit :=
  ensure_root origin ;;
  known ← gets (λ s, is_some (Gateways s !! id));
  if negb known then throw (xdns_err XdnsRecordNotFound)
  else
    present ← gets (λ s, is_some (SFXABIRegistry s !! (id, sfx_4b_id)));
    if (present : bool) then throw (xdns_err SideEffectABIAlreadyExists)
    else modify (insert_abi id (sfx_4b_id, sfx_expected_abi)).

Definition override_sfx_abi (id : TargetId) (new_sfx_abis : list (list Z * SfxAbi)) : D unit :=
  o ← gets (λ s, Gateways s !! id);
  record ← ok_or o (xdns_err XdnsRecordNotFound);
  let allowed := map (λ e, (e.1, maybe_prefix_memo e.2)) new_sfx_abis in
  modify (λ s, set_Gateways (<[id := set_gateway_allowed allowed record]> (Gateways s)) s) ;;
  modify (λ s, fold_left (λ s e, insert_abi id e s) new_sfx_abis s).

(** *** Tokens *)

Definition override_token (token : AssetId) (id : TargetId) (props : TokenInfo) s : X :=
  let s := set_Tokens (<[(token, id) := mkTokenRecord token id props]> (Tokens s)) s in
  let s := set_GatewayTokens
             (<[id := push_if_absent token (default [] (GatewayTokens s !! id))]>
                (GatewayTokens s)) s in
  let s := set_AllTokenIds (push_if_absent token (AllTokenIds s)) s in
  xdns_event (EvNewTokenLinkedToGateway token id) s.

Definition link_token_to_gateway (token : AssetId) (id : TargetId) (props : TokenInfo) : D unit :=
  o ← gets (λ s, Gateways s !! id);
  _record ← ok_or o (xdns_err GatewayRecordNotFound);
  linked ← gets (λ s, is_some (Tokens s !! (token, id)));
  if (linked : bool) then throw (xdns_err TokenRecordAlreadyExists)
  else
    exists_ ← gets (λ s, contains_asset (xd_ext s) token);
    ensure exists_ (xdns_err TokenRecordNotFoundInAssetsOverlay) ;;
    modify (override_token token id props).

Definition register_new_token (origin : RawOrigin) (token : AssetId) (props : TokenInfo) : D unit :=
  present ← gets (λ s, contains_asset (xd_ext s) token);
  if (present : bool) then throw (xdns_err TokenRecordAlreadyExists)
  else
    listed ← gets (λ s, bool_decide (token ∈ AllTokenIds s));
    if (listed : bool) then throw (xdns_err TokenRecordAlreadyExists)
    else
      who ← ensure_signed_or_root origin;
      let admin := default (xdns_treasury TreasuryEscrow) who in
      assets (force_create_asset origin token admin true xdns_minimum_balance) ;;
      link_token_to_gateway token SelfGatewayId props ;;
      modify (λ s, set_AllTokenIds (AllTokenIds s ++ [token]) s) ;;
      modify (xdns_event (EvNewTokenAssetRegistered token SelfGatewayId)).

Definition xdns_list_available_mint_assets (id : TargetId) s : list TokenRecord :=
  omap (λ e, linked_asset ← Tokens s !! (e.1, id);
             if bool_decide (e.2 = id) then Some linked_asset else None)
    (AuthorizedMintAssets s).

Definition xdns_check_asset_is_mintable (id : TargetId) (asset : AssetId) s : bool :=
  existsb (λ t, token_id t =? asset) (xdns_list_available_mint_assets id s).

Fixpoint find_eth_token (id : TargetId) (address : Z) s (tokens : list AssetId)
    : result DispatchError TokenRecord :=
  match tokens with
  | [] => RErr (xdns_err TokenRecordNotFoundInGateway)
  | token :: rest =>
      match Tokens s !! (token, id) with
      | None => RErr (xdns_err TokenRecordNotFoundInGateway)
      | Some record =>
          match token_props record with
          | TokenEthereum eth_token =>
              if bool_decide (eth_address eth_token = Some address) then ROk record
              else find_eth_token id address s rest
          | TokenSubstrate _ => RErr (xdns_err TokenRecordNotFoundInGateway)
          end
      end
  end.

Definition xdns_get_token_by_eth_address (id : TargetId) (address : Z) s
    : result DispatchError TokenRecord :=
  find_eth_token id address s (default [] (GatewayTokens s !! id)).

Definition xdns_get_self_token_id : AssetId := SelfTokenId.

(** [assert!]. *)
Definition xdns_assert (b : bool) : D unit := if b then mret tt else panic.

Definition mint (asset : AssetId) (user : AccountId) (amount : Balance) : D unit :=
  ok ← gets (xdns_check_asset_is_mintable SelfGatewayId asset);
  xdns_assert ok ;;
  assets (asset_mint (Signed (xdns_treasury TreasuryEscrow)) asset user amount).

Definition burn (asset : AssetId) (user : AccountId) (amount : Balance) : D unit :=
  ok ← gets (xdns_check_asset_is_mintable SelfGatewayId asset);
  xdns_assert ok ;;
  assets (asset_burn (Signed (xdns_treasury TreasuryEscrow)) asset user amount).

(** *** The activity of the gateways *)

Definition gateway_activity (n : BlockNumber) (gateway : FullGatewayRecord) s : GatewayActivity :=
  let record := gateway_record gateway in
  let update := default (mkVerifierActivity (verification_vendor record) 0 0 0 0 0 false)
                  (last (verifier_history (verification_vendor record) s)) in
  {| ga_gateway_id := gateway_id record;
     ga_reported_at := n;
     ga_justified_height := fva_justified_height update;
     ga_finalized_height := fva_finalized_height update;
     ga_updated_height := fva_updated_height update;
     ga_attestation_latency := attestation_latency (xd_ext s) (gateway_id record);
     ga_security_lvl := if is_some (escrow_account record) then Escrow else Optimistic;
     ga_is_active := fva_is_active update |}.

Definition gateway_history (id : TargetId) s : list GatewayActivity :=
  default [] (GatewaysOverviewStoreHistory s !! id).

Definition record_gateway_activity (n : BlockNumber) (acc : X * list GatewayActivity)
    (gateway : FullGatewayRecord) : X * list GatewayActivity :=
  let '(s, all_overviews) := acc in
  let activity := gateway_activity n gateway s in
  let id := gateway_id (gateway_record gateway) in
  (set_GatewaysOverviewStoreHistory
     (<[id := push_bounded activity (gateway_history id s)]> (GatewaysOverviewStoreHistory s)) s,
   all_overviews ++ [activity]).

Definition process_overview (n : BlockNumber) s : X :=
  let '(s, all_overviews) :=
    fold_left (record_gateway_activity n) (fetch_full_gateway_records s) (s, []) in
  set_GatewaysOverviewStore all_overviews s.

(** [max_by_key(reported_at)], of which only the block is read. *)
Definition latest_update (overview : list GatewayActivity) : BlockNumber :=
  foldr Z.max 0 (map ga_reported_at overview).

Definition read_last_activity_overview s : X * list GatewayActivity :=
  let overview := GatewaysOverviewStore s in
  if negb (latest_update overview =? xd_block s) then
    let s := process_overview (xd_block s) s in (s, GatewaysOverviewStore s)
  else (s, overview).

Definition xdns_read_last_activity (id : TargetId) s : X * option GatewayActivity :=
  let '(s, overview) := read_last_activity_overview s in
  (s, find (λ a, bool_decide (ga_gateway_id a = id)) overview).

Definition security_geb (a b : SecurityLvl) : bool :=
  match a, b with Optimistic, Escrow => false | _, _ => true end.

Definition xdns_is_target_active (id : TargetId) (security_lvl : SecurityLvl) s : X * bool :=
  let '(s, o) := xdns_read_last_activity id s in
  (s, match o with
      | Some activity => security_geb (ga_security_lvl activity) security_lvl && ga_is_active activity
      | None => false
      end).

Definition verify_active (id : TargetId) (max_acceptable_heartbeat_offset : BlockNumber)
    (security_lvl : SecurityLvl) s : result DispatchError LightClientHeartbeat :=
  match get_latest_heartbeat (xd_ext s) id with
  | RErr _ => RErr (xdns_err XdnsGatewayNotActive)
  | ROk heartbeat =>
      if is_halted heartbeat || negb (ever_initialized heartbeat)
         || (saturating_sub (xd_block s) (last_heartbeat heartbeat) <? max_acceptable_heartbeat_offset)
      then RErr (xdns_err XdnsGatewayNotActive)
      else if bool_decide (security_lvl = Escrow)
              && negb (existsb (λ t, bool_decide (t = id)) (activated_targets (xd_ext s)))
      then RErr (xdns_err XdnsGatewayNotActive)
      else ROk heartbeat
  end.

(** *** Timeouts *)

Definition pair_key (p : GatewayVendor * TargetId) : Z :=
  from_be_bytes (vendor_index p.1 :: p.2).
Definition pair_le (p q : GatewayVendor * TargetId) : Prop := pair_key p ≤ pair_key q.
#[export] Instance pair_le_dec : RelDecision pair_le := λ p q, decide (pair_key p ≤ pair_key q).

(** The [BTreeSet] of the verifiers of the targets, in ascending order. *)
Definition distinct_verifiers (all_targets : list TargetId) s : list (GatewayVendor * TargetId) :=
  merge_sort pair_le (remove_dups
    (omap (λ t, match get_verification_vendor t s with
                | ROk vendor => Some (vendor, t)
                | RErr _ => None
                end) all_targets)).

(** [max_by_key]: the last of the largest. *)
Definition max_by_key {T} (key : T → Z) (l : list T) : option T :=
  fold_left (λ best x,
    match best with
    | Some b => if key b <=? key x then Some x else Some b
    | None => Some x
    end) l None.

Definition get_slowest_verifier_target (all_targets : list TargetId) (speed_mode : SpeedMode)
    (emergency_offset : BlockNumber) s
    : option (GatewayVendor * TargetId * BlockNumber * BlockNumber) :=
  max_by_key (λ e, e.1.2)
    (map (λ vt,
       let '(local_offset, remote_offset) :=
         calculate_offsets vt.1 speed_mode emergency_offset (EpochHistory s !! vt.1) in
       (vt.1, vt.2, local_offset, remote_offset))
     (distinct_verifiers all_targets s)).

Definition add32 (a b : BlockNumber) : BlockNumber := saturating_add u32_max a b.

Definition xdns_estimate_adaptive_timeout (all_targets : list TargetId) (speed_mode : SpeedMode)
    (emergency_offset : BlockNumber) s : AdaptiveTimeout :=
  match get_slowest_verifier_target all_targets speed_mode emergency_offset s with
  | None => default_401
  | Some (slowest_verifier, target, submit_by_local_offset, submit_by_remote_offset) =>
      match last (verifier_history slowest_verifier s) with
      | None => default_401
      | Some overview =>
          let submit_by_height_here := add32 (xd_block s) submit_by_local_offset in
          let submit_by_height_there := add32 (fva_finalized_height overview) submit_by_remote_offset in
          {| estimated_height_here := add32 submit_by_height_here submit_by_local_offset;
             estimated_height_there := add32 submit_by_height_there submit_by_remote_offset;
             submit_by_height_here := submit_by_height_here;
             submit_by_height_there := submit_by_height_there;
             emergency_timeout_here := add32 emergency_offset (xd_block s);
             there := target;
             dlq := None |}
      end
  end.
End Xdns.
