(* ===== verification/XdnsCalls.v ===== *)
(** * Calls of the registry of gateways

    [pallets/xdns/src/lib.rs]: the dispatchables, the topology of the registry,
    the refresh of the standard interfaces, the genesis and the migrations. *)

From S2P Require Import Prelude Types AccountManager World Circuit StandardAbi Vacuum Batches.
From S2P Require Import Attesters Xdns.

Section Calls.
Context {E : Type} `{!XdnsConfig E}.
Abbreviation X := (XdnsState E).
Abbreviation D := (M (XdnsState E) DispatchError).
Implicit Types s : X.

(** ** The standard interfaces and the gateway of the chain itself *)

Definition BALANCES_INDEX : Z := 10.
Definition ASSETS_INDEX : Z := 12.
Definition EVM_INDEX : Z := 120.
Definition WASM_INDEX : Z := 121.

(** [remove_all] and the insertion of the standards. *)
Definition refresh_standards s : X :=
  set_StandardSFXABIs (fold_left (λ m e, <[e.1 := e.2]> m) standard_sfx_abi ∅) s.

Definition self_allowed_side_effects s : list (list Z * option Z) :=
  let has id := is_some (StandardSFXABIs s !! bytes_of id) in
  (if has "tran" then [(bytes_of "tran", Some BALANCES_INDEX)] else [])
  ++ (if has "tddd" then [(bytes_of "tran", Some ASSETS_INDEX)] else [])
  ++ (if has "tass" then [(bytes_of "tran", Some ASSETS_INDEX)] else [])
  ++ (if has "cevm" then [(bytes_of "cevm", Some EVM_INDEX)] else [])
  ++ (if has "wasm" then [(bytes_of "wasm", Some WASM_INDEX)] else []).

(** One standard interface, with the prefix it last had, in one entry of the
    registry. *)
Definition refresh_entry (standard : list Z * SfxAbi) (acc : X * SfxAbi)
    (key : TargetId * list Z) : X * SfxAbi :=
  let '(s, abi) := acc in
  if bool_decide (standard.1 = key.2) then
    let abi := set_maybe_prefix_memo (SFXABIRegistry s !! key ≫= maybe_prefix_memo) abi in
    (insert_abi key.1 (standard.1, abi) s, abi)
  else (s, abi).

Definition refresh_linked s (standard : list Z * SfxAbi) : X :=
  (fold_left (refresh_entry standard) (iter_by key44 (SFXABIRegistry s)).*1 (s, standard.2)).1.

Definition do_reboot_self_gateway (origin : RawOrigin) (vendor : GatewayVendor) : D unit :=
  who ← ensure_signed_or_root origin;
  let admin := default (xdns_treasury TreasuryEscrow) who in
  modify refresh_standards ;;
  allowed ← gets self_allowed_side_effects;
  override_gateway
    {| gateway_id := SelfGatewayId; verification_vendor := vendor;
       execution_vendor := SubstrateVendor; gateway_codec := Scale;
       registrant := Some admin; escrow_account := Some admin;
       gateway_allowed_side_effects := allowed |} ;;
  modify (λ s, fold_left refresh_linked standard_sfx_abi s).

Definition reboot_self_gateway (origin : RawOrigin) (vendor : GatewayVendor) : D unit :=
  transactional (do_reboot_self_gateway origin vendor).

(** ** Bridged assets *)

Definition authorize (asset : AssetId) (target : TargetId) s : X :=
  set_AuthorizedMintAssets (AuthorizedMintAssets s ++ [(asset, target)]) s.

Definition add_supported_bridging_asset (origin : RawOrigin) (asset : AssetId) (target : TargetId)
    : D unit :=
  transactional
    (ensure_root origin ;;
     listed ← gets (λ s, bool_decide ((asset, target) ∈ AuthorizedMintAssets s));
     if (listed : bool) then mret tt else modify (authorize asset target)).

Definition enroll_bridge_asset (origin : RawOrigin) (asset : AssetId) (target : TargetId)
    (token_info : TokenInfo) : D unit :=
  transactional
    (ensure_root origin ;;
     mintable ← gets (xdns_check_asset_is_mintable target asset);
     xdns_assert (negb mintable) ;;
     listed ← gets (λ s, bool_decide (asset ∈ AllTokenIds s));
     (if (listed : bool) then mret tt else register_new_token origin asset token_info) ;;
     linked ← gets (λ s, is_some (Tokens s !! (asset, target)));
     (if (linked : bool) then mret tt else link_token_to_gateway asset target token_info) ;;
     modify (authorize asset target) ;;
     mintable ← gets (xdns_check_asset_is_mintable target asset);
     xdns_assert mintable).

(** [retain(|&(a_id, t_id)| a_id != asset_id && t_id != target_id)]. *)
Definition purge_supported_bridging_asset (origin : RawOrigin) (asset : AssetId)
    (target : TargetId) : D unit :=
  transactional
    (ensure_root origin ;;
     listed ← gets (λ s, bool_decide ((asset, target) ∈ AuthorizedMintAssets s));
     if (listed : bool) then
       modify (λ s, set_AuthorizedMintAssets
         (List.filter (λ e, negb (e.1 =? asset) && negb (bool_decide (e.2 = target)))
            (AuthorizedMintAssets s)) s)
     else mret tt).

(** ** Interfaces of a gateway *)

Definition enroll_new_abi_to_selected_gateway (origin : RawOrigin) (target : TargetId)
    (sfx_4b_id : list Z) (sfx_expected_abi : option SfxAbi) (maybe_pallet_id : option Z) : D unit :=
  transactional
    (ensure_root origin ;;
     match sfx_expected_abi with
     | Some abi => modify (insert_abi target (sfx_4b_id, abi))
     | None =>
         o ← gets (λ s, StandardSFXABIs s !! sfx_4b_id);
         assume_known_abi ← ok_or o (xdns_err SideEffectABINotFound);
         modify (insert_abi target
                   (sfx_4b_id, set_maybe_prefix_memo maybe_pallet_id assume_known_abi))
     end ;;
     updated_abi_list ← gets (get_all_sfx_abi target);
     override_sfx_abi target updated_abi_list).

Definition unroll_abi_of_selected_gateway (origin : RawOrigin) (target : TargetId)
    (sfx_4b_id : list Z) : D unit :=
  transactional
    (ensure_root origin ;;
     modify (λ s, set_SFXABIRegistry (delete (target, sfx_4b_id) (SFXABIRegistry s)) s) ;;
     updated_abi_list ← gets (get_all_sfx_abi target);
     override_sfx_abi target updated_abi_list).

(** ** Remote addresses *)

Definition add_remote_order_address (origin : RawOrigin) (target : TargetId)
    (remote_address : Hash) : D unit :=
  transactional
    (ensure_root origin ;;
     modify (λ s, set_RemoteOrderAddresses (<[target := remote_address]> (RemoteOrderAddresses s)) s)).

Definition add_remote_bidding_address (origin : RawOrigin) (target : TargetId)
    (remote_address : Hash) : D unit :=
  transactional
    (ensure_root origin ;;
     modify (λ s,
       set_RemoteBiddingAddresses (<[target := remote_address]> (RemoteBiddingAddresses s)) s)).

(** ** Removal *)

Definition purge_gateway_token (id : TargetId) s (token : AssetId) : X :=
  let s := set_Tokens (delete (token, id) (Tokens s)) s in
  if bool_decide (id = SelfGatewayId)
  then set_AllTokenIds (List.filter (λ t, negb (t =? token)) (AllTokenIds s)) s
  else s.

(** The storage a purged gateway had. *)
Definition forget_gateway (id : TargetId) s : X :=
  let s := set_Gateways (delete id (Gateways s)) s in
  let s := fold_left (purge_gateway_token id) (default [] (GatewayTokens s !! id)) s in
  let s := set_GatewayTokens (delete id (GatewayTokens s)) s in
  set_AllGatewayIds (List.filter (λ g, negb (bool_decide (g = id))) (AllGatewayIds s)) s.

Definition purge_gateway_record (origin : RawOrigin) (requester : AccountId) (id : TargetId) : D unit :=
  transactional
    (ensure_root origin ;;
     o ← gets (λ s, Gateways s !! id);
     record ← ok_or o (xdns_err XdnsRecordNotFound);
     let verifier := verification_vendor record in
     modify (forget_gateway id) ;;
     modify (λ s,
       let latest_heartbeat := get_latest_heartbeat_by_vendor (xd_ext s) verifier in
       (process_single_verifier_overview (xd_block s) verifier
          (last_finalized_height latest_heartbeat) latest_heartbeat s).1) ;;
     modify (xdns_event (EvGatewayRecordPurged requester id))).

Definition unlink_token (origin : RawOrigin) (id : TargetId) (token : AssetId) : D unit :=
  transactional
    (ensure_root origin ;;
     modify (λ s,
       let s := set_Tokens (delete (token, id) (Tokens s)) s in
       set_GatewayTokens
         (<[id := List.filter (λ t, negb (t =? token)) (default [] (GatewayTokens s !! id))]>
            (GatewayTokens s)) s)).

Definition link_token (origin : RawOrigin) (id : TargetId) (token : AssetId) (props : TokenInfo)
    : D unit :=
  transactional (ensure_root origin ;; link_token_to_gateway token id props).

Definition purge_token_record (origin : RawOrigin) (token : AssetId) : D unit :=
  transactional
    (who ← ensure_signed_or_root origin;
     let origin_admin := match who with
                         | None => Signed (xdns_treasury TreasuryEscrow)
                         | Some _ => origin
                         end in
     assets (asset_destroy origin_admin token) ;;
     modify (λ s, set_Tokens (filter (λ kv, kv.1.1 ≠ token) (Tokens s)) s) ;;
     modify (λ s, set_AllTokenIds (List.filter (λ t, negb (t =? token)) (AllTokenIds s)) s)).

(** ** Topology *)

Definition do_zip_topology s : XDNSTopology :=
  mkTopology (fetch_full_gateway_records s)
    (omap (λ asset, Tokens s !! (asset, SelfGatewayId)) (AllTokenIds s)).

Definition zip_topology (origin : RawOrigin) : D unit :=
  transactional
    (ensure_signed origin ;;
     modify (λ s, xdns_event (EvXDNSTopologyZip (do_zip_topology s)) s)).

Definition unzip_asset (origin : RawOrigin) (asset : TokenRecord) : D unit :=
  listed ← gets (λ s, bool_decide (token_id asset ∈ AllTokenIds s));
  if negb listed then register_new_token origin (token_id asset) (token_props asset)
  else link_token_to_gateway (token_id asset) (token_gateway_id asset) (token_props asset).

Definition do_unzip_topology (origin : RawOrigin) (topology : XDNSTopology) : D unit :=
  for_each (topology_gateways topology) (λ g, override_gateway (gateway_record g)) ;;
  for_each (topology_assets topology) (unzip_asset origin).

Definition unzip_topology (origin : RawOrigin) (topology_decoded : option XDNSTopology)
    (topology_encoded : option (list Z)) : D unit :=
  transactional
    (ensure_root origin ;;
     topology ←
       match topology_decoded, topology_encoded with
       | Some topology, _ => mret topology
       | None, Some bytes => ok_or (topology_decode bytes) (xdns_err TopologyDecodeError)
       | None, None => throw (xdns_err EmptyTopologySubmitted)
       end;
     do_unzip_topology origin topology).

(** ** Genesis and migrations *)

(** An error of [override_gateway] is logged and dropped; what it wrote before
    stays. *)
Definition genesis_gateway (record : GatewayRecord) : D unit :=
  attempt (E':=DispatchError) (override_gateway record) ;; mret tt.

Definition genesis_build (known_gateway_records standard_abi : list Z) : D unit :=
  let records := default [] (gateway_records_decode known_gateway_records) in
  let abis := default [] (standard_abi_decode standard_abi) in
  modify (λ s, set_StandardSFXABIs (fold_left (λ m e, <[e.1 := e.2]> m) abis (StandardSFXABIs s)) s) ;;
  for_each records genesis_gateway.

Definition CURRENT_STORAGE_VERSION : Z := 2.

(** The keys of the former entries [unhashed::kill] removes. *)
Definition killed_key_1 : list Z :=
  [225; 205; 72; 162; 242; 43; 101; 142; 192; 157; 178; 168; 200; 143; 21; 13; 175; 239; 182; 147;
   135; 79; 226; 105; 210; 52; 22; 179; 228; 93; 185; 249; 114; 111; 99; 111].
Definition killed_key_2 : list Z :=
  [84; 10; 79; 135; 84; 170; 82; 152; 163; 214; 233; 170; 9; 233; 63; 151; 78; 11; 18; 119; 80; 58;
   19; 112; 111; 133; 165; 20; 116; 96; 124; 88; 24; 172; 250; 191; 195; 140; 91; 41; 106; 32; 177;
   28; 37; 248; 177; 35; 27; 230; 169; 204; 8; 192; 121; 163; 226; 24; 100; 166; 207; 36; 66; 173;
   219; 150; 184; 250; 101; 171; 135; 85].

Definition migrate_standard s (e : list Z * list Z) : X :=
  match get_standard_interface e.1 with
  | Some abi => set_StandardSFXABIs (<[e.1 := abi]> (StandardSFXABIs s)) s
  | None => s
  end.

Definition on_runtime_upgrade s : X * Z :=
  match StorageMigrations s with
  | 0 =>
      let entries := iter_by key4 (StandardSideEffects s) in
      let s := fold_left migrate_standard entries (set_StandardSideEffects ∅ s) in
      (set_StorageMigrations CURRENT_STORAGE_VERSION s, xd_reads_writes 10 10)
  | 1 =>
      let s := set_unhashed (delete killed_key_1 (unhashed s)) s in
      (set_StorageMigrations CURRENT_STORAGE_VERSION s, xd_writes 1)
  | 2 =>
      let s := set_unhashed (delete killed_key_2 (unhashed s)) s in
      (set_StorageMigrations CURRENT_STORAGE_VERSION s, xd_writes 1)
  | _ => (s, 0)
  end.
End Calls.
