(* ===== verification/XdnsSystem.v ===== *)
(** * The registry of gateways as a transition system

    [XdnsCall] and [xdns_dispatch]: the calls of [pallets/xdns/src/lib.rs];
    [xdns_reach]: the states of all histories of calls, operations of the other
    pallets, blocks and changes of the other pallets. *)

From S2P Require Import Prelude Types AccountManager World Circuit StandardAbi Vacuum Batches.
From S2P Require Import Attesters Xdns XdnsCalls.

(** ** The registry of gateways stays consistent

    [xdns_inv]: what the storage maps of [pallets/xdns/src/lib.rs] promise each
    other, and that every operation keeps it, also when it fails.  [kept] is the
    rule for operations, [frame] the fields the invariant reads.

    [CircuitReads]: what the registry relies on when it calls the Circuit back:
    the Circuit only reads the registry. *)

(** ** Lists *)

Lemma length_push_bounded {T} (x : T) l :
  (length l ≤ MAX_GATEWAY_OVERVIEW_RECORDS)%nat →
  (length (push_bounded x l) ≤ MAX_GATEWAY_OVERVIEW_RECORDS)%nat.
Proof.
  unfold push_bounded. intros Hl. rewrite length_app. simpl.
  destruct (Nat.eqb_spec (length l) MAX_GATEWAY_OVERVIEW_RECORDS) as [He|He].
  - rewrite length_drop. unfold MAX_GATEWAY_OVERVIEW_RECORDS in *. lia.
  - lia.
Qed.

Lemma last_push_bounded {T} (x : T) l : last (push_bounded x l) = Some x.
Proof. unfold push_bounded. apply last_snoc. Qed.

Lemma push_if_absent_elem `{EqDecision T} (x y : T) l :
  y ∈ push_if_absent x l ↔ y = x ∨ y ∈ l.
Proof.
  unfold push_if_absent. case_bool_decide as Hx; [naive_solver|].
  rewrite elem_of_app, list_elem_of_singleton. naive_solver.
Qed.

Lemma push_if_absent_NoDup `{EqDecision T} (x : T) l : NoDup l → NoDup (push_if_absent x l).
Proof.
  unfold push_if_absent. intros Hl. case_bool_decide as Hx; [done|].
  apply NoDup_app. split; [done|]. split; [|apply NoDup_singleton].
  intros y Hy Hy'. apply list_elem_of_singleton in Hy'. by subst.
Qed.

(** The filters of [retain]. *)
Lemma retain_elem {T} (p : T → bool) l x : x ∈ List.filter p l ↔ x ∈ l ∧ p x = true.
Proof. rewrite !list_elem_of_In. apply filter_In. Qed.

Lemma retain_NoDup {T} (p : T → bool) l : NoDup l → NoDup (List.filter p l).
Proof. intros Hl. rewrite <- (map_id (List.filter p l)). apply NoDup_map_filter. by rewrite map_id. Qed.

(** Removing the first occurrence and pushing, without duplicates. *)
Lemma repush_elem `{EqDecision T} (x y : T) l :
  NoDup l → y ∈ remove_first x l ++ [x] ↔ y = x ∨ y ∈ l.
Proof.
  intros Hl. rewrite elem_of_app, list_elem_of_singleton. unfold remove_first.
  destruct (list_find _ l) as [[i z]|] eqn:Hf; [|naive_solver].
  apply list_find_Some in Hf as (Hi & -> & _).
  pose proof (delete_Permutation l i z Hi) as Hp.
  assert (y ∈ l ↔ y = z ∨ y ∈ delete i l) as -> by by rewrite <- elem_of_cons, <- Hp.
  naive_solver.
Qed.

Lemma repush_NoDup `{EqDecision T} (x : T) l : NoDup l → NoDup (remove_first x l ++ [x]).
Proof.
  intros Hl. unfold remove_first. destruct (list_find _ l) as [[i z]|] eqn:Hf.
  - apply list_find_Some in Hf as (Hi & -> & _). rewrite Permutation_app_comm. simpl.
    pose proof (delete_Permutation l i z Hi) as Hp. by rewrite <- Hp.
  - apply list_find_None in Hf. apply NoDup_app. split; [done|]. split; [|apply NoDup_singleton].
    intros y Hy Hy'. apply list_elem_of_singleton in Hy'. subst y.
    rewrite Forall_forall in Hf. by apply (Hf x).
Qed.

(** ** Iteration *)

Section Iter.
Context {K V : Type} `{Countable K} (key : K → Z).
Implicit Types m : gmap K V.

Lemma iter_by_elem m k v : (k, v) ∈ iter_by key m ↔ m !! k = Some v.
Proof. unfold iter_by. rewrite merge_sort_Permutation. apply elem_of_map_to_list. Qed.

Lemma iter_by_values m v : v ∈ (iter_by key m).*2 ↔ ∃ k, m !! k = Some v.
Proof.
  rewrite list_elem_of_fmap. split.
  - intros ([k w] & -> & Hin). apply iter_by_elem in Hin. by exists k.
  - intros [k Hk]. exists (k, v). split; [done|]. by apply iter_by_elem.
Qed.

Lemma iter_by_keys m k : k ∈ (iter_by key m).*1 ↔ is_Some (m !! k).
Proof.
  rewrite list_elem_of_fmap. split.
  - intros ([k' v] & -> & Hin). apply iter_by_elem in Hin. by exists v.
  - intros [v Hv]. exists (k, v). split; [done|]. by apply iter_by_elem.
Qed.

Lemma iter_by_NoDup m : NoDup (iter_by key m).*1.
Proof. unfold iter_by. rewrite merge_sort_Permutation. apply NoDup_fst_map_to_list. Qed.
End Iter.

(** ** The invariant *)

Section Invariant.
Context {E : Type} `{!XdnsConfig E}.
Abbreviation D := (M (XdnsState E) DispatchError).
Implicit Types s : XdnsState E.

Definition gateway_tokens (id : TargetId) s : list AssetId := default [] (GatewayTokens s !! id).

Record xdns_inv s : Prop := {
  (** A gateway is stored under its identifier, and the list of identifiers is
      the list of the stored gateways, each once. *)
  gateways_keyed id g : Gateways s !! id = Some g → gateway_id g = id;
  gateways_listed id : id ∈ AllGatewayIds s ↔ is_Some (Gateways s !! id);
  gateway_ids_distinct : NoDup (AllGatewayIds s);
  (** A token is stored under its asset and gateway, for a stored gateway, and
      is listed once with it. *)
  tokens_keyed t id r : Tokens s !! (t, id) = Some r → token_id r = t ∧ token_gateway_id r = id;
  tokens_gateway t id : is_Some (Tokens s !! (t, id)) → is_Some (Gateways s !! id);
  tokens_listed t id : is_Some (Tokens s !! (t, id)) → t ∈ gateway_tokens id s;
  gateway_tokens_distinct id : NoDup (gateway_tokens id s);
  (** Every side effect a gateway allows has an interface there. *)
  allowed_have_abi id g x m :
    Gateways s !! id = Some g → (x, m) ∈ gateway_allowed_side_effects g →
    is_Some (SFXABIRegistry s !! (id, x));
  (** The histories are bounded. *)
  epochs_bounded v h : EpochHistory s !! v = Some h → (length h ≤ 11)%nat;
  verifier_history_bounded v : (length (verifier_history v s) ≤ MAX_GATEWAY_OVERVIEW_RECORDS)%nat;
  gateway_history_bounded id : (length (gateway_history id s) ≤ MAX_GATEWAY_OVERVIEW_RECORDS)%nat;
}.

(** The fields the invariant is about. *)
Definition frame s :=
  (Gateways s, AllGatewayIds s, Tokens s, GatewayTokens s, SFXABIRegistry s, EpochHistory s,
   VerifierOverviewStoreHistory s, GatewaysOverviewStoreHistory s).

Lemma xdns_inv_frame s s' : frame s' = frame s → xdns_inv s → xdns_inv s'.
Proof.
  unfold frame. intros Hf Hi. simplify_eq. destruct s, s'; simpl in *; simplify_eq.
  destruct Hi. by split.
Qed.

Definition kept {T} (m : D T) s : Prop :=
  match m s with Ok _ s' | Err _ s' => xdns_inv s' | Panic => True end.

Lemma kept_ok {T} (m : D T) s a s' : kept m s → m s = Ok a s' → xdns_inv s'.
Proof. unfold kept. intros H Hm. by rewrite Hm in H. Qed.

Lemma kept_bind {T U} (m : D T) (f : T → D U) s :
  kept m s → (∀ a s', m s = Ok a s' → xdns_inv s' → kept (f a) s') → kept (m ≫= f) s.
Proof. unfold kept, mbind, M_bind. destruct (m s) eqn:Hm; naive_solver. Qed.

Lemma kept_ret {T} (a : T) s : xdns_inv s → kept (mret a) s.
Proof. done. Qed.
Lemma kept_throw {T} e s : xdns_inv s → kept (throw (A:=T) e) s.
Proof. done. Qed.
Lemma kept_gets {T} (f : XdnsState E → T) s : xdns_inv s → kept (gets f) s.
Proof. done. Qed.
Lemma kept_modify f s : xdns_inv (f s) → kept (modify f) s.
Proof. done. Qed.
Lemma kept_frame f s : frame (f s) = frame s → xdns_inv s → kept (modify f) s.
Proof. intros Hf Hs. by apply (xdns_inv_frame s). Qed.
Lemma kept_ensure b e s : xdns_inv s → kept (ensure b e) s.
Proof. by destruct b. Qed.
Lemma kept_ok_or {T} (o : option T) e s : xdns_inv s → kept (ok_or o e) s.
Proof. by destruct o. Qed.
Lemma kept_root o s : xdns_inv s → kept (ensure_root o) s.
Proof. by destruct o. Qed.
Lemma kept_signed_or_root o s : xdns_inv s → kept (ensure_signed_or_root o) s.
Proof. by destruct o. Qed.
Lemma kept_assert b s : xdns_inv s → kept (xdns_assert b) s.
Proof. by destruct b. Qed.

Lemma kept_assets {T} (m : M E DispatchError T) s : xdns_inv s → kept (assets m) s.
Proof.
  intros Hs. unfold kept, assets, zoom. by destruct (m (xd_ext s)); [apply (xdns_inv_frame s)..|].
Qed.

Lemma kept_transactional {T} (m : D T) s : xdns_inv s → kept m s → kept (transactional m) s.
Proof. unfold kept, transactional. by destruct (m s). Qed.

Lemma kept_for_each {T} (l : list T) (f : T → D unit) s :
  xdns_inv s → (∀ x s', x ∈ l → xdns_inv s' → kept (f x) s') → kept (for_each l f) s.
Proof.
  revert s. induction l as [|x l IH]; intros s Hs Hf; [done|]. simpl. apply kept_bind.
  - apply Hf; [left|done].
  - intros [] s' _ Hs'. apply IH; [done|]. intros y s'' Hy. apply Hf. by right.
Qed.

(** *** Gateways *)

(** New interfaces, in place of old ones or not. *)
Lemma inv_abi_superset r s :
  (∀ k, is_Some (SFXABIRegistry s !! k) → is_Some (r !! k)) →
  xdns_inv s → xdns_inv (set_SFXABIRegistry r s).
Proof.
  intros Hr Hi. destruct Hi as [? ? ? ? ? ? ? Ha ? ? ?]. split; try done.
  intros id g x m Hg Hx. apply Hr. by eapply Ha.
Qed.

Lemma inv_insert_abi id e s : xdns_inv s → xdns_inv (insert_abi id e s).
Proof. apply inv_abi_superset. intros k Hk. apply lookup_insert_is_Some'. by right. Qed.

Lemma populate_abi_kept id allowed s : xdns_inv s → kept (populate_abi id allowed) s.
Proof.
  revert s. induction allowed as [|[x m] l IH]; intros s Hs; [done|]. simpl.
  apply kept_bind; [done|]. intros o s1 Hg _. unfold gets in Hg. simplify_eq.
  apply kept_bind; [by apply kept_ok_or|]. intros abi s2 Ho _. inv_ok Ho.
  apply kept_bind; [|intros [] s3 _ Hs3; by apply IH].
  by apply kept_modify, (inv_insert_abi id (x, set_maybe_prefix_memo m abi)).
Qed.

(** What [populate_abi] changes. *)
Lemma populate_abi_Ok id allowed s u s' :
  populate_abi id allowed s = Ok u s' →
  ∃ r, s' = set_SFXABIRegistry r s ∧
    (∀ k, is_Some (SFXABIRegistry s !! k) → is_Some (r !! k)) ∧
    (∀ k, k.1 ≠ id → r !! k = SFXABIRegistry s !! k) ∧
    (∀ x m, (x, m) ∈ allowed → is_Some (r !! (id, x))).
Proof.
  revert s. induction allowed as [|[x m] l IH]; intros s Hp; simpl in Hp.
  { unfold mret, M_ret in Hp. simplify_eq. exists (SFXABIRegistry s'). split; [by destruct s'|].
    split; [done|]. split; [done|]. intros ? ? Hin. by inversion Hin. }
  monad_inv. apply IH in H2 as (r & -> & Hsup & Hframe & Hall). exists r.
  split; [done|]. split; [|split].
  - intros k Hk. apply Hsup. apply lookup_insert_is_Some'. by right.
  - intros k Hk. rewrite Hframe by done. simpl. rewrite lookup_insert_ne; [done|]. by intros <-.
  - intros y n [Heq|Hin]%elem_of_cons; [|by eapply Hall]. simplify_eq.
    apply Hsup. simpl. rewrite lookup_insert_eq. by eexists.
Qed.

(** A gateway is stored, and its identifier moved to the end of the list. *)
Lemma inv_store_gateway g s :
  (∀ x m, (x, m) ∈ gateway_allowed_side_effects g → is_Some (SFXABIRegistry s !! (gateway_id g, x))) →
  xdns_inv s →
  xdns_inv (set_AllGatewayIds (remove_first (gateway_id g) (AllGatewayIds s) ++ [gateway_id g])
    (set_Gateways (<[gateway_id g := g]> (Gateways s)) s)).
Proof.
  intros Hg [Hk Hl Hd ? Htg ? ? Ha ? ? ?]. split; try done; cbn -[lookup].
  - intros id g'. rewrite lookup_insert_Some. intros [[<- <-]|[_ Hg']]; [done|by apply Hk].
  - intros id. rewrite repush_elem by done. rewrite lookup_insert_is_Some', Hl.
    split; (intros [Heq|?]; [left; by rewrite Heq|by right]).
  - by apply repush_NoDup.
  - intros t id Ht. apply lookup_insert_is_Some'. right. by eapply Htg.
  - intros id g' x m. rewrite lookup_insert_Some. intros [[<- ->]|[Hne Hg']]; [by apply Hg|].
    by apply Ha.
Qed.

Lemma override_gateway_kept g s : xdns_inv s → kept (override_gateway g) s.
Proof.
  intros Hs. unfold override_gateway.
  apply kept_bind; [by apply populate_abi_kept|]. intros [] s1 Hp Hs1.
  apply populate_abi_Ok in Hp as (r & -> & _ & _ & Hall).
  match goal with |- kept ?m ?s1 => change (xdns_inv (xdns_event (EvGatewayRecordStored (gateway_id g))
    (set_AllGatewayIds (remove_first (gateway_id g) (AllGatewayIds s1) ++ [gateway_id g])
      (set_Gateways (<[gateway_id g := g]> (Gateways s1)) s1)))) end.
  by refine (xdns_inv_frame _ _ _ (inv_store_gateway g (set_SFXABIRegistry r s) _ Hs1)).
Qed.

Lemma add_new_gateway_kept g s : xdns_inv s → kept (add_new_gateway g) s.
Proof.
  intros Hs. unfold add_new_gateway. apply kept_bind; [done|].
  intros b s1 Hg _. unfold gets in Hg. simplify_eq. destruct (is_some _); [done|].
  by apply override_gateway_kept.
Qed.

(** A stored gateway is replaced by one with the same identifier whose side
    effects have interfaces. *)
Lemma inv_update_gateway id g g' s :
  Gateways s !! id = Some g → gateway_id g' = gateway_id g →
  (∀ x m, (x, m) ∈ gateway_allowed_side_effects g' → is_Some (SFXABIRegistry s !! (id, x))) →
  xdns_inv s → xdns_inv (set_Gateways (<[id := g']> (Gateways s)) s).
Proof.
  intros Hg Hid Hg' [Hk Hl Hd ? Htg ? ? Ha ? ? ?]. split; try done; cbn -[lookup].
  - intros j h. rewrite lookup_insert_Some. intros [[<- <-]|[_ Hh]]; [|by apply Hk].
    rewrite Hid. by apply Hk.
  - intros j. rewrite Hl, lookup_insert_is_Some'. split; [by right|]. intros [<-|?]; [by rewrite Hg; eexists|done].
  - intros t j Ht. apply lookup_insert_is_Some'. right. by eapply Htg.
  - intros j h x m. rewrite lookup_insert_Some. intros [[<- ->]|[Hne Hh]]; [by apply Hg'|].
    by apply Ha.
Qed.

Lemma add_escrow_account_kept o id a s : xdns_inv s → kept (add_escrow_account o id a) s.
Proof.
  intros Hs. unfold add_escrow_account. apply kept_bind; [by apply kept_root|].
  intros [] s1 _ Hs1. apply kept_bind; [done|]. intros g s2 Hg _. unfold gets in Hg. simplify_eq.
  apply kept_bind; [by apply kept_ok_or|]. intros r s3 Ho Hs3. inv_ok Ho.
  eapply kept_modify, inv_update_gateway; [done|done| |done]. intros x m Hx.
  by eapply (allowed_have_abi _ Hs3).
Qed.

(** *** Interfaces *)

Lemma fold_insert_abi id l s :
  xdns_inv s → xdns_inv (fold_left (λ s e, insert_abi id e s) l s).
Proof. intros Hs. apply fold_left_inv; [done|]. intros s' e _ Hs'. by apply inv_insert_abi. Qed.

Lemma override_sfx_abi_kept id l s :
  (∀ x a, (x, a) ∈ l → is_Some (SFXABIRegistry s !! (id, x))) →
  xdns_inv s → kept (override_sfx_abi id l) s.
Proof.
  intros Hl Hs. unfold override_sfx_abi. apply kept_bind; [done|].
  intros o s1 Hg _. unfold gets in Hg. simplify_eq.
  apply kept_bind; [by apply kept_ok_or|]. intros g s2 Ho Hs2. inv_ok Ho.
  apply kept_bind; [|intros [] s3 _ Hs3; by apply kept_modify, fold_insert_abi].
  eapply kept_modify, inv_update_gateway; [done|done| |done]. simpl. intros x m Hx.
  apply list_elem_of_In, in_map_iff in Hx as ([y a] & Heq & Hin). simpl in Heq. simplify_eq.
  eapply Hl. by apply list_elem_of_In.
Qed.

Lemma extend_sfx_abi_kept o id x a s : xdns_inv s → kept (extend_sfx_abi o id x a) s.
Proof.
  intros Hs. unfold extend_sfx_abi. apply kept_bind; [by apply kept_root|].
  intros [] s1 _ Hs1. apply kept_bind; [done|]. intros b s2 Hg _. unfold gets in Hg. simplify_eq.
  destruct (negb _); [done|]. apply kept_bind; [done|]. intros c s3 Hg _. unfold gets in Hg.
  simplify_eq. destruct (is_some _); [done|]. by apply kept_modify, inv_insert_abi.
Qed.

(** The listed interfaces of a gateway are stored. *)
Lemma get_all_sfx_abi_elem id x a s :
  (x, a) ∈ get_all_sfx_abi id s ↔ SFXABIRegistry s !! (id, x) = Some a.
Proof.
  unfold get_all_sfx_abi. rewrite list_elem_of_In, in_map_iff. split.
  - intros ([[j y] b] & Heq & Hin). simpl in Heq. simplify_eq.
    apply list_elem_of_In, retain_elem in Hin as [Hin Hb]. apply bool_decide_eq_true in Hb.
    simpl in Hb. subst j. by apply iter_by_elem in Hin.
  - intros Ha. exists ((id, x), a). split; [done|]. apply list_elem_of_In, retain_elem.
    split; [by apply iter_by_elem|]. by apply bool_decide_eq_true.
Qed.

(** *** Tokens *)

Lemma gateway_tokens_insert id j l s :
  gateway_tokens j (set_GatewayTokens (<[id := l]> (GatewayTokens s)) s) =
  if decide (id = j) then l else gateway_tokens j s.
Proof.
  unfold gateway_tokens. cbn -[lookup]. destruct (decide (id = j)) as [->|].
  - by rewrite lookup_insert_eq.
  - by rewrite lookup_insert_ne.
Qed.

Lemma inv_override_token t id p s :
  is_Some (Gateways s !! id) → xdns_inv s → xdns_inv (override_token t id p s).
Proof.
  intros Hg [? ? ? Hk Htg Htl Htd ? ? ? ?].
  assert (∀ j, gateway_tokens j (override_token t id p s) =
    if decide (id = j) then push_if_absent t (gateway_tokens id s) else gateway_tokens j s) as Hgt.
  { intros j. unfold override_token. cbv zeta.
    apply (gateway_tokens_insert id j _ (set_Tokens _ s)). }
  split; try done.
  - intros t' id' r. cbn -[lookup]. rewrite lookup_insert_Some. intros [[Heq <-]|[_ Hr]].
    + by simplify_eq.
    + by apply Hk.
  - intros t' id'. cbn -[lookup]. rewrite lookup_insert_is_Some. intros [Heq|[_ Hr]].
    + by simplify_eq.
    + by eapply Htg.
  - intros t' id'. rewrite Hgt. cbn -[lookup]. rewrite lookup_insert_is_Some. intros [Heq|[_ Hr]].
    + simplify_eq. rewrite decide_True by done. apply push_if_absent_elem. by left.
    + destruct (decide (id = id')) as [->|]; [|by apply Htl].
      apply push_if_absent_elem. right. by apply Htl.
  - intros j. rewrite Hgt. destruct (decide _); [by apply push_if_absent_NoDup|done].
Qed.

Lemma link_token_kept t id p s : xdns_inv s → kept (link_token_to_gateway t id p) s.
Proof.
  intros Hs. unfold link_token_to_gateway. apply kept_bind; [done|].
  intros o s1 Hg _. unfold gets in Hg. simplify_eq.
  apply kept_bind; [by apply kept_ok_or|]. intros g s2 Ho Hs2. inv_ok Ho.
  apply kept_bind; [done|]. intros b s3 Hg _. unfold gets in Hg. simplify_eq.
  destruct (is_some _); [done|]. apply kept_bind; [done|].
  intros c s4 Hg _. unfold gets in Hg. simplify_eq.
  apply kept_bind; [by apply kept_ensure|]. intros [] s5 He Hs5. inv_ok He.
  apply kept_modify, inv_override_token; [by eexists|done].
Qed.

Lemma register_new_token_kept o t p s : xdns_inv s → kept (register_new_token o t p) s.
Proof.
  intros Hs. unfold register_new_token. apply kept_bind; [done|].
  intros b s1 Hg _. unfold gets in Hg. simplify_eq. destruct (contains_asset _ _); [done|].
  apply kept_bind; [done|]. intros c s2 Hg _. unfold gets in Hg. simplify_eq.
  destruct (bool_decide _); [done|].
  apply kept_bind; [by apply kept_signed_or_root|]. intros who s3 _ Hs3.
  apply kept_bind; [by apply kept_assets|]. intros [] s4 _ Hs4.
  apply kept_bind; [by apply link_token_kept|]. intros [] s5 _ Hs5.
  apply kept_bind; [by apply kept_frame|]. intros [] s6 _ Hs6.
  by apply kept_frame.
Qed.
End Invariant.

Section Reads.
Context {E : Type} `{!XdnsConfig E}.
Implicit Types s : XdnsState E.

(** A client that only reads the registry, and so at most refreshes the
    overview of the gateways, and changes the other pallets. *)
Inductive reads_only : XdnsState E → XdnsState E → Prop :=
| reads_refl s : reads_only s s
| reads_ext e s s' : reads_only (set_xd_ext e s) s' → reads_only s s'
| reads_overview s s' : reads_only (read_last_activity_overview s).1 s' → reads_only s s'.

(** The Circuit called back by the registry ([T::CircuitDLQ]) asks it only
    whether targets are active. *)
Class CircuitReads := {
  dlq_process_reads n s : reads_only s (dlq_process n s).1;
  dlq_adaptive_reads n v s : reads_only s (dlq_adaptive_timeouts n v s).1;
}.
End Reads.
Arguments CircuitReads E {XdnsConfig0}.

(** ** The calls *)

Inductive XdnsCall :=
| RebootSelfGateway (vendor : GatewayVendor)
| AddSupportedBridgingAsset (asset : AssetId) (target : TargetId)
| EnrollBridgeAsset (asset : AssetId) (target : TargetId) (info : TokenInfo)
| EnrollNewAbi (target : TargetId) (sfx_4b_id : list Z) (abi : option SfxAbi) (pallet : option Z)
| UnrollAbi (target : TargetId) (sfx_4b_id : list Z)
| AddRemoteOrderAddress (target : TargetId) (address : Hash)
| AddRemoteBiddingAddress (target : TargetId) (address : Hash)
| PurgeSupportedBridgingAsset (asset : AssetId) (target : TargetId)
| PurgeGatewayRecord (requester : AccountId) (id : TargetId)
| UnlinkToken (id : TargetId) (token : AssetId)
| LinkToken (id : TargetId) (token : AssetId) (props : TokenInfo)
| PurgeTokenRecord (token : AssetId)
| ZipTopology
| UnzipTopology (decoded : option XDNSTopology) (encoded : option (list Z)).

Section System.
Context {E : Type} `{!XdnsConfig E}.
Abbreviation D := (M (XdnsState E) DispatchError).
Implicit Types s : XdnsState E.

Definition xdns_dispatch (o : RawOrigin) (c : XdnsCall) : D unit :=
  match c with
  | RebootSelfGateway vendor => reboot_self_gateway o vendor
  | AddSupportedBridgingAsset asset target => add_supported_bridging_asset o asset target
  | EnrollBridgeAsset asset target info => enroll_bridge_asset o asset target info
  | EnrollNewAbi target x abi pallet => enroll_new_abi_to_selected_gateway o target x abi pallet
  | UnrollAbi target x => unroll_abi_of_selected_gateway o target x
  | AddRemoteOrderAddress target a => add_remote_order_address o target a
  | AddRemoteBiddingAddress target a => add_remote_bidding_address o target a
  | PurgeSupportedBridgingAsset asset target => purge_supported_bridging_asset o asset target
  | PurgeGatewayRecord requester id => purge_gateway_record o requester id
  | UnlinkToken id token => unlink_token o id token
  | LinkToken id token props => link_token o id token props
  | PurgeTokenRecord token => purge_token_record o token
  | ZipTopology => zip_topology o
  | UnzipTopology decoded encoded => unzip_topology o decoded encoded
  end.

(** What the other pallets call. *)
Inductive XdnsRequest :=
| AddNewGateway (record : GatewayRecord)
| OverrideGateway (record : GatewayRecord)
| RegisterNewToken (o : RawOrigin) (token : AssetId) (props : TokenInfo)
| LinkTokenToGateway (token : AssetId) (id : TargetId) (props : TokenInfo)
| ExtendSfxAbi (o : RawOrigin) (id : TargetId) (sfx_4b_id : list Z) (abi : SfxAbi)
| AddEscrowAccount (o : RawOrigin) (id : TargetId) (account : AccountId)
| Mint (asset : AssetId) (user : AccountId) (amount : Balance)
| Burn (asset : AssetId) (user : AccountId) (amount : Balance).

Definition xdns_request (r : XdnsRequest) : D unit :=
  match r with
  | AddNewGateway g => add_new_gateway g
  | OverrideGateway g => override_gateway g
  | RegisterNewToken o t p => register_new_token o t p
  | LinkTokenToGateway t id p => link_token_to_gateway t id p
  | ExtendSfxAbi o id x a => extend_sfx_abi o id x a
  | AddEscrowAccount o id a => add_escrow_account o id a
  | Mint a u n => mint a u n
  | Burn a u n => burn a u n
  end.

Inductive xdns_step s : XdnsState E → Prop :=
| step_xdns_call o c s' : xdns_dispatch o c s = Ok tt s' → xdns_step s s'
| step_xdns_request r s' : xdns_request r s = Ok tt s' → xdns_step s s'
| step_new_epoch v epoch h : xdns_step s (xdns_on_new_epoch v epoch h s)
| step_overview n : xdns_step s (check_for_manual_verifier_overview_process n s).1
| step_read_activity : xdns_step s (read_last_activity_overview s).1
| step_upgrade : xdns_step s (on_runtime_upgrade s).1
| step_xdns_outside e b : xdns_step s (set_xd_ext e (set_xd_block b s)).

(** The storage before the genesis block is built. *)
Definition empty_xdns (e : E) : XdnsState E :=
  mkXdns e 0 ∅ ∅ 0 ∅ ∅ ∅ ∅ ∅ [] [] [] ∅ ∅ [] [] ∅ ∅ ∅ [].

Inductive xdns_reach : XdnsState E → Prop :=
| reach_xdns_genesis e records abis s :
    genesis_build records abis (empty_xdns e) = Ok tt s → xdns_reach s
| reach_xdns_step s s' : xdns_reach s → xdns_step s s' → xdns_reach s'.
End System.

(** ** Every step keeps the invariant *)

Section Steps.
Context {E : Type} `{!XdnsConfig E} `{!CircuitReads E}.
Implicit Types s : XdnsState E.

(** *** Overviews *)

Lemma record_activity_inv n acc g :
  xdns_inv acc.1 → xdns_inv (record_gateway_activity n acc g).1.
Proof.
  destruct acc as [s l]. unfold record_gateway_activity. simpl. intros [? ? ? ? ? ? ? ? ? ? Hh].
  split; try done. intros id. unfold gateway_history. cbn -[lookup push_bounded].
  destruct (decide (gateway_id (gateway_record g) = id)) as [->|].
  - rewrite lookup_insert_eq. simpl. apply length_push_bounded, Hh.
  - rewrite lookup_insert_ne by done. apply Hh.
Qed.

Lemma process_overview_inv n s : xdns_inv s → xdns_inv (process_overview n s).
Proof.
  intros Hs. unfold process_overview.
  assert (xdns_inv (fold_left (record_gateway_activity n) (fetch_full_gateway_records s) (s, [])).1) as Hf.
  { apply (fold_left_inv (λ acc : XdnsState E * list GatewayActivity, xdns_inv acc.1)); [done|].
    intros acc g _ Hacc. by apply record_activity_inv. }
  destruct (fold_left _ _ _) as [s1 l]. by apply (xdns_inv_frame s1).
Qed.

Lemma read_overview_inv s : xdns_inv s → xdns_inv (read_last_activity_overview s).1.
Proof.
  intros Hs. unfold read_last_activity_overview. destruct (negb _); [|done].
  by apply process_overview_inv.
Qed.

Lemma reads_only_inv s s' : reads_only s s' → xdns_inv s → xdns_inv s'.
Proof.
  induction 1 as [s|e s s' _ IH|s s' _ IH]; intros Hs; [done| |].
  - by apply IH, (xdns_inv_frame s).
  - by apply IH, read_overview_inv.
Qed.

Lemma update_epoch_inv v r l s : xdns_inv s → xdns_inv (update_epoch_history v r l s).
Proof.
  intros [? ? ? ? ? ? ? ? He ? ?]. split; try done. intros w h. cbn -[lookup].
  rewrite lookup_insert_Some. intros [[_ <-]|[_ Hh]]; [|by eapply He].
  rewrite length_app, length_drop. simpl. lia.
Qed.

Lemma update_historic_inv v a s : xdns_inv s → xdns_inv (update_historic_overview v a s).
Proof.
  intros [? ? ? ? ? ? ? ? ? Hh ?]. split; try done. intros w. unfold verifier_history at 1.
  cbn -[lookup push_bounded]. destruct (decide (v = w)) as [->|].
  - rewrite lookup_insert_eq. simpl. apply length_push_bounded, Hh.
  - rewrite lookup_insert_ne by done. apply Hh.
Qed.

Lemma process_single_inv n v epoch h s :
  xdns_inv s → xdns_inv (process_single_verifier_overview n v epoch h s).1.
Proof.
  intros Hs. unfold process_single_verifier_overview.
  destruct (report_increase _ _) as [local target]. cbv zeta.
  match goal with |- context [update_historic_overview v ?a ?s1] =>
    set (activity := a); assert (xdns_inv s1) as Hs1 end.
  { destruct (0 <? target); [by apply update_epoch_inv|done]. }
  apply (update_historic_inv v activity) in Hs1.
  assert (xdns_inv (update_overview_store v activity (update_historic_overview v activity
    (if 0 <? target then update_epoch_history v target local s else s)))) as Hs2
    by by eapply xdns_inv_frame; [|exact Hs1].
  revert Hs2. generalize (update_overview_store v activity (update_historic_overview v activity
    (if 0 <? target then update_epoch_history v target local s else s))). intros s2 Hs2.
  assert (∀ s3 w, xdns_inv s3 →
    xdns_inv (let '(s', w') := dlq_adaptive_timeouts n v s3 in (s', add_weight w w')).1) as Hlast.
  { intros s3 w Hs3. pose proof (reads_only_inv _ _ (dlq_adaptive_reads n v s3) Hs3) as Hr.
    by destruct (dlq_adaptive_timeouts n v s3). }
  match goal with |- context [if ?b then _ else (s2, _)] => destruct b end; [|by apply Hlast].
  pose proof (reads_only_inv _ _ (dlq_process_reads n s2) Hs2) as Hr.
  destruct (dlq_process n s2) as [s3 w3]. by apply Hlast.
Qed.

Lemma check_manual_inv n l acc v : xdns_inv acc.1 → xdns_inv (check_manual n l acc v).1.
Proof.
  destruct acc as [s w]. intros Hs. unfold check_manual. destruct (_ <? n); [|done].
  match goal with |- context [process_single_verifier_overview n v ?e ?h s] =>
    pose proof (process_single_inv n v e h s Hs) as Hp;
    by destruct (process_single_verifier_overview n v e h s) end.
Qed.

Lemma manual_process_inv n s :
  xdns_inv s → xdns_inv (check_for_manual_verifier_overview_process n s).1.
Proof.
  intros Hs. unfold check_for_manual_verifier_overview_process.
  apply (fold_left_inv (λ acc : XdnsState E * Z, xdns_inv acc.1)); [done|].
  intros acc v _ Hacc. by apply check_manual_inv.
Qed.

(** *** Removal *)

(** Fewer tokens. *)
Lemma inv_tokens_subset m s :
  (∀ k r, m !! k = Some r → Tokens s !! k = Some r) → xdns_inv s → xdns_inv (set_Tokens m s).
Proof.
  intros Hm [? ? ? Hk Htg Htl ? ? ? ? ?]. split; try done.
  - intros t id r Hr. apply Hk. by apply Hm.
  - intros t id [r Hr]. eapply Htg. exists r. by apply Hm.
  - intros t id [r Hr]. apply (Htl t id). exists r. by apply Hm.
Qed.

Lemma delete_token_subset (k : Z * list Z) (m : gmap (Z * list Z) TokenRecord) j r :
  delete k m !! j = Some r → m !! j = Some r.
Proof. rewrite lookup_delete_Some. naive_solver. Qed.

Lemma purge_gateway_token_inv id s t : xdns_inv s → xdns_inv (purge_gateway_token id s t).
Proof.
  intros Hs. unfold purge_gateway_token.
  assert (xdns_inv (set_Tokens (delete (t, id) (Tokens s)) s)) as Hs1.
  { apply inv_tokens_subset; [|done]. intros k r. apply delete_token_subset. }
  cbv zeta. case_bool_decide; [by refine (xdns_inv_frame _ _ _ Hs1)|done].
Qed.

(** The loop over the tokens of a gateway removes exactly those. *)
Lemma purge_gateway_tokens_lookup id l s t j :
  Tokens (fold_left (purge_gateway_token id) l s) !! (t, j) =
  if decide (j = id ∧ t ∈ l) then None else Tokens s !! (t, j).
Proof.
  revert s. induction l as [|x l IH]; intros s; simpl.
  { rewrite decide_False; [done|]. intros [_ Hin]. by inversion Hin. }
  rewrite IH. assert (Tokens (purge_gateway_token id s x) = delete (x, id) (Tokens s)) as ->.
  { unfold purge_gateway_token. by case_bool_decide. }
  destruct (decide (j = id ∧ t ∈ l)) as [Hy|Hn].
  - rewrite decide_True; [done|]. split; [tauto|]. apply elem_of_cons. tauto.
  - destruct (decide (j = id ∧ t = x)) as [[-> ->]|Hn'].
    + rewrite lookup_delete_eq, decide_True; [done|]. split; [done|]. apply elem_of_cons. by left.
    + rewrite lookup_delete_ne by naive_solver. rewrite decide_False; [done|].
      rewrite elem_of_cons. naive_solver.
Qed.

Lemma purge_gateway_tokens_frame id l s :
  let s' := fold_left (purge_gateway_token id) l s in
  Gateways s' = Gateways s ∧ GatewayTokens s' = GatewayTokens s ∧ AllGatewayIds s' = AllGatewayIds s
  ∧ SFXABIRegistry s' = SFXABIRegistry s ∧ EpochHistory s' = EpochHistory s
  ∧ VerifierOverviewStoreHistory s' = VerifierOverviewStoreHistory s
  ∧ GatewaysOverviewStoreHistory s' = GatewaysOverviewStoreHistory s.
Proof.
  simpl. revert s. induction l as [|t l IH]; intros s; [done|]. simpl.
  destruct (IH (purge_gateway_token id s t)) as (-> & -> & -> & -> & -> & -> & ->).
  unfold purge_gateway_token. by case_bool_decide.
Qed.

Lemma forget_gateway_inv id s : xdns_inv s → xdns_inv (forget_gateway id s).
Proof.
  intros [Hk Hl Hd Htk Htg Htl Htd Ha He Hv Hh]. unfold forget_gateway.
  set (s1 := set_Gateways (delete id (Gateways s)) s).
  change (default [] (GatewayTokens s1 !! id)) with (gateway_tokens id s).
  pose proof (purge_gateway_tokens_lookup id (gateway_tokens id s) s1) as Ht.
  destruct (purge_gateway_tokens_frame id (gateway_tokens id s) s1) as (Hg & Hgt & Hids & Hr & Hep & Hvh & Hgh).
  change (Gateways s1) with (delete id (Gateways s)) in Hg.
  change (GatewayTokens s1) with (GatewayTokens s) in Hgt.
  set (s2 := fold_left _ _ _) in *.
  assert (∀ t j r, Tokens s2 !! (t, j) = Some r → j ≠ id ∧ Tokens s !! (t, j) = Some r) as Hsub.
  { intros t j r. rewrite Ht. destruct (decide _) as [|Hn]; [done|]. intros Hr'. split; [|done].
    intros ->. apply Hn. split; [done|]. apply Htl. by eexists. }
  split; cbn -[lookup].
  - intros j g. rewrite Hg, lookup_delete_Some. intros [_ Hj]. by apply Hk.
  - intros j. rewrite retain_elem, Hg, Hids. simpl AllGatewayIds. rewrite Hl, lookup_delete_is_Some.
    rewrite negb_true_iff, bool_decide_eq_false. naive_solver.
  - apply retain_NoDup. by rewrite Hids.
  - intros t j r Hr'. apply Hsub in Hr' as [_ Hr']. by apply Htk.
  - intros t j [r Hr']. apply Hsub in Hr' as [Hne Hr']. rewrite Hg.
    rewrite lookup_delete_ne by done. eapply Htg. by eexists.
  - intros t j [r Hr']. apply Hsub in Hr' as [Hne Hr']. unfold gateway_tokens. cbn -[lookup].
    rewrite Hgt, lookup_delete_ne by done. apply Htl. by eexists.
  - intros j. unfold gateway_tokens. cbn -[lookup]. rewrite Hgt.
    destruct (decide (id = j)) as [->|]; [rewrite lookup_delete_eq; apply NoDup_nil_2|].
    rewrite lookup_delete_ne by done. apply Htd.
  - intros j g x m. rewrite Hg, Hr. rewrite lookup_delete_Some. intros [_ Hj]. by apply Ha.
  - intros v h. rewrite Hep. apply He.
  - intros v. unfold verifier_history. cbn -[lookup]. rewrite Hvh. apply Hv.
  - intros j. unfold gateway_history. cbn -[lookup]. rewrite Hgh. apply Hh.
Qed.
(** *** Calls *)

(** The goal for a sequence of operations, one step at a time. *)
Ltac kept_step :=
  match goal with
  | |- kept (_ ≫= _) _ => apply kept_bind
  | |- kept (mret _) _ => apply kept_ret
  | |- kept (throw _) _ => apply kept_throw
  | |- kept (gets _) _ => apply kept_gets
  | |- kept (ok_or _ _) _ => apply kept_ok_or
  | |- kept (ensure_root _) _ => apply kept_root
  | |- kept (ensure_signed_or_root _) _ => apply kept_signed_or_root
  | |- kept (xdns_assert _) _ => apply kept_assert
  | |- kept (assets _) _ => apply kept_assets
  | |- kept (override_gateway _) _ => apply override_gateway_kept
  | |- kept (register_new_token _ _ _) _ => apply register_new_token_kept
  | |- kept (link_token_to_gateway _ _ _) _ => apply link_token_kept
  | |- kept (transactional _) _ => apply kept_transactional; [done|]
  | |- kept (if ?b then _ else _) _ => destruct b
  | |- kept (match ?o with Some _ => _ | None => _ end) _ => destruct o
  | |- kept (modify _) _ => solve [apply kept_frame; done]
  | |- ∀ _ _, _ = Ok _ _ → _ → _ =>
      let H := fresh "Hrun" in intros ? ? H ?; try (unfold gets in H; simplify_eq)
  end; try done.

Lemma refresh_entry_keys e (acc : XdnsState E * SfxAbi) k :
  (∀ j, is_Some (SFXABIRegistry acc.1 !! j) → is_Some (SFXABIRegistry (refresh_entry e acc k).1 !! j)) ∧
  (xdns_inv acc.1 → xdns_inv (refresh_entry e acc k).1).
Proof.
  destruct acc as [s a]. unfold refresh_entry. case_bool_decide; [|done]. split.
  - intros j Hj. apply lookup_insert_is_Some'. by right.
  - apply inv_insert_abi.
Qed.

Lemma refresh_linked_inv s e : xdns_inv s → xdns_inv (refresh_linked s e).
Proof.
  intros Hs. unfold refresh_linked.
  apply (fold_left_inv (λ acc : XdnsState E * SfxAbi, xdns_inv acc.1)); [done|].
  intros acc k _ Hacc. by apply refresh_entry_keys.
Qed.

Lemma reboot_kept o v s : xdns_inv s → kept (do_reboot_self_gateway o v) s.
Proof.
  intros Hs. unfold do_reboot_self_gateway. repeat kept_step.
  apply kept_modify. apply fold_left_inv; [done|]. intros ? e _ ?. by apply refresh_linked_inv.
Qed.

(** The interfaces of a gateway are read back and stored. *)
Lemma restore_abi_kept id s :
  xdns_inv s → kept (l ← gets (get_all_sfx_abi id); override_sfx_abi id l) s.
Proof.
  intros Hs. apply kept_bind; [done|]. intros l s' Hl _. unfold gets in Hl. simplify_eq.
  apply override_sfx_abi_kept; [|done]. intros x a Hin. apply get_all_sfx_abi_elem in Hin.
  by eexists.
Qed.

Lemma enroll_abi_kept o id x abi m s :
  xdns_inv s → kept (enroll_new_abi_to_selected_gateway o id x abi m) s.
Proof.
  intros Hs. unfold enroll_new_abi_to_selected_gateway. kept_step.
  apply kept_bind; [by apply kept_root|]. intros [] s1 _ Hs1.
  apply kept_bind; [|intros [] s2 _ Hs2; by apply restore_abi_kept].
  destruct abi as [a|]; [by apply kept_modify, inv_insert_abi|].
  repeat kept_step. by apply kept_modify, inv_insert_abi.
Qed.

Lemma unlink_inv id t s :
  xdns_inv s →
  xdns_inv (set_GatewayTokens
    (<[id := List.filter (λ t', negb (t' =? t)) (gateway_tokens id s)]> (GatewayTokens s))
    (set_Tokens (delete (t, id) (Tokens s)) s)).
Proof.
  intros [Hk Hl Hd Htk Htg Htl Htd Ha He Hv Hh].
  pose proof (λ j l, gateway_tokens_insert id j l (set_Tokens (delete (t, id) (Tokens s)) s)) as Hgt.
  cbn [GatewayTokens set_Tokens] in Hgt. split; try done.
  - intros t' j r. cbn -[lookup]. intros Hr%delete_token_subset. by apply Htk.
  - intros t' j [r Hr]. cbn -[lookup] in *. apply delete_token_subset in Hr. eapply Htg. by eexists.
  - intros t' j [r Hr]. rewrite Hgt. cbn -[lookup] in Hr. pose proof (delete_token_subset _ _ _ _ Hr) as Hs.
    assert (t' ∈ gateway_tokens j s) as Hin by (apply Htl; by eexists).
    destruct (decide (id = j)) as [->|]; [|done]. apply retain_elem. split; [done|].
    apply negb_true_iff, Z.eqb_neq. intros ->. by rewrite lookup_delete_eq in Hr.
  - intros j. rewrite Hgt. destruct (decide _); [apply retain_NoDup|]; apply Htd.
Qed.

Lemma override_sfx_abi_run id l s :
  override_sfx_abi id l s =
  match Gateways s !! id with
  | Some g =>
      Ok tt (fold_left (λ s e, insert_abi id e s) l
        (set_Gateways (<[id := set_gateway_allowed (map (λ e, (e.1, maybe_prefix_memo e.2)) l) g]>
          (Gateways s)) s))
  | None => Err (xdns_err XdnsRecordNotFound) s
  end.
Proof.
  unfold override_sfx_abi, mbind, M_bind, gets, ok_or, modify. by destruct (Gateways s !! id).
Qed.

(** Interfaces are removed from the registry and, with the next write, from the
    gateway: in between only the gateway's own side effects lack theirs. *)
Lemma unroll_abi_kept o id x s : xdns_inv s → kept (unroll_abi_of_selected_gateway o id x) s.
Proof.
  intros Hs. unfold unroll_abi_of_selected_gateway, kept, transactional. destruct o; try done.
  set (s1 := set_SFXABIRegistry (delete (id, x) (SFXABIRegistry s)) s).
  match goal with |- context [match ?m s with Ok _ _ => _ | Err _ _ => _ | Panic => _ end] =>
    change (m s) with (override_sfx_abi id (get_all_sfx_abi id s1) s1) end.
  rewrite override_sfx_abi_run. change (Gateways s1) with (Gateways s).
  destruct (Gateways s !! id) as [g|] eqn:Hg; [|done]. cbv iota.
  apply fold_insert_abi. destruct Hs as [Hk Hl Hd Htk Htg Htl Htd Ha He Hv Hh]. split; try done;
    cbn -[lookup].
  - intros j h. rewrite lookup_insert_Some. intros [[<- <-]|[_ Hh']]; [exact (Hk _ _ Hg)|by apply Hk].
  - intros j. rewrite Hl, lookup_insert_is_Some'. split; [by right|]. intros [<-|?]; [by rewrite Hg; eexists|done].
  - intros t j Ht. apply lookup_insert_is_Some'. right. by eapply Htg.
  - intros j h y m. rewrite lookup_insert_Some. intros [[<- <-]|[Hne Hh']]; intros Hy.
    + simpl in Hy. apply list_elem_of_In, in_map_iff in Hy as ([z a] & Heq & Hin). simpl in Heq. simplify_eq.
      apply list_elem_of_In, get_all_sfx_abi_elem in Hin. by eexists.
    + rewrite lookup_delete_ne by naive_solver. by eapply Ha.
Qed.

Lemma purge_token_kept o t s : xdns_inv s → kept (purge_token_record o t) s.
Proof.
  intros Hs. unfold purge_token_record. repeat kept_step.
  apply kept_modify, inv_tokens_subset; [|done]. intros k r Hr. by apply map_lookup_filter_Some in Hr as [? _].
Qed.

Lemma dispatch_kept o c s : xdns_inv s → kept (xdns_dispatch o c) s.
Proof.
  intros Hs. destruct c; cbn [xdns_dispatch].
  - unfold reboot_self_gateway. kept_step. by apply reboot_kept.
  - unfold add_supported_bridging_asset. repeat kept_step.
  - unfold enroll_bridge_asset. repeat kept_step.
  - by apply enroll_abi_kept.
  - by apply unroll_abi_kept.
  - unfold add_remote_order_address. repeat kept_step.
  - unfold add_remote_bidding_address. repeat kept_step.
  - unfold purge_supported_bridging_asset. repeat kept_step.
  - unfold purge_gateway_record. repeat kept_step.
    + by apply kept_modify, forget_gateway_inv.
    + by apply kept_modify, process_single_inv.
  - unfold unlink_token. repeat kept_step. apply kept_modify. by refine (unlink_inv id token _ _).
  - unfold link_token. repeat kept_step.
  - by apply purge_token_kept.
  - unfold zip_topology. kept_step. destruct o; repeat kept_step.
  - unfold unzip_topology. repeat kept_step. unfold do_unzip_topology. kept_step.
    + apply kept_for_each; [done|]. intros. by apply override_gateway_kept.
    + repeat kept_step. apply kept_for_each; [done|]. intros. unfold unzip_asset. repeat kept_step.
Qed.

Lemma request_kept r s : xdns_inv s → kept (xdns_request r) s.
Proof.
  intros Hs. destruct r; cbn [xdns_request].
  - by apply add_new_gateway_kept.
  - by apply override_gateway_kept.
  - by apply register_new_token_kept.
  - by apply link_token_kept.
  - by apply extend_sfx_abi_kept.
  - by apply add_escrow_account_kept.
  - unfold mint. repeat kept_step.
  - unfold burn. repeat kept_step.
Qed.

Lemma upgrade_inv s : xdns_inv s → xdns_inv (on_runtime_upgrade s).1.
Proof.
  intros Hs. unfold on_runtime_upgrade.
  destruct (StorageMigrations s) as [|p|]; [| |done].
  - simpl. match goal with |- context [fold_left migrate_standard ?l ?s0] =>
      assert (xdns_inv (fold_left migrate_standard l s0)) as Hf end.
    { apply fold_left_inv; [by refine (xdns_inv_frame _ _ _ Hs)|]. intros s' e _ Hs'.
      unfold migrate_standard. destruct (get_standard_interface _); [|done].
      by refine (xdns_inv_frame _ _ _ Hs'). }
    by refine (xdns_inv_frame _ _ _ Hf).
  - destruct p as [p|[p|p|]|]; try done; by refine (xdns_inv_frame _ _ _ Hs).
Qed.

Lemma genesis_kept records abis e : kept (genesis_build records abis) (empty_xdns e).
Proof.
  unfold genesis_build.
  assert (xdns_inv (empty_xdns e)) as Hs.
  { split; try done; cbn -[lookup]; try (intros; unfold verifier_history, gateway_history, gateway_tokens;
      simpl; rewrite ?lookup_empty; simpl; try apply NoDup_nil_2; lia).
    - intros id. rewrite lookup_empty. split; [by intros ?%elem_of_nil|by intros []].
    - intros t id. rewrite lookup_empty. by intros [].
    - intros t id. rewrite lookup_empty. by intros []. }
  apply kept_bind; [by apply kept_frame|]. intros [] s1 _ Hs1. apply kept_for_each; [done|].
  intros g s2 _ Hs2. unfold genesis_gateway.
  pose proof (override_gateway_kept g s2 Hs2) as Hk. unfold kept, attempt, mbind, M_bind in *.
  by destruct (override_gateway g s2).
Qed.

Lemma xdns_reach_inv s : xdns_reach s → xdns_inv s.
Proof.
  induction 1 as [e records abis s Hg|s s' _ IH Hstep].
  - eapply kept_ok; [apply genesis_kept|exact Hg].
  - destruct Hstep as [o c s' Hd|r s' Hr|v epoch h|n| | |e b].
    + eapply kept_ok; [by apply dispatch_kept|exact Hd].
    + eapply kept_ok; [by apply request_kept|exact Hr].
    + by apply process_single_inv.
    + by apply manual_process_inv.
    + by apply read_overview_inv.
    + by apply upgrade_inv.
    + by refine (xdns_inv_frame _ _ _ IH).
Qed.
End Steps.
