(* ===== verification/XdnsProps.v ===== *)
(** * What the registry of gateways does

    The gateways, interfaces, tokens and topology of [pallets/xdns/src/lib.rs]:
    what its operations store, what they return and when they fail. *)

From S2P Require Import Prelude Types AccountManager World Circuit StandardAbi Vacuum Batches.
From S2P Require Import Attesters Xdns XdnsCalls XdnsSystem.

(** ** Interfaces a gateway is given *)

(** The prefix of the last entry of a side effect. *)
Definition last_prefix (x : list Z) (allowed : list (list Z * option Z)) : option (option Z) :=
  snd <$> last (List.filter (λ e, bool_decide (e.1 = x)) allowed).

Lemma last_prefix_snoc x allowed e :
  last_prefix x (allowed ++ [e]) = if decide (e.1 = x) then Some e.2 else last_prefix x allowed.
Proof.
  unfold last_prefix. rewrite List.filter_app. cbn [List.filter].
  destruct (decide (e.1 = x)) as [He|He].
  - rewrite bool_decide_eq_true_2 by done. by rewrite last_snoc.
  - rewrite bool_decide_eq_false_2 by done. by rewrite app_nil_r.
Qed.

Lemma last_prefix_elem x allowed : (∃ m, (x, m) ∈ allowed) ↔ is_Some (last_prefix x allowed).
Proof.
  induction allowed as [|e l IH] using rev_ind.
  { split; [intros [m Hm]; by inversion Hm|by intros []]. }
  rewrite last_prefix_snoc. destruct (decide (e.1 = x)) as [<-|Hne].
  - split; [by eexists|]. intros _. exists e.2. destruct e. apply elem_of_app. right. by left.
  - rewrite <- IH. split; intros [m Hm]; exists m.
    + apply elem_of_app in Hm as [Hm|Hm%list_elem_of_singleton]; [done|]. by subst e.
    + apply elem_of_app. by left.
Qed.

Section Populate.
Context {E : Type} `{!XdnsConfig E}.
Implicit Types s : XdnsState E.

(** The registry with the interfaces of the allowed side effects. *)
Definition populated (id : TargetId) (std : gmap (list Z) SfxAbi) (allowed : list (list Z * option Z))
    (r : gmap (list Z * list Z) SfxAbi) : gmap (list Z * list Z) SfxAbi :=
  fold_left (λ r e,
    match std !! e.1 with
    | Some abi => <[(id, e.1) := set_maybe_prefix_memo e.2 abi]> r
    | None => r
    end) allowed r.

Lemma populated_lookup id std allowed r j x :
  populated id std allowed r !! (j, x) =
  match last_prefix x allowed, std !! x with
  | Some m, Some abi => if decide (j = id) then Some (set_maybe_prefix_memo m abi) else r !! (j, x)
  | _, _ => r !! (j, x)
  end.
Proof.
  induction allowed as [|e l IH] using rev_ind; [done|].
  unfold populated. rewrite fold_left_app. cbn [fold_left]. fold (populated id std l r).
  rewrite last_prefix_snoc. destruct (decide (e.1 = x)) as [He|He].
  - destruct (std !! e.1) as [abi|] eqn:Hstd; rewrite He in Hstd; rewrite Hstd.
    + rewrite He. destruct (decide (j = id)) as [->|Hne]; [by rewrite lookup_insert_eq|].
      rewrite lookup_insert_ne by naive_solver. rewrite IH, Hstd.
      destruct (last_prefix x l); [|done]. by destruct (decide (j = id)).
    + rewrite IH, Hstd. by destruct (last_prefix x l).
  - destruct (std !! e.1) as [abi|]; [|done]. rewrite lookup_insert_ne by naive_solver. apply IH.
Qed.

Lemma populated_given id std allowed r x m abi :
  last_prefix x allowed = Some m → std !! x = Some abi →
  populated id std allowed r !! (id, x) = Some (set_maybe_prefix_memo m abi).
Proof. intros Hm Habi. rewrite populated_lookup, Hm, Habi. by rewrite decide_True. Qed.

Lemma populated_absent id std allowed r j x :
  last_prefix x allowed = None → populated id std allowed r !! (j, x) = r !! (j, x).
Proof. intros Hm. by rewrite populated_lookup, Hm. Qed.

Lemma populated_other id std allowed r j x :
  j ≠ id → populated id std allowed r !! (j, x) = r !! (j, x).
Proof.
  intros Hj. rewrite populated_lookup. destruct (last_prefix _ _), (std !! x); try done.
  by rewrite decide_False.
Qed.

Definition all_standard (allowed : list (list Z * option Z)) s : bool :=
  forallb (λ e, is_some (StandardSFXABIs s !! e.1)) allowed.

Lemma populate_abi_run id allowed s :
  all_standard allowed s = true →
  populate_abi id allowed s =
    Ok tt (set_SFXABIRegistry (populated id (StandardSFXABIs s) allowed (SFXABIRegistry s)) s).
Proof.
  revert s. induction allowed as [|[x m] l IH]; intros s Hall.
  { unfold populated. simpl. unfold mret, M_ret. by destruct s. }
  apply andb_true_iff in Hall as [Hx Hl]. cbn [populate_abi]. unfold gets, mbind at 1, M_bind at 1.
  cbn in Hx. destruct (StandardSFXABIs s !! x) as [abi|] eqn:Hstd; [|done]. cbn [ok_or].
  unfold mbind at 1, M_bind at 1, mret, M_ret, modify, mbind at 1, M_bind at 1.
  rewrite IH by done. unfold populated. cbn [fold_left fst snd]. by rewrite Hstd.
Qed.

Lemma populate_abi_missing id allowed s :
  all_standard allowed s = false →
  ∃ s', populate_abi id allowed s = Err (xdns_err SideEffectABINotFound) s'.
Proof.
  revert s. induction allowed as [|[x m] l IH]; intros s Hall; [done|].
  cbn [populate_abi]. unfold gets, mbind at 1, M_bind at 1. cbn in Hall.
  destruct (StandardSFXABIs s !! x) as [abi|] eqn:Hstd; cbn [ok_or]; [|by eexists].
  unfold mbind at 1, M_bind at 1, mret, M_ret, modify, mbind at 1, M_bind at 1.
  by apply IH.
Qed.

(** The state after a gateway is stored. *)
Definition stored_gateway (g : GatewayRecord) s : XdnsState E :=
  let id := gateway_id g in
  let s := set_SFXABIRegistry (populated id (StandardSFXABIs s) (gateway_allowed_side_effects g)
             (SFXABIRegistry s)) s in
  let s := set_Gateways (<[id := g]> (Gateways s)) s in
  let s := set_AllGatewayIds (remove_first id (AllGatewayIds s) ++ [id]) s in
  xdns_event (EvGatewayRecordStored id) s.

Lemma override_gateway_run g s :
  all_standard (gateway_allowed_side_effects g) s = true →
  override_gateway g s = Ok tt (stored_gateway g s).
Proof.
  intros Hall. unfold override_gateway. rewrite (bind_Ok _ _ _ _ _ (populate_abi_run _ _ _ Hall)).
  done.
Qed.

Lemma override_gateway_missing g s :
  all_standard (gateway_allowed_side_effects g) s = false →
  ∃ s', override_gateway g s = Err (xdns_err SideEffectABINotFound) s'.
Proof.
  intros Hall. destruct (populate_abi_missing (gateway_id g) _ s Hall) as [s' Hp].
  exists s'. unfold override_gateway. by rewrite (bind_Err _ _ _ _ _ Hp).
Qed.

(** ** The refresh of the standards *)

Lemma set_prefix_twice m m' a :
  set_maybe_prefix_memo m (set_maybe_prefix_memo m' a) = set_maybe_prefix_memo m a.
Proof. done. Qed.

Definition refreshed (std : SfxAbi) (a : SfxAbi) : SfxAbi :=
  set_maybe_prefix_memo (maybe_prefix_memo a) std.

Lemma refresh_entries e keys s a :
  NoDup keys → (∀ k, k ∈ keys → is_Some (SFXABIRegistry s !! k)) →
  (∃ m, a = set_maybe_prefix_memo m e.2) →
  ∀ k, SFXABIRegistry (fold_left (refresh_entry e) keys (s, a)).1 !! k =
    if decide (e.1 = k.2 ∧ k ∈ keys) then refreshed e.2 <$> SFXABIRegistry s !! k
    else SFXABIRegistry s !! k.
Proof.
  intros Hnd. revert s a. induction Hnd as [|k0 keys Hk0 _ IH]; intros s a Hall Ha k; cbn [fold_left].
  { rewrite decide_False; [done|]. intros [_ Hin]. by inversion Hin. }
  unfold refresh_entry at 2. case_bool_decide as He.
  - destruct (Hall k0) as [b Hb]; [by left|]. rewrite Hb. cbn [mbind option_bind].
    set (a1 := set_maybe_prefix_memo _ a). set (s1 := insert_abi k0.1 (e.1, a1) s).
    assert (SFXABIRegistry s1 = <[k0 := a1]> (SFXABIRegistry s)) as Hs1
      by (unfold s1, insert_abi; rewrite He; by destruct k0).
    rewrite (IH s1 a1).
    + rewrite Hs1. destruct (decide (k0 = k)) as [<-|Hne].
      * rewrite decide_False by tauto. rewrite lookup_insert_eq, Hb, decide_True
          by (split; [done|by left]).
        destruct Ha as [m ->]. done.
      * rewrite lookup_insert_ne by done. destruct (decide (e.1 = k.2 ∧ k ∈ keys)) as [Hy|Hn].
        -- rewrite decide_True; [done|]. split; [tauto|]. right. tauto.
        -- rewrite decide_False; [done|]. rewrite elem_of_cons. naive_solver.
    + intros k' Hk'. rewrite Hs1. apply lookup_insert_is_Some'. right. apply Hall. by right.
    + destruct Ha as [m ->]. by eexists.
  - rewrite IH; [|intros k' Hk'; apply Hall; by right|done].
    destruct (decide (e.1 = k.2 ∧ k ∈ keys)) as [Hy|Hn].
    + rewrite decide_True; [done|]. split; [tauto|]. right. tauto.
    + rewrite decide_False; [done|]. rewrite elem_of_cons. naive_solver.
Qed.

Lemma refresh_linked_lookup e s k :
  SFXABIRegistry (refresh_linked s e) !! k =
  if decide (e.1 = k.2) then refreshed e.2 <$> SFXABIRegistry s !! k else SFXABIRegistry s !! k.
Proof.
  unfold refresh_linked. rewrite refresh_entries.
  - destruct (decide (e.1 = k.2)) as [He|He].
    + destruct (SFXABIRegistry s !! k) as [a|] eqn:Ha.
      * rewrite decide_True; [done|]. split; [done|]. apply iter_by_keys. by eexists.
      * by destruct (decide _).
    + rewrite decide_False; [done|]. tauto.
  - apply iter_by_NoDup.
  - intros j Hj. by apply iter_by_keys in Hj.
  - exists (maybe_prefix_memo e.2). by destruct e as [? []].
Qed.

(** Every other field is left alone. *)
Lemma refresh_linked_frame e s :
  ∃ r, refresh_linked s e = set_SFXABIRegistry r s.
Proof.
  unfold refresh_linked.
  apply (fold_left_inv (λ acc : XdnsState E * SfxAbi, ∃ r, acc.1 = set_SFXABIRegistry r s)).
  - exists (SFXABIRegistry s). by destruct s.
  - intros [s1 a] k _ [r Hr]. simpl in Hr. subst s1. unfold refresh_entry.
    case_bool_decide; [by eexists|by exists r].
Qed.

Lemma refresh_all_frame l s : ∃ r, fold_left refresh_linked l s = set_SFXABIRegistry r s.
Proof.
  apply (fold_left_inv (λ s', ∃ r, s' = set_SFXABIRegistry r s)).
  - exists (SFXABIRegistry s). by destruct s.
  - intros s1 e _ [r ->]. destruct (refresh_linked_frame e (set_SFXABIRegistry r s)) as [r' ->].
    by exists r'.
Qed.

(** The interface a list of standards has for an identifier, the last of them. *)
Definition standard_of (x : list Z) (l : list (list Z * SfxAbi)) : option SfxAbi :=
  snd <$> last (List.filter (λ e, bool_decide (e.1 = x)) l).

Lemma refresh_all_lookup l s k :
  SFXABIRegistry (fold_left refresh_linked l s) !! k =
  match standard_of k.2 l with
  | Some std => refreshed std <$> SFXABIRegistry s !! k
  | None => SFXABIRegistry s !! k
  end.
Proof.
  induction l as [|e l IH] using rev_ind; [done|]. rewrite fold_left_app. cbn [fold_left].
  rewrite refresh_linked_lookup, IH. unfold standard_of. rewrite List.filter_app. cbn [List.filter].
  destruct (decide (e.1 = k.2)) as [He|He].
  - rewrite bool_decide_eq_true_2 by done. rewrite last_snoc. simpl.
    destruct (last _) as [[x std]|]; simpl; [|done]. by destruct (SFXABIRegistry s !! k).
  - rewrite bool_decide_eq_false_2 by done. by rewrite app_nil_r.
Qed.

Lemma self_allowed_all s :
  self_allowed_side_effects (refresh_standards s) =
    [(bytes_of "tran", Some BALANCES_INDEX); (bytes_of "tran", Some ASSETS_INDEX);
     (bytes_of "tran", Some ASSETS_INDEX); (bytes_of "cevm", Some EVM_INDEX);
     (bytes_of "wasm", Some WASM_INDEX)].
Proof. vm_compute. reflexivity. Qed.
End Populate.

(** ** Tokens and topologies *)

Lemma for_each_app_Ok {S Er A} (l k : list A) (f : A → M S Er unit) (s : S) u s' :
  for_each (l ++ k) f s = Ok u s' →
  ∃ s1, for_each l f s = Ok tt s1 ∧ for_each k f s1 = Ok u s'.
Proof.
  revert s. induction l as [|a l IH]; intros s Hl; simpl in *; [by exists s|].
  apply bind_Ok_inv in Hl as ([] & s1 & Ha & Hl). apply IH in Hl as (s2 & Hl & Hk).
  exists s2. split; [|done]. by rewrite (bind_Ok _ _ _ _ _ Ha).
Qed.

Section Topology.
Context {E : Type} `{!XdnsConfig E}.
Implicit Types s t : XdnsState E.

(** A token that is listed and linked with the chain's own gateway. *)
Definition linked_here (token : AssetId) t : Prop :=
  token ∈ AllTokenIds t ∧ is_Some (Tokens t !! (token, SelfGatewayId)).

Lemma link_token_Ok token id props t u t' :
  link_token_to_gateway token id props t = Ok u t' →
  Tokens t !! (token, id) = None ∧ t' = override_token token id props t.
Proof.
  unfold link_token_to_gateway. intros Hl. apply bind_Ok_inv in Hl as (o & s1 & Hg & Hl). inv_ok Hg.
  apply bind_Ok_inv in Hl as (g & s2 & Hg & Hl). inv_ok Hg.
  apply bind_Ok_inv in Hl as (b & s3 & Hg & Hl). inv_ok Hg.
  destruct (Tokens s3 !! (token, id)); simpl in Hl; [done|].
  apply bind_Ok_inv in Hl as (c & s4 & Hg & Hl). inv_ok Hg.
  apply bind_Ok_inv in Hl as ([] & s5 & Hg & Hl). inv_ok Hg. by inv_ok Hl.
Qed.

Lemma register_Ok o token props t u t' :
  register_new_token o token props t = Ok u t' →
  ∃ e, t' = xdns_event (EvNewTokenAssetRegistered token SelfGatewayId)
    (let t1 := override_token token SelfGatewayId props (set_xd_ext e t) in
     set_AllTokenIds (AllTokenIds t1 ++ [token]) t1) ∧ token ∉ AllTokenIds t.
Proof.
  unfold register_new_token. intros Hr. apply bind_Ok_inv in Hr as (b & s1 & Hg & Hr). inv_ok Hg.
  destruct (contains_asset _ _); [done|].
  apply bind_Ok_inv in Hr as (c & s2 & Hg & Hr). inv_ok Hg.
  case_bool_decide as Hin; [done|].
  apply bind_Ok_inv in Hr as (who & s3 & Hw & Hr).
  assert (s3 = s2) as -> by (destruct o; cbv in Hw; by simplify_eq).
  apply bind_Ok_inv in Hr as ([] & s4 & Ha & Hr).
  assert (∃ e, s4 = set_xd_ext e s2) as [e ->].
  { unfold assets, zoom in Ha. destruct (force_create_asset _ _ _ _ _ _); [|done..].
    simplify_eq. by eexists. }
  apply bind_Ok_inv in Hr as ([] & s5 & Hl & Hr). apply link_token_Ok in Hl as [_ ->].
  apply bind_Ok_inv in Hr as ([] & s6 & Hm & Hr). inv_ok Hm. inv_ok Hr. by exists e.
Qed.

Lemma override_token_linked token id props t x :
  linked_here x t → linked_here x (override_token token id props t).
Proof.
  intros [Hx Hl]. split; [apply push_if_absent_elem; by right|]. apply lookup_insert_is_Some'. by right.
Qed.

Lemma override_token_links token props t :
  linked_here token (override_token token SelfGatewayId props t).
Proof.
  split; [apply push_if_absent_elem; by left|]. apply lookup_insert_is_Some'. by left.
Qed.

Lemma unzip_asset_Ok o a t u t' :
  unzip_asset o a t = Ok u t' →
  (∀ x, linked_here x t → linked_here x t') ∧
  (token_gateway_id a = SelfGatewayId →
   ¬ linked_here (token_id a) t ∧ linked_here (token_id a) t').
Proof.
  unfold unzip_asset. intros Hu. apply bind_Ok_inv in Hu as (b & s1 & Hg & Hu). inv_ok Hg.
  case_bool_decide as Hin; simpl in Hu.
  - apply link_token_Ok in Hu as [Hn ->]. split; [intros; by apply override_token_linked|].
    intros Ha. rewrite Ha in *. split; [|by apply override_token_links].
    intros [_ [r Hr]]. congruence.
  - apply register_Ok in Hu as (e & -> & _). split.
    + intros x Hx. split.
      * cbn -[lookup]. apply elem_of_app. left. apply push_if_absent_elem. right. apply Hx.
      * apply (override_token_linked (token_id a) SelfGatewayId (token_props a) (set_xd_ext e s1) x). apply Hx.
    + intros _. split; [by intros []|]. split; cbn -[lookup].
      * apply elem_of_app. right. by left.
      * apply lookup_insert_is_Some'. by left.
Qed.

Lemma unzip_assets_linked o l t u t' x :
  for_each l (unzip_asset o) t = Ok u t' → linked_here x t → linked_here x t'.
Proof.
  revert t. induction l as [|a l IH]; intros t Hl Hx; simpl in Hl.
  { by inv_ok Hl. }
  apply bind_Ok_inv in Hl as ([] & s1 & Ha & Hl). apply (IH s1); [done|].
  by apply (unzip_asset_Ok _ _ _ _ _ Ha).
Qed.

(** An asset that is in a list twice. *)
Lemma unzip_twice o a l1 l2 l3 t u t' :
  token_gateway_id a = SelfGatewayId →
  for_each (l1 ++ a :: l2 ++ a :: l3) (unzip_asset o) t ≠ Ok u t'.
Proof.
  intros Ha Hl. apply for_each_app_Ok in Hl as (s1 & _ & Hl). cbn [for_each] in Hl.
  apply bind_Ok_inv in Hl as ([] & s2 & H1 & Hl). apply for_each_app_Ok in Hl as (s3 & H2 & Hl).
  cbn [for_each] in Hl. apply bind_Ok_inv in Hl as ([] & s4 & H3 & _).
  apply unzip_asset_Ok in H1 as [_ H1]. apply unzip_asset_Ok in H3 as [_ H3].
  destruct (H1 Ha) as [_ Hlinked]. destruct (H3 Ha) as [Hnot _].
  apply Hnot. by eapply unzip_assets_linked.
Qed.

(** *** The gateways of a topology *)

Definition store_all (l : list GatewayRecord) t : XdnsState E :=
  fold_left (λ t g, stored_gateway g t) l t.

Lemma store_all_run (l : list FullGatewayRecord) t :
  Forall (λ f, all_standard (gateway_allowed_side_effects (gateway_record f)) t = true) l →
  for_each l (λ g, override_gateway (gateway_record g)) t = Ok tt (store_all (map gateway_record l) t).
Proof.
  revert t. induction l as [|f l IH]; intros t Hl; [done|].
  apply Forall_cons in Hl as [Hf Hl]. cbn [for_each].
  rewrite (bind_Ok _ _ _ _ _ (override_gateway_run _ _ Hf)). rewrite IH; [done|].
  exact Hl.
Qed.

Lemma store_all_lookup l t id g :
  NoDup (map gateway_id l) → g ∈ l → gateway_id g = id →
  Gateways (store_all l t) !! id = Some g.
Proof.
  induction l as [|h l IH] using rev_ind; intros Hnd Hg Hid; [by inversion Hg|].
  rewrite map_app in Hnd. apply NoDup_app in Hnd as (Hnd & Hdis & _).
  unfold store_all. rewrite fold_left_app. cbn [fold_left]. fold (store_all l t).
  cbn -[lookup]. apply elem_of_app in Hg as [Hg|Hg%list_elem_of_singleton].
  - rewrite lookup_insert_ne; [by apply IH|]. intros Heq. apply (Hdis (gateway_id g)).
    + apply list_elem_of_In, in_map_iff. exists g. split; [done|]. by apply list_elem_of_In.
    + rewrite Hid, <- Heq. by left.
  - subst h. by rewrite Hid, lookup_insert_eq.
Qed.

Lemma store_all_other l t id :
  id ∉ map gateway_id l → Gateways (store_all l t) !! id = Gateways t !! id.
Proof.
  induction l as [|h l IH] using rev_ind; intros Hid; [done|].
  rewrite map_app, not_elem_of_app in Hid. destruct Hid as [Hid Hh].
  unfold store_all. rewrite fold_left_app. cbn [fold_left]. fold (store_all l t).
  cbn -[lookup]. rewrite lookup_insert_ne; [by apply IH|]. intros Heq. apply Hh. rewrite <- Heq. by left.
Qed.

Lemma fetch_gateways_ids s :
  xdns_inv s → map gateway_id (fetch_gateways s) = (iter_by key4 (Gateways s)).*1.
Proof.
  intros Hs. unfold fetch_gateways.
  assert (∀ k g, (k, g) ∈ iter_by key4 (Gateways s) → gateway_id g = k) as Hk.
  { intros k g Hin. apply iter_by_elem in Hin. by apply (gateways_keyed _ Hs). }
  induction (iter_by key4 (Gateways s)) as [|[k g] l IH]; [done|]. simpl. f_equal.
  - apply Hk. by left.
  - apply IH. intros k' g' Hin. apply Hk. by right.
Qed.

Lemma fetch_gateways_elem g s : g ∈ fetch_gateways s ↔ ∃ id, Gateways s !! id = Some g.
Proof. apply iter_by_values. Qed.

Lemma fetch_full_records s : map gateway_record (fetch_full_gateway_records s) = fetch_gateways s.
Proof. unfold fetch_full_gateway_records. rewrite map_map. simpl. apply map_id. Qed.

(** The gateways of one registry stored over those of another. *)
Lemma store_all_union s t :
  xdns_inv s → Gateways (store_all (fetch_gateways s) t) = Gateways s ∪ Gateways t.
Proof.
  intros Hs. apply map_eq. intros id. rewrite lookup_union.
  destruct (Gateways s !! id) as [g|] eqn:Hg.
  - rewrite union_Some_l. apply store_all_lookup.
    + rewrite fetch_gateways_ids by done. apply iter_by_NoDup.
    + apply fetch_gateways_elem. by exists id.
    + by apply (gateways_keyed _ Hs).
  - rewrite option_union_left_id. apply store_all_other. rewrite fetch_gateways_ids by done.
    rewrite iter_by_keys, Hg. by intros [].
Qed.
End Topology.

(** ** Properties *)

Section Properties.
Context {E : Type} `{!XdnsConfig E} `{!CircuitReads E}.
Implicit Types s t : XdnsState E.

(** C28: In every state a history of the registry reaches, whatever calls, reports
    and blocks it consists of, the storage is consistent ([xdns_inv]): gateways
    and tokens are stored under their own identifiers, every token belongs to a
    stored gateway, every side effect a gateway allows has an interface there
    and the histories are bounded.  The gateways that are listed to clients are
    then exactly those of the list of identifiers, each once, and the tokens
    listed with a gateway are tokens of that gateway. *)
Theorem registry_consistent s :
  xdns_reach s →
  xdns_inv s ∧
  map gateway_id (fetch_gateways s) ≡ₚ AllGatewayIds s ∧
  (∀ f r, f ∈ fetch_full_gateway_records s → r ∈ gateway_record_tokens f →
    token_gateway_id r = gateway_id (gateway_record f) ∧
    token_id r ∈ gateway_tokens (gateway_id (gateway_record f)) s).
Proof.
  intros Hr. apply xdns_reach_inv in Hr as Hs. split; [done|]. split.
  - rewrite fetch_gateways_ids by done. apply NoDup_Permutation.
    + apply iter_by_NoDup.
    + apply (gateway_ids_distinct _ Hs).
    + intros id. by rewrite iter_by_keys, (gateways_listed _ Hs).
  - intros f r Hf Hr'. unfold fetch_full_gateway_records in Hf.
    apply list_elem_of_In, in_map_iff in Hf as (g & <- & _). simpl in *.
    apply retain_elem in Hr' as [Hin Hg]. apply bool_decide_eq_true in Hg.
    apply iter_by_values in Hin as [[t id] Ht]. destruct (tokens_keyed _ Hs _ _ _ Ht) as [Hti Hgi].
    split; [done|]. rewrite <- Hg, Hti, Hgi. apply (tokens_listed _ Hs). by eexists.
Qed.

(** Adding a gateway.  A known one is refused, and so is one with a side
    effect that is not among the standards.  Otherwise the record is stored as
    given, every allowed side effect gets the standard interface with the last
    prefix it was listed with, and no interface of another gateway changes. *)
Theorem add_new_gateway_spec g s :
  let id := gateway_id g in
  if is_some (Gateways s !! id) then
    add_new_gateway g s = Err (xdns_err GatewayRecordAlreadyExists) s
  else if all_standard (gateway_allowed_side_effects g) s then
    ∃ s', add_new_gateway g s = Ok tt s' ∧
      Gateways s' = <[id := g]> (Gateways s) ∧
      (∀ x m abi, last_prefix x (gateway_allowed_side_effects g) = Some m →
         StandardSFXABIs s !! x = Some abi →
         xdns_get_sfx_abi id x s' = Some (set_maybe_prefix_memo m abi)) ∧
      (∀ j x, j ≠ id → xdns_get_sfx_abi j x s' = xdns_get_sfx_abi j x s)
  else ∃ s', add_new_gateway g s = Err (xdns_err SideEffectABINotFound) s'.
Proof.
  intros id. unfold add_new_gateway. unfold gets, mbind, M_bind. fold id.
  destruct (is_some (Gateways s !! id)); [done|].
  destruct (all_standard _ s) eqn:Hall; [|by apply override_gateway_missing].
  rewrite override_gateway_run by done. eexists. split; [done|]. split; [done|].
  unfold xdns_get_sfx_abi, stored_gateway. cbn [SFXABIRegistry xdns_event set_xd_events
    set_AllGatewayIds set_Gateways set_SFXABIRegistry]. split.
  - intros x m abi Hm Habi. by apply populated_given.
  - intros j x Hj. by apply populated_other.
Qed.

(** Whom a reboot makes the owner of the chain's own gateway. *)
Definition reboot_admin (o : RawOrigin) : option AccountId :=
  match o with
  | Root => Some (xdns_treasury TreasuryEscrow)
  | Signed who => Some who
  | NoneOrigin => None
  end.

(** [reboot_self_gateway], documented as root only, succeeds for every signed
    origin, and makes the caller the registrant and the escrow account of the
    chain's own gateway.  The standard interfaces of all gateways are brought up
    to date and keep their prefixes.  On the chain's own gateway the transfer of
    balances gets the prefix of the assets pallet, which overwrites that of the
    balances pallet, and the transfer of assets gets no interface. *)
Theorem reboot_self_gateway_spec o vendor s :
  match reboot_admin o with
  | None => reboot_self_gateway o vendor s = Err BadOrigin s
  | Some admin =>
      ∃ s' g, reboot_self_gateway o vendor s = Ok tt s' ∧
        Gateways s' = <[SelfGatewayId := g]> (Gateways s) ∧
        registrant g = Some admin ∧ escrow_account g = Some admin ∧
        last_prefix (bytes_of "tran") (take 1 (gateway_allowed_side_effects g)) = Some (Some BALANCES_INDEX) ∧
        xdns_get_sfx_abi SelfGatewayId (bytes_of "tran") s' =
          Some (set_maybe_prefix_memo (Some ASSETS_INDEX) get_sfx_transfer_abi) ∧
        (∀ x, x = bytes_of "tass" ∨ x = bytes_of "tddd" →
           xdns_get_sfx_abi SelfGatewayId x s = None → xdns_get_sfx_abi SelfGatewayId x s' = None) ∧
        (∀ j x std abi, j ≠ SelfGatewayId → standard_of x standard_sfx_abi = Some std →
           xdns_get_sfx_abi j x s = Some abi → xdns_get_sfx_abi j x s' = Some (refreshed std abi))
  end.
Proof.
  destruct (reboot_admin o) as [admin|] eqn:Ho; [|by destruct o].
  set (s1 := refresh_standards s).
  set (g := {| gateway_id := SelfGatewayId; verification_vendor := vendor;
       execution_vendor := SubstrateVendor; gateway_codec := Scale;
       registrant := Some admin; escrow_account := Some admin;
       gateway_allowed_side_effects := self_allowed_side_effects s1 |}).
  assert (all_standard (gateway_allowed_side_effects g) s1 = true) as Hall by (vm_compute; reflexivity).
  exists (fold_left refresh_linked standard_sfx_abi (stored_gateway g s1)), g.
  split.
  { unfold reboot_self_gateway. rewrite transactional_Ok. unfold do_reboot_self_gateway.
    transitivity ((override_gateway g ;; modify (λ s, fold_left refresh_linked standard_sfx_abi s)) s1).
    - subst g. destruct o; [injection Ho as <-..|discriminate Ho]; reflexivity.
    - exact (bind_Ok (override_gateway g) _ s1 _ _ (override_gateway_run g s1 Hall)). }
  destruct (refresh_all_frame standard_sfx_abi (stored_gateway g s1)) as [r Hr].
  split; [by rewrite Hr|]. split; [done|]. split; [done|].
  split; [unfold g, s1; cbn [gateway_allowed_side_effects]; by rewrite self_allowed_all|].
  assert (∀ j x, SFXABIRegistry (stored_gateway g s1) !! (j, x) =
    populated SelfGatewayId (StandardSFXABIs s1) (self_allowed_side_effects s1) (SFXABIRegistry s) !! (j, x))
    as Hst by done.
  unfold xdns_get_sfx_abi. split; [|split].
  - rewrite refresh_all_lookup, Hst, (populated_given _ _ _ _ _ (Some ASSETS_INDEX) get_sfx_transfer_abi).
    + vm_compute. reflexivity.
    + unfold s1. by rewrite self_allowed_all.
    + vm_compute. reflexivity.
  - intros x Hx Hnone. rewrite refresh_all_lookup, Hst, populated_absent.
    + rewrite Hnone. by destruct (standard_of _ _).
    + unfold s1. rewrite self_allowed_all. by destruct Hx as [-> | ->].
  - intros j x std abi Hj Hstd Habi. rewrite refresh_all_lookup. cbn [snd].
    rewrite Hstd, Hst, populated_other by done. by rewrite Habi.
Qed.

(** C30: A topology without assets is restored.  The gateways of any consistent
    registry, zipped and unzipped by root on another chain that knows the
    standard interfaces, are there afterwards exactly as they were, in addition
    to the gateways the chain had under other identifiers. *)
Theorem topology_gateways_restored s t :
  xdns_reach s → AllTokenIds s = [] →
  Forall (λ g, all_standard (gateway_allowed_side_effects g) t = true) (fetch_gateways s) →
  ∃ t', unzip_topology Root (Some (do_zip_topology s)) None t = Ok tt t' ∧
    Gateways t' = Gateways s ∪ Gateways t ∧
    (∀ g, g ∈ fetch_gateways s → get_verification_vendor (gateway_id g) t' = ROk (verification_vendor g)).
Proof.
  intros Hr Hnil Hall. apply xdns_reach_inv in Hr as Hs.
  exists (store_all (fetch_gateways s) t). split; [|split].
  - unfold unzip_topology. rewrite transactional_Ok. unfold ensure_root, mret, M_ret.
    erewrite bind_Ok by reflexivity. erewrite bind_Ok by reflexivity.
    unfold do_unzip_topology, do_zip_topology. cbn [topology_gateways topology_assets].
    rewrite Hnil. erewrite bind_Ok; [reflexivity|]. rewrite <- fetch_full_records. apply store_all_run.
    apply Forall_forall. intros f Hf. refine (proj1 (Forall_forall _ _) Hall _ _).
    rewrite <- fetch_full_records. apply list_elem_of_In, in_map, list_elem_of_In, Hf.
  - by apply store_all_union.
  - intros g Hg. unfold get_verification_vendor, lookup_gateway. rewrite store_all_union by done.
    apply fetch_gateways_elem in Hg as [id Hg].
    rewrite (gateways_keyed _ Hs _ _ Hg), lookup_union, Hg, union_Some_l. done.
Qed.

(** A topology with a registered token is never restored.  Registering a token
    lists it twice, so that its record is twice in the topology, and no chain
    whatsoever can unzip it: the second record is refused. *)
Theorem registered_token_blocks_unzip o token props s s' :
  register_new_token o token props s = Ok tt s' →
  ∀ o' t t', do_unzip_topology o' (do_zip_topology s') t ≠ Ok tt t'.
Proof.
  intros Hreg o' t t' Hu. apply register_Ok in Hreg as (e & -> & Hnew).
  unfold do_unzip_topology in Hu. apply bind_Ok_inv in Hu as ([] & t1 & _ & Hu).
  revert Hu. unfold do_zip_topology. cbn [topology_assets].
  match goal with |- context [omap ?f ?l] => set (lookup_self := f); set (ids := l) end.
  assert (ids = AllTokenIds s ++ [token] ++ [token]) as ->.
  { unfold ids. cbn. unfold push_if_absent. by rewrite bool_decide_eq_false_2, <- app_assoc by done. }
  assert (lookup_self token = Some (mkTokenRecord token SelfGatewayId props)) as Hl.
  { unfold lookup_self. cbn -[lookup]. apply lookup_insert_eq. }
  rewrite !omap_app. simpl. rewrite Hl.
  apply (unzip_twice o' (mkTokenRecord token SelfGatewayId props) _ [] []). done.
Qed.
End Properties.
