(* ===== verification/XdnsActivity.v ===== *)
(** * Activity of the verifiers and timeouts

    [pallets/xdns/src/lib.rs]: the reports of the light clients, the epochs
    estimated from them, the timeouts of transactions that follow, the check of
    an active gateway, and the authorization to mint bridged assets. *)

From S2P Require Import Prelude Types AccountManager World Circuit StandardAbi Vacuum Batches.
From S2P Require Import Attesters Xdns XdnsCalls XdnsSystem.

(** ** Reports *)

Lemma increase_two a b :
  fva_reported_at a ≤ fva_reported_at b →
  determine_finalized_reports_increase [a; b] =
  if (fva_finalized_height a =? 0) || (fva_reported_at a =? 0)
     || (fva_finalized_height b =? 0) || (fva_reported_at b =? 0)
  then None
  else Some (saturating_sub (fva_finalized_height b) (fva_finalized_height a),
             saturating_sub (fva_reported_at b) (fva_reported_at a)).
Proof.
  intros Hab. unfold determine_finalized_reports_increase, sort_reports. cbn -[Z.leb Z.eqb saturating_sub].
  by rewrite (proj2 (Z.leb_le _ _) Hab).
Qed.

Lemma increase_three a b c :
  fva_reported_at a ≤ fva_reported_at b → fva_reported_at b ≤ fva_reported_at c →
  determine_finalized_reports_increase [a; b; c] = determine_finalized_reports_increase [a; c].
Proof.
  intros Hab Hbc. rewrite increase_two by lia.
  unfold determine_finalized_reports_increase, sort_reports. cbn -[Z.leb Z.eqb saturating_sub].
  rewrite (proj2 (Z.leb_le _ _) Hbc). cbn -[Z.leb Z.eqb saturating_sub].
  by rewrite (proj2 (Z.leb_le _ _) Hab).
Qed.

(** The finalized height has grown since a report. *)
Definition grown_since (n finalized : Z) (r : FinalityVerifierActivity) : bool :=
  negb (n =? 0) && negb (fva_reported_at r =? 0) && negb (fva_finalized_height r =? 0)
  && (fva_finalized_height r <? finalized).

(** The last two reports, not after [n]. *)
Definition reports_ordered (n : BlockNumber) (history : list FinalityVerifierActivity) : Prop :=
  match reverse history with
  | a :: b :: _ => fva_reported_at b ≤ fva_reported_at a ≤ n
  | [a] => fva_reported_at a ≤ n
  | [] => True
  end.

Definition moving (n finalized : Z) (history : list FinalityVerifierActivity) : bool :=
  existsb (grown_since n finalized) (take 2 (reverse history)).

Lemma increase_new n finalized r :
  0 ≤ fva_finalized_height r → fva_reported_at r ≤ n →
  match determine_finalized_reports_increase [r; new_for_finalized_compare n finalized] with
  | Some (target, _) => 0 <? target
  | None => false
  end = grown_since n finalized r.
Proof.
  intros H0 Hn. rewrite increase_two by done. cbn [fva_finalized_height fva_reported_at new_for_finalized_compare].
  unfold grown_since, saturating_sub.
  destruct (Z.eqb_spec (fva_finalized_height r) 0) as [Hf|Hf]; cbn [orb negb andb];
    [by rewrite !andb_false_r|].
  destruct (Z.eqb_spec (fva_reported_at r) 0); cbn [orb negb andb]; [by rewrite andb_false_r|].
  destruct (Z.eqb_spec finalized 0) as [Hz|Hz]; cbn [orb negb andb].
  { rewrite !andb_true_r. replace (fva_finalized_height r <? finalized) with false by (symmetry; lia).
    by rewrite andb_false_r. }
  destruct (Z.eqb_spec n 0); cbn [orb negb andb]; [done|].
  destruct (Z.ltb_spec (fva_finalized_height r) finalized); lia.
Qed.

Lemma pos_if x : (0 <? (if 0 <? x then x else 0)) = (0 <? x).
Proof. destruct (0 <? x) eqn:Hx; [exact Hx|done]. Qed.

(** ** What the calls back leave alone *)

Section Activity.
Context {E : Type} `{!XdnsConfig E} `{!CircuitReads E}.
Implicit Types s : XdnsState E.

Definition verifiers s := (VerifierOverviewStoreHistory s, VerifierOverviewStore s, EpochHistory s).

Lemma process_overview_verifiers n s : verifiers (process_overview n s) = verifiers s.
Proof.
  unfold process_overview.
  assert (verifiers (fold_left (record_gateway_activity n) (fetch_full_gateway_records s) (s, [])).1
    = verifiers s) as Hf.
  { apply (fold_left_inv (λ acc : XdnsState E * list GatewayActivity, verifiers acc.1 = verifiers s)); [done|].
    by intros [s1 l] g _ Hs1. }
  by destruct (fold_left _ _ _).
Qed.

Lemma reads_only_verifiers s s' : reads_only s s' → verifiers s' = verifiers s.
Proof.
  induction 1 as [s|e s s' _ IH|s s' _ IH]; [done|by rewrite IH|]. rewrite IH.
  unfold read_last_activity_overview. destruct (negb _); [|done]. apply process_overview_verifiers.
Qed.

Lemma replace_overview_elem v r l : r ∈ replace_overview v r l.
Proof.
  induction l as [|o l IH]; simpl; [by left|]. case_bool_decide; [by left|by right].
Qed.

(** The report that is stored. *)
Definition new_report (n : BlockNumber) (v : GatewayVendor) (epoch : BlockNumber)
    (h : LightClientHeartbeat) (history : list FinalityVerifierActivity) : FinalityVerifierActivity :=
  let last_record := default default_activity (last history) in
  if is_halted h then
    mkVerifierActivity (fva_verifier last_record) n (fva_justified_height last_record)
      (fva_finalized_height last_record) (fva_updated_height last_record) (fva_epoch last_record) false
  else
    mkVerifierActivity v n (last_rational_height h) (last_finalized_height h) (last_fast_height h) epoch
      (moving n (last_finalized_height h) history).

Lemma moving_two n finalized history :
  reports_ordered n history → Forall (λ r, 0 ≤ fva_finalized_height r) history →
  (0 <? (report_increase history (new_for_finalized_compare n finalized)).2)
  || moves_over_three history (default default_activity (last history))
       (new_for_finalized_compare n finalized) = moving n finalized history.
Proof.
  unfold reports_ordered, report_increase, moves_over_three, moving. intros Ho Hf.
  assert (last history = head (reverse history)) as -> by by rewrite head_reverse.
  assert (Forall (λ r, 0 ≤ fva_finalized_height r) (reverse history)) as Hr by by apply Forall_reverse.
  destruct (reverse history) as [|a [|b l]]; cbn [head lookup list_lookup default take existsb];
    [done| |].
  - apply Forall_cons in Hr as [Ha _]. rewrite orb_false_r, <- (increase_new n finalized a) by lia.
    rewrite orb_false_r.
    destruct (determine_finalized_reports_increase _) as [[x y]|]; [|done]. cbn [snd].
    apply pos_if.
  - apply Forall_cons in Hr as [Ha Hr]. apply Forall_cons in Hr as [Hb _].
    rewrite increase_three by (simpl; lia).
    change (take 0 l) with (@nil FinalityVerifierActivity). cbn [existsb].
    rewrite orb_false_r, <- (increase_new n finalized a), <- (increase_new n finalized b) by lia.
    f_equal. destruct (determine_finalized_reports_increase [a; _]) as [[x y]|]; [|done]. cbn [snd].
    apply pos_if.
Qed.

Lemma process_single_report n v epoch h s :
  reports_ordered n (verifier_history v s) →
  Forall (λ r, 0 ≤ fva_finalized_height r) (verifier_history v s) →
  let s' := (process_single_verifier_overview n v epoch h s).1 in
  let report := new_report n v epoch h (verifier_history v s) in
  VerifierOverviewStoreHistory s' =
    <[v := push_bounded report (verifier_history v s)]> (VerifierOverviewStoreHistory s) ∧
  VerifierOverviewStore s' = replace_overview v report (VerifierOverviewStore s) ∧
  (∀ w, w ≠ v → EpochHistory s' !! w = EpochHistory s !! w).
Proof.
  intros Ho Hf. cbv zeta. unfold process_single_verifier_overview.
  pose proof (moving_two n (last_finalized_height h) _ Ho Hf) as Hm.
  destruct (report_increase _ _) as [local target]. cbv zeta. cbn [snd] in Hm. rewrite Hm.
  match goal with |- context [update_historic_overview v ?a ?s0] =>
    set (s1 := s0); assert (a = new_report n v epoch h (verifier_history v s)) as ->
      by (unfold new_report; by destruct (is_halted h)) end.
  set (report := new_report _ _ _ _ _). set (s2 := update_overview_store _ _ _).
  assert (∀ s3, verifiers s3 = verifiers s2 →
    VerifierOverviewStoreHistory s3 =
      <[v := push_bounded report (verifier_history v s)]> (VerifierOverviewStoreHistory s) ∧
    VerifierOverviewStore s3 = replace_overview v report (VerifierOverviewStore s) ∧
    (∀ w, w ≠ v → EpochHistory s3 !! w = EpochHistory s !! w)) as Hend.
  { unfold verifiers. intros s3 Heq. injection Heq as -> -> ->. unfold s2, s1. destruct (0 <? target);
      (split; [done|]; split; [done|]; intros w Hw); [|done]. cbn -[lookup]. by rewrite lookup_insert_ne. }
  assert (∀ s3 w, verifiers s3 = verifiers s2 →
    verifiers (let '(s', w') := dlq_adaptive_timeouts n v s3 in (s', add_weight w w')).1 = verifiers s2) as Hlast.
  { intros s3 w Hs3. pose proof (reads_only_verifiers _ _ (dlq_adaptive_reads n v s3)) as Hr.
    destruct (dlq_adaptive_timeouts n v s3). simpl in *. congruence. }
  apply Hend. destruct (negb _ && _); [|by apply Hlast].
  pose proof (reads_only_verifiers _ _ (dlq_process_reads n s2)) as Hr.
  destruct (dlq_process n s2) as [s3 w3]. by apply Hlast.
Qed.
End Activity.

(** ** The check of all verifiers *)

Section Manual.
Context {E : Type} `{!XdnsConfig E} `{!CircuitReads E}.
Implicit Types s : XdnsState E.

Definition history_ok (n : BlockNumber) (history : list FinalityVerifierActivity) : Prop :=
  reports_ordered n history ∧ Forall (λ r, 0 ≤ fva_finalized_height r) history.

(** The verifier is silent for longer than its last epoch. *)
Definition overdue (n : BlockNumber) (overview : list FinalityVerifierActivity) (v : GatewayVendor) s
    : bool :=
  wrap32 (fva_reported_at
      (default default_activity (find (λ x, bool_decide (fva_verifier x = v)) overview))
    + default 50 (epoch_local <$> (EpochHistory s !! v ≫= last))) <? n.

Definition same_verifier (v : GatewayVendor) s s' : Prop :=
  verifier_history v s' = verifier_history v s ∧ EpochHistory s' !! v = EpochHistory s !! v.

Lemma same_verifier_overdue n l v s s' : same_verifier v s s' → overdue n l v s' = overdue n l v s.
Proof. intros [_ He]. unfold overdue. by rewrite He. Qed.

Lemma check_manual_step n l v acc :
  history_ok n (verifier_history v acc.1) →
  let acc' := check_manual n l acc v in
  (∀ w, w ≠ v → same_verifier w acc.1 acc'.1) ∧
  if overdue n l v acc.1
  then ∃ epoch h, verifier_history v acc'.1 =
         push_bounded (new_report n v epoch h (verifier_history v acc.1)) (verifier_history v acc.1)
  else acc' = acc.
Proof.
  destruct acc as [s wt]. cbn [fst]. intros [Ho Hf]. cbv zeta. unfold check_manual.
  fold (overdue n l v s). destruct (overdue n l v s); [|by split].
  match goal with |- context [process_single_verifier_overview n v ?e ?h s] =>
    destruct (process_single_report n v e h s Ho Hf) as (Hh & _ & He);
    destruct (process_single_verifier_overview n v e h s) as [s' w']; cbn [fst] in *;
    split; [|exists e, h] end.
  - intros w Hw. split; [|by apply He]. unfold verifier_history. rewrite Hh.
    by rewrite lookup_insert_ne.
  - unfold verifier_history at 1. rewrite Hh. by rewrite lookup_insert_eq.
Qed.

Lemma check_manual_fold n l vs acc v :
  NoDup vs → (∀ w, w ∈ vs → history_ok n (verifier_history w acc.1)) →
  let acc' := fold_left (check_manual n l) vs acc in
  if bool_decide (v ∈ vs) && overdue n l v acc.1
  then ∃ epoch h, verifier_history v acc'.1 =
         push_bounded (new_report n v epoch h (verifier_history v acc.1)) (verifier_history v acc.1)
  else verifier_history v acc'.1 = verifier_history v acc.1.
Proof.
  cbv zeta. intros Hnd. revert acc. induction Hnd as [|w vs Hw _ IH]; intros acc Hok; cbn [fold_left].
  { done. }
  destruct (check_manual_step n l w acc) as [Hother Hself]; [apply Hok; by left|].
  assert (∀ x, x ∈ vs → history_ok n (verifier_history x (check_manual n l acc w).1)) as Hok'.
  { intros x Hx. destruct (Hother x) as [-> _]; [by intros ->|]. apply Hok. by right. }
  specialize (IH _ Hok'). destruct (decide (v = w)) as [->|Hne].
  - rewrite (bool_decide_eq_false_2 (w ∈ vs)) in IH by done. cbn [andb] in IH. rewrite IH.
    rewrite (bool_decide_eq_true_2 (w ∈ w :: vs)) by by left. cbn [andb].
    destruct (overdue n l w acc.1); [exact Hself|by rewrite Hself].
  - destruct (Hother v Hne) as [Hh He]. rewrite Hh in IH.
    rewrite (same_verifier_overdue n l v acc.1) in IH by by split.
    rewrite (bool_decide_ext (v ∈ w :: vs) (v ∈ vs)); [exact IH|].
    rewrite elem_of_cons. tauto.
Qed.

Lemma all_vendors_NoDup : NoDup all_vendors.
Proof. apply (bool_decide_unpack _). vm_compute. exact I. Qed.

Lemma all_vendors_elem v : v ∈ all_vendors.
Proof. apply list_elem_of_In. destruct v; simpl; tauto. Qed.
End Manual.

(** ** Maxima *)

Section Max.
Context {T : Type} (key : T → Z).

Lemma max_by_key_acc (l : list T) best x :
  fold_left (λ best x,
    match best with
    | Some b => if key b <=? key x then Some x else Some b
    | None => Some x
    end) l best = Some x →
  (x ∈ l ∨ best = Some x) ∧ (∀ y, y ∈ l → key y ≤ key x) ∧ (∀ b, best = Some b → key b ≤ key x).
Proof.
  revert best. induction l as [|a l IH]; intros best Hf; cbn [fold_left] in Hf.
  { split; [by right|]. split; [intros y Hy; by inversion Hy|]. intros b ->. by simplify_eq. }
  apply IH in Hf as (Hx & Hl & Hb).
  assert (key a ≤ key x) as Ha.
  { destruct best as [b|]; [|by apply Hb]. destruct (Z.leb_spec (key b) (key a)); [by apply Hb|].
    specialize (Hb b eq_refl). lia. }
  split; [|split].
  - destruct Hx as [Hx|Hx]; [left; by right|]. destruct best as [b|]; [|left; simplify_eq; by left].
    destruct (key b <=? key a); simplify_eq; [left; by left|by right].
  - intros y [->|Hy]%elem_of_cons; [done|by apply Hl].
  - intros b ->. destruct (Z.leb_spec (key b) (key a)); [lia|by apply Hb].
Qed.

Lemma max_by_key_Some (l : list T) x :
  max_by_key key l = Some x → x ∈ l ∧ ∀ y, y ∈ l → key y ≤ key x.
Proof. intros Hm. apply max_by_key_acc in Hm as ([Hx|?] & Hl & _); [by split|done]. Qed.
End Max.

(** ** Timeouts *)

Section Timeouts.
Context {E : Type} `{!XdnsConfig E}.
Implicit Types s : XdnsState E.

Lemma distinct_verifiers_elem targets s v t :
  (v, t) ∈ distinct_verifiers targets s ↔ t ∈ targets ∧ get_verification_vendor t s = ROk v.
Proof.
  unfold distinct_verifiers. rewrite merge_sort_Permutation, elem_of_remove_dups, list_elem_of_omap. split.
  - intros (x & Hx & Ho). destruct (get_verification_vendor x s) eqn:Hv; by simplify_eq.
  - intros [Ht Hv]. exists t. by rewrite Hv.
Qed.

Definition local_offset (v : GatewayVendor) (mode : SpeedMode) (emergency : BlockNumber) s : BlockNumber :=
  (calculate_offsets v mode emergency (EpochHistory s !! v)).1.
Definition remote_offset (v : GatewayVendor) (mode : SpeedMode) (emergency : BlockNumber) s : BlockNumber :=
  (calculate_offsets v mode emergency (EpochHistory s !! v)).2.

Lemma slowest_spec targets mode emergency s v t lo ro :
  get_slowest_verifier_target targets mode emergency s = Some (v, t, lo, ro) →
  t ∈ targets ∧ get_verification_vendor t s = ROk v ∧
  lo = local_offset v mode emergency s ∧ ro = remote_offset v mode emergency s ∧
  (∀ v' t', t' ∈ targets → get_verification_vendor t' s = ROk v' → local_offset v' mode emergency s ≤ lo).
Proof.
  unfold get_slowest_verifier_target. intros Hm. apply max_by_key_Some in Hm as [Hin Hmax].
  apply list_elem_of_In, in_map_iff in Hin as ([v0 t0] & Heq & Hin). cbn [fst snd] in Heq.
  destruct (calculate_offsets v0 mode emergency (EpochHistory s !! v0)) as [a b] eqn:Hc.
  injection Heq as -> -> -> ->. apply list_elem_of_In, distinct_verifiers_elem in Hin as [Ht Hv].
  unfold local_offset, remote_offset. rewrite Hc. do 4 (split; [done|]).
  intros v' t' Ht' Hv'. specialize (Hmax
    (v', t', local_offset v' mode emergency s, remote_offset v' mode emergency s)).
  apply Hmax. apply list_elem_of_In, in_map_iff. exists (v', t'). split.
  - unfold local_offset, remote_offset. cbn [fst snd].
    by destruct (calculate_offsets v' mode emergency (EpochHistory s !! v')).
  - apply list_elem_of_In. by apply distinct_verifiers_elem.
Qed.

Lemma offsets_nonneg v mode emergency h :
  0 ≤ emergency → (∀ l, h = Some l → Forall (λ e, 0 ≤ moving_average_local e ∧ 0 ≤ moving_average_remote e) l) →
  0 ≤ (calculate_offsets v mode emergency h).1 ∧ 0 ≤ (calculate_offsets v mode emergency h).2.
Proof.
  intros He Hh. unfold calculate_offsets.
  assert (0 ≤ eta_per_speed_mode_in_epochs v mode) as Heta by (destruct v, mode; simpl; lia).
  destruct (h ≫= last) as [r|] eqn:Hl.
  - apply bind_Some in Hl as (l & -> & Hl). specialize (Hh l eq_refl).
    apply last_Some_elem_of in Hl. rewrite Forall_forall in Hh. destruct (Hh r Hl).
    destruct (_ || _); cbn [fst snd]; [done|]. unfold saturating_mul32, u32_max. nia.
  - destruct (_ || _); cbn [fst snd]; lia.
Qed.

Lemma add32_bounds a b : 0 ≤ a ≤ u32_max → 0 ≤ b → a ≤ add32 a b ≤ u32_max.
Proof. unfold add32, saturating_add. lia. Qed.
End Timeouts.

(** ** Minting *)

Section Minting.
Context {E : Type} `{!XdnsConfig E}.
Implicit Types s : XdnsState E.

Lemma mintable_iff id asset s :
  xdns_inv s →
  xdns_check_asset_is_mintable id asset s = true ↔
  (asset, id) ∈ AuthorizedMintAssets s ∧ is_Some (Tokens s !! (asset, id)).
Proof.
  intros Hs. unfold xdns_check_asset_is_mintable, xdns_list_available_mint_assets. rewrite existsb_exists.
  split.
  - intros (r & Hin & Hr). apply Z.eqb_eq in Hr.
    apply list_elem_of_In, list_elem_of_omap in Hin as ([a t] & Hin & Ho). cbn [fst snd] in Ho.
    apply bind_Some in Ho as (r' & Hr' & Ho). case_bool_decide; simplify_eq.
    destruct (tokens_keyed _ Hs _ _ _ Hr') as [-> _]. split; [done|by eexists].
  - intros [Hin [r Hr]]. exists r. split.
    + apply list_elem_of_In, list_elem_of_omap. exists (asset, id). split; [done|]. cbn [fst snd].
      rewrite Hr. cbn [mbind option_bind]. by rewrite bool_decide_eq_true_2.
    + apply Z.eqb_eq. by destruct (tokens_keyed _ Hs _ _ _ Hr).
Qed.

Lemma not_mintable id asset s :
  (asset, id) ∉ AuthorizedMintAssets s → xdns_inv s → xdns_check_asset_is_mintable id asset s = false.
Proof. intros Hn Hs. apply not_true_is_false. rewrite mintable_iff by done. tauto. Qed.

End Minting.

(** ** Properties *)

Section Properties.
Context {E : Type} `{!XdnsConfig E} `{!CircuitReads E}.
Implicit Types s : XdnsState E.

(** A report of a light client.  The report is appended to the history of the
    verifier and replaces its entry in the overview.  When the client is not
    halted, it has the heights of the heartbeat, and the verifier counts as
    active exactly when the finalized height has grown since one of the last two
    reports; when it is halted, the heights of the last report are repeated and
    the verifier is inactive.  No other verifier's epochs change. *)
Theorem verifier_report_spec n v epoch h s :
  reports_ordered n (verifier_history v s) →
  Forall (λ r, 0 ≤ fva_finalized_height r) (verifier_history v s) →
  let s' := (process_single_verifier_overview n v epoch h s).1 in
  ∃ r, last (verifier_history v s') = Some r ∧ r ∈ VerifierOverviewStore s' ∧
    fva_reported_at r = n ∧
    (is_halted h = false → fva_finalized_height r = last_finalized_height h ∧
       (fva_is_active r = true ↔ ∃ p, p ∈ take 2 (reverse (verifier_history v s)) ∧
          grown_since n (last_finalized_height h) p = true)) ∧
    (is_halted h = true → fva_is_active r = false) ∧
    (∀ w, w ≠ v → EpochHistory s' !! w = EpochHistory s !! w).
Proof.
  intros Ho Hf. destruct (process_single_report n v epoch h s Ho Hf) as (Hh & Hov & He).
  cbv zeta. exists (new_report n v epoch h (verifier_history v s)). split; [|split; [|split; [|split; [|split]]]].
  - unfold verifier_history at 1. rewrite Hh, lookup_insert_eq. apply last_push_bounded.
  - rewrite Hov. apply replace_overview_elem.
  - unfold new_report. by destruct (is_halted h).
  - intros Hhalt. unfold new_report. rewrite Hhalt. cbn [fva_finalized_height fva_is_active].
    split; [done|]. unfold moving. rewrite existsb_exists.
    split; intros (p & Hp & Hg); exists p; (split; [by apply list_elem_of_In|done]).
  - intros Hhalt. unfold new_report. by rewrite Hhalt.
  - exact He.
Qed.


(** The estimate of an epoch.  At most ten earlier estimates are kept and the
    new one is appended, so that eleven are stored.  Its averages are those of
    the earlier ones alone: zero when there are none, and otherwise between any
    bounds on their lengths. *)
Theorem epoch_average_bounds v remote local s :
  let old := default [] (EpochHistory s !! v) in
  let kept := drop (length old - 10) old in
  ∃ e, EpochHistory (update_epoch_history v remote local s) !! v = Some (kept ++ [e]) ∧
    epoch_local e = local ∧ epoch_remote e = remote ∧ (length kept ≤ 10)%nat ∧
    (kept = [] → moving_average_local e = 0 ∧ moving_average_remote e = 0) ∧
    (∀ lo hi, kept ≠ [] → 0 ≤ lo → 10 * hi ≤ u32_max →
       Forall (λ x, lo ≤ epoch_local x ≤ hi ∧ lo ≤ epoch_remote x ≤ hi) kept →
       lo ≤ moving_average_local e ≤ hi ∧ lo ≤ moving_average_remote e ≤ hi).
Proof.
  cbv zeta. set (old := default [] (EpochHistory s !! v)). set (kept := drop _ _).
  assert (length kept ≤ 10)%nat as Hlen by (unfold kept; rewrite length_drop; lia).
  eexists. split; [cbn -[lookup]; apply lookup_insert_eq|]. cbn [epoch_local epoch_remote
    moving_average_local moving_average_remote]. fold old kept.
  split; [done|]. split; [done|]. split; [done|]. split; [by intros ->|].
  intros lo hi Hne Hlo Hhi Hall.
  assert (0 < Z.of_nat (length kept)) as Hpos by (destruct kept; [done|simpl; lia]).
  assert (∀ f : EpochEstimate → Z, Forall (λ x, lo ≤ f x ≤ hi) kept →
    lo ≤ wrap32 (foldr Z.add 0 (map f kept)) / Z.of_nat (length kept) ≤ hi) as Havg.
  { intros f Hf.
    assert (lo * Z.of_nat (length kept) ≤ foldr Z.add 0 (map f kept) ≤ hi * Z.of_nat (length kept)) as Hsum.
    { clear -Hf. induction Hf as [|x l Hx _ IH]; cbn [map foldr length]; lia. }
    unfold wrap32. rewrite Z.mod_small by (unfold u32_max in Hhi; nia).
    split; [apply Z.div_le_lower_bound|apply Z.div_le_upper_bound]; lia. }
  rewrite (proj2 (Z.eqb_neq _ _)) by lia.
  split; apply Havg; (eapply Forall_impl; [exact Hall|]); cbn; tauto.
Qed.

(** The timeout of a transaction follows its slowest target.  When the targets
    have a known verifier with a report, the timeout is for one of the targets,
    no other target needs more local blocks, and the heights are in order:
    submission is due after the current block, the estimate for the end after
    that, none beyond the largest block number, and the emergency timeout is the
    given offset from now.  Otherwise the timeout is [default_401], whose
    estimate is in the past of every block. *)
Theorem adaptive_timeout_of_slowest targets mode emergency s :
  is_u32 (xd_block s) → is_u32 emergency →
  (∀ v l, EpochHistory s !! v = Some l →
     Forall (λ e, 0 ≤ moving_average_local e ∧ 0 ≤ moving_average_remote e) l) →
  let t := xdns_estimate_adaptive_timeout targets mode emergency s in
  (t = default_401 ∧ ∀ n, 0 < n → estimated_height_here t < n) ∨
  ∃ v, there t ∈ targets ∧ get_verification_vendor (there t) s = ROk v ∧
    verifier_history v s ≠ [] ∧
    (∀ v' t', t' ∈ targets → get_verification_vendor t' s = ROk v' →
       local_offset v' mode emergency s ≤ local_offset v mode emergency s) ∧
    submit_by_height_here t = add32 (xd_block s) (local_offset v mode emergency s) ∧
    xd_block s ≤ submit_by_height_here t ≤ estimated_height_here t ∧
    estimated_height_here t ≤ u32_max ∧
    emergency_timeout_here t = add32 emergency (xd_block s).
Proof.
  intros Hb He Hep. cbv zeta. unfold xdns_estimate_adaptive_timeout.
  destruct (get_slowest_verifier_target _ _ _ _) as [[[[v tgt] lo] ro]|] eqn:Hs; [|left; by split].
  apply slowest_spec in Hs as (Ht & Hv & -> & -> & Hmax).
  destruct (last (verifier_history v s)) as [o|] eqn:Hl; [|left; by split].
  right. exists v. cbn [there submit_by_height_here estimated_height_here emergency_timeout_here].
  split; [done|]. split; [done|]. split; [by destruct (verifier_history v s)|]. split; [done|].
  split; [done|]. unfold is_u32 in *.
  assert (0 ≤ local_offset v mode emergency s) as Hlo.
  { unfold local_offset. apply offsets_nonneg; [lia|]. intros l Hl'. by eapply Hep. }
  destruct (add32_bounds (xd_block s) (local_offset v mode emergency s)) as [H1 H2]; [lia|done|].
  destruct (add32_bounds (add32 (xd_block s) (local_offset v mode emergency s))
    (local_offset v mode emergency s)) as [H3 H4]; [lia|done|]. lia.
Qed.

(** [verify_active] accepts a gateway exactly when its light client is neither
    halted nor uninitialized, its attestation target is activated when escrow is
    asked for, and its heartbeat is at least as old as the offset.  A heartbeat
    of the current block is therefore always refused when a positive offset is
    given, although the offset is the acceptable age. *)
Theorem verify_active_inverted id offset lvl s :
  (∀ h, verify_active id offset lvl s = ROk h ↔
     get_latest_heartbeat (xd_ext s) id = ROk h ∧ is_halted h = false ∧ ever_initialized h = true ∧
     offset ≤ saturating_sub (xd_block s) (last_heartbeat h) ∧
     (lvl = Escrow → id ∈ activated_targets (xd_ext s))) ∧
  (∀ h, get_latest_heartbeat (xd_ext s) id = ROk h → last_heartbeat h = xd_block s → 0 < offset →
     verify_active id offset lvl s = RErr (xdns_err XdnsGatewayNotActive)).
Proof.
  assert (∀ l, existsb (λ t, bool_decide (t = id)) l = bool_decide (id ∈ l)) as Hex.
  { intros l. apply eq_true_iff_eq. rewrite existsb_exists, bool_decide_eq_true. split.
    - intros (x & Hx & Hd). apply bool_decide_eq_true in Hd. subst. by apply list_elem_of_In.
    - intros Hin. exists id. split; [by apply list_elem_of_In|]. by apply bool_decide_eq_true. }
  unfold verify_active. rewrite Hex. split.
  - intros h. destruct (get_latest_heartbeat (xd_ext s) id) as [h'|e]; [|by split; [|intros []]].
    destruct (is_halted h') eqn:Hh; cbn [orb].
    { split; [done|]. intros (Heq & Hh' & _). injection Heq as <-. congruence. }
    destruct (ever_initialized h') eqn:Hi; cbn [negb orb].
    2:{ split; [done|]. intros (Heq & _ & Hi' & _). injection Heq as <-. congruence. }
    destruct (Z.ltb_spec (saturating_sub (xd_block s) (last_heartbeat h')) offset) as [Ho|Ho].
    { split; [done|]. intros (Heq & _ & _ & Hle & _). injection Heq as <-. lia. }
    case_bool_decide as Hl; case_bool_decide as Ha; cbn [negb andb];
      (split; [by intros Heq; simplify_eq|intros (Heq & _ & _ & _ & He); try done]);
      exfalso; tauto.
  - intros h -> Hlast Ho. rewrite Hlast. unfold saturating_sub.
    replace (Z.max 0 (xd_block s - xd_block s)) with 0 by lia.
    rewrite (proj2 (Z.ltb_lt _ _) Ho), !orb_true_r. done.
Qed.

(** Minting needs an authorization.  Minting an asset on the chain succeeds
    only when the asset is authorized and linked there, and otherwise traps.
    Enrolling an asset that can be minted already traps as well; an enrolment
    that succeeds makes the asset mintable on its target. *)
Theorem mint_needs_authorization asset target user amount info s :
  xdns_reach s →
  (¬ ((asset, SelfGatewayId) ∈ AuthorizedMintAssets s ∧ is_Some (Tokens s !! (asset, SelfGatewayId))) →
     mint asset user amount s = Panic ∧ burn asset user amount s = Panic) ∧
  ((asset, target) ∈ AuthorizedMintAssets s ∧ is_Some (Tokens s !! (asset, target)) →
     enroll_bridge_asset Root asset target info s = Panic) ∧
  (∀ s', enroll_bridge_asset Root asset target info s = Ok tt s' →
     (asset, target) ∈ AuthorizedMintAssets s' ∧ is_Some (Tokens s' !! (asset, target))).
Proof.
  intros Hr. apply xdns_reach_inv in Hr as Hs. split; [|split].
  - intros Hn. rewrite <- mintable_iff in Hn by done. apply not_true_is_false in Hn.
    unfold mint, burn. unfold mbind, M_bind, gets. by rewrite Hn.
  - intros Hm. apply (mintable_iff _ _ _ Hs) in Hm. unfold enroll_bridge_asset, transactional.
    unfold mbind, M_bind, gets, ensure_root, mret, M_ret. by rewrite Hm.
  - intros s' He. assert (xdns_inv s') as Hs'.
    { refine (kept_ok _ _ _ _ _ He). apply (dispatch_kept Root (EnrollBridgeAsset asset target info)), Hs. }
    apply mintable_iff; [done|]. unfold enroll_bridge_asset in He. rewrite transactional_Ok in He.
    do 7 (apply bind_Ok_inv in He as (? & ? & _ & He)).
    apply bind_Ok_inv in He as (? & s1 & _ & He).
    apply bind_Ok_inv in He as (m & s2 & Hm & He). unfold gets in Hm. simplify_eq.
    unfold xdns_assert in He. destruct (xdns_check_asset_is_mintable target asset s2) eqn:Hc; [|done].
    unfold mret, M_ret in He. by simplify_eq.
Qed.

(** Revoking one authorization revokes more.  After root removes the
    authorization of an asset for a target, no asset at all can be minted for
    that target, and the asset cannot be minted for any target. *)
Theorem purge_revokes_target asset target s s' :
  (asset, target) ∈ AuthorizedMintAssets s → xdns_reach s →
  purge_supported_bridging_asset Root asset target s = Ok tt s' →
  (∀ a, xdns_check_asset_is_mintable target a s' = false) ∧
  (∀ t, xdns_check_asset_is_mintable t asset s' = false).
Proof.
  intros Hin Hr Hp. apply xdns_reach_inv in Hr as Hs.
  assert (xdns_inv s') as Hs'.
  { refine (kept_ok _ _ _ _ _ Hp). apply (dispatch_kept Root (PurgeSupportedBridgingAsset asset target)), Hs. }
  unfold purge_supported_bridging_asset in Hp. rewrite transactional_Ok in Hp.
  unfold mbind, M_bind, gets, ensure_root, mret, M_ret in Hp.
  rewrite bool_decide_eq_true_2 in Hp by done. unfold modify in Hp. simplify_eq.
  split; intros x; (apply not_mintable; [|done]); cbn [AuthorizedMintAssets set_AuthorizedMintAssets];
    rewrite retain_elem; cbn [fst snd].
  - rewrite (bool_decide_eq_true_2 (target = target)) by done. rewrite andb_false_r. by intros [].
  - rewrite Z.eqb_refl. by intros [].
Qed.
End Properties.
