(* ===== verification/Samples.v ===== *)
(** * Runs of the Circuit

    A concrete configuration, the run of a local order from submission to
    commit and of a remote order, and the instances of the theorems on the
    states of these runs. *)

From S2P Require Import Prelude Types Status AccountManager Solvency World SquareUp Bids.
From S2P Require Import Validate Machine Circuit Orders Queues Calls Vacuum Invariant Safety.
From S2P Require Import Reach Lifecycle VacuumFacts.
Import SimpleLedger.

(** ** A configuration *)

Definition mix (l : list Z) : Hash := fold_left (λ acc b, (acc * 31 + b + 1) mod 65521) l 1.
#[export] Instance toy_hashing : Hashing := {| keccak256 := mix; system_hash := mix |}.

Definition alice : AccountId := 2 ^ 32 + 1.
Definition bob : AccountId := 2 ^ 32 + 2.
Definition treasury : AccountId := 2 ^ 32 + 3.

#[export] Instance toy_am_config : AMConfig :=
  {| escrow_account := treasury; sabi_convert_u64 := λ x, x |}.

Definition toy_transfer (from to amt : Z) (s : AMState ledger)
    : result DispatchError (AMState ledger) :=
  match sl_transfer from to amt (bank s) with
  | ROk b => ROk (set_bank b s)
  | RErr e => RErr e
  end.

(** The external state tells whether the gateways are active. *)
#[export] Instance toy_config : CircuitConfig (AMState ledger) bool := {|
  SFXAbi := unit;
  SelfAccountId := treasury;
  XtxTimeoutDefault := 400;
  SFXBiddingPeriod := 3;
  SignalQueueDepth := 5;
  db_reads := λ r, 25 * r;
  db_reads_writes := λ r wr, 25 * r + 100 * wr;
  circuit_minimum_balance := 1;
  circuit_transfer := toy_transfer;
  get_treasury_account := λ _, treasury;
  estimate_adaptive_timeout_on_slowest_target := λ _ block _ _ emergency,
    mkTimeout (block + 50) 50 (block + 40) 40 (block + emergency) [2; 2; 2; 2] None;
  get_gateway_max_security_lvl := λ _ target,
    if bool_decide (target = [1; 1; 1; 1]) then Escrow else Optimistic;
  get_sfx_abi := λ _ _ _, Some tt;
  read_last_activity := λ active _, Some active;
  get_target_codec := λ _ _, ROk Scale;
  validate_ordered_arguments := λ _ _ _, ROk tt;
  validate_arguments_against_received := λ _ _ _ _ _, ROk tt;
  get_finalized_height := λ _ _, ROk (Height 10);
  verify_event_inclusion := λ _ _ _ _ data, ROk (mkReceipt 20 [] data);
  estimate_finality_fee := λ _ _, 7;
  request_sfx_attestation_commit := λ _ _ _ x, (x, ROk tt);
  request_sfx_attestation_revert := λ _ _ x, (x, ROk tt);
  local_trigger_decode := λ _, None;
|}.

Abbreviation TW := (World (AMState ledger) bool).

Definition am0 : AMState ledger :=
  mkAM (mkLedger {[ alice := 1000; bob := 1000 ]} ∅) ∅ ∅ 0 (1, 0, 10) [].

Definition w0 : TW := mkWorld am0 true 1 ∅ ∅ ∅ ∅ ∅ ∅ ∅ ∅ ∅ ∅ [] [].

Definition state_of {T} (o : outcome TW DispatchError T) : TW :=
  match o with Ok _ w => w | Err _ w => w | Panic => w0 end.

(** ** A local order *)

Definition local_sfx : SideEffect :=
  mkSideEffect [2; 2; 2; 2] 100 10 act_tran [be_bytes 32 alice; le_bytes 16 5] [] None None.
Definition local_id : Hash := next_xtx_id w0 alice.
Definition local_sfx_id : Hash := generate_id (be_bytes 32 local_id) 0.

Definition submit : Call := COnExtrinsicTrigger [local_sfx] Finalized Optimistic.
Definition w_submitted : TW := state_of (dispatch (Signed alice) submit w0).
Definition w_bid : TW := state_of (dispatch (Signed bob) (CBidSfx local_sfx_id 60) w_submitted).
Definition w_ready : TW := state_of (run_hook (TickQueue 6 3 1000000) w_bid).
Definition local_confirmation : ConfirmedSideEffect := mkConfirmed None None [1] bob 5 None.
Definition w_finished : TW :=
  state_of (dispatch (Signed bob) (CConfirmSideEffect local_sfx_id local_confirmation) w_ready).
Definition w_committed : TW := state_of (run_hook (TickQueue 9 3 1000000) w_finished).

Example local_run :
  map (λ w, status_of w local_id) [w0; w_submitted; w_bid; w_ready; w_finished; w_committed] =
  [None; Some PendingBidding; Some InBidding; Some Ready; Some FinishedAllSteps; None].
Proof. vm_compute. reflexivity. Qed.

(** ** A remote order *)

Definition remote_sfx : SideEffect :=
  mkSideEffect [1; 1; 1; 1] 100 10 act_tran [be_bytes 32 alice; le_bytes 16 5] [] None None.
Definition remote_account : AccountId := 5.
Definition remote_id : Hash := next_xtx_id w0 remote_account.
Definition remote_sfx_id : Hash := generate_id (be_bytes 32 remote_id) 0.

Definition remote_submit : Call := COnRemoteOriginTrigger remote_account [remote_sfx] Finalized.
Definition r_submitted : TW := state_of (dispatch (Signed bob) remote_submit w0).
Definition r_bid : TW := state_of (dispatch (Signed bob) (CBidSfx remote_sfx_id 60) r_submitted).
Definition r_ready : TW := state_of (run_hook (TickQueue 6 3 1000000) r_bid).
Definition r_finished : TW := state_of (dispatch (Signed bob) (CEscrow remote_sfx_id) r_ready).
Definition r_committed : TW := state_of (run_hook (TickQueue 9 3 1000000) r_finished).
Definition r_again : TW := state_of (dispatch (Signed bob) remote_submit r_committed).
Definition r_again_bid : TW :=
  state_of (dispatch (Signed bob) (CBidSfx remote_sfx_id 60) r_again).

Example remote_run :
  map (λ w, status_of w remote_id)
    [w0; r_submitted; r_bid; r_ready; r_finished; r_committed; r_again; r_again_bid] =
  [None; Some PendingBidding; Some InBidding; Some Ready; Some FinishedAllSteps; None;
   Some PendingBidding; Some InBidding].
Proof. vm_compute. reflexivity. Qed.

(** The same remote order again, after it was committed: the hook that makes it
    ready runs into the finalized entry of the first one. *)
Definition r_again_ready : TW :=
  state_of (process_tick_one remote_id r_again_bid).

Example reused_remote_order_halts :
  run_hook (E:=DispatchError) (TickQueue 12 3 1000000) r_again_bid = Panic.
Proof. vm_compute. reflexivity. Qed.

(** ** Reachable states *)

Lemma reachable_w0 : reachable w0.
Proof. exists w0. split; [by repeat split|apply rtc_refl]. Qed.

Lemma reachable_step w w' : reachable w → circuit_step w w' → reachable w'.
Proof. intros (v & Hg & Hr) Hs. exists v. split; [done|]. by eapply rtc_r. Qed.

Lemma reachable_submitted : reachable w_submitted.
Proof.
  apply (reachable_step w0); [apply reachable_w0|].
  apply (step_call w0 (Signed alice) submit); [|vm_compute; reflexivity].
  intros who [= <-]. vm_compute. reflexivity.
Qed.

Lemma reachable_bid : reachable w_bid.
Proof.
  apply (reachable_step w_submitted); [apply reachable_submitted|].
  by apply (step_call w_submitted (Signed bob) (CBidSfx local_sfx_id 60)); [|vm_compute].
Qed.

Lemma reachable_ready : reachable w_ready.
Proof.
  apply (reachable_step w_bid); [apply reachable_bid|].
  apply (step_hook w_bid (TickQueue 6 3 1000000) 425). vm_compute. reflexivity.
Qed.

(** ** Instances of the theorems *)

Definition ctx_of (w : TW) (id : Hash) : LocalXtxCtx :=
  match load_xtx id w with
  | Ok c _ => c
  | _ => mkCtx ∅ 0 (XExecSignal_new 0 0 default_401 None Finalized (0, 0)) []
  end.

Definition request_ctx : LocalXtxCtx :=
  match setup [local_sfx] alice None Optimistic w0 with
  | Ok c _ => c
  | _ => ctx_of w0 0
  end.
Definition request_fsx : FullSideEffect := mkFSX local_sfx None Optimistic 10 None 0.
Definition am_requested : AMState ledger :=
  match try_request request_ctx am0 with Ok _ a => a | _ => am0 end.

Lemma request_locks_max_rewards_witness :
  ∃ c, charges am_requested !! local_sfx_id = Some c ∧ payee c = alice ∧ offered_reward c = 100.
Proof.
  destruct (request_locks_max_rewards request_ctx [request_fsx] am0 am_requested) as [Hl _];
    [vm_compute; reflexivity|vm_compute; apply NoDup_singleton|vm_compute; reflexivity|].
  destruct (Hl request_fsx) as (_ & c & Hc & Hp & _ & _ & Hr); [by apply list_elem_of_singleton|].
  exists c. split; [exact Hc|]. split; [exact Hp|]. rewrite Hr. vm_compute. reflexivity.
Defined.

Definition bid_ctx : LocalXtxCtx := ctx_of w_bid local_id.
Definition bid_step : list FullSideEffect := default [] (read_current_step_fsx bid_ctx).

Lemma bind_bidders_assigns_witness :
  ∃ b step' a', bind_bidders (E:=DispatchError) bid_ctx (w_am w_bid) =
      Ok (set_ctx_fsx [step'] bid_ctx, b) a' ∧ length step' = 1%nat.
Proof.
  destruct (bind_bidders_assigns (E:=DispatchError) bid_ctx bid_step (w_am w_bid))
    as (b & step' & a' & Hb & Hlen & _); [vm_compute; reflexivity|vm_compute; apply NoDup_singleton|].
  exists b, step', a'. split; [exact Hb|]. rewrite Hlen. vm_compute. reflexivity.
Defined.

Lemma kill_releases_deposits_witness :
  ∃ k a', square_up_kill (E:=DispatchError) bid_ctx (w_am w_bid) = Ok k a' ∧
    charges a' !! local_sfx_id = None.
Proof.
  destruct (kill_releases_deposits (E:=DispatchError) bid_ctx bid_step (w_am w_bid))
    as (k & a' & Hk & Hc); [vm_compute; reflexivity|].
  exists k, a'. split; [exact Hk|]. rewrite Hc. vm_compute. reflexivity.
Defined.

Definition ready_ctx : LocalXtxCtx := ctx_of w_ready local_id.
Definition ready_step : list FullSideEffect := default [] (read_current_step_fsx ready_ctx).

Lemma finalize_follows_plan_witness :
  (∃ f, square_up_finalize (E:=DispatchError) ready_ctx (w_am w_ready) =
        Ok f (run_plan (finalize_plan local_id ready_step) (w_am w_ready))) ∧
  requester_outcome ready_step ≠ Commit.
Proof.
  destruct (finalize_follows_plan (E:=DispatchError) ready_ctx ready_step (w_am w_ready))
    as [Hf Ho]; [vm_compute; reflexivity|]. split; [exact Hf|].
  destruct Ho as [Ho _]; [vm_compute; reflexivity|]. intros Hc. apply Ho in Hc. vm_compute in Hc. discriminate Hc.
Defined.

Definition submitted_step : list FullSideEffect :=
  default [] (read_current_step_fsx (ctx_of w_submitted local_id)).
Definition bid_result : outcome TW CircuitError (list FullSideEffect) :=
  try_bid submitted_step 60 bob alice local_sfx_id local_id w_submitted.

Lemma accepted_bid_improves_witness :
  1 ≤ 60 ≤ 100.
Proof.
  destruct bid_result as [step' w'| |] eqn:Hb; [|vm_compute in Hb; discriminate Hb..].
  unfold bid_result in Hb.
  pose proof (accepted_bid_improves submitted_step 60 bob alice local_sfx_id local_id
                w_submitted step' w' Hb) as (fsx & bid & Hf & _ & _ & _ & Hr & _).
  vm_compute in Hf. injection Hf as <-. exact Hr.
Defined.



Lemma hooks_never_trap_witness :
  ∃ weight w', run_hook (E:=DispatchError) (TickQueue 6 3 1000000) w_bid = Ok weight w'.
Proof. apply (hooks_never_trap w_bid), reachable_bid. Defined.


Lemma bidding_round_ends_witness :
  ∃ w', process_tick_one (E:=DispatchError) local_id w_bid = Ok (db_reads_writes 1 4) w' ∧
    status_of w' local_id = Some Ready.
Proof.
  pose proof (bidding_round_ends (E:=DispatchError) w_bid local_id bid_ctx bid_step) as Ht.
  destruct Ht as (w' & Hw' & Ht).
  - apply reachable_inv, reachable_bid.
  - exists 4. vm_compute. reflexivity.
  - vm_compute. reflexivity.
  - vm_compute. reflexivity.
  - exists w'. split; [exact Hw'|].
    assert (status_eqb (xtx_status (ctx_xtx bid_ctx)) InBidding && forallb has_bid bid_step = true)
      as Hc by (vm_compute; reflexivity).
    rewrite Hc in Ht. apply Ht.
Defined.

Lemma cancel_xtx_spec_witness :
  (∃ w', cancel_xtx (Signed alice) local_id w_submitted = Ok tt w') ∧
  ¬ (∃ w', cancel_xtx (Signed alice) local_id w_bid = Ok tt w').
Proof.
  split.
  - apply (cancel_xtx_spec w_submitted alice local_id (reachable_inv _ reachable_submitted)).
    exists (ctx_xtx (ctx_of w_submitted local_id)). split; [vm_compute; reflexivity|].
    split; [vm_compute; reflexivity|right; vm_compute; reflexivity].
  - intros Hc. apply (cancel_xtx_spec w_bid alice local_id (reachable_inv _ reachable_bid)) in Hc.
    destruct Hc as (x & Hx & _ & Hst). vm_compute in Hx. injection Hx as <-.
    destruct Hst as [Hst|Hst]; vm_compute in Hst; discriminate Hst.
Defined.

Lemma revert_settles_witness :
  ∃ w', revert (E:=DispatchError) local_id Timeout no_post_updates w_ready = Ok true w' ∧
    x_exec_signals w' !! local_id = None.
Proof.
  destruct (revert_settles (E:=DispatchError) w_ready local_id Timeout no_post_updates ready_ctx
              ready_step) as (w' & Hw' & Hx & _);
    [vm_compute; reflexivity|vm_compute; reflexivity|left; vm_compute; reflexivity
    |left; vm_compute; reflexivity|apply no_post_updates_quiet|].
  exists w'. split; [exact Hw'|exact Hx].
Defined.

Definition const_confirm : Precompile (AMState ledger) bool :=
  λ cur _ _ _ _, mret (TryConfirm local_sfx_id local_confirmation, cur).

Lemma last_confirmation_finishes_witness :
  ∃ ctx' w', compile ready_ctx const_confirm no_post_updates w_ready = Ok (ctx', true) w' ∧
    status_of w' local_id = Some FinishedAllSteps.
Proof.
  destruct (last_confirmation_finishes w_ready ready_ctx ready_step ready_step local_sfx_id
              local_confirmation const_confirm no_post_updates)
    as (ctx' & w' & Hc & Hst & _);
    [vm_compute; reflexivity|left; vm_compute; reflexivity|reflexivity|vm_compute; reflexivity
    |vm_compute; reflexivity|apply no_post_updates_quiet|].
  exists ctx', w'. split; [exact Hc|exact Hst].
Defined.

Lemma submission_stored_witness : submitted w0 alice [local_sfx] w_submitted.
Proof.
  apply (submission_stored w0 alice [local_sfx] Finalized Optimistic w_submitted);
    [discriminate|cbn; lia|vm_compute; reflexivity].
Defined.

Definition confirm_result : outcome TW DispatchError (list FullSideEffect) :=
  confirm local_id ready_step local_sfx_id local_confirmation w_ready.

Lemma confirm_checks_witness :
  ensure_all_gateways_are_active (w_ext w_ready)
    (map (λ f, sfx_target (fsx_input f)) ready_step) = true.
Proof.
  destruct confirm_result as [step' w'| |] eqn:Hc; [|vm_compute in Hc; discriminate Hc..].
  unfold confirm_result in Hc.
  apply (confirm_checks w_ready local_id ready_step local_sfx_id local_confirmation step' w' Hc).
Defined.

Lemma reused_id_traps_witness :
  process_tick_two (E:=DispatchError) remote_id r_again_ready = Panic.
Proof.
  apply (reused_id_traps r_again_ready remote_id (ctx_of r_again_ready remote_id)
           (default [] (read_current_step_fsx (ctx_of r_again_ready remote_id))));
    vm_compute; reflexivity.
Defined.

Definition kill_signal : ExecutionSignal := mkExecutionSignal 0 SignalComplete local_id.
Definition w_signalled : TW := state_of (dispatch (Signed alice) (COnSignal kill_signal) w_bid).

Lemma signal_in_bidding_traps_witness :
  process_signal_queue (E:=DispatchError) 7 1 1000 w_signalled = Panic.
Proof.
  apply (signal_in_bidding_traps w_signalled 7 1 1000 alice kill_signal [] bid_ctx bid_step);
    vm_compute; reflexivity.
Defined.

(** ** The vacuum *)

#[export] Instance toy_vacuum : VacuumConfig (AMState ledger) bool := {|
  vacuum_minimum_balance := 1;
  recode_bytes_with_descriptor := λ bytes descriptor _ _,
    if bool_decide (descriptor = remote_transfer_commit_applied_abi_descriptor)
    then if bool_decide (length bytes = 53%nat) then ROk bytes else RErr (Other "Invalid log")
    else ROk bytes;
  get_token_by_eth_address := λ _ _ eth,
    ROk (mkTokenRecord 4 self_gateway (TokenEthereum (mkEthereumToken [] 18 (Some eth))));
  get_remote_order_contract_address := λ _ _, ROk 11;
  get_remote_bidding_contract_address := λ _ _, ROk 12;
  get_escrow_account := λ _ _, ROk (be_bytes 32 13);
  is_target_active := λ active _ _, active;
  list_available_mint_assets := λ _ _, [];
  check_asset_is_mintable := λ _ _ _, true;
  xdns_mint := λ _ asset who amt s, Ok tt (deposit_immediately who amt (Some asset) s);
  get_self_token_id := λ _, 4;
  into_account_id := λ _ e, e;
  repatriate_for_faulty_or_missing_attestation := λ _ _ _ _ s, (s, true);
|}.

Abbreviation TV := (Vacuum (AMState ledger) bool).

Definition v0 : TV := mkVacuum w0 [].

Definition vacuum_of {T} (o : outcome TV DispatchError T) : TV :=
  match o with Ok _ v => v | Err _ v => v | Panic => v0 end.

Definition transfer_order (amount : Balance) : OrderSFX :=
  mkOrder (ActTransfer [2; 2; 2; 2] 0 bob amount) 100 0 10 None.
Definition two_orders : list OrderSFX := [transfer_order 5; transfer_order 6].
Definition v_ordered : TV := vacuum_of (order (Signed alice) two_orders Fast v0).

Lemma order_submits_witness :
  submitted w0 alice (map order_try_into two_orders) (v_circuit v_ordered) ∧
  v_events v_ordered = [].
Proof.
  apply (order_submits v0 alice two_orders Fast v_ordered);
    [discriminate|cbn; lia|vm_compute; reflexivity].
Defined.

(** A deal of bob with the nonce 2: its identifier is smaller than that of the
    order of alice, and the bid goes to the order of alice. *)
Definition deal_id : Hash := next_xtx_id w0 (to_account_id (from_remote_nonce 2)).
Definition v_deal : TV :=
  vacuum_of (dynamic_destination_deal (Signed bob) [2; 2; 2; 2] 0 5 0 20 2 Fast v_ordered).

Example deal_bid_goes_elsewhere :
  status_of (v_circuit v_deal) deal_id = Some PendingBidding ∧
  map (λ v, status_of (v_circuit v) local_id) [v_ordered; v_deal] =
    [Some PendingBidding; Some InBidding].
Proof. vm_compute. split; reflexivity. Qed.

(** The Circuit after the submission of the deal, before the bid. *)
Definition w_deal_placed : TW :=
  state_of (remote_origin_trigger (Signed bob) (to_account_id (from_remote_nonce 2))
    [order_try_into (escrow_order bob 0 5); order_try_into (deal_order [2; 2; 2; 2] 0 20 2)] Fast
    (v_circuit v_ordered)).

Lemma deal_bids_on_largest_id_witness :
  ∃ w1 id,
    status_of w1 deal_id = Some PendingBidding ∧ deal_id < id ∧
    place_bid (Signed bob) (generate_id (be_bytes 32 id) 1) 1 w1 = Ok tt (v_circuit v_deal).
Proof.
  assert (dynamic_destination_deal (Signed bob) [2; 2; 2; 2] 0 5 0 20 2 Fast v_ordered = Ok tt v_deal)
    as Hcall by (vm_compute; reflexivity).
  destruct (deal_bids_on_largest_id v_ordered bob [2; 2; 2; 2] 0 5 0 20 2 Fast v_deal Hcall)
    as (w1 & id & Hsub & Hmax & Hbid).
  assert (w_deal_placed = w1) as <- by (unfold w_deal_placed; rewrite Hsub; reflexivity).
  exists w_deal_placed, id. split; [vm_compute; reflexivity|]. split; [|exact Hbid].
  apply Z.lt_le_trans with local_id; [vm_compute; reflexivity|].
  destruct (x_exec_signals w_deal_placed !! local_id) as [x|] eqn:Hx; [|vm_compute in Hx; discriminate Hx].
  apply (Hmax local_id x Hx).
  vm_compute in Hx. injection Hx as <-. reflexivity.
Defined.

Definition bridged : RemoteEVMOrderLocalized := mkLocalized 1 self_gateway 4 alice 2 1000 5 10 3.
Definition v_bridged : TV := vacuum_of (mint_wrapped bob bridged v0).

Lemma bridged_amount_not_minted_witness :
  ∃ a1 a2,
    xdns_mint true 4 bob 10 am0 = Ok tt a1 ∧ xdns_mint true 4 alice 0 a1 = Ok tt a2 ∧
    v_bridged = mkVacuum (set_am a2 w0) [].
Proof.
  apply (bridged_amount_not_minted v0 bob bridged v_bridged). vm_compute. reflexivity.
Defined.

(** A proof whose order, bid and execution are in order: the decoding of the
    execution log fails. *)
Definition commit_log : list Z := 0 :: be_bytes 32 77 ++ be_bytes 20 bob.
Definition good_proof : VacuumEVMProof :=
  mkProof self_gateway self_gateway [2; 2; 2; 2]
    (0 :: order_log_encode OrderSamples.order_log) commit_log commit_log commit_log.

Example good_proof_refused :
  match evm_submit_fault_proof (Signed bob) good_proof v0 with
  | Err e _ => Some e
  | _ => None
  end = Some (Other "RemoteEVMConfirmationAppliedLocalized::remote_order -- error decoding RemoteEVMCommitLog").
Proof. vm_compute. reflexivity. Qed.

Lemma fault_proof_never_accepted_witness :
  commit_log_recoding ∧
  ¬ ∃ r v', evm_submit_fault_proof (Signed bob) good_proof v0 = Ok r v'.
Proof.
  assert commit_log_recoding as Hrecode.
  { intros bytes out. cbn. rewrite bool_decide_true by reflexivity.
    case_bool_decide; [|discriminate]. intros [= <-]. assumption. }
  split; [exact Hrecode|].
  exact (fault_proof_never_accepted v0 (Signed bob) good_proof Hrecode).
Defined.
