(* ===== verification/AttesterSamples.v ===== *)
(** * Runs of the attesters, clock and rewards pallets

    A concrete configuration, the run of three attesters from their registration
    to a committed batch, and the instances of the theorems on the states of
    this run. *)

From S2P Require Import Prelude Types Status AccountManager Solvency World Machine Circuit.
From S2P Require Import Queues Calls Invariant Safety Reach Batches Attesters AttesterCalls.
From S2P Require Import AttesterReach AttesterSystem AttesterRequests AttesterBonds Clock.
From S2P Require Import Rewards RewardsProps Hooks Samples.
Import SimpleLedger.

(** ** Attesters *)

(** Free and reserved balances. *)
Record purse := mkPurse { free_of : gmap Z Z; reserved_of : gmap Z Z }.

Definition move_in (m : gmap Z Z) (who x : Z) : gmap Z Z := <[who := default 0 (m !! who) + x]> m.

Definition purse_reserve (who x : Z) (e : purse) : result DispatchError purse :=
  if default 0 (free_of e !! who) <? x then RErr (Other "InsufficientBalance")
  else ROk (mkPurse (move_in (free_of e) who (- x)) (move_in (reserved_of e) who x)).
Definition purse_unreserve (who x : Z) (e : purse) : purse :=
  let y := Z.min x (default 0 (reserved_of e !! who)) in
  mkPurse (move_in (free_of e) who y) (move_in (reserved_of e) who (- y)).
Definition purse_transfer (from to x : Z) (e : purse) : result DispatchError purse :=
  if default 0 (free_of e !! from) <? x then RErr (Other "InsufficientBalance")
  else ROk (mkPurse (move_in (move_in (free_of e) from (- x)) to x) (reserved_of e)).

(** A signature starts with the key it was made with. *)
#[export] Instance toy_crypto : AttesterCrypto := {|
  parse_serialize_compressed := λ pk, Some (4 :: pk ++ replicate 31 0);
  recover_from_prehash := λ _ sig _, Some (take 33 sig);
  ed25519_verify := λ _ _ _, true;
  sr25519_verify := λ _ _ _, true;
|}.

#[export] Instance toy_attesters : AttestersConfig purse := {|
  CommitteeSize := 3;
  BatchingWindow := 6;
  RepatriationPeriod := 30;
  ShufflingFrequency := 10;
  DefaultCommission := 10;
  MinNominatorBond := 5;
  MinAttesterBond := 10;
  attesters_treasury := λ _, treasury;
  att_reads := λ r, 25 * r;
  att_writes := λ w, 100 * w;
  att_reads_writes := λ r w, 25 * r + 100 * w;
  blake2_128 := λ a, a;
  att_free_balance := λ e who, default 0 (free_of e !! who);
  att_reserve := purse_reserve;
  att_unreserve := purse_unreserve;
  att_transfer := purse_transfer;
  att_random := λ _ subject, subject;
  att_escrow_account := λ _ _, ROk (replicate 32 7);
  att_verification_vendor := λ _ _, ROk Polkadot;
  att_target_codec := λ _ _, ROk Scale;
  att_verify_inclusion := λ _ _ _ proof, ROk (mkReceipt 20 [] proof);
  recode_batch_event := λ bytes _, ROk bytes;
  att_fsx_requester := λ _ _, RErr (Other "NoRequester");
  att_fsx := λ _ _, RErr (Other "NoSideEffect");
  repatriate := λ _ _ _ _ e, (e, false);
  on_new_epoch := λ _ _ _ e, e;
|}.

Abbreviation TA := (AttState purse).

Definition carol : AccountId := 2 ^ 32 + 4.
Definition target : TargetId := [1; 1; 1; 1].
Definition key_of (who : AccountId) : list Z := replicate 32 0 ++ [who mod 256].
Definition address_of (who : AccountId) : list Z := replicate 19 1 ++ [who mod 256].
Definition signature_of (who : AccountId) : list Z := key_of who ++ replicate 32 0.

Definition rich : purse :=
  mkPurse {[ alice := 1000; bob := 1000; carol := 1000; treasury := 10 ^ 15 ]} ∅.

Definition att_state {T} (o : outcome TA DispatchError T) : TA :=
  match o with Ok _ s => s | Err _ s => s | Panic => empty_att rich end.

Definition register (who : AccountId) (bond : Balance) : TA → TA := λ s,
  att_state (att_dispatch (Signed who) (RegisterAttester bond (key_of who) [] [] (Some 20)) s).
Definition agree (who : AccountId) : TA → TA := λ s,
  att_state (att_dispatch (Signed who) (AgreeToNewAttestationTarget target (address_of who)) s).
Definition sign (who : AccountId) (h : Hash) : TA → TA := λ s,
  att_state (att_dispatch (Signed who) (SubmitAttestation h (signature_of who) target) s).
Definition block (n : BlockNumber) : TA → TA := λ s, att_state (on_initialize n s).

Definition a0 : TA := genesis_build [target] (empty_att rich).
Definition a1 : TA := set_att_ext rich (set_att_block 1 a0).
Definition a2 : TA := register alice 100 a1.
Definition a3 : TA := register bob 90 a2.
Definition a4 : TA := register carol 80 a3.
Definition a5 : TA := agree alice a4.
Definition a6 : TA := agree bob a5.
Definition a7 : TA := agree carol a6.
Definition a8 : TA := block 10 a7.
Definition a9 : TA := att_state (request_sfx_attestation_commit target 77 None a8).
Definition a10 : TA := block 12 a9.
Definition batch_hash : Hash := default 0 (get_latest_batch_to_sign_hash target a10).
Definition a11 : TA := sign alice batch_hash a10.
Definition a12 : TA := sign bob batch_hash a11.
Definition a13 : TA := block 18 a12.
Definition a14 : TA := set_att_ext (att_ext a13) (set_att_block 300 a13).
Definition commitment : list Z := be_bytes 32 batch_hash ++ address_of alice ++ be_bytes 32 0.
Definition commit : AttCall := CommitBatch target commitment.
Definition a15 : TA := att_state (att_dispatch (Signed alice) commit a14).
Definition a16 : TA := att_state (att_dispatch (Signed bob) commit a15).

(** ** Reachable states *)

Lemma unambiguous_check (s : TA) :
  bool_decide (map_Forall (λ _ l, NoDup (map message_hash l)) (batches s)) = true → unambiguous s.
Proof.
  intros Hb%bool_decide_eq_true t l i j bi bj Hl Hi Hj Hh. specialize (Hb t l Hl). simpl in Hb.
  apply (NoDup_lookup _ i j (message_hash bi) Hb).
  - change (map message_hash l) with (message_hash <$> l). by rewrite list_lookup_fmap, Hi.
  - change (map message_hash l) with (message_hash <$> l). by rewrite list_lookup_fmap, Hj, Hh.
Qed.

Lemma reach_call o c (s s' : TA) :
  att_reach s →
  bool_decide (map_Forall (λ _ l, NoDup (map message_hash l)) (batches s)) = true →
  att_dispatch o c s = Ok tt s' → att_reach s'.
Proof.
  intros Hs Hb Hd. eapply reach_att_step; [done|]. eapply step_att_call; [|done].
  by apply unambiguous_check.
Qed.

Ltac by_call o c H := apply (reach_call o c _ _ H); [vm_compute; reflexivity|vm_compute; reflexivity].

Lemma reach_a1 : att_reach a1.
Proof. eapply reach_att_step; [apply reach_genesis|apply step_outside]. Qed.

Definition registration (who : AccountId) (bond : Balance) : AttCall :=
  RegisterAttester bond (key_of who) [] [] (Some 20).
Definition agreement (who : AccountId) : AttCall :=
  AgreeToNewAttestationTarget target (address_of who).
Definition attestation (who : AccountId) : AttCall :=
  SubmitAttestation batch_hash (signature_of who) target.

Lemma reach_a4 : att_reach a4.
Proof.
  assert (att_reach a2) as R2 by by_call (Signed alice) (registration alice 100) reach_a1.
  assert (att_reach a3) as R3 by by_call (Signed bob) (registration bob 90) R2.
  by_call (Signed carol) (registration carol 80) R3.
Qed.

Lemma reach_a7 : att_reach a7.
Proof.
  assert (att_reach a5) as R5 by by_call (Signed alice) (agreement alice) reach_a4.
  assert (att_reach a6) as R6 by by_call (Signed bob) (agreement bob) R5.
  by_call (Signed carol) (agreement carol) R6.
Qed.

Lemma reach_block n (s : TA) w : att_reach s → on_initialize n s = Ok w (block n s) → att_reach (block n s).
Proof. intros Hs Ho. eapply reach_att_step; [done|]. by eapply step_block. Qed.

Lemma reach_a8 : att_reach a8.
Proof. eapply reach_block; [apply reach_a7|vm_compute; reflexivity]. Qed.

Lemma reach_a10 : att_reach a10.
Proof.
  eapply reach_block; [|vm_compute; reflexivity]. eapply reach_att_step; [apply reach_a8|].
  apply (step_commit_request a8 target 77 None). vm_compute. reflexivity.
Qed.

Lemma reach_a12 : att_reach a12.
Proof.
  assert (att_reach a11) as R11 by by_call (Signed alice) (attestation alice) reach_a10.
  by_call (Signed bob) (attestation bob) R11.
Qed.

Lemma reach_a14 : att_reach a14.
Proof.
  eapply reach_att_step; [|apply step_outside]. eapply reach_block; [apply reach_a12|].
  vm_compute. reflexivity.
Qed.

Lemma unambiguous_a14 : unambiguous a14.
Proof. apply unambiguous_check. vm_compute. reflexivity. Qed.

Definition the_batch : BatchMessage :=
  default default_batch (default [] (batches a14 !! target) !! 0%nat).
Definition the_event : TargetBatchDispatchEvent :=
  mkDispatchEvent batch_hash (address_of alice) 0.

Lemma event_a14 : read_target_event target commitment a14 = Ok the_event a14.
Proof. vm_compute. reflexivity. Qed.
Lemma found_a14 :
  List.find (λ b, message_hash b =? event_hash the_event) (get_batches_to_commit target a14) =
  Some the_batch.
Proof. vm_compute. reflexivity. Qed.
Lemma commit_a14 : commit_batch (Signed alice) target commitment a14 = Ok tt a15.
Proof. vm_compute. reflexivity. Qed.

(** ** Instances *)


Lemma batch_moves_forward_witness :
  (batches a15 !! target = None ∧ next_batches a15 !! target = None) ∨
  ∃ l' b', batches a15 !! target = Some l' ∧ l' !! 0%nat = Some b' ∧ batch_le the_batch b'.
Proof.
  apply (batch_moves_forward a14 a15 target (default [] (batches a14 !! target)) 0 the_batch).
  - done.
  - apply reach_a14.
  - apply (step_att_call a14 (Signed alice) commit); [apply unambiguous_a14|apply commit_a14].
  - vm_compute. reflexivity.
  - vm_compute. reflexivity.
Defined.


Lemma replayed_commitment_witness :
  ∃ s2 committee,
    commit_batch (Signed bob) target commitment a15 = Ok tt s2 ∧
    permanent_slashes s2 = permanent_slashes a15 ++ committee ∧
    (committee = PreviousCommittee a15 ∨ committee = CurrentCommittee a15).
Proof.
  apply (replayed_commitment_slashes_committee a14 a15 alice target commitment the_event the_batch
           tt bob).
  - apply unambiguous_a14.
  - apply event_a14.
  - apply found_a14.
  - apply commit_a14.
  - vm_compute. reflexivity.
Defined.

(** The committee of three is slashed by anyone who repeats the proof. *)
Example replayed_commitment_run :
  permanent_slashes a15 = [] ∧ permanent_slashes a16 = [alice; bob; carol].
Proof. vm_compute. by split. Qed.

Definition forged : list Z := signature_of carol.
Definition info_of (who : AccountId) (s : TA) : AttesterInfo :=
  default (mkAttesterInfo [] [] [] 0 0) (attesters s !! who).

Lemma invalid_attestation_witness :
  submit_attestation (Signed alice) batch_hash forged target a10 =
  Err (att_error RejectingFromSlashedAttester) a10.
Proof.
  apply (invalid_attestation_not_slashed a10 (Signed alice) batch_hash forged target alice
           (info_of alice a10)). vm_compute. reflexivity.
Defined.

Lemma attestation_recorded_witness :
  ∃ who info l i b,
    Signed alice = Signed who ∧ attesters a10 !! who = Some info ∧ who ∈ active_set a10 ∧
    who ∈ CurrentCommittee a10 ∧ batches a10 !! target = Some l ∧ l !! i = Some b ∧
    message_hash b = batch_hash ∧ (attester_index info ∉ map fst (signatures b)) ∧
    (batch_status b = PendingAttestation ∨ batch_status b = ReadyForSubmissionByMajority) ∧
    batches a11 =
      <[target := <[i := let sigs := signatures b ++ [(attester_index info, signature_of alice)] in
                         set_batch_status (status_signed (batch_status b) (length sigs))
                           (set_signatures sigs b)]> l]> (batches a10).
Proof.
  apply (attestation_recorded a10 a11 (Signed alice) batch_hash (signature_of alice) target tt).
  vm_compute. reflexivity.
Defined.

Lemma finality_reward_bounds_witness :
  estimate_finality_reward target 40 a14 ≤ estimate_finality_reward target 100 a14.
Proof.
  apply (finality_reward_bounds target 40 100 a14); [done|]. split; vm_compute; discriminate.
Defined.

Lemma shuffle_rotates_witness : NoDup (NextCommittee (shuffle_committee a14).1).
Proof.
  destruct (shuffle_rotates_committees a14) as (drawn & _ & _ & _ & _ & _ & Hnd).
  apply Hnd; [|vm_compute; reflexivity]. apply (bool_decide_unpack _). vm_compute. exact I.
Defined.


Definition a7_nominated : TA := att_state (nominate (Signed carol) alice 50 a7).

Lemma nomination_witness :
  nominations a7_nominated = <[(alice, carol) := 50]> (nominations a7).
Proof.
  apply (nomination_lists_attester a7 a7_nominated carol alice 50 tt).
  - done.
  - apply reach_a7.
  - vm_compute. reflexivity.
Defined.

Lemma deregistration_witness : attesters (deregister alice a7) = delete alice (attesters a7).
Proof. apply (deregistration_releases_all a7 alice); [done|apply reach_a7]. Defined.

Lemma repeated_unnomination_witness :
  let unlock := wrap32 (att_block a7_nominated + wrap32 (ShufflingFrequency * 2)) in
  ∃ s1 s2,
    unnominate (Signed carol) alice a7_nominated = Ok tt s1 ∧
    unnominate (Signed carol) alice s1 = Ok tt s2 ∧
    pending_unnominations s2 !! carol = Some [(alice, 50, unlock); (alice, 50, unlock)] ∧
    att_ext (process_nominator unlock (s2, 0) (carol, [(alice, 50, unlock); (alice, 50, unlock)])).1 =
      att_unreserve carol 50 (att_unreserve carol 50 (att_ext a7_nominated)).
Proof.
  refine (repeated_unnomination_unreserves_twice a7_nominated carol alice 50 0 _ _ _).
  - done.
  - vm_compute. reflexivity.
  - vm_compute. reflexivity.
Defined.

Lemma commitment_reward_witness :
  last_fee target a15 = Nat.iter 6 raise_reward (last_fee target a14).
Proof.
  apply (commitment_pays_maximal_reward a14 a15 alice target commitment the_event the_batch tt).
  - done.
  - apply reach_a14.
  - apply unambiguous_a14.
  - vm_compute. discriminate.
  - apply event_a14.
  - apply found_a14.
  - split; vm_compute; [reflexivity|discriminate].
  - apply commit_a14.
Defined.

Lemma batch_message_ambiguous_witness :
  message (set_reverted_sfx None (set_committed_sfx (Some [7 * 2 ^ 256 + 8]) default_batch)) =
  message (set_reverted_sfx (Some [7; 8]) (set_committed_sfx None default_batch)).
Proof. apply (batch_message_ambiguous default_batch default_batch [] 7 8). done. Defined.

(** ** Clock and rewards *)

#[export] Instance toy_clock : ClockConfig := {|
  RoundDuration := 300;
  clock_reads := λ r, 25 * r;
  clock_reads_writes := λ r w, 25 * r + 100 * w;
|}.

Lemma ordered_set_witness : ordered_set_contains 5 [1; 5; 9] = true.
Proof.
  destruct (ordered_set_refines_set [1; 5; 9] 5) as [_ Hset].
  apply Hset; [repeat constructor|apply (bool_decide_unpack _); vm_compute; exact I].
Defined.

Lemma round_advances_witness :
  CurrentRound (check_bump_round 300 (mkClock default_round [])).1 = (2, 300, 300).
Proof.
  destruct (round_advances (mkClock default_round []) 300) as [_ Ha]; [done|done|].
  destruct Ha as [Ha _]; [done|done|]. exact Ha.
Defined.

#[export] Instance toy_rewards : RewardsConfig ledger := {|
  TotalInflation := 44000000;
  AttesterInflation := 11000000;
  ExecutorInflation := 8000000;
  CollatorInflation := 5000000;
  TreasuryInflation := 20000000;
  OneYear := 2629800;
  InflationDistributionPeriod := 300;
  StartingRepatriationPercentage := 10;
  rewards_treasury := λ _, treasury;
  rw_reads := λ r, 25 * r;
  rw_reads_writes := λ r w, 25 * r + 100 * w;
  perbill_from_rational := λ p q, Z.max 0 (p * 10 ^ 9 / q);
  total_issuance := λ b, map_sum id (native b);
  ensure_can_withdraw := λ who x _ b, x <=? bal (native b) who;
  withdraw_transfer := sl_withdraw;
|}.

Abbreviation TR := (RewState ledger TA).

Definition rw_ledger : ledger := mkLedger {[ alice := 10 ^ 18; treasury := 10 ^ 9 ]} ∅.
Definition no_sheet : TreasuryBalanceSheet := mkSheet 0 0 0 0 0.
Definition settled : Settlement := mkSettlement alice bob 70 None Commit TrafficRewards Executor.

Definition rw0 : TR :=
  rewards_genesis
    (mkRewards (mkAM rw_ledger ∅ {[ (1, 1, 299, 9) := settled ]} 0 default_round [])
       a10 1 ∅ ∅ ∅ no_sheet 0 None [] false false None 0 false ∅ []).
Definition rw1 : TR := set_MaxRewardExecutorsKickback 50 (process_accumulated_settlements rw0).1.
Definition rw2 : TR := (distribute_inflation rw1).1.

Definition rw_state {T} (o : outcome TR DispatchError T) : TR :=
  match o with Ok _ s => s | Err _ s => s | Panic => rw0 end.
Definition rw3 : TR := rw_state (claim (Signed bob) (Some Executor) rw2).

(** The settlement of the round and the kickback of the distribution. *)
Example claim_run :
  free_balance (rw_bank rw2) bob = 0 ∧ free_balance (rw_bank rw3) bob = 105.
Proof. vm_compute. by split. Qed.

Lemma settlements_accumulated_witness :
  pending_total (process_accumulated_settlements rw0).1 = 70.
Proof.
  pose proof (settlements_accumulated_once rw0) as Hs. cbv zeta in Hs.
  destruct Hs as [Hsum _].
  - vm_compute. reflexivity.
  - vm_compute. discriminate.
  - intros k l Hl. vm_compute in Hl. discriminate.
  - vm_compute. repeat constructor. discriminate.
  - intros k. unfold accumulated. change (accumulated_settlements rw0) with
      (∅ : gmap (Z * AssetType) Z). by rewrite lookup_empty.
  - vm_compute. discriminate.
  - intros k. unfold accumulated. change (accumulated_settlements rw0) with
      (∅ : gmap (Z * AssetType) Z). rewrite lookup_empty.
    assert (executions_this_round rw0 = [(bob, settled)]) as -> by (vm_compute; reflexivity).
    simpl. case_bool_decide; vm_compute; discriminate.
  - rewrite Hsum. vm_compute. reflexivity.
Defined.


Definition no_commission : TA := register alice 100 a1.
Definition rw4 : TR :=
  set_rw_att (set_attesters {[ alice := mkAttesterInfo [] (key_of alice) [] 0 0 ]} no_commission) rw0.

Lemma zero_commission_witness :
  claim (Signed alice) None (reward_attester 100 rw4 alice) =
  Err (RewardsModuleError NoPendingClaims) (reward_attester 100 rw4 alice).
Proof.
  apply (zero_commission_blocks_claims alice (mkAttesterInfo [] (key_of alice) [] 0 0) 100 None rw4).
  - vm_compute. reflexivity.
  - vm_compute. reflexivity.
  - vm_compute. reflexivity.
  - by left.
Defined.

Definition late_fsx : FullSideEffect := mkFSX local_sfx None Optimistic 0 None 0.

Lemma repatriation_witness :
  wp (repatriate_for_faulty_or_missing_attestation 1 late_fsx
        Committed (Some alice))
    (λ repatriated s', if repatriated : bool then pending_total s' = pending_total rw0 + 100 else s' = rw0)
    (λ _ _, False) rw0.
Proof.
  eapply wp_mono; [apply (repatriation_never_traps 1
    late_fsx Committed (Some alice) rw0)| |].
  - vm_compute. split; discriminate.
  - vm_compute. split; discriminate.
  - vm_compute. discriminate.
  - intros who x b Hx. simpl in *. unfold sl_withdraw. destruct (Z.ltb_spec (bal (native b) who - x) 0);
      [lia|by eexists].
  - intros [] s' Hs'; [|done]. apply Hs'.
  - done.
Defined.

Lemma view_a10 : attesters_view_ok a10.
Proof.
  apply attesters_view.
  - apply (bool_decide_unpack _). vm_compute. exact I.
  - apply (bool_decide_unpack _). vm_compute. exact I.
  - intros a. destruct (decide (a ∈ [alice; bob; carol])) as [Ha|Ha].
    + apply elem_of_cons in Ha as [->|Ha]; [vm_compute; discriminate|].
      apply elem_of_cons in Ha as [->|Ha]; [vm_compute; discriminate|].
      apply elem_of_cons in Ha as [->|Ha]; [vm_compute; discriminate|by inversion Ha].
    + assert (read_nominations a a10 = []) as ->; [|vm_compute; discriminate].
      apply elem_of_nil_inv. intros [n x] Hin. apply read_nominations_elem in Hin.
      assert (map_Forall (λ k _, k.1 ∈ [alice; bob; carol]) (nominations a10)) as Hall
        by (apply (bool_decide_unpack _); vm_compute; exact I).
      exact (Ha (Hall _ _ Hin)).
Qed.

Lemma distribution_witness :
  ∃ r, DistributionHistory rw2 = DistributionHistory rw1 ++ [r] ∧
    dr_available r = balance_for_distribution rw1 ∧
    pending_total rw2 ≤ pending_total rw1 + dr_attester_rewards r + dr_collator_rewards r
                        + dr_executor_rewards r ∧
    dr_attester_rewards r ≤ perbill_mul_ceil AttesterInflation (balance_for_distribution rw1) ∧
    dr_executor_rewards r ≤ amounts (native_settlements rw1).
Proof.
  apply (distribution_creates_recorded_claims rw1).
  - vm_compute. reflexivity.
  - apply view_a10.
  - vm_compute. split; discriminate.
  - intros p q. apply Z.le_max_l.
  - apply (bool_decide_unpack _). vm_compute. exact I.
  - vm_compute. discriminate.
  - vm_compute. discriminate.
  - vm_compute. discriminate.
  - vm_compute. discriminate.
  - vm_compute. discriminate.
  - vm_compute. discriminate.
Defined.

Lemma authors_bounded_witness :
  authors_this_period (process_author (Some alice) rw0).1 !! alice = Some 1.
Proof.
  destruct (authors_bounded alice rw0) as [_ Ha].
  - apply Nat.le_0_l.
  - destruct Ha as [Ha _]; [apply Nat.lt_0_succ|exact Ha].
Defined.


(** ** The block hook *)

#[export] Instance toy_reads : AttestersReadApi bool := {|
  api_honest_active_set := λ _, [];
  api_active_set := λ _, [];
  api_read_attester_info := λ _ _, None;
  api_read_nominations := λ _ _, [];
|}.

#[export] Instance toy_runtime : RuntimeConfig bool (list AccountId) := {|
  session_validators := λ y, y;
  session_disable := λ v y, filter (v ≠.) y;
  verifier_overview := λ _ x, (x, 25);
|}.

Abbreviation TRT := (Runtime ledger bool (list AccountId)).

Definition hook_world : TW :=
  set_am (mkAM rw_ledger ∅ {[ (1, 1, 299, 9) := settled ]} 0 default_round []) w0.
Definition hook_rewards : RewState ledger bool :=
  mkRewards am0 true 1 ∅ ∅ ∅ no_sheet 0 None [] false false None 0 false ∅ [].
Definition rt0 : TRT := mkRuntime hook_world hook_rewards [] [alice; bob] (Some alice).


Lemma hour_closes_round_witness :
  ∃ weight rt', process_hourly (E:=DispatchError) 300 1000 rt0 = Ok weight rt' ∧
    pending_total (rt_rewards rt') = 70 ∧
    current_round (w_am (rt_circuit rt')) = (2, 300, 300).
Proof.
  pose proof (hour_closes_round 300 1000 rt0) as Hc. cbv zeta in Hc.
  destruct Hc as (weight & rt' & Hp & Hsum & _ & _ & Hr).
  - done.
  - done.
  - done.
  - done.
  - done.
  - done.
  - done.
  - intros k l Hl. vm_compute in Hl. discriminate.
  - vm_compute. repeat constructor. discriminate.
  - intros k. unfold accumulated. change (accumulated_settlements (rt_rewards rt0)) with
      (∅ : gmap (Z * AssetType) Z). by rewrite lookup_empty.
  - vm_compute. discriminate.
  - intros k. unfold accumulated. change (accumulated_settlements (rt_rewards rt0)) with
      (∅ : gmap (Z * AssetType) Z). rewrite lookup_empty.
    assert (get_settlements_by_role Executor (w_am (rt_circuit rt0)) = [(bob, settled)]) as ->
      by (vm_compute; reflexivity).
    simpl. case_bool_decide; vm_compute; discriminate.
  - exists weight, rt'. split; [exact Hp|]. rewrite Hsum, Hr. split; vm_compute; reflexivity.
Defined.

Definition rt_state (o : outcome TRT DispatchError Z) : TRT :=
  match o with Ok _ rt => rt | Err _ rt => rt | Panic => rt0 end.
Definition rt1 : TRT := rt_state (process_hourly 300 1000 rt0).
Definition rt2 : TRT := rt_state (process_hourly 600 1000 rt1).

Lemma every_round_witness :
  current_round (w_am (rt_circuit rt2)) = round_of_hour 2 ∧
  LastProcessedRound (rt_rewards rt2) = Some (round_of_hour 1).
Proof.
  apply (every_round_processed 2 rt2); [done| |done].
  apply (hours_next 1 rt1 rt1 1000 175); [|done|vm_compute; reflexivity|].
  - apply (hours_next 0 rt0 rt0 1000 300); [|done|vm_compute; reflexivity|].
    + by apply hours_start.
    + vm_compute. reflexivity.
  - vm_compute. reflexivity.
Defined.
