(* ===== verification/XdnsSamples.v ===== *)
(** * A registry with two gateways

    A toy configuration of the registry: the assets pallet is a set of
    identifiers, the light clients report the heights of a table, the Circuit
    called back does nothing.  From the genesis with the chain's own gateway and
    Rococo, a token is registered, linked and enrolled; the theorems with
    hypotheses are applied in these states. *)

From S2P Require Import Prelude Types AccountManager World Circuit StandardAbi Vacuum Batches.
From S2P Require Import Attesters Xdns XdnsCalls XdnsSystem XdnsProps XdnsActivity.

Definition toy_assets := gset Z.

Definition toy_heartbeat (v : GatewayVendor) : LightClientHeartbeat :=
  mkHeartbeat 90 (700 + vendor_index v) 710 720 (bool_decide (v = Kusama)) true.

#[local] Instance toy_xdns : XdnsConfig toy_assets := {|
  SelfTokenId := 3333;
  SelfGatewayId := [3; 3; 3; 3];
  xd_reads n := 25 * n;
  xd_writes n := 100 * n;
  xd_reads_writes r w := 25 * r + 100 * w;
  xdns_treasury a := 77;
  xdns_minimum_balance := 1;
  contains_asset e a := bool_decide (a ∈ e);
  force_create_asset _ a _ _ _ := modify (λ e, {[a]} ∪ e);
  asset_mint _ _ _ _ := mret tt;
  asset_burn _ _ _ _ := mret tt;
  asset_destroy _ a := modify (λ e, e ∖ {[a]});
  get_latest_heartbeat _ _ := ROk (toy_heartbeat Rococo);
  get_latest_heartbeat_by_vendor _ v := toy_heartbeat v;
  attestation_latency _ _ := Some OnTime;
  activated_targets _ := [];
  dlq_process _ s := (s, 0);
  dlq_adaptive_timeouts _ _ s := (s, 0);
  topology_decode _ := None;
  gateway_records_decode _ := Some
    [mkGateway [3; 3; 3; 3] XBI SubstrateVendor Scale None None [(bytes_of "tran", Some 10)];
     mkGateway (bytes_of "roco") Rococo SubstrateVendor Scale None (Some 5)
       [(bytes_of "tran", Some 2); (bytes_of "tass", Some 4)]];
  standard_abi_decode _ := Some standard_sfx_abi;
|}.

#[local] Instance toy_reads : CircuitReads toy_assets.
Proof. split; intros; apply reads_refl. Qed.

Abbreviation T := (XdnsState toy_assets).

Definition run_or {A} (m : M T DispatchError A) (s : T) : T :=
  match m s with Ok _ s' => s' | _ => s end.

Definition eth_info : TokenInfo := TokenEthereum (mkEthereumToken [101; 116; 104] 18 (Some 9)).

(** Genesis; then a token is registered; then it is enrolled for Rococo. *)
Definition x0 : T := run_or (genesis_build [] []) (empty_xdns ∅).
Definition x1 : T := set_xd_ext ∅ (set_xd_block 100 x0).
Definition x2 : T := run_or (register_new_token Root 7 eth_info) x1.
Definition x3 : T := run_or (enroll_bridge_asset Root 7 (bytes_of "roco") eth_info) x2.

Lemma x0_reach : xdns_reach x0.
Proof. apply (reach_xdns_genesis ∅ [] []). vm_compute. reflexivity. Qed.

Lemma x1_reach : xdns_reach x1.
Proof. exact (reach_xdns_step x0 _ x0_reach (step_xdns_outside x0 ∅ 100)). Qed.

Lemma x2_reach : xdns_reach x2.
Proof.
  apply (reach_xdns_step x1 _ x1_reach), (step_xdns_request x1 (RegisterNewToken Root 7 eth_info)).
  vm_compute. reflexivity.
Qed.

Lemma x3_reach : xdns_reach x3.
Proof.
  apply (reach_xdns_step x2 _ x2_reach).
  apply (step_xdns_call x2 Root (EnrollBridgeAsset 7 (bytes_of "roco") eth_info)).
  vm_compute. reflexivity.
Qed.

(** ** Witnesses *)

Lemma registry_consistent_witness :
  map gateway_id (fetch_gateways x3) ≡ₚ AllGatewayIds x3 ∧ length (AllGatewayIds x3) = 2%nat.
Proof. split; [exact (proj1 (proj2 (registry_consistent x3 x3_reach)))|reflexivity]. Defined.

Lemma topology_restored_witness :
  ∃ t', unzip_topology Root (Some (do_zip_topology x1)) None (refresh_standards (empty_xdns ∅)) = Ok tt t' ∧
    Gateways t' = Gateways x1 ∪ ∅.
Proof.
  destruct (topology_gateways_restored x1 (refresh_standards (empty_xdns ∅)) x1_reach) as (t' & Hu & Hg & _).
  - vm_compute. reflexivity.
  - repeat constructor.
  - exists t'. split; [exact Hu|exact Hg].
Defined.

Lemma topology_blocked_witness :
  do_unzip_topology Root (do_zip_topology x2) (refresh_standards (empty_xdns ∅)) ≠ Ok tt x2.
Proof.
  apply (registered_token_blocks_unzip Root 7 eth_info x1 x2).
  vm_compute. reflexivity.
Defined.

(** Rococo has been reported at block 60 with height 650, so that the heartbeat
    of height 702 shows it moving. *)
Definition seen (v : GatewayVendor) (s : T) : T :=
  update_historic_overview v (mkVerifierActivity v 60 640 650 660 650 false)
    (update_overview_store v (mkVerifierActivity v 60 640 650 660 650 false) s).
Definition x4 : T := set_xd_block 120 (seen Rococo x3).

Lemma verifier_report_witness :
  ∃ r, last (verifier_history Rococo
         (process_single_verifier_overview 120 Rococo 702 (toy_heartbeat Rococo) x4).1) = Some r ∧
    fva_is_active r = true.
Proof.
  destruct (verifier_report_spec 120 Rococo 702 (toy_heartbeat Rococo) x4) as (r & Hl & _ & _ & Hact & _).
  - vm_compute. discriminate.
  - repeat constructor. vm_compute. discriminate.
  - exists r. split; [exact Hl|]. destruct (Hact eq_refl) as [_ Hiff]. apply Hiff.
    exists (mkVerifierActivity Rococo 60 640 650 660 650 false).
    split; [left|vm_compute; reflexivity].
Defined.

Lemma toy_histories w : history_ok 120 (verifier_history w x4).
Proof.
  split; [destruct w; vm_compute; try exact I; discriminate|].
  destruct w; repeat constructor; vm_compute; discriminate.
Qed.


Lemma adaptive_timeout_witness :
  ∃ v, there (xdns_estimate_adaptive_timeout [bytes_of "roco"] Fast 400 x4) = bytes_of "roco" ∧
    get_verification_vendor (bytes_of "roco") x4 = ROk v ∧
    xd_block x4 ≤ submit_by_height_here (xdns_estimate_adaptive_timeout [bytes_of "roco"] Fast 400 x4).
Proof.
  destruct (adaptive_timeout_of_slowest [bytes_of "roco"] Fast 400 x4) as [[Hd _]|Hv].
  - vm_compute. split; discriminate.
  - vm_compute. split; discriminate.
  - intros v l Hl. vm_compute in Hl. discriminate.
  - vm_compute in Hd. discriminate.
  - destruct Hv as (v & Hin & Hvv & _ & _ & _ & Hle & _). exists v.
    apply list_elem_of_singleton in Hin. rewrite Hin in Hvv. split; [exact Hin|].
    split; [exact Hvv|exact (proj1 Hle)].
Defined.

Lemma mint_witness :
  mint 7 1 5 x2 = Panic ∧ enroll_bridge_asset Root 7 (bytes_of "roco") eth_info x3 = Panic.
Proof.
  split.
  - refine (proj1 (proj1 (mint_needs_authorization 7 [] 1 5 eth_info x2 x2_reach) _)).
    intros [Hin _]. vm_compute in Hin. inversion Hin.
  - refine (proj1 (proj2 (mint_needs_authorization 7 (bytes_of "roco") 1 5 eth_info x3 x3_reach)) _).
    split; [left|]. vm_compute. eexists. reflexivity.
Defined.

Lemma purge_revokes_witness :
  xdns_check_asset_is_mintable (bytes_of "roco") 7 x3 = true ∧
  xdns_check_asset_is_mintable (bytes_of "roco") 7
    (run_or (purge_supported_bridging_asset Root 7 (bytes_of "roco")) x3) = false.
Proof.
  split; [vm_compute; reflexivity|].
  refine (proj1 (purge_revokes_target 7 (bytes_of "roco") x3 _ _ x3_reach _) 7).
  - left.
  - vm_compute. reflexivity.
Defined.
