(* ===== verification/AbiSamples.v ===== *)
(** * A concrete RLP and sample events

    An implementation of the parameter [RlpLib] after the definition of RLP,
    which satisfies [RlpLaws], the logs of the tests of [evm_ingress_logs.rs], and
    the properties at concrete inputs. *)

From S2P Require Import Prelude Types AccountManager Solvency World SquareUp Bids Validate.
From S2P Require Import Machine Circuit Orders Queues Calls StandardAbi Vacuum VacuumFacts.
From S2P Require Import Samples Abi AbiFill AbiRecode AbiParse AbiProps AbiRemote.

Module ToyRlp.

(** ** Encoding *)

Fixpoint strip (l : list Z) : list Z :=
  match l with
  | b :: l' => if b =? 0 then strip l' else l
  | [] => []
  end.

(** The prefix of a byte string ([off] is 128) or of a list (192). *)
Definition header (off : Z) (len : nat) : list Z :=
  if Z.of_nat len <? 56 then [off + Z.of_nat len]
  else let l := strip (be_bytes 4 (Z.of_nat len)) in off + 55 + Z.of_nat (length l) :: l.

Definition encode_string (b : list Z) : list Z := header 128 (length b) ++ b.

Definition encode_bytes (b : list Z) : list Z :=
  match b with
  | [x] => if x <? 128 then [x] else encode_string b
  | _ => encode_string b
  end.

Definition encode_items (items : list (list Z)) : list Z :=
  header 192 (length (concat items)) ++ concat items.

Definition encode_uint (n : nat) (z : Z) : list Z := encode_bytes (strip (be_bytes n z)).

(** ** Decoding *)

(** An item: whether it is a list, its payload and what follows it. *)
Definition read_item (l : list Z) : option (bool * list Z * list Z) :=
  match l with
  | [] => None
  | p :: l =>
      if p <? 128 then Some (false, [p], l)
      else
        let is_list := 192 <=? p in
        let k := p - (if is_list then 192 else 128) in
        let '(len, l) :=
          if k <? 56 then (Z.to_nat k, l)
          else let n := Z.to_nat (k - 55) in (Z.to_nat (from_be_bytes (take n l)), drop n l) in
        if (len <=? length l)%nat then Some (is_list, take len l, drop len l) else None
  end.

(** The items of a payload, with their payloads; [n] is above their number. *)
Fixpoint read_items (n : nat) (l : list Z) : list (list Z * (bool * list Z)) :=
  match n, l with
  | S n, _ :: _ =>
      match read_item l with
      | Some (is_list, payload, rest) =>
          (take (length l - length rest) l, (is_list, payload)) :: read_items n rest
      | None => []
      end
  | _, _ => []
  end.

Definition items_of (data : list Z) : list (list Z * (bool * list Z)) :=
  match read_item data with
  | Some (true, payload, _) => read_items (length payload) payload
  | _ => []
  end.

Definition string_of (item : bool * list Z) : option (list Z) :=
  if item.1 then None else Some item.2.

Definition decode_uint (n : nat) (l : list Z) : option Z :=
  match read_item l with
  | Some (false, b, _) =>
      if (length b <=? n)%nat && negb (bool_decide (head b = Some 0)) then Some (from_be_bytes b) else None
  | _ => None
  end.

Definition val_at_bytes (data : list Z) (i : nat) : option (list Z) :=
  item ← items_of data !! i; string_of item.2.

Definition hash_of (n : nat) (b : list Z) : option (list Z) :=
  if Nat.eqb (length b) n then Some b else None.

Definition val_at_hash (n : nat) (data : list Z) (i : nat) : option (list Z) :=
  b ← val_at_bytes data i; hash_of n b.

Definition list_at_hash (n : nat) (data : list Z) (i : nat) : option (list (list Z)) :=
  match items_of data !! i with
  | Some (_, (true, payload)) =>
      mapM (λ x : list Z * (bool * list Z), b ← string_of x.2; hash_of n b)
        (read_items (length payload) payload)
  | _ => None
  end.

#[export] Instance toy_rlp : RlpLib := {|
  rlp_items := λ data, map fst (items_of data);
  rlp_as_raw := λ data, data;
  rlp_encode_bytes := encode_bytes;
  rlp_encode_uint := encode_uint;
  rlp_encode_list_u8 := λ l, encode_items (map (encode_uint 1) l);
  rlp_encode_list := encode_items;
  rlp_decode_uint := decode_uint;
  rlp_val_at_hash := val_at_hash;
  rlp_val_at_bytes := val_at_bytes;
  rlp_list_at_hash := list_at_hash;
|}.

(** ** The laws *)

Lemma from_le_bytes_app l1 l2 :
  from_le_bytes (l1 ++ l2) = from_le_bytes l1 + 256 ^ Z.of_nat (length l1) * from_le_bytes l2.
Proof.
  induction l1 as [|b l1 IH]; [simpl; lia|]. cbn [app from_le_bytes length]. rewrite IH.
  rewrite Nat2Z.inj_succ, Z.pow_succ_r by lia. lia.
Qed.

Lemma strip_value l : from_be_bytes (strip l) = from_be_bytes l.
Proof.
  induction l as [|b l IH]; [done|]. simpl. destruct (Z.eqb_spec b 0) as [->|]; [|done].
  rewrite IH. unfold from_be_bytes. rewrite reverse_cons, from_le_bytes_app. simpl. lia.
Qed.

Lemma strip_props l :
  (length (strip l) ≤ length l)%nat ∧ head (strip l) ≠ Some 0 ∧
  (Forall is_byte l → Forall is_byte (strip l)).
Proof.
  induction l as [|b l (IH1 & IH2 & IH3)]; [done|]. simpl.
  destruct (Z.eqb_spec b 0) as [->|]; [split_and!; [lia|done|]|split_and!; [done|simpl; congruence|done]].
  intros [_ ?]%Forall_cons. by apply IH3.
Qed.

Lemma read_header off payload rest :
  off = 128 ∨ off = 192 → Z.of_nat (length payload) < 2 ^ 32 →
  read_item (header off (length payload) ++ payload ++ rest) = Some (192 <=? off, payload, rest).
Proof.
  intros Hoff Hlen. unfold header. set (len := Z.of_nat (length payload)) in *.
  assert (∀ p k l, (192 <=? p) = (192 <=? off) → 128 ≤ p → p - off = k →
    (if k <? 56 then (Z.to_nat k, l)
     else (Z.to_nat (from_be_bytes (take (Z.to_nat (k - 55)) l)), drop (Z.to_nat (k - 55)) l))
    = (length payload, payload ++ rest) →
    read_item (p :: l) = Some (192 <=? off, payload, rest)) as Hread.
  { intros p k l Hp Hp1 Hk Hl. unfold read_item. rewrite (proj2 (Z.ltb_ge p 128)), Hp by lia.
    replace (p - _) with k by (destruct Hoff as [->| ->]; simpl; lia). cbv zeta. rewrite Hl.
    rewrite length_app, (proj2 (Nat.leb_le _ _)) by lia. by rewrite take_app_length, drop_app_length. }
  assert (∀ k, 0 ≤ k < 64 → (192 <=? off + k) = (192 <=? off)) as Hkind.
  { intros k Hk. destruct Hoff as [->| ->].
    - by rewrite (proj2 (Z.leb_gt 192 (128 + k))) by lia.
    - by rewrite (proj2 (Z.leb_le 192 (192 + k))) by lia. }
  destruct (Z.ltb_spec len 56) as [Hs|Hs].
  - apply (Hread _ len); [apply Hkind; lia|lia|lia|].
    rewrite (proj2 (Z.ltb_lt _ _)) by done. unfold len. by rewrite Nat2Z.id.
  - set (l := strip (be_bytes 4 len)).
    assert (from_be_bytes l = len) as Hv.
    { unfold l. rewrite strip_value, from_be_bytes_be_bytes. apply Z.mod_small. simpl. lia. }
    assert (1 ≤ length l ≤ 4)%nat as Hl.
    { pose proof (strip_props (be_bytes 4 len)) as [Hle _]. rewrite length_be_bytes in Hle.
      fold l in Hle. split; [|done]. clearbody l. destruct l; [|simpl; lia].
      change (0 = len) in Hv. lia. }
    cbn [app]. apply (Hread _ (55 + Z.of_nat (length l))); [rewrite <-Z.add_assoc; apply Hkind; lia|lia|lia|].
    rewrite (proj2 (Z.ltb_ge _ _)) by lia.
    replace (Z.to_nat (55 + Z.of_nat (length l) - 55)) with (length l) by lia.
    rewrite take_app_length, drop_app_length, Hv. unfold len. by rewrite Nat2Z.id.
Qed.

Lemma read_item_bytes b rest :
  Forall is_byte b → Z.of_nat (length b) < 2 ^ 32 → read_item (encode_bytes b ++ rest) = Some (false, b, rest).
Proof.
  intros Hb Hlen. assert (read_item (encode_string b ++ rest) = Some (false, b, rest)) as Hs.
  { unfold encode_string. rewrite <-app_assoc, read_header by auto. done. }
  destruct b as [|x [|y b]]; [done| |done]. unfold encode_bytes.
  destruct (Z.ltb_spec x 128) as [Hx|]; [|done]. simpl. by rewrite (proj2 (Z.ltb_lt x 128)).
Qed.

Lemma read_item_list items rest :
  short items → read_item (encode_items items ++ rest) = Some (true, concat items, rest).
Proof. intros Hs. unfold encode_items. rewrite <-app_assoc, read_header by auto. done. Qed.

(** An item [x] that is read as [d] whatever follows. *)
Definition reads_as (x : list Z) (d : bool * list Z) : Prop :=
  x ≠ [] ∧ ∀ rest, read_item (x ++ rest) = Some (d.1, d.2, rest).

Lemma reads_as_unique x d1 d2 : reads_as x d1 → reads_as x d2 → d1 = d2.
Proof.
  intros [_ H1] [_ H2]. specialize (H1 []). specialize (H2 []). rewrite H1 in H2.
  destruct d1, d2. by simplify_eq/=.
Qed.

Lemma header_nonempty off len : header off len ≠ [].
Proof. unfold header. by case_match. Qed.

Lemma reads_as_bytes b :
  Forall is_byte b → Z.of_nat (length b) < 2 ^ 32 → reads_as (encode_bytes b) (false, b).
Proof.
  intros Hb Hlen. split; [|intros rest; by apply read_item_bytes].
  assert (encode_string b ≠ []) as Hs.
  { unfold encode_string. intros [He _]%app_eq_nil. by apply header_nonempty in He. }
  unfold encode_bytes. destruct b as [|x [|]]; [done| |done]. by case_match.
Qed.

Lemma reads_as_list items : short items → reads_as (encode_items items) (true, concat items).
Proof.
  intros Hs. split; [|intros rest; by apply read_item_list].
  unfold encode_items. intros [He _]%app_eq_nil. by apply header_nonempty in He.
Qed.

Lemma read_items_all xs ds n :
  Forall2 reads_as xs ds → (length xs ≤ n)%nat → read_items n (concat xs) = zip xs ds.
Proof.
  intros Hxs. revert n. induction Hxs as [|x [is_list payload] xs ds [Hne Hx] _ IH]; intros n Hn.
  { by destruct n. }
  destruct n as [|n]; simpl in Hn; [lia|]. cbn [concat zip zip_with].
  specialize (Hx (concat xs)). simpl in Hx.
  destruct (x ++ concat xs) as [|b l] eqn:Hl; [by apply app_eq_nil in Hl as [? _]|].
  cbn [read_items]. rewrite Hx, <-Hl. rewrite IH by lia. f_equal.
  rewrite length_app, Nat.add_sub, take_app_length. done.
Qed.

Lemma concat_length xs : Forall (λ x : list Z, x ≠ []) xs → (length xs ≤ length (concat xs))%nat.
Proof.
  induction 1 as [|x xs Hx _ IH]; [done|]. simpl. rewrite length_app.
  destruct x; [done|simpl; lia].
Qed.

Lemma items_of_list items ds :
  short items → Forall2 reads_as items ds → items_of (encode_items items) = zip items ds.
Proof.
  intros Hs Hr. unfold items_of. pose proof (read_item_list items [] Hs) as Hl. rewrite app_nil_r in Hl.
  rewrite Hl. apply read_items_all; [done|]. apply concat_length.
  clear -Hr. induction Hr as [|x d xs ds [Hx _] _ IH]; by constructor.
Qed.

(** The encodings of byte strings are no shorter than these. *)
Lemma encode_bytes_length b : (length b ≤ length (encode_bytes b))%nat.
Proof.
  assert (length b ≤ length (encode_string b))%nat by (unfold encode_string; rewrite length_app; lia).
  unfold encode_bytes. destruct b as [|x [|]]; [done| |done]. by case_match.
Qed.

Lemma header_length off len : (length (header off len) ≤ 5)%nat.
Proof.
  unfold header. case_match; [simpl; lia|]. cbn [length].
  pose proof (strip_props (be_bytes 4 (Z.of_nat len))) as [Hl _]. rewrite length_be_bytes in Hl. lia.
Qed.

Lemma short_elem items x : short items → x ∈ items → Z.of_nat (length x) < 2 ^ 32.
Proof.
  unfold short. intros Hs (l1 & l2 & ->)%list_elem_of_split. rewrite concat_app in Hs. cbn [concat] in Hs.
  rewrite !length_app in Hs. lia.
Qed.

Lemma list_encode_length items : (length (concat items) ≤ length (encode_items items))%nat.
Proof. unfold encode_items. rewrite length_app. lia. Qed.

Lemma item_reads x : rlp_item x → Z.of_nat (length x) < 2 ^ 32 → ∃ d, reads_as x d.
Proof.
  unfold rlp_item. change rlp_encode_bytes with encode_bytes. change rlp_encode_list with encode_items.
  intros [(b & Hb & ->)|(l & Hl & ->)] Hx.
  - eexists. apply reads_as_bytes; [done|]. pose proof (encode_bytes_length b). lia.
  - eexists. apply reads_as_list. unfold short.
    pose proof (list_encode_length (map encode_bytes l)). lia.
Qed.

Lemma items_read items :
  short items → Forall rlp_item items → ∃ ds, Forall2 reads_as items ds.
Proof.
  intros Hs Hi. assert (∀ x, x ∈ items → ∃ d, reads_as x d) as Hx.
  { intros x Hx. rewrite Forall_forall in Hi. apply item_reads; [by apply Hi|by eapply short_elem]. }
  clear Hs Hi. induction items as [|x items IH]; [by exists []|].
  destruct (Hx x) as [d Hd]; [set_solver|]. destruct IH as [ds Hds]; [set_solver|].
  exists (d :: ds). by constructor.
Qed.

(** The item at an index. *)
Lemma item_at items i x d :
  short items → Forall rlp_item items → items !! i = Some x → reads_as x d →
  items_of (encode_items items) !! i = Some (x, d).
Proof.
  intros Hs Hi Hx Hd. destruct (items_read items Hs Hi) as [ds Hds].
  rewrite (items_of_list items ds Hs Hds). apply lookup_zip_with_Some.
  destruct (Forall2_lookup_l _ _ _ _ _ Hds Hx) as (d' & Hd' & Hr).
  exists x, d'. by rewrite (reads_as_unique x d d' Hd Hr).
Qed.

Lemma bytes_at items i b :
  short items → Forall rlp_item items → items !! i = Some (encode_bytes b) → Forall is_byte b →
  val_at_bytes (encode_items items) i = Some b.
Proof.
  intros Hs Hi Hx Hb. unfold val_at_bytes. rewrite (item_at items i (encode_bytes b) (false, b)); try done.
  apply reads_as_bytes; [done|]. apply list_elem_of_lookup_2, (short_elem items _ Hs) in Hx.
  pose proof (encode_bytes_length b). lia.
Qed.

Lemma hashes_at n l :
  Forall (λ b, length b = n ∧ Forall is_byte b) l → short (map encode_bytes l) →
  mapM (λ x : list Z * (bool * list Z), b ← string_of x.2; hash_of n b)
    (read_items (length (concat (map encode_bytes l))) (concat (map encode_bytes l))) = Some l.
Proof.
  intros Hl Hs. assert (Forall2 reads_as (map encode_bytes l) (map (λ b, (false, b)) l)) as Hr.
  { rewrite Forall2_fmap_l, Forall2_fmap_r. apply Forall_Forall2_diag.
    rewrite Forall_forall in *. intros b Hb. apply reads_as_bytes; [by apply Hl|].
    apply (short_elem _ (encode_bytes b)) in Hs; [|by apply (list_elem_of_fmap_2 encode_bytes)].
    pose proof (encode_bytes_length b). lia. }
  rewrite (read_items_all _ _ _ Hr).
  2: { apply concat_length. clear -Hr. induction Hr as [|x d xs ds [Hx _] _ IH]; by constructor. }
  apply mapM_Some_2. clear Hs Hr.
  induction Hl as [|b l [Hb _] _ IH]; [constructor|]. constructor; [|exact IH].
  simpl. unfold hash_of. by rewrite Hb, Nat.eqb_refl.
Qed.

Lemma uint_roundtrip n z :
  (n ≤ 16)%nat → 0 ≤ z < 256 ^ Z.of_nat n → decode_uint n (encode_uint n z) = Some z.
Proof.
  intros Hn Hz. unfold decode_uint, encode_uint.
  pose proof (strip_props (be_bytes n z)) as (Hlen & Hhd & Hb). rewrite length_be_bytes in Hlen.
  pose proof (read_item_bytes (strip (be_bytes n z)) []) as Hr. rewrite app_nil_r in Hr.
  rewrite Hr by first [apply Hb, be_bytes_is_byte|lia].
  rewrite (proj2 (Nat.leb_le _ _)), bool_decide_eq_false_2 by done. simpl.
  rewrite strip_value, from_be_bytes_be_bytes. by rewrite Z.mod_small.
Qed.

#[export] Instance toy_rlp_laws : RlpLaws.
Proof.
  split; change rlp_encode_bytes with encode_bytes; change rlp_encode_list with encode_items;
    change rlp_val_at_hash with val_at_hash; change rlp_list_at_hash with list_at_hash.
  - apply uint_roundtrip.
  - intros n items i b Hs Hi Hx Hn Hb. unfold val_at_hash. rewrite (bytes_at items i b) by done.
    simpl. unfold hash_of. by rewrite Hn, Nat.eqb_refl.
  - apply bytes_at.
  - intros n items i l Hs Hi Hx Hl. unfold list_at_hash.
    assert (short (map encode_bytes l)) as Hsl.
    { pose proof (list_encode_length (map encode_bytes l)).
      pose proof (short_elem items _ Hs (list_elem_of_lookup_2 _ _ _ Hx)). unfold short. lia. }
    rewrite (item_at items i _ _ Hs Hi Hx (reads_as_list _ Hsl)). by apply hashes_at.
  - intros b _. assert (length (encode_string b) ≤ length b + 5)%nat as Hs.
    { unfold encode_string. rewrite length_app. pose proof (header_length 128 (length b)). lia. }
    unfold encode_bytes. destruct b as [|x [|]]; [done| |done]. case_match; [simpl; lia|done].
  - intros items _. unfold encode_items. rewrite length_app.
    pose proof (header_length 192 (length (concat items))). lia.
Qed.

End ToyRlp.

Import SimpleLedger ToyRlp.

(** ** The events of the tests of [evm_ingress_logs.rs] *)

Definition order_event : list Z :=
  [249; 1; 190; 148; 150; 80; 46; 240; 61; 236; 212; 170; 189; 54; 140; 196; 111; 92; 44; 34;
   166; 69; 148; 140; 248; 132; 160; 127; 28; 102; 99; 243; 185; 83; 150; 238; 94; 34; 211;
   245; 255; 242; 5; 140; 240; 145; 230; 32; 160; 177; 144; 126; 218; 1; 56; 179; 130; 200;
   182; 160; 226; 218; 35; 14; 82; 202; 236; 245; 40; 25; 11; 176; 242; 135; 103; 227; 224; 42;
   45; 241; 133; 188; 208; 112; 195; 240; 25; 83; 126; 77; 88; 68; 160; 0; 0; 0; 0; 0; 0; 0; 0;
   0; 0; 0; 0; 0; 0; 0; 0; 0; 0; 0; 0; 0; 0; 0; 0; 0; 0; 0; 0; 0; 0; 0; 0; 160; 0; 0; 0; 0; 0;
   0; 0; 0; 0; 0; 0; 0; 248; 90; 87; 217; 101; 174; 205; 40; 156; 98; 92; 174; 97; 97; 208;
   171; 81; 65; 188; 102; 185; 1; 32; 0; 0; 0; 0; 0; 0; 0; 0; 0; 0; 0; 0; 0; 0; 0; 0; 0; 0; 0;
   0; 0; 0; 0; 0; 0; 0; 0; 0; 0; 0; 0; 32; 0; 0; 0; 0; 0; 0; 0; 0; 0; 0; 0; 0; 0; 0; 0; 0; 0;
   0; 0; 0; 0; 0; 0; 0; 0; 0; 0; 0; 0; 0; 0; 224; 3; 3; 3; 3; 0; 0; 0; 0; 0; 0; 0; 0; 0; 0; 0;
   0; 0; 0; 0; 0; 0; 0; 0; 0; 0; 0; 0; 0; 0; 0; 0; 0; 0; 0; 232; 3; 0; 0; 0; 0; 0; 0; 0; 0; 0;
   0; 0; 0; 0; 0; 0; 0; 0; 0; 0; 0; 0; 0; 0; 0; 0; 0; 0; 0; 0; 0; 0; 0; 0; 0; 0; 0; 0; 0; 0; 0;
   0; 0; 0; 0; 0; 0; 0; 0; 0; 0; 0; 0; 0; 0; 0; 0; 0; 0; 0; 0; 0; 0; 0; 0; 0; 0; 0; 0; 0; 0; 0;
   0; 0; 0; 0; 0; 0; 0; 0; 0; 0; 0; 0; 0; 0; 0; 0; 0; 0; 0; 0; 100; 0; 0; 0; 0; 0; 0; 0; 0; 0;
   0; 0; 0; 0; 0; 0; 0; 0; 0; 0; 0; 0; 0; 0; 0; 0; 0; 0; 0; 0; 0; 0; 0; 0; 0; 0; 0; 0; 0; 0; 0;
   0; 0; 0; 0; 0; 0; 0; 0; 0; 0; 0; 0; 0; 0; 0; 0; 0; 0; 0; 0; 0; 0; 0; 10; 0; 0; 0; 0; 0; 0;
   0; 0; 0; 0; 0; 0; 0; 0; 0; 0; 0; 0; 0; 0; 0; 0; 0; 0; 0; 0; 0; 0; 0; 0; 0; 100].

Example order_event_read :
  match AbiRecode.recode_bytes_with_descriptor order_event (bytes_of remote_order_abi_descriptor)
          Rlp Scale tt with
  | Ok recoded _ => decode_with decode_order_log recoded
  | _ => None
  end = Some {|
    log_sfx_id := from_be_bytes [226; 218; 35; 14; 82; 202; 236; 245; 40; 25; 11; 176; 242; 135; 103;
      227; 224; 42; 45; 241; 133; 188; 208; 112; 195; 240; 25; 83; 126; 77; 88; 68];
    log_nonce := 0;
    log_sender := from_be_bytes [248; 90; 87; 217; 101; 174; 205; 40; 156; 98; 92; 174; 97; 97; 208;
      171; 81; 65; 188; 102];
    log_destination := [3; 3; 3; 3];
    log_asset := 65536000;
    log_target_account := 0;
    log_amount := 100;
    log_reward_asset := 0;
    log_insurance := 10;
    log_max_reward := 100;
  |}.
Proof. vm_compute. reflexivity. Qed.

Definition commit_event : list Z :=
  [249; 1; 60; 148; 132; 44; 17; 93; 17; 83; 156; 90; 247; 241; 220; 23; 18; 150; 244; 79; 32;
   206; 127; 220; 248; 99; 160; 131; 154; 190; 181; 84; 182; 84; 218; 33; 134; 224; 249; 100;
   233; 141; 162; 30; 103; 107; 12; 49; 119; 242; 86; 11; 76; 151; 103; 26; 47; 126; 160; 160;
   9; 9; 9; 9; 9; 9; 9; 9; 9; 9; 9; 9; 9; 9; 9; 9; 9; 9; 9; 9; 9; 9; 9; 9; 9; 9; 9; 9; 9; 9; 9;
   9; 160; 0; 0; 0; 0; 0; 0; 0; 0; 0; 0; 0; 0; 246; 31; 163; 159; 177; 55; 113; 11; 67; 131;
   224; 241; 38; 139; 177; 176; 156; 106; 126; 141; 184; 192; 0; 0; 0; 0; 0; 0; 0; 0; 0; 0; 0;
   0; 0; 0; 0; 0; 0; 0; 0; 0; 0; 0; 0; 0; 0; 0; 0; 23; 72; 118; 232; 0; 0; 0; 0; 0; 0; 0; 0; 0;
   0; 0; 0; 0; 0; 0; 0; 0; 0; 0; 0; 0; 0; 0; 0; 0; 0; 0; 0; 0; 0; 0; 0; 64; 0; 0; 0; 0; 0; 0;
   0; 0; 0; 0; 0; 0; 0; 0; 0; 0; 0; 0; 0; 0; 0; 0; 0; 0; 0; 0; 0; 0; 0; 0; 0; 65; 213; 110; 52;
   172; 165; 173; 81; 52; 52; 215; 60; 159; 90; 242; 92; 114; 227; 235; 45; 205; 0; 150; 150;
   164; 157; 155; 52; 25; 196; 82; 37; 7; 7; 255; 75; 86; 64; 98; 193; 152; 46; 176; 127; 181;
   64; 241; 237; 66; 39; 154; 122; 70; 122; 89; 29; 237; 142; 117; 165; 153; 105; 102; 62; 79;
   28; 0; 0; 0; 0; 0; 0; 0; 0; 0; 0; 0; 0; 0; 0; 0; 0; 0; 0; 0; 0; 0; 0; 0; 0; 0; 0; 0; 0; 0;
   0; 0].

Definition commit_to : list Z :=
  [246; 31; 163; 159; 177; 55; 113; 11; 67; 131; 224; 241; 38; 139; 177; 176; 156; 106; 126; 141].

Example commit_event_read :
  match AbiRecode.recode_bytes_with_descriptor commit_event
          (bytes_of instant_order_commit_abi_descriptor) Rlp Scale tt with
  | Ok recoded _ =>
      (λ l, (instant_sfx_id l, instant_to l, instant_amount l, length (instant_signature l)))
      <$> decode_with decode_instant_commit_log recoded
  | _ => None
  end = Some (from_be_bytes (replicate 32 9), from_be_bytes commit_to, 100 * 10 ^ 9, 65%nat).
Proof. vm_compute. reflexivity. Qed.

(** With the amount in the last word, the event confirms the transfer. *)
Example commit_event_confirms :
  (trimmed ← trim_signature commit_event;
   AbiRecode.validate_arguments_against_received get_sfx_transfer_asset_abi
     [le_bytes 4 0; replicate 12 0 ++ commit_to; le_bytes 16 (100 * 10 ^ 9)] trimmed Scale Rlp) tt
  = Ok tt tt.
Proof. vm_compute. reflexivity. Qed.

(** ** Descriptors *)

Lemma descriptor_roundtrip_witness :
  abi_try_from (print_abi transfer_event_abi) = ROk transfer_event_abi.
Proof. apply (descriptor_roundtrip transfer_event_abi); vm_compute; first [reflexivity|lia]. Defined.

Definition nested_fields : list Abi := [AH256 (named "id")].
Definition later_fields : list Abi := [AValue128 (named "amount"); AByte None].

Lemma nested_struct_absorbs_witness :
  abi_try_from (print_abi (AStruct (named "Outer") (AStruct (named "Inner") nested_fields :: later_fields)))
  = ROk (AStruct (named "Outer") [AStruct (named "Inner") (nested_fields ++ later_fields)]).
Proof.
  apply (nested_struct_absorbs (named "Outer") (named "Inner") nested_fields later_fields).
  - vm_compute. reflexivity.
  - repeat (apply Forall_cons_2; [split; [reflexivity|vm_compute; lia]|]). apply Forall_nil_2.
Defined.

(** ** Structures *)

Definition transfer_payload : list Z := 2 :: 2 :: replicate 32 1 ++ replicate 32 7 ++ le_bytes 16 500.

Lemma scale_payload_kept_witness :
  ∃ f, try_fill_abi transfer_event_abi transfer_payload Scale tt = Ok f tt ∧ get_data f = transfer_payload.
Proof. apply (scale_payload_kept transfer_event_abi transfer_payload); vm_compute; reflexivity. Defined.

Definition transfer_fields : list Abi := [AAccount32 (named "to"); AValue128 (named "amount")].
Definition transfer_args : list (list Z) := [replicate 32 7; le_bytes 16 500].

Lemma ordered_arguments_need_prefix_witness :
  (∃ fs, AbiRecode.validate_ordered_arguments (set_prefix_memo 2 get_sfx_transfer_abi) transfer_args Scale tt
         = Ok (FStruct (named "Transfer") fs 2) tt ∧
         map get_data fs = transfer_args ∧ map filled_name fs = map abi_get_name transfer_fields) ∧
  AbiRecode.validate_ordered_arguments get_sfx_transfer_abi transfer_args Scale tt
  = Err (Other "RecodeScale::chop_encoded - not enough data to decode") tt.
Proof.
  assert (args_fit transfer_fields transfer_args) as Hfit by (repeat constructor).
  split.
  - apply (ordered_arguments_need_prefix (set_prefix_memo 2 get_sfx_transfer_abi) (named "Transfer")
      transfer_fields transfer_args); [vm_compute; reflexivity|reflexivity|exact Hfit|discriminate|reflexivity].
  - apply (ordered_arguments_need_prefix get_sfx_transfer_abi (named "Transfer")
      transfer_fields transfer_args); [vm_compute; reflexivity|reflexivity|exact Hfit|discriminate|reflexivity].
Defined.

Lemma deal_arguments_unchecked_witness :
  AbiRecode.validate_ordered_arguments get_dynamic_destination_deal_abi [[1]; [2; 3]] Scale tt
  = Ok (FTuple (named "DynamicDestinationDeal")
          (FValue32 (named "asset_id") [1; 2; 3]) (FValue128 (named "amount") [])) tt.
Proof. apply (deal_arguments_unchecked [1] [2; 3]); discriminate. Defined.

(** ** Logs *)

Definition huge_amount : Z := 2 ^ 128.
Definition huge_log : Eth2IngressEventLog :=
  mkEthLog (be_bytes 20 5) [be_bytes 32 1; be_bytes 32 2; be_bytes 32 3] (be_bytes 32 huge_amount).

Lemma huge_log_ok : eth_log_ok huge_log.
Proof.
  unfold eth_log_ok. cbn [eth_log_address eth_log_topics eth_log_data huge_log].
  split_and!; try (by apply be_bytes_is_byte).
  - reflexivity.
  - repeat (apply Forall_cons_2; [apply be_bytes_hash|]). apply Forall_nil_2.
  - vm_compute. reflexivity.
Qed.

(** The log of a transfer of [2 ^ 128]. *)
Lemma token_transfer_checked_witness :
  AbiRecode.validate_arguments_against_received get_sfx_transfer_asset_abi
    [le_bytes 4 0; replicate 12 0 ++ drop 12 (be_bytes 32 3); le_bytes 16 500]
    (encode_eth_log huge_log) Scale Rlp tt = Panic.
Proof.
  rewrite (token_transfer_checked huge_log (be_bytes 32 1) [] (be_bytes 32 2) (be_bytes 32 3)
    (be_bytes 32 huge_amount) (le_bytes 4 0) (le_bytes 16 500) huge_log_ok eq_refl eq_refl eq_refl
    ltac:(discriminate)).
  vm_compute. reflexivity.
Defined.

(** ** The vacuum with the recoding of [AbiRecode] *)

#[local] Instance abi_vacuum : VacuumConfig (AMState ledger) bool := {|
  vacuum_minimum_balance := 1;
  Vacuum.recode_bytes_with_descriptor := λ bytes descriptor in_codec out_codec,
    match AbiRecode.recode_bytes_with_descriptor bytes (bytes_of descriptor) in_codec out_codec tt with
    | Ok recoded _ => ROk recoded
    | Err e _ => RErr e
    | Panic => RErr (Other "trap")
    end;
  get_token_by_eth_address := λ _ _ eth,
    ROk (mkTokenRecord 4 self_gateway (TokenEthereum (mkEthereumToken [] 18 (Some eth))));
  get_remote_order_contract_address := λ _ _, ROk 11;
  get_remote_bidding_contract_address := λ _ _, ROk 12;
  get_escrow_account := λ _ _, ROk (be_bytes 32 13);
  is_target_active := λ active _ _, active;
  list_available_mint_assets := λ _ _, [];
  check_asset_is_mintable := λ _ _ _, true;
  xdns_mint := λ _ asset who amt s, Ok tt (deposit_immediately who amt (Some asset) s);
  get_self_token_id := λ _, 4;
  into_account_id := λ _ e, e;
  repatriate_for_faulty_or_missing_attestation := λ _ _ _ _ s, (s, true);
|}.

Lemma abi_vacuum_recodes : recodes_with_abi.
Proof.
  intros bytes descriptor recoded. cbn [Vacuum.recode_bytes_with_descriptor abi_vacuum].
  destruct (AbiRecode.recode_bytes_with_descriptor _ _ _ _ tt) as [r []|e []|]; naive_solver.
Qed.

Lemma bytes_checked l : forallb (λ b, (0 <=? b) && (b <? 256)) l = true → Forall is_byte l.
Proof.
  intros Hl. apply Forall_forall. intros b Hb%list_elem_of_In. rewrite forallb_forall in Hl.
  specialize (Hl b Hb). unfold is_byte. lia.
Qed.

Definition logged_order : Eth2IngressEventLog :=
  order_eth_log (be_bytes 20 9) (be_bytes 32 1) (be_bytes 32 32 ++ be_bytes 32 224)
    OrderSamples.order_log.

Lemma logged_order_ok : eth_log_ok logged_order.
Proof.
  unfold eth_log_ok, logged_order, order_eth_log. cbn [eth_log_address eth_log_topics eth_log_data].
  split_and!.
  - reflexivity.
  - apply be_bytes_is_byte.
  - repeat (apply Forall_cons_2; [apply be_bytes_hash|]). apply Forall_nil_2.
  - apply bytes_checked. vm_compute. reflexivity.
  - vm_compute. reflexivity.
Qed.


Lemma fault_proofs_refused_witness :
  ¬ ∃ r v', evm_submit_fault_proof (Signed bob) good_proof v0 = Ok r v'.
Proof. exact (fault_proofs_refused v0 (Signed bob) good_proof abi_vacuum_recodes). Defined.

(** ** Liquidity *)

Definition liquidity_args : list (list Z) :=
  [replicate 32 1; replicate 32 2; replicate 32 3; replicate 32 4; replicate 16 5; replicate 16 6;
   replicate 16 7].

(** The names list the assets before the amounts, the descriptor the amounts
    before the assets: [amount_left] gets the first half of [asset_left]. *)
Example liquidity_arguments_mixed :
  map fst (args_names get_add_liquidity_abi) =
    map bytes_of ["to"; "asset_left"; "asset_right"; "liquidity_token"; "amount_left";
                  "amount_right"; "amount_liquidity_token"] ∧
  match AbiRecode.validate_ordered_arguments (set_prefix_memo 2 get_add_liquidity_abi) liquidity_args
          Scale tt with
  | Ok filled _ => get_data_by_name (bytes_of "amount_left") filled
  | _ => None
  end = Some (replicate 16 2).
Proof. split; vm_compute; reflexivity. Qed.
