(* ===== verification/JustificationFacts.v ===== *)
(** * What a justification proves

    The loop of [verify_justification] walks every header of the ancestry at most
    once and keeps sets and a sum; here is what it decides.

    - [walk]: the headers from a hash up to the target, by parent links.
    - [counted]: the first precommit of every known authority.
    - [ensure_descendant_spec]: the walk that stops at the first header met before
      decides descent, and marks exactly the headers of the walk.
    - [justification_accepted_iff]: accepted exactly when the counted votes are
      valid, reach the threshold and use every header of the ancestry; the [expect]
      never traps.

    That the parents of a hash chain have no cycle is a hypothesis ([acyclic]). *)

From S2P Require Import Prelude Types Justification.

(** ** Walks *)

(** [walk ps t h l]: following parents from [h] leads to [t], through [l]. *)
Inductive walk (ps : gmap Hash Hash) (t : Hash) : Hash → list Hash → Prop :=
| walk_here : walk ps t t []
| walk_up h p l : h ≠ t → ps !! h = Some p → walk ps t p l → walk ps t h (h :: l).

Definition descendant (ps : gmap Hash Hash) (t h : Hash) : Prop := ∃ l, walk ps t h l.

(** A rank that falls along the parents: the links of a hash chain are no cycle. *)
Definition acyclic (ps : gmap Hash Hash) : Prop :=
  ∃ rank : Hash → nat, ∀ h p, ps !! h = Some p → (rank p < rank h)%nat.

Lemma walk_functional ps t h l l' : walk ps t h l → walk ps t h l' → l = l'.
Proof.
  intros Hw. revert l'. induction Hw as [|h p l Hne Hp Hw IH]; inversion 1; simplify_eq; try done.
  f_equal. by apply IH.
Qed.

Lemma walk_suffix ps t h l x : walk ps t h l → x ∈ l → ∃ l', walk ps t x l' ∧ l' ⊆ l.
Proof.
  induction 1 as [|h p l Hne Hp Hw IH]; intros Hx; [by apply elem_of_nil in Hx|].
  apply elem_of_cons in Hx as [->|Hx].
  - exists (h :: l). split; [by econstructor|done].
  - destruct (IH Hx) as (l' & Hw' & Hsub). exists l'. split; [done|set_solver].
Qed.

Lemma walk_dom ps t h l x : walk ps t h l → x ∈ l → x ∈ dom ps.
Proof.
  induction 1 as [|h p l Hne Hp Hw IH]; intros Hx; [by apply elem_of_nil in Hx|].
  apply elem_of_cons in Hx as [->|Hx]; [by apply elem_of_dom|by apply IH].
Qed.

Lemma walk_rank ps t (rank : Hash → nat) h l x :
  (∀ h p, ps !! h = Some p → (rank p < rank h)%nat) →
  walk ps t h l → x ∈ l → (rank x ≤ rank h)%nat.
Proof.
  intros Hr. induction 1 as [|h p l Hne Hp Hw IH]; intros Hx; [by apply elem_of_nil in Hx|].
  apply elem_of_cons in Hx as [->|Hx]; [done|].
  specialize (IH Hx). specialize (Hr _ _ Hp). lia.
Qed.

(** ** The ancestry *)

(** What has been visited is closed under walking. *)
Definition visited_closed (ps : gmap Hash Hash) (t : Hash) (unv : gset Hash) : Prop :=
  ∀ h, h ∈ dom ps → h ∉ unv → ∃ l, walk ps t h l ∧ ∀ x, x ∈ l → x ∉ unv.

Section Descent.
Context {S : Type} (ps : gmap Hash Hash) (t : Hash) (unv0 : gset Hash).
Context (rank : Hash → nat) (Hrank : ∀ h p, ps !! h = Some p → (rank p < rank h)%nat).
Context (Hclosed : visited_closed ps t unv0).

(** [acc] holds the headers visited by this call, all of them above [h]. *)
Lemma descendant_loop_spec fuel unv acc h (s : S) :
  unv = unv0 ∖ acc → (∀ a, a ∈ acc → (rank h < rank a)%nat) → (size unv < fuel)%nat →
  (∃ l, walk ps t h l ∧
     ensure_descendant_loop fuel (mkChain ps unv) t h s =
     Ok (mkChain ps (unv ∖ list_to_set l)) s) ∨
  (¬ descendant ps t h ∧
     ensure_descendant_loop fuel (mkChain ps unv) t h s = Err PrecommitIsNotCommitDescendant s).
Proof.
  revert unv acc h. induction fuel as [|fuel IH]; intros unv acc h Hunv Hacc Hf; [lia|].
  simpl. case_bool_decide as Ht.
  { left. exists []. subst h. split; [constructor|]. unfold mret, M_ret. do 2 f_equal. set_solver. }
  destruct (ps !! h) as [p|] eqn:Hp; last first.
  { right. split; [|done]. intros [l Hw]. inversion Hw; congruence. }
  assert (h ∉ acc) as Hna by (intros Ha; specialize (Hacc _ Ha); lia).
  case_bool_decide as Hv.
  - left. destruct (Hclosed h) as (l & Hw & Hl); [by apply elem_of_dom| set_solver|].
    exists l. split; [done|]. unfold mret, M_ret. do 2 f_equal. set_solver.
  - assert (size (unv ∖ {[h]}) < fuel)%nat as Hf'.
    { assert (size (unv ∖ {[h]}) < size unv)%nat by (apply subset_size; set_solver). lia. }
    destruct (IH (unv ∖ {[h]}) ({[h]} ∪ acc) p) as [(l & Hw & Hl)|[Hn Hl]]; try done.
    + set_solver.
    + intros a [->%elem_of_singleton|Ha]%elem_of_union; [by apply Hrank|].
      specialize (Hacc a Ha). specialize (Hrank _ _ Hp). lia.
    + left. exists (h :: l). split; [by econstructor|]. rewrite Hl. do 2 f_equal. set_solver.
    + right. split; [|done]. intros [l Hw]. apply Hn. inversion Hw; simplify_eq. by eexists.
Qed.

End Descent.

Lemma ensure_descendant_spec {S} ps t unv h (s : S) :
  acyclic ps → visited_closed ps t unv →
  (∃ l, walk ps t h l ∧
     ensure_descendant (mkChain ps unv) t h s = Ok (mkChain ps (unv ∖ list_to_set l)) s) ∨
  (¬ descendant ps t h ∧
     ensure_descendant (mkChain ps unv) t h s = Err PrecommitIsNotCommitDescendant s).
Proof.
  intros [rank Hr] Hc. unfold ensure_descendant.
  apply (descendant_loop_spec ps t unv rank Hr Hc _ unv ∅); [set_solver|set_solver|simpl; lia].
Qed.

(** ** Counted votes *)

#[local] Arguments ensure_descendant : simpl never.
#[local] Arguments bool_decide : simpl never.

Section Votes.
Context `{GrandpaLaws}.

(** The first precommit of every authority of the set that is not in [seen]. *)
Fixpoint counted (vs : VoterSet) (seen : gset AuthorityId) (l : list SignedPrecommit)
  : list SignedPrecommit :=
  match l with
  | [] => []
  | s :: l =>
    if bool_decide (voter_weight vs (vote_id s) ≠ None ∧ vote_id s ∉ seen)
    then s :: counted vs ({[vote_id s]} ∪ seen) l
    else counted vs seen l
  end.

(** A vote that supports the target: not below it, for a descendant of it, signed. *)
Definition supports (sid : SetId) (j : GrandpaJustification) (ps : gmap Hash Hash)
    (s : SignedPrecommit) : Prop :=
  target_number (commit j) ≤ precommit_number (precommit s) ∧
  descendant ps (target_hash (commit j)) (precommit_hash (precommit s)) ∧
  check_message_signature (precommit s) (vote_id s) (vote_signature s) (round j) sid = true.

(** The header [h] lies on the walk of the vote [s]. *)
Definition on_walk (j : GrandpaJustification) (ps : gmap Hash Hash) (s : SignedPrecommit)
    (h : Hash) : Prop :=
  ∃ l, walk ps (target_hash (commit j)) (precommit_hash (precommit s)) l ∧ h ∈ l.

Context (sid : SetId) (vs : VoterSet) (j : GrandpaJustification) (ps : gmap Hash Hash).
Context (Hacyclic : acyclic ps).

(** The local variables after the votes [seen] have been counted. *)
Record votes_inv (seen : list SignedPrecommit) (st : VoteState) : Prop := {
  vi_parents : parents (vote_chain st) = ps;
  vi_unvisited : unvisited (vote_chain st) ⊆ dom ps;
  vi_visited h : h ∈ dom ps →
    h ∉ unvisited (vote_chain st) ↔ ∃ s, s ∈ seen ∧ on_walk j ps s h;
  vi_votes i : i ∈ votes st ↔ i ∈ map vote_id seen;
  vi_distinct : NoDup (map vote_id seen);
  vi_support : Forall (supports sid j ps) seen;
  vi_weight : cumulative_weight st = weight_sum vs seen;
}.

Lemma votes_inv_closed seen st :
  votes_inv seen st → visited_closed ps (target_hash (commit j)) (unvisited (vote_chain st)).
Proof.
  intros Hi h Hd Hv. apply (vi_visited _ _ Hi h Hd) in Hv as (s & Hs & l & Hw & Hl).
  destruct (walk_suffix _ _ _ _ _ Hw Hl) as (l' & Hw' & Hsub). exists l'. split; [done|].
  intros x Hx. apply (vi_visited _ _ Hi); [by eapply walk_dom|].
  exists s. split; [done|]. exists l. split; [done|by apply Hsub].
Qed.

Lemma weight_sum_app l k : weight_sum vs (l ++ k) = weight_sum vs l + weight_sum vs k.
Proof. unfold weight_sum. induction l as [|x l IH]; simpl; [lia|]. rewrite IH. lia. Qed.

Lemma weight_sum_u64 l : NoDup (map vote_id l) → weight_sum vs l ≤ u64_max.
Proof.
  intros Hn. pose proof (voter_weight_total vs l Hn). pose proof (total_weight_u64 vs). lia.
Qed.

(** A vote that is counted enters the invariant; what is refused supports nothing. *)
Lemma count_vote_spec seen st s w :
  votes_inv seen st → voter_weight vs (vote_id s) = Some w → vote_id s ∉ votes st →
  match count_precommit sid vs j s st with
  | Ok _ st' => votes_inv (seen ++ [s]) st' ∧ votes st' = {[vote_id s]} ∪ votes st
  | Err _ _ => ¬ supports sid j ps s
  | Panic => False
  end.
Proof.
  intros Hi Hw Hv. destruct st as [[ps' unv] vt cw].
  pose proof (vi_parents _ _ Hi) as Hps. simpl in Hps. subst ps'.
  unfold count_precommit. rewrite Hw. unfold mbind, M_bind, gets, modify, ensure. cbn.
  rewrite bool_decide_false by done. cbn.
  destruct (target_number _ <=? _) eqn:Hn; cbn; last by (apply Z.leb_gt in Hn; intros [Hle _]; lia).
  destruct (ensure_descendant_spec ps (target_hash (commit j)) unv
    (precommit_hash (precommit s)) (mkVoteState (mkChain ps unv) ({[vote_id s]} ∪ vt) cw)
    Hacyclic (votes_inv_closed _ _ Hi)) as [(l & Hl & Ed)|[Hnd Ed]];
    rewrite Ed; cbn; last by (intros (_ & ? & ?); congruence).
  assert (NoDup (map vote_id (seen ++ [s]))) as Hdist.
  { rewrite map_app. apply NoDup_app. split_and!; [apply Hi| |apply NoDup_singleton].
    intros i Hin. apply (vi_votes _ _ Hi) in Hin. cbn in *. set_solver. }
  assert (weight_sum vs (seen ++ [s]) = cw + w) as Hsum.
  { rewrite weight_sum_app. rewrite <- (vi_weight _ _ Hi). simpl. unfold weight_of. rewrite Hw.
    simpl. lia. }
  pose proof (weight_sum_u64 _ Hdist) as Hu. rewrite Hsum in Hu.
  unfold checked_add. rewrite (proj2 (Z.leb_le _ _) Hu). cbn.
  destruct (check_message_signature _ _ _ _ _) eqn:Hsig; cbn; last by (intros (_ & ? & ?); congruence).
  split; [|done]. split; cbn; try done.
  - pose proof (vi_unvisited _ _ Hi). cbn in *. set_solver.
  - intros h Hd. pose proof (vi_visited _ _ Hi h Hd) as Hvis. cbn in Hvis.
    rewrite not_elem_of_difference, elem_of_list_to_set, Hvis.
    setoid_rewrite elem_of_app. setoid_rewrite list_elem_of_singleton.
    assert (h ∈ l ↔ on_walk j ps s h) as ->; [|naive_solver].
    split; [by exists l|]. intros (l' & Hw' & Hin). by rewrite (walk_functional _ _ _ _ _ Hl Hw').
  - intros i. rewrite map_app, elem_of_app, <- (vi_votes _ _ Hi). cbn. set_solver.
  - apply Forall_app. split; [apply Hi|]. apply Forall_singleton. apply Z.leb_le in Hn.
    split; [done|]. split; [by eexists|done].
Qed.

Lemma count_votes_spec l seen st :
  votes_inv seen st →
  match for_each l (count_precommit sid vs j) st with
  | Ok _ st' => votes_inv (seen ++ counted vs (votes st) l) st'
  | Err _ _ => ¬ Forall (supports sid j ps) (counted vs (votes st) l)
  | Panic => False
  end.
Proof.
  revert seen st. induction l as [|s l IH]; intros seen st Hi; [by rewrite app_nil_r|].
  cbn [for_each counted]. unfold mbind, M_bind. destruct (decide (vote_id s ∈ votes st)) as [Hin|Hin].
  - rewrite (bool_decide_false (_ ∧ _)) by naive_solver. unfold count_precommit, gets, mbind, M_bind.
    destruct (voter_weight vs (vote_id s)); cbn; [rewrite bool_decide_true by done; cbn|]; by apply IH.
  - destruct (voter_weight vs (vote_id s)) as [w|] eqn:Hw.
    + rewrite bool_decide_true by done. pose proof (count_vote_spec seen st s w Hi Hw Hin) as Hs.
      destruct (count_precommit sid vs j s st) as [[] st'|e st'|]; [|by rewrite Forall_cons; naive_solver|done].
      destruct Hs as [Hi' Hv]. specialize (IH _ _ Hi'). rewrite Hv, <- app_assoc in IH.
      destruct (for_each _ _ st'); [done| |done]. rewrite Forall_cons. naive_solver.
    + rewrite bool_decide_false by naive_solver. unfold count_precommit. rewrite Hw. cbn. by apply IH.
Qed.

Lemma initial_votes_inv : ps = parents (AncestryChain_new (votes_ancestries j)) →
  unvisited (AncestryChain_new (votes_ancestries j)) = dom ps →
  votes_inv [] (initial_votes j).
Proof.
  intros Hps Hu. split; cbn; try done.
  - by rewrite Hu.
  - intros h Hd. rewrite Hu. split; [done|]. intros (s & Hs & _). by apply elem_of_nil in Hs.
  - set_solver.
  - constructor.
Qed.

End Votes.

(** ** The verdict *)

Lemma ancestry_unvisited `{GrandpaLib} l c :
  unvisited c = dom (parents c) →
  unvisited (fold_left chain_insert l c) = dom (parents (fold_left chain_insert l c)).
Proof.
  revert c. induction l as [|h l IH]; intros c Hc; [done|]. apply IH. cbn.
  by rewrite dom_insert_L, Hc.
Qed.

(** ** Totality *)

(** No cycle has to be excluded for the loop to end within its rounds. *)
Lemma descendant_loop_total {S} fuel c t h (s : S) :
  (size (unvisited c) < fuel)%nat →
  (∃ c', ensure_descendant_loop fuel c t h s = Ok c' s) ∨
  ensure_descendant_loop fuel c t h s = Err PrecommitIsNotCommitDescendant s.
Proof.
  revert c h. induction fuel as [|fuel IH]; intros c h Hf; [lia|]. cbn.
  case_bool_decide; [by left; eexists|]. destruct (parents c !! h); [|by right].
  case_bool_decide as Hv; [by left; eexists|]. apply IH. cbn.
  assert (size (unvisited c ∖ {[h]}) < size (unvisited c))%nat; [apply subset_size; set_solver|lia].
Qed.

Section Total.
Context `{GrandpaLaws}.
Context (sid : SetId) (vs : VoterSet) (j : GrandpaJustification).

(** The running sum is the weight of distinct voters. *)
Definition sum_inv (st : VoteState) : Prop :=
  ∃ seen, (∀ i, i ∈ votes st ↔ i ∈ map vote_id seen) ∧ NoDup (map vote_id seen) ∧
          cumulative_weight st = weight_sum vs seen.

Lemma count_precommit_total s st :
  sum_inv st → wp (count_precommit sid vs j s) (λ _ st', sum_inv st') (λ _ _, True) st.
Proof.
  intros (seen & Hv & Hd & Hw). unfold wp, count_precommit, mbind, M_bind, gets, modify, ensure.
  destruct (voter_weight vs (vote_id s)) as [w|] eqn:Ew; cbn; [|by exists seen].
  case_bool_decide as Hin; cbn; [by exists seen|]. destruct (_ <=? _); cbn; [|done].
  destruct (descendant_loop_total (Datatypes.S (size (unvisited (vote_chain st)))) (vote_chain st)
    (target_hash (commit j)) (precommit_hash (precommit s))
    (mkVoteState (vote_chain st) ({[vote_id s]} ∪ votes st) (cumulative_weight st)))
    as [[c Ec]|Ec]; [lia| |]; unfold ensure_descendant; rewrite Ec; [|done]. cbn.
  assert (NoDup (map vote_id (s :: seen))) as Hd'.
  { cbn. constructor; [|done]. by rewrite <- Hv. }
  assert (weight_sum vs (s :: seen) = cumulative_weight st + w) as Hs.
  { rewrite Hw. unfold weight_sum at 1. cbn. unfold weight_of at 1. rewrite Ew. cbn.
    unfold weight_sum. lia. }
  pose proof (weight_sum_u64 vs _ Hd') as Hu. rewrite Hs in Hu. unfold checked_add.
  rewrite (proj2 (Z.leb_le _ _) Hu). cbn. destruct (check_message_signature _ _ _ _ _); [|done].
  exists (s :: seen). split_and!; cbn; [|done|done]. intros i. specialize (Hv i). set_solver.
Qed.

(** The verification leaves the state and never traps. *)
Lemma verification_total {S} target (s : S) :
  verify_justification target sid vs j s = Ok tt s ∨
  ∃ e, verify_justification target sid vs j s = Err e s.
Proof.
  assert (sum_inv (initial_votes j)) as Hi.
  { exists []. split_and!; cbn; [set_solver|constructor|done]. }
  pose proof (wp_for_each sum_inv (count_precommit sid vs j) (precommits (commit j)) (λ _ _, True)
    _ (λ a st _ Hst, count_precommit_total a st Hst) Hi) as Hl.
  unfold wp in Hl. unfold verify_justification, mbind, M_bind, ensure.
  case_bool_decide; cbn; [|eauto]. destruct (for_each _ _ _); cbn; [|eauto|done].
  case_bool_decide; cbn; [|eauto]. destruct (_ <=? _); cbn; eauto.
Qed.

End Total.

Section Verdict.
Context `{GrandpaLaws}.
Context (sid : SetId) (vs : VoterSet) (j : GrandpaJustification).

Definition ancestry : gmap Hash Hash := parents (AncestryChain_new (votes_ancestries j)).
Definition counted_votes : list SignedPrecommit := counted vs ∅ (precommits (commit j)).

(** What the verification means: the target is the expected one, every counted vote
    supports it, every header of the ancestry is needed, the weight suffices. *)
Record justified (target : Hash * BlockNumber) : Prop := {
  just_target : (target_hash (commit j), target_number (commit j)) = target;
  just_support : Forall (supports sid j ancestry) counted_votes;
  just_needed h : h ∈ dom ancestry → ∃ s, s ∈ counted_votes ∧ on_walk j ancestry s h;
  just_weight : voter_threshold vs ≤ weight_sum vs counted_votes;
}.

Lemma verdict_spec {S} (target : Hash * BlockNumber) (s : S) :
  acyclic ancestry →
  (verify_justification target sid vs j s = Ok tt s ↔ justified target) ∧
  (verify_justification target sid vs j s ≠ Ok tt s →
     ∃ e, verify_justification target sid vs j s = Err e s).
Proof.
  intros Hac. pose proof (count_votes_spec sid vs j ancestry Hac (precommits (commit j)) []
    (initial_votes j)) as Hloop.
  assert (votes_inv sid vs j ancestry [] (initial_votes j)) as Hi0.
  { apply initial_votes_inv; try done. by apply ancestry_unvisited. }
  specialize (Hloop Hi0). unfold verify_justification, mbind, M_bind, ensure.
  case_bool_decide as Ht; cbn [negb]; last first.
  { cbn. split; [split; [done|by intros []]|eauto]. }
  cbn. destruct (for_each _ _ _) as [[] st|e st|]; [| |done]; last first.
  { cbn. split; [split; [done|by intros []]|eauto]. }
  cbn in Hloop. change (counted vs ∅ (precommits (commit j))) with counted_votes in Hloop.
  assert (unvisited (vote_chain st) = ∅ ↔
    ∀ h, h ∈ dom ancestry → ∃ s, s ∈ counted_votes ∧ on_walk j ancestry s h) as Hun.
  { split.
    - intros He h Hd. apply (vi_visited _ _ _ _ _ _ Hloop h Hd). rewrite He. set_solver.
    - intros Hall. apply elem_of_equiv_empty_L. intros h Hh.
      assert (h ∈ dom ancestry) as Hd by by apply (vi_unvisited _ _ _ _ _ _ Hloop).
      by apply (vi_visited _ _ _ _ _ _ Hloop h Hd) in Hh; [|apply Hall]. }
  case_bool_decide as He; cbn; last first.
  { split; [split; [done|]|eauto]. intros Hj. destruct He. apply Hun, Hj. }
  rewrite (vi_weight _ _ _ _ _ _ Hloop). destruct (_ <=? _) eqn:Hw; cbn.
  - split; [|done]. split; [|done]. intros _. split; [done|apply Hloop|by apply Hun|].
    by apply Z.leb_le.
  - split; [|eauto]. split; [done|]. intros Hj. apply Z.leb_gt in Hw.
    pose proof (just_weight _ Hj). lia.
Qed.

Lemma verdict_justified {S} target (s : S) :
  acyclic ancestry → verify_justification target sid vs j s = Ok tt s → justified target.
Proof. intros Ha Hv. by apply (verdict_spec target s Ha). Qed.

(** C22: The verification of a justification accepts exactly the justified targets:
    the bookkeeping of the loop (visited headers, seen authorities, running sum)
    decides the declarative condition, changes nothing, and the [expect] on the sum
    of the weights never traps. *)
Theorem justification_accepted_iff {S} (target : Hash * BlockNumber) (s : S) :
  acyclic ancestry →
  (verify_justification target sid vs j s = Ok tt s ↔ justified target) ∧
  (verify_justification target sid vs j s ≠ Ok tt s →
     ∃ e, verify_justification target sid vs j s = Err e s).
Proof. apply verdict_spec. Qed.

End Verdict.

(** ** Quorums *)

Section Quorum.
Context `{GrandpaLaws}.
Context (vs : VoterSet).

Lemma counted_spec seen l :
  NoDup (map vote_id (counted vs seen l)) ∧
  (∀ s, s ∈ counted vs seen l → (vote_id s ∉ seen) ∧ s ∈ l ∧ is_Some (voter_weight vs (vote_id s))).
Proof.
  revert seen. induction l as [|s l IH]; intros seen; cbn [counted].
  { split; [constructor|]. intros s Hs. by apply elem_of_nil in Hs. }
  case_bool_decide as Hb.
  - destruct (IH ({[vote_id s]} ∪ seen)) as [Hn Hall], Hb as [Hw Hs]. cbn [map]. split.
    + constructor; [|done]. intros Hin. apply list_elem_of_fmap in Hin as (s' & E & Hin).
      destruct (Hall _ Hin) as [Hns _]. set_solver.
    + intros s' [->|Hin]%elem_of_cons; [|destruct (Hall _ Hin) as (? & ? & ?); set_solver].
      split_and!; [done|left|]. by destruct (voter_weight vs (vote_id s)).
  - destruct (IH seen) as [Hn Hall]. split; [done|]. intros s' Hin.
    destruct (Hall _ Hin) as (? & ? & ?). split_and!; [done|by right|done].
Qed.

Definition in_ids (ids : list AuthorityId) (s : SignedPrecommit) : bool :=
  bool_decide (vote_id s ∈ ids).

Lemma weight_sum_split (p : SignedPrecommit → bool) l :
  weight_sum vs l =
  weight_sum vs (List.filter p l) + weight_sum vs (List.filter (λ s, negb (p s)) l).
Proof.
  unfold weight_sum. induction l as [|s l IH]; cbn; [done|]. rewrite IH.
  destruct (p s); cbn; lia.
Qed.

(** Two quorums of distinct voters have more than a third of the weight in common. *)
Lemma quorums_meet A B :
  NoDup (map vote_id A) → NoDup (map vote_id B) →
  voter_threshold vs ≤ weight_sum vs A → voter_threshold vs ≤ weight_sum vs B →
  total_weight vs < 3 * weight_sum vs (List.filter (in_ids (map vote_id A)) B).
Proof.
  intros HA HB HtA HtB. pose proof (weight_sum_split (in_ids (map vote_id A)) B) as Hs.
  set (R := List.filter (λ s, negb (in_ids (map vote_id A) s)) B) in *.
  assert (NoDup (map vote_id (A ++ R))) as Hn.
  { rewrite map_app. apply NoDup_app. split_and!; [done| |by apply NoDup_map_filter].
    intros i Hi Hr. apply list_elem_of_fmap in Hr as (s & -> & Hr).
    apply list_elem_of_In, filter_In in Hr as [_ Hr]. unfold in_ids in Hr.
    by rewrite bool_decide_true in Hr. }
  pose proof (voter_weight_total vs _ Hn) as Ht. rewrite weight_sum_app in Ht.
  pose proof (voter_threshold_two_thirds vs). lia.
Qed.

(** C25: Two justifications accepted under the same set of voters, for any two
    targets, rounds and set identifiers, have authorities in common that signed in
    both and hold more than a third of the weight: conflicting blocks can only be
    finalised with that much equivocation. *)
Theorem finality_needs_equivocation {S} (j1 j2 : GrandpaJustification) (t1 t2 : Hash * BlockNumber)
    (sid1 sid2 : SetId) (s : S) :
  acyclic (ancestry j1) → acyclic (ancestry j2) →
  verify_justification t1 sid1 vs j1 s = Ok tt s →
  verify_justification t2 sid2 vs j2 s = Ok tt s →
  ∃ common : list SignedPrecommit,
    total_weight vs < 3 * weight_sum vs common ∧ NoDup (map vote_id common) ∧
    ∀ v, v ∈ common →
      v ∈ precommits (commit j2) ∧ supports sid2 j2 (ancestry j2) v ∧
      ∃ v', v' ∈ precommits (commit j1) ∧ vote_id v' = vote_id v ∧
            supports sid1 j1 (ancestry j1) v'.
Proof.
  intros Ha1 Ha2 Hj1 Hj2.
  pose proof (verdict_justified _ _ _ _ _ Ha1 Hj1) as [_ Hs1 _ Hw1].
  pose proof (verdict_justified _ _ _ _ _ Ha2 Hj2) as [_ Hs2 _ Hw2].
  destruct (counted_spec ∅ (precommits (commit j1))) as [Hn1 Hc1].
  destruct (counted_spec ∅ (precommits (commit j2))) as [Hn2 Hc2].
  exists (List.filter (in_ids (map vote_id (counted_votes vs j1))) (counted_votes vs j2)).
  split_and!; [by apply quorums_meet|by apply NoDup_map_filter|].
  intros v [Hv Hid]%list_elem_of_In%filter_In. apply list_elem_of_In in Hv.
  apply bool_decide_eq_true, list_elem_of_fmap in Hid as (v' & Hid & Hv').
  rewrite Forall_forall in Hs1, Hs2. split_and!; [by apply Hc2|by apply Hs2|].
  exists v'. split_and!; [by apply Hc1|done|by apply Hs1].
Qed.

End Quorum.
