(* ===== verification/Grandpa.v ===== *)
(** * The GRANDPA light client

    [finality-verifiers/grandpa/src/lib.rs], [types.rs] and
    [bridges/runtime/storage_proof.rs]: a pallet that imports ranges of finalised
    headers of a relay chain, keeps the latest of them in a ring buffer, follows the
    changes of the authority set, and proves events of the relay chain and of its
    parachains against the stored headers.

    - [GrandpaState E] is the storage of one instance of the pallet over the state
      [E] of the pallets its callback reaches.
    - The decoders of headers, justifications and proofs and the reading of a trie
      are the codec's and [sp_trie]'s (class [GrandpaCodec]); fixed-width values are
      decoded here.
    - A [&'static str] error becomes [Other]; a module error turned into a string is
      its name. *)

From S2P Require Import Prelude Types AccountManager World Circuit StandardAbi Batches Attesters Justification.

(** ** Data *)

(** [types.rs].  The owner is an [AccountId]. *)
Record RelaychainRegistrationData := mkRelayRegistration {
  first_header : list Z;
  reg_authorities : list AuthorityId;
  authority_set_id : SetId;
  reg_owner : AccountId;
}.

Record ParachainRegistrationData := mkParaRegistration {
  relay_gateway_id : TargetId;
  para_id : Z;
}.

Record GrandpaHeaderData := mkHeaderData {
  data_signed_header : BridgedHeader;
  data_range : list BridgedHeader;
  data_justification : GrandpaJustification;
}.

Abbreviation StorageProof := (list (list Z)) (only parsing).

Record RelaychainInclusionProof := mkRelayProof {
  relay_payload : list Z;
  relay_payload_proof : StorageProof;
  relay_proof_block : Hash;
}.

Record ParachainInclusionProof := mkParaProof {
  para_payload : list Z;
  para_header_proof : StorageProof;
  para_payload_proof : StorageProof;
  para_relay_block : Hash;
}.

(** [InitializationData] (bridges/header_chain/mod.rs). *)
Record InitializationData := mkInitData {
  init_header : BridgedHeader;
  init_authority_list : list (AuthorityId * Z);
  init_set_id : SetId;
  init_is_halted : bool;
  init_gateway_id : TargetId;
}.

Inductive ProofTriePointer := TrieState | TrieTransaction | TrieReceipts.

Inductive VMSource := VMSourceEVM (a : list Z) | VMSourceWASM (a : list Z).

Inductive GrandpaEvent := HeadersAdded (n : BlockNumber).

Record GrandpaState (E : Type) := mkGrandpa {
  gr_ext : E;
  InitialHash : option Hash;
  BestFinalizedHash : option Hash;
  ImportedHashes : gmap Z Hash;
  SubmissionsCounter : BlockNumber;
  ImportedHashesPointer : option Z;
  ImportedHeaders : gmap Hash BridgedHeader;
  RelayChainId : option TargetId;
  CurrentAuthoritySet : option AuthoritySet;
  ParachainIdMap : gmap (list Z) ParachainRegistrationData;
  PalletOwner : option AccountId;
  IsHalted : bool;
  EverInitialized : bool;
  gr_events : list GrandpaEvent;
}.
Arguments mkGrandpa {E}.
Arguments gr_ext {E}.
Arguments InitialHash {E}.
Arguments BestFinalizedHash {E}.
Arguments ImportedHashes {E}.
Arguments SubmissionsCounter {E}.
Arguments ImportedHashesPointer {E}.
Arguments ImportedHeaders {E}.
Arguments RelayChainId {E}.
Arguments CurrentAuthoritySet {E}.
Arguments ParachainIdMap {E}.
Arguments PalletOwner {E}.
Arguments IsHalted {E}.
Arguments EverInitialized {E}.
Arguments gr_events {E}.

Section GrandpaStateSetters.
Context {E : Type}.
Definition set_gr_ext (v : E) (s : GrandpaState E) : GrandpaState E :=
  mkGrandpa v (InitialHash s) (BestFinalizedHash s) (ImportedHashes s) (SubmissionsCounter
    s) (ImportedHashesPointer s) (ImportedHeaders s) (RelayChainId s) (CurrentAuthoritySet s)
    (ParachainIdMap s) (PalletOwner s) (IsHalted s) (EverInitialized s) (gr_events s).
Definition set_InitialHash (v : option Hash) (s : GrandpaState E) : GrandpaState E :=
  mkGrandpa (gr_ext s) v (BestFinalizedHash s) (ImportedHashes s) (SubmissionsCounter s)
    (ImportedHashesPointer s) (ImportedHeaders s) (RelayChainId s) (CurrentAuthoritySet s)
    (ParachainIdMap s) (PalletOwner s) (IsHalted s) (EverInitialized s) (gr_events s).
Definition set_BestFinalizedHash (v : option Hash) (s : GrandpaState E) : GrandpaState E :=
  mkGrandpa (gr_ext s) (InitialHash s) v (ImportedHashes s) (SubmissionsCounter s)
    (ImportedHashesPointer s) (ImportedHeaders s) (RelayChainId s) (CurrentAuthoritySet s)
    (ParachainIdMap s) (PalletOwner s) (IsHalted s) (EverInitialized s) (gr_events s).
Definition set_ImportedHashes (v : gmap Z Hash) (s : GrandpaState E) : GrandpaState E :=
  mkGrandpa (gr_ext s) (InitialHash s) (BestFinalizedHash s) v (SubmissionsCounter s)
    (ImportedHashesPointer s) (ImportedHeaders s) (RelayChainId s) (CurrentAuthoritySet s)
    (ParachainIdMap s) (PalletOwner s) (IsHalted s) (EverInitialized s) (gr_events s).
Definition set_SubmissionsCounter (v : BlockNumber) (s : GrandpaState E) : GrandpaState E :=
  mkGrandpa (gr_ext s) (InitialHash s) (BestFinalizedHash s) (ImportedHashes s) v
    (ImportedHashesPointer s) (ImportedHeaders s) (RelayChainId s) (CurrentAuthoritySet s)
    (ParachainIdMap s) (PalletOwner s) (IsHalted s) (EverInitialized s) (gr_events s).
Definition set_ImportedHashesPointer (v : option Z) (s : GrandpaState E) : GrandpaState E :=
  mkGrandpa (gr_ext s) (InitialHash s) (BestFinalizedHash s) (ImportedHashes s)
    (SubmissionsCounter s) v (ImportedHeaders s) (RelayChainId s) (CurrentAuthoritySet s)
    (ParachainIdMap s) (PalletOwner s) (IsHalted s) (EverInitialized s) (gr_events s).
Definition set_ImportedHeaders (v : gmap Hash BridgedHeader) (s : GrandpaState E) : GrandpaState E :=
  mkGrandpa (gr_ext s) (InitialHash s) (BestFinalizedHash s) (ImportedHashes s)
    (SubmissionsCounter s) (ImportedHashesPointer s) v (RelayChainId s) (CurrentAuthoritySet
    s) (ParachainIdMap s) (PalletOwner s) (IsHalted s) (EverInitialized s) (gr_events s).
Definition set_RelayChainId (v : option TargetId) (s : GrandpaState E) : GrandpaState E :=
  mkGrandpa (gr_ext s) (InitialHash s) (BestFinalizedHash s) (ImportedHashes s)
    (SubmissionsCounter s) (ImportedHashesPointer s) (ImportedHeaders s) v
    (CurrentAuthoritySet s) (ParachainIdMap s) (PalletOwner s) (IsHalted s) (EverInitialized
    s) (gr_events s).
Definition set_CurrentAuthoritySet (v : option AuthoritySet) (s : GrandpaState E) : GrandpaState E :=
  mkGrandpa (gr_ext s) (InitialHash s) (BestFinalizedHash s) (ImportedHashes s)
    (SubmissionsCounter s) (ImportedHashesPointer s) (ImportedHeaders s) (RelayChainId s) v
    (ParachainIdMap s) (PalletOwner s) (IsHalted s) (EverInitialized s) (gr_events s).
Definition set_ParachainIdMap (v : gmap (list Z) ParachainRegistrationData) (s : GrandpaState E) : GrandpaState E :=
  mkGrandpa (gr_ext s) (InitialHash s) (BestFinalizedHash s) (ImportedHashes s)
    (SubmissionsCounter s) (ImportedHashesPointer s) (ImportedHeaders s) (RelayChainId s)
    (CurrentAuthoritySet s) v (PalletOwner s) (IsHalted s) (EverInitialized s) (gr_events s).
Definition set_PalletOwner (v : option AccountId) (s : GrandpaState E) : GrandpaState E :=
  mkGrandpa (gr_ext s) (InitialHash s) (BestFinalizedHash s) (ImportedHashes s)
    (SubmissionsCounter s) (ImportedHashesPointer s) (ImportedHeaders s) (RelayChainId s)
    (CurrentAuthoritySet s) (ParachainIdMap s) v (IsHalted s) (EverInitialized s) (gr_events
    s).
Definition set_IsHalted (v : bool) (s : GrandpaState E) : GrandpaState E :=
  mkGrandpa (gr_ext s) (InitialHash s) (BestFinalizedHash s) (ImportedHashes s)
    (SubmissionsCounter s) (ImportedHashesPointer s) (ImportedHeaders s) (RelayChainId s)
    (CurrentAuthoritySet s) (ParachainIdMap s) (PalletOwner s) v (EverInitialized s)
    (gr_events s).
Definition set_EverInitialized (v : bool) (s : GrandpaState E) : GrandpaState E :=
  mkGrandpa (gr_ext s) (InitialHash s) (BestFinalizedHash s) (ImportedHashes s)
    (SubmissionsCounter s) (ImportedHashesPointer s) (ImportedHeaders s) (RelayChainId s)
    (CurrentAuthoritySet s) (ParachainIdMap s) (PalletOwner s) (IsHalted s) v (gr_events s).
Definition set_gr_events (v : list GrandpaEvent) (s : GrandpaState E) : GrandpaState E :=
  mkGrandpa (gr_ext s) (InitialHash s) (BestFinalizedHash s) (ImportedHashes s)
    (SubmissionsCounter s) (ImportedHashesPointer s) (ImportedHeaders s) (RelayChainId s)
    (CurrentAuthoritySet s) (ParachainIdMap s) (PalletOwner s) (IsHalted s) (EverInitialized
    s) v.
End GrandpaStateSetters.

(** [Config]: the number of headers kept, the vendor of the instance, the block
    number of [frame_system] and the callback of a new epoch. *)
Class GrandpaConfig (E : Type) := {
  HeadersToStore : Z;
  MyVendor : GatewayVendor;
  local_block_number : E → BlockNumber;
  light_client_epoch : GatewayVendor → BlockNumber → LightClientHeartbeat → E → E;
}.

(** SCALE decoders of the compound types, the Twox64Concat hasher of a storage key
    and [read_trie_value] ([None] is its error). *)
Class GrandpaCodec := {
  decode_relay_registration : list Z → option RelaychainRegistrationData;
  decode_header : list Z → option BridgedHeader;
  decode_header_data : list Z → option GrandpaHeaderData;
  decode_relay_proof : list Z → option RelaychainInclusionProof;
  decode_para_proof : list Z → option ParachainInclusionProof;
  decode_bytes : list Z → option (list Z);
  twox64_concat : list Z → list Z;
  read_trie_value : StorageProof → Hash → list Z → option (option (list Z));
  proof_contains : StorageProof → Hash → bool;
}.

(** Derived decoders of fixed layout. *)
Definition decode_para_registration (l : list Z) : option ParachainRegistrationData :=
  chain ← decode_fixed 4 l; i ← decode_u32 (drop 4 l); Some (mkParaRegistration chain i).
Definition decode_option_account (l : list Z) : option (option AccountId) :=
  match l with
  | 0 :: _ => Some None
  | 1 :: l => Some <$> decode_account l
  | _ => None
  end.

Section Grandpa.
Context {E : Type} `{GrandpaLib} `{!GrandpaConfig E} `{GrandpaCodec}.

Abbreviation GM A := (M (GrandpaState E) DispatchError A).
Abbreviation gr_throw e := (throw (GrandpaModuleError e)).

(** [block_number.encode()] read back as a local block number. *)
Definition to_local_block_number {S} (n : BlockNumber) : M S DispatchError BlockNumber :=
  ok_or (decode_u32 (le_bytes 4 n))
    (Other "LightClient::Grandpa - failed to decode block number from bridged header").

(** ** Authority set changes *)

Definition convert_first {A} (f : ConsensusLog → option A) (l : list DigestItem) : option A :=
  head (omap (λ i, match i with GrandpaConsensus log => f log | OtherDigest _ => None end) l).

Definition find_scheduled_change (h : BridgedHeader) : option ScheduledChange :=
  convert_first (λ log, match log with LogScheduledChange c => Some c | _ => None end) (digest h).
Definition find_forced_change (h : BridgedHeader) : option (BlockNumber * ScheduledChange) :=
  convert_first (λ log, match log with LogForcedChange d c => Some (d, c) | _ => None end) (digest h).

Definition try_enact_authority_change_single (h : BridgedHeader) (current_set_id : SetId) : GM bool :=
  ensure (bool_decide (find_forced_change h = None)) (GrandpaModuleError UnsupportedScheduledChange) ;;
  match find_scheduled_change h with
  | Some change =>
    ensure (change_delay change =? 0) (GrandpaModuleError UnsupportedScheduledChange) ;;
    modify (set_CurrentAuthoritySet
      (Some (mkAuthoritySet (next_authorities change) (wrap64 (current_set_id + 1))))) ;;
    mret true
  | None => mret false
  end.

Definition verify_justification_single (j : GrandpaJustification) (hash : Hash) (n : BlockNumber)
    (a : AuthoritySet) : GM unit :=
  voter_set ← ok_or (voter_set_new (authorities a)) (GrandpaModuleError InvalidAuthoritySet);
  map_err (λ _, GrandpaModuleError InvalidGrandpaJustification)
    (verify_justification (hash, n) (set_id a) voter_set j).

(** ** Import of headers *)

(** The ring buffer: the header stored at the index goes, the new one takes its place. *)
Definition write_and_clean_header_data (buffer_index : Z) (h : BridgedHeader) (hash : Hash)
    (is_signed_header : bool) : GM Z :=
  old ← gets (λ s, ImportedHashes s !! buffer_index);
  match old with
  | Some o => modify (λ s, set_ImportedHeaders (delete o (ImportedHeaders s)) s)
  | None => mret tt
  end ;;
  modify (λ s, set_ImportedHeaders (<[hash := h]> (ImportedHeaders s)) s) ;;
  modify (λ s, set_ImportedHashes (<[buffer_index := hash]> (ImportedHashes s)) s) ;;
  (if is_signed_header then modify (set_BestFinalizedHash (Some hash)) else mret tt) ;;
  if HeadersToStore =? 0 then panic else mret (wrap32 (buffer_index + 1) mod HeadersToStore).

(** The loop over the range: [acc] is the pair of the best hash and the index. *)
Fixpoint store_range (range : list BridgedHeader) (best buffer_index : Z) : GM (Hash * Z) :=
  match range with
  | [] => mret (best, buffer_index)
  | h :: range =>
    if bool_decide (best = parent_hash h) then
      i ← write_and_clean_header_data buffer_index h (header_hash h) false;
      store_range range (header_hash h) i
    else gr_throw InvalidRangeLinkage
  end.

Definition verify_and_store_headers (range : list BridgedHeader) (signed_header : BridgedHeader)
    (j : GrandpaJustification) : GM unit :=
  transactional (
    best ← gets BestFinalizedHash;
    best ← ok_or best (GrandpaModuleError NoFinalizedHeader);
    let signed_hash := header_hash signed_header in
    let signed_number := header_number signed_header in
    a ← gets CurrentAuthoritySet;
    a ← ok_or a (GrandpaModuleError InvalidAuthoritySet);
    verify_justification_single j signed_hash signed_number a ;;
    try_enact_authority_change_single signed_header (set_id a) ;;
    p ← gets ImportedHashesPointer;
    r ← store_range range best (default 0 p);
    let '(best, buffer_index) := r in
    i ← (if bool_decide (best = parent_hash signed_header)
         then write_and_clean_header_data buffer_index signed_header signed_hash true
         else gr_throw InvalidJustificationLinkage);
    modify (set_ImportedHashesPointer (Some i)) ;;
    modify (λ s, set_gr_events (gr_events s ++ [HeadersAdded signed_number]) s)).

(** [BridgedHeader::new] of default values; its digest is empty. *)
Definition default_header : BridgedHeader := mkHeader 0 0 0 0 [].
Definition best_finalized_map (s : GrandpaState E) : BridgedHeader :=
  default default_header (ImportedHeaders s !! default 0 (BestFinalizedHash s)).
Definition is_known_header (s : GrandpaState E) (hash : Hash) : bool :=
  bool_decide (is_Some (ImportedHeaders s !! hash)).

(** [LightClient::get_latest_heartbeat] (light_clients.rs). *)
Definition gr_get_latest_heartbeat : GM LightClientHeartbeat :=
  h ← gets best_finalized_map;
  last_finalized ← to_local_block_number (header_number h);
  s ← gets id;
  mret (mkHeartbeat (local_block_number (gr_ext s)) last_finalized last_finalized last_finalized
    (IsHalted s) (EverInitialized s)).

(** ** Dispatchables *)

(** The answer is whether a fee is paid ([Pays]). *)
Definition submit_headers (origin : RawOrigin) (range : list BridgedHeader)
    (signed_header : BridgedHeader) (j : GrandpaJustification) : GM bool :=
  transactional (
    ensure_signed origin ;;
    pointer_prior ← gets (λ s, default 0 (ImportedHashesPointer s));
    verify_and_store_headers range signed_header j ;;
    pointer_post ← gets (λ s, default 0 (ImportedHashesPointer s));
    if bool_decide (pointer_prior ≠ pointer_post) then
      counter ← gets SubmissionsCounter;
      hb ← attempt gr_get_latest_heartbeat;
      match hb with
      | ROk heartbeat =>
        modify (λ s, set_gr_ext (light_client_epoch MyVendor counter heartbeat (gr_ext s)) s)
      | RErr _ => mret tt
      end ;;
      modify (set_SubmissionsCounter (saturating_add u32_max counter 1)) ;;
      mret false
    else mret true).

Definition reset (origin : RawOrigin) : GM unit :=
  transactional (
    ensure_root origin ;;
    modify (λ s, mkGrandpa (gr_ext s) None None ∅ (SubmissionsCounter s) None ∅ None None ∅ None
      false false (gr_events s))).

(** ** Initialisation and ownership *)

Definition can_init_relay_chain : GM unit :=
  b ← gets BestFinalizedHash;
  ensure (bool_decide (b = None))
    (Other "can_init_relay_chain -- chain_id already initialized").

Definition initialize_relay_chain (d : InitializationData) (owner : AccountId) : GM unit :=
  can_init_relay_chain ;;
  let initial_hash := header_hash (init_header d) in
  modify (set_InitialHash (Some initial_hash)) ;;
  modify (set_BestFinalizedHash (Some initial_hash)) ;;
  modify (λ s, set_ImportedHeaders (<[initial_hash := init_header d]> (ImportedHeaders s)) s) ;;
  modify (set_ImportedHashesPointer (Some 0)) ;;
  modify (set_RelayChainId (Some (init_gateway_id d))) ;;
  modify (set_CurrentAuthoritySet
    (Some (mkAuthoritySet (init_authority_list d) (init_set_id d)))) ;;
  modify (set_IsHalted (init_is_halted d)) ;;
  modify (set_EverInitialized true) ;;
  modify (set_PalletOwner (Some owner)).

Definition ensure_owner_or_root_single (origin : RawOrigin) : M (GrandpaState E) string unit :=
  owner ← gets PalletOwner;
  match origin with
  | Root => mret tt
  | Signed signer => ensure (bool_decide (owner = Some signer)) "Bad origin"%string
  | NoneOrigin => throw "Bad origin"%string
  end.

Definition initialize (origin : RawOrigin) (gateway_id : TargetId)
    (encoded_registration_data : list Z) : GM unit :=
  map_err Other (ensure_owner_or_root_single origin) ;;
  relay ← gets RelayChainId;
  match relay with
  | Some relay_chain_id =>
    ensure (negb (bool_decide (relay_chain_id = gateway_id))) (Other "chain_id already initialized") ;;
    d ← ok_or (decode_para_registration encoded_registration_data)
      (Other "Parachain registration decoding error");
    ensure (bool_decide (relay_gateway_id d = relay_chain_id)) (Other "Invalid relay chain id") ;;
    modify (λ s, set_ParachainIdMap (<[gateway_id := d]> (ParachainIdMap s)) s)
  | None =>
    d ← ok_or (decode_relay_registration encoded_registration_data) (Other "Decoding Error");
    h ← ok_or (decode_header (first_header d)) (Other "header decoding error");
    initialize_relay_chain
      (mkInitData h (map (λ a, (a, 1)) (reg_authorities d)) (authority_set_id d) false gateway_id)
      (reg_owner d)
  end.

Definition set_owner (origin : RawOrigin) (_gateway_id : TargetId) (encoded_new_owner : list Z)
  : M (GrandpaState E) string unit :=
  ensure_owner_or_root_single origin ;;
  new_owner ← ok_or (decode_option_account encoded_new_owner) "New Owner decoding error"%string;
  modify (set_PalletOwner new_owner).

Definition set_operational (origin : RawOrigin) (operational : bool)
  : M (GrandpaState E) string unit :=
  ensure_owner_or_root_single origin ;;
  modify (set_IsHalted (negb operational)).

Definition ensure_operational_single : GM unit :=
  halted ← gets IsHalted;
  if (halted : bool) then gr_throw GrandpaHalted else mret tt.

Definition submit_encoded_headers (encoded_header_data : list Z) : GM unit :=
  ensure_operational_single ;;
  d ← ok_or (decode_header_data encoded_header_data) (GrandpaModuleError HeaderDataDecodingError);
  verify_and_store_headers (data_range d) (data_signed_header d) (data_justification d).

(** ** Proofs of inclusion *)

Definition get_header_roots (h : BridgedHeader) (trie_type : ProofTriePointer) : Hash :=
  match trie_type with
  | TrieState => state_root h
  | TrieTransaction => extrinsics_root h
  | TrieReceipts => state_root h
  end.

Definition verify_storage_proof {S} (h : BridgedHeader) (key : list Z) (proof : StorageProof)
    (trie_type : ProofTriePointer) : M S string (list Z) :=
  match read_trie_value proof (get_header_roots h trie_type) key with
  | Some (Some value) => mret value
  | _ => throw "InvalidStorageProof"%string
  end.

(** [StorageProofChecker] (bridges/runtime/storage_proof.rs). *)
Record StorageProofChecker := mkChecker { checker_root : Hash; checker_db : StorageProof }.
Definition StorageProofChecker_new (root : Hash) (proof : StorageProof)
  : option StorageProofChecker :=
  if proof_contains proof root then Some (mkChecker root proof) else None.
Definition read_value (c : StorageProofChecker) (key : list Z) : option (option (list Z)) :=
  read_trie_value (checker_db c) (checker_root c) key.

Definition parse_finalized_storage_proof {R} (hash : Hash) (proof : StorageProof)
    (parse : StorageProofChecker → R) : GM R :=
  h ← gets (λ s, ImportedHeaders s !! hash);
  h ← ok_or h (GrandpaModuleError UnknownHeader);
  c ← ok_or (StorageProofChecker_new (state_root h) proof) (GrandpaModuleError StorageRootMismatch);
  mret (parse c).

Definition starts_with (l needle : list Z) : bool := bool_decide (take (length needle) l = needle).
Fixpoint is_sub (haystack needle : list Z) : bool :=
  match haystack with
  | [] => false
  | _ :: rest => if starts_with haystack needle then true else is_sub rest needle
  end.

(** The storage keys of [System::Events] and [Paras::Heads]. *)
Definition system_events_key : list Z :=
  [38; 170; 57; 78; 234; 86; 48; 224; 124; 72; 174; 12; 149; 88; 206; 247; 128; 212; 30; 94;
   22; 5; 103; 101; 188; 132; 97; 133; 16; 114; 201; 215].
Definition paras_heads_key : list Z :=
  [205; 113; 11; 48; 189; 46; 171; 3; 82; 221; 204; 38; 65; 122; 161; 148; 27; 60; 37; 47;
   203; 41; 216; 142; 255; 79; 61; 229; 222; 68; 118; 195].

Definition verify_event_storage_proof {S} (proof : StorageProof) (h : BridgedHeader)
    (encoded_payload : list Z) : M S DispatchError (list Z) :=
  block_events ← map_err Other (verify_storage_proof h system_events_key proof TrieReceipts);
  ensure (is_sub block_events encoded_payload) (GrandpaModuleError EventNotIncluded) ;;
  mret encoded_payload.

Definition verify_header_storage_proof (relay_block_hash : Hash) (proof : StorageProof)
    (parachain : ParachainRegistrationData) : GM BridgedHeader :=
  h ← gets (λ s, ImportedHeaders s !! relay_block_hash);
  h ← ok_or h (GrandpaModuleError UnknownHeader);
  v ← map_err Other (verify_storage_proof h
        (paras_heads_key ++ twox64_concat (le_bytes 4 (para_id parachain))) proof TrieState);
  e ← ok_or (decode_bytes v) (GrandpaModuleError HeaderDecodingError);
  ok_or (decode_header e) (GrandpaModuleError HeaderDecodingError).

(** A source of 12 zero bytes and an address is an EVM contract, any other a WASM one.
    A source has 32 bytes. *)
Definition check_vm_source {S} (source message : list Z) : M S DispatchError VMSource :=
  if bool_decide (take 12 source = repeat 0 12) then
    ensure (22 <=? Z.of_nat (length message)) (GrandpaModuleError UnexpectedEventLength) ;;
    ensure (bool_decide (message !! 1%nat = Some 0)) (GrandpaModuleError UnexpectedSource) ;;
    if bool_decide (drop 12 source ≠ take 20 (drop 2 message)) then gr_throw UnexpectedSource
    else mret (VMSourceEVM (drop 12 source))
  else
    ensure (34 <=? Z.of_nat (length message)) (GrandpaModuleError UnexpectedEventLength) ;;
    ensure (bool_decide (message !! 1%nat = Some 3)) (GrandpaModuleError UnexpectedSource) ;;
    if bool_decide (source ≠ take 32 (drop 2 message)) then gr_throw UnexpectedSource
    else mret (VMSourceWASM source).

Definition confirm_event_inclusion (gateway_id : TargetId) (encoded_inclusion_proof : list Z)
    (maybe_source : option (list Z)) : GM InclusionReceipt :=
  relay ← gets RelayChainId;
  r ← (if bool_decide (Some gateway_id = relay) then
         proof ← ok_or (decode_relay_proof encoded_inclusion_proof)
           (GrandpaModuleError HeaderDataDecodingError);
         h ← gets (λ s, ImportedHeaders s !! relay_proof_block proof);
         h ← ok_or h (GrandpaModuleError UnknownHeader);
         mret (relay_payload_proof proof, relay_payload proof, h, relay_proof_block proof)
       else
         proof ← ok_or (decode_para_proof encoded_inclusion_proof)
           (GrandpaModuleError HeaderDataDecodingError);
         entry ← gets (λ s, ParachainIdMap s !! gateway_id);
         entry ← ok_or entry (GrandpaModuleError ParachainEntryNotFound);
         h ← verify_header_storage_proof (para_relay_block proof) (para_header_proof proof) entry;
         mret (para_payload_proof proof, para_payload proof, h, para_relay_block proof));
  let '(payload_proof, encoded_payload, h, hash) := r in
  message ← verify_event_storage_proof payload_proof h encoded_payload;
  match maybe_source with
  | Some source => check_vm_source source message ;; mret tt
  | None => mret tt
  end ;;
  height ← to_local_block_number (header_number h);
  mret (mkReceipt height (be_bytes 32 hash) message).

(** [executed_after_creation], which nothing calls. *)
Definition executed_after_creation {S} (submission_target_height : BlockNumber)
    (h : BridgedHeader) : M S string unit :=
  t ← ok_or (decode_u32 (le_bytes 4 submission_target_height)) "Invalid block number"%string;
  ensure (t <? header_number h) "Transaction executed before SideEffect creation"%string.

(** ** Events of transfers (side_effects.rs), decoded by nothing yet *)

(** The decoded stubs [Transfer] of [pallet_balances] and of [orml_tokens], by the
    position of the variant; the amount has the width of the type. *)
Definition amount_width (value_abi_unsigned_type : list Z) : option nat :=
  if bool_decide (value_abi_unsigned_type = bytes_of "uint32") then Some 4%nat
  else if bool_decide (value_abi_unsigned_type = bytes_of "uint64") then Some 8%nat
  else if bool_decide (value_abi_unsigned_type = bytes_of "uint128") then Some 16%nat
  else None.

Definition take_field (n : nat) (l : list Z) : option (list Z * list Z) :=
  f ← decode_fixed n l; Some (f, drop n l).

Definition decode_transfer (w : nat) (l : list Z) : option (list (list Z)) :=
  match l with
  | 2 :: l =>
    '(from, l) ← take_field 32 l;
    '(to, l) ← take_field 32 l;
    '(amount, _) ← take_field w l;
    Some [from; to; amount]
  | _ => None
  end.
Definition decode_multi_transfer (w : nat) (l : list Z) : option (list (list Z)) :=
  match l with
  | 2 :: l =>
    '(currency_id, l) ← take_field 4 l;
    '(from, l) ← take_field 32 l;
    '(to, l) ← take_field 32 l;
    '(amount, _) ← take_field w l;
    Some [from; to; currency_id; amount]
  | _ => None
  end.

(** [remove(0)] of an empty event traps. *)
Definition decode_event {S} (id encoded_event value_abi_unsigned_type : list Z)
  : M S DispatchError (list (list Z) * list Z) :=
  match encoded_event with
  | [] => panic
  | _ :: event =>
    let decoded (f : nat → list Z → option (list (list Z))) :=
      args ← ok_or (w ← amount_width value_abi_unsigned_type; f w event)
        (GrandpaModuleError EventDecodingFailed);
      mret (args, []) in
    if bool_decide (id = bytes_of "tran") then decoded decode_transfer
    else if bool_decide (id = bytes_of "swap") || bool_decide (id = bytes_of "aliq")
    then decoded decode_multi_transfer
    else throw (GrandpaModuleError UnkownSideEffect)
  end.

End Grandpa.
