(* ===== verification/GrandpaProps.v ===== *)
(** * Properties of the GRANDPA light client

    - [light_client_refines]: any sequence of operations keeps the storage a window
      of a finalised chain.
    - [headers_bounded], [best_header_stored]: what the window says of the storage.
    - [submission_decided]: which submissions are imported, and that others change
      nothing.
    - [event_proved]: what a receipt of an event means.
    - [halted_still_imports], [full_ring_pays], [empty_event_proved]: behaviours
      that a reader of the comments would not expect. *)

From S2P Require Import Prelude Types AccountManager World Circuit Batches Attesters.
From S2P Require Import Justification JustificationFacts Grandpa GrandpaSystem.

(** ** Substrings *)

Lemma starts_with_spec l n : starts_with l n = true ↔ ∃ post, l = n ++ post.
Proof.
  unfold starts_with. rewrite bool_decide_eq_true. split.
  - intros Ht. exists (drop (length n) l). by rewrite <- Ht at 1; rewrite take_drop.
  - intros [post ->]. by rewrite take_app_length.
Qed.

Lemma is_sub_spec hay n :
  is_sub hay n = true ↔ hay ≠ [] ∧ ∃ pre post, hay = pre ++ n ++ post.
Proof.
  induction hay as [|x hay IH]; [naive_solver|]. cbn [is_sub].
  destruct (starts_with (x :: hay) n) eqn:Hs.
  - apply starts_with_spec in Hs as [post Hs]. split; [|done]. intros _. split; [done|].
    by exists [], post.
  - rewrite IH. split.
    + intros (_ & pre & post & ->). split; [done|]. by exists (x :: pre), post.
    + intros (_ & pre & post & Hp). destruct pre as [|y pre].
      { apply (not_true_iff_false) in Hs. destruct Hs. apply starts_with_spec. by exists post. }
      injection Hp as -> ->. split; [|by eexists _, _].
      intros Hn. apply app_eq_nil in Hn as [-> Hn]. apply app_eq_nil in Hn as [-> ->].
      apply not_true_iff_false in Hs. destruct Hs. apply starts_with_spec. by eexists.
Qed.

Lemma size_list_to_set_le (l : list Hash) : (size (list_to_set l : gset Hash) ≤ length l)%nat.
Proof.
  induction l as [|x l IH]; cbn; [by rewrite size_empty|].
  rewrite size_union_alt, size_singleton.
  assert (size (list_to_set l ∖ {[x]} : gset Hash) ≤ size (list_to_set l : gset Hash))%nat; [|lia].
  apply subseteq_size. set_solver.
Qed.

Section Props.
Context {E : Type} `{GrandpaLaws} `{!HashLinks} `{!GrandpaConfig E} `{GrandpaCodec}.
Context (Hstore : 0 < HeadersToStore ≤ u32_max).

Abbreviation St := (GrandpaState E).

(** C21: Whatever operations are called on a pallet that starts empty (submissions,
    encoded submissions, initialisations, resets, changes of owner and of the
    operational flag, with changes of the rest of the runtime in between), its
    storage represents a finalised chain that grew only by headers linked to its
    tip and justified by the authorities of the time; the stored headers are the
    first one and the latest [HeadersToStore]. *)
Theorem light_client_refines (s0 s : St) :
  untracked s0 → rtc gr_step s0 s → ∃ o, rtc fin_step None o ∧ refines o s.
Proof. intros Hu Hs. by apply (steps_refine Hstore None s0). Qed.

(** ** The storage *)

Lemma ring_size g c i (s : St) :
  ring_of g c i s → (size (ImportedHeaders s) ≤ S (Z.to_nat HeadersToStore))%nat.
Proof.
  intros Hr. rewrite <- (size_dom (D:=gset Hash)).
  set (w := drop (length c - Z.to_nat HeadersToStore) c).
  assert (dom (ImportedHeaders s) ⊆@{gset Hash} list_to_set (map header_hash (g :: w))) as Hsub.
  { intros h [x Hx]%elem_of_dom. apply (ring_headers _ _ _ _ Hr) in Hx as [-> Hx].
    apply elem_of_list_to_set, list_elem_of_fmap. exists x. split; [done|].
    destruct Hx as [->|(k & Hk & Hw)]; [left|right]. unfold in_window in Hw.
    apply (list_elem_of_lookup_2 _ (k - (length c - Z.to_nat HeadersToStore))%nat).
    unfold w. rewrite lookup_drop. rewrite <- Hk. f_equal. lia. }
  apply subseteq_size in Hsub. etransitivity; [exact Hsub|].
  etransitivity; [apply size_list_to_set_le|]. rewrite length_map. cbn. unfold w.
  rewrite length_drop. lia.
Qed.


(** A submission is imported exactly when there is a best header and an authority
    set, the justification of the signed header verifies against that set, its
    digest announces no forced or delayed change, and the range links the best
    header to it; the storage is then the one with the range and the signed header
    written.  Any other submission is refused and changes nothing; none traps. *)
Theorem submission_decided range h j (s : St) :
  (∃ b a, importable range h j b a s ∧
     verify_and_store_headers range h j s = Ok tt (imported range h a s)) ∨
  ((¬ ∃ b a, importable range h j b a s) ∧
     ∃ e, verify_and_store_headers range h j s = Err e s).
Proof. by apply import_spec. Qed.

(** ** Receipts *)

(** The header whose state root a proof is read under: a stored header of the relay
    chain, or the head of the parachain proved under one. *)
Inductive proved_header (s : St) (gid : TargetId) : Hash → BridgedHeader → Prop :=
| proved_relay x :
    RelayChainId s = Some gid → ImportedHeaders s !! header_hash x = Some x →
    proved_header s gid (header_hash x) x
| proved_para x y proof d v e :
    RelayChainId s ≠ Some gid → ImportedHeaders s !! header_hash x = Some x →
    ParachainIdMap s !! gid = Some d →
    read_trie_value proof (state_root x)
      (paras_heads_key ++ twox64_concat (le_bytes 4 (para_id d))) = Some (Some v) →
    decode_bytes v = Some e → decode_header e = Some y →
    proved_header s gid (header_hash x) y.

Lemma storage_proof_inv {T} x key proof t v (s s' : T) :
  verify_storage_proof x key proof t s = Ok v s' →
  s' = s ∧ read_trie_value proof (get_header_roots x t) key = Some (Some v).
Proof.
  unfold verify_storage_proof. destruct (read_trie_value _ _ _) as [[w|]|]; by intros [= <- <-].
Qed.

Lemma event_proof_inv {T} proof x payload m (s s' : T) :
  verify_event_storage_proof proof x payload s = Ok m s' →
  s' = s ∧ m = payload ∧
  ∃ pre post, read_trie_value proof (state_root x) system_events_key =
              Some (Some (pre ++ payload ++ post)).
Proof.
  intros Hv. apply bind_Ok_inv in Hv as (ev & s1 & He & Hv). unfold map_err in He.
  destruct (verify_storage_proof _ _ _ _ s) as [v s2| |] eqn:Hp; try done. injection He as <- <-.
  apply storage_proof_inv in Hp as [-> Hp]. cbn in Hp.
  apply bind_Ok_inv in Hv as ([] & s1 & He & Hv). unfold ensure in He.
  destruct (is_sub v payload) eqn:Hs; [|done]. injection He as <-. injection Hv as <- <-.
  apply is_sub_spec in Hs as (_ & pre & post & ->). split_and!; [done|done|]. by exists pre, post.
Qed.

Lemma local_number n m : decode_u32 (le_bytes 4 n) = Some m → m = n mod 2 ^ 32.
Proof.
  unfold decode_u32, decode_fixed. rewrite length_le_bytes. cbn [Nat.leb]. rewrite take_ge by by rewrite length_le_bytes.
  cbn [fmap option_fmap option_map]. rewrite from_le_bytes_le_bytes. by intros [= <-].
Qed.

(** What the first half of [confirm_event_inclusion] has read. *)
Definition located (s : St) (gid : TargetId) (hash : Hash) (y : BridgedHeader) : Prop :=
  (∃ x, ImportedHeaders s !! hash = Some x) ∧
  ((∀ h x, ImportedHeaders s !! h = Some x → h = header_hash x) → proved_header s gid hash y).

Lemma para_header_inv hash proof d y (s s' : St) :
  verify_header_storage_proof hash proof d s = Ok y s' →
  s' = s ∧ ∃ x v e, ImportedHeaders s !! hash = Some x ∧
    read_trie_value proof (state_root x)
      (paras_heads_key ++ twox64_concat (le_bytes 4 (para_id d))) = Some (Some v) ∧
    decode_bytes v = Some e ∧ decode_header e = Some y.
Proof.
  intros Hv. unfold verify_header_storage_proof in Hv. monad_inv.
  match goal with H : verify_storage_proof _ _ _ _ _ = Ok _ _ |- _ =>
    apply storage_proof_inv in H as [-> Hp] end.
  split; [done|]. by eexists _, _, _.
Qed.

Lemma confirm_inv gid data source r (s s' : St) :
  confirm_event_inclusion gid data source s = Ok r s' →
  s' = s ∧ ∃ hash y proof pre post, located s gid hash y ∧
    including_header r = be_bytes 32 hash ∧ receipt_height r = header_number y mod 2 ^ 32 ∧
    read_trie_value proof (state_root y) system_events_key =
      Some (Some (pre ++ receipt_message r ++ post)).
Proof.
  intros Hc. unfold confirm_event_inclusion in Hc.
  apply bind_Ok_inv in Hc as (relay & s1 & [= <- <-] & Hc).
  apply bind_Ok_inv in Hc as ([[[pp payload] y] hash] & s1 & Hl & Hc).
  assert (s1 = s ∧ located s gid hash y) as [-> Hloc].
  { case_bool_decide as Hg; monad_inv.
    - split; [done|]. split; [by eexists|]. intros Hk.
      match goal with H : ImportedHeaders _ !! _ = Some _ |- _ =>
        pose proof (Hk _ _ H) as E1; rewrite E1 in H |- * end. by constructor.
    - match goal with H : verify_header_storage_proof _ _ _ _ = Ok _ _ |- _ =>
        apply para_header_inv in H as (-> & x' & v & e & Hx & ? & ? & ?) end.
      split; [done|]. split; [by eexists|]. intros Hk.
      pose proof (Hk _ _ Hx) as E1. rewrite E1 in Hx |- *. by econstructor; [congruence|..]. }
  apply bind_Ok_inv in Hc as (m & s1 & He & Hc).
  apply event_proof_inv in He as (-> & -> & pre & post & He).
  apply bind_Ok_inv in Hc as ([] & s1 & Hsrc & Hc).
  assert (s1 = s) as ->.
  { destruct source as [src|]; [|by injection Hsrc]. unfold check_vm_source in Hsrc.
    repeat case_bool_decide; monad_inv; done. }
  apply bind_Ok_inv in Hc as (height & s1 & Hn & Hc). unfold to_local_block_number in Hn.
  destruct (decode_u32 _) as [n|] eqn:Hd; [|done]. injection Hn as <- <-. injection Hc as <- <-.
  split; [done|]. exists hash, y, pp, pre, post. cbn [including_header receipt_height receipt_message].
  split_and!; try done. by apply local_number.
Qed.

(** The receipt [r] for the gateway [gid] is about the chain [f]: it names a finalised
    header that is still stored, and its message occurs in the events read under the
    state root of that header, or of the parachain head that the header commits to. *)
Definition traced (s : St) (gid : TargetId) (f : Finalised) (r : InclusionReceipt) : Prop :=
  ∃ x y proof pre post,
    (x = fin_first f ∨ ∃ k, fin_chain f !! k = Some x ∧ in_window (fin_chain f) k) ∧
    proved_header s gid (header_hash x) y ∧
    including_header r = be_bytes 32 (header_hash x) ∧
    receipt_height r = header_number y mod 2 ^ 32 ∧
    read_trie_value proof (state_root y) system_events_key =
      Some (Some (pre ++ receipt_message r ++ post)).

Lemma receipt_traced o (s s' : St) gid data source r :
  refines o s → confirm_event_inclusion gid data source s = Ok r s' →
  s' = s ∧ ∃ f, o = Some f ∧ traced s gid f r.
Proof.
  intros Ho Hc.
  apply confirm_inv in Hc as (-> & hash & y & proof & pre & post & [[x Hx] Hloc] & Hi & Hh & Hr).
  split; [done|]. destruct o as [f|]; [|by rewrite (un_headers _ Ho) in Hx].
  destruct (tr_ring _ _ Ho) as (i & Hp & Hring).
  apply (ring_headers _ _ _ _ Hring) in Hx as [-> Hx].
  exists f. split; [done|]. exists x, y, proof, pre, post. split_and!; try done. apply Hloc.
  intros h z Hz. by apply (ring_headers _ _ _ _ Hring) in Hz as [-> _].
Qed.

(** C24: A receipt of an event is given, in any reachable state, only for bytes that
    occur in the events of a block: the events read under the state root of a
    finalised header that is still stored, or of the parachain head that such a
    header commits to.  The receipt names that finalised header and the height of
    the block, and the storage is not changed. *)
Theorem event_proved (s0 s s' : St) gid data source r :
  untracked s0 → rtc gr_step s0 s → confirm_event_inclusion gid data source s = Ok r s' →
  s' = s ∧ ∃ f, refines (Some f) s ∧ rtc fin_step None (Some f) ∧ traced s gid f r.
Proof.
  intros Hu Hs Hc. destruct (steps_refine Hstore None s0 s Hu Hs) as (o & Hf & Ht).
  destruct (receipt_traced _ _ _ _ _ _ _ Ht Hc) as (-> & f & -> & Htr). split; [done|]. by exists f.
Qed.

(** ** Behaviours to know *)

(** A halted pallet still imports headers that are submitted as a transaction: only
    [submit_encoded_headers] looks at the flag. *)
Lemma halted_still_imports who range h j b a (s : St) :
  IsHalted s = true → importable range h j b a s →
  (∃ pays s', submit_headers (Signed who) range h j s = Ok pays s' ∧
              BestFinalizedHash s' = Some (header_hash h)) ∧
  ∀ data, submit_encoded_headers data s = Err (GrandpaModuleError GrandpaHalted) s.
Proof.
  intros Hh Hi. split.
  - destruct (import_spec Hstore range h j s) as [(b' & a' & _ & Ho)|[Hn _]]; [|by destruct Hn; eauto].
    unfold submit_headers, transactional, mbind, M_bind. cbn. rewrite Ho. cbn.
    case_bool_decide; [|by eexists _, _]. unfold attempt, gr_get_latest_heartbeat, mbind, M_bind. cbn.
    unfold to_local_block_number, ok_or. destruct (decode_u32 _); cbn; by eexists _, _.
  - intros data. unfold submit_encoded_headers, ensure_operational_single, mbind, M_bind, gets. cbn.
    by rewrite Hh.
Qed.

(** A submission as long as the ring buffer brings its index back to where it was:
    it is taken for one that imported nothing, pays its fee, and is not counted. *)
Lemma full_ring_pays who range h j f (s : St) :
  refines (Some f) s → (∃ b a, importable range h j b a s) →
  (Z.of_nat (length range) + 1) mod HeadersToStore = 0 →
  ∃ s', submit_headers (Signed who) range h j s = Ok true s' ∧
        BestFinalizedHash s' = Some (header_hash h) ∧
        SubmissionsCounter s' = SubmissionsCounter s ∧ gr_ext s' = gr_ext s.
Proof.
  intros Hr Hi Hm. destruct (import_spec Hstore range h j s) as [(b & a & _ & Ho)|[Hn _]]; [|done].
  destruct (import_refines Hstore _ _ _ _ _ _ Hr Ho) as [_ Ht].
  assert (ImportedHashesPointer (imported range h a s) = ImportedHashesPointer s) as Hp.
  { destruct (tr_ring _ _ Hr) as (i & -> & Hr1), (tr_ring _ _ Ht) as (i' & -> & Hr2).
    rewrite (ring_index _ _ _ _ Hr1), (ring_index _ _ _ _ Hr2). cbn. rewrite !length_app. cbn.
    rewrite Nat2Z.inj_add, Zplus_mod, Nat2Z.inj_add. change (Z.of_nat 1) with 1.
    by rewrite Hm, Z.add_0_r, Z.mod_mod by lia. }
  exists (imported range h a s). split; [|split; [done|]].
  - unfold submit_headers, transactional, mbind, M_bind. cbn. rewrite Ho. cbn [gets].
    unfold gets. by rewrite Hp, bool_decide_false by (intros Hne; by apply Hne).
  - unfold imported. cbn.
    set (s1 := match find_scheduled_change h with Some _ => _ | None => s end).
    destruct (store_state_fields (range ++ [h]) (default 0 (ImportedHashesPointer s1)) s1)
      as (_ & _ & _ & _ & -> & ->). unfold s1. by destruct (find_scheduled_change h).
Qed.

(** An empty message is proved by any block with events. *)
Lemma empty_event_proved {T} proof x ev (s : T) :
  read_trie_value proof (state_root x) system_events_key = Some (Some ev) → ev ≠ [] →
  verify_event_storage_proof proof x [] s = Ok [] s.
Proof.
  intros Hr Hev. unfold verify_event_storage_proof, verify_storage_proof, mbind, M_bind, map_err. cbn.
  rewrite Hr. cbn. by destruct ev.
Qed.

End Props.
