(* ===== verification/Portal.v ===== *)
(** * The portal

    [pallets/portal/src/lib.rs], the selection of light clients of the runtime
    ([runtime/t2rn-parachain/src/circuit_config.rs]) and the arguments of its
    precompile ([primitives/src/portal.rs]).

    - [PortalState E]: the registry of gateways (over the state [E] the light clients
      act on) and the events of the pallet.  The portal has no storage of its own.
    - Every operation looks up the vendor of the gateway and runs the light client
      that [SelectLightClient] gives for it.
    - [PrecompileArgs]: the arguments of a call from a contract, with their own
      encoding. *)

From S2P Require Import Prelude Types AccountManager World Circuit StandardAbi Vacuum Batches.
From S2P Require Import Attesters Xdns Abi AbiFill AbiRecode Justification Grandpa.

(** ** Light clients behind one interface

    [primitives/src/light_client.rs] and
    [finality-verifiers/grandpa/src/light_clients.rs].

    - [LightClient S] is the trait object [Box<dyn LightClient>]: its operations, over
      the state [S] they act on.
    - [grandpa_light_client]: the pallet of [Grandpa.v] as a light client.
    - [GrandpaPallets E]: the three instances of the pallet in the runtime, over one
      state [E] of the other pallets; [instance_light_client] selects one of them.
    - The variant [Phantom] of [PalletInstance] only carries a type: it is never
      built, and has no counterpart. *)

Inductive HeaderResult := HeaderBytes (h : list Z) | HeaderNotActive.

Definition default_heartbeat : LightClientHeartbeat := mkHeartbeat 0 0 0 0 false false.

(** [EMPTY_EXECUTION_SOURCE] and [execution_source_to_option] (primitives/src/lib.rs). *)
Definition EMPTY_EXECUTION_SOURCE : list Z := repeat 0 32.
Definition execution_source_to_option (source : list Z) : option (list Z) :=
  if bool_decide (source = EMPTY_EXECUTION_SOURCE) then None else Some source.

(** The trait. *)
Record LightClient (S : Type) := mkLightClient {
  lc_latest_finalized_header : S → HeaderResult;
  lc_fast_height : S → HeightResult;
  lc_rational_height : S → HeightResult;
  lc_finalized_height : S → HeightResult;
  lc_latest_finalized_header_precompile : S → list Z;
  lc_fast_height_precompile : S → BlockNumber;
  lc_rational_height_precompile : S → BlockNumber;
  lc_finalized_height_precompile : S → BlockNumber;
  lc_latest_heartbeat : M S DispatchError LightClientHeartbeat;
  lc_initialize : RawOrigin → TargetId → list Z → M S DispatchError unit;
  lc_turn_on : RawOrigin → M S DispatchError bool;
  lc_turn_off : RawOrigin → M S DispatchError bool;
  lc_submit_encoded_headers : list Z → M S DispatchError bool;
  lc_verify_event_inclusion :
    TargetId → SpeedMode → option (list Z) → list Z → M S DispatchError InclusionReceipt;
  lc_verify_state_inclusion : TargetId → SpeedMode → list Z → M S DispatchError InclusionReceipt;
  lc_verify_tx_inclusion : TargetId → SpeedMode → list Z → M S DispatchError InclusionReceipt;
  lc_verify_event_inclusion_precompile :
    TargetId → SpeedMode → list Z → list Z → M S DispatchError (list Z);
  lc_verify_state_inclusion_precompile :
    TargetId → SpeedMode → list Z → M S DispatchError (list Z);
  lc_verify_tx_inclusion_precompile :
    TargetId → SpeedMode → list Z → M S DispatchError (list Z);
}.
Arguments lc_latest_finalized_header {S}.
Arguments lc_fast_height {S}.
Arguments lc_rational_height {S}.
Arguments lc_finalized_height {S}.
Arguments lc_latest_finalized_header_precompile {S}.
Arguments lc_fast_height_precompile {S}.
Arguments lc_rational_height_precompile {S}.
Arguments lc_finalized_height_precompile {S}.
Arguments lc_latest_heartbeat {S}.
Arguments lc_initialize {S}.
Arguments lc_turn_on {S}.
Arguments lc_turn_off {S}.
Arguments lc_submit_encoded_headers {S}.
Arguments lc_verify_event_inclusion {S}.
Arguments lc_verify_state_inclusion {S}.
Arguments lc_verify_tx_inclusion {S}.
Arguments lc_verify_event_inclusion_precompile {S}.
Arguments lc_verify_state_inclusion_precompile {S}.
Arguments lc_verify_tx_inclusion_precompile {S}.

(** ** The GRANDPA pallet as a light client *)

Section GrandpaClient.
Context {E : Type} `{GrandpaLib} `{!GrandpaConfig E} `{GrandpaCodec}.

Abbreviation St := (GrandpaState E).
Abbreviation GM A := (M St DispatchError A).

Definition gr_latest_finalized_header (s : St) : HeaderResult :=
  match BestFinalizedHash s with
  | Some h => HeaderBytes (be_bytes 32 h)
  | None => HeaderNotActive
  end.

(** [to_local_block_number] as a test. *)
Definition gr_finalized_height (s : St) : HeightResult :=
  match decode_u32 (le_bytes 4 (header_number (best_finalized_map s))) with
  | Some n => Height n
  | None => NotActive
  end.

Definition gr_latest_finalized_header_precompile (s : St) : list Z :=
  match BestFinalizedHash s with Some h => be_bytes 32 h | None => [] end.
Definition gr_finalized_height_precompile (s : St) : BlockNumber :=
  match gr_finalized_height s with Height n => n | NotActive => 0 end.

Definition gr_turn (operational : bool) (origin : RawOrigin) : GM bool :=
  map_err Other (set_operational origin operational) ;;
  halted ← gets IsHalted;
  mret (negb halted).

Definition gr_submit_encoded_headers (headers : list Z) : GM bool :=
  submit_encoded_headers headers ;; mret true.

Definition gr_verify_event_inclusion (gid : TargetId) (_speed_mode : SpeedMode)
    (source : option (list Z)) (message : list Z) : GM InclusionReceipt :=
  confirm_event_inclusion gid message source.

Definition gr_state_unsupported {A} : GM A :=
  throw (Other "GrandpaFV::verify_state_inclusion not implemented yet").
Definition gr_tx_unsupported {A} : GM A :=
  throw (Other "GrandpaFV::verify_tx_inclusion not implemented yet").

(** [receipt.message.encode()]: the bytes after their compact length. *)
Definition gr_verify_event_inclusion_precompile (gid : TargetId) (_speed_mode : SpeedMode)
    (source message : list Z) : GM (list Z) :=
  receipt ← confirm_event_inclusion gid message (execution_source_to_option source);
  mret (compact_len (Z.of_nat (length (receipt_message receipt))) ++ receipt_message receipt).

Definition grandpa_light_client : LightClient St := {|
  lc_latest_finalized_header := gr_latest_finalized_header;
  lc_fast_height := gr_finalized_height;
  lc_rational_height := gr_finalized_height;
  lc_finalized_height := gr_finalized_height;
  lc_latest_finalized_header_precompile := gr_latest_finalized_header_precompile;
  lc_fast_height_precompile := gr_finalized_height_precompile;
  lc_rational_height_precompile := gr_finalized_height_precompile;
  lc_finalized_height_precompile := gr_finalized_height_precompile;
  lc_latest_heartbeat := gr_get_latest_heartbeat;
  lc_initialize := initialize;
  lc_turn_on := gr_turn true;
  lc_turn_off := gr_turn false;
  lc_submit_encoded_headers := gr_submit_encoded_headers;
  lc_verify_event_inclusion := gr_verify_event_inclusion;
  lc_verify_state_inclusion := λ _ _ _, gr_state_unsupported;
  lc_verify_tx_inclusion := λ _ _ _, gr_tx_unsupported;
  lc_verify_event_inclusion_precompile := gr_verify_event_inclusion_precompile;
  lc_verify_state_inclusion_precompile := λ _ _ _, gr_state_unsupported;
  lc_verify_tx_inclusion_precompile := λ _ _ _, gr_tx_unsupported;
|}.

End GrandpaClient.

(** ** The instances of the pallet *)

Inductive PalletInstance := RococoPallet | KusamaPallet | PolkadotPallet.

#[export] Instance PalletInstance_eq_dec : EqDecision PalletInstance.
Proof. solve_decision. Defined.

Definition select_grandpa_light_client_instance (vendor : GatewayVendor) : option PalletInstance :=
  match vendor with
  | Rococo => Some RococoPallet
  | Kusama => Some KusamaPallet
  | Polkadot => Some PolkadotPallet
  | _ => None
  end.
Definition grab_lc_instance_unsafe {S E} (vendor : GatewayVendor) : M S E PalletInstance :=
  expect (select_grandpa_light_client_instance vendor).

(** The storage of an instance, over another state of the rest. *)
Definition with_ext {E E'} (e : E') (s : GrandpaState E) : GrandpaState E' :=
  mkGrandpa e (InitialHash s) (BestFinalizedHash s) (ImportedHashes s) (SubmissionsCounter s)
    (ImportedHashesPointer s) (ImportedHeaders s) (RelayChainId s) (CurrentAuthoritySet s)
    (ParachainIdMap s) (PalletOwner s) (IsHalted s) (EverInitialized s) (gr_events s).

Record GrandpaPallets (E : Type) := mkPallets {
  rococo_store : GrandpaState unit;
  kusama_store : GrandpaState unit;
  polkadot_store : GrandpaState unit;
  pallets_ext : E;
}.
Arguments mkPallets {E}.
Arguments rococo_store {E}.
Arguments kusama_store {E}.
Arguments polkadot_store {E}.
Arguments pallets_ext {E}.

Section Instances.
Context {E : Type} `{GrandpaLib} `{GrandpaCodec} (config : PalletInstance → GrandpaConfig E).

Definition get_instance (i : PalletInstance) (p : GrandpaPallets E) : GrandpaState E :=
  with_ext (pallets_ext p)
    (match i with
     | RococoPallet => rococo_store p
     | KusamaPallet => kusama_store p
     | PolkadotPallet => polkadot_store p
     end).

Definition put_instance (i : PalletInstance) (s : GrandpaState E) (p : GrandpaPallets E)
  : GrandpaPallets E :=
  let st := with_ext tt s in
  match i with
  | RococoPallet => mkPallets st (kusama_store p) (polkadot_store p) (gr_ext s)
  | KusamaPallet => mkPallets (rococo_store p) st (polkadot_store p) (gr_ext s)
  | PolkadotPallet => mkPallets (rococo_store p) (kusama_store p) st (gr_ext s)
  end.

(** [LightClient for PalletInstance]: every operation goes to the selected pallet; the
    rational and fast heights are its finalised height. *)
Definition instance_light_client (i : PalletInstance) : LightClient (GrandpaPallets E) :=
  let lc := @grandpa_light_client E _ (config i) _ in
  let on {A} (m : M (GrandpaState E) DispatchError A) := zoom (get_instance i) (put_instance i) m in
  {|
    lc_latest_finalized_header := λ p, lc_latest_finalized_header lc (get_instance i p);
    lc_fast_height := λ p, lc_finalized_height lc (get_instance i p);
    lc_rational_height := λ p, lc_finalized_height lc (get_instance i p);
    lc_finalized_height := λ p, lc_finalized_height lc (get_instance i p);
    lc_latest_finalized_header_precompile :=
      λ p, lc_latest_finalized_header_precompile lc (get_instance i p);
    lc_fast_height_precompile := λ p, lc_finalized_height_precompile lc (get_instance i p);
    lc_rational_height_precompile := λ p, lc_finalized_height_precompile lc (get_instance i p);
    lc_finalized_height_precompile := λ p, lc_finalized_height_precompile lc (get_instance i p);
    lc_latest_heartbeat := on (lc_latest_heartbeat lc);
    lc_initialize := λ origin gid data, on (lc_initialize lc origin gid data);
    lc_turn_on := λ origin, on (lc_turn_on lc origin);
    lc_turn_off := λ origin, on (lc_turn_off lc origin);
    lc_submit_encoded_headers := λ data, on (lc_submit_encoded_headers lc data);
    lc_verify_event_inclusion := λ gid sm source message,
      on (lc_verify_event_inclusion lc gid sm source message);
    lc_verify_state_inclusion := λ gid sm message,
      on (lc_verify_state_inclusion lc gid sm message);
    lc_verify_tx_inclusion := λ gid sm message, on (lc_verify_tx_inclusion lc gid sm message);
    lc_verify_event_inclusion_precompile := λ gid sm source message,
      on (lc_verify_event_inclusion_precompile lc gid sm source message);
    lc_verify_state_inclusion_precompile := λ gid sm message,
      on (lc_verify_state_inclusion_precompile lc gid sm message);
    lc_verify_tx_inclusion_precompile := λ gid sm message,
      on (lc_verify_tx_inclusion_precompile lc gid sm message);
  |}.

End Instances.

Inductive PortalEvent :=
| GatewayRegistered (id : TargetId)
| SetOwner (id : TargetId) (owner : list Z)
| SetOperational (id : TargetId) (b : bool)
| HeaderSubmitted (v : GatewayVendor) (h : list Z).

Record PortalState (E : Type) := mkPortal {
  pt_xdns : XdnsState E;
  pt_events : list PortalEvent;
}.
Arguments mkPortal {E}.
Arguments pt_xdns {E}.
Arguments pt_events {E}.

(** [SelectLightClient]. *)
Class SelectLightClient (E : Type) := {
  select_light_client : GatewayVendor → result PortalError (LightClient E);
}.

Definition match_vendor_with_codec (vendor : GatewayVendor) : Codec :=
  match vendor with
  | Rococo => Scale
  | Kusama => Scale
  | Polkadot => Scale
  | Ethereum => Rlp
  | Sepolia => Rlp
  | XBI => Scale
  | AttestersVendor => Scale
  end.

(** [SelectLightClientRegistry] of the runtime: the instances of the GRANDPA pallet, the
    two Ethereum light clients (submodules of the repository), no other. *)
Definition SelectLightClientRegistry {E} `{GrandpaLib} `{GrandpaCodec}
    (config : PalletInstance → GrandpaConfig E) (eth2 sepolia : LightClient (GrandpaPallets E))
    (vendor : GatewayVendor) : result PortalError (LightClient (GrandpaPallets E)) :=
  match vendor with
  | Rococo | Kusama | Polkadot =>
      match select_grandpa_light_client_instance vendor with
      | Some i => ROk (instance_light_client config i)
      | None => RErr LightClientNotFoundByVendor
      end
  | Ethereum => ROk eth2
  | Sepolia => ROk sepolia
  | _ => RErr LightClientNotFoundByVendor
  end.

Section Portal.
Context {E : Type} `{RlpLib} `{!XdnsConfig E} `{!SelectLightClient E}.

Abbreviation PM A := (M (PortalState E) DispatchError A).
Abbreviation portal_err e := (PortalModuleError e).

Definition in_xdns {A} (m : M (XdnsState E) DispatchError A) : PM A :=
  zoom pt_xdns (λ x p, mkPortal x (pt_events p)) m.
Definition pt_ext (p : PortalState E) : E := xd_ext (pt_xdns p).
Definition in_client {A} (m : M E DispatchError A) : PM A :=
  zoom pt_ext (λ e p, mkPortal (set_xd_ext e (pt_xdns p)) (pt_events p)) m.
(** Recoding touches no state. *)
Definition in_abi {A} (m : Fill A) : PM A := zoom (λ _, tt) (λ _ p, p) m.

Definition verification_vendor_of (id : TargetId) : PM GatewayVendor :=
  r ← gets (λ p, get_verification_vendor id (pt_xdns p));
  match r with
  | ROk vendor => mret vendor
  | RErr _ => throw (portal_err GatewayVendorNotFound)
  end.

Definition match_light_client_by_gateway_id (id : TargetId) : PM (LightClient E) :=
  vendor ← verification_vendor_of id;
  match select_light_client vendor with
  | ROk lc => mret lc
  | RErr e => throw (portal_err e)
  end.

(** ** Reads *)

Definition portal_latest_heartbeat (id : TargetId) : PM LightClientHeartbeat :=
  lc ← match_light_client_by_gateway_id id; in_client (lc_latest_heartbeat lc).

(** [unwrap_or_default]. *)
Definition portal_latest_heartbeat_by_vendor (vendor : GatewayVendor) : PM LightClientHeartbeat :=
  match select_light_client vendor with
  | ROk lc =>
      hb ← attempt (in_client (lc_latest_heartbeat lc));
      mret (match hb with ROk hb => hb | RErr _ => default_heartbeat end)
  | RErr _ => mret default_heartbeat
  end.

Definition portal_latest_finalized_header (id : TargetId) : PM HeaderResult :=
  lc ← match_light_client_by_gateway_id id; gets (λ p, lc_latest_finalized_header lc (pt_ext p)).
Definition portal_finalized_height (id : TargetId) : PM HeightResult :=
  lc ← match_light_client_by_gateway_id id; gets (λ p, lc_finalized_height lc (pt_ext p)).
Definition portal_rational_height (id : TargetId) : PM HeightResult :=
  lc ← match_light_client_by_gateway_id id; gets (λ p, lc_rational_height lc (pt_ext p)).
Definition portal_fast_height (id : TargetId) : PM HeightResult :=
  lc ← match_light_client_by_gateway_id id; gets (λ p, lc_fast_height lc (pt_ext p)).

(** The precompiles answer nothing, or zero, where the operation fails. *)
Definition portal_latest_finalized_header_precompile (id : TargetId) : PM (list Z) :=
  r ← attempt (portal_latest_finalized_header id);
  mret (match r with ROk (HeaderBytes h) => h | _ => [] end).
Definition height_or_zero (m : PM HeightResult) : PM BlockNumber :=
  r ← attempt m; mret (match r with ROk (Height n) => n | _ => 0 end).
Definition portal_finalized_height_precompile (id : TargetId) : PM BlockNumber :=
  height_or_zero (portal_finalized_height id).
Definition portal_rational_height_precompile (id : TargetId) : PM BlockNumber :=
  height_or_zero (portal_rational_height id).
Definition portal_fast_height_precompile (id : TargetId) : PM BlockNumber :=
  height_or_zero (portal_fast_height id).

(** ** Proofs of inclusion *)

Definition portal_verify_event_inclusion (id : TargetId) (sm : SpeedMode)
    (source : option (list Z)) (message : list Z) : PM InclusionReceipt :=
  lc ← match_light_client_by_gateway_id id;
  in_client (lc_verify_event_inclusion lc id sm source message).
Definition portal_verify_state_inclusion (id : TargetId) (sm : SpeedMode) (message : list Z)
  : PM InclusionReceipt :=
  lc ← match_light_client_by_gateway_id id;
  in_client (lc_verify_state_inclusion lc id sm message).
Definition portal_verify_tx_inclusion (id : TargetId) (sm : SpeedMode) (message : list Z)
  : PM InclusionReceipt :=
  lc ← match_light_client_by_gateway_id id;
  in_client (lc_verify_tx_inclusion lc id sm message).

Definition portal_verify_event_inclusion_precompile (id : TargetId) (sm : SpeedMode)
    (source message : list Z) : PM (list Z) :=
  r ← portal_verify_event_inclusion id sm (execution_source_to_option source) message;
  mret (receipt_message r).
Definition portal_verify_state_inclusion_precompile (id : TargetId) (sm : SpeedMode)
    (message : list Z) : PM (list Z) :=
  r ← portal_verify_state_inclusion id sm message; mret (receipt_message r).
Definition portal_verify_tx_inclusion_precompile (id : TargetId) (sm : SpeedMode)
    (message : list Z) : PM (list Z) :=
  r ← portal_verify_tx_inclusion id sm message; mret (receipt_message r).

(** The message of a receipt, recoded from the codec of the vendor. *)
Definition recode_receipt (id : TargetId) (abi_descriptor : list Z) (out_codec : Codec)
    (r : InclusionReceipt) : PM InclusionReceipt :=
  vendor ← verification_vendor_of id;
  m ← in_abi (recode_bytes_with_descriptor (receipt_message r) abi_descriptor
                (match_vendor_with_codec vendor) out_codec);
  mret (mkReceipt (receipt_height r) (including_header r) m).

Definition verify_state_inclusion_and_recode (id : TargetId) (sm : SpeedMode)
    (message abi_descriptor : list Z) (out_codec : Codec) : PM InclusionReceipt :=
  r ← portal_verify_state_inclusion id sm message;
  recode_receipt id abi_descriptor out_codec r.
Definition verify_tx_inclusion_and_recode (id : TargetId) (sm : SpeedMode)
    (message abi_descriptor : list Z) (out_codec : Codec) : PM InclusionReceipt :=
  r ← portal_verify_tx_inclusion id sm message;
  recode_receipt id abi_descriptor out_codec r.
Definition verify_event_inclusion_and_recode (id : TargetId) (sm : SpeedMode) (source : list Z)
    (message abi_descriptor : list Z) (out_codec : Codec) : PM InclusionReceipt :=
  r ← portal_verify_event_inclusion id sm (execution_source_to_option source) message;
  recode_receipt id abi_descriptor out_codec r.

(** ** Operations that change state *)

Definition portal_initialize (origin : RawOrigin) (id : TargetId) (data : list Z) : PM unit :=
  lc ← match_light_client_by_gateway_id id; in_client (lc_initialize lc origin id data).
Definition portal_submit_encoded_headers (id : TargetId) (data : list Z) : PM unit :=
  lc ← match_light_client_by_gateway_id id;
  in_client (lc_submit_encoded_headers lc data) ;; mret tt.
Definition portal_turn_on (origin : RawOrigin) (id : TargetId) : PM bool :=
  lc ← match_light_client_by_gateway_id id; in_client (lc_turn_on lc origin).
Definition portal_turn_off (origin : RawOrigin) (id : TargetId) : PM bool :=
  lc ← match_light_client_by_gateway_id id; in_client (lc_turn_off lc origin).

Definition register_gateway (origin : RawOrigin) (id : TargetId) (token : AssetId)
    (verification : GatewayVendor) (execution : ExecutionVendor) (codec : Codec)
    (registrant escrow : option AccountId) (allowed : list (list Z * option Z))
    (token_props : TokenInfo) (data : list Z) : PM unit :=
  transactional
    (ensure_root origin ;;
     in_xdns (add_new_gateway
       (mkGateway id verification execution codec registrant escrow allowed)) ;;
     in_xdns (register_new_token origin token token_props) ;;
     in_xdns (link_token_to_gateway token id token_props) ;;
     (match data with [] => mret tt | _ => portal_initialize origin id data end) ;;
     modify (λ p, mkPortal (pt_xdns p) (pt_events p ++ [GatewayRegistered id]))).

End Portal.

(** ** Arguments of the precompile (primitives/src/portal.rs) *)

Inductive PrecompileArgs :=
| GetLatestFinalizedHeader (c : TargetId)
| GetFinalizedHeight (c : TargetId)
| GetRationalHeight (c : TargetId)
| GetFastHeight (c : TargetId)
| VerifyEventInclusion (c : TargetId) (sm : SpeedMode) (source bytes : list Z)
| VerifyStateInclusion (c : TargetId) (sm : SpeedMode) (bytes : list Z)
| VerifyTxInclusion (c : TargetId) (sm : SpeedMode) (bytes : list Z).

(** [SpeedMode] is encoded by its position. *)
Definition speed_mode_byte (sm : SpeedMode) : Z :=
  match sm with Fast => 0 | Rational => 1 | Finalized => 2 | Instant => 3 end.
Definition decode_speed_mode (l : list Z) : option (SpeedMode * list Z) :=
  match l with
  | 0 :: l => Some (Fast, l)
  | 1 :: l => Some (Rational, l)
  | 2 :: l => Some (Finalized, l)
  | 3 :: l => Some (Instant, l)
  | _ => None
  end.

(** The bytes at the end are written without their length. *)
Definition encode_args (a : PrecompileArgs) : list Z :=
  match a with
  | GetLatestFinalizedHeader c => 0 :: c
  | GetFinalizedHeight c => 1 :: c
  | GetRationalHeight c => 2 :: c
  | GetFastHeight c => 3 :: c
  | VerifyEventInclusion c sm source bytes => 4 :: c ++ [speed_mode_byte sm] ++ source ++ bytes
  | VerifyStateInclusion c sm bytes => 5 :: c ++ [speed_mode_byte sm] ++ bytes
  | VerifyTxInclusion c sm bytes => 6 :: c ++ [speed_mode_byte sm] ++ bytes
  end.

(** A value of [n] bytes and what follows. *)
Definition split_fixed (n : nat) (l : list Z) : option (list Z * list Z) :=
  v ← decode_fixed n l; Some (v, drop n l).

Definition decode_args (l : list Z) : option PrecompileArgs :=
  match l with
  | [] => None
  | tag :: l =>
    if bool_decide (0 ≤ tag ≤ 6) then
      '(c, l) ← split_fixed 4 l;
      match tag with
      | 0 => Some (GetLatestFinalizedHeader c)
      | 1 => Some (GetFinalizedHeight c)
      | 2 => Some (GetRationalHeight c)
      | 3 => Some (GetFastHeight c)
      | 4 =>
        '(sm, l) ← decode_speed_mode l;
        '(source, l) ← split_fixed 32 l;
        Some (VerifyEventInclusion c sm source l)
      | 5 => '(sm, l) ← decode_speed_mode l; Some (VerifyStateInclusion c sm l)
      | _ => '(sm, l) ← decode_speed_mode l; Some (VerifyTxInclusion c sm l)
      end
    else None
  end.

Definition portal_descriptor : list Z :=
  bytes_of "PrecompileArgs:Enum(GetLatestFinalizedHeader:Bytes4,GetFinalizedHeight:Bytes4,GetRationalHeight:Bytes4,GetFastHeight:Bytes4,VerifyEventInclusion:Quadruple(Bytes4,Byte,H256,Bytes),VerifyStateInclusion:Triple(Bytes4,Byte,Bytes),VerifyTxInclusion:Triple(Bytes4,Byte,Bytes),)".

Definition portal_interface_abi : result DispatchError Abi := abi_try_from portal_descriptor.

Definition recode_to_scale_and_decode `{RlpLib} (in_codec : Codec) (input : list Z)
  : Fill PrecompileArgs :=
  match input with
  | selector :: _ :: _ =>
    recoded ←
      match in_codec with
      | Rlp =>
        abi ← lift_result portal_interface_abi;
        filled ← try_fill_abi abi input in_codec;
        recode_as in_codec Scale true filled
      | Scale => mret input
      end;
    ok_or (decode_args (selector :: recoded)) (Other "Failed to decode portal interface enum")
  | _ => throw (Other "Not enough arguments to build enum")
  end.
