(* ===== verification/PortalProps.v ===== *)
(** * Properties of the portal

    - [gateway_registered]: what a registration stores, in the registry and in the
      light client, and that a failed one changes nothing.
    - [instances_isolated]: a call to one instance of the GRANDPA pallet leaves the
      storage of the others.
    - [portal_event_proved]: a receipt that the portal gives for a gateway of a
      GRANDPA chain, traced to the finalised chain of its instance.
    - [args_roundtrip], [scale_call_shifted]: the arguments of the precompile. *)

From S2P Require Import Prelude Types AccountManager World Circuit StandardAbi Vacuum Batches.
From S2P Require Import Attesters Xdns XdnsCalls XdnsSystem XdnsProps Abi AbiFill AbiRecode.
From S2P Require Import Justification JustificationFacts Grandpa GrandpaSystem GrandpaProps.
From S2P Require Import Portal.

Section PortalProps.
Context {E : Type} `{RlpLib} `{!XdnsConfig E} `{!SelectLightClient E}.

(** ** Registration *)

Lemma zoom_Ok {S T Er A} (get : S → T) (put : T → S → S) (m : M T Er A) s a s' :
  zoom get put m s = Ok a s' → ∃ t, m (get s) = Ok a t ∧ s' = put t s.
Proof. unfold zoom. destruct (m (get s)); [|done..]. intros [= <- <-]. by eexists. Qed.

Lemma add_new_gateway_inv g (s s' : XdnsState E) :
  add_new_gateway g s = Ok tt s' →
  Gateways s !! gateway_id g = None ∧ Gateways s' = <[gateway_id g := g]> (Gateways s).
Proof.
  unfold add_new_gateway. intros Ha. apply bind_Ok_inv in Ha as (b & s1 & [= <- <-] & Ha).
  destruct (Gateways s !! gateway_id g) eqn:Hg; [done|]. cbn in Ha. split; [done|].
  unfold override_gateway in Ha. apply bind_Ok_inv in Ha as ([] & s1 & Hp & Ha).
  apply populate_abi_Ok in Hp as (r & -> & _). monad_inv. done.
Qed.

Lemma match_client_inv id (p p' : PortalState E) lc :
  match_light_client_by_gateway_id id p = Ok lc p' →
  p' = p ∧ ∃ g, Gateways (pt_xdns p) !! id = Some g ∧
                select_light_client (verification_vendor g) = ROk lc.
Proof.
  unfold match_light_client_by_gateway_id, verification_vendor_of, mbind, M_bind, gets. cbn.
  unfold get_verification_vendor, lookup_gateway.
  destruct (Gateways (pt_xdns p) !! id) as [g|]; cbn; [|done].
  destruct (select_light_client _) as [lc'|] eqn:Hs; [|done]. intros [= <- <-]. eauto.
Qed.

Section Registration.
Context (id : TargetId) (token : AssetId) (v : GatewayVendor) (ev : ExecutionVendor) (c : Codec).
Context (reg esc : option AccountId) (allowed : list (list Z * option Z)) (props : TokenInfo).
Context (data : list Z).

Definition new_record : GatewayRecord := mkGateway id v ev c reg esc allowed.

(** What a registration leaves. *)
Record registered (p p' : PortalState E) : Prop := {
  rg_new : Gateways (pt_xdns p) !! id = None;
  rg_other : id ≠ SelfGatewayId;
  rg_gateways : Gateways (pt_xdns p') = <[id := new_record]> (Gateways (pt_xdns p));
  rg_linked : Tokens (pt_xdns p') !! (token, id) = Some (mkTokenRecord token id props);
  rg_listed : token ∈ AllTokenIds (pt_xdns p');
  rg_client : data ≠ [] → ∃ lc e,
    select_light_client v = ROk lc ∧ lc_initialize lc Root id data e = Ok tt (pt_ext p');
  rg_event : pt_events p' = pt_events p ++ [GatewayRegistered id];
  rg_consistent : xdns_inv (pt_xdns p) → xdns_inv (pt_xdns p');
}.

Lemma registry_part (x x1 x2 x3 : XdnsState E) :
  add_new_gateway new_record x = Ok tt x1 → register_new_token Root token props x1 = Ok tt x2 →
  link_token_to_gateway token id props x2 = Ok tt x3 →
  Gateways x !! id = None ∧ id ≠ SelfGatewayId ∧
  Gateways x3 = <[id := new_record]> (Gateways x) ∧
  Tokens x3 !! (token, id) = Some (mkTokenRecord token id props) ∧ token ∈ AllTokenIds x3.
Proof.
  intros Ha Hr Hl. apply add_new_gateway_inv in Ha as [Hn Hg].
  apply register_Ok in Hr as (e & -> & _). apply link_token_Ok in Hl as [Hnone ->].
  split_and!; [done| |exact Hg|by cbn; rewrite lookup_insert_eq|].
  - intros ->. cbn in Hnone. by rewrite lookup_insert_eq in Hnone.
  - cbn. unfold push_if_absent. repeat case_bool_decide; set_solver.
Qed.

Lemma registry_part_inv (x x1 x2 x3 : XdnsState E) :
  add_new_gateway new_record x = Ok tt x1 → register_new_token Root token props x1 = Ok tt x2 →
  link_token_to_gateway token id props x2 = Ok tt x3 → xdns_inv x → xdns_inv x3.
Proof.
  intros Ha Hr Hl Hx. unfold add_new_gateway in Ha.
  apply bind_Ok_inv in Ha as (b & s1 & [= <- <-] & Ha).
  destruct (is_some _); [done|].
  assert (xdns_inv x1) as H1 by (eapply (kept_ok _ x); [by apply override_gateway_kept|done]).
  assert (xdns_inv x2) as H2 by (eapply (kept_ok _ x1); [by apply register_new_token_kept|done]).
  eapply (kept_ok _ x2); [by apply link_token_kept|done].
Qed.

(** C27: A gateway is registered by root only.  A registration that succeeds was of a
    new gateway other than the Circuit's own; the registry then has its record and
    its token, stays consistent, and, when registration data came with it, the light
    client of its vendor was initialised with that data.  A registration that fails
    for any reason, in the light client too, leaves the registry, the light clients
    and the events as they were. *)
Theorem gateway_registered (origin : RawOrigin) (p : PortalState E) :
  match register_gateway origin id token v ev c reg esc allowed props data p with
  | Ok _ p' => origin = Root ∧ registered p p'
  | Err _ p' => p' = p
  | Panic => True
  end.
Proof.
  destruct (register_gateway _ _ _ _ _ _ _ _ _ _ _ p) as [[] p'|e p'|] eqn:Hreg; [| |done];
    last by eapply transactional_Err.
  apply (proj1 (transactional_Ok _ _ _ _)) in Hreg.
  apply bind_Ok_inv in Hreg as ([] & p0 & Ho & Hreg).
  destruct origin; [|done..]. injection Ho as <-. split; [done|].
  apply bind_Ok_inv in Hreg as ([] & p1 & Ha & Hreg). apply zoom_Ok in Ha as (x1 & Ha & ->).
  apply bind_Ok_inv in Hreg as ([] & p2 & Hr & Hreg). apply zoom_Ok in Hr as (x2 & Hr & ->).
  apply bind_Ok_inv in Hreg as ([] & p3 & Hl & Hreg). apply zoom_Ok in Hl as (x3 & Hl & ->).
  cbn in Hr, Hl. destruct (registry_part _ _ _ _ Ha Hr Hl) as (F1 & F2 & F3 & F4 & F5).
  pose proof (registry_part_inv _ _ _ _ Ha Hr Hl) as F6.
  apply bind_Ok_inv in Hreg as ([] & p4 & Hi & Hreg). injection Hreg as <-.
  destruct data as [|d ds] eqn:Hd.
  { injection Hi as <-. split; try done. }
  apply bind_Ok_inv in Hi as (lc & p5 & Hm & Hi). apply match_client_inv in Hm as [-> (g & Hg & Hs)].
  apply zoom_Ok in Hi as (e & Hi & ->). cbn in Hg. rewrite F3, lookup_insert_eq in Hg.
  injection Hg as <-. split; try done.
  - intros _. rewrite Hd. by eexists lc, _.
  - intros Hx. by apply (xdns_inv_frame x3); [..|apply F6].
Qed.

End Registration.
End PortalProps.

(** ** The instances of the GRANDPA pallet *)

Section Instances.
Context {E : Type} `{GrandpaLaws} `{GrandpaCodec} (config : PalletInstance → GrandpaConfig E).

Lemma get_put_instance i s (p : GrandpaPallets E) : get_instance i (put_instance i s p) = s.
Proof. by destruct i, s. Qed.

Lemma put_get_instance i (p : GrandpaPallets E) : put_instance i (get_instance i p) p = p.
Proof.
  destruct p as [[[]] [[]] [[]] e], i; done.
Qed.

(** The storage of the other instances. *)
Lemma put_other_instance i i' s (p : GrandpaPallets E) :
  i ≠ i' → with_ext tt (get_instance i' (put_instance i s p)) = with_ext tt (get_instance i' p).
Proof. by destruct i, i'. Qed.

End Instances.

Section GrandpaPortal.
Context {E : Type} `{RlpLib} `{GrandpaLaws} `{!HashLinks} `{GrandpaCodec}.
Context (config : PalletInstance → GrandpaConfig E) (eth2 sepolia : LightClient (GrandpaPallets E)).
Context `{!XdnsConfig (GrandpaPallets E)}.

(** The light clients of the runtime. *)
#[local] Instance runtime_light_clients : SelectLightClient (GrandpaPallets E) :=
  {| select_light_client := SelectLightClientRegistry config eth2 sepolia |}.

Lemma select_instance v i :
  select_grandpa_light_client_instance v = Some i →
  SelectLightClientRegistry config eth2 sepolia v = ROk (instance_light_client config i).
Proof. destruct v; by intros [= <-]. Qed.

(** For a gateway whose vendor is a GRANDPA chain, a receipt from the portal is
    traced to the finalised chain of the instance of that vendor, whatever the speed
    mode; the portal, the registry and the light clients stay as they were. *)
Theorem portal_event_proved id g i o (p p' : PortalState (GrandpaPallets E)) sm source message r :
  Gateways (pt_xdns p) !! id = Some g →
  select_grandpa_light_client_instance (verification_vendor g) = Some i →
  refines (GrandpaConfig0:=config i) o (get_instance i (pt_ext p)) →
  portal_verify_event_inclusion id sm source message p = Ok r p' →
  p' = p ∧ ∃ f, o = Some f ∧ traced (GrandpaConfig0:=config i) (get_instance i (pt_ext p)) id f r.
Proof.
  intros Hg Hi Ho Hv. apply bind_Ok_inv in Hv as (lc & p1 & Hm & Hv).
  apply match_client_inv in Hm as [-> (g' & Hg' & Hs)]. rewrite Hg in Hg'. injection Hg' as <-.
  cbn in Hs. rewrite (select_instance _ _ Hi) in Hs. injection Hs as <-.
  apply zoom_Ok in Hv as (t & Hv & ->). apply zoom_Ok in Hv as (s & Hv & ->).
  destruct (receipt_traced (GrandpaConfig0:=config i) _ _ _ _ _ _ _ Ho Hv) as [-> Ht].
  split; [|done]. rewrite put_get_instance. by destruct p as [[] ].
Qed.

(** Headers that are submitted through the portal are a step of the instance of the
    vendor of the gateway; the storage of the other instances and the registry do not
    change. *)
Theorem portal_headers_isolated id g i (p p' : PortalState (GrandpaPallets E)) data :
  Gateways (pt_xdns p) !! id = Some g →
  select_grandpa_light_client_instance (verification_vendor g) = Some i →
  portal_submit_encoded_headers id data p = Ok tt p' →
  gr_step (GrandpaConfig0:=config i) (get_instance i (pt_ext p)) (get_instance i (pt_ext p')) ∧
  (∀ i', i ≠ i' →
    with_ext tt (get_instance i' (pt_ext p')) = with_ext tt (get_instance i' (pt_ext p))) ∧
  frame (pt_xdns p') = frame (pt_xdns p) ∧ pt_events p' = pt_events p.
Proof.
  intros Hg Hi Hv. apply bind_Ok_inv in Hv as (lc & p1 & Hm & Hv).
  apply match_client_inv in Hm as [-> (g' & Hg' & Hs)]. rewrite Hg in Hg'. injection Hg' as <-.
  cbn in Hs. rewrite (select_instance _ _ Hi) in Hs. injection Hs as <-.
  apply bind_Ok_inv in Hv as (b & p1 & Hv & Hp). injection Hp as <-.
  apply zoom_Ok in Hv as (t & Hv & ->). apply zoom_Ok in Hv as (s & Hv & ->).
  apply bind_Ok_inv in Hv as ([] & s1 & Hv & Hp). injection Hp as _ <-.
  cbn [pt_ext pt_xdns xd_ext set_xd_ext]. unfold pt_ext at 2. cbn. rewrite get_put_instance.
  split_and!; [by eapply step_submit_encoded| |done|done].
  intros i' Hne. by apply put_other_instance.
Qed.

End GrandpaPortal.

(** ** Arguments of the precompile *)

(** What the types of the arguments guarantee. *)
Definition args_wf (a : PrecompileArgs) : Prop :=
  match a with
  | GetLatestFinalizedHeader c | GetFinalizedHeight c | GetRationalHeight c | GetFastHeight c
  | VerifyStateInclusion c _ _ | VerifyTxInclusion c _ _ => length c = 4%nat
  | VerifyEventInclusion c _ source _ => length c = 4%nat ∧ length source = 32%nat
  end.

Lemma split_fixed_app n l rest : length l = n → split_fixed n (l ++ rest) = Some (l, rest).
Proof.
  intros <-. unfold split_fixed, decode_fixed. rewrite length_app.
  rewrite (proj2 (Nat.leb_le _ _)) by lia. cbn. by rewrite take_app_length, drop_app_length.
Qed.

Lemma split_fixed_all n l : length l = n → split_fixed n l = Some (l, []).
Proof. intros Hl. rewrite <- (app_nil_r l) at 1. by apply split_fixed_app. Qed.

(** The encoding of the arguments of the portal precompile reads back as the
    arguments, the trailing bytes without their length included. *)
Theorem args_roundtrip a : args_wf a → decode_args (encode_args a) = Some a.
Proof.
  destruct a; cbn [encode_args args_wf decode_args app]; intros Hw; rewrite bool_decide_true by lia;
    try (rewrite split_fixed_all by done; done).
  - destruct Hw as [Hc Hs]. rewrite split_fixed_app by done. cbn.
    destruct sm; cbn; by rewrite split_fixed_app.
  - rewrite split_fixed_app by done. by destruct sm.
  - rewrite split_fixed_app by done. by destruct sm.
Qed.

(** In the SCALE codec the selector is put in front of an input that still has it: the
    call reads another chain, made of the selector and the first bytes of the chain. *)
Lemma scale_call_shifted `{RlpLib} a b c d :
  recode_to_scale_and_decode Scale (encode_args (GetFinalizedHeight [a; b; c; d])) tt =
  Ok (GetFinalizedHeight [1; a; b; c]) tt.
Proof. done. Qed.
