(* ===== verification/GrandpaSamples.v ===== *)
(** * A concrete light client

    A small instance of the libraries the GRANDPA light client relies on, proved to
    satisfy their laws: headers hashed from their parent and number, voters as a map of
    weights, signatures that repeat what is signed.  On it the light client and the
    portal run, and the theorems are applied. *)

From S2P Require Import Prelude Types AccountManager World Circuit StandardAbi Vacuum Batches.
From S2P Require Import Attesters Xdns XdnsCalls XdnsSystem XdnsProps Abi AbiFill AbiRecode.
From S2P Require Import AbiSamples Justification JustificationFacts Grandpa GrandpaSystem.
From S2P Require Import GrandpaProps Portal PortalProps.

(** ** Voters *)

Definition voters_total (m : gmap Z Z) : Z := map_sum (Z.max 0) m.
Record Voters := mkVoters {
  voters : gmap Z Z;
  voters_ok : (voters_total voters <=? u64_max) = true;
}.

(** Partial weights of the same voter add up; an empty or too heavy set is refused. *)
Definition add_voter (m : gmap Z Z) (e : Z * Z) : gmap Z Z :=
  <[e.1 := default 0 (m !! e.1) + e.2]> m.
Definition voters_new (l : list (Z * Z)) : option Voters :=
  let m := fold_left add_voter l ∅ in
  match Bool.bool_dec (voters_total m <=? u64_max) true with
  | left ok => if 0 <? voters_total m then Some (mkVoters m ok) else None
  | right _ => None
  end.
Definition voters_weight (v : Voters) (i : Z) : option Z :=
  match voters v !! i with Some w => if 0 <? w then Some w else None | None => None end.

Definition sample_hash (h : BridgedHeader) : Hash :=
  Z.abs (parent_hash h) * 10 + 1 + header_number h mod 10.

#[export] Instance sample_grandpa : GrandpaLib := {|
  header_hash := sample_hash;
  VoterSet := Voters;
  voter_set_new := voters_new;
  voter_weight := voters_weight;
  voter_threshold := λ v, voters_total (voters v) - (voters_total (voters v) - 1) / 3;
  total_weight := λ v, voters_total (voters v);
  check_message_signature := λ p i sig r sid,
    bool_decide (sig = [i; precommit_hash p; precommit_number p; r; sid]);
|}.

Lemma voters_weight_max v i : default 0 (voters_weight v i) = Z.max 0 (default 0 (voters v !! i)).
Proof.
  unfold voters_weight. destruct (voters v !! i) as [w|]; cbn; [|done].
  destruct (0 <? w) eqn:Hw; cbn; [apply Z.ltb_lt in Hw|apply Z.ltb_ge in Hw]; lia.
Qed.

Definition ids_sum (m : gmap Z Z) (l : list Z) : Z :=
  foldr (λ i acc, Z.max 0 (default 0 (m !! i)) + acc) 0 l.

Lemma ids_sum_delete m i l : i ∉ l → ids_sum (delete i m) l = ids_sum m l.
Proof.
  induction l as [|k l IH]; intros Hi; [done|]. apply not_elem_of_cons in Hi as [Hk Hi].
  cbn. fold (ids_sum m l) (ids_sum (delete i m) l). by rewrite lookup_delete_ne, IH.
Qed.

Lemma ids_sum_total m l : NoDup l → ids_sum m l ≤ voters_total m.
Proof.
  revert m. induction l as [|i l IH]; intros m Hn.
  { apply map_sum_nonneg. intros. lia. }
  apply NoDup_cons in Hn as [Hi Hn]. cbn. fold (ids_sum m l).
  rewrite <- (ids_sum_delete m i l Hi). specialize (IH (delete i m) Hn).
  unfold voters_total in *. destruct (m !! i) as [w|] eqn:Hm; cbn.
  - rewrite (map_sum_delete (Z.max 0) m i w Hm). lia.
  - rewrite (delete_id m i Hm) in IH |- *. exact IH.
Qed.

#[export] Instance sample_laws : GrandpaLaws.
Proof.
  split; cbn.
  - intros v i w. unfold voters_weight. destruct (voters v !! i); [|done].
    destruct (0 <? _) eqn:Hw; [|done]. intros [= <-]. by apply Z.ltb_lt.
  - intros v l Hn. etransitivity; [|by apply (ids_sum_total _ _ Hn)]. unfold weight_sum, ids_sum.
    clear Hn. induction l as [|x l IH]; cbn; [done|]. 
    rewrite voters_weight_max. apply Z.add_le_mono_l. exact IH.
  - intros v. by apply Z.leb_le, voters_ok.
  - intros v. pose proof (Z.mul_div_le (voters_total (voters v) - 1) 3). lia.
Qed.

Definition sample_rank (h : Hash) : nat := Z.to_nat (Z.abs h).
Lemma sample_rank_parent h : (sample_rank (parent_hash h) < sample_rank (sample_hash h))%nat.
Proof.
  unfold sample_rank, sample_hash. pose proof (Z.mod_pos_bound (header_number h) 10). lia.
Qed.

#[export] Instance sample_links : HashLinks :=
  {| hash_rank := sample_rank; hash_rank_parent := sample_rank_parent |}.

(** ** A chain *)

Definition hdr (parent : Hash) (n : BlockNumber) (d : list DigestItem) : BridgedHeader :=
  mkHeader parent n (100 + n) 0 d.
Definition h0 : BridgedHeader := hdr 0 0 [].
Definition h1 : BridgedHeader := hdr (sample_hash h0) 1 [].
Definition h2 : BridgedHeader := hdr (sample_hash h1) 2
  [GrandpaConsensus (LogScheduledChange (mkScheduledChange [(7, 1)] 0))].
Definition h3 : BridgedHeader := hdr (sample_hash h2) 3 [].

(** The precommit of an authority for a header, signed in round 1 of a set. *)
Definition vote (sid : SetId) (h : BridgedHeader) (i : AuthorityId) : SignedPrecommit :=
  mkSigned (mkPrecommit (sample_hash h) (header_number h))
    [i; sample_hash h; header_number h; 1; sid] i.

(** Three of four authorities vote for [h2], one of them through its child [h3]; a
    stranger and a second vote are ignored. *)
Definition just2 : GrandpaJustification :=
  mkJustification 1
    (mkCommit (sample_hash h2) 2
       [vote 5 h2 1; vote 5 h2 99; vote 5 h3 2; vote 5 h2 2; vote 5 h2 3]) [h3].
Definition just1 : GrandpaJustification :=
  mkJustification 1 (mkCommit (sample_hash h1) 1 [vote 5 h1 1; vote 5 h1 2; vote 5 h1 4]) [].

Definition four : list (Z * Z) := [(1, 1); (2, 1); (3, 1); (4, 1)].
Definition four_voters : VoterSet := mkVoters (fold_left add_voter four ∅) eq_refl.

Lemma justification_accepted_witness :
  acyclic (ancestry just2) ∧ justified 5 four_voters just2 (sample_hash h2, 2).
Proof.
  assert (acyclic (ancestry just2)) as Ha by apply ancestry_acyclic. split; [exact Ha|].
  apply (proj1 (justification_accepted_iff 5 four_voters just2 (sample_hash h2, 2) tt Ha)).
  vm_compute. reflexivity.
Defined.

Lemma equivocation_witness :
  ∃ common : list SignedPrecommit,
    total_weight four_voters < 3 * weight_sum four_voters common ∧ NoDup (map vote_id common) ∧
    ∀ v, v ∈ common →
      v ∈ precommits (commit just2) ∧ supports 5 just2 (ancestry just2) v ∧
      ∃ v', v' ∈ precommits (commit just1) ∧ vote_id v' = vote_id v ∧
            supports 5 just1 (ancestry just1) v'.
Proof.
  apply (finality_needs_equivocation four_voters just1 just2 (sample_hash h1, 1)
    (sample_hash h2, 2) 5 5 tt).
  - apply ancestry_acyclic.
  - apply ancestry_acyclic.
  - vm_compute. reflexivity.
  - vm_compute. reflexivity.
Defined.

Lemma two_votes_are_too_few :
  verify_justification (sample_hash h1, 1) 5 four_voters
    (mkJustification 1 (mkCommit (sample_hash h1) 1 [vote 5 h1 1; vote 5 h1 2]) []) tt =
  Err TooLowCumulativeWeight tt.
Proof. vm_compute. reflexivity. Qed.

(** ** A run of the light client *)

#[export] Instance sample_grandpa_config : GrandpaConfig Z := {|
  HeadersToStore := 2;
  MyVendor := Rococo;
  local_block_number := λ e, e;
  light_client_epoch := λ _ _ _ e, e + 1;
|}.

(** Decoders that know the headers and proofs of the sample. *)
#[export] Instance sample_codec : GrandpaCodec := {|
  decode_relay_registration := λ l,
    match l with 1 :: _ => Some (mkRelayRegistration [0] [1; 2; 3; 4] 5 77) | _ => None end;
  decode_header := λ l, match l with [0] => Some h0 | [1] => Some h1 | _ => None end;
  decode_header_data := λ l,
    match l with [2] => Some (mkHeaderData h2 [h1] just2) | _ => None end;
  decode_relay_proof := λ l,
    match l with
    | 2 :: payload => Some (mkRelayProof payload [[8; 1; 2; 3; 9]] (sample_hash h2))
    | _ => None
    end;
  decode_para_proof := λ _, None;
  decode_bytes := λ l, Some l;
  twox64_concat := λ l, l;
  read_trie_value := λ proof _ _, match proof with [ev] => Some (Some ev) | _ => None end;
  proof_contains := λ _ _, true;
|}.

Definition chain_id : TargetId := [114; 111; 99; 111].
Definition g_empty : GrandpaState Z :=
  mkGrandpa 10 None None ∅ 0 None ∅ None None ∅ None false false [].
Definition after {A} (m : M (GrandpaState Z) DispatchError A) (s : GrandpaState Z) : GrandpaState Z :=
  match m s with Ok _ s' => s' | _ => s end.
Definition g_started : GrandpaState Z := after (initialize Root chain_id [1]) g_empty.
Definition g_grown : GrandpaState Z := after (submit_headers (Signed 9) [h1] h2 just2) g_started.

Lemma g_empty_untracked : untracked g_empty.
Proof. split; reflexivity. Qed.

Lemma g_grown_reached : rtc gr_step g_empty g_grown.
Proof.
  apply (rtc_l _ _ g_started).
  - apply (step_initialize _ Root chain_id [1]). vm_compute. reflexivity.
  - apply rtc_once. apply (step_submit _ (Signed 9) [h1] h2 just2 true). vm_compute. reflexivity.
Qed.

Lemma store_two : 0 < HeadersToStore ≤ u32_max.
Proof. vm_compute. split; [reflexivity|discriminate]. Qed.

Lemma light_client_witness : ∃ o, rtc fin_step None o ∧ refines o g_grown.
Proof. exact (light_client_refines store_two g_empty g_grown g_empty_untracked g_grown_reached). Defined.


(** The range fills the ring of two: three headers are stored, and the authorities are
    those that [h2] announces. *)
Lemma grown_run :
  size (ImportedHeaders g_grown) = 3%nat ∧ BestFinalizedHash g_grown = Some (sample_hash h2) ∧
  CurrentAuthoritySet g_grown = Some (mkAuthoritySet [(7, 1)] 6).
Proof. vm_compute. split_and!; reflexivity. Qed.

Lemma submission_decided_witness :
  (∃ b a, importable [h1] h2 just2 b a g_started ∧
     verify_and_store_headers [h1] h2 just2 g_started = Ok tt (imported [h1] h2 a g_started)) ∨
  ((¬ ∃ b a, importable [h1] h2 just2 b a g_started) ∧
     ∃ e, verify_and_store_headers [h1] h2 just2 g_started = Err e g_started).
Proof. exact (submission_decided store_two [h1] h2 just2 g_started). Defined.

(** A range that skips [h1] is refused. *)
Lemma unlinked_refused :
  verify_and_store_headers [] h2 just2 g_started =
  Err (GrandpaModuleError InvalidJustificationLinkage) g_started.
Proof. vm_compute. reflexivity. Qed.

Lemma event_proved_witness :
  ∃ f, refines (Some f) g_grown ∧ rtc fin_step None (Some f) ∧
    traced g_grown chain_id f (mkReceipt 2 (be_bytes 32 (sample_hash h2)) [1; 2; 3]).
Proof.
  apply (proj2 (event_proved store_two g_empty g_grown g_grown chain_id [2; 1; 2; 3] None
    (mkReceipt 2 (be_bytes 32 (sample_hash h2)) [1; 2; 3]) g_empty_untracked g_grown_reached
    ltac:(vm_compute; reflexivity))).
Defined.

Import ToyRlp.

(** ** The precompile of the portal: the vectors of primitives/src/portal.rs *)

Lemma portal_vectors :
  recode_to_scale_and_decode Rlp (encode_args (GetLatestFinalizedHeader [9; 9; 9; 9])) tt =
    Ok (GetLatestFinalizedHeader [9; 9; 9; 9]) tt ∧
  recode_to_scale_and_decode Rlp
    (encode_args (VerifyEventInclusion [9; 9; 9; 9] Finalized (repeat 5 32) [1; 2; 3; 4])) tt =
    Ok (VerifyEventInclusion [9; 9; 9; 9] Finalized (repeat 5 32) [1; 2; 3; 4]) tt ∧
  recode_to_scale_and_decode Rlp
    (encode_args (VerifyStateInclusion [9; 9; 9; 9] Rational [1; 2; 3; 4])) tt =
    Ok (VerifyStateInclusion [9; 9; 9; 9] Rational [1; 2; 3; 4]) tt ∧
  recode_to_scale_and_decode Rlp
    (encode_args (VerifyTxInclusion [9; 9; 9; 9] Rational [1; 2; 3; 4])) tt =
    Ok (VerifyTxInclusion [9; 9; 9; 9] Rational [1; 2; 3; 4]) tt.
Proof. vm_compute. split_and!; reflexivity. Qed.

(** The same calls in SCALE read another chain, or nothing. *)
Lemma portal_scale_vectors :
  recode_to_scale_and_decode Scale (encode_args (GetFastHeight [9; 9; 9; 9])) tt =
    Ok (GetFastHeight [3; 9; 9; 9]) tt ∧
  recode_to_scale_and_decode Scale
    (encode_args (VerifyStateInclusion [9; 9; 9; 9] Rational [1; 2; 3; 4])) tt =
    Err (Other "Failed to decode portal interface enum") tt.
Proof. vm_compute. split; reflexivity. Qed.
