(* ===== verification/Volatile.v ===== *)
(** * The volatile local state

    [primitives/src/volatile.rs]: the state of a cross-chain transaction that a
    contract writes to, a map from 32-byte keys to values of at most 64 bytes in
    which a key is written once.

    - [LocalState] is the map [gmap Z (list Z)] of [Types]; a key is the hash of
      the encoded name of a value, and [twox_256] is library code ([TwoxHashing]).
    - [insert] returns the error message of the source as a string. *)

From S2P Require Import Prelude Types.

Class TwoxHashing := { twox_256 : list Z → Z }.

Section Volatile.
Context `{TwoxHashing}.
Abbreviation Local := (gmap Z (list Z)).

Definition local_state_new : Local := ∅.

(** The argument is the encoding of the key. *)
Definition key_2_state_key (key : list Z) : Z := twox_256 key.

Definition stick_key_with_prefix (key prefix : list Z) : list Z := prefix ++ key.

Definition volatile_get (key : list Z) (s : Local) : option (list Z) := s !! key_2_state_key key.

Definition volatile_cmp (key cmp_value : list Z) (s : Local) : bool :=
  bool_decide (volatile_get key s = Some cmp_value).

Definition value_2_state_value (value : list Z) : result string (list Z) :=
  if 64 <? Z.of_nat (length value)
  then RErr "Value is larger than max. 64 bytes allowed in the Volatile State"
  else ROk value.

(** [BTreeMap::insert] gives the value it replaces. *)
Definition volatile_insert (key val : list Z) : M Local string (Z * list Z) :=
  let key_candidate := key_2_state_key key in
  known ← gets (λ s, is_some (s !! key_candidate));
  if (known : bool) then throw "Key already exists in the Volatile State"
  else
    value_candidate ← lift_result (value_2_state_value val);
    old ← gets (λ s, s !! key_candidate);
    modify (λ s, <[key_candidate := value_candidate]> s) ;;
    match old with
    | Some _ => throw "Critical ERR - key override in Volatile storage, despite check!"
    | None => mret (key_candidate, value_candidate)
    end.

(** A sequence of writes, each of which may fail. *)
Fixpoint insert_all (writes : list (list Z * list Z)) (s : Local) : Local :=
  match writes with
  | [] => s
  | (key, val) :: writes =>
      insert_all writes
        (match volatile_insert key val s with Ok _ s' => s' | Err _ s' => s' | Panic => s end)
  end.

(** ** Facts *)

(** A write succeeds exactly when the key is new and the value short; a failed one
    leaves the state as it is. *)
Lemma volatile_insert_cases key val s :
  volatile_insert key val s =
    match s !! key_2_state_key key with
    | Some _ => Err "Key already exists in the Volatile State" s
    | None =>
        if 64 <? Z.of_nat (length val)
        then Err "Value is larger than max. 64 bytes allowed in the Volatile State" s
        else Ok (key_2_state_key key, val) (<[key_2_state_key key := val]> s)
    end.
Proof.
  unfold volatile_insert, value_2_state_value, mbind, M_bind, gets, modify. cbn.
  destruct (s !! key_2_state_key key) eqn:Hk; cbn; [done|].
  destruct (_ <? _); cbn; [done|]. by rewrite Hk.
Qed.

Lemma insert_all_keeps writes s k v :
  s !! k = Some v → insert_all writes s !! k = Some v.
Proof.
  revert s. induction writes as [|[key val] writes IH]; intros s Hk; [done|].
  cbn [insert_all]. apply IH. rewrite volatile_insert_cases.
  repeat case_match; simplify_eq; try done. rewrite lookup_insert_ne; [done|congruence].
Qed.

Definition short_values (s : Local) : Prop := ∀ k v, s !! k = Some v → (length v ≤ 64)%nat.

Lemma insert_all_short writes s : short_values s → short_values (insert_all writes s).
Proof.
  revert s. induction writes as [|[key val] writes IH]; intros s Hs; [done|].
  cbn [insert_all]. apply IH. rewrite volatile_insert_cases.
  repeat case_match; simplify_eq; try done.
  intros k v [[<- <-]|[_ Hk]]%lookup_insert_Some; [lia|]. by eapply Hs.
Qed.

(** The value of a key is the first short value written for it, whatever is written
    before and after under other keys, as long as their hashes differ. *)
Fixpoint first_short (k : Z) (writes : list (list Z * list Z)) : option (list Z) :=
  match writes with
  | [] => None
  | (key, val) :: writes =>
      if (key_2_state_key key =? k) && (Z.of_nat (length val) <=? 64)
      then Some val else first_short k writes
  end.

(** The local state is write-once storage: after any sequence of writes, failed ones
    included, a key has the value it had before, or else the first value of at most
    64 bytes that was written for it. *)
Theorem local_state_write_once writes s k :
  insert_all writes s !! k =
    match s !! k with Some v => Some v | None => first_short k writes end.
Proof.
  destruct (s !! k) as [v|] eqn:Hk; [by apply insert_all_keeps|].
  revert s Hk. induction writes as [|[key val] writes IH]; intros s Hk; [done|].
  cbn [insert_all first_short]. rewrite volatile_insert_cases.
  destruct (Z.eqb_spec (key_2_state_key key) k) as [<-|Hne]; cbn [andb].
  - rewrite Hk. destruct (Z.ltb_spec 64 (Z.of_nat (length val)));
      destruct (Z.leb_spec (Z.of_nat (length val)) 64); try lia; [by apply IH|].
    apply insert_all_keeps. by simplify_map_eq.
  - destruct (s !! key_2_state_key key); [by apply IH|].
    destruct (_ <? _); [by apply IH|]. apply IH. by rewrite lookup_insert_ne.
Qed.
End Volatile.
