(* ===== verification/ContractsRegistry.v ===== *)
(** * The contracts registry

    [pallets/contracts-registry/src/lib.rs] with the types of
    [primitives/src/{contracts_registry,contract_metadata}.rs].

    - [Registry]: the storage map of contracts and the events of the pallet.
    - A contract is stored under the hash of its code ([registry_generate_id]).
    - The storage map is iterated in the order of the hashes of its keys, which are
      library code ([RegistryHashing]). *)

From S2P Require Import Prelude Types AccountManager StandardAbi.

(** ** Data *)

Inductive ContractType := System | VanillaEvm | VanillaWasm | VolatileEvm | VolatileWasm.

#[export] Instance ContractType_eq_dec : EqDecision ContractType.
Proof. solve_decision. Defined.

Definition contract_type_byte (t : ContractType) : Z :=
  match t with
  | System => 0 | VanillaEvm => 1 | VanillaWasm => 2 | VolatileEvm => 3 | VolatileWasm => 4
  end.

(** The trait [KindValidator]. *)
Definition can_instantiate (t : ContractType) : bool :=
  match t with System => false | _ => true end.
Definition can_generate_side_effects (t : ContractType) : bool :=
  match t with VanillaWasm | VanillaEvm => false | _ => true end.
Definition can_remunerate (t : ContractType) : bool :=
  match t with VanillaWasm | VanillaEvm => false | _ => true end.
Definition has_storage (t : ContractType) : bool :=
  match t with VanillaWasm | VanillaEvm => true | _ => false end.

Record ContractMetadata := mkContractMetadata {
  metadata_version : list Z;
  meta_name : list Z;
  contract_type : ContractType;
  meta_version : list Z;
  meta_authors : list (list Z);
  description : option (list Z);
  documentation : option (list Z);
  repository : option (list Z);
  homepage : option (list Z);
  license : option (list Z);
}.

#[export] Instance ContractMetadata_eq_dec : EqDecision ContractMetadata.
Proof. solve_decision. Defined.

(** A byte array is encoded without its length. *)
Definition metadata_of_type (t : ContractType) : ContractMetadata :=
  {| metadata_version := bytes_of "0.0.1"; meta_name := bytes_of "Default contract";
     contract_type := t; meta_version := bytes_of "0.0.1";
     meta_authors := [bytes_of "Some author"]; description := None; documentation := None;
     repository := None; homepage := None; license := None |}.

Definition default_metadata : ContractMetadata := metadata_of_type VolatileWasm.
Definition system_contract : ContractMetadata := metadata_of_type System.

Definition with_type (m : ContractMetadata) (kind : ContractType) : ContractMetadata :=
  mkContractMetadata (metadata_version m) (meta_name m) kind (meta_version m) (meta_authors m)
    (description m) (documentation m) (repository m) (homepage m) (license m).

Record AuthorInfo := mkAuthor {
  author_account : AccountId;
  fees_per_single_use : option Balance;
}.

#[export] Instance AuthorInfo_eq_dec : EqDecision AuthorInfo.
Proof. solve_decision. Defined.

Record ContractActionDesc := mkActionDesc {
  desc_action_id : Hash;
  desc_target_id : option TargetId;
  desc_to : option AccountId;
}.

#[export] Instance ContractActionDesc_eq_dec : EqDecision ContractActionDesc.
Proof. solve_decision. Defined.

Record RawAliveContractInfo := mkAliveInfo {
  trie_id : list Z;
  storage_size : Z;
  pair_count : Z;
  code_hash : Hash;
  rent_allowance : Balance;
  rent_paid : Balance;
  deduct_block : BlockNumber;
  last_write : option BlockNumber;
  reserved_ : option unit;
}.

#[export] Instance RawAliveContractInfo_eq_dec : EqDecision RawAliveContractInfo.
Proof. solve_decision. Defined.

Record RegistryContract := mkContract {
  code_txt : list Z;
  contract_bytes : list Z;
  contract_author : AuthorInfo;
  contract_abi : option (list Z);
  action_descriptions : list ContractActionDesc;
  contract_info : option RawAliveContractInfo;
  contract_meta : ContractMetadata;
}.

#[export] Instance RegistryContract_eq_dec : EqDecision RegistryContract.
Proof. solve_decision. Defined.

(** ** Encodings *)

(** The SCALE encodings of a byte vector and of an optional one. *)
Definition encode_vec (b : list Z) : list Z := compact_len (Z.of_nat (length b)) ++ b.
Definition encode_opt_vec (o : option (list Z)) : list Z :=
  match o with None => [0] | Some b => 1 :: encode_vec b end.

Definition encode_metadata (m : ContractMetadata) : list Z :=
  encode_vec (metadata_version m) ++ encode_vec (meta_name m) ++
  [contract_type_byte (contract_type m)] ++ encode_vec (meta_version m) ++
  compact_len (Z.of_nat (length (meta_authors m))) ++ concat (map encode_vec (meta_authors m)) ++
  encode_opt_vec (description m) ++ encode_opt_vec (documentation m) ++
  encode_opt_vec (repository m) ++ encode_opt_vec (homepage m) ++ encode_opt_vec (license m).

(** The hash of the code text followed by the bytecode, as one vector. *)
Definition registry_generate_id `{Hashing} (c : RegistryContract) : Hash :=
  system_hash (encode_vec (code_txt c ++ contract_bytes c)).

(** ** The pallet *)

Inductive RegistryEvent :=
| ContractStored (requester : AccountId) (id : Hash)
| ContractPurged (requester : AccountId) (id : Hash).

Record Registry := mkRegistry {
  contracts_registry : gmap Z RegistryContract;
  registry_events : list RegistryEvent;
}.

Class RegistryHashing := { registry_key_hash : Hash → Z }.

Definition store_contract (id : Hash) (c : RegistryContract) (s : Registry) : Registry :=
  mkRegistry (<[id := c]> (contracts_registry s)) (registry_events s).
Definition remove_contract (id : Hash) (s : Registry) : Registry :=
  mkRegistry (delete id (contracts_registry s)) (registry_events s).
Definition registry_event (e : RegistryEvent) (s : Registry) : Registry :=
  mkRegistry (contracts_registry s) (e :: registry_events s).

(** [slice::windows]: the contiguous sub-slices of length [n]. *)
Fixpoint slice_windows (n : nat) (l : list Z) : list (list Z) :=
  match l with
  | [] => []
  | _ :: l' => if (n <=? length l)%nat then take n l :: slice_windows n l' else []
  end.

(** The index of the first occurrence of [needle]; [None] is the panic of [windows(0)]. *)
Definition find_subsequence (haystack needle : list Z) : option (option nat) :=
  match needle with
  | [] => None
  | _ => Some (fst <$> list_find (λ w, w = needle) (slice_windows (length needle) haystack))
  end.

(** The filter of [fetch_contracts]. *)
Definition contract_wanted (maybe_author : option AccountId) (metadata : option (list Z))
    (c : RegistryContract) : option bool :=
  match maybe_author, metadata with
  | Some author, Some text =>
      if author_account (contract_author c) =? author
      then is_some <$> find_subsequence (encode_metadata (contract_meta c)) text
      else Some false
  | Some author, None => Some (author_account (contract_author c) =? author)
  | None, Some text => is_some <$> find_subsequence (encode_metadata (contract_meta c)) text
  | None, None => Some false
  end.

(** [Iterator::filter] with a predicate that may panic. *)
Fixpoint filter_checked {T} (p : T → option bool) (l : list T) : option (list T) :=
  match l with
  | [] => Some []
  | x :: l' =>
      b ← p x;
      found ← filter_checked p l';
      Some (if (b : bool) then x :: found else found)
  end.

Section Pallet.
Context `{Hashing} `{RegistryHashing}.
Abbreviation D := (M Registry DispatchError).
Implicit Types s : Registry.

Definition registry_le (x y : Hash * RegistryContract) : Prop :=
  registry_key_hash x.1 < registry_key_hash y.1 ∨
  (registry_key_hash x.1 = registry_key_hash y.1 ∧ x.1 ≤ y.1).
#[export] Instance registry_le_dec : RelDecision registry_le.
Proof. intros x y. unfold registry_le. apply _. Defined.

(** [iter_values]. *)
Definition registry_values s : list RegistryContract :=
  map snd (merge_sort registry_le (map_to_list (contracts_registry s))).

Definition add_new_contract (origin : RawOrigin) (requester : AccountId) (c : RegistryContract)
    : D unit :=
  transactional
    (ensure_root origin ;;
     let contract_id := registry_generate_id c in
     (if requester =? author_account (contract_author c) then mret tt else panic) ;;
     known ← gets (λ s, contracts_registry s !! contract_id);
     match known with
     | Some _ => throw (ContractsRegistryModuleError ContractAlreadyExists)
     | None =>
         modify (store_contract contract_id c) ;;
         modify (registry_event (ContractStored requester contract_id))
     end).

Definition purge (origin : RawOrigin) (requester : AccountId) (contract_id : Hash) : D unit :=
  transactional
    (ensure_root origin ;;
     known ← gets (λ s, contracts_registry s !! contract_id);
     match known with
     | None => throw (ContractsRegistryModuleError UnknownContract)
     | Some _ =>
         modify (remove_contract contract_id) ;;
         modify (registry_event (ContractPurged requester contract_id))
     end).

(** [contains_key], then [get(..).unwrap()]. *)
Definition fetch_contract_by_id (contract_id : Hash)
    : M Registry ContractsRegistryError RegistryContract :=
  known ← gets (λ s, is_some (contracts_registry s !! contract_id));
  if (known : bool) then
    c ← gets (λ s, contracts_registry s !! contract_id); expect c
  else throw UnknownContract.

Definition fetch_contracts (maybe_author : option AccountId) (metadata : option (list Z))
    : M Registry ContractsRegistryError (list RegistryContract) :=
  all ← gets registry_values;
  contracts ← expect (filter_checked (contract_wanted maybe_author metadata) all);
  match contracts with
  | [] => throw UnknownContract
  | _ => mret contracts
  end.

(** ** Histories *)

Inductive RegistryCall :=
| CAddContract (requester : AccountId) (c : RegistryContract)
| CPurge (requester : AccountId) (id : Hash).

Definition registry_dispatch (origin : RawOrigin) (call : RegistryCall) : D unit :=
  match call with
  | CAddContract requester c => add_new_contract origin requester c
  | CPurge requester id => purge origin requester id
  end.

(** The registry after a dispatched call: a call that fails changes nothing, one that
    panics is not included in a block. *)
Inductive registry_step s : Registry → Prop :=
| registry_step_ok origin call s' :
    registry_dispatch origin call s = Ok tt s' → registry_step s s'
| registry_step_err origin call e s' :
    registry_dispatch origin call s = Err e s' → registry_step s s'.

Definition registry_genesis : Registry := mkRegistry ∅ [].
End Pallet.

(** ** Properties of the contracts registry

    The search of the metadata against its specification, the queries against the
    storage they read, and the invariant of every history of calls. *)

(** ** Searching a byte string *)

Definition occurs (needle haystack : list Z) : Prop := ∃ l1 l2, haystack = l1 ++ needle ++ l2.

Definition occurs_at (i : nat) (needle haystack : list Z) : Prop :=
  ∃ l1 l2, haystack = l1 ++ needle ++ l2 ∧ length l1 = i.

Lemma slice_windows_lookup n l i :
  (0 < n)%nat →
  slice_windows n l !! i = if (i + n <=? length l)%nat then Some (take n (drop i l)) else None.
Proof.
  intros Hn. revert i. induction l as [|x l IH]; intros i.
  - cbn [slice_windows length]. destruct (Nat.leb_spec (i + n) 0); [lia|]. by rewrite lookup_nil.
  - cbn [slice_windows length]. destruct (Nat.leb_spec n (S (length l))) as [Hl|Hl].
    + destruct i as [|i].
      * cbn [Nat.add drop]. by destruct (Nat.leb_spec n (S (length l))); [|lia].
      * cbn [lookup list_lookup drop Nat.add]. rewrite IH.
        by destruct (Nat.leb_spec (i + n) (length l)), (Nat.leb_spec (S (i + n)) (S (length l)));
          try lia.
    + destruct (Nat.leb_spec (i + n) (S (length l))); [lia|]. by rewrite lookup_nil.
Qed.

Lemma occurs_at_window i needle haystack :
  needle ≠ [] →
  occurs_at i needle haystack ↔ slice_windows (length needle) haystack !! i = Some needle.
Proof.
  intros Hne. assert (0 < length needle)%nat as Hlen by (destruct needle; [done|cbn; lia]).
  rewrite slice_windows_lookup by done. split.
  - intros (l1 & l2 & -> & <-). rewrite !length_app.
    destruct (Nat.leb_spec (length l1 + length needle) (length l1 + (length needle + length l2)));
      [|lia].
    by rewrite drop_app_length, take_app_length.
  - destruct (Nat.leb_spec (i + length needle) (length haystack)); [|done].
    intros [= Hw]. exists (take i haystack), (drop (length needle) (drop i haystack)).
    rewrite length_take. split; [|lia].
    rewrite <- Hw at 1. by rewrite !take_drop.
Qed.

Lemma occurs_occurs_at needle haystack : occurs needle haystack ↔ ∃ i, occurs_at i needle haystack.
Proof.
  split; [intros (l1 & l2 & ->); by exists (length l1), l1, l2|].
  intros (i & l1 & l2 & -> & _). by exists l1, l2.
Qed.

(** The search of the registry finds a non-empty needle exactly where it first occurs,
    and an empty one makes it panic. *)
Theorem find_subsequence_spec haystack needle :
  match find_subsequence haystack needle with
  | None => needle = []
  | Some None => needle ≠ [] ∧ ¬ occurs needle haystack
  | Some (Some i) =>
      occurs_at i needle haystack ∧ ∀ j, occurs_at j needle haystack → (i ≤ j)%nat
  end.
Proof.
  unfold find_subsequence. destruct needle as [|b needle]; [done|].
  set (n := b :: needle). assert (n ≠ []) as Hn by done.
  destruct (list_find _ _) as [[i w]|] eqn:Hf; cbn.
  - apply list_find_Some in Hf as (Hi & -> & Hmin). split; [by apply occurs_at_window|].
    intros j Hj%occurs_at_window; [|done]. apply Nat.le_ngt. intros Hlt.
    by apply (Hmin _ _ Hj Hlt).
  - split; [done|]. rewrite occurs_occurs_at. intros (i & Hi%occurs_at_window); [|done].
    apply list_find_None in Hf. rewrite Forall_lookup in Hf. by apply (Hf _ _ Hi).
Qed.

Lemma find_subsequence_found haystack needle :
  needle ≠ [] →
  ∃ b, is_some <$> find_subsequence haystack needle = Some b ∧ (b = true ↔ occurs needle haystack).
Proof.
  intros Hn. pose proof (find_subsequence_spec haystack needle) as Hf.
  destruct (find_subsequence haystack needle) as [[i|]|]; [| |done]; cbn; eexists; split;
    try reflexivity.
  - split; [|done]. intros _. apply occurs_occurs_at. exists i. apply Hf.
  - destruct Hf as [_ Hf]. done.
Qed.

(** ** Queries *)

(** What a query asks for: one of the two criteria, and every criterion given. *)
Definition asked_for (maybe_author : option AccountId) (metadata : option (list Z))
    (c : RegistryContract) : Prop :=
  (maybe_author, metadata) ≠ (None, None) ∧
  (∀ author, maybe_author = Some author → author_account (contract_author c) = author) ∧
  (∀ text, metadata = Some text → occurs text (encode_metadata (contract_meta c))).

Lemma contract_wanted_spec a m c :
  m ≠ Some [] → ∃ b, contract_wanted a m c = Some b ∧ (b = true ↔ asked_for a m c).
Proof.
  intros Hm. unfold contract_wanted, asked_for.
  destruct m as [text|].
  - destruct (find_subsequence_found (encode_metadata (contract_meta c)) text) as (b & Hb & Hiff);
      [congruence|].
    destruct a as [author|]; [|exists b; split; [done|]; naive_solver].
    destruct (Z.eqb_spec (author_account (contract_author c)) author);
      [exists b; split; [done|]; naive_solver|].
    exists false. split; [done|]. naive_solver.
  - destruct a as [author|]; eexists; (split; [reflexivity|]).
    + rewrite Z.eqb_eq. naive_solver.
    + naive_solver.
Qed.

Lemma filter_checked_spec {T} (p : T → option bool) (P : T → Prop) l :
  (∀ x, x ∈ l → ∃ b, p x = Some b ∧ (b = true ↔ P x)) →
  ∃ found, filter_checked p l = Some found ∧ ∀ x, x ∈ found ↔ x ∈ l ∧ P x.
Proof.
  induction l as [|x l IH]; intros Hp.
  - exists []. split; [done|]. set_solver.
  - destruct IH as (found & Hf & Hin); [intros y Hy; apply Hp; by right|].
    destruct (Hp x) as (b & Hb & Hx); [left|]. cbn [filter_checked]. rewrite Hb, Hf. cbn.
    eexists. split; [reflexivity|]. intros y. destruct b; set_solver.
Qed.

Section Registry.
Context `{Hashing} `{RegistryHashing}.
Implicit Types s : Registry.

Lemma registry_values_elem s c :
  c ∈ registry_values s ↔ ∃ id, contracts_registry s !! id = Some c.
Proof.
  unfold registry_values. rewrite list_elem_of_fmap. split.
  - intros ([id c'] & -> & Hin). rewrite merge_sort_Permutation in Hin.
    exists id. by apply elem_of_map_to_list.
  - intros (id & Hid). exists (id, c). split; [done|]. rewrite merge_sort_Permutation.
    by apply elem_of_map_to_list.
Qed.

(** A query finds exactly the stored contracts it asks for, and fails when there is none
    (in particular when it has no criterion); it panics only on an empty text. *)
Theorem fetch_contracts_spec maybe_author metadata s :
  metadata ≠ Some [] →
  wp (fetch_contracts maybe_author metadata)
    (λ found s', s' = s ∧ found ≠ [] ∧
       ∀ c, c ∈ found ↔
         (∃ id, contracts_registry s !! id = Some c) ∧ asked_for maybe_author metadata c)
    (λ e s', s' = s ∧ e = UnknownContract ∧
       ∀ id c, contracts_registry s !! id = Some c → ¬ asked_for maybe_author metadata c) s.
Proof.
  intros Hm. unfold fetch_contracts, wp, mbind, M_bind, gets.
  destruct (filter_checked_spec (contract_wanted maybe_author metadata)
              (asked_for maybe_author metadata) (registry_values s)) as (found & -> & Hin).
  { intros c _. by apply contract_wanted_spec. }
  setoid_rewrite registry_values_elem in Hin. cbn.
  destruct found as [|c0 found]; cbn; (split; [done|]); (split; [done|]).
  - intros id c Hid Hask. by apply (not_elem_of_nil c), Hin; eauto.
  - done.
Qed.

(** An empty text makes a query panic as soon as a contract is stored. *)
Theorem empty_text_panics s :
  contracts_registry s ≠ ∅ → fetch_contracts None (Some []) s = Panic.
Proof.
  intros Hs. unfold fetch_contracts, mbind, M_bind, gets.
  destruct (registry_values s) as [|c l] eqn:Hv; [|done].
  destruct (map_choose _ Hs) as (id & c & Hc).
  assert (c ∈ registry_values s) as Hin by (apply registry_values_elem; eauto).
  rewrite Hv in Hin. by apply not_elem_of_nil in Hin.
Qed.

(** ** Storing, fetching and purging *)

Lemma fetch_by_id_cases id s :
  fetch_contract_by_id id s =
    match contracts_registry s !! id with Some c => Ok c s | None => Err UnknownContract s end.
Proof.
  unfold fetch_contract_by_id, mbind, M_bind, gets. cbn.
  destruct (contracts_registry s !! id) eqn:Hid; cbn; [|done]. by rewrite Hid.
Qed.

(** What the two calls do, on every branch. *)
Lemma add_new_contract_cases origin requester c s :
  add_new_contract origin requester c s =
    match origin with
    | Root =>
        if requester =? author_account (contract_author c) then
          match contracts_registry s !! registry_generate_id c with
          | Some _ => Err (ContractsRegistryModuleError ContractAlreadyExists) s
          | None => Ok tt (registry_event (ContractStored requester (registry_generate_id c))
                             (store_contract (registry_generate_id c) c s))
          end
        else Panic
    | _ => Err BadOrigin s
    end.
Proof.
  unfold add_new_contract, transactional, mbind, M_bind, gets.
  destruct origin; cbn; [|done|done]. destruct (_ =? _); cbn; [|done]. by destruct (_ !! _).
Qed.

Lemma purge_cases origin requester id s :
  purge origin requester id s =
    match origin with
    | Root =>
        match contracts_registry s !! id with
        | None => Err (ContractsRegistryModuleError UnknownContract) s
        | Some _ => Ok tt (registry_event (ContractPurged requester id) (remove_contract id s))
        end
    | _ => Err BadOrigin s
    end.
Proof.
  unfold purge, transactional, mbind, M_bind, gets.
  destruct origin; cbn; [|done|done]. by destruct (_ !! _).
Qed.

(** A contract that is stored can be fetched by the hash of its code until it is purged;
    no other contract is touched. *)
Theorem stored_contract_fetched requester c s s' :
  add_new_contract Root requester c s = Ok tt s' →
  fetch_contract_by_id (registry_generate_id c) s' = Ok c s' ∧
  (∀ id, id ≠ registry_generate_id c →
     contracts_registry s' !! id = contracts_registry s !! id) ∧
  (∀ who, ∃ s'', purge Root who (registry_generate_id c) s' = Ok tt s'' ∧
     contracts_registry s'' = contracts_registry s).
Proof.
  rewrite add_new_contract_cases. destruct (_ =? _); [|done].
  destruct (contracts_registry s !! _) eqn:Hid; [done|]. intros [= <-].
  rewrite fetch_by_id_cases. cbn. rewrite lookup_insert_eq. split_and!; [done| |].
  - intros id Hne. by rewrite lookup_insert_ne.
  - intros who. rewrite purge_cases. cbn. rewrite lookup_insert_eq. eexists. split; [done|].
    cbn. by rewrite delete_insert_id.
Qed.

(** Only the concatenation of the text and the bytecode counts: another contract with
    the same concatenation is refused. *)
Theorem code_split_ambiguous requester c c' s :
  code_txt c ++ contract_bytes c = code_txt c' ++ contract_bytes c' →
  requester = author_account (contract_author c') →
  contracts_registry s !! registry_generate_id c = Some c →
  add_new_contract Root requester c' s =
    Err (ContractsRegistryModuleError ContractAlreadyExists) s.
Proof.
  intros Hcode -> Hc. rewrite add_new_contract_cases, Z.eqb_refl.
  unfold registry_generate_id in *. rewrite <- Hcode. by rewrite Hc.
Qed.

(** ** Histories *)

(** Every stored contract is under the hash of its own code, and its author asked for it. *)
Definition registry_inv s : Prop :=
  ∀ id c, contracts_registry s !! id = Some c →
    id = registry_generate_id c ∧
    ContractStored (author_account (contract_author c)) id ∈ registry_events s.

Lemma registry_step_inv s s' : registry_inv s → registry_step s s' → registry_inv s'.
Proof.
  intros Hs Hstep. destruct Hstep as [origin [requester c|requester id] s' Hok|
                                      origin [requester c|requester id] e s' Herr];
    cbn [registry_dispatch] in *.
  - rewrite add_new_contract_cases in Hok. destruct origin; try done.
    destruct (Z.eqb_spec requester (author_account (contract_author c))) as [->|]; [|done].
    destruct (_ !! _); [done|]. injection Hok as <-. intros id' c'. cbn.
    intros [[<- <-]|[_ Hid]]%lookup_insert_Some; [split; [done|left]|].
    destruct (Hs _ _ Hid) as [? ?]. split; [done|by right].
  - rewrite purge_cases in Hok. destruct origin; try done. destruct (_ !! _); [|done].
    injection Hok as <-. intros id' c'. cbn. intros [_ Hid]%lookup_delete_Some.
    destruct (Hs _ _ Hid) as [? ?]. split; [done|by right].
  - unfold add_new_contract in Herr. by apply transactional_Err in Herr as ->.
  - unfold purge in Herr. by apply transactional_Err in Herr as ->.
Qed.

(** In every history of calls from genesis, a contract is stored under the hash of its
    code, and was stored on behalf of its author. *)
Theorem registry_histories s :
  rtc registry_step registry_genesis s →
  ∀ id c, fetch_contract_by_id id s = Ok c s →
    id = registry_generate_id c ∧
    ContractStored (author_account (contract_author c)) id ∈ registry_events s.
Proof.
  intros Hr. assert (registry_inv s) as Hs.
  { assert (registry_inv registry_genesis) as Hgen by done. clear -Hr Hgen.
    induction Hr as [|s1 s2 s3 Hstep _ IH]; [done|]. by apply IH, (registry_step_inv s1). }
  intros id c. rewrite fetch_by_id_cases. destruct (_ !! _) eqn:Hid; [|done].
  intros [= <-]. by apply Hs.
Qed.
End Registry.
