(* ===== verification/AccountMapping.v ===== *)
(** * The account mapping of the 3VM

    [pallets/3vm/account-mapping/src/lib.rs]: the two-way mapping between the accounts
    of the chain and EVM addresses, with the trait [AddressMapping] of
    [primitives/src/threevm.rs] it implements.

    - [Mapping B]: the maps [Accounts] and [EvmAddresses], the events of the pallet and
      the state [B] of the currency.
    - An account is a 256-bit word, an EVM address a 160-bit word; their bytes are
      [be_bytes 32] and [be_bytes 20].
    - The currency is the class [Ledger]; what the pallet uses besides and the
      recovery of public keys are [MappingConfig]. *)

From S2P Require Import Prelude Types AccountManager StandardAbi.

Abbreviation EvmAddress := Z (only parsing).

Inductive MappingEvent := ClaimAccount (account_id : AccountId) (evm_address : EvmAddress).

Record Mapping (B : Type) := mkMapping {
  mp_bank : B;
  mp_accounts : gmap Z AccountId;
  evm_addresses : gmap Z EvmAddress;
  mp_events : list MappingEvent;
}.
Arguments mkMapping {B}.
Arguments mp_bank {B}.
Arguments mp_accounts {B}.
Arguments evm_addresses {B}.
Arguments mp_events {B}.

Class MappingConfig (B : Type) := {
  NetworkTreasuryAccount : AccountId;
  StorageDepositFee : Balance;
  (** [frame_system::Pallet::account_exists]. *)
  account_exists : AccountId → B → bool;
  (** [Currency::transfer] with [AllowDeath], from the first to the second. *)
  transfer_allow_death : AccountId → AccountId → Balance → B → result DispatchError B;
  (** [secp256k1_ecdsa_recover]: the public key, of 64 bytes. *)
  secp256k1_ecdsa_recover : list Z → list Z → option (list Z);
}.

(** ** Addresses *)

Definition ETH_SIGNED_MESSAGE_PREFIX : list Z :=
  [25; 69; 116; 104; 101; 114; 101; 117; 109; 32; 83; 105; 103; 110; 101; 100; 32; 77; 101; 115;
   115; 97; 103; 101; 58; 10; 51; 50].

(** The ASCII hexadecimal digits of a byte string. *)
Definition ascii_nibble (n : Z) : Z := if n <? 10 then 48 + n else 97 - 10 + n.
Definition to_ascii_hex (data : list Z) : list Z :=
  concat (map (λ b, [ascii_nibble (b / 16); ascii_nibble (b mod 16)]) data).

Definition ethereum_signable_message `{Hashing} (what extra : list Z) : list Z :=
  ETH_SIGNED_MESSAGE_PREFIX ++ be_bytes 32 (keccak256 (what ++ extra)).

Definition account_to_default_evm_address (account_id : AccountId) : EvmAddress :=
  from_be_bytes (drop 12 (be_bytes 32 account_id)).

(** [b"evm:"]. *)
Definition evm_prefix : list Z := [101; 118; 109; 58].

Definition create_default_substrate_address (address : EvmAddress) : AccountId :=
  from_be_bytes (evm_prefix ++ be_bytes 20 address ++ replicate 8 0).

(** The address inside an account that starts with the prefix. *)
Definition underlying_evm_address (account_id : AccountId) : option EvmAddress :=
  let data := be_bytes 32 account_id in
  if bool_decide (take 4 data = evm_prefix)
  then Some (from_be_bytes (take 20 (drop 4 data)))
  else None.

Section Mapping.
Context {B : Type} `{Hashing} `{Ledger B} `{!MappingConfig B}.
Abbreviation MM := (M (Mapping B) DispatchError).
Implicit Types s : Mapping B.

Definition eth_recover (signature what extra : list Z) : option EvmAddress :=
  let msg := be_bytes 32 (keccak256 (ethereum_signable_message what extra)) in
  pk ← secp256k1_ecdsa_recover signature msg;
  Some (from_be_bytes (drop 12 (be_bytes 32 (keccak256 pk)))).

(** ** The trait [AddressMapping] *)

Definition mapping_into_account_id (address : EvmAddress) s : AccountId :=
  match mp_accounts s !! address with
  | Some acc => acc
  | None => create_default_substrate_address address
  end.

Definition get_evm_address (account_id : AccountId) s : option EvmAddress :=
  match evm_addresses s !! account_id with
  | Some e => Some e
  | None => underlying_evm_address account_id
  end.

Definition link (account_id : AccountId) (address : EvmAddress) s : Mapping B :=
  mkMapping (mp_bank s) (<[address := account_id]> (mp_accounts s))
    (<[account_id := address]> (evm_addresses s)) (mp_events s).
Definition unlink (account_id : AccountId) (address : EvmAddress) s : Mapping B :=
  mkMapping (mp_bank s) (delete address (mp_accounts s)) (delete account_id (evm_addresses s))
    (mp_events s).
Definition mp_deposit_event (e : MappingEvent) s : Mapping B :=
  mkMapping (mp_bank s) (mp_accounts s) (evm_addresses s) (e :: mp_events s).

Definition get_or_create_evm_address (account_id : AccountId) s : Mapping B * EvmAddress :=
  match get_evm_address account_id s with
  | Some e => (s, e)
  | None =>
      let addr := account_to_default_evm_address account_id in
      (link account_id addr s, addr)
  end.

Definition get_default_evm_address (account_id : AccountId) : EvmAddress :=
  account_to_default_evm_address account_id.

Definition is_linked (account_id : AccountId) (evm : EvmAddress) s : bool :=
  bool_decide (get_evm_address account_id s = Some evm)
  || (account_to_default_evm_address account_id =? evm).

(** ** Calls *)

Definition in_bank (f : B → result DispatchError B) : MM unit :=
  try_modify (λ s, match f (mp_bank s) with
                   | ROk b => ROk (mkMapping b (mp_accounts s) (evm_addresses s) (mp_events s))
                   | RErr e => RErr e
                   end) id.

Definition mapping_err (e : AccountMappingError) : DispatchError := AccountMappingModuleError e.

Definition ensure_unmapped (who : AccountId) : MM unit :=
  mapped ← gets (λ s, evm_addresses s !! who);
  ensure (is_none mapped) (mapping_err AccountIdHasMapped).

Definition pay_storage_deposit (who : AccountId) : MM unit :=
  in_bank (currency_transfer who NetworkTreasuryAccount StorageDepositFee).

(** The balance of the account an unmapped address stands for goes to the claimer. *)
Definition merge_default_account (eth_address : EvmAddress) (who : AccountId) : MM unit :=
  account_id ← gets (mapping_into_account_id eth_address);
  exists_ ← gets (λ s, account_exists account_id (mp_bank s));
  if (exists_ : bool) then
    in_bank (λ b, transfer_allow_death account_id who (free_balance b account_id) b)
  else mret tt.

Definition claim_eth_account (origin : RawOrigin) (eth_address : EvmAddress)
    (eth_signature : list Z) : MM unit :=
  transactional
    (who ← ensure_signed origin;
     ensure_unmapped who ;;
     known ← gets (λ s, mp_accounts s !! eth_address);
     ensure (is_none known) (mapping_err EthAddressHasMapped) ;;
     address ← ok_or (eth_recover eth_signature (be_bytes 20 eth_address) [])
                 (mapping_err BadSignature);
     ensure (eth_address =? address) (mapping_err PreImageAddressNotMatchingRecovered) ;;
     merge_default_account eth_address who ;;
     pay_storage_deposit who ;;
     modify (link who eth_address) ;;
     modify (mp_deposit_event (ClaimAccount who eth_address))).

Definition claim_default_account (origin : RawOrigin) : MM unit :=
  transactional
    (who ← ensure_signed origin;
     ensure_unmapped who ;;
     pay_storage_deposit who ;;
     eth_address ← run_total (get_or_create_evm_address who);
     modify (mp_deposit_event (ClaimAccount who eth_address))).

Definition unclaim (origin : RawOrigin) : MM unit :=
  transactional
    (who ← ensure_signed origin;
     address ← gets (get_evm_address who);
     match address with
     | Some eth_address => modify (unlink who eth_address)
     | None => throw (mapping_err EthAddressHasMapped)
     end).

(** [CallKillAccount]. *)
Definition on_killed_account (who : AccountId) s : Mapping B :=
  let s := mkMapping (mp_bank s)
             (delete (account_to_default_evm_address who) (mp_accounts s))
             (evm_addresses s) (mp_events s) in
  match evm_addresses s !! who with
  | Some evm_addr => unlink who evm_addr s
  | None => s
  end.

(** [StaticLookup]; the other kinds of address are refused alike. *)
Inductive MultiAddress := AddrId (a : AccountId) | AddrAddress20 (bytes : list Z) | AddrOther.

Definition mapping_lookup (a : MultiAddress) s : option AccountId :=
  match a with
  | AddrAddress20 i => Some (mapping_into_account_id (from_be_bytes i) s)
  | _ => None
  end.
Definition mapping_unlookup (a : AccountId) : MultiAddress := AddrId a.
End Mapping.

(** ** Properties of the account mapping

    The two maps are inverse to each other in every history in which no claim meets an
    address already in use, the effect of every call on every branch, and what the
    conditions on histories are needed for. *)

(** ** Addresses *)

Lemma default_evm_address_mod a : account_to_default_evm_address a = a mod 2 ^ 160.
Proof.
  unfold account_to_default_evm_address. change 32%nat with (12 + 20)%nat.
  rewrite be_bytes_app, drop_app_length' by by rewrite length_be_bytes.
  by rewrite from_be_bytes_be_bytes.
Qed.

Lemma be_bytes_default_account e :
  be_bytes 32 (create_default_substrate_address e) =
  evm_prefix ++ be_bytes 20 e ++ replicate 8 0.
Proof.
  unfold create_default_substrate_address.
  replace 32%nat with (length (evm_prefix ++ be_bytes 20 e ++ replicate 8 0))
    by (rewrite !length_app, length_be_bytes; reflexivity).
  apply be_bytes_from_be_bytes. rewrite !Forall_app. split_and!; [|apply be_bytes_is_byte|].
  - repeat constructor; unfold is_byte; lia.
  - repeat constructor; unfold is_byte; lia.
Qed.

(** The account an address stands for while it is not claimed contains the address. *)
Lemma underlying_default_account e :
  0 ≤ e < 2 ^ 160 → underlying_evm_address (create_default_substrate_address e) = Some e.
Proof.
  intros He. unfold underlying_evm_address. rewrite be_bytes_default_account.
  rewrite take_app_length' by done. rewrite bool_decide_true by done.
  rewrite drop_app_length' by done. rewrite take_app_length' by by rewrite length_be_bytes.
  rewrite from_be_bytes_be_bytes. f_equal. by apply Z.mod_small.
Qed.

(** ** Calls *)

Section Facts.
Context {B : Type} `{Hashing} `{Ledger B} `{!MappingConfig B}.
Implicit Types s : Mapping B.

(** Money moves; the maps stay. *)
Definition same_maps s s' : Prop :=
  mp_accounts s' = mp_accounts s ∧ evm_addresses s' = evm_addresses s ∧ mp_events s' = mp_events s.

Lemma in_bank_frame f s s' : in_bank f s = Ok tt s' → same_maps s s' ∧ f (mp_bank s) = ROk (mp_bank s').
Proof.
  unfold in_bank, try_modify. destruct (f (mp_bank s)) eqn:Hf; [|done]. by intros [= <-].
Qed.

Lemma merge_frame e who s s' : merge_default_account e who s = Ok tt s' → same_maps s s'.
Proof.
  unfold merge_default_account, mbind, M_bind, gets. destruct (account_exists _ _).
  - intros Hb. by apply in_bank_frame in Hb as [? _].
  - by intros [= <-].
Qed.

Lemma pay_frame who s s' : pay_storage_deposit who s = Ok tt s' → same_maps s s'.
Proof. intros Hb. by apply in_bank_frame in Hb as [? _]. Qed.

Lemma same_maps_trans s1 s2 s3 : same_maps s1 s2 → same_maps s2 s3 → same_maps s1 s3.
Proof. unfold same_maps. intros (?&?&?) (?&?&?). split_and!; congruence. Qed.

(** The checks of a claim before money moves. *)
Definition claim_checks (who : AccountId) (e : EvmAddress) (signature : list Z) s
    : option AccountMappingError :=
  if is_some (evm_addresses s !! who) then Some AccountIdHasMapped
  else if is_some (mp_accounts s !! e) then Some EthAddressHasMapped
  else
    match eth_recover signature (be_bytes 20 e) [] with
    | None => Some BadSignature
    | Some a => if e =? a then None else Some PreImageAddressNotMatchingRecovered
    end.

Lemma claim_eth_account_cases who e signature s :
  claim_eth_account (Signed who) e signature s =
    match claim_checks who e signature s with
    | Some err => Err (AccountMappingModuleError err) s
    | None =>
        match (merge_default_account e who ;; pay_storage_deposit who) s with
        | Ok _ s1 => Ok tt (mp_deposit_event (ClaimAccount who e) (link who e s1))
        | Err err _ => Err err s
        | Panic => Panic
        end
    end.
Proof.
  unfold claim_eth_account, claim_checks, ensure_unmapped, transactional, mbind, M_bind, gets. cbn.
  destruct (evm_addresses s !! who); cbn; [done|].
  destruct (mp_accounts s !! e); cbn; [done|].
  destruct (eth_recover _ _ _); cbn; [|done].
  destruct (e =? _); cbn; [|done].
  destruct (merge_default_account e who s); cbn; [|done|done].
  by destruct (pay_storage_deposit who _).
Qed.

Lemma claim_default_account_cases who s :
  claim_default_account (Signed who) s =
    match evm_addresses s !! who with
    | Some _ => Err (AccountMappingModuleError AccountIdHasMapped) s
    | None =>
        match pay_storage_deposit who s with
        | Ok _ s1 =>
            let r := get_or_create_evm_address who s1 in
            Ok tt (mp_deposit_event (ClaimAccount who r.2) r.1)
        | Err err _ => Err err s
        | Panic => Panic
        end
    end.
Proof.
  unfold claim_default_account, ensure_unmapped, transactional, mbind, M_bind, gets. cbn.
  destruct (evm_addresses s !! who); cbn; [done|].
  by destruct (pay_storage_deposit who s).
Qed.

Lemma unclaim_cases who s :
  unclaim (Signed who) s =
    match get_evm_address who s with
    | Some e => Ok tt (unlink who e s)
    | None => Err (AccountMappingModuleError EthAddressHasMapped) s
    end.
Proof.
  unfold unclaim, transactional, mbind, M_bind, gets. cbn. by destruct (get_evm_address who s).
Qed.

(** ** The maps are inverse to each other *)

Definition inverse_maps s : Prop :=
  ∀ a e, evm_addresses s !! a = Some e ↔ mp_accounts s !! e = Some a.

Lemma inverse_same s s' : same_maps s s' → inverse_maps s → inverse_maps s'.
Proof. intros (Ha & He & _) Hs a e. by rewrite Ha, He. Qed.

Lemma link_inverse a e s :
  evm_addresses s !! a = None → mp_accounts s !! e = None → inverse_maps s →
  inverse_maps (link a e s).
Proof.
  intros Ha He Hs a' e'. cbn. destruct (decide (a' = a)) as [->|Hna].
  - rewrite lookup_insert_eq. split; [intros [= ->]; by rewrite lookup_insert_eq|].
    intros [[-> _]|[Hne Hacc]]%lookup_insert_Some; [done|]. apply Hs in Hacc. congruence.
  - rewrite lookup_insert_ne by done. split.
    + intros Hev. apply Hs in Hev. rewrite lookup_insert_ne; [done|congruence].
    + intros [[-> ->]|[Hne Hacc]]%lookup_insert_Some; [done|]. by apply Hs.
Qed.

Lemma unlink_inverse a e s :
  evm_addresses s !! a = Some e → inverse_maps s → inverse_maps (unlink a e s).
Proof.
  intros Ha Hs a' e'. cbn. rewrite !lookup_delete_Some. rewrite (Hs a' e').
  apply Hs in Ha. split; intros [Hne Hacc]; (split; [|done]).
  - intros ->. rewrite Ha in Hacc. by injection Hacc.
  - intros ->. apply Hs in Ha, Hacc. congruence.
Qed.

(** A killed account is forgotten, unless its default address is another one's. *)
Lemma on_killed_inverse who s :
  (∀ a, mp_accounts s !! account_to_default_evm_address who = Some a → a = who) →
  inverse_maps s → inverse_maps (on_killed_account who s).
Proof.
  intros Hd Hs a' e'. unfold on_killed_account. cbn.
  destruct (evm_addresses s !! who) as [e|] eqn:Hw; cbn; rewrite !lookup_delete_Some.
  - split.
    + intros [Hne Ha%Hs]. apply Hs in Hw. split_and!; [congruence| |done]. intros <-.
      by apply Hne; symmetry; apply Hd.
    + intros (He & _ & Ha%Hs). split; [congruence|done].
  - split; [|intros [_ ?]; by apply Hs]. intros Ha. apply Hs in Ha as Hacc. split; [|done].
    intros <-. apply Hd in Hacc as ->. congruence.
Qed.

Inductive MappingCall :=
| CClaimEth (e : EvmAddress) (signature : list Z)
| CClaimDefault
| CUnclaim.

Definition mapping_dispatch (origin : RawOrigin) (call : MappingCall)
    : M (Mapping B) DispatchError unit :=
  match call with
  | CClaimEth e signature => claim_eth_account origin e signature
  | CClaimDefault => claim_default_account origin
  | CUnclaim => unclaim origin
  end.

(** A default claim finds its address free, and the account an address stands for does
    not unclaim an address that somebody has claimed. *)
Definition no_clash (who : AccountId) (call : MappingCall) s : Prop :=
  match call with
  | CClaimEth _ _ => True
  | CClaimDefault => mp_accounts s !! account_to_default_evm_address who = None
  | CUnclaim =>
      evm_addresses s !! who = None →
      ∀ e, underlying_evm_address who = Some e → mp_accounts s !! e = None
  end.

Inductive mapping_step s : Mapping B → Prop :=
| mapping_step_ok who call s' :
    no_clash who call s → mapping_dispatch (Signed who) call s = Ok tt s' → mapping_step s s'
| mapping_step_err origin call e s' :
    mapping_dispatch origin call s = Err e s' → mapping_step s s'
| mapping_step_killed who :
    (∀ a, mp_accounts s !! account_to_default_evm_address who = Some a → a = who) →
    mapping_step s (on_killed_account who s)
| mapping_step_bank b : mapping_step s (mkMapping b (mp_accounts s) (evm_addresses s) (mp_events s)).

Lemma get_or_create_inverse who s :
  mp_accounts s !! account_to_default_evm_address who = None → inverse_maps s →
  inverse_maps (get_or_create_evm_address who s).1.
Proof.
  intros Hd Hs. unfold get_or_create_evm_address, get_evm_address.
  destruct (evm_addresses s !! who) eqn:Hw; [done|].
  destruct (underlying_evm_address who); [done|]. by apply link_inverse.
Qed.

Lemma mapping_step_inverse s s' : inverse_maps s → mapping_step s s' → inverse_maps s'.
Proof.
  intros Hs [who [e signature| |] t Hc Hok|origin call e t Herr|who Hk|b];
    [| | | |by apply on_killed_inverse|by apply Hs]; cbn in *.
  - rewrite claim_eth_account_cases in Hok.
    destruct (claim_checks who e signature s) eqn:Hch; [done|].
    destruct ((merge_default_account e who ;; pay_storage_deposit who) s) as [[] s1| |] eqn:Hm;
      try done. injection Hok as <-.
    apply bind_Ok_inv in Hm as ([] & s0 & H1%merge_frame & H2%pay_frame).
    destruct (same_maps_trans _ _ _ H1 H2) as (Ha & He & Hv).
    unfold claim_checks in Hch. destruct (evm_addresses s !! who) eqn:Hw; [done|].
    destruct (mp_accounts s !! e) eqn:Hacc; [done|].
    apply (link_inverse who e s1); [congruence..|]. by apply (inverse_same s).
  - rewrite claim_default_account_cases in Hok.
    destruct (evm_addresses s !! who) eqn:Hw; [done|].
    destruct (pay_storage_deposit who s) as [[] s1| |] eqn:Hp; try done. injection Hok as <-.
    apply pay_frame in Hp as Hf. apply (get_or_create_inverse who s1);
      [destruct Hf as (-> & _); done|by apply (inverse_same s)].
  - rewrite unclaim_cases in Hok. unfold get_evm_address in Hok.
    destruct (evm_addresses s !! who) eqn:Hw; [injection Hok as <-; by apply unlink_inverse|].
    destruct (underlying_evm_address who) eqn:Hu; [|done]. injection Hok as <-.
    specialize (Hc eq_refl _ eq_refl). intros a' e'. cbn.
    by rewrite (delete_id (mp_accounts s)), (delete_id (evm_addresses s)).
  - assert (t = s) as ->; [|done].
    destruct call; unfold claim_eth_account, claim_default_account, unclaim in Herr;
      by apply transactional_Err in Herr.
Qed.

Definition mapping_genesis (b : B) : Mapping B := mkMapping b ∅ ∅ [].


(** ** The calls, on every branch *)

(** A claim is refused for a mapped account, a mapped address or a signature of another
    address, and then nothing changes; otherwise it links the two, after the balance of the
    account the address stood for went to the claimer and the fee to the treasury. *)
Theorem claim_eth_account_spec who e signature s :
  match claim_eth_account (Signed who) e signature s with
  | Ok _ s' =>
      evm_addresses s !! who = None ∧ mp_accounts s !! e = None ∧
      eth_recover signature (be_bytes 20 e) [] = Some e ∧
      get_evm_address who s' = Some e ∧ mapping_into_account_id e s' = who ∧
      (∀ a, a ≠ who → evm_addresses s' !! a = evm_addresses s !! a) ∧
      (∀ e', e' ≠ e → mp_accounts s' !! e' = mp_accounts s !! e') ∧
      mp_events s' = ClaimAccount who e :: mp_events s ∧
      ∃ b, (if account_exists (create_default_substrate_address e) (mp_bank s)
            then transfer_allow_death (create_default_substrate_address e) who
                   (free_balance (mp_bank s) (create_default_substrate_address e)) (mp_bank s) = ROk b
            else b = mp_bank s) ∧
           currency_transfer who NetworkTreasuryAccount StorageDepositFee b = ROk (mp_bank s')
  | Err _ s' => s' = s
  | Panic => False
  end.
Proof.
  rewrite claim_eth_account_cases. unfold claim_checks.
  destruct (evm_addresses s !! who) eqn:Hw; cbn; [done|].
  destruct (mp_accounts s !! e) eqn:He; cbn; [done|].
  destruct (eth_recover signature (be_bytes 20 e) []) as [r|]; [|done].
  destruct (Z.eqb_spec e r) as [<-|]; [|done].
  unfold mbind, M_bind. destruct (merge_default_account e who s) as [[] s1| |] eqn:Hm; [|done|].
  2:{ unfold merge_default_account, mbind, M_bind, gets, in_bank, try_modify in Hm.
      repeat case_match; simplify_eq. }
  destruct (pay_storage_deposit who s1) as [[] s2| |] eqn:Hp; [|done|].
  2:{ unfold pay_storage_deposit, in_bank, try_modify in Hp. repeat case_match; simplify_eq. }
  destruct (same_maps_trans _ _ _ (merge_frame _ _ _ _ Hm) (pay_frame _ _ _ Hp)) as (Ha & Hv & Hev).
  unfold get_evm_address, mapping_into_account_id. cbn. rewrite Ha, Hv, Hev, !lookup_insert_eq.
  do 5 (split; [done|]). split; [intros a ?; by rewrite lookup_insert_ne|].
  split; [intros e' ?; by rewrite lookup_insert_ne|]. split; [done|].
  exists (mp_bank s1). split; [|by apply in_bank_frame in Hp as [_ ?]].
  unfold merge_default_account, mbind, M_bind, gets, mapping_into_account_id in Hm. rewrite He in Hm.
  destruct (account_exists _ _); [by apply in_bank_frame in Hm as [_ ?]|]. by injection Hm as <-.
Qed.

(** A claim followed by the removal of the claim frees both sides. *)
Theorem claim_unclaim who e signature s s' :
  claim_eth_account (Signed who) e signature s = Ok tt s' →
  ∃ s'', unclaim (Signed who) s' = Ok tt s'' ∧
    mp_accounts s'' = mp_accounts s ∧ evm_addresses s'' = evm_addresses s ∧
    mp_bank s'' = mp_bank s'.
Proof.
  rewrite claim_eth_account_cases. destruct (claim_checks who e signature s) eqn:Hch; [done|].
  destruct ((merge_default_account e who ;; pay_storage_deposit who) s) as [[] s1| |] eqn:Hm;
    try done. intros [= <-].
  apply bind_Ok_inv in Hm as ([] & s0 & H1%merge_frame & H2%pay_frame).
  destruct (same_maps_trans _ _ _ H1 H2) as (Ha & He & Hv).
  unfold claim_checks in Hch. destruct (evm_addresses s !! who) eqn:Hw; [done|].
  destruct (mp_accounts s !! e) eqn:Hacc; [done|].
  rewrite unclaim_cases. unfold get_evm_address. cbn. rewrite lookup_insert_eq. eexists.
  split; [done|]. cbn. rewrite Ha, He. by rewrite !delete_insert_id.
Qed.

(** The signature of a claim names the address only: whoever has it can claim the address
    for himself as soon as it is free, and receives the balance it stands for. *)
Theorem claim_signature_replayable who e signature s s' :
  claim_eth_account (Signed who) e signature s = Ok tt s' →
  ∀ thief t t1 t2,
    evm_addresses t !! thief = None → mp_accounts t !! e = None →
    merge_default_account e thief t = Ok tt t1 → pay_storage_deposit thief t1 = Ok tt t2 →
    claim_eth_account (Signed thief) e signature t =
      Ok tt (mp_deposit_event (ClaimAccount thief e) (link thief e t2)).
Proof.
  intros Hok thief t t1 t2 Hthief He Hm Hp. rewrite claim_eth_account_cases in Hok |- *.
  unfold claim_checks in *. rewrite Hthief, He. cbn in *.
  destruct (is_some (evm_addresses s !! who)); [done|].
  destruct (is_some (mp_accounts s !! e)); [done|].
  destruct (eth_recover signature (be_bytes 20 e) []) as [r|]; [|done].
  destruct (e =? r); [|done]. by rewrite (bind_Ok _ _ _ _ _ Hm), Hp.
Qed.

(** A default claim does not look whether its address is mapped: the address then leads
    to the claimer, while its former owner is still said to have it. *)
Theorem default_claim_takes_over who other s s' :
  mp_accounts s !! account_to_default_evm_address who = Some other → other ≠ who →
  evm_addresses s !! other = Some (account_to_default_evm_address who) →
  underlying_evm_address who = None →
  claim_default_account (Signed who) s = Ok tt s' →
  mapping_into_account_id (account_to_default_evm_address who) s' = who ∧
  get_evm_address other s' = Some (account_to_default_evm_address who) ∧
  get_evm_address who s' = Some (account_to_default_evm_address who).
Proof.
  intros Hacc Hne Hother Hu Hok. rewrite claim_default_account_cases in Hok.
  destruct (evm_addresses s !! who) eqn:Hw; [done|].
  destruct (pay_storage_deposit who s) as [[] s1| |] eqn:Hp; try done.
  apply pay_frame in Hp as (Ha & Hv & _).
  unfold get_or_create_evm_address, get_evm_address in Hok. rewrite Hv, Hw, Hu in Hok.
  injection Hok as <-. unfold mapping_into_account_id, get_evm_address. cbn.
  rewrite !lookup_insert_eq, lookup_insert_ne by done. by rewrite Hv, Hother.
Qed.
End Facts.
