(* ===== verification/ThreeVm.v ===== *)
(** * The 3VM

    [pallets/3vm/src/{lib,signal,remuneration}.rs] with the types and conversions of
    [primitives/src/threevm.rs]: signals of contracts and their bounce counter, contracts
    taken from the registry, their authors and the remuneration of these.

    - [ThreeVm E]: the storage of the pallet and the state [E] of the pallets it calls.
    - [ThreeVmConfig E]: the constants and what the pallet calls of the account manager,
      the registry, the Circuit, the Vacuum, the Portal and the account mapping;
      [ThreeVmSystem] instantiates it with the models of these.
    - A module (the code of a contract with its author and type) is any type with the
      operations of the trait [ModuleOperations]. *)

From S2P Require Import Prelude Types AccountManager World Orders Portal ContractsRegistry.

(** ** Data *)

Inductive SignalOpcode := Initiated | Bounced.

#[export] Instance SignalOpcode_eq_dec : EqDecision SignalOpcode.
Proof. solve_decision. Defined.

Inductive ThreeVmEvent :=
| SignalBounced (step : Z) (kind : SignalKind) (xtx_id : Hash)
| ExceededBounceThrehold (step : Z) (kind : SignalKind) (xtx_id : Hash)
| ModuleInstantiated (id : Hash) (author : AccountId) (kind : ContractType) (len : Z)
| AuthorStored (contract author : AccountId)
| AuthorRemoved (contract : AccountId).

Record ThreeVm (E : Type) := mkThreeVm {
  tv_signals : gmap (Z * Z) Z;
  precompile_index : gmap Z Z;
  author_of : gmap Z AccountId;
  tv_events : list ThreeVmEvent;
  tv_ext : E;
}.
Arguments mkThreeVm {E}.
Arguments tv_signals {E}.
Arguments precompile_index {E}.
Arguments author_of {E}.
Arguments tv_events {E}.
Arguments tv_ext {E}.

Class ThreeVmConfig (E : Type) := {
  SignalBounceThreshold : Z;
  (** [T::ContractsRegistry]. *)
  tv_fetch_contract_by_id : Hash → M E ContractsRegistryError RegistryContract;
  (** [T::AccountManager]. *)
  tv_bump_contracts_registry_nonce : M E DispatchError Hash;
  tv_deposit : Hash → RequestCharge → M E DispatchError unit;
  tv_finalize : Hash → Outcome → option AccountId → option Balance → M E DispatchError unit;
  (** [T::OnLocalTrigger]. *)
  tv_load_local_state : RawOrigin → option Hash → M E DispatchError LocalStateExecutionView;
  tv_on_local_trigger : RawOrigin → LocalTrigger → M E DispatchError LocalStateExecutionView;
  tv_on_signal : RawOrigin → ExecutionSignal → M E DispatchError unit;
  (** [T::VacuumEVMApi]. *)
  tv_evm_order : RawOrigin → VacuumEVMOrder → M E DispatchError bool;
  (** [T::Portal]. *)
  tv_latest_finalized_header : TargetId → M E DispatchError HeaderResult;
  tv_finalized_height : TargetId → M E DispatchError HeightResult;
  tv_rational_height : TargetId → M E DispatchError HeightResult;
  tv_fast_height : TargetId → M E DispatchError HeightResult;
  tv_verify_event_inclusion :
    TargetId → SpeedMode → option (list Z) → list Z → M E DispatchError InclusionReceipt;
  tv_verify_state_inclusion : TargetId → SpeedMode → list Z → M E DispatchError InclusionReceipt;
  tv_verify_tx_inclusion : TargetId → SpeedMode → list Z → M E DispatchError InclusionReceipt;
  (** [T::AddressMapping]. *)
  tv_into_account_id : Z → E → AccountId;
}.

(** ** Modules *)

(** The trait [ModuleOperations] (primitives/src/threevm.rs). *)
Class ModuleOperations (Mod : Type) := {
  get_bytecode : Mod → list Z;
  module_author : Mod → option AuthorInfo;
  set_author : AuthorInfo → Mod → Mod;
  get_type : Mod → ContractType;
  set_type : ContractType → Mod → Mod;
}.

(** What is read is what was set last. *)
Class ModuleLaws (Mod : Type) `{ModuleOperations Mod} := {
  module_author_set a m : module_author (set_author a m) = Some a;
  module_author_set_type t m : module_author (set_type t m) = module_author m;
  get_type_set t m : get_type (set_type t m) = t;
  bytecode_set_author a m : get_bytecode (set_author a m) = get_bytecode m;
  bytecode_set_type t m : get_bytecode (set_type t m) = get_bytecode m;
}.

Record ThreeVmInfo := mkThreeVmInfo {
  info_author : AuthorInfo;
  info_kind : ContractType;
  info_bytecode : list Z;
}.

#[export] Instance ThreeVmInfo_operations : ModuleOperations ThreeVmInfo := {|
  get_bytecode := info_bytecode;
  module_author m := Some (info_author m);
  set_author a m := mkThreeVmInfo a (info_kind m) (info_bytecode m);
  get_type := info_kind;
  set_type t m := mkThreeVmInfo (info_author m) t (info_bytecode m);
|}.

#[export] Instance ThreeVmInfo_laws : ModuleLaws ThreeVmInfo.
Proof. by split. Qed.

Record Remunerated := mkRemunerated { remuneration_id : option Hash }.
Definition remunerated_default : Remunerated := mkRemunerated None.

(** ** Decimals and addresses of tokens *)

Definition DECIMALS_VALUE : Z := 1000000.

Definition saturating_mul (max a b : Z) : Z := Z.min max (a * b).

(** [max] is the largest value of the balance type. *)
Definition convert_decimals_to_evm (max b : Z) : Z :=
  if b =? 0 then b else saturating_mul max b DECIMALS_VALUE.

Definition convert_decimals_from_evm (max b : Z) : option Z :=
  if b =? 0 then Some b
  else
    let res := b / DECIMALS_VALUE in
    if saturating_mul max res DECIMALS_VALUE =? b then Some res else None.

Definition H160_POSITION_ASSET_ID_TYPE : nat := 16.

Definition get_tokens_precompile_address (index : Z) : list Z :=
  replicate H160_POSITION_ASSET_ID_TYPE 9 ++ be_bytes 4 index.

(** ** The pallet *)

Section Pallet.
Context {E : Type} `{!ThreeVmConfig E}.
Abbreviation TV := (M (ThreeVm E) DispatchError).
Implicit Types s : ThreeVm E.

Definition tv_deposit_event {Er} (e : ThreeVmEvent) : M (ThreeVm E) Er unit :=
  modify (λ s, mkThreeVm (tv_signals s) (precompile_index s) (author_of s) (e :: tv_events s)
                 (tv_ext s)).

(** A call into another pallet. *)
Definition set_tv_ext (x : E) s : ThreeVm E :=
  mkThreeVm (tv_signals s) (precompile_index s) (author_of s) (tv_events s) x.
Definition in_ext {Er A} (m : M E Er A) : M (ThreeVm E) Er A := zoom tv_ext set_tv_ext m.

Definition tv_err (e : ThreeVmError) : DispatchError := ThreeVmModuleError e.

Definition build_genesis (precompiles : list (Hash * Z)) s : ThreeVm E :=
  fold_left (λ s p, mkThreeVm (tv_signals s) (<[p.1 := p.2]> (precompile_index s)) (author_of s)
                      (tv_events s) (tv_ext s)) precompiles s.

(** [T::Lookup] is the argument. *)
Definition get_author {Src} (lookup : Src → option AccountId) (contract : Src) s
    : option AccountId :=
  c ← lookup contract; author_of s !! c.

(** *** Signals (signal.rs) *)

Definition put_signal (id step nonce : Z) s : ThreeVm E :=
  mkThreeVm (<[(id, step) := nonce]> (tv_signals s)) (precompile_index s) (author_of s)
    (tv_events s) (tv_ext s).

Definition signal (sg : ExecutionSignal) : M (ThreeVm E) ThreeVmError SignalOpcode :=
  known ← gets (λ s, tv_signals s !! (execution_id sg, signal_step sg));
  new_nonce ←
    match known with
    | Some nonce => ok_or (checked_add u32_max nonce 1) InvalidArithmeticOverflow
    | None => mret 1
    end;
  modify (put_signal (execution_id sg) (signal_step sg) new_nonce) ;;
  if SignalBounceThreshold <? new_nonce then
    tv_deposit_event
      (ExceededBounceThrehold (signal_step sg) (signal_kind sg) (execution_id sg)) ;;
    throw ExceededSignalBounceThreshold
  else if new_nonce =? 1 then mret Initiated
  else
    tv_deposit_event (SignalBounced (signal_step sg) (signal_kind sg) (execution_id sg)) ;;
    mret Bounced.

(** *** Remuneration (remuneration.rs) *)

Definition author_charge (payee_ : AccountId) (author : AuthorInfo) (amount : Balance)
    : RequestCharge :=
  {| payee := payee_; offered_reward := amount; charge_fee := 0; source := TrafficRewards;
     role := ContractAuthor; recipient := Some (author_account author); maybe_asset_id := None |}.

Section Module.
Context {Mod : Type} `{ModuleOperations Mod}.

Definition handle_remuneration (payee_ : AccountId) (module : Mod) (author : AuthorInfo)
    (amount : Balance) : TV Remunerated :=
  if 0 <? amount then
    if can_remunerate (get_type module) then
      next_charge_id ← in_ext tv_bump_contracts_registry_nonce;
      in_ext (tv_deposit next_charge_id (author_charge payee_ author amount)) ;;
      mret (mkRemunerated (Some next_charge_id))
    else throw (tv_err ContractCannotRemunerate)
  else mret remunerated_default.

Definition try_remunerate (payee_ : AccountId) (module : Mod) : TV Remunerated :=
  match module_author module with
  | Some author =>
      handle_remuneration payee_ module author (default 0 (fees_per_single_use author))
  | None => mret remunerated_default
  end.

Definition try_remunerate_exact (payee_ : AccountId) (amount : Balance) (module : Mod)
    : TV Remunerated :=
  match module_author module with
  | Some author => handle_remuneration payee_ module author amount
  | None => mret remunerated_default
  end.

(** *** Contracts of the registry (lib.rs) *)

Definition peek_registry (id : Hash) : TV RegistryContract :=
  map_err (λ _, tv_err ContractNotFound) (in_ext (tv_fetch_contract_by_id id)).

Definition from_registry (id : Hash) (module_generator : list Z → Mod) : TV Mod :=
  c ← map_err (λ _, tv_err ContractNotFound) (in_ext (tv_fetch_contract_by_id id));
  let contract_len := Z.of_nat (length (contract_bytes c)) in
  let module := module_generator (contract_bytes c) in
  let module := set_author (contract_author c) module in
  let module := set_type (contract_type (contract_meta c)) module in
  tv_deposit_event
    (ModuleInstantiated id (author_account (contract_author c)) (contract_type (contract_meta c))
       (wrap32 contract_len)) ;;
  mret module.
End Module.

Definition try_finalize (ledger_id : Hash) (outcome : Outcome) : TV unit :=
  in_ext (tv_finalize ledger_id outcome None None).

Definition instantiate_check (kind : ContractType) : TV unit :=
  ensure (can_instantiate kind) (tv_err CannotInstantiateContract).
Definition storage_check (kind : ContractType) : TV unit :=
  ensure (has_storage kind) (tv_err ContractCannotHaveStorage).
Definition volatile_check (kind : ContractType) : TV unit :=
  ensure (can_generate_side_effects kind) (tv_err ContractCannotGenerateSideEffects).
Definition remunerable_check (kind : ContractType) : TV unit :=
  ensure (can_remunerate kind) (tv_err ContractCannotRemunerate).

Definition set_author_of (m : gmap Z AccountId) s : ThreeVm E :=
  mkThreeVm (tv_signals s) (precompile_index s) m (tv_events s) (tv_ext s).

Definition try_persist_author (contract : AccountId) (author : option AuthorInfo) : TV unit :=
  match author with
  | Some author =>
      known ← gets (λ s, author_of s !! contract);
      match known with
      | Some _ => mret tt
      | None =>
          modify (λ s, set_author_of (<[contract := author_account author]> (author_of s)) s) ;;
          tv_deposit_event (AuthorStored contract (author_account author))
      end
  | None => mret tt
  end.

Definition try_remove_author (contract : AccountId) : TV unit :=
  known ← gets (λ s, author_of s !! contract);
  match known with
  | Some _ =>
      modify (λ s, set_author_of (delete contract (author_of s)) s) ;;
      tv_deposit_event (AuthorRemoved contract)
  | None => mret tt
  end.
End Pallet.

(** ** Properties of the 3VM

    The bounce counter of signals, remuneration and contracts of the registry over any
    pallets that implement [ThreeVmConfig], authors, decimals and addresses of tokens. *)

(** ** Decimals *)

(** A native amount converted to EVM decimals is converted back to itself exactly when
    the product fits; one that saturates is refused. *)
Theorem decimals_roundtrip max b :
  0 ≤ b ≤ max → max mod DECIMALS_VALUE ≠ 0 →
  convert_decimals_from_evm max (convert_decimals_to_evm max b) =
    if b * DECIMALS_VALUE <=? max then Some b else None.
Proof.
  intros Hb Hmax. unfold convert_decimals_to_evm, convert_decimals_from_evm, saturating_mul.
  destruct (Z.eqb_spec b 0) as [->|Hb0].
  - rewrite !Z.mul_0_l. destruct (Z.leb_spec 0 max); [done|lia].
  - unfold DECIMALS_VALUE in *. destruct (Z.leb_spec (b * 1000000) max) as [Hle|Hgt].
    + rewrite Z.min_r by lia. destruct (Z.eqb_spec (b * 1000000) 0); [lia|].
      rewrite Z.div_mul by lia. rewrite Z.min_r by lia. by rewrite Z.eqb_refl.
    + rewrite Z.min_l by lia. destruct (Z.eqb_spec max 0) as [->|]; [done|].
      assert (max / 1000000 * 1000000 < max) as Hlt.
      { pose proof (Z.div_mod max 1000000 ltac:(lia)).
        pose proof (Z.mod_pos_bound max 1000000 ltac:(lia)). lia. }
      rewrite Z.min_r by lia. by destruct (Z.eqb_spec (max / 1000000 * 1000000) max); [lia|].
Qed.

(** What is converted from EVM decimals is converted back, and nothing else is accepted. *)
Lemma decimals_from_evm_Some max b r :
  0 ≤ b ≤ max → convert_decimals_from_evm max b = Some r ↔ b = r * DECIMALS_VALUE.
Proof.
  intros Hb. unfold convert_decimals_from_evm, saturating_mul, DECIMALS_VALUE.
  destruct (Z.eqb_spec b 0) as [->|Hb0]; [split; [by intros [= <-]|intros; f_equal; lia]|].
  pose proof (Z.div_mod b 1000000 ltac:(lia)). pose proof (Z.mod_pos_bound b 1000000 ltac:(lia)).
  rewrite Z.min_r by lia. split.
  - destruct (Z.eqb_spec (b / 1000000 * 1000000) b); [|done]. intros [= <-]. lia.
  - intros ->. rewrite Z.div_mul by lia. by rewrite Z.eqb_refl.
Qed.

(** Distinct tokens have distinct addresses. *)
Lemma tokens_address_inj i j :
  is_u32 i → is_u32 j →
  get_tokens_precompile_address i = get_tokens_precompile_address j → i = j.
Proof.
  unfold is_u32, u32_max, get_tokens_precompile_address. intros Hi Hj Heq.
  apply app_inv_head in Heq. by eapply (be_bytes_inj 4); [cbn; lia..|].
Qed.

Section Facts.
Context {E : Type} `{!ThreeVmConfig E}.
Implicit Types s : ThreeVm E.

(** ** Signals *)

Definition sig_key (sg : ExecutionSignal) : Z * Z := (execution_id sg, signal_step sg).

(** The number of signals posted for a step so far. *)
Definition bounces (k : Z * Z) s : Z := default 0 (tv_signals s !! k).

(** The counters are positive 32-bit numbers. *)
Definition counters_ok s : Prop := ∀ k n, tv_signals s !! k = Some n → 1 ≤ n ≤ u32_max.

(** What a signal does, on every branch. *)
Lemma signal_spec sg s :
  counters_ok s →
  match signal sg s with
  | Ok op s' =>
      bounces (sig_key sg) s < u32_max ∧ bounces (sig_key sg) s + 1 ≤ SignalBounceThreshold ∧
      op = (if bounces (sig_key sg) s =? 0 then Initiated else Bounced) ∧
      tv_signals s' = <[sig_key sg := bounces (sig_key sg) s + 1]> (tv_signals s) ∧
      tv_ext s' = tv_ext s ∧ author_of s' = author_of s ∧ precompile_index s' = precompile_index s
  | Err ExceededSignalBounceThreshold s' =>
      bounces (sig_key sg) s < u32_max ∧ SignalBounceThreshold < bounces (sig_key sg) s + 1 ∧
      tv_signals s' = <[sig_key sg := bounces (sig_key sg) s + 1]> (tv_signals s) ∧
      tv_ext s' = tv_ext s ∧ author_of s' = author_of s ∧ precompile_index s' = precompile_index s
  | Err e s' => e = InvalidArithmeticOverflow ∧ s' = s ∧ bounces (sig_key sg) s = u32_max
  | Panic => False
  end.
Proof.
  intros Hc. unfold signal, bounces, sig_key, mbind, M_bind, gets, modify, tv_deposit_event.
  destruct (tv_signals s !! (execution_id sg, signal_step sg)) as [n|] eqn:Hn; cbn.
  - apply Hc in Hn. unfold checked_add. destruct (Z.leb_spec (n + 1) u32_max); cbn; [|by split_and!; [..|lia]].
    destruct (Z.ltb_spec SignalBounceThreshold (n + 1)); cbn; [split_and!; [lia|lia|done..]|].
    destruct (Z.eqb_spec (n + 1) 1); [lia|]. destruct (Z.eqb_spec n 0); [lia|]. cbn.
    split_and!; [lia|lia|done..].
  - destruct (Z.ltb_spec SignalBounceThreshold 1); cbn; (split_and!; [done|lia|done..]).
Qed.

(** Signals posted one after the other; the state a failed one leaves is kept. *)
Fixpoint post_signals (sgs : list ExecutionSignal) s : list (ExecutionSignal * bool) * ThreeVm E :=
  match sgs with
  | [] => ([], s)
  | sg :: sgs =>
      match signal sg s with
      | Ok _ s' => let r := post_signals sgs s' in ((sg, true) :: r.1, r.2)
      | Err _ s' => let r := post_signals sgs s' in ((sg, false) :: r.1, r.2)
      | Panic => ([], s)
      end
  end.

Definition posted (k : Z * Z) (sgs : list ExecutionSignal) : Z :=
  Z.of_nat (length (List.filter (λ sg, bool_decide (sig_key sg = k)) sgs)).

Definition accepted (k : Z * Z) (r : list (ExecutionSignal * bool)) : Z :=
  Z.of_nat (length (List.filter (λ p, bool_decide (sig_key p.1 = k) && p.2) r)).

Lemma posted_cons k sg sgs :
  posted k (sg :: sgs) = (if bool_decide (sig_key sg = k) then 1 else 0) + posted k sgs.
Proof. unfold posted. cbn. destruct (bool_decide _); cbn [length]; lia. Qed.

Lemma accepted_cons k sg b r :
  accepted k ((sg, b) :: r) =
    (if bool_decide (sig_key sg = k) && b then 1 else 0) + accepted k r.
Proof. unfold accepted. cbn. destruct (bool_decide _ && b); cbn [length]; lia. Qed.

Lemma bounces_insert k k' n s s' :
  tv_signals s' = <[k := n]> (tv_signals s) →
  bounces k' s' = if bool_decide (k = k') then n else bounces k' s.
Proof.
  intros Hs. unfold bounces. rewrite Hs. destruct (bool_decide_reflect (k = k')) as [<-|Hne].
  - by rewrite lookup_insert_eq.
  - by rewrite lookup_insert_ne.
Qed.

Lemma counters_insert k n s s' :
  counters_ok s → 1 ≤ n ≤ u32_max → tv_signals s' = <[k := n]> (tv_signals s) → counters_ok s'.
Proof.
  intros Hs Hn Heq k' n'. rewrite Heq. intros [[_ <-]|[_ ?]]%lookup_insert_Some; [done|by eapply Hs].
Qed.

Lemma bounces_range k s : counters_ok s → 0 ≤ bounces k s ≤ u32_max.
Proof.
  intros Hs. unfold bounces. destruct (tv_signals s !! k) as [n|] eqn:Hn; cbn; [|unfold u32_max; lia].
  apply Hs in Hn. lia.
Qed.

(** The counter of a step goes up with every signal, and as many are accepted as are
    left up to the threshold. *)
Lemma post_signals_count sgs s k :
  counters_ok s → SignalBounceThreshold ≤ u32_max →
  bounces k (post_signals sgs s).2 = Z.min u32_max (bounces k s + posted k sgs) ∧
  accepted k (post_signals sgs s).1 =
    Z.min (posted k sgs) (Z.max 0 (SignalBounceThreshold - bounces k s)).
Proof.
  intros Hc Ht. revert s Hc. induction sgs as [|sg sgs IH]; intros s Hc.
  - pose proof (bounces_range k s Hc). cbn. unfold posted, accepted. cbn. lia.
  - pose proof (signal_spec sg s Hc) as Hs. pose proof (bounces_range (sig_key sg) s Hc) as Hb.
    assert (0 ≤ posted k sgs) as Hp by (unfold posted; lia).
    cbn [post_signals]. destruct (signal sg s) as [op s'|e s'|]; [| |done].
    + destruct Hs as (H1 & H2 & _ & Hm & _). cbn [fst snd].
      assert (counters_ok s') as Hc' by (eapply counters_insert; [done| |exact Hm]; lia).
      rewrite posted_cons, accepted_cons, (proj1 (IH s' Hc')), (proj2 (IH s' Hc')).
      rewrite (bounces_insert _ k _ s s' Hm).
      destruct (bool_decide_reflect (sig_key sg = k)) as [<-|]; cbn [andb]; lia.
    + destruct e;
        [destruct Hs as (H1 & H2 & Hm & _)|destruct Hs as (Hov & -> & H2); try done..];
        cbn [fst snd]; rewrite posted_cons, accepted_cons, andb_false_r.
      * assert (counters_ok s') as Hc' by (eapply counters_insert; [done| |exact Hm]; lia).
        rewrite (proj1 (IH s' Hc')), (proj2 (IH s' Hc')).
        rewrite (bounces_insert _ k _ s s' Hm).
        destruct (bool_decide_reflect (sig_key sg = k)) as [<-|]; lia.
      * rewrite (proj1 (IH s Hc)), (proj2 (IH s Hc)).
        destruct (bool_decide_reflect (sig_key sg = k)) as [<-|]; lia.
Qed.

(** Of the signals posted for a step, the first [SignalBounceThreshold] are accepted and
    no other, whatever else is posted in between. *)
Theorem signals_accepted sgs s k :
  tv_signals s = ∅ → 0 ≤ SignalBounceThreshold ≤ u32_max →
  accepted k (post_signals sgs s).1 = Z.min (posted k sgs) SignalBounceThreshold ∧
  bounces k (post_signals sgs s).2 = Z.min u32_max (posted k sgs).
Proof.
  intros Hs Ht. assert (counters_ok s) as Hc by (intros k' n; by rewrite Hs, lookup_empty).
  destruct (post_signals_count sgs s k Hc) as [H1 H2]; [lia|]. rewrite H1, H2.
  unfold bounces. rewrite Hs, lookup_empty. cbn. split; lia.
Qed.

(** ** Contracts of the registry *)

Section Modules.
Context {Mod : Type} `{ModuleLaws Mod}.

(** A module made from the registry carries the author and the type the registry has for
    it; without an entry there is no module. *)
Theorem from_registry_spec id (generator : list Z → Mod) s :
  match tv_fetch_contract_by_id id (tv_ext s) with
  | Ok c x =>
      ∃ m s', from_registry id generator s = Ok m s' ∧
        module_author m = Some (contract_author c) ∧
        get_type m = contract_type (contract_meta c) ∧
        get_bytecode m = get_bytecode (generator (contract_bytes c)) ∧
        tv_ext s' = x ∧ author_of s' = author_of s ∧
        tv_events s' = ModuleInstantiated id (author_account (contract_author c))
                         (contract_type (contract_meta c))
                         (wrap32 (Z.of_nat (length (contract_bytes c)))) :: tv_events s
  | Err _ x => from_registry id generator s = Err (ThreeVmModuleError ContractNotFound) (set_tv_ext x s)
  | Panic => from_registry id generator s = Panic
  end.
Proof.
  unfold from_registry, map_err, in_ext, zoom, mbind, M_bind, tv_deposit_event, modify.
  destruct (tv_fetch_contract_by_id id (tv_ext s)) as [c x|e x|]; cbn; [|done|done].
  eexists _, _. split; [reflexivity|].
  rewrite module_author_set_type, module_author_set, get_type_set, bytecode_set_type,
    bytecode_set_author. done.
Qed.

(** What a remuneration asks of the account manager: nothing without a fee, an error for
    a contract that has storage, and otherwise a charge in favour of the author under a
    fresh identifier. *)
Lemma remunerate_exact_cases payee_ amount (m : Mod) author s :
  module_author m = Some author →
  try_remunerate_exact payee_ amount m s =
    if 0 <? amount then
      if has_storage (get_type m) then Err (ThreeVmModuleError ContractCannotRemunerate) s
      else
        match tv_bump_contracts_registry_nonce (tv_ext s) with
        | Ok id x =>
            match tv_deposit id (author_charge payee_ author amount) x with
            | Ok _ x' => Ok (mkRemunerated (Some id)) (set_tv_ext x' s)
            | Err e x' => Err e (set_tv_ext x' s)
            | Panic => Panic
            end
        | Err e x => Err e (set_tv_ext x s)
        | Panic => Panic
        end
    else Ok remunerated_default s.
Proof.
  intros Ha. unfold try_remunerate_exact. rewrite Ha. unfold handle_remuneration.
  destruct (0 <? amount); [|done].
  assert (can_remunerate (get_type m) = negb (has_storage (get_type m))) as ->
    by by destruct (get_type m).
  destruct (has_storage (get_type m)); cbn; [done|].
  unfold mbind, M_bind, in_ext, zoom.
  destruct (tv_bump_contracts_registry_nonce (tv_ext s)); cbn; [|done|done].
  by destruct (tv_deposit _ _ _).
Qed.

Lemma remunerate_is_exact payee_ (m : Mod) author s :
  module_author m = Some author →
  try_remunerate payee_ m s =
    try_remunerate_exact payee_ (default 0 (fees_per_single_use author)) m s.
Proof. intros Ha. unfold try_remunerate, try_remunerate_exact. by rewrite Ha. Qed.
End Modules.

(** ** Authors *)

Inductive AuthorOp := OPersist (contract : AccountId) (author : option AuthorInfo)
                    | ORemove (contract : AccountId).

Definition run_author_op (op : AuthorOp) : M (ThreeVm E) DispatchError unit :=
  match op with
  | OPersist contract author => try_persist_author contract author
  | ORemove contract => try_remove_author contract
  end.

(** What is known of one contract after an operation. *)
Definition author_after (contract : AccountId) (known : option AccountId) (op : AuthorOp)
    : option AccountId :=
  match op with
  | OPersist c (Some author) =>
      if c =? contract then Some (default (author_account author) known) else known
  | OPersist _ None => known
  | ORemove c => if c =? contract then None else known
  end.

Lemma run_author_op_spec op s :
  ∃ s', run_author_op op s = Ok tt s' ∧
    (∀ c, author_of s' !! c = author_after c (author_of s !! c) op) ∧
    tv_signals s' = tv_signals s ∧ tv_ext s' = tv_ext s.
Proof.
  destruct op as [c [author|]|c]; cbn; unfold try_persist_author, try_remove_author, mbind, M_bind,
    gets, modify, tv_deposit_event.
  - destruct (author_of s !! c) as [a|] eqn:Hc; cbn; eexists; (split; [reflexivity|]);
      (split; [|done]); intros c'; cbn; destruct (Z.eqb_spec c c') as [<-|Hne]; cbn.
    + by rewrite Hc.
    + done.
    + by rewrite lookup_insert_eq, Hc.
    + by rewrite lookup_insert_ne.
  - by eexists.
  - destruct (author_of s !! c) as [a|] eqn:Hc; cbn; eexists; (split; [reflexivity|]);
      (split; [|done]); intros c'; cbn; destruct (Z.eqb_spec c c') as [<-|Hne]; cbn.
    + by rewrite lookup_delete_eq.
    + by rewrite lookup_delete_ne.
    + done.
    + done.
Qed.

(** The author of a contract is the first one stored since the last removal. *)
Theorem authors_histories ops s :
  ∃ s', for_each ops run_author_op s = Ok tt s' ∧ tv_ext s' = tv_ext s ∧
    ∀ c, author_of s' !! c = fold_left (author_after c) ops (author_of s !! c).
Proof.
  revert s. induction ops as [|op ops IH]; intros s; [by eexists|].
  destruct (run_author_op_spec op s) as (s1 & H1 & Ha & _ & Hx).
  destruct (IH s1) as (s2 & H2 & Hx2 & Hf). exists s2.
  cbn [for_each]. rewrite (bind_Ok _ _ _ _ _ H1). split; [done|]. split; [congruence|].
  intros c. rewrite Hf, Ha. done.
Qed.
End Facts.
