(* ===== verification/Precompile3Vm.v ===== *)
(** * The precompiles of the 3VM

    [pallets/3vm/src/precompile.rs] with [PrecompileArgs] and [PrecompileInvocation] of
    [primitives/src/threevm.rs] and [PortalExecution] of [primitives/src/portal.rs].

    - [invoke] runs a decoded call; [invoke_raw] decodes the bytes of a contract and
      appends the result to its output buffer.
    - The arms of the [match] on the pointer are a list of patterns with their bodies,
      tried in order ([invoke_raw_arms]).  A pattern is a constant or a name that binds:
      of the constants the source matches on, only [GET_STATE], [SUBMIT], [POST_SIGNAL]
      and [PORTAL] are imported, so that [VACUUM_ORDER] and the five patterns after it are
      names that bind any pointer.
    - The encodings of errors and of the view of a transaction, and the decoders of
      vectors, are derived by the codec library ([ThreeVmCodec]). *)

From S2P Require Import Prelude Types AccountManager World Orders AbiFill AbiRecode Portal.
From S2P Require Import ContractsRegistry ThreeVm.

(** Pointers. *)
Definition GET_STATE : Z := 55.
Definition SUBMIT : Z := 56.
Definition POST_SIGNAL : Z := 57.
Definition PORTAL : Z := 70.
Definition VACUUM_ORDER : Z := 90.
Definition VACUUM_3D_ORDER : Z := 91.
Definition VACUUM_CONFIRM : Z := 92.
Definition VACUUM_SUBMIT_CORRECTNESS_PROOF : Z := 93.
Definition VACUUM_SUBMIT_FAULT_PROOF : Z := 94.
Definition VACUUM_TELEPORT_ORDER : Z := 95.

Inductive PrecompileArgs :=
| PGetState (origin : RawOrigin) (xtx_id : option Hash)
| PSubmitSideEffects (origin : RawOrigin) (execution_id : Hash) (side_effects : list (list Z))
    (speed_mode : SpeedMode)
| PVacuumOrder (origin : RawOrigin) (o : VacuumEVMOrder)
| PVacuum3DOrder (origin : RawOrigin) (o : VacuumEVM3DOrder)
| PVacuumConfirm (origin : RawOrigin) (o : VacuumEVMOrder)
| PVacuumSubmitCorrectnessProof (origin : RawOrigin) (p : VacuumEVMProof)
| PVacuumSubmitFaultProof (origin : RawOrigin) (p : VacuumEVMProof)
| PVacuumTeleportOrder (origin : RawOrigin) (o : VacuumEVMTeleportOrder)
| PSignal (origin : RawOrigin) (sg : ExecutionSignal)
| PPortal (a : Portal.PrecompileArgs).

Inductive PortalExecution :=
| XHeader (h : HeaderResult)
| XHeight (h : HeightResult)
| XInclusion (r : InclusionReceipt)
| XBlockNumber (n : BlockNumber)
| XData (b : list Z)
| XSwitched (b : bool)
| XNoop.

Inductive PrecompileInvocation :=
| IGetState (v : LocalStateExecutionView)
| ISubmit (v : LocalStateExecutionView)
| ISignal
| IPortal (x : PortalExecution)
| IVacuumOrder (b : bool)
| IVacuumConfirm (b : bool)
| IVacuum3DOrder (b : bool)
| IVacuumSubmitFaultProof (b : bool)
| IVacuumSubmitCorrectnessProof (b : bool)
| IVacuumTeleportOrder (b : bool).

Definition get_submit (i : PrecompileInvocation) : option LocalStateExecutionView :=
  match i with ISubmit v => Some v | _ => None end.

(** [Into<Bytes>] of [PortalExecution]; a block number has 32 bits. *)
Definition portal_execution_bytes (x : PortalExecution) : list Z :=
  match x with
  | XHeader (HeaderBytes h) => 0 :: encode_vec h
  | XHeader HeaderNotActive => [1]
  | XHeight (Height n) => 0 :: le_bytes 4 n
  | XHeight NotActive => [1]
  | XInclusion r =>
      le_bytes 4 (receipt_height r) ++ encode_vec (including_header r) ++
      encode_vec (receipt_message r)
  | XBlockNumber n => le_bytes 4 n
  | XData b => encode_vec b
  | XSwitched b => [if b then 1 else 0]
  | XNoop => []
  end.

(** ** Codecs *)

Class ThreeVmCodec := {
  encode_dispatch_error : DispatchError → list Z;
  encode_view : LocalStateExecutionView → list Z;
  (** [(SideEffects, SpeedMode)]: the execution, the encoded side effects and the speed. *)
  decode_submit : list Z → option (Hash * list (list Z) * SpeedMode);
  decode_evm_proof : list Z → option VacuumEVMProof;
  decode_teleport_order : list Z → option VacuumEVMTeleportOrder;
}.

(** The position of a constructor. *)
Definition error_index (e : ThreeVmError) : Z :=
  match e with
  | ExceededSignalBounceThreshold => 0 | CannotTriggerWithoutSideEffects => 1
  | ContractNotFound => 2 | InvalidOrigin => 3 | CannotInstantiateContract => 4
  | ContractCannotRemunerate => 5 | ContractCannotHaveStorage => 6
  | ContractCannotGenerateSideEffects => 7 | InvalidPrecompilePointer => 8
  | InvalidPrecompileArgs => 9 | InvalidArithmeticOverflow => 10 | DownstreamCircuit => 11
  end.

(** [Err::<(), _>(Error::<T>::e).encode()]. *)
Definition encode_error (e : ThreeVmError) : list Z := [1; error_index e].

Definition codec_of_byte (b : Z) : Codec := if b =? 1 then Rlp else Scale.

Definition decode_get_state : Reader (option Hash) :=
  tag ← read_bytes 1;
  match tag with
  | [0] => mret None
  | [1] => h ← read_word 32; mret (Some h)
  | _ => throw tt
  end.

Definition decode_evm_order : Reader VacuumEVMOrder :=
  destination ← read_bytes 4;
  asset ← read_uint 4;
  amount ← read_uint 32;
  reward_asset ← read_word 20;
  max_reward ← read_uint 32;
  insurance ← read_uint 32;
  target_account ← read_word 32;
  mret {| evo_destination := destination; evo_asset := asset; evo_amount := amount;
          evo_reward_asset := reward_asset; evo_max_reward := max_reward;
          evo_insurance := insurance; evo_target_account := target_account |}.

Definition decode_evm_3d_order : Reader VacuumEVM3DOrder :=
  order ← decode_evm_order;
  nonce ← read_uint 4;
  mret {| evo3d_order := order; evo3d_nonce := nonce |}.

Definition decode_signal_kind : Reader SignalKind :=
  tag ← read_bytes 1;
  match tag with
  | [0] => mret SignalComplete
  | [1] =>
      reason ← read_bytes 1;
      match reason with
      | [0] => mret (SignalKill KillUnhandled)
      | [1] => mret (SignalKill KillCodec)
      | [2] => mret (SignalKill KillTimeout)
      | _ => throw tt
      end
  | _ => throw tt
  end.

Definition decode_signal : Reader ExecutionSignal :=
  step ← read_uint 4;
  kind ← decode_signal_kind;
  id ← read_word 32;
  mret {| signal_step := step; signal_kind := kind; execution_id := id |}.

(** The encoding the decoder of orders reads. *)
Definition encode_evm_order (o : VacuumEVMOrder) : list Z :=
  evo_destination o ++ le_bytes 4 (evo_asset o) ++ le_bytes 32 (evo_amount o) ++
  be_bytes 20 (evo_reward_asset o) ++ le_bytes 32 (evo_max_reward o) ++
  le_bytes 32 (evo_insurance o) ++ be_bytes 32 (evo_target_account o).

(** ** Running a call *)

Section Precompile.
Context {E : Type} `{!ThreeVmConfig E} `{RlpLib} `{!ThreeVmCodec}.
Abbreviation TV := (M (ThreeVm E) DispatchError).

Definition precompile_lookup (dest : Hash) (s : ThreeVm E) : option Z := precompile_index s !! dest.

Definition invoke_portal (a : Portal.PrecompileArgs) : TV PortalExecution :=
  in_ext
    match a with
    | Portal.GetLatestFinalizedHeader c => h ← tv_latest_finalized_header c; mret (XHeader h)
    | Portal.GetFinalizedHeight c => h ← tv_finalized_height c; mret (XHeight h)
    | Portal.GetRationalHeight c => h ← tv_rational_height c; mret (XHeight h)
    | Portal.GetFastHeight c => h ← tv_fast_height c; mret (XHeight h)
    | Portal.VerifyEventInclusion c sm source event =>
        r ← tv_verify_event_inclusion c sm (execution_source_to_option source) event;
        mret (XInclusion r)
    | Portal.VerifyStateInclusion c sm event =>
        r ← tv_verify_state_inclusion c sm event; mret (XInclusion r)
    | Portal.VerifyTxInclusion c sm event =>
        r ← tv_verify_tx_inclusion c sm event; mret (XInclusion r)
    end.

Definition invoke (precompile : PrecompileArgs) : TV PrecompileInvocation :=
  match precompile with
  | PGetState origin xtx_id =>
      state ← in_ext (tv_load_local_state origin xtx_id); mret (IGetState state)
  | PSubmitSideEffects origin execution_id side_effects speed_mode =>
      account ← map_err (λ _, tv_err InvalidOrigin) (ensure_signed origin);
      let maybe_id := if execution_id =? 0 then None else Some execution_id in
      match side_effects with
      | [] => throw (tv_err CannotTriggerWithoutSideEffects)
      | _ =>
          v ← in_ext (tv_on_local_trigger origin
                        (mkLocalTrigger account side_effects speed_mode maybe_id));
          mret (ISubmit v)
      end
  | PVacuumOrder origin order =>
      success ← in_ext (tv_evm_order origin order); mret (IVacuumOrder success)
  | PVacuumConfirm _ _ => mret (IVacuumConfirm true)
  | PVacuum3DOrder _ _ => mret (IVacuumOrder true)
  | PVacuumSubmitCorrectnessProof _ _ => mret (IVacuumSubmitCorrectnessProof true)
  | PVacuumSubmitFaultProof _ _ => mret (IVacuumSubmitFaultProof true)
  | PVacuumTeleportOrder _ _ => mret (IVacuumTeleportOrder true)
  | PSignal origin sg =>
      map_err tv_err (signal sg) ;;
      in_ext (tv_on_signal origin sg) ;;
      mret ISignal
  | PPortal a => x ← invoke_portal a; mret (IPortal x)
  end.

(** ** Raw calls *)

(** The account at the front of the arguments, and what follows. *)
Definition extract_origin (codec : Codec) (args : list Z) (s : ThreeVm E)
    : option (RawOrigin * list Z) :=
  match codec with
  | Scale =>
      match read_word 32 args with
      | Ok account rest => Some (Signed account, rest)
      | _ => None
      end
  | Rlp =>
      if (20 <=? length args)%nat then
        Some (Signed (tv_into_account_id (from_be_bytes (take 20 args)) (tv_ext s)), drop 20 args)
      else None
  end.

(** A body gets the codec, the origin, the arguments and the output buffer. *)
Definition Body : Type := Codec → RawOrigin → list Z → list Z → TV (list Z).

(** Decoding of an order from RLP may trap; its error is dropped. *)
Definition rlp_option {A} (m : TV A) : TV (option A) :=
  r ← attempt m; mret (match r with ROk a => Some a | RErr _ => None end).

Definition body_get_state : Body := λ codec origin args output,
  let decoded := match codec with Scale => decode_with decode_get_state args | Rlp => None end in
  match decoded with
  | Some xtx_id =>
      r ← attempt (invoke (PGetState origin xtx_id));
      mret (match r with
            | ROk (IGetState state) => output ++ 0 :: encode_view state
            | RErr e => output ++ encode_error DownstreamCircuit ++ 1 :: encode_dispatch_error e
            | _ => output
            end)
  | None => mret (output ++ encode_error InvalidPrecompileArgs)
  end.

(** [Option::encode], then a zero in front of the whole buffer. *)
Definition body_submit : Body := λ codec origin args output,
  let decoded := match codec with Scale => decode_submit args | Rlp => None end in
  match decoded with
  | Some (execution_id, side_effects, speed_mode) =>
      r ← attempt (invoke (PSubmitSideEffects origin execution_id side_effects speed_mode));
      mret (match r with
            | ROk i =>
                0 :: output ++ match get_submit i with
                               | Some v => 1 :: encode_view v
                               | None => [0]
                               end
            | RErr e => output ++ 1 :: encode_dispatch_error e
            end)
  | None => mret (output ++ encode_error InvalidPrecompileArgs)
  end.

(** What the bodies of the vacuum write: [picked] selects the expected invocation. *)
Definition vacuum_output (picked : PrecompileInvocation → option bool) (output : list Z)
    (r : result DispatchError PrecompileInvocation) : list Z :=
  match r with
  | ROk i =>
      match picked i with
      | Some true => output ++ [0; 0]
      | Some false => output ++ [1; 0]
      | None => output
      end
  | RErr e => output ++ 1 :: encode_dispatch_error e
  end.

Definition vacuum_body {A} (scale : list Z → option A) (rlp : list Z → TV A)
    (call : RawOrigin → A → PrecompileArgs) (picked : PrecompileInvocation → option bool) : Body :=
  λ codec origin args output,
    decoded ← match codec with Scale => mret (scale args) | Rlp => rlp_option (rlp args) end;
    match decoded with
    | Some a =>
        r ← attempt (invoke (call origin a));
        mret (vacuum_output picked output r)
    | None => mret (output ++ encode_error InvalidPrecompileArgs)
    end.

Definition body_vacuum_order : Body :=
  vacuum_body (decode_with decode_evm_order) from_rlp_encoded_packed PVacuumOrder
    (λ i, match i with IVacuumOrder b => Some b | _ => None end).
Definition body_vacuum_3d_order : Body :=
  vacuum_body (decode_with decode_evm_3d_order) from_rlp_encoded_packed_3d PVacuum3DOrder
    (λ i, match i with IVacuumOrder b => Some b | _ => None end).
Definition body_vacuum_confirm : Body :=
  vacuum_body (decode_with decode_evm_order) from_rlp_encoded_packed PVacuumConfirm
    (λ i, match i with IVacuumConfirm b => Some b | _ => None end).
Definition body_correctness_proof : Body :=
  vacuum_body decode_evm_proof proof_from_rlp PVacuumSubmitCorrectnessProof
    (λ i, match i with IVacuumSubmitCorrectnessProof b => Some b | _ => None end).
Definition body_fault_proof : Body :=
  vacuum_body decode_evm_proof proof_from_rlp PVacuumSubmitFaultProof
    (λ i, match i with IVacuumSubmitFaultProof b => Some b | _ => None end).
Definition body_teleport : Body :=
  vacuum_body decode_teleport_order teleport_from_rlp PVacuumTeleportOrder
    (λ i, match i with IVacuumTeleportOrder b => Some b | _ => None end).

Definition body_signal : Body := λ codec origin args output,
  let decoded := match codec with Scale => decode_with decode_signal args | Rlp => None end in
  match decoded with
  | Some sg =>
      r ← attempt (invoke (PSignal origin sg));
      mret (match r with
            | ROk _ => output ++ [0]
            | RErr e => output ++ 1 :: encode_dispatch_error e
            end)
  | None => mret (output ++ encode_error InvalidPrecompileArgs)
  end.

Definition body_portal : Body := λ codec _ args output,
  r ← attempt
        (a ← zoom (λ _, tt) (λ _ s, s) (Portal.recode_to_scale_and_decode codec args);
         i ← invoke (PPortal a);
         mret (match i with IPortal x => portal_execution_bytes x | _ => [] end));
  mret (match r with ROk bytes => output ++ 0 :: bytes | RErr _ => output ++ [1] end).

Definition body_bad_pointer : Body := λ _ _ _ output,
  mret (output ++ encode_error InvalidPrecompilePointer).

(** *** The match on the pointer *)

Inductive Pattern := PConst (c : Z) | PBind.

Definition pattern_matches (p : Pattern) (pointer : Z) : bool :=
  match p with PConst c => pointer =? c | PBind => true end.

Fixpoint match_arms {A} (arms : list (Pattern * A)) (pointer : Z) : option A :=
  match arms with
  | [] => None
  | (p, body) :: arms => if pattern_matches p pointer then Some body else match_arms arms pointer
  end.

Definition invoke_raw_arms : list (Pattern * Body) :=
  [(PConst GET_STATE, body_get_state);
   (PConst SUBMIT, body_submit);
   (PBind, body_vacuum_order);
   (PBind, body_vacuum_3d_order);
   (PBind, body_vacuum_confirm);
   (PBind, body_correctness_proof);
   (PBind, body_fault_proof);
   (PBind, body_teleport);
   (PConst POST_SIGNAL, body_signal);
   (PConst PORTAL, body_portal);
   (PBind, body_bad_pointer)].

Definition invoke_raw (pointer : Z) (args output : list Z) : TV (list Z) :=
  match args with
  | [] | [_] => mret (output ++ encode_error InvalidPrecompileArgs)
  | selector :: rest =>
      let codec := codec_of_byte selector in
      o ← gets (extract_origin codec rest);
      match o with
      | Some (origin, args) =>
          body ← expect (match_arms invoke_raw_arms pointer);
          body codec origin args output
      | None => mret (output ++ encode_error InvalidOrigin)
      end
  end.
End Precompile.
