(* ===== verification/EvmPrecompiles.v ===== *)
(** * Calls of EVM contracts into the 3VM

    [pallets/evm/precompile/{vacuum,portal,3vm-dispatch}/src/lib.rs]: the precompiles an
    EVM contract calls, which hand their input to [invoke_raw] of the 3VM; and the
    properties of [invoke_raw] and of these precompiles.

    A failure of a precompile is the message of its [ExitError]; undoing its effects is
    up to the EVM. *)

From S2P Require Import Prelude Types AccountManager World Orders AbiFill AbiRecode Portal.
From S2P Require Import ContractsRegistry ThreeVm Precompile3Vm.

Inductive ExitSucceed := Stopped | Returned.

(** The Rust enum of the vacuum precompile with its discriminants. *)
Inductive VacuumAction :=
| VacuumOrder | Vacuum3DOrder | VacuumConfirm | VacuumSubmitCorrectnessProof
| VacuumSubmitFaultProof | VacuumTeleportOrder.

Definition action_pointer (a : VacuumAction) : Z :=
  match a with
  | VacuumOrder => 90 | Vacuum3DOrder => 91 | VacuumConfirm => 92
  | VacuumSubmitCorrectnessProof => 93 | VacuumSubmitFaultProof => 94
  | VacuumTeleportOrder => 96
  end.

Definition action_of_byte (b : Z) : option VacuumAction :=
  match b with
  | 0 => Some VacuumOrder
  | 1 => Some Vacuum3DOrder
  | 2 => Some VacuumConfirm
  | 3 => Some VacuumSubmitCorrectnessProof
  | 4 => Some VacuumSubmitFaultProof
  | 5 => Some VacuumTeleportOrder
  | _ => None
  end.

Definition evm_result (output : list Z) : result string (ExitSucceed * list Z) :=
  match output with
  | [] => RErr "Empty buffer"
  | b :: _ => if b =? 0 then ROk (Returned, output) else RErr "invalid output"
  end.

(** The byte of the codec, the caller and the input. *)
Definition restructured_args (caller : Z) (input : list Z) : list Z :=
  1 :: be_bytes 20 caller ++ input.

Section Execute.
Context {E : Type} `{!ThreeVmConfig E} `{RlpLib} `{!ThreeVmCodec}.
Abbreviation TV := (M (ThreeVm E) DispatchError).
Abbreviation EvmOut := (result string (ExitSucceed * list Z)).

Definition vacuum_execute (caller : Z) (input : list Z) : TV EvmOut :=
  let args := restructured_args caller input in
  match head args with
  | Some byte =>
      match action_of_byte byte with
      | Some action =>
          output ← invoke_raw (action_pointer action) args [];
          mret (evm_result output)
      | None => mret (RErr "Invalid action selector")
      end
  | None => mret (RErr "Empty buffer")
  end.

Definition portal_execute (caller : Z) (input : list Z) : TV EvmOut :=
  output ← invoke_raw PORTAL (restructured_args caller input) [];
  mret (evm_result output).

Definition dispatch_execute (input : list Z) : TV EvmOut :=
  output ← invoke_raw 55 input [];
  mret (match output with [] => RErr "invalid output" | _ => ROk (Stopped, output) end).

(** ** The match on the pointer *)

(** [GET_STATE] and [SUBMIT] have their bodies; every other pointer gets that of an order. *)
Lemma pointer_dispatch pointer :
  match_arms (invoke_raw_arms (E:=E)) pointer =
    Some (if pointer =? GET_STATE then body_get_state
          else if pointer =? SUBMIT then body_submit else body_vacuum_order).
Proof.
  unfold invoke_raw_arms. cbn [match_arms pattern_matches].
  by destruct (pointer =? GET_STATE), (pointer =? SUBMIT).
Qed.

Lemma invoke_raw_cases pointer selector b rest output (s : ThreeVm E) :
  invoke_raw pointer (selector :: b :: rest) output s =
    match extract_origin (codec_of_byte selector) (b :: rest) s with
    | Some (origin, args) =>
        (if pointer =? GET_STATE then body_get_state
         else if pointer =? SUBMIT then body_submit else body_vacuum_order)
          (codec_of_byte selector) origin args output s
    | None => Ok (output ++ encode_error InvalidOrigin) s
    end.
Proof.
  unfold invoke_raw, mbind at 1, M_bind at 1, gets.
  destruct (extract_origin _ _ s) as [[origin args]|]; [|done]. rewrite pointer_dispatch. reflexivity.
Qed.

(** ** Raw calls touch the storage of no 3VM item *)

Definition own_items (s : ThreeVm E) := (tv_signals s, precompile_index s, author_of s, tv_events s).

(** Invocations other than a signal act on the other pallets only. *)
Lemma in_ext_items {Er A} (m : M E Er A) (s : ThreeVm E) :
  match in_ext m s with
  | Ok _ s' | Err _ s' => own_items s' = own_items s
  | Panic => True
  end.
Proof. unfold in_ext, zoom. by destruct (m (tv_ext s)). Qed.

Definition keeps_items {A} (m : TV A) : Prop :=
  ∀ s, match m s with Ok _ s' | Err _ s' => own_items s' = own_items s | Panic => True end.

Lemma keeps_bind {A C} (m : TV A) (f : A → TV C) :
  keeps_items m → (∀ a, keeps_items (f a)) → keeps_items (m ≫= f).
Proof.
  intros Hm Hf s. unfold mbind, M_bind. specialize (Hm s). destruct (m s) as [a s1|e s1|]; [|done|done].
  specialize (Hf a s1). destruct (f a s1); congruence.
Qed.

Lemma keeps_ret {A} (a : A) : keeps_items (mret a).
Proof. done. Qed.

Lemma keeps_in_ext {A} (m : M E DispatchError A) : keeps_items (in_ext m).
Proof. intros s. apply in_ext_items. Qed.

Lemma keeps_attempt {A} (m : TV A) : keeps_items m → keeps_items (attempt m).
Proof. intros Hm s. specialize (Hm s). unfold attempt. by destruct (m s). Qed.

Lemma keeps_map_err {A} f (m : TV A) : keeps_items m → keeps_items (map_err f m).
Proof. intros Hm s. specialize (Hm s). unfold map_err. by destruct (m s). Qed.

Lemma keeps_packed l : keeps_items (from_rlp_encoded_packed l).
Proof.
  intros s. destruct (Nat.lt_ge_cases (length l) 156) as [Hl|Hl].
  - by rewrite packed_short.
  - destruct (packed_long l Hl) as (o & Ho). by rewrite Ho.
Qed.

Lemma keeps_invoke_get_state origin id : keeps_items (invoke (PGetState origin id)).
Proof. apply keeps_bind; [apply keeps_in_ext|intros ?; apply keeps_ret]. Qed.

Lemma keeps_invoke_submit origin id l sm : keeps_items (invoke (PSubmitSideEffects origin id l sm)).
Proof.
  apply keeps_bind; [apply keeps_map_err; by destruct origin|]. intros who.
  destruct l; [done|]. apply keeps_bind; [apply keeps_in_ext|intros ?; apply keeps_ret].
Qed.

Lemma keeps_invoke_order origin o : keeps_items (invoke (PVacuumOrder origin o)).
Proof. apply keeps_bind; [apply keeps_in_ext|intros ?; apply keeps_ret]. Qed.

Lemma keeps_body_order codec origin args output :
  keeps_items (body_vacuum_order codec origin args output).
Proof.
  apply keeps_bind.
  - destruct codec; [apply keeps_ret|].
    apply keeps_bind; [apply keeps_attempt, keeps_packed|intros ?; apply keeps_ret].
  - intros [o|]; [|apply keeps_ret].
    apply keeps_bind; [apply keeps_attempt, keeps_invoke_order|intros ?; apply keeps_ret].
Qed.

Lemma keeps_body_get_state codec origin args output :
  keeps_items (body_get_state codec origin args output).
Proof.
  unfold body_get_state. destruct (match codec with Scale => _ | Rlp => _ end); [|apply keeps_ret].
  apply keeps_bind; [apply keeps_attempt, keeps_invoke_get_state|intros ?; apply keeps_ret].
Qed.

Lemma keeps_body_submit codec origin args output :
  keeps_items (body_submit codec origin args output).
Proof.
  unfold body_submit. destruct (match codec with Scale => _ | Rlp => _ end) as [[[id l] sm]|];
    [|apply keeps_ret].
  apply keeps_bind; [apply keeps_attempt, keeps_invoke_submit|intros ?; apply keeps_ret].
Qed.

(** No raw call, under any pointer, writes an item of the 3VM: a signal posted with the
    pointer [POST_SIGNAL] is not counted and not handed to the Circuit's queue as one. *)
Theorem raw_calls_post_no_signal pointer args output s out s' :
  invoke_raw pointer args output s = Ok out s' →
  tv_signals s' = tv_signals s ∧ author_of s' = author_of s ∧
  precompile_index s' = precompile_index s ∧ tv_events s' = tv_events s.
Proof.
  assert (keeps_items (invoke_raw pointer args output)) as Hk.
  { intros t. destruct args as [|selector [|b rest]]; [done|done|]. rewrite invoke_raw_cases.
    destruct (extract_origin _ _ t) as [[origin args]|]; [|done].
    destruct (pointer =? GET_STATE); [apply keeps_body_get_state|].
    destruct (pointer =? SUBMIT); [apply keeps_body_submit|apply keeps_body_order]. }
  intros Hok. specialize (Hk s). rewrite Hok in Hk. unfold own_items in Hk. by injection Hk.
Qed.

(** ** Orders *)

Lemma decode_evm_order_encode o rest :
  evm_order_ok o → decode_evm_order (encode_evm_order o ++ rest) = Ok o rest.
Proof.
  intros (Hd & Has & Hta & Ham & Hra & Hin & Hmr). unfold decode_evm_order, encode_evm_order.
  rewrite <- !app_assoc.
  erewrite bind_Ok; [|by apply read_bytes_app].
  do 6 (erewrite bind_Ok; [|by first [apply read_word_app|apply read_uint_app]]).
  by destruct o.
Qed.

(** What an order writes to the output. *)
Definition order_output (output : list Z) (r : outcome E DispatchError bool) (s : ThreeVm E)
    : outcome (ThreeVm E) DispatchError (list Z) :=
  match r with
  | Ok true x => Ok (output ++ [0; 0]) (set_tv_ext x s)
  | Ok false x => Ok (output ++ [1; 0]) (set_tv_ext x s)
  | Err e x => Ok (output ++ 1 :: encode_dispatch_error e) (set_tv_ext x s)
  | Panic => Panic
  end.

Lemma attempt_order origin o output (s : ThreeVm E) :
  (r ← attempt (E':=DispatchError) (invoke (PVacuumOrder origin o));
   mret (vacuum_output (λ i, match i with IVacuumOrder b => Some b | _ => None end) output r)) s =
  order_output output (tv_evm_order origin o (tv_ext s)) s.
Proof.
  unfold attempt, invoke, mbind, M_bind, in_ext, zoom. cbn.
  by destruct (tv_evm_order origin o (tv_ext s)) as [[]| |].
Qed.

(** C35: A contract that calls with any pointer but [GET_STATE] and [SUBMIT], its account and
    an encoded order, places the order in its name; the output starts with 0 exactly when
    it succeeds. *)
Theorem raw_order_placed pointer who o rest output s :
  pointer ≠ GET_STATE → pointer ≠ SUBMIT → is_word 32 who → evm_order_ok o →
  invoke_raw pointer (0 :: be_bytes 32 who ++ encode_evm_order o ++ rest) output s =
    order_output output (tv_evm_order (Signed who) o (tv_ext s)) s.
Proof.
  intros Hg Hs Hw Ho.
  destruct (be_bytes 32 who ++ encode_evm_order o ++ rest) as [|b l] eqn:Hl.
  { apply (f_equal length) in Hl. rewrite length_app, length_be_bytes in Hl. cbn in Hl. lia. }
  rewrite invoke_raw_cases, <- Hl. cbn [codec_of_byte Z.eqb extract_origin].
  rewrite read_word_app by done.
  rewrite (proj2 (Z.eqb_neq _ _) Hg), (proj2 (Z.eqb_neq _ _) Hs).
  unfold body_vacuum_order, vacuum_body. erewrite bind_Ok; [|reflexivity].
  unfold decode_with. rewrite decode_evm_order_encode by done. apply attempt_order.
Qed.

(** ** The precompiles of the EVM *)

Lemma raw_rlp_order pointer caller input output (s : ThreeVm E) :
  pointer ≠ GET_STATE → pointer ≠ SUBMIT → is_word 20 caller →
  invoke_raw pointer (restructured_args caller input) output s =
    match from_rlp_encoded_packed input s with
    | Ok o _ =>
        order_output output
          (tv_evm_order (Signed (tv_into_account_id caller (tv_ext s))) o (tv_ext s)) s
    | _ => Panic
    end.
Proof.
  intros Hg Hs Hc. unfold restructured_args.
  destruct (be_bytes 20 caller ++ input) as [|b l] eqn:Hl.
  { apply (f_equal length) in Hl. rewrite length_app, length_be_bytes in Hl. cbn in Hl. lia. }
  rewrite invoke_raw_cases, <- Hl. change (codec_of_byte 1) with Rlp. cbn [extract_origin].
  rewrite (proj2 (Nat.leb_le _ _)) by (rewrite length_app, length_be_bytes; lia).
  rewrite take_app_length', drop_app_length' by by rewrite length_be_bytes.
  rewrite word_be_bytes by done.
  rewrite (proj2 (Z.eqb_neq _ _) Hg), (proj2 (Z.eqb_neq _ _) Hs).
  unfold body_vacuum_order, vacuum_body, rlp_option.
  destruct (Nat.lt_ge_cases (length input) 156) as [Hi|Hi].
  - rewrite packed_short by done. unfold attempt, mbind, M_bind. by rewrite packed_short.
  - destruct (packed_long input Hi) as (o & Ho). rewrite Ho.
    erewrite bind_Ok; [|unfold attempt, mbind, M_bind; rewrite Ho; reflexivity].
    apply attempt_order.
Qed.

(** C34: What the precompile of the Portal and the one of the vacuum do with the input of a
    contract is the same: they read it as an order and place it.  An input of less than
    156 bytes traps, and no call of the Portal is ever made. *)
Theorem evm_calls_place_orders caller input s :
  is_word 20 caller →
  vacuum_execute caller input s = portal_execute caller input s ∧
  portal_execute caller input s =
    if (length input <? 156)%nat then Panic
    else
      match from_rlp_encoded_packed input s with
      | Ok o _ =>
          match tv_evm_order (Signed (tv_into_account_id caller (tv_ext s))) o (tv_ext s) with
          | Ok true x => Ok (ROk (Returned, [0; 0])) (set_tv_ext x s)
          | Ok false x | Err _ x => Ok (RErr "invalid output") (set_tv_ext x s)
          | Panic => Panic
          end
      | _ => Panic
      end.
Proof.
  intros Hc.
  assert (∀ pointer, pointer ≠ GET_STATE → pointer ≠ SUBMIT →
    (output ← invoke_raw pointer (restructured_args caller input) [];
     mret (evm_result output)) s =
      if (length input <? 156)%nat then Panic
      else
        match from_rlp_encoded_packed input s with
        | Ok o _ =>
            match tv_evm_order (Signed (tv_into_account_id caller (tv_ext s))) o (tv_ext s) with
            | Ok true x => Ok (ROk (Returned, [0; 0])) (set_tv_ext x s)
            | Ok false x | Err _ x => Ok (RErr "invalid output") (set_tv_ext x s)
            | Panic => Panic
            end
        | _ => Panic
        end) as Hp.
  { intros pointer Hg Hs. unfold mbind at 1, M_bind at 1. rewrite raw_rlp_order by done.
    destruct (Nat.ltb_spec (length input) 156) as [Hi|Hi]; [by rewrite packed_short|].
    destruct (packed_long input Hi) as (o & Ho). rewrite Ho.
    by destruct (tv_evm_order _ o (tv_ext s)) as [[]| |]. }
  split; [|by apply Hp]. transitivity
    ((output ← invoke_raw 91 (restructured_args caller input) []; mret (evm_result output)) s);
    [done|]. rewrite Hp by done. symmetry. by apply Hp.
Qed.
End Execute.
