(* ===== verification/ThreeVmSystem.v ===== *)
(** * The 3VM with the pallets it calls

    The instance of [ThreeVmConfig] the runtimes configure
    ([runtime/t2rn-parachain/src/contracts_config.rs]): the account manager and the
    Circuit behind the Vacuum, the contracts registry, the account mapping and the
    Portal, with the properties of the 3VM composed with them. *)

From S2P Require Import Prelude Types Status AccountManager World SquareUp Bids Validate.
From S2P Require Import Machine Circuit Orders Queues Calls Vacuum AbiFill AbiRecode Xdns.
From S2P Require Import Portal ContractsRegistry AccountMapping ThreeVm Precompile3Vm.

(** The state of the pallets.  Of the account mapping, the 3VM reads the maps only. *)
Record Pallets3Vm (B X P : Type) := mkPallets3Vm {
  p3_vacuum : Vacuum (AMState B) X;
  p3_registry : Registry;
  p3_mapping : Mapping unit;
  p3_portal : PortalState P;
}.
Arguments mkPallets3Vm {B X P}.
Arguments p3_vacuum {B X P}.
Arguments p3_registry {B X P}.
Arguments p3_mapping {B X P}.
Arguments p3_portal {B X P}.

Section System.
Context {B X P : Type} `{Hashing} `{Ledger B} `{AMConfig} `{!CircuitConfig (AMState B) X}
  `{!VacuumConfig (AMState B) X} `{RlpLib} `{!XdnsConfig P} `{!SelectLightClient P}.
Abbreviation PS := (Pallets3Vm B X P).

Definition p3_circuit (p : PS) : World (AMState B) X := v_circuit (p3_vacuum p).
Definition p3_am (p : PS) : AMState B := w_am (p3_circuit p).

Definition set_p3_vacuum (v : Vacuum (AMState B) X) (p : PS) : PS :=
  mkPallets3Vm v (p3_registry p) (p3_mapping p) (p3_portal p).
Definition set_p3_circuit (w : World (AMState B) X) (p : PS) : PS :=
  set_p3_vacuum (set_v_circuit w (p3_vacuum p)) p.
Definition set_p3_am (a : AMState B) (p : PS) : PS := set_p3_circuit (set_am a (p3_circuit p)) p.
Definition set_p3_registry (r : Registry) (p : PS) : PS :=
  mkPallets3Vm (p3_vacuum p) r (p3_mapping p) (p3_portal p).
Definition set_p3_portal (q : PortalState P) (p : PS) : PS :=
  mkPallets3Vm (p3_vacuum p) (p3_registry p) (p3_mapping p) q.

(** [SignalBounceThreshold = ConstU32<2>]. *)
#[export] Instance runtime_3vm : ThreeVmConfig PS := {|
  SignalBounceThreshold := 2;
  tv_fetch_contract_by_id id := zoom p3_registry set_p3_registry (fetch_contract_by_id id);
  tv_bump_contracts_registry_nonce := zoom p3_am set_p3_am bump_contracts_registry_nonce;
  tv_deposit id c := zoom p3_am set_p3_am (deposit id c);
  tv_finalize id o r f := zoom p3_am set_p3_am (finalize id o r f);
  tv_load_local_state o id := zoom p3_circuit set_p3_circuit (load_local_state o id);
  tv_on_local_trigger o t := zoom p3_circuit set_p3_circuit (on_local_trigger o t);
  tv_on_signal o sg := zoom p3_circuit set_p3_circuit (on_signal o sg);
  tv_evm_order o ord := zoom p3_vacuum set_p3_vacuum (evm_order o ord);
  tv_latest_finalized_header c := zoom p3_portal set_p3_portal (portal_latest_finalized_header c);
  tv_finalized_height c := zoom p3_portal set_p3_portal (portal_finalized_height c);
  tv_rational_height c := zoom p3_portal set_p3_portal (portal_rational_height c);
  tv_fast_height c := zoom p3_portal set_p3_portal (portal_fast_height c);
  tv_verify_event_inclusion c sm src m :=
    zoom p3_portal set_p3_portal (portal_verify_event_inclusion c sm src m);
  tv_verify_state_inclusion c sm m :=
    zoom p3_portal set_p3_portal (portal_verify_state_inclusion c sm m);
  tv_verify_tx_inclusion c sm m :=
    zoom p3_portal set_p3_portal (portal_verify_tx_inclusion c sm m);
  tv_into_account_id e p := mapping_into_account_id e (p3_mapping p);
|}.

Implicit Types s : ThreeVm PS.

Definition am_of s : AMState B := p3_am (tv_ext s).
Definition put_am (a : AMState B) s : ThreeVm PS := set_tv_ext (set_p3_am a (tv_ext s)) s.

Lemma am_of_put a s : am_of (put_am a s) = a.
Proof. done. Qed.

Lemma zoom_am_Ok {A} (m : M (AMState B) DispatchError A) s a s' :
  in_ext (zoom p3_am set_p3_am m) s = Ok a s' →
  ∃ am', m (am_of s) = Ok a am' ∧ s' = put_am am' s.
Proof.
  unfold in_ext, zoom, am_of. destruct (m (p3_am (tv_ext s))) eqn:Hm; try done.
  intros [= <- <-]. by eexists.
Qed.

(** ** Remuneration *)

Lemma bump_nonce_frame (a a' : AMState B) id :
  bump_contracts_registry_nonce a = Ok id a' →
  pending_charges a' !! id = None ∧ bank a' = bank a ∧ current_round a' = current_round a ∧
  settlements_per_round a' = settlements_per_round a.
Proof.
  unfold bump_contracts_registry_nonce, no_charge_or_fail, mbind, M_bind, gets, modify, ensure.
  cbn. destruct (pending_charges a !! _) eqn:Hc; cbn; [done|]. by intros [= <- <-].
Qed.

(** The charge of an author after it is committed or reverted. *)
Lemma finalize_author_charge (a : AMState B) id who author amount :
  pending_charges a !! id = Some (author_charge who author amount) →
  is_remote (order_origin_new who) = false → 0 < amount →
  (finalize_infallible id Commit a).1 =
    remove_charge id
      (insert_settlement id (author_charge who author amount) (author_account author) Commit a) ∧
  (finalize_infallible id Revert a).1 =
    remove_charge id (set_bank (deposit_creating who amount (bank a)) a).
Proof.
  intros Hc Hl Hpos. unfold finalize_infallible. rewrite Hc. cbn. rewrite Hl.
  by rewrite (proj2 (Z.ltb_lt _ _) Hpos).
Qed.

Lemma try_finalize_run id o s :
  try_finalize id o s = Ok tt (put_am (finalize_infallible id o (am_of s)).1 s).
Proof. done. Qed.

Context {Mod : Type} `{ModuleLaws Mod}.

(** C36: A use of a contract with a fee takes the fee from the payee and registers it in favour
    of the author.  Committed, it becomes a settlement of the author in the current round;
    reverted, it goes back to the payee. *)
Theorem remuneration_settled payee_ (m : Mod) author fee s r s1 :
  module_author m = Some author → fees_per_single_use author = Some fee → 0 < fee →
  is_remote (order_origin_new payee_) = false →
  try_remunerate payee_ m s = Ok r s1 →
  ∃ id b, remuneration_id r = Some id ∧ has_storage (get_type m) = false ∧
    currency_withdraw payee_ fee (bank (am_of s)) = ROk b ∧
    bank (am_of s1) = b ∧
    pending_charges (am_of s1) !! id = Some (author_charge payee_ author fee) ∧
    (∃ s2, try_finalize id Commit s1 = Ok tt s2 ∧
       pending_charges (am_of s2) !! id = None ∧ bank (am_of s2) = b ∧
       get_settlement id (am_of s2) =
         Some (mkSettlement payee_ (author_account author) fee None Commit TrafficRewards
                 ContractAuthor)) ∧
    (∃ s2, try_finalize id Revert s1 = Ok tt s2 ∧
       pending_charges (am_of s2) !! id = None ∧
       bank (am_of s2) = deposit_creating payee_ fee b ∧
       settlements_per_round (am_of s2) = settlements_per_round (am_of s)).
Proof.
  intros Ha Hfee Hpos Hl Hok. rewrite (remunerate_is_exact _ _ _ _ Ha), Hfee in Hok.
  unfold try_remunerate_exact in Hok. rewrite Ha in Hok. change (default 0 (Some fee)) with fee in Hok.
  unfold handle_remuneration in Hok. rewrite (proj2 (Z.ltb_lt _ _) Hpos) in Hok.
  assert (can_remunerate (get_type m) = negb (has_storage (get_type m))) as Hst
    by by destruct (get_type m).
  rewrite Hst in Hok. destruct (has_storage (get_type m)); [done|]. cbn [negb] in Hok.
  apply bind_Ok_inv in Hok as (id & s0 & Hn & Hok).
  apply zoom_am_Ok in Hn as (a0 & Hn & ->). apply bump_nonce_frame in Hn as (Hfree & Hb & Hr & Hse).
  apply bind_Ok_inv in Hok as ([] & s2 & Hd & [= <- <-]).
  apply zoom_am_Ok in Hd as (a1 & Hd & ->). rewrite am_of_put in Hd.
  apply deposit_Ok_inv in Hd as (a2 & _ & Hw & ->). cbn in Hw.
  unfold withdraw_immediately, monetary_withdraw in Hw. rewrite Hl, Z.add_0_l in Hw.
  destruct (currency_withdraw payee_ fee (bank a0)) as [b|] eqn:Hcw; [|done]. injection Hw as <-.
  exists id, b. rewrite Hb in Hcw. rewrite !am_of_put. cbn -[finalize_infallible].
  rewrite lookup_insert_eq. do 5 (split; [done|]).
  set (a := am_deposit_event _ _).
  destruct (finalize_author_charge a id payee_ author fee) as [Hc Hv]; [|done|done|].
  { cbn. by rewrite lookup_insert_eq. }
  split; (eexists; split; [apply try_finalize_run|]); rewrite !am_of_put.
  - rewrite Hc. cbn. rewrite lookup_delete_eq. split; [done|]. split; [done|].
    unfold get_settlement. cbn. by rewrite lookup_insert_eq.
  - rewrite Hv. cbn. rewrite lookup_delete_eq. by rewrite Hse.
Qed.

(** ** Signals *)

(** A signal that is accepted is the next entry of the Circuit's queue, in the name of the
    account that posted it, and was below the threshold of its step. *)
Theorem signal_reaches_circuit who sg s i s' :
  counters_ok s → invoke (PSignal (Signed who) sg) s = Ok i s' →
  i = ISignal ∧ bounces (sig_key sg) s < 2 ∧
  bounces (sig_key sg) s' = bounces (sig_key sg) s + 1 ∧
  signal_queue (p3_circuit (tv_ext s')) = signal_queue (p3_circuit (tv_ext s)) ++ [(who, sg)] ∧
  Z.of_nat (length (signal_queue (p3_circuit (tv_ext s')))) ≤ SignalQueueDepth.
Proof.
  intros Hc Hok. cbn [invoke] in Hok. apply bind_Ok_inv in Hok as (op & s1 & Hsig & Hok).
  unfold map_err in Hsig. pose proof (signal_spec sg s Hc) as Hs.
  destruct (signal sg s) as [op' s1'| |]; try done. injection Hsig as <- <-.
  destruct Hs as (_ & Hthr & _ & Hm & Hx & _). cbn [SignalBounceThreshold runtime_3vm] in Hthr.
  apply bind_Ok_inv in Hok as ([] & s2 & Hpost & [= <- <-]).
  unfold in_ext, zoom in Hpost. cbn [tv_on_signal runtime_3vm] in Hpost. unfold zoom in Hpost. rewrite Hx in Hpost.
  unfold on_signal, authorize, ensure_signed, mbind, M_bind, gets, modify, ensure in Hpost. cbn in Hpost.
  destruct (Z.ltb_spec (Z.of_nat (length (signal_queue (p3_circuit (tv_ext s))))) SignalQueueDepth)
    as [Hq|]; cbn in Hpost; [|done]. injection Hpost as <-. split; [done|]. split; [lia|]. split.
  - unfold bounces at 1. cbn. rewrite Hm, lookup_insert_eq. done.
  - cbn. split; [done|]. rewrite length_app. cbn. lia.
Qed.

(** ** Contracts of the registry *)

(** A contract stored in the registry can be instantiated as a module with its author,
    its type and its code, until it is purged. *)
Theorem stored_contract_instantiated requester c id (generator : list Z → Mod) s p' :
  id = registry_generate_id c →
  add_new_contract Root requester c (p3_registry (tv_ext s)) = Ok tt p' →
  let s1 := set_tv_ext (set_p3_registry p' (tv_ext s)) s in
  ∃ m s2, from_registry id generator s1 = Ok m s2 ∧
    module_author m = Some (contract_author c) ∧ get_type m = contract_type (contract_meta c) ∧
    get_bytecode m = get_bytecode (generator (contract_bytes c)).
Proof.
  intros -> Hadd s1. rewrite add_new_contract_cases in Hadd. destruct (_ =? _); [|done].
  destruct (_ !! _) eqn:Hid; [done|]. injection Hadd as <-.
  unfold from_registry, map_err, in_ext, zoom, mbind, M_bind, tv_deposit_event, modify.
  cbn [tv_fetch_contract_by_id runtime_3vm]. unfold zoom. rewrite fetch_by_id_cases. cbn.
  rewrite lookup_insert_eq. eexists _, _. split; [reflexivity|].
  by rewrite module_author_set_type, module_author_set, get_type_set, bytecode_set_type,
    bytecode_set_author.
Qed.
End System.
