(* ===== verification/Maintenance.v ===== *)
(** * The maintenance mode

    [pallets/maintenance-mode/src/{lib,types}.rs] and the filters of calls of the runtime
    ([runtime/t2rn-parachain/src/system_config.rs]).

    - [Maintenance]: whether the mode is on, and the events of the pallet.
    - A call of the runtime is a pallet with the name of its method.
    - [Hooks S]: the hooks of a set of pallets with state [S]; [executive_hooks] runs
      those of the current mode. *)

From S2P Require Import Prelude Types AccountManager.

(** ** The pallet *)

Inductive MaintenanceEvent := EnteredMaintenanceMode | NormalOperationResumed.

#[export] Instance MaintenanceEvent_eq_dec : EqDecision MaintenanceEvent.
Proof. solve_decision. Defined.

Record Maintenance := mkMaintenance {
  maintenance_mode : bool;
  maintenance_events : list MaintenanceEvent;
}.

Class MaintenanceConfig (Call : Type) := {
  NormalCallFilter : Call → bool;
  MaintenanceCallFilter : Call → bool;
  (** [MaintenanceOrigin::ensure_origin(..).is_ok()]. *)
  MaintenanceOrigin : RawOrigin → bool;
}.

Section Pallet.
Context {Call : Type} `{!MaintenanceConfig Call}.
Abbreviation D := (M Maintenance DispatchError).

Definition set_mode (b : bool) (e : MaintenanceEvent) (s : Maintenance) : Maintenance :=
  mkMaintenance b (e :: maintenance_events s).

Definition enter_maintenance_mode (origin : RawOrigin) : D unit :=
  transactional
    (ensure (MaintenanceOrigin origin) BadOrigin ;;
     mode ← gets maintenance_mode;
     ensure (negb mode) (MaintenanceModuleError AlreadyInMaintenanceMode) ;;
     modify (set_mode true EnteredMaintenanceMode)).

Definition resume_normal_operation (origin : RawOrigin) : D unit :=
  transactional
    (ensure (MaintenanceOrigin origin) BadOrigin ;;
     mode ← gets maintenance_mode;
     ensure mode (MaintenanceModuleError NotInMaintenanceMode) ;;
     modify (set_mode false NormalOperationResumed)).

Definition maintenance_genesis (start_in_maintenance_mode : bool) : Maintenance :=
  mkMaintenance start_in_maintenance_mode [].

(** [Contains::contains]. *)
Definition maintenance_contains (c : Call) (s : Maintenance) : bool :=
  if maintenance_mode s then MaintenanceCallFilter c else NormalCallFilter c.
End Pallet.

(** ** Hooks (types.rs) *)

Record Hooks (S : Type) := mkHooks {
  hook_on_idle : BlockNumber → Z → S → S * Z;
  hook_on_initialize : BlockNumber → S → S * Z;
  hook_on_finalize : BlockNumber → S → S;
  hook_offchain_worker : BlockNumber → S → S;
  hook_on_runtime_upgrade : S → S * Z;
}.
Arguments hook_on_idle {S}.
Arguments hook_on_initialize {S}.
Arguments hook_on_finalize {S}.
Arguments hook_offchain_worker {S}.
Arguments hook_on_runtime_upgrade {S}.

Section Hooks.
Context {S : Type} (mode : S → bool) (normal maintenance : Hooks S).

(** [ExecutiveHooks]: [mode] reads the storage of the pallet. *)
Definition executive_hooks : Hooks S := {|
  hook_on_idle n w s :=
    if mode s then hook_on_idle maintenance n w s else hook_on_idle normal n w s;
  hook_on_initialize n s :=
    if mode s then hook_on_initialize maintenance n s else hook_on_initialize normal n s;
  hook_on_finalize n s :=
    if mode s then hook_on_finalize maintenance n s else hook_on_finalize normal n s;
  hook_offchain_worker n s :=
    if mode s then hook_offchain_worker maintenance n s else hook_offchain_worker normal n s;
  hook_on_runtime_upgrade s :=
    if mode s then hook_on_runtime_upgrade maintenance s else hook_on_runtime_upgrade normal s;
|}.
End Hooks.

(** [MaintenanceHooks] of the runtime, over those of all pallets. *)
Definition maintenance_hooks {S} (all_pallets : Hooks S) : Hooks S := {|
  hook_on_idle _ _ s := (s, 0);
  hook_on_initialize := hook_on_initialize all_pallets;
  hook_on_finalize := hook_on_finalize all_pallets;
  hook_offchain_worker := hook_offchain_worker all_pallets;
  hook_on_runtime_upgrade := hook_on_runtime_upgrade all_pallets;
|}.

(** ** Calls of the runtime *)

Inductive Pallet :=
| PSystem | PTimestamp | PAura | PGrandpa | PUtility | PBalances | PTransactionPayment | PAssets
| PAssetTxPayment | PAccountManager | PTreasury | PEscrowTreasury | PFeeTreasury
| PParachainTreasury | PSlashTreasury | PClock | PXDNS | PAttesters | PRewards
| PContractsRegistry | PCircuit | PVacuum | PThreeVm | PContracts | PEvm | PAccountMapping
| PEthereum | PPortalPallet | PRococoBridge | PPolkadotBridge | PKusamaBridge | PEthereumBridge
| PSepoliaBridge | PCelestiaLightClient | PIdentity | PRandomnessCollectiveFlip
| PMaintenanceMode | PSudo.

#[export] Instance Pallet_eq_dec : EqDecision Pallet.
Proof. solve_decision. Defined.

Record RuntimeCall := mkRuntimeCall { call_pallet : Pallet; call_method : string }.

(** [matches!(method, ..)]. *)
Definition method_in (c : RuntimeCall) (l : list string) : bool :=
  bool_decide (call_method c ∈ l).

Definition base_call_filter (c : RuntimeCall) : bool :=
  match call_pallet c with
  | PSystem | PTimestamp | PUtility | PIdentity => true
  | PBalances | PAssets | PTreasury => true
  | PAccountManager => method_in c ["deposit"; "finalize"]
  | PXDNS => method_in c ["purge_gateway_record"]
  | PContractsRegistry => method_in c ["add_new_contract"; "purge"]
  | PCircuit =>
      method_in c ["on_local_trigger"; "on_xcm_trigger"; "on_remote_gateway_trigger";
                   "cancel_xtx"; "revert"; "on_extrinsic_trigger"; "bid_sfx";
                   "confirm_side_effect"]
  | PAttesters => true
  | PThreeVm => false
  | PContracts =>
      method_in c ["call"; "instantiate_with_code"; "instantiate"; "upload_code"; "remove_code"]
  | PEvm => method_in c ["withdraw"; "call"; "create"; "create2"]
  | PPortalPallet => method_in c ["register_gateway"]
  | _ => true
  end.

Definition maintenance_filter (c : RuntimeCall) : bool :=
  match call_pallet c with
  | PSystem => true
  | PUtility => true
  | PBalances | PAssets => true
  | PSudo => true
  | PTimestamp => true
  | PIdentity | PTreasury | PAccountManager | PXDNS | PContractsRegistry | PCircuit | PThreeVm
  | PContracts | PEvm | PPortalPallet | PRococoBridge | PPolkadotBridge | PKusamaBridge
  | PAttesters => false
  | _ => false
  end.

(** [EnsureRoot]. *)
#[export] Instance runtime_maintenance : MaintenanceConfig RuntimeCall := {|
  NormalCallFilter := base_call_filter;
  MaintenanceCallFilter := maintenance_filter;
  MaintenanceOrigin o := match o with Root => true | _ => false end;
|}.

(** The filter [frame_system] is configured with: [Everything]. *)
Definition system_base_call_filter (_c : RuntimeCall) (_s : Maintenance) : bool := true.

(** ** Properties *)

(** A call the maintenance filter lets through is let through in normal operation too, so
    that entering the mode only takes calls away. *)
Lemma maintenance_restricts (c : RuntimeCall) :
  maintenance_filter c = true → base_call_filter c = true.
Proof. destruct c as [p m]. by destruct p. Qed.

(** The mode is on exactly when the last event of the pallet says so, and the two calls
    alternate: entering is refused in the mode and leaving outside of it. *)
Definition mode_of_events (start : bool) (events : list MaintenanceEvent) : bool :=
  match events with
  | [] => start
  | EnteredMaintenanceMode :: _ => true
  | NormalOperationResumed :: _ => false
  end.

Inductive maintenance_step (s : Maintenance) : Maintenance → Prop :=
| step_enter origin s' :
    enter_maintenance_mode origin s = Ok tt s' → maintenance_step s s'
| step_resume origin s' :
    resume_normal_operation origin s = Ok tt s' → maintenance_step s s'.

Fixpoint alternating (last : MaintenanceEvent) (events : list MaintenanceEvent) : bool :=
  match events with
  | [] => true
  | e :: events => bool_decide (e ≠ last) && alternating e events
  end.

Lemma enter_cases origin s :
  enter_maintenance_mode origin s =
    match origin with
    | Root => if maintenance_mode s then Err (MaintenanceModuleError AlreadyInMaintenanceMode) s
              else Ok tt (set_mode true EnteredMaintenanceMode s)
    | _ => Err BadOrigin s
    end.
Proof. by destruct origin, s as [[] ev]. Qed.

Lemma resume_cases origin s :
  resume_normal_operation origin s =
    match origin with
    | Root => if maintenance_mode s then Ok tt (set_mode false NormalOperationResumed s)
              else Err (MaintenanceModuleError NotInMaintenanceMode) s
    | _ => Err BadOrigin s
    end.
Proof. by destruct origin, s as [[] ev]. Qed.

Definition maintenance_inv (start : bool) (s : Maintenance) : Prop :=
  maintenance_mode s = mode_of_events start (maintenance_events s) ∧
  match maintenance_events s with [] => True | e :: events => alternating e events = true end ∧
  (∀ e, last (maintenance_events s) = Some e →
     e = if start then NormalOperationResumed else EnteredMaintenanceMode).

Lemma maintenance_step_inv start s s' :
  maintenance_inv start s → maintenance_step s s' → maintenance_inv start s'.
Proof.
  intros (Hm & Ha & Hl) Hs. destruct s as [mode ev]. cbn in *.
  assert (∃ b e, s' = set_mode b e (mkMaintenance mode ev) ∧ mode = negb b ∧
    (b = true ∧ e = EnteredMaintenanceMode ∨ b = false ∧ e = NormalOperationResumed))
    as (b & e & -> & Hmb & He).
  { destruct Hs as [origin s' Hok|origin s' Hok].
    - rewrite enter_cases in Hok. destruct origin; try done. destruct mode; [done|].
      injection Hok as <-. eexists _, _. naive_solver.
    - rewrite resume_cases in Hok. destruct origin; try done. destruct mode; [|done].
      injection Hok as <-. eexists _, _. naive_solver. }
  split_and!; cbn.
  - by destruct He as [[-> ->]|[-> ->]].
  - destruct ev as [|e' ev]; [done|]. cbn in *. rewrite Ha, andb_true_r, bool_decide_true; [done|].
    destruct He as [[-> ->]|[-> ->]], e'; cbn in *; congruence.
  - intros e0 He0. destruct ev as [|e' ev]; [|by apply Hl]. cbn in *. injection He0 as <-.
    destruct start; cbn in *; subst mode; by destruct He as [[-> ->]|[-> ->]].
Qed.

(** In every history the mode is what the last event says, the two events alternate, and the
    filter refuses every call of the protocol's own pallets while the mode is on. *)
Theorem maintenance_histories start s :
  rtc maintenance_step (maintenance_genesis start) s →
  maintenance_inv start s ∧
  (maintenance_mode s = true → ∀ c,
     maintenance_contains c s = true →
     base_call_filter c = true ∧
     call_pallet c ∈ [PSystem; PUtility; PBalances; PAssets; PSudo; PTimestamp]).
Proof.
  intros Hr. split.
  - assert (maintenance_inv start (maintenance_genesis start)) as Hg by done.
    clear -Hr Hg. induction Hr as [|s1 s2 s3 Hstep _ IH]; [done|].
    by apply IH, (maintenance_step_inv start s1).
  - intros Hm c Hc. unfold maintenance_contains in Hc. rewrite Hm in Hc. cbn in Hc.
    split; [by apply maintenance_restricts|].
    destruct c as [p m]. cbn in *. destruct p; try done; set_solver.
Qed.

(** The runtime filters nothing: a call the mode should refuse is dispatched all the same. *)
Lemma maintenance_not_enforced (c : RuntimeCall) s :
  maintenance_mode s = true → maintenance_filter c = false →
  maintenance_contains c s = false ∧ system_base_call_filter c s = true.
Proof. intros Hm Hc. unfold maintenance_contains. rewrite Hm. cbn. by rewrite Hc. Qed.
