(* ===== verification/ThreeVmSamples.v ===== *)
(** * Runs of the 3VM, the contracts registry and the account mapping

    Concrete pallets behind the 3VM, a registry with two contracts, a claim of an EVM
    address, and the instances of the theorems on these states. *)

From S2P Require Import Prelude Types Status AccountManager Solvency World SquareUp Bids.
From S2P Require Import Validate Machine Circuit Orders Queues Calls StandardAbi Vacuum Samples.
From S2P Require Import AbiFill AbiRecode AbiSamples Xdns XdnsSamples Portal Volatile.
From S2P Require Import ContractsRegistry AccountMapping ThreeVm Precompile3Vm EvmPrecompiles.
From S2P Require Import ThreeVmSystem.
Import SimpleLedger ToyRlp.

#[local] Existing Instance toy_xdns.

(** ** The contracts registry *)

#[export] Instance toy_registry_hashing : RegistryHashing := {| registry_key_hash id := id mod 7 |}.

Definition paid_contract : RegistryContract :=
  mkContract [1; 2] [3; 4; 5] (mkAuthor bob (Some 30)) None [] None default_metadata.
Definition free_contract : RegistryContract :=
  mkContract [9] [9; 9] (mkAuthor alice None) None [] None system_contract.
(** The same code as [paid_contract], split elsewhere. *)
Definition shifted_contract : RegistryContract :=
  mkContract [1; 2; 3] [4; 5] (mkAuthor alice None) None [] None default_metadata.

Definition registry_or (m : M Registry DispatchError unit) (s : Registry) : Registry :=
  match m s with Ok _ s' => s' | _ => s end.

Definition reg1 : Registry := registry_or (add_new_contract Root bob paid_contract) registry_genesis.
Definition reg2 : Registry := registry_or (add_new_contract Root alice free_contract) reg1.

(** The word "author" occurs in the metadata of both contracts. *)
Definition word_author : list Z := bytes_of "author".

Example registry_run :
  fetch_contracts None (Some word_author) reg2 = Ok [paid_contract; free_contract] reg2 ∧
  fetch_contracts (Some bob) (Some word_author) reg2 = Ok [paid_contract] reg2 ∧
  fetch_contracts (Some treasury) None reg2 = Err UnknownContract reg2 ∧
  fetch_contracts None None reg2 = Err UnknownContract reg2 ∧
  fetch_contracts None (Some []) reg2 = Panic ∧
  add_new_contract Root alice paid_contract reg1 = Panic ∧
  add_new_contract Root alice shifted_contract reg1 =
    Err (ContractsRegistryModuleError ContractAlreadyExists) reg1.
Proof. vm_compute. repeat split. Qed.

Lemma fetch_contracts_spec_witness :
  paid_contract ∈ [paid_contract; free_contract] ∧
  occurs word_author (encode_metadata (contract_meta paid_contract)).
Proof.
  assert (Some word_author ≠ Some []) as Hm by (vm_compute; discriminate).
  pose proof (fetch_contracts_spec None (Some word_author) reg2 Hm) as Hf. unfold wp in Hf.
  rewrite (proj1 registry_run) in Hf. destruct Hf as (_ & _ & Hin).
  assert (paid_contract ∈ [paid_contract; free_contract]) as Hp by left.
  split; [exact Hp|]. apply Hin in Hp as (_ & _ & _ & Ho). apply Ho. reflexivity.
Defined.

Lemma registry_histories_witness :
  registry_generate_id paid_contract = registry_generate_id shifted_contract ∧
  ContractStored bob (registry_generate_id paid_contract) ∈ registry_events reg2.
Proof.
  split; [vm_compute; reflexivity|].
  assert (rtc registry_step registry_genesis reg2) as Hr; [|apply (registry_histories reg2 Hr
    (registry_generate_id paid_contract) paid_contract); vm_compute; reflexivity].
  eapply rtc_l; [apply (registry_step_ok _ Root (CAddContract bob paid_contract) reg1);
                 vm_compute; reflexivity|].
  eapply rtc_l; [apply (registry_step_ok _ Root (CAddContract alice free_contract) reg2);
                 vm_compute; reflexivity|]. apply rtc_refl.
Defined.

(** ** The account mapping *)

(** A signature is the key it recovers to. *)
#[export] Instance toy_mapping : MappingConfig ledger := {|
  NetworkTreasuryAccount := treasury;
  StorageDepositFee := 5;
  account_exists a b := bool_decide (is_Some (native b !! a));
  transfer_allow_death := sl_transfer;
  secp256k1_ecdsa_recover signature _ := Some signature;
|}.

Definition alice_key : list Z := [10; 20; 30].
Definition alice_evm : EvmAddress := from_be_bytes (drop 12 (be_bytes 32 (keccak256 alice_key))).

Definition mapping_or (m : M (Mapping ledger) DispatchError unit) (s : Mapping ledger)
    : Mapping ledger :=
  match m s with Ok _ s' => s' | _ => s end.

Definition mp0 : Mapping ledger := mapping_genesis (bank am0).
Definition mp1 : Mapping ledger := mapping_or (claim_eth_account (Signed alice) alice_evm alice_key) mp0.
Definition mp2 : Mapping ledger := mapping_or (claim_default_account (Signed bob)) mp1.
Definition mp3 : Mapping ledger := mapping_or (unclaim (Signed alice)) mp2.

Example mapping_run :
  claim_eth_account (Signed bob) alice_evm alice_key mp1 =
    Err (AccountMappingModuleError EthAddressHasMapped) mp1 ∧
  claim_eth_account (Signed bob) (alice_evm + 1) alice_key mp1 =
    Err (AccountMappingModuleError PreImageAddressNotMatchingRecovered) mp1 ∧
  unclaim (Signed treasury) mp1 = Err (AccountMappingModuleError EthAddressHasMapped) mp1 ∧
  evm_addresses mp2 !! bob = Some bob.
Proof. vm_compute. done. Qed.


(** After alice has removed her claim, bob claims her address with the signature she used. *)
Definition mp4 : Mapping ledger := mapping_or (unclaim (Signed bob)) mp3.
Definition mp5 : Mapping ledger :=
  match (merge_default_account alice_evm bob ;; pay_storage_deposit bob) mp4 with
  | Ok _ s => s
  | _ => mp4
  end.

Lemma claim_signature_replayable_witness :
  claim_eth_account (Signed bob) alice_evm alice_key mp4 =
    Ok tt (mp_deposit_event (ClaimAccount bob alice_evm) (link bob alice_evm mp5)).
Proof.
  assert (claim_eth_account (Signed alice) alice_evm alice_key mp0 = Ok tt mp1) as Hclaim
    by (vm_compute; reflexivity).
  assert (evm_addresses mp4 !! bob = None) as Hbob by (vm_compute; reflexivity).
  assert (mp_accounts mp4 !! alice_evm = None) as Hfree by (vm_compute; reflexivity).
  assert (merge_default_account alice_evm bob mp4 = Ok tt mp4) as Hmerge
    by (vm_compute; reflexivity).
  assert (pay_storage_deposit bob mp4 = Ok tt mp5) as Hpay by (vm_compute; reflexivity).
  exact (claim_signature_replayable alice alice_evm alice_key mp0 mp1 Hclaim bob mp4 mp4 mp5
           Hbob Hfree Hmerge Hpay).
Defined.

(** ** The 3VM *)

#[local] Instance toy_select : SelectLightClient toy_assets :=
  {| select_light_client _ := RErr LightClientNotFoundByVendor |}.

#[local] Instance toy_3vm_codec : ThreeVmCodec := {|
  encode_dispatch_error _ := [3];
  encode_view v := be_bytes 32 (view_xtx_id v);
  decode_submit _ := None;
  decode_evm_proof _ := None;
  decode_teleport_order _ := None;
|}.

Abbreviation P3 := (Pallets3Vm ledger bool toy_assets).

(** Alice holds some of the token 4. *)
Definition p0 : P3 :=
  mkPallets3Vm (mkVacuum (set_am (deposit_immediately alice 1000 (Some 4) am0) w0) []) reg2 (mkMapping tt (mp_accounts mp2) (evm_addresses mp2) []) (mkPortal x0 []).
Definition t0 : ThreeVm P3 := build_genesis [(77, GET_STATE)] (mkThreeVm ∅ ∅ ∅ [] p0).

Definition paid_module : ThreeVmInfo := mkThreeVmInfo (mkAuthor bob (Some 30)) VolatileWasm [3; 4; 5].

Definition rem_run : outcome (ThreeVm P3) DispatchError Remunerated := try_remunerate alice paid_module t0.
Definition rem_r : Remunerated :=
  match rem_run with Ok r _ => r | _ => remunerated_default end.
Definition t1 : ThreeVm P3 := match rem_run with Ok _ s => s | _ => t0 end.

Lemma remuneration_settled_witness :
  remuneration_id rem_r = Some 0 ∧
  ∃ t2, try_finalize 0 Commit t1 = Ok tt t2 ∧
    get_settlement 0 (am_of t2) =
      Some (mkSettlement alice bob 30 None Commit TrafficRewards ContractAuthor).
Proof.
  assert (remuneration_id rem_r = Some 0) as Hid by (vm_compute; reflexivity).
  split; [exact Hid|].
  assert (module_author paid_module = Some (mkAuthor bob (Some 30))) as Hauthor by reflexivity.
  assert (is_remote (order_origin_new alice) = false) as Hlocal by (vm_compute; reflexivity).
  assert (try_remunerate alice paid_module t0 = Ok rem_r t1) as Hrem by (vm_compute; reflexivity).
  destruct (remuneration_settled alice paid_module (mkAuthor bob (Some 30)) 30 t0 rem_r t1
              Hauthor eq_refl ltac:(lia) Hlocal Hrem)
    as (id & b & Hr & _ & _ & _ & _ & (t2 & Hf & _ & _ & Hs) & _).
  rewrite Hid in Hr. injection Hr as <-. exists t2. split; [exact Hf|exact Hs].
Defined.

Definition sample_signal (step id : Z) : ExecutionSignal := mkExecutionSignal step SignalComplete id.
Definition posted_signals : list ExecutionSignal :=
  [sample_signal 0 5; sample_signal 1 5; sample_signal 0 5; sample_signal 0 5; sample_signal 1 5].

Example signal_run :
  map snd (post_signals posted_signals t0).1 = [true; true; true; false; true].
Proof. vm_compute. reflexivity. Qed.

Lemma signals_accepted_witness : accepted (5, 0) (post_signals posted_signals t0).1 = 2.
Proof.
  pose proof (signals_accepted posted_signals t0 (5, 0) eq_refl) as Hs.
  rewrite (proj1 (Hs ltac:(cbn; unfold u32_max; lia))). vm_compute. reflexivity.
Defined.

Definition t_signalled : ThreeVm P3 :=
  match invoke (PSignal (Signed alice) (sample_signal 0 5)) t0 with Ok _ s => s | _ => t0 end.

Lemma signal_reaches_circuit_witness :
  signal_queue (p3_circuit (tv_ext t_signalled)) = [(alice, sample_signal 0 5)].
Proof.
  apply (signal_reaches_circuit alice (sample_signal 0 5) t0 ISignal t_signalled);
    [intros k n Hk; vm_compute in Hk; discriminate Hk|vm_compute; reflexivity].
Defined.

(** The vectors of the tests of the 3VM: an unknown pointer is taken for an order, whose
    arguments are then missing. *)
Example bad_pointer_is_an_order :
  invoke_raw 244 (0 :: be_bytes 32 alice) [] t0 = Ok [1; 9] t0 ∧
  invoke_raw 244 [0] [] t0 = Ok [1; 9] t0 ∧
  invoke_raw POST_SIGNAL (0 :: be_bytes 32 alice ++ [0; 0; 0; 0; 0] ++ be_bytes 32 5) [] t0 =
    Ok [1; 9] t0.
Proof. vm_compute. done. Qed.

Definition evm_call_order : VacuumEVMOrder := mkEVMOrder [2; 2; 2; 2] 0 5 9 100 10 bob.

Lemma raw_order_placed_witness :
  invoke_raw VACUUM_ORDER (0 :: be_bytes 32 alice ++ encode_evm_order evm_call_order) [] t0 =
    order_output [] (tv_evm_order (Signed alice) evm_call_order (tv_ext t0)) t0 ∧
  ∃ t, order_output [] (tv_evm_order (Signed alice) evm_call_order (tv_ext t0)) t0 = Ok [0; 0] t.
Proof.
  split.
  - rewrite <- (app_nil_r (encode_evm_order evm_call_order)).
    apply (raw_order_placed VACUUM_ORDER alice evm_call_order [] [] t0); try discriminate;
      unfold evm_order_ok, is_word; vm_compute; intuition discriminate.
  - eexists. vm_compute. reflexivity.
Defined.

Lemma evm_calls_place_orders_witness :
  portal_execute alice_evm [1; 2; 3] t0 = Panic ∧
  vacuum_execute alice_evm [1; 2; 3] t0 = Panic.
Proof.
  destruct (evm_calls_place_orders alice_evm [1; 2; 3] t0) as [Hv Hp];
    [unfold is_word; vm_compute; intuition discriminate|].
  rewrite Hv, Hp. split; reflexivity.
Defined.

Lemma raw_calls_post_no_signal_witness :
  tv_signals t0 = ∅ ∧
  ∃ t, invoke_raw POST_SIGNAL (0 :: be_bytes 32 alice ++ encode_evm_order evm_call_order) [] t0 =
         Ok [0; 0] t ∧ tv_signals t = tv_signals t0.
Proof.
  split; [reflexivity|].
  destruct (invoke_raw POST_SIGNAL (0 :: be_bytes 32 alice ++ encode_evm_order evm_call_order) [] t0)
    as [out t| |] eqn:Hr; [|vm_compute in Hr; discriminate Hr|vm_compute in Hr; discriminate Hr].
  exists t. split.
  - vm_compute in Hr. injection Hr as <- <-. reflexivity.
  - apply (raw_calls_post_no_signal POST_SIGNAL _ [] t0 out t Hr).
Defined.
