(* ===== verification/Gas.v ===== *)
(** * The gas meter of contracts

    [pallets/contracts/src/gas.rs]: a meter per call frame, from which host functions and
    the engine charge, and whose rest goes back to the meter of the caller.

    - [Weight]: the two components of a weight, integers of 64 bits
      ([sp_weights::Weight]).
    - [GasMeter]: the limit, the gas left, the lowest gas left seen, and the fuel the
      engine has reported.
    - [GasOp], [run_gas]: what a frame does to its meter, calls included, as a tree. *)

From S2P Require Import Prelude Types.

(** ** Weights *)

Record Weight := mkWeight { ref_time : Z; proof_size : Z }.

#[export] Instance Weight_eq_dec : EqDecision Weight.
Proof. solve_decision. Defined.

Definition weight_zero : Weight := mkWeight 0 0.

(** Both components, or [None] when one would be negative. *)
Definition weight_checked_sub (a b : Weight) : option Weight :=
  if (ref_time b <=? ref_time a) && (proof_size b <=? proof_size a)
  then Some (mkWeight (ref_time a - ref_time b) (proof_size a - proof_size b))
  else None.
Definition weight_saturating_sub (a b : Weight) : Weight :=
  mkWeight (saturating_sub (ref_time a) (ref_time b))
           (saturating_sub (proof_size a) (proof_size b)).
Definition weight_saturating_add (a b : Weight) : Weight :=
  mkWeight (saturating_add u64_max (ref_time a) (ref_time b))
           (saturating_add u64_max (proof_size a) (proof_size b)).
Definition weight_min (a b : Weight) : Weight :=
  mkWeight (Z.min (ref_time a) (ref_time b)) (Z.min (proof_size a) (proof_size b)).
(** [+=] of the source wraps. *)
Definition weight_add (a b : Weight) : Weight :=
  mkWeight (wrap64 (ref_time a + ref_time b)) (wrap64 (proof_size a + proof_size b)).
Definition weight_saturating_mul (a : Weight) (n : Z) : Weight :=
  mkWeight (Z.min u64_max (ref_time a * n)) (Z.min u64_max (proof_size a * n)).
(** The smaller of the quotients of the components, [None] when both divisors are 0. *)
Definition weight_checked_div (a b : Weight) : option Z :=
  match (ref_time b =? 0), (proof_size b =? 0) with
  | true, true => None
  | false, true => Some (ref_time a / ref_time b)
  | true, false => Some (proof_size a / proof_size b)
  | false, false => Some (Z.min (ref_time a / ref_time b) (proof_size a / proof_size b))
  end.

(** ** The meter *)

Record GasMeter := mkGasMeter {
  gas_limit : Weight;
  gas_left : Weight;
  gas_left_lowest_field : Weight;
  engine_consumed : Z;
}.

Definition gas_meter_new (limit : Weight) : GasMeter := mkGasMeter limit limit limit 0.

(** [GasMeter::default]. *)
Definition gas_meter_default : GasMeter := gas_meter_new weight_zero.

Definition set_gas_left (w : Weight) (m : GasMeter) : GasMeter :=
  mkGasMeter (gas_limit m) w (gas_left_lowest_field m) (engine_consumed m).

Definition gas_left_lowest (m : GasMeter) : Weight :=
  weight_min (gas_left_lowest_field m) (gas_left m).

Definition out_of_gas : DispatchError := ContractsModuleError OutOfGas.

Definition checked_left (m : GasMeter) (amount : Weight) : result DispatchError GasMeter :=
  match weight_checked_sub (gas_left m) amount with
  | Some w => ROk (set_gas_left w m)
  | None => RErr out_of_gas
  end.

(** The meter of the caller and the new one. *)
Definition gas_nested (amount : Weight) (m : GasMeter) : result DispatchError (GasMeter * GasMeter) :=
  let amount :=
    mkWeight (if ref_time amount =? 0 then ref_time (gas_left m) else ref_time amount)
             (if proof_size amount =? 0 then proof_size (gas_left m) else proof_size amount) in
  match checked_left m amount with
  | ROk m' => ROk (m', gas_meter_new amount)
  | RErr e => RErr e
  end.

Definition absorb_nested (nested m : GasMeter) : GasMeter :=
  let lowest :=
    mkWeight
      (if ref_time (gas_left m) =? 0
       then Z.min (ref_time (gas_left_lowest nested)) (ref_time (gas_left_lowest_field m))
       else ref_time (gas_left_lowest m))
      (if proof_size (gas_left m) =? 0
       then Z.min (proof_size (gas_left_lowest nested)) (proof_size (gas_left_lowest_field m))
       else proof_size (gas_left_lowest m)) in
  mkGasMeter (gas_limit m) (weight_add (gas_left m) (gas_left nested)) lowest
    (engine_consumed m).

(** A token is given by its weight; the charged amount is that weight. *)
Definition gas_charge (amount : Weight) (m : GasMeter) : result DispatchError GasMeter :=
  checked_left m amount.

Definition adjust_gas (charged actual : Weight) (m : GasMeter) : GasMeter :=
  let adjustment := weight_saturating_sub charged actual in
  mkGasMeter (gas_limit m)
    (weight_min (weight_saturating_add (gas_left m) adjustment) (gas_limit m))
    (gas_left_lowest m) (engine_consumed m).

(** [base] is the weight of a basic instruction of the schedule.  The fuel is recorded
    before the check that may fail. *)
Definition charge_fuel (base wasmi_fuel_total : Z) (m : GasMeter)
    : GasMeter * result DispatchError Weight :=
  let wasmi_fuel := saturating_sub wasmi_fuel_total (engine_consumed m) in
  if wasmi_fuel =? 0 then (m, ROk (gas_left m))
  else
    let m := mkGasMeter (gas_limit m) (gas_left m) (gas_left_lowest_field m) wasmi_fuel_total in
    let reftime_consumed := Z.min u64_max (wasmi_fuel * base) in
    if reftime_consumed <=? ref_time (gas_left m) then
      let left_ := mkWeight (ref_time (gas_left m) - reftime_consumed) (proof_size (gas_left m)) in
      (set_gas_left left_ m, ROk left_)
    else (m, RErr out_of_gas).

Definition gas_required (m : GasMeter) : Weight :=
  weight_saturating_sub (gas_limit m) (gas_left_lowest m).
Definition gas_consumed (m : GasMeter) : Weight :=
  weight_saturating_sub (gas_limit m) (gas_left m).

(** ** What a frame does to its meter *)

Inductive GasOp :=
| OpCharge (amount : Weight)
| OpAdjust (charged actual : Weight)
| OpFuel (wasmi_fuel_total : Z)
| OpNested (amount : Weight) (ops : list GasOp).

Section Run.
(** The weight of a basic instruction, and which nested meters are let through. *)
Context (base : Z) (admits : Weight → GasMeter → bool).

Fixpoint run_op (op : GasOp) (m : GasMeter) : option GasMeter :=
  match op with
  | OpCharge w => match gas_charge w m with ROk m' => Some m' | RErr _ => None end
  | OpAdjust c a => Some (adjust_gas c a m)
  | OpFuel n => match charge_fuel base n m with (m', ROk _) => Some m' | _ => None end
  | OpNested amount ops =>
      if admits amount m then
        match gas_nested amount m with
        | ROk (m', n) =>
            match
              (fix go (l : list GasOp) (n : GasMeter) : option GasMeter :=
                 match l with
                 | [] => Some n
                 | o :: l' => match run_op o n with Some n' => go l' n' | None => None end
                 end) ops n
            with
            | Some n' => Some (absorb_nested n' m')
            | None => None
            end
        | RErr _ => None
        end
      else None
  end.

Fixpoint run_gas (ops : list GasOp) (m : GasMeter) : option GasMeter :=
  match ops with
  | [] => Some m
  | o :: ops' => match run_op o m with Some m' => run_gas ops' m' | None => None end
  end.

Lemma run_nested amount ops m :
  run_op (OpNested amount ops) m =
    if admits amount m then
      match gas_nested amount m with
      | ROk (m', n) =>
          match run_gas ops n with Some n' => Some (absorb_nested n' m') | None => None end
      | RErr _ => None
      end
    else None.
Proof.
  cbn. destruct (admits amount m); [|done].
  destruct (gas_nested amount m) as [[m' n]|]; [|done].
  assert (∀ l n, (fix go (l : list GasOp) (n : GasMeter) : option GasMeter :=
                 match l with
                 | [] => Some n
                 | o :: l' => match run_op o n with Some n' => go l' n' | None => None end
                 end) l n = run_gas l n) as Hgo.
  { intros l. induction l as [|o l IH]; intros n0; [done|]. cbn. destruct (run_op o n0); auto. }
  by rewrite Hgo.
Qed.
End Run.

Definition any_amount (_ : Weight) (_ : GasMeter) : bool := true.

(** A fixed amount leaves something to the caller. *)
Definition leaves_rest (amount : Weight) (m : GasMeter) : bool :=
  (negb (ref_time amount =? ref_time (gas_left m)) || (ref_time amount =? 0)) &&
  (negb (proof_size amount =? proof_size (gas_left m)) || (proof_size amount =? 0)).

(** Induction over the operations, those of nested meters included. *)
Section GasOpInd.
Context (P : GasOp → Prop) (Q : list GasOp → Prop).
Hypothesis Hcharge : ∀ w, P (OpCharge w).
Hypothesis Hadjust : ∀ c a, P (OpAdjust c a).
Hypothesis Hfuel : ∀ n, P (OpFuel n).
Hypothesis Hnested : ∀ a ops, Q ops → P (OpNested a ops).
Hypothesis Hnil : Q [].
Hypothesis Hcons : ∀ o ops, P o → Q ops → Q (o :: ops).

Fixpoint gas_op_ind (o : GasOp) : P o :=
  match o with
  | OpCharge w => Hcharge w
  | OpAdjust c a => Hadjust c a
  | OpFuel n => Hfuel n
  | OpNested a ops =>
      Hnested a ops
        ((fix go (l : list GasOp) : Q l :=
            match l with
            | [] => Hnil
            | o :: l' => Hcons o l' (gas_op_ind o) (go l')
            end) ops)
  end.

Lemma gas_ops_ind ops : Q ops.
Proof. induction ops; auto using gas_op_ind. Qed.
End GasOpInd.

(** ** Invariant *)

Definition is_weight (w : Weight) : Prop :=
  0 ≤ ref_time w ≤ u64_max ∧ 0 ≤ proof_size w ≤ u64_max.

Definition weight_le (a b : Weight) : Prop :=
  ref_time a ≤ ref_time b ∧ proof_size a ≤ proof_size b.

Definition gas_inv (m : GasMeter) : Prop :=
  is_weight (gas_limit m) ∧
  weight_le weight_zero (gas_left m) ∧ weight_le (gas_left m) (gas_limit m) ∧
  weight_le weight_zero (gas_left_lowest_field m).

Fixpoint gas_op_ok (op : GasOp) : Prop :=
  match op with
  | OpCharge w => is_weight w
  | OpAdjust c a => is_weight c ∧ is_weight a
  | OpFuel n => True
  | OpNested a ops => is_weight a ∧ Forall id (map gas_op_ok ops)
  end.
Definition gas_ops_ok (ops : list GasOp) : Prop := Forall gas_op_ok ops.

Ltac gas_arith :=
  unfold gas_inv, is_weight, weight_le, gas_left_lowest, weight_min, weight_zero, weight_add,
    weight_saturating_add, weight_saturating_sub, saturating_add, saturating_sub, wrap64,
    u64_max in *;
  cbn [ref_time proof_size gas_limit gas_left gas_left_lowest_field engine_consumed] in *.

Lemma checked_left_Ok m w m' :
  checked_left m w = ROk m' →
  weight_le w (gas_left m) ∧
  m' = set_gas_left (mkWeight (ref_time (gas_left m) - ref_time w)
                       (proof_size (gas_left m) - proof_size w)) m.
Proof.
  unfold checked_left, weight_checked_sub, weight_le.
  destruct (ref_time w <=? _) eqn:H1, (proof_size w <=? _) eqn:H2; cbn; try done.
  intros [= <-]. split; [lia|done].
Qed.

Lemma checked_left_fits m w :
  weight_le w (gas_left m) →
  checked_left m w =
    ROk (set_gas_left (mkWeight (ref_time (gas_left m) - ref_time w)
                         (proof_size (gas_left m) - proof_size w)) m).
Proof.
  intros [H1 H2]. unfold checked_left, weight_checked_sub.
  by rewrite (proj2 (Z.leb_le _ _) H1), (proj2 (Z.leb_le _ _) H2).
Qed.

(** What an operation keeps: the limit, the invariant, and that the lowest rest sinks. *)
Definition gas_keeps (m m' : GasMeter) : Prop :=
  gas_inv m' ∧ gas_limit m' = gas_limit m ∧ weight_le (gas_left_lowest m') (gas_left_lowest m).

Lemma gas_keeps_refl m : gas_inv m → gas_keeps m m.
Proof. intros Hm. split; [done|split; [done|]]. unfold weight_le. lia. Qed.

Lemma gas_keeps_trans m1 m2 m3 : gas_keeps m1 m2 → gas_keeps m2 m3 → gas_keeps m1 m3.
Proof.
  intros (_ & H1 & Hl1) (H2 & H3 & Hl2). split; [done|split; [congruence|]].
  unfold weight_le in *. lia.
Qed.

Lemma charge_keeps w m m' :
  is_weight w → gas_inv m → gas_charge w m = ROk m' → gas_keeps m m'.
Proof.
  intros Hw Hm Hc. apply checked_left_Ok in Hc as [Hle ->]. destruct m as [lim left_ low ec].
  unfold gas_keeps, set_gas_left. gas_arith. repeat split; lia.
Qed.

Lemma adjust_keeps c a m : is_weight c → is_weight a → gas_inv m → gas_keeps m (adjust_gas c a m).
Proof.
  intros Hc Ha Hm. destruct m as [lim left_ low ec].
  unfold gas_keeps, adjust_gas. gas_arith. repeat split; lia.
Qed.

Lemma fuel_keeps base n m m' w :
  0 ≤ base → gas_inv m → charge_fuel base n m = (m', ROk w) → gas_keeps m m'.
Proof.
  intros Hb Hm. unfold charge_fuel. destruct (_ =? 0); [intros [= <- <-]; by apply gas_keeps_refl|].
  destruct (_ <=? _) eqn:Hle; [|done]. intros [= <- <-]. apply Z.leb_le in Hle.
  destruct m as [lim left_ low ec]. unfold gas_keeps, set_gas_left. gas_arith. repeat split; nia.
Qed.

(** The amount a nested meter gets. *)
Definition nested_amount (amount : Weight) (m : GasMeter) : Weight :=
  mkWeight (if ref_time amount =? 0 then ref_time (gas_left m) else ref_time amount)
           (if proof_size amount =? 0 then proof_size (gas_left m) else proof_size amount).

Lemma gas_nested_Ok amount m m1 n :
  gas_nested amount m = ROk (m1, n) →
  weight_le (nested_amount amount m) (gas_left m) ∧ n = gas_meter_new (nested_amount amount m) ∧
  m1 = set_gas_left
         (mkWeight (ref_time (gas_left m) - ref_time (nested_amount amount m))
                   (proof_size (gas_left m) - proof_size (nested_amount amount m))) m.
Proof.
  unfold gas_nested. fold (nested_amount amount m).
  destruct (checked_left m _) eqn:Hc; [|done]. intros [= <- <-].
  by apply checked_left_Ok in Hc as [Hle ->].
Qed.

Lemma gas_new_inv w : is_weight w → gas_inv (gas_meter_new w).
Proof. unfold gas_inv, is_weight, weight_le. cbn. lia. Qed.

Lemma nested_inv amount m :
  is_weight amount → gas_inv m → gas_inv (gas_meter_new (nested_amount amount m)).
Proof.
  intros Ha Hm. apply gas_new_inv. unfold nested_amount. gas_arith.
  destruct (_ =? 0), (_ =? 0); cbn; lia.
Qed.

Lemma nested_keeps amount m m1 n n' :
  is_weight amount → gas_inv m → gas_nested amount m = ROk (m1, n) → gas_keeps n n' →
  gas_keeps m (absorb_nested n' m1).
Proof.
  intros Ha Hm Hn (Hi & Hl & Hlow). apply gas_nested_Ok in Hn as (Hle & -> & ->).
  set (am := nested_amount amount m) in *. clearbody am. unfold gas_meter_new in *.
  destruct m as [lim left_ low ec], n' as [lim' left' low' ec'], am as [r p].
  unfold gas_keeps, absorb_nested, set_gas_left. gas_arith. subst lim'. cbn [ref_time proof_size] in *.
  rewrite !Z.mod_small by lia.
  destruct (ref_time left_ - r =? 0) eqn:H1, (proof_size left_ - p =? 0) eqn:H2;
    rewrite ?Z.eqb_eq, ?Z.eqb_neq in *; repeat split; lia.
Qed.

Lemma run_gas_keeps base admits ops :
  0 ≤ base → ∀ m m', gas_ops_ok ops → gas_inv m → run_gas base admits ops m = Some m' → gas_keeps m m'.
Proof.
  intros Hb. apply (gas_ops_ind
    (λ o, ∀ m m', gas_op_ok o → gas_inv m → run_op base admits o m = Some m' → gas_keeps m m')
    (λ ops, ∀ m m', gas_ops_ok ops → gas_inv m → run_gas base admits ops m = Some m' → gas_keeps m m')).
  - intros w m m' Hok Hm. cbn. destruct (gas_charge w m) eqn:Hc; [|done]. intros [= <-].
    by eapply charge_keeps.
  - intros c a m m' [Hc Ha] Hm [= <-]. by apply adjust_keeps.
  - intros n m m' _ Hm. cbn. destruct (charge_fuel base n m) as [m0 [w|]] eqn:Hf; [|done].
    intros [= <-]. by eapply fuel_keeps.
  - intros a l IH m m' [Ha Hl] Hm. rewrite run_nested. destruct (admits a m); [|done].
    destruct (gas_nested a m) as [[m1 n]|] eqn:Hn; [|done].
    destruct (run_gas base admits l n) as [n'|] eqn:Hr; [|done]. intros [= <-].
    eapply nested_keeps; [done..|]. apply (IH n n'); [|by apply gas_nested_Ok in Hn as (_ & -> & _); apply nested_inv|done].
    exact (proj1 (Forall_map gas_op_ok id l) Hl).
  - intros m m' _ Hm [= <-]. by apply gas_keeps_refl.
  - intros o l Ho IH m m' Hok Hm. cbn. apply Forall_cons in Hok as [Hoo Hl].
    destruct (run_op base admits o m) as [m1|] eqn:Hr; [|done]. intros Hg.
    pose proof (Ho m m1 Hoo Hm Hr) as Hk. eapply gas_keeps_trans; [done|]. apply IH; try done. apply Hk.
Qed.

(** ** Running with less gas *)

(** [m2] has [d] less gas than [m]; its lowest rest may be any. *)
Definition gas_shift (d : Weight) (m m2 : GasMeter) : Prop :=
  gas_limit m2 = mkWeight (ref_time (gas_limit m) - ref_time d) (proof_size (gas_limit m) - proof_size d) ∧
  gas_left m2 = mkWeight (ref_time (gas_left m) - ref_time d) (proof_size (gas_left m) - proof_size d) ∧
  engine_consumed m2 = engine_consumed m.

Lemma shift_charge d w m m2 m' :
  gas_charge w m = ROk m' → gas_shift d m m2 → weight_le d (gas_left_lowest m') →
  ∃ m2', gas_charge w m2 = ROk m2' ∧ gas_shift d m' m2'.
Proof.
  intros Hc (Hl & Hr & He) Hd. apply checked_left_Ok in Hc as [Hle ->]. unfold gas_charge.
  rewrite checked_left_fits; [|rewrite Hr; destruct m; unfold set_gas_left in *; gas_arith; lia].
  eexists. split; [done|]. unfold gas_shift, set_gas_left. cbn. rewrite Hr. cbn.
  split; [done|]. split; [f_equal; lia|done].
Qed.

Lemma shift_adjust d c a m m2 :
  is_weight c → is_weight a → gas_inv m → gas_shift d m m2 → weight_le weight_zero d →
  weight_le d (gas_left m) →
  gas_shift d (adjust_gas c a m) (adjust_gas c a m2).
Proof.
  intros Hc Ha Hm (Hl & Hr & He) Hd0 Hd. unfold gas_shift, adjust_gas. cbn. rewrite Hl, Hr.
  split; [done|split; [|done]]. destruct m as [lim left_ low ec]. gas_arith. f_equal; lia.
Qed.

Lemma shift_fuel d base n m m2 m' w :
  gas_inv m → weight_le weight_zero d → charge_fuel base n m = (m', ROk w) → gas_shift d m m2 →
  weight_le d (gas_left_lowest m') →
  ∃ m2' w2, charge_fuel base n m2 = (m2', ROk w2) ∧ gas_shift d m' m2'.
Proof.
  intros Hm Hd0 Hf (Hl & Hr & He) Hd. unfold charge_fuel in *. rewrite He.
  destruct (saturating_sub n (engine_consumed m) =? 0).
  { injection Hf as <- <-. by do 2 eexists. }
  cbn [gas_left gas_limit] in *.
  destruct (_ <=? ref_time (gas_left m)) eqn:Hle; [|done]. injection Hf as <- <-.
  apply Z.leb_le in Hle. cbn in Hd. rewrite Hr. cbn [ref_time proof_size].
  unfold gas_left_lowest, set_gas_left, weight_le in Hd. cbn in Hd.
  rewrite (proj2 (Z.leb_le _ _)) by lia. do 2 eexists. split; [done|].
  unfold gas_shift, set_gas_left. cbn. split; [done|]. split; [f_equal; lia|done].
Qed.

(** What a nested meter has less when its caller has [d] less: as much if it takes all
    there is, nothing if it gets a fixed amount. *)
Definition nested_shift (amount d : Weight) : Weight :=
  mkWeight (if ref_time amount =? 0 then ref_time d else 0)
           (if proof_size amount =? 0 then proof_size d else 0).

Lemma shift_nested d amount m m2 m1 n n' :
  is_weight amount → gas_inv m → gas_nested amount m = ROk (m1, n) → leaves_rest amount m = true →
  gas_shift d m m2 → weight_le weight_zero d → gas_keeps n n' →
  weight_le d (gas_left_lowest (absorb_nested n' m1)) →
  weight_le (nested_shift amount d) (gas_left_lowest n') ∧
  ∃ m3 n2, gas_nested amount m2 = ROk (m3, n2) ∧ gas_shift (nested_shift amount d) n n2 ∧
    ∀ n3, gas_shift (nested_shift amount d) n' n3 →
      gas_shift d (absorb_nested n' m1) (absorb_nested n3 m3).
Proof.
  intros Ha Hm Hn Hrest (Hl & Hr & He) Hd0 (Hi & Hln & Hlow) Hd.
  apply gas_nested_Ok in Hn as (Hle & -> & ->).
  destruct m as [[lr lp] [r p] [fr fp] ec], m2 as [lim2 left2 low2 ec2], d as [dr dp],
    amount as [ar ap], n' as [[nlr nlp] [nr np] [nfr nfp] nec].
  unfold gas_meter_new, nested_amount, leaves_rest, nested_shift, absorb_nested, set_gas_left,
    gas_shift, gas_nested in *.
  gas_arith. cbn [gas_limit gas_left] in Hl, Hr. subst lim2 left2 ec2. injection Hln as -> ->.
  destruct (ar =? 0) eqn:Ear, (ap =? 0) eqn:Eap; cbn [ref_time proof_size] in *;
    rewrite ?Z.sub_diag, ?Z.eqb_refl in *; rewrite ?orb_true_r, ?orb_false_r, ?andb_true_r, ?andb_true_l in Hrest;
    rewrite ?Z.eqb_eq, ?Z.eqb_neq, ?andb_true_iff, ?negb_true_iff in *.
  all: repeat match type of Hd with context [if ?x =? 0 then _ else _] =>
         let E0 := fresh in destruct (x =? 0) eqn:E0; rewrite ?Z.eqb_eq, ?Z.eqb_neq in E0;
         try lia end.
  all: rewrite !Z.mod_small in Hd by lia.
  all: (split; [lia|]).
  all: rewrite checked_left_fits by (unfold weight_le; cbn; lia).
  all: do 2 eexists; (split; [reflexivity|]); (split; [cbn; repeat split; f_equal; lia|]).
  all: intros [lim3 left3 low3 ec3]; cbn; intros (-> & -> & ->); cbn; repeat split; f_equal;
    rewrite !Z.mod_small by lia; lia.
Qed.

Lemma weight_le_trans a b c : weight_le a b → weight_le b c → weight_le a c.
Proof. unfold weight_le. lia. Qed.

Lemma lowest_le_left m : weight_le (gas_left_lowest m) (gas_left m).
Proof. unfold weight_le, gas_left_lowest, weight_min. cbn. lia. Qed.

Lemma nested_shift_nonneg amount d : weight_le weight_zero d → weight_le weight_zero (nested_shift amount d).
Proof. unfold weight_le, nested_shift. cbn. destruct (_ =? 0), (_ =? 0); lia. Qed.

(** A run whose lowest rest is at least [d] does the same with [d] less gas. *)
Lemma run_gas_shift base ops :
  0 ≤ base → ∀ d m m2 m', gas_ops_ok ops → gas_inv m → weight_le weight_zero d →
  run_gas base leaves_rest ops m = Some m' → gas_shift d m m2 → weight_le d (gas_left_lowest m') →
  ∃ m2', run_gas base any_amount ops m2 = Some m2' ∧ gas_shift d m' m2'.
Proof.
  intros Hb. apply (gas_ops_ind
    (λ o, ∀ d m m2 m', gas_op_ok o → gas_inv m → weight_le weight_zero d →
       run_op base leaves_rest o m = Some m' → gas_shift d m m2 → weight_le d (gas_left_lowest m') →
       ∃ m2', run_op base any_amount o m2 = Some m2' ∧ gas_shift d m' m2')
    (λ ops, ∀ d m m2 m', gas_ops_ok ops → gas_inv m → weight_le weight_zero d →
       run_gas base leaves_rest ops m = Some m' → gas_shift d m m2 →
       weight_le d (gas_left_lowest m') →
       ∃ m2', run_gas base any_amount ops m2 = Some m2' ∧ gas_shift d m' m2')).
  - intros w d m m2 m' Hok Hm Hd0. cbn. destruct (gas_charge w m) eqn:Hc; [|done]. intros [= <-] Hs Hd.
    destruct (shift_charge d w m m2 _ Hc Hs Hd) as (m2' & -> & Hs'). eauto.
  - intros c a d m m2 m' [Hc Ha] Hm Hd0 [= <-] Hs Hd. cbn. eexists. split; [done|].
    apply shift_adjust; try done. eapply weight_le_trans; [exact Hd|].
    eapply weight_le_trans; [apply (adjust_keeps c a m Hc Ha Hm)|apply lowest_le_left].
  - intros n d m m2 m' _ Hm Hd0. cbn. destruct (charge_fuel base n m) as [m0 [w|]] eqn:Hf; [|done].
    intros [= <-] Hs Hd. destruct (shift_fuel d base n m m2 _ _ Hm Hd0 Hf Hs Hd) as (m2' & w2 & -> & Hs').
    eauto.
  - intros a l IH d m m2 m' [Ha Hl] Hm Hd0. rewrite !run_nested.
    destruct (leaves_rest a m) eqn:Hrest; [|done].
    destruct (gas_nested a m) as [[m1 n]|] eqn:Hn; [|done].
    destruct (run_gas base leaves_rest l n) as [n'|] eqn:Hr; [|done]. intros [= <-] Hs Hd.
    assert (gas_inv n) as Hni by (apply gas_nested_Ok in Hn as (_ & -> & _); by apply nested_inv).
    pose proof (proj1 (Forall_map gas_op_ok id l) Hl : gas_ops_ok l) as Hlok.
    assert (gas_keeps n n') as Hk by (by eapply run_gas_keeps).
    destruct (shift_nested d a m m2 m1 n n' Ha Hm Hn Hrest Hs Hd0 Hk Hd)
      as (Hdn & m3 & n2 & Hn2 & Hs2 & Habs).
    destruct (IH (nested_shift a d) n n2 n' Hlok Hni) as (n3 & Hr3 & Hs3); try done;
      [by apply nested_shift_nonneg|].
    cbn [any_amount]. rewrite Hn2, Hr3. eauto.
  - intros d m m2 m' _ _ _ [= <-] Hs _. by exists m2.
  - intros o l Ho IH d m m2 m' Hok Hm Hd0. cbn. apply Forall_cons in Hok as [Hoo Hl].
    destruct (run_op base leaves_rest o m) as [m1|] eqn:Hr; [|done]. intros Hg Hs Hd.
    assert (gas_keeps m m1) as Hk.
    { apply (run_gas_keeps base leaves_rest [o] Hb); [by constructor|done|]. cbn. by rewrite Hr. }
    assert (gas_keeps m1 m') as Hk' by (apply (run_gas_keeps base leaves_rest l Hb); [done|apply Hk|done]).
    destruct (Ho d m m2 m1 Hoo Hm Hd0 Hr Hs) as (m3 & -> & Hs3);
      [eapply weight_le_trans; [exact Hd|apply Hk']|].
    apply (IH d m1 m3 m'); try done. apply Hk.
Qed.

(** ** Properties *)

(** C19: The gas a call is reported to require lies between what it consumed and its limit, and
    is enough to run it again: with that limit, every charge, refund and nested meter of
    the call succeeds, and the same gas is consumed.  Nested meters either take all there is or leave
    something to their caller. *)
Theorem gas_required_suffices base limit ops m :
  0 ≤ base → is_weight limit → gas_ops_ok ops →
  run_gas base leaves_rest ops (gas_meter_new limit) = Some m →
  weight_le (gas_consumed m) (gas_required m) ∧ weight_le (gas_required m) limit ∧
  ∃ m', run_gas base any_amount ops (gas_meter_new (gas_required m)) = Some m' ∧
    gas_consumed m' = gas_consumed m.
Proof.
  intros Hb Hl Hok Hr. pose proof (gas_new_inv limit Hl) as Hi.
  destruct (run_gas_keeps base _ ops Hb _ _ Hok Hi Hr) as (Hi' & Hlim & Hlow).
  assert (weight_le weight_zero (gas_left_lowest m)) as Hd0 by (destruct m; gas_arith; lia).
  split; [|split].
  - destruct m. unfold gas_consumed, gas_required. gas_arith. subst. cbn in *. lia.
  - destruct m. unfold gas_required. gas_arith. subst. cbn in *. lia.
  - destruct (run_gas_shift base ops Hb (gas_left_lowest m) (gas_meter_new limit)
      (gas_meter_new (gas_required m)) m Hok Hi Hd0 Hr) as (m' & Hr' & Hl' & Hleft & _).
    + unfold gas_shift, gas_meter_new, gas_required. cbn. rewrite Hlim. cbn.
      destruct m. gas_arith. subst. cbn in *. repeat split; f_equal; lia.
    + unfold weight_le. lia.
    + exists m'. split; [done|]. unfold gas_consumed, weight_saturating_sub. rewrite Hl', Hleft. cbn.
      unfold saturating_sub. f_equal; lia.
Qed.

(** The required gas is not enough when a nested meter gets a fixed amount that happens to
    be all there is: the caller then takes the lowest rest of the nested meter for its own,
    and the amount no longer fits. *)
Theorem gas_required_short base limit cost :
  is_weight limit → is_weight cost → weight_le cost limit →
  0 < ref_time cost < ref_time limit → 0 < proof_size cost < proof_size limit →
  ∃ m, run_gas base any_amount [OpNested limit [OpCharge cost]] (gas_meter_new limit) = Some m ∧
    gas_required m = cost ∧
    run_gas base any_amount [OpNested limit [OpCharge cost]] (gas_meter_new (gas_required m)) = None.
Proof.
  intros Hl Hc Hle Hr Hp. destruct limit as [lr lp], cost as [r p]. unfold weight_le in Hle. cbn in *.
  unfold gas_nested. cbn. rewrite (proj2 (Z.eqb_neq lr 0)), (proj2 (Z.eqb_neq lp 0)) by lia.
  rewrite checked_left_fits by (unfold weight_le; cbn; lia). cbn.
  unfold gas_charge. rewrite checked_left_fits by (unfold weight_le; cbn; lia). cbn.
  assert (∀ m, gas_required m = mkWeight r p →
    checked_left (gas_meter_new (gas_required m)) (mkWeight lr lp) = RErr out_of_gas) as Hno.
  { intros m ->. unfold checked_left, weight_checked_sub. cbn. by rewrite (proj2 (Z.leb_gt _ _)) by lia. }
  eexists. split; [reflexivity|].
  match goal with |- gas_required ?m = _ ∧ _ => assert (gas_required m = mkWeight r p) as Hreq end.
  { unfold gas_required, absorb_nested, set_gas_left, gas_meter_new. cbn. rewrite !Z.sub_diag. cbn.
    gas_arith. f_equal; rewrite Z.mod_small by lia; lia. }
  split; [exact Hreq|]. by rewrite (Hno _ Hreq).
Qed.
