(* ===== verification/Deposits.v ===== *)
(** * Storage deposits of contracts

    [pallets/contracts/src/storage/meter.rs], with [StorageDeposit] of
    [pallets/contracts/primitives/src/lib.rs] and [ContractInfo] of
    [pallets/contracts/src/storage.rs].

    Who makes a contract store more pays a deposit into an account of the contract, who
    makes it store less gets a share of it back.  A meter per frame records what its
    contract stored and removed; the charges are collected when the whole stack is done.

    - [StorageDeposit]: a charge or a refund, with saturating signed arithmetic.
    - [Diff], [update_contract]: what a change of the storage costs, and how it is written
      into the information on the contract.
    - [RawMeter S]: the meter, with the state [unit] for the root and [Nested] for frames.
    - [ContractsCurrency B]: the balances and the account references of the system. *)

From S2P Require Import Prelude Types AccountManager.

(** ** Deposits *)

Inductive StorageDeposit := Refund (amount : Balance) | Charge (amount : Balance).

#[export] Instance StorageDeposit_eq_dec : EqDecision StorageDeposit.
Proof. solve_decision. Defined.

Definition deposit_default : StorageDeposit := Charge 0.

Definition charge_or_zero (d : StorageDeposit) : Balance :=
  match d with Charge a => a | Refund _ => 0 end.
Definition deposit_is_zero (d : StorageDeposit) : bool :=
  match d with Charge a | Refund a => a =? 0 end.

Definition deposit_add (l r : StorageDeposit) : StorageDeposit :=
  match l, r with
  | Charge l, Charge r => Charge (saturating_add u128_max l r)
  | Refund l, Refund r => Refund (saturating_add u128_max l r)
  | Charge l, Refund r =>
      if r <=? l then Charge (saturating_sub l r) else Refund (saturating_sub r l)
  | Refund l, Charge r =>
      if r <? l then Refund (saturating_sub l r) else Charge (saturating_sub r l)
  end.

Definition deposit_sub (l r : StorageDeposit) : StorageDeposit :=
  match l, r with
  | Charge l, Refund r => Charge (saturating_add u128_max l r)
  | Refund l, Charge r => Refund (saturating_add u128_max l r)
  | Charge l, Charge r =>
      if r <=? l then Charge (saturating_sub l r) else Refund (saturating_sub r l)
  | Refund l, Refund r =>
      if r <? l then Refund (saturating_sub l r) else Charge (saturating_sub r l)
  end.

(** The derived order: every refund is below every charge. *)
Definition deposit_max (l r : StorageDeposit) : StorageDeposit :=
  match l, r with
  | Charge a, Charge b => Charge (Z.max a b)
  | Refund a, Refund b => Refund (Z.max a b)
  | Charge _, Refund _ => l
  | Refund _, Charge _ => r
  end.

Definition available_of (d : StorageDeposit) (limit : Balance) : Balance :=
  match d with
  | Charge a => saturating_sub limit a
  | Refund a => saturating_add u128_max limit a
  end.

(** ** Contracts *)

Record ContractInfo := mkContractInfo {
  trie_id : Hash;
  deposit_account : AccountId;
  code_hash : Hash;
  storage_bytes : Z;
  storage_items : Z;
  storage_byte_deposit : Balance;
  storage_item_deposit : Balance;
  storage_base_deposit : Balance;
}.

#[export] Instance ContractInfo_eq_dec : EqDecision ContractInfo.
Proof. solve_decision. Defined.

Definition set_code_hash_of (h : Hash) (i : ContractInfo) : ContractInfo :=
  mkContractInfo (trie_id i) (deposit_account i) h (storage_bytes i) (storage_items i)
    (storage_byte_deposit i) (storage_item_deposit i) (storage_base_deposit i).
Definition set_base_deposit (d : Balance) (i : ContractInfo) : ContractInfo :=
  mkContractInfo (trie_id i) (deposit_account i) (code_hash i) (storage_bytes i) (storage_items i)
    (storage_byte_deposit i) (storage_item_deposit i) d.

Definition extra_deposit (i : ContractInfo) : Balance :=
  saturating_add u128_max (storage_byte_deposit i) (storage_item_deposit i).

(** [ContractInfo::encoded_size]: the identifier with its length, two accounts' worth of
    bytes, two counters and three balances. *)
Definition contract_info_size : Z := 33 + 32 + 32 + 4 + 4 + 3 * 16.

(** ** Balances *)

Class ContractsCurrency (B : Type) := {
  DepositPerByte : Balance;
  DepositPerItem : Balance;
  DefaultDepositLimit : Balance;
  minimum_balance : Balance;
  (** The flag is [ExistenceRequirement::KeepAlive]. *)
  cc_transfer : AccountId → AccountId → Balance → bool → B → result DispatchError B;
  (** The balance that can be spent, with [Protect] or [Expendable]. *)
  reducible_protect : B → AccountId → Balance;
  reducible_expendable : B → AccountId → Balance;
  can_withdraw_success : B → AccountId → Balance → bool;
  cc_free_balance : B → AccountId → Balance;
  inc_consumers : AccountId → B → result DispatchError B;
  dec_consumers : AccountId → B → B;
  cc_reserve : AccountId → Balance → B → result DispatchError B;
  cc_unreserve : AccountId → Balance → B → B;
}.

Definition total_deposit_of `{ContractsCurrency B} (i : ContractInfo) : Balance :=
  saturating_sub (saturating_add u128_max (extra_deposit i) (storage_base_deposit i))
    minimum_balance.

(** ** Changes of the storage of a contract *)

Record Diff := mkDiff {
  bytes_added : Z;
  bytes_removed : Z;
  items_added : Z;
  items_removed : Z;
}.

Definition diff_default : Diff := mkDiff 0 0 0 0.

Definition diff_add (a b : Diff) : Diff :=
  mkDiff (saturating_add u32_max (bytes_added a) (bytes_added b))
         (saturating_add u32_max (bytes_removed a) (bytes_removed b))
         (saturating_add u32_max (items_added a) (items_added b))
         (saturating_add u32_max (items_removed a) (items_removed b)).

(** [FixedU128]: fractions of 10^18, rounded down; [None] for a division by zero. *)
Definition FIXED_DIV : Z := 10 ^ 18.
Definition checked_from_rational (n d : Z) : option Z :=
  if d =? 0 then None else Some (n * FIXED_DIV / d).
Definition saturating_mul_int (ratio n : Z) : Z := Z.min u128_max (ratio * n / FIXED_DIV).

(** The share of a deposit that belongs to [removed] of [stored]. *)
Definition refund_share (removed stored deposit : Z) : Z :=
  saturating_mul_int (Z.min (default 0 (checked_from_rational removed stored)) FIXED_DIV) deposit.

Definition apply_deposit (d : StorageDeposit) (held : Balance) : Balance :=
  match d with
  | Charge a => saturating_add u128_max held a
  | Refund a => saturating_sub held a
  end.

Section Meter.
Context {B : Type} `{!ContractsCurrency B}.

Definition cost_of (price count : Z) : StorageDeposit := Charge (Z.min u128_max (price * count)).

(** Without information on the contract only additions are counted. *)
Definition update_contract (d : Diff) (info : option ContractInfo)
    : StorageDeposit * option ContractInfo :=
  let bytes_added_ := saturating_sub (bytes_added d) (bytes_removed d) in
  let items_added_ := saturating_sub (items_added d) (items_removed d) in
  let bytes_deposit := cost_of DepositPerByte bytes_added_ in
  let items_deposit := cost_of DepositPerItem items_added_ in
  match info with
  | None => (deposit_add bytes_deposit items_deposit, None)
  | Some info =>
      let bytes_removed_ := saturating_sub (bytes_removed d) (bytes_added d) in
      let items_removed_ := saturating_sub (items_removed d) (items_added d) in
      let bytes_deposit :=
        deposit_add bytes_deposit
          (Refund (refund_share bytes_removed_ (storage_bytes info) (storage_byte_deposit info))) in
      let items_deposit :=
        deposit_add items_deposit
          (Refund (refund_share items_removed_ (storage_items info) (storage_item_deposit info))) in
      (deposit_add bytes_deposit items_deposit,
       Some (mkContractInfo (trie_id info) (deposit_account info) (code_hash info)
               (saturating_sub (saturating_add u32_max (storage_bytes info) bytes_added_) bytes_removed_)
               (saturating_sub (saturating_add u32_max (storage_items info) items_added_) items_removed_)
               (apply_deposit bytes_deposit (storage_byte_deposit info))
               (apply_deposit items_deposit (storage_item_deposit info))
               (storage_base_deposit info)))
  end.

(** ** The meter *)

Record PendingCharge := mkCharge {
  charge_account : AccountId;
  charge_amount : StorageDeposit;
  charge_terminated : bool;
}.

Inductive Contribution :=
| Alive (d : Diff)
| Checked (d : StorageDeposit)
| Terminated (d : StorageDeposit).

Definition contribution_update (c : Contribution) (info : option ContractInfo)
    : StorageDeposit * option ContractInfo :=
  match c with
  | Alive d => update_contract d info
  | Checked d | Terminated d => (d, info)
  end.

Inductive Nested := DerivedLimit | OwnLimit.

Record RawMeter (S : Type) := mkMeter {
  meter_limit : Balance;
  total_deposit : StorageDeposit;
  own_contribution : Contribution;
  charges : list PendingCharge;
  meter_nested : S;
}.
Arguments mkMeter {S}.
Arguments meter_limit {S}.
Arguments total_deposit {S}.
Arguments own_contribution {S}.
Arguments charges {S}.
Arguments meter_nested {S}.

Definition Meter := RawMeter unit.
Definition NestedMeter := RawMeter Nested.

Definition meter_fresh {S} (limit : Balance) (state : S) : RawMeter S :=
  mkMeter limit deposit_default (Alive diff_default) [] state.

(** [NestedMeter::default]. *)
Definition nested_default : NestedMeter := meter_fresh 0 DerivedLimit.

Definition set_contribution {S} (c : Contribution) (m : RawMeter S) : RawMeter S :=
  mkMeter (meter_limit m) (total_deposit m) c (charges m) (meter_nested m).
Definition set_total {S} (d : StorageDeposit) (m : RawMeter S) : RawMeter S :=
  mkMeter (meter_limit m) d (own_contribution m) (charges m) (meter_nested m).

Definition available {S} (m : RawMeter S) : Balance := available_of (total_deposit m) (meter_limit m).
Definition is_alive {S} (m : RawMeter S) : bool :=
  match own_contribution m with Alive _ => true | _ => false end.
Definition is_terminated {S} (m : RawMeter S) : bool :=
  match own_contribution m with Terminated _ => true | _ => false end.

Definition meter_nest {S} (limit : Balance) (m : RawMeter S) : NestedMeter :=
  let limit := Z.min (available m) limit in
  if limit =? 0 then meter_fresh (available m) DerivedLimit else meter_fresh limit OwnLimit.

(** The meter that absorbs, and the information on the contract of the absorbed one. *)
Definition absorb {S} (absorbed : NestedMeter) (account : AccountId) (info : option ContractInfo)
    (m : RawMeter S) : RawMeter S * option ContractInfo :=
  let (own_deposit, info') := contribution_update (own_contribution absorbed) info in
  (mkMeter (meter_limit m)
     (deposit_add (deposit_add (total_deposit m) (total_deposit absorbed)) own_deposit)
     (own_contribution m)
     (charges m ++ charges absorbed ++
      (if deposit_is_zero own_deposit then []
       else [mkCharge account own_deposit (is_terminated absorbed)]))
     (meter_nested m),
   info').

(** [charge] panics when the contract is no longer alive. *)
Definition meter_charge (d : Diff) (m : NestedMeter) : option NestedMeter :=
  match own_contribution m with
  | Alive own => Some (set_contribution (Alive (diff_add own d)) m)
  | _ => None
  end.

Definition meter_terminate (info : ContractInfo) (m : NestedMeter) : NestedMeter :=
  set_contribution (Terminated (Refund (total_deposit_of info))) m.

Definition limit_exhausted : DispatchError := ContractsModuleError StorageDepositLimitExhausted.

(** The meter and the information on the contract are updated before the check. *)
Definition enforce_limit (info : option ContractInfo) (m : NestedMeter)
    : (NestedMeter * option ContractInfo) * bool :=
  let (deposit, info') := contribution_update (own_contribution m) info in
  let total := deposit_add (total_deposit m) deposit in
  ((if is_alive m then set_contribution (Checked deposit) m else m, info'),
   match total with Charge amount => negb (meter_limit m <? amount) | Refund _ => true end).

Definition enforce_subcall_limit (info : option ContractInfo) (m : NestedMeter)
    : (NestedMeter * option ContractInfo) * bool :=
  match meter_nested m with
  | OwnLimit => enforce_limit info m
  | DerivedLimit => ((m, info), true)
  end.

(** ** Collecting *)

Abbreviation MB := (M B DispatchError).

(** [ReservingExt::check_limit]. *)
Definition check_limit (origin : AccountId) (limit : option Balance) (min_leftover : Balance)
    : MB Balance :=
  spendable ← gets (λ b, reducible_protect b origin);
  let max := saturating_sub (saturating_sub spendable min_leftover) minimum_balance in
  let limit := default (Z.min max DefaultDepositLimit) limit in
  ok ← gets (λ b, can_withdraw_success b origin limit);
  ensure ((limit <=? max) && ok) (ContractsModuleError StorageDepositNotEnoughFunds) ;;
  mret limit.

Definition lift_bank (f : B → result DispatchError B) : MB unit := λ b,
  match f b with ROk b' => Ok tt b' | RErr e => Err e b end.

(** [ReservingExt::charge]. *)
Definition ext_charge (origin deposit_account_ : AccountId) (amount : StorageDeposit)
    (terminated : bool) : MB unit :=
  match amount with
  | Charge a => lift_bank (cc_transfer origin deposit_account_ a true)
  | Refund a =>
      (if terminated then modify (dec_consumers deposit_account_) else mret tt) ;;
      lift_bank (cc_transfer deposit_account_ origin a false)
  end.

Inductive Origin := OriginRoot | OriginSigned (who : AccountId).

#[export] Instance Origin_eq_dec : EqDecision Origin.
Proof. solve_decision. Defined.

Definition origin_account_id (o : Origin) : result DispatchError AccountId :=
  match o with OriginSigned a => ROk a | OriginRoot => RErr RootNotAllowed end.

Definition meter_new (origin : Origin) (limit : option Balance) (min_leftover : Balance)
    : MB Meter :=
  match origin with
  | OriginRoot => mret (meter_fresh (default DefaultDepositLimit limit) tt)
  | OriginSigned o =>
      limit ← check_limit o limit min_leftover;
      mret (meter_fresh limit tt)
  end.

Definition is_refund (d : StorageDeposit) : bool := match d with Refund _ => true | _ => false end.

Definition collect (origin : AccountId) (c : PendingCharge) : MB unit :=
  ext_charge origin (charge_account c) (charge_amount c) (charge_terminated c).

Definition try_into_deposit (origin : Origin) (m : Meter) : MB StorageDeposit :=
  match origin with
  | OriginRoot => mret (Charge 0)
  | OriginSigned o =>
      for_each (List.filter (λ c, is_refund (charge_amount c)) (charges m)) (collect o) ;;
      for_each (List.filter (λ c, negb (is_refund (charge_amount c))) (charges m)) (collect o) ;;
      mret (total_deposit m)
  end.

(** The deposit of a new contract: the price of its information, at least the minimum
    balance, and once more the minimum balance for its own account. *)
Definition instantiate_deposit : StorageDeposit :=
  deposit_add
    (deposit_max (update_contract (mkDiff contract_info_size 0 1 0) None).1 (Charge minimum_balance))
    (Charge minimum_balance).

(** The meter and the information are updated before the balances are moved. *)
Definition charge_instantiate (origin contract : AccountId) (info : ContractInfo) (m : NestedMeter)
    : MB (NestedMeter * ContractInfo) :=
  let deposit := instantiate_deposit in
  ensure (negb (meter_limit m <? charge_or_zero deposit)) limit_exhausted ;;
  let m := set_total deposit m in
  let info := set_base_deposit (charge_or_zero deposit) info in
  ext_charge origin (deposit_account info) (deposit_sub deposit (Charge minimum_balance)) false ;;
  lift_bank (inc_consumers (deposit_account info)) ;;
  lift_bank (cc_transfer origin contract minimum_balance true) ;;
  lift_bank (inc_consumers contract) ;;
  mret (m, info).
End Meter.

Arguments mkMeter {S}.
Arguments meter_limit {S}.
Arguments total_deposit {S}.
Arguments own_contribution {S}.
Arguments charges {S}.
Arguments meter_nested {S}.

(** ** Facts on storage deposits

    Deposits as signed numbers; what a change of the storage does to the deposit of a
    contract; the meters of a call stack against the deposits the contracts hold; the
    limit; and the collection of the charges. *)

(** ** Deposits as signed numbers *)

Definition signed_of (d : StorageDeposit) : Z :=
  match d with Charge a => a | Refund a => - a end.

Definition deposit_ok (d : StorageDeposit) : Prop :=
  match d with Charge a | Refund a => 0 ≤ a ≤ u128_max end.

Lemma deposit_add_spec l r :
  deposit_ok l → deposit_ok r → - u128_max ≤ signed_of l + signed_of r ≤ u128_max →
  signed_of (deposit_add l r) = signed_of l + signed_of r ∧ deposit_ok (deposit_add l r).
Proof.
  unfold deposit_add, deposit_ok, saturating_add, saturating_sub.
  destruct l as [a|a], r as [b|b]; cbn; try lia.
  - destruct (b <? a) eqn:H; cbn; rewrite ?Z.ltb_lt, ?Z.ltb_ge in H; lia.
  - destruct (b <=? a) eqn:H; cbn; rewrite ?Z.leb_le, ?Z.leb_gt in H; lia.
Qed.

(** Sums saturate instead of wrapping. *)
Lemma deposit_add_ok l r : deposit_ok l → deposit_ok r → deposit_ok (deposit_add l r).
Proof.
  unfold deposit_add, deposit_ok, saturating_add, saturating_sub.
  destruct l as [a|a], r as [b|b]; cbn; try lia.
  - destruct (b <? a) eqn:H; cbn; rewrite ?Z.ltb_lt, ?Z.ltb_ge in H; lia.
  - destruct (b <=? a) eqn:H; cbn; rewrite ?Z.leb_le, ?Z.leb_gt in H; lia.
Qed.

Lemma deposit_is_zero_spec d : deposit_is_zero d = true → signed_of d = 0.
Proof. destruct d; cbn; lia. Qed.

(** ** Shares of a deposit *)

Lemma refund_share_bounds removed stored deposit :
  0 ≤ removed → 0 ≤ stored → 0 ≤ deposit ≤ u128_max →
  0 ≤ refund_share removed stored deposit ≤ deposit.
Proof.
  intros Hr Hs Hd. unfold refund_share, saturating_mul_int, checked_from_rational.
  assert (0 < FIXED_DIV) as HF by (unfold FIXED_DIV; lia).
  set (q := default 0 (if stored =? 0 then None else Some (removed * FIXED_DIV / stored))).
  assert (0 ≤ q) as Hq.
  { unfold q. destruct (stored =? 0) eqn:E0; cbn; [lia|]. apply Z.eqb_neq in E0.
    apply Z.div_pos; nia. }
  assert (0 ≤ Z.min q FIXED_DIV * deposit / FIXED_DIV ≤ deposit) as Hb; [|lia].
  split; [apply Z.div_pos; nia|]. apply Z.div_le_upper_bound; nia.
Qed.

(** Removing everything gives everything back. *)
Lemma refund_share_all stored deposit :
  0 < stored → 0 ≤ deposit ≤ u128_max → refund_share stored stored deposit = deposit.
Proof.
  intros Hs Hd. unfold refund_share, saturating_mul_int, checked_from_rational.
  rewrite (proj2 (Z.eqb_neq _ _)) by lia. cbn.
  rewrite (Z.mul_comm stored), Z.div_mul by lia. rewrite Z.min_id, (Z.mul_comm FIXED_DIV), Z.div_mul by (unfold FIXED_DIV; lia).
  lia.
Qed.

Lemma refund_share_none stored deposit : refund_share 0 stored deposit = 0.
Proof.
  unfold refund_share, saturating_mul_int, checked_from_rational. destruct (stored =? 0); cbn; [done|].
  done.
Qed.

(** ** What a change of the storage costs *)

Section Update.
Context {B : Type} `{!ContractsCurrency B}.
Hypothesis prices : 0 ≤ DepositPerByte ∧ 0 ≤ DepositPerItem ∧ 0 ≤ minimum_balance.

(** The counters and deposits of a contract: what stores nothing holds nothing. *)
Definition info_ok (i : ContractInfo) : Prop :=
  is_u32 (storage_bytes i) ∧ is_u32 (storage_items i) ∧
  0 ≤ storage_byte_deposit i ∧ 0 ≤ storage_item_deposit i ∧
  minimum_balance ≤ storage_base_deposit i ∧
  (storage_bytes i = 0 → storage_byte_deposit i = 0) ∧
  (storage_items i = 0 → storage_item_deposit i = 0).

(** What the account of a contract holds. *)
Definition held (i : ContractInfo) : Z :=
  storage_byte_deposit i + storage_item_deposit i + storage_base_deposit i - minimum_balance.

Definition diff_ok (d : Diff) : Prop :=
  is_u32 (bytes_added d) ∧ is_u32 (bytes_removed d) ∧ is_u32 (items_added d) ∧ is_u32 (items_removed d).

(** The most a change can cost. *)
Definition diff_cost (d : Diff) : Z :=
  DepositPerByte * bytes_added d + DepositPerItem * items_added d.

(** One of the two counters: what is paid or given back, and what is then held. *)
Definition counter_deposit (price added removed stored deposit : Z) : StorageDeposit :=
  deposit_add (cost_of price (saturating_sub added removed))
    (Refund (refund_share (saturating_sub removed added) stored deposit)).

Lemma counter_deposit_spec price added removed stored deposit :
  0 ≤ price → is_u32 added → is_u32 removed → is_u32 stored → 0 ≤ deposit →
  deposit + price * added ≤ u128_max →
  let d := counter_deposit price added removed stored deposit in
  deposit_ok d ∧ - deposit ≤ signed_of d ≤ price * added ∧
  apply_deposit d deposit = deposit + signed_of d.
Proof.
  intros Hp Ha Hr Hs Hd Hsum. cbn zeta. unfold counter_deposit, is_u32, u32_max in *.
  destruct (Z.le_gt_cases removed added) as [Hle|Hgt].
  - replace (saturating_sub removed added) with 0 by (unfold saturating_sub; lia).
    rewrite refund_share_none. unfold cost_of, saturating_sub, deposit_add. rewrite (Z.max_r 0) by lia.
    rewrite Z.min_r by nia. rewrite (proj2 (Z.leb_le _ _)) by nia. unfold saturating_sub, saturating_add.
    cbn. unfold saturating_add. nia.
  - replace (saturating_sub added removed) with 0 by (unfold saturating_sub; lia).
    pose proof (refund_share_bounds (saturating_sub removed added) stored deposit) as Hb.
    unfold cost_of. rewrite Z.mul_0_r.
    assert (0 ≤ refund_share (saturating_sub removed added) stored deposit ≤ deposit) as Hsh
      by (apply Hb; unfold saturating_sub; nia).
    set (x := refund_share _ _ _) in *. clearbody x. unfold deposit_add. cbn.
    rewrite (Z.min_r u128_max 0) by (unfold u128_max; lia).
    destruct (x <=? 0) eqn:E0; cbn; unfold saturating_add, saturating_sub, u128_max in *;
      rewrite ?Z.leb_le, ?Z.leb_gt in E0; nia.
Qed.

Definition deposits_nonneg (i : ContractInfo) : Prop :=
  0 ≤ storage_bytes i ∧ 0 ≤ storage_items i ∧ 0 ≤ storage_byte_deposit i ∧
  0 ≤ storage_item_deposit i ∧ minimum_balance ≤ storage_base_deposit i.

Lemma update_contract_eq d i :
  let b := counter_deposit DepositPerByte (bytes_added d) (bytes_removed d) (storage_bytes i)
             (storage_byte_deposit i) in
  let t := counter_deposit DepositPerItem (items_added d) (items_removed d) (storage_items i)
             (storage_item_deposit i) in
  update_contract d (Some i) =
    (deposit_add b t,
     Some (mkContractInfo (trie_id i) (deposit_account i) (code_hash i)
       (saturating_sub (saturating_add u32_max (storage_bytes i)
          (saturating_sub (bytes_added d) (bytes_removed d)))
          (saturating_sub (bytes_removed d) (bytes_added d)))
       (saturating_sub (saturating_add u32_max (storage_items i)
          (saturating_sub (items_added d) (items_removed d)))
          (saturating_sub (items_removed d) (items_added d)))
       (apply_deposit b (storage_byte_deposit i)) (apply_deposit t (storage_item_deposit i))
       (storage_base_deposit i))).
Proof. done. Qed.

(** The deposit a contract holds changes by exactly what is charged or refunded. *)
Lemma update_contract_value d i :
  diff_ok d → deposits_nonneg i → is_u32 (storage_bytes i) → is_u32 (storage_items i) →
  held i + minimum_balance + diff_cost d ≤ u128_max →
  ∃ dep i', update_contract d (Some i) = (dep, Some i') ∧ deposit_ok dep ∧
    - held i ≤ signed_of dep ≤ diff_cost d ∧
    held i' = held i + signed_of dep ∧ deposits_nonneg i' ∧
    is_u32 (storage_bytes i') ∧ is_u32 (storage_items i') ∧
    deposit_account i' = deposit_account i ∧ trie_id i' = trie_id i ∧ code_hash i' = code_hash i ∧
    storage_base_deposit i' = storage_base_deposit i.
Proof.
  intros (Hba & Hbr & Hia & Hir) (_ & _ & Hbd & Hid & Hbase) Hsb Hsi Hsum.
  unfold held, diff_cost in Hsum. destruct prices as (Hpb & Hpi & Hmb).
  assert (0 ≤ DepositPerByte * bytes_added d ∧ 0 ≤ DepositPerItem * items_added d) as [Hcb Hci]
    by (unfold is_u32 in *; split; nia).
  destruct (counter_deposit_spec DepositPerByte (bytes_added d) (bytes_removed d) (storage_bytes i)
    (storage_byte_deposit i)) as (Hok1 & Hs1 & Ha1); [first [done|lia]..|].
  destruct (counter_deposit_spec DepositPerItem (items_added d) (items_removed d) (storage_items i)
    (storage_item_deposit i)) as (Hok2 & Hs2 & Ha2); [first [done|lia]..|].
  do 2 eexists. split; [apply update_contract_eq|].
  set (b := counter_deposit DepositPerByte _ _ _ _) in *.
  set (t := counter_deposit DepositPerItem _ _ _ _) in *. clearbody b t.
  destruct (deposit_add_spec b t) as [Hsum' Hok]; [done..|lia|].
  split; [done|]. unfold held, diff_cost, deposits_nonneg. cbn. rewrite Hsum', Ha1, Ha2.
  unfold is_u32, saturating_sub, saturating_add, u32_max in *. repeat split; lia.
Qed.

(** Its counters change by what was added and removed, and a contract that no longer
    stores anything of a kind has its deposit back. *)
Lemma counter_emptied price added removed stored deposit :
  is_u32 added → is_u32 removed → is_u32 stored → 0 ≤ deposit ≤ u128_max → 0 ≤ price →
  (stored = 0 → deposit = 0) → stored + added = removed →
  apply_deposit (counter_deposit price added removed stored deposit) deposit = 0.
Proof.
  intros Ha Hr Hs Hd Hp H0 He. unfold counter_deposit, is_u32 in *.
  replace (saturating_sub added removed) with 0 by (unfold saturating_sub; lia).
  replace (saturating_sub removed added) with stored by (unfold saturating_sub; lia).
  unfold cost_of. rewrite Z.mul_0_r, (Z.min_r u128_max 0) by (unfold u128_max; lia).
  assert (refund_share stored stored deposit = deposit) as ->.
  { destruct (Z.eq_dec stored 0) as [->|Hne]; [rewrite H0 by done; apply refund_share_none|].
    apply refund_share_all; lia. }
  unfold deposit_add. destruct (deposit <=? 0) eqn:E0; cbn; unfold saturating_sub, saturating_add, u128_max in *;
    rewrite ?Z.leb_le, ?Z.leb_gt in E0; lia.
Qed.

(** What a change of the storage of a contract does: the counters follow the bytes and
    items that were added and removed, the deposit changes by what is charged or refunded,
    and a contract whose storage is emptied has all of it back, whatever was rounded before. *)
Theorem update_contract_spec d i :
  diff_ok d → info_ok i → held i + minimum_balance + diff_cost d ≤ u128_max →
  storage_bytes i + bytes_added d ≤ u32_max → storage_items i + items_added d ≤ u32_max →
  bytes_removed d ≤ storage_bytes i + bytes_added d →
  items_removed d ≤ storage_items i + items_added d →
  ∃ dep i', update_contract d (Some i) = (dep, Some i') ∧ info_ok i' ∧
    held i' = held i + signed_of dep ∧
    storage_bytes i' = storage_bytes i + bytes_added d - bytes_removed d ∧
    storage_items i' = storage_items i + items_added d - items_removed d ∧
    (storage_bytes i' = 0 → storage_items i' = 0 →
       signed_of dep = - (storage_byte_deposit i + storage_item_deposit i)).
Proof.
  intros Hd (Hsb & Hsi & Hbd & Hid & Hbase & Hb0 & Hi0) Hsum Hb32 Hi32 Hbr Hir.
  destruct (update_contract_value d i) as (dep & i' & He & Hok & Hs & Hh & Hn & Hub & Hui & _ & _ & _ & Hbase');
    [done|unfold deposits_nonneg, is_u32 in *; lia|done..|].
  destruct Hd as (Hba & Hbrk & Hia & Hirk). destruct Hn as (_ & _ & Hn1 & Hn2 & Hn3).
  assert (storage_bytes i' = storage_bytes i + bytes_added d - bytes_removed d ∧
    storage_items i' = storage_items i + items_added d - items_removed d) as [Hbytes Hitems].
  { rewrite update_contract_eq in He. injection He as _ <-. cbn.
    unfold is_u32, saturating_sub, saturating_add in *. lia. }
  assert (0 ≤ diff_cost d) as Hcost by (unfold diff_cost, is_u32 in *; nia).
  assert (storage_bytes i' = 0 → storage_byte_deposit i' = 0) as Hb0'.
  { intros H0. rewrite update_contract_eq in He. injection He as _ <-. cbn in *.
    apply counter_emptied; unfold held in *; try lia; done. }
  assert (storage_items i' = 0 → storage_item_deposit i' = 0) as Hi0'.
  { intros H0. rewrite update_contract_eq in He. injection He as _ <-. cbn in *.
    apply counter_emptied; unfold held in *; try lia; done. }
  exists dep, i'. split; [done|]. split; [done|]. split; [done|]. do 2 (split; [done|]).
  intros H1 H2. unfold held in Hh. rewrite Hbase', (Hb0' H1), (Hi0' H2) in Hh. lia.
Qed.
End Update.

(** ** The meters of a call stack

    What a stack of calls does to the meters, as a tree: a frame stores, calls, and ends
    with a return, a failure or the termination of its contract. *)

Inductive Ending := Returns | Reverts | Terminates.

Inductive MeterOp :=
| OpStore (d : Diff)
| OpSubcall (contract : AccountId) (limit : Balance) (ops : list MeterOp) (ending : Ending).

Section MeterOpInd.
Context (P : MeterOp → Prop) (Q : list MeterOp → Prop).
Hypothesis Hstore : ∀ d, P (OpStore d).
Hypothesis Hcall : ∀ c l ops e, Q ops → P (OpSubcall c l ops e).
Hypothesis Hnil : Q [].
Hypothesis Hcons : ∀ o ops, P o → Q ops → Q (o :: ops).

Fixpoint meter_op_ind (o : MeterOp) : P o :=
  match o with
  | OpStore d => Hstore d
  | OpSubcall c l ops e =>
      Hcall c l ops e
        ((fix go (l : list MeterOp) : Q l :=
            match l with
            | [] => Hnil
            | o :: l' => Hcons o l' (meter_op_ind o) (go l')
            end) ops)
  end.

Lemma meter_ops_ind ops : Q ops.
Proof. induction ops; auto using meter_op_ind. Qed.
End MeterOpInd.

Section Tree.
Context {B : Type} `{!ContractsCurrency B}.
Abbreviation Infos := (gmap AccountId ContractInfo).

(** The end of a frame: the limit is enforced on the first frame and where a limit was
    given, a return is absorbed and the information on the contract written back. *)
Definition close_frame {S} (first : bool) (contract : AccountId) (ending : Ending)
    (n : NestedMeter) (infos' : Infos) (m : RawMeter S) (infos : Infos)
    : option (RawMeter S * Infos) :=
  let enforce := if first then enforce_limit else enforce_subcall_limit in
  match ending with
  | Reverts => Some (m, infos)
  | Returns =>
      info ← infos' !! contract;
      match enforce (Some info) n with
      | ((n', info'), true) =>
          let (m', info'') := absorb n' (deposit_account info) info' m in
          Some (m', match info'' with Some i => <[contract := i]> infos' | None => infos' end)
      | (_, false) => Some (m, infos)
      end
  | Terminates =>
      info ← infos' !! contract;
      match enforce None (meter_terminate info n) with
      | ((n', _), true) =>
          Some ((absorb n' (deposit_account info) None m).1, delete contract infos')
      | (_, false) => Some (m, infos)
      end
  end.

Fixpoint run_meter_op (op : MeterOp) (m : NestedMeter) (infos : Infos)
    : option (NestedMeter * Infos) :=
  match op with
  | OpStore d => m' ← meter_charge d m; Some (m', infos)
  | OpSubcall c limit ops ending =>
      r ← (fix go (l : list MeterOp) (n : NestedMeter) (infos : Infos)
             : option (NestedMeter * Infos) :=
             match l with
             | [] => Some (n, infos)
             | o :: l' => r ← run_meter_op o n infos; go l' r.1 r.2
             end) ops (meter_nest limit m) infos;
      close_frame false c ending r.1 r.2 m infos
  end.

Fixpoint run_meter (ops : list MeterOp) (m : NestedMeter) (infos : Infos)
    : option (NestedMeter * Infos) :=
  match ops with
  | [] => Some (m, infos)
  | o :: l' => r ← run_meter_op o m infos; run_meter l' r.1 r.2
  end.

(** The whole stack, from the root meter. *)
Definition run_stack (contract : AccountId) (ops : list MeterOp) (ending : Ending) (m : Meter)
    (infos : Infos) : option (Meter * Infos) :=
  r ← run_meter ops (meter_nest 0 m) infos;
  close_frame true contract ending r.1 r.2 m infos.

Lemma run_subcall c limit ops ending m infos :
  run_meter_op (OpSubcall c limit ops ending) m infos =
    r ← run_meter ops (meter_nest limit m) infos; close_frame false c ending r.1 r.2 m infos.
Proof.
  reflexivity.
Qed.

(** *** Sums *)

Definition charge_sum (P : AccountId → bool) (l : list PendingCharge) : Z :=
  foldr (λ c acc, (if P (charge_account c) then signed_of (charge_amount c) else 0) + acc) 0 l.

Lemma charge_sum_app P l1 l2 : charge_sum P (l1 ++ l2) = charge_sum P l1 + charge_sum P l2.
Proof. unfold charge_sum. induction l1 as [|c l1 IH]; cbn; [done|]. rewrite IH. lia. Qed.

(** What the accounts in [P] hold for their contracts. *)
Definition held_by (P : AccountId → bool) (infos : Infos) : Z :=
  map_sum (λ i, if P (deposit_account i) then held i else 0) infos.

Definition all_accounts (_ : AccountId) : bool := true.

Definition infos_ok (infos : Infos) : Prop :=
  map_Forall (λ _ i, deposits_nonneg i ∧ is_u32 (storage_bytes i) ∧ is_u32 (storage_items i)) infos.

Fixpoint meter_op_ok (op : MeterOp) : Prop :=
  match op with
  | OpStore d => diff_ok d
  | OpSubcall _ l ops _ => 0 ≤ l ∧ Forall id (map meter_op_ok ops)
  end.

Fixpoint meter_op_cost (op : MeterOp) : Z :=
  match op with
  | OpStore d => diff_cost d
  | OpSubcall _ _ ops _ => foldr Z.add 0 (map meter_op_cost ops)
  end.
Definition meter_cost (ops : list MeterOp) : Z := foldr Z.add 0 (map meter_op_cost ops).

Definition pending {S} (m : RawMeter S) : Z :=
  match own_contribution m with Alive d => diff_cost d | _ => 0 end.

(** *** Invariants *)

Hypothesis prices : 0 ≤ DepositPerByte ∧ 0 ≤ DepositPerItem ∧ 0 ≤ minimum_balance.

Lemma held_nonneg i : deposits_nonneg i → 0 ≤ held i.
Proof. unfold deposits_nonneg, held. lia. Qed.

Lemma held_by_nonneg P infos : infos_ok infos → 0 ≤ held_by P infos.
Proof.
  intros Hok. apply map_sum_nonneg. intros k i Hi. destruct (P _); [|lia].
  by apply held_nonneg, (Hok k i).
Qed.

Lemma held_by_delete P infos c i :
  infos !! c = Some i →
  held_by P (delete c infos) = held_by P infos - (if P (deposit_account i) then held i else 0).
Proof.
  intros Hi. unfold held_by. rewrite (map_sum_delete _ infos c i Hi). lia.
Qed.

Lemma held_by_insert P infos c i i' :
  infos !! c = Some i → deposit_account i' = deposit_account i →
  held_by P (<[c := i']> infos) =
    held_by P infos + (if P (deposit_account i) then held i' - held i else 0).
Proof.
  intros Hi Ha. unfold held_by. rewrite <- insert_delete_eq, map_sum_insert by apply lookup_delete_eq.
  rewrite (map_sum_delete _ infos c i Hi), Ha. destruct (P _); lia.
Qed.

Lemma held_le infos c i : infos_ok infos → infos !! c = Some i → 0 ≤ held i ≤ held_by all_accounts infos.
Proof.
  intros Hok Hi. pose proof (held_by_delete all_accounts infos c i Hi) as Hd.
  pose proof (held_by_nonneg all_accounts (delete c infos)) as Hn. cbn in Hd.
  assert (0 ≤ held i) by (by apply held_nonneg, (Hok c i)). split; [done|].
  assert (infos_ok (delete c infos)) as Hok' by (by apply map_Forall_delete). specialize (Hn Hok'). lia.
Qed.

Lemma diff_cost_nonneg d : diff_ok d → 0 ≤ diff_cost d.
Proof. unfold diff_ok, diff_cost, is_u32. nia. Qed.

Lemma diff_add_ok a b : diff_ok a → diff_ok b → diff_ok (diff_add a b) ∧
  diff_cost (diff_add a b) ≤ diff_cost a + diff_cost b.
Proof.
  unfold diff_ok, diff_cost, diff_add, is_u32, saturating_add. cbn. intros Ha Hb.
  split; [lia|]. nia.
Qed.

Lemma meter_op_cost_nonneg ops : Forall meter_op_ok ops → 0 ≤ meter_cost ops.
Proof.
  apply (meter_ops_ind (λ o, meter_op_ok o → 0 ≤ meter_op_cost o)
                       (λ ops, Forall meter_op_ok ops → 0 ≤ meter_cost ops)); clear ops.
  - intros d. apply diff_cost_nonneg.
  - intros c l ops e IH [_ Hok]. apply IH. exact (proj1 (Forall_map meter_op_ok id ops) Hok).
  - done.
  - intros o ops Ho IH Hok. apply Forall_cons in Hok as [H1 H2]. unfold meter_cost in *. cbn.
    specialize (Ho H1). specialize (IH H2). lia.
Qed.

(** [tracks H0 m infos]: the meter counts what the contracts hold more than [H0]. *)
Definition tracks {S} (H0 : Z) (m : RawMeter S) (infos : Infos) : Prop :=
  0 ≤ H0 ≤ u128_max ∧ deposit_ok (total_deposit m) ∧
  signed_of (total_deposit m) = held_by all_accounts infos - H0.

Definition frame_alive {S} (m : RawMeter S) : Prop :=
  ∃ d, own_contribution m = Alive d ∧ diff_ok d.

Lemma absorb_tracks {S} P H0 (m : RawMeter S) n infos infos' infos'' account dep info info' :
  contribution_update (own_contribution n) info = (dep, info') → deposit_ok dep →
  tracks H0 m infos → tracks (held_by all_accounts infos) n infos' →
  held_by all_accounts infos'' = held_by all_accounts infos' + signed_of dep →
  0 ≤ held_by all_accounts infos' ≤ u128_max → 0 ≤ held_by all_accounts infos'' ≤ u128_max →
  let r := absorb n account info m in
  tracks H0 r.1 infos'' ∧ r.2 = info' ∧ own_contribution r.1 = own_contribution m ∧
  meter_limit r.1 = meter_limit m ∧
  charge_sum P (charges r.1) =
    charge_sum P (charges m) + charge_sum P (charges n) +
    (if P account then signed_of dep else 0).
Proof.
  intros Hu Hd (HH & Hmok & Hm) (_ & Hnok & Hn) Hh Hb' Hb''. unfold absorb. rewrite Hu.
  cbn zeta. unfold tracks. cbn [fst snd total_deposit own_contribution meter_limit charges].
  destruct (deposit_add_spec (total_deposit m) (total_deposit n)) as [Hs1 Hok1]; [done..|lia|].
  destruct (deposit_add_spec (deposit_add (total_deposit m) (total_deposit n)) dep) as [Hs2 Hok2];
    [done..|lia|].
  split; [split; [done|split; [done|lia]]|]. do 3 (split; [done|]).
  rewrite !charge_sum_app. destruct (deposit_is_zero dep) eqn:Hz; cbn.
  - apply deposit_is_zero_spec in Hz. destruct (P account); lia.
  - destruct (P account); lia.
Qed.

Lemma enforce_cases (first : bool) n info d dep info' n' info1 ok :
  own_contribution n = Alive d → update_contract d info = (dep, info') →
  (if first then enforce_limit else enforce_subcall_limit) info n = ((n', info1), ok) →
  total_deposit n' = total_deposit n ∧ charges n' = charges n ∧
  contribution_update (own_contribution n') info1 = (dep, info').
Proof.
  intros Ho Hu. destruct first; unfold enforce_subcall_limit, enforce_limit, is_alive.
  - rewrite Ho. cbn. rewrite Hu. by intros [= <- <- _].
  - rewrite Ho. cbn [contribution_update]. rewrite Hu.
    destruct (meter_nested n); intros [= <- <- _]; [by rewrite Ho|done].
Qed.

Lemma enforce_limit_ok info n dep info' r :
  contribution_update (own_contribution n) info = (dep, info') →
  enforce_limit info n = (r, true) →
  signed_of (deposit_add (total_deposit n) dep) ≤ Z.max 0 (meter_limit n) ∨
  ¬ deposit_ok (deposit_add (total_deposit n) dep).
Proof.
  intros Hu. unfold enforce_limit. rewrite Hu. destruct (deposit_add _ _) as [a|a]; cbn.
  - lia.
  - intros [= _ Hc]. apply negb_true_iff, Z.ltb_ge in Hc. lia.
Qed.

Lemma enforce_terminated (first : bool) n info t n' info1 ok :
  own_contribution n = Terminated t →
  (if first then enforce_limit else enforce_subcall_limit) info n = ((n', info1), ok) →
  n' = n.
Proof.
  intros Ho. destruct first; unfold enforce_subcall_limit, enforce_limit, is_alive; rewrite Ho; cbn.
  - by intros [= <- <- _].
  - destruct (meter_nested n); by intros [= <- <- _].
Qed.

Lemma total_deposit_of_held i :
  deposits_nonneg i → held i + minimum_balance ≤ u128_max → total_deposit_of i = held i.
Proof.
  unfold deposits_nonneg, held, total_deposit_of, extra_deposit, saturating_add, saturating_sub. lia.
Qed.

(** What the end of a frame keeps. *)
Lemma close_frame_tracks {S} P first c ending H0 (m : RawMeter S) n infos infos' m' infos2 :
  infos_ok infos → infos_ok infos' → frame_alive n →
  tracks H0 m infos → tracks (held_by all_accounts infos) n infos' →
  held_by all_accounts infos' + minimum_balance + pending n ≤ u128_max →
  close_frame first c ending n infos' m infos = Some (m', infos2) →
  infos_ok infos2 ∧ tracks H0 m' infos2 ∧ own_contribution m' = own_contribution m ∧
  (infos2 = infos ∨ held_by all_accounts infos2 ≤ held_by all_accounts infos' + pending n) ∧
  (first = true → infos2 = infos ∧ m' = m ∨
     held_by all_accounts infos2 - held_by all_accounts infos ≤ Z.max 0 (meter_limit n)) ∧
  (charge_sum P (charges n) = held_by P infos' - held_by P infos →
   charge_sum P (charges m') - charge_sum P (charges m) = held_by P infos2 - held_by P infos).
Proof.
  intros Hok Hok' (d & Ho & Hd) Hm Hn Hb. pose proof (held_by_nonneg all_accounts infos' Hok') as Hnn.
  pose proof (diff_cost_nonneg d Hd) as Hdc. unfold pending in *. rewrite Ho in *.
  assert (0 ≤ minimum_balance) as Hmb by lia.
  assert (Hsame : infos_ok infos ∧ tracks H0 m infos ∧ own_contribution m = own_contribution m ∧
    (infos = infos ∨ held_by all_accounts infos ≤ held_by all_accounts infos' + diff_cost d) ∧
    (first = true → infos = infos ∧ m = m ∨
       held_by all_accounts infos - held_by all_accounts infos ≤ Z.max 0 (meter_limit n)) ∧
    (charge_sum P (charges n) = held_by P infos' - held_by P infos →
     charge_sum P (charges m) - charge_sum P (charges m) = held_by P infos - held_by P infos)).
  { do 3 (split; [done|]). split; [by left|]. split; [by left|lia]. }
  unfold close_frame. destruct ending; cbn [mbind option_bind].
  - destruct (infos' !! c) as [i|] eqn:Hi; cbn; [|done].
    destruct (held_le infos' c i Hok' Hi) as [Hi0 Hi1]. destruct (Hok' c i Hi) as (Hin & Hi32 & Hj32).
    destruct (update_contract_value prices d i) as
      (dep & i' & Hu & Hdok & Hds & Hh & Hin' & Hi32' & Hj32' & Hacc & _); [done..|lia|].
    destruct ((if first then enforce_limit else enforce_subcall_limit) (Some i) n)
      as [[n' info1] ok] eqn:He.
    destruct (enforce_cases first n (Some i) d dep (Some i') n' info1 ok Ho Hu He) as (Ht & Hc & Hcu).
    destruct ok; [|intros [= <- <-]; exact Hsame].
    assert (tracks (held_by all_accounts infos) n' infos') as Hn' by (unfold tracks; by rewrite Ht).
    destruct (absorb n' (deposit_account i) info1 m) as [m1 info2] eqn:Habs. intros Hr.
    pose proof (held_by_insert all_accounts infos' c i i' Hi Hacc) as Hins. cbn in Hins.
    destruct (absorb_tracks P H0 m n' infos infos' (<[c := i']> infos') (deposit_account i) dep
      info1 (Some i') Hcu Hdok Hm Hn') as (Ht' & H2 & Hown & _ & Hcs); [lia..|].
    rewrite Habs in Ht', H2, Hown, Hcs. cbn in Ht', H2, Hown, Hcs. subst info2. injection Hr as <- <-.
    split; [by apply map_Forall_insert_2|]. split; [done|]. split; [done|]. split; [right; lia|].
    split.
    { intros ->. right. destruct (enforce_limit_ok (Some i) n dep (Some i') (n', info1)) as [Hl|Hl];
        [by rewrite Ho|done| |]; destruct Hn as (HH0 & Hnok & Hns);
        destruct (deposit_add_spec (total_deposit n) dep) as [Hs3 Hok3]; try done; lia. }
    intros HP. rewrite Hcs, Hc, HP, (held_by_insert P infos' c i i' Hi Hacc).
    destruct (P (deposit_account i)); lia.
  - intros [= <- <-]. exact Hsame.
  - destruct (infos' !! c) as [i|] eqn:Hi; cbn; [|done].
    destruct (held_le infos' c i Hok' Hi) as [Hi0 Hi1]. destruct (Hok' c i Hi) as (Hin & _ & _).
    pose proof (total_deposit_of_held i Hin) as Htd.
    destruct ((if first then enforce_limit else enforce_subcall_limit) None (meter_terminate i n))
      as [[n' info1] ok] eqn:He.
    pose proof He as He0.
    apply (enforce_terminated first _ None (Refund (total_deposit_of i))) in He as ->; [|done].
    destruct ok; [|intros [= <- <-]; exact Hsame].
    destruct (absorb (meter_terminate i n) (deposit_account i) None m) as [m1 x1] eqn:Habs.
    intros [= <- <-].
    pose proof (held_by_delete all_accounts infos' c i Hi) as Hdel. cbn in Hdel.
    assert (infos_ok (delete c infos')) as Hok2 by (by apply map_Forall_delete).
    pose proof (held_by_nonneg all_accounts _ Hok2) as Hnn2.
    destruct (absorb_tracks P H0 m (meter_terminate i n) infos infos' (delete c infos')
      (deposit_account i) (Refund (total_deposit_of i)) None None) as (Ht' & _ & Hown & _ & Hcs);
      [done|cbn; rewrite Htd; lia|done|done|cbn; rewrite Htd; lia|lia|lia|].
    rewrite Habs in Ht', Hown, Hcs. cbn [fst] in Ht', Hown, Hcs.
    split; [done|]. split; [done|]. split; [done|]. split; [right; lia|]. split.
    { intros ->. right. destruct Hn as (HH0 & Hnok & Hns).
      destruct (enforce_limit_ok None (meter_terminate i n) (Refund (total_deposit_of i)) None
        (meter_terminate i n, info1)) as [Hl|Hl]; [done|done| |];
        destruct (deposit_add_spec (total_deposit n) (Refund (total_deposit_of i))) as [Hs3 Hok3];
        rewrite ?Htd in * by lia; cbn in *; try done; lia. }
    intros HP. rewrite Hcs. change (charges (meter_terminate i n)) with (charges n). rewrite HP.
    rewrite (held_by_delete P infos' c i Hi). cbn. rewrite Htd by lia.
    destruct (P (deposit_account i)); lia.
Qed.

Definition op_tracks (P : AccountId → bool) (cost : Z)
    (run : NestedMeter → Infos → option (NestedMeter * Infos)) : Prop :=
  ∀ H0 m infos m' infos', infos_ok infos → frame_alive m → tracks H0 m infos →
  held_by all_accounts infos + minimum_balance + pending m + cost ≤ u128_max →
  run m infos = Some (m', infos') →
  infos_ok infos' ∧ frame_alive m' ∧ tracks H0 m' infos' ∧
  held_by all_accounts infos' + pending m' ≤ held_by all_accounts infos + pending m + cost ∧
  charge_sum P (charges m') - charge_sum P (charges m) = held_by P infos' - held_by P infos.

Lemma pending_nonneg {S} (m : RawMeter S) : frame_alive m → 0 ≤ pending m.
Proof. intros (d & Ho & Hd). unfold pending. rewrite Ho. by apply diff_cost_nonneg. Qed.

Lemma nest_tracks {S} (m : RawMeter S) limit infos H :
  0 ≤ held_by all_accounts infos ≤ u128_max → H = held_by all_accounts infos →
  let n := meter_nest limit m in
  frame_alive n ∧ pending n = 0 ∧ charges n = [] ∧ tracks H n infos.
Proof.
  intros Hb ->. unfold meter_nest, tracks, frame_alive, pending, diff_ok, is_u32.
  destruct (_ =? 0); cbn; unfold diff_cost, u32_max; cbn; rewrite !Z.mul_0_r;
    (split; [eexists; split; [done|]; cbn; lia|]); unfold u128_max in *;
    (split; [done|]); (split; [done|]); lia.
Qed.

Lemma close_frame_limit {S} first c ending n infos' (m : RawMeter S) infos m' infos2 :
  close_frame first c ending n infos' m infos = Some (m', infos2) → meter_limit m' = meter_limit m.
Proof.
  unfold close_frame, absorb. destruct ending; cbn [mbind option_bind]; [|by intros [= <- <-]|];
    destruct (infos' !! c) as [i|]; cbn [mbind option_bind]; try done.
  - destruct ((if first then enforce_limit else enforce_subcall_limit) _ _) as [[n' info1] []];
      [|by intros [= <- <-]].
    destruct (contribution_update _ _). by intros [= <- <-].
  - destruct ((if first then enforce_limit else enforce_subcall_limit) _ _) as [[n' info1] []];
      [|by intros [= <- <-]].
    destruct (contribution_update _ _). by intros [= <- <-].
Qed.

Lemma run_meter_limit ops m infos m' infos' :
  run_meter ops m infos = Some (m', infos') → meter_limit m' = meter_limit m.
Proof.
  revert m infos. induction ops as [|o ops IH]; intros m infos; [by intros [= <- <-]|]. cbn [run_meter].
  destruct (run_meter_op o m infos) as [[m1 infos1]|] eqn:Hr; cbn [mbind option_bind fst snd]; [|done].
  intros Hrest. rewrite (IH _ _ Hrest). destruct o as [d|c l ops' e].
  - cbn in Hr. unfold meter_charge in Hr. destruct (own_contribution m); cbn in Hr; try done.
    by injection Hr as <- <-.
  - rewrite run_subcall in Hr. destruct (run_meter ops' _ _) as [[n infos2]|]; [|done].
    by apply close_frame_limit in Hr.
Qed.

(** A frame: its meter keeps counting what the contracts hold, and the charges it collects
    are what the accounts hold more. *)
Lemma run_meter_tracks P ops :
  Forall meter_op_ok ops → op_tracks P (meter_cost ops) (run_meter ops).
Proof.
  apply (meter_ops_ind (λ o, meter_op_ok o → op_tracks P (meter_op_cost o) (run_meter_op o))
           (λ ops, Forall meter_op_ok ops → op_tracks P (meter_cost ops) (run_meter ops))); clear ops.
  - intros d Hd H0 m infos m' infos' Hok (d0 & Ho & Hd0) Ht Hb. cbn. unfold meter_charge. rewrite Ho. cbn.
    intros [= <- <-]. destruct (diff_add_ok d0 d Hd0 Hd) as [Hda Hc]. unfold pending in *. rewrite Ho in *.
    split; [done|]. split; [by eexists|]. split; [done|].
    cbn [own_contribution set_contribution meter_op_cost charges]. lia.
  - intros c l ops e IH [Hl Hops] H0 m infos m' infos' Hok Ha Ht Hb. rewrite run_subcall.
    assert (Forall meter_op_ok ops) as Hops' by exact (proj1 (Forall_map meter_op_ok id ops) Hops).
    specialize (IH Hops'). pose proof (meter_op_cost_nonneg ops Hops') as Hcn.
    pose proof (held_by_nonneg all_accounts infos Hok) as Hnn. pose proof (pending_nonneg m Ha) as Hpn.
    change (meter_op_cost (OpSubcall c l ops e)) with (meter_cost ops) in *.
    destruct (run_meter ops (meter_nest l m) infos) as [[n infos1]|] eqn:Hr; cbn; [|done].
    intros Hf. destruct (nest_tracks m l infos _ ltac:(lia) eq_refl) as (Han & Hpz & Hcz & Htn).
    destruct (IH _ _ _ _ _ Hok Han Htn ltac:(lia) Hr) as (Hok1 & Ha1 & Ht1 & Hle & Hcs).
    rewrite Hcz in Hcs. cbn in Hcs. rewrite Hpz in Hle.
    destruct (close_frame_tracks P false c e H0 m n infos infos1 m' infos' Hok Hok1 Ha1 Ht Ht1
      ltac:(lia) Hf) as (Hok2 & Ht2 & Hown & Hbound & _ & Hcs2).
    assert (pending m' = pending m) as Hpm by (unfold pending; by rewrite Hown).
    split; [done|]. split; [unfold frame_alive; by rewrite Hown|]. split; [done|].
    split; [destruct Hbound as [->|Hbound]; lia|]. apply Hcs2. lia.
  - intros _ H0 m infos m' infos' Hok Ha Ht Hb [= <- <-]. do 3 (split; [done|]). unfold meter_cost. cbn. lia.
  - intros o ops Ho IH Hok0 H0 m infos m' infos' Hok Ha Ht Hb. apply Forall_cons in Hok0 as [Ho0 Hops].
    pose proof (meter_op_cost_nonneg ops Hops) as Hcn.
    assert (meter_cost (o :: ops) = meter_op_cost o + meter_cost ops) as Hc by done.
    rewrite Hc in Hb |- *. cbn [run_meter].
    destruct (run_meter_op o m infos) as [[m1 infos1]|] eqn:Hr; cbn [mbind option_bind fst snd]; [|done].
    intros Hrest.
    destruct (Ho Ho0 H0 m infos m1 infos1 Hok Ha Ht ltac:(lia) Hr) as (Hok1 & Ha1 & Ht1 & Hle1 & Hcs1).
    destruct (IH Hops H0 m1 infos1 m' infos' Hok1 Ha1 Ht1 ltac:(lia) Hrest)
      as (Hok2 & Ha2 & Ht2 & Hle2 & Hcs2).
    do 3 (split; [done|]). split; lia.
Qed.

(** The whole stack. *)
Lemma stack_tracks contract ops ending limit infos m infos' :
  Forall meter_op_ok ops → infos_ok infos → 0 ≤ limit →
  held_by all_accounts infos + minimum_balance + meter_cost ops ≤ u128_max →
  run_stack contract ops ending (meter_fresh limit tt) infos = Some (m, infos') →
  signed_of (total_deposit m) = held_by all_accounts infos' - held_by all_accounts infos ∧
  (∀ P, charge_sum P (charges m) = held_by P infos' - held_by P infos) ∧
  infos_ok infos' ∧ charge_or_zero (total_deposit m) ≤ limit.
Proof.
  intros Hops Hok Hlim Hb. unfold run_stack.
  pose proof (held_by_nonneg all_accounts infos Hok) as Hnn.
  pose proof (meter_op_cost_nonneg ops Hops) as Hcn.
  destruct (run_meter ops _ infos) as [[n infos1]|] eqn:Hr; cbn [mbind option_bind fst snd]; [|done].
  intros Hf. destruct (nest_tracks (meter_fresh limit tt) 0 infos _ ltac:(lia) eq_refl)
    as (Han & Hpz & Hcz & Htn).
  assert (tracks (held_by all_accounts infos) (meter_fresh limit tt) infos) as Htm
    by (unfold tracks; cbn; unfold u128_max in *; lia).
  assert (∀ P, let m0 := meter_nest 0 (meter_fresh limit tt) in
    infos_ok infos1 ∧ frame_alive n ∧ tracks (held_by all_accounts infos) n infos1 ∧
    held_by all_accounts infos1 + pending n ≤ held_by all_accounts infos + pending m0 + meter_cost ops ∧
    charge_sum P (charges n) - charge_sum P (charges m0) = held_by P infos1 - held_by P infos) as Hrun.
  { intros P. by apply (run_meter_tracks P ops Hops); [..|lia|]. }
  cbn zeta in Hrun. rewrite Hpz, Hcz in Hrun.
  assert (meter_limit n = limit) as Hnl.
  { rewrite (run_meter_limit _ _ _ _ _ Hr). unfold meter_nest, available, available_of, saturating_sub. cbn.
    rewrite (Z.min_r _ 0) by lia. cbn. lia. }
  assert (∀ P, infos_ok infos' ∧ tracks (held_by all_accounts infos) m infos' ∧
    (infos' = infos ∧ m = meter_fresh limit tt ∨
       held_by all_accounts infos' - held_by all_accounts infos ≤ limit) ∧
    charge_sum P (charges m) = held_by P infos' - held_by P infos) as Hall.
  { intros P. destruct (Hrun P) as (Hok1 & Ha1 & Ht1 & Hle & Hcs). cbn in Hcs.
    destruct (close_frame_tracks P true contract ending _ _ n infos infos1 m infos' Hok Hok1 Ha1 Htm Ht1
      ltac:(lia) Hf) as (Hok2 & Ht2 & _ & _ & Hl & Hcs2).
    split; [done|]. split; [done|]. split.
    - destruct (Hl eq_refl) as [?|Hl']; [by left|right]. rewrite Hnl in Hl'. lia.
    - cbn in Hcs2. rewrite <- Hcs2; lia. }
  destruct (Hall all_accounts) as (Hok' & (_ & Hmok & Hms) & Hl & _). split; [done|].
  split; [apply Hall|]. split; [done|].
  destruct Hl as [[_ ->]|Hl]; [cbn; lia|]. destruct (total_deposit m); cbn in *; lia.
Qed.
End Tree.

(** ** Collecting the charges *)

(** What is relied on of the balances: a transfer takes its amount from the sender when he
    is to be kept alive, and gives it to the receiver; references do not move balances. *)
Class CurrencyLaws (B : Type) `{!ContractsCurrency B} := {
  transfer_from_kept a b x s s' :
    cc_transfer a b x true s = ROk s' → a ≠ b → cc_free_balance s' a = cc_free_balance s a - x;
  transfer_to a b x k s s' :
    cc_transfer a b x k s = ROk s' → a ≠ b → cc_free_balance s' b = cc_free_balance s b + x;
  dec_consumers_free a s b : cc_free_balance (dec_consumers a s) b = cc_free_balance s b;
}.

Section Collect.
Context {B : Type} `{!ContractsCurrency B} `{!CurrencyLaws B}.

Lemma collect_balance o c b b' :
  collect o c b = Ok tt b' → charge_account c ≠ o →
  cc_free_balance b' o = cc_free_balance b o - signed_of (charge_amount c).
Proof.
  unfold collect, ext_charge, lift_bank. intros Hc Hne. destruct (charge_amount c) as [a|a]; cbn.
  - destruct (charge_terminated c); unfold mbind, M_bind, modify, mret, M_ret in Hc; cbn in Hc;
      destruct (cc_transfer _ _ _ _ _) eqn:Ht; try done; injection Hc as <-;
      rewrite (transfer_to _ _ _ _ _ _ Ht) by done; rewrite ?dec_consumers_free; lia.
  - destruct (cc_transfer _ _ _ _ _) eqn:Ht; [|done]. injection Hc as <-.
    by rewrite (transfer_from_kept _ _ _ _ _ Ht) by done.
Qed.

Lemma collect_all_balance o l b b' :
  for_each l (collect o) b = Ok tt b' → Forall (λ c, charge_account c ≠ o) l →
  cc_free_balance b' o = cc_free_balance b o - charge_sum all_accounts l.
Proof.
  revert b. induction l as [|c l IH]; intros b; cbn [for_each].
  { intros [= <-] _. unfold charge_sum. cbn. lia. }
  intros Hf Hne. apply bind_Ok_inv in Hf as ([] & b1 & Hc & Hf). apply Forall_cons in Hne as [Hn Hne].
  rewrite (IH b1 Hf Hne), (collect_balance o c b b1 Hc Hn). unfold charge_sum. cbn. lia.
Qed.

Lemma charge_sum_partition P (f : PendingCharge → bool) l :
  charge_sum P (List.filter f l) + charge_sum P (List.filter (λ c, negb (f c)) l) = charge_sum P l.
Proof.
  unfold charge_sum. induction l as [|c l IH]; cbn; [done|]. destruct (f c); cbn; lia.
Qed.

Lemma Forall_List_filter {A} (Q : A → Prop) f (l : list A) : Forall Q l → Forall Q (List.filter f l).
Proof. induction 1; cbn; [done|]. destruct (f _); auto. Qed.

End Collect.
