(* ===== verification/WasmModule.v ===== *)
(** * Validation of contract code

    [pallets/contracts/src/wasm/prepare.rs] and [WasmBlob::instantiate] of
    [wasm/mod.rs]: which modules are accepted as contracts.

    - [WasmModule]: the exports and imports of a module, as the engine lists them.
    - [WasmLib]: the engine (parsing a module, linking it with the host functions and a
      memory) and the two settings of the runtime the validation reads.
    - [scan_exports], [scan_imports], [validate_code], [instantiate]: the checks. *)

From S2P Require Import Prelude Types.

(** ** Modules *)

Inductive Determinism := Enforced | Relaxed.

#[export] Instance Determinism_eq_dec : EqDecision Determinism.
Proof. solve_decision. Defined.

Inductive ValueType := I32 | I64 | F32 | F64 | FuncRef | ExternRef.

#[export] Instance ValueType_eq_dec : EqDecision ValueType.
Proof. solve_decision. Defined.

Record FuncType := mkFuncType { ft_params : list ValueType; ft_results : list ValueType }.
Record MemoryType := mkMemoryType { initial_pages : Z; maximum_pages : option Z }.

Inductive ExternType :=
| ExternFunc (ft : FuncType)
| ExternMemory (mt : MemoryType)
| ExternGlobal
| ExternTable.

Record ExportType := mkExport { export_name : string; export_ty : ExternType }.
Record ImportType := mkImport { import_module : string; import_name : string; import_ty : ExternType }.
Record WasmModule := mkModule { module_exports : list ExportType; module_imports : list ImportType }.

(** [Module::new] with the features the determinism allows; [Linker::instantiate] with the
    memory of the given limits, with or without the deprecated host functions, and
    without a start function; [schedule.limits.memory_pages]; [ChainExtension::enabled]. *)
Class WasmLib := {
  new_module : list Z → Determinism → option WasmModule;
  links : WasmModule → Z * Z → bool → bool;
  memory_pages : Z;
  chain_extension_enabled : bool;
}.

Definition BYTES_PER_PAGE : Z := 64 * 1024.
Definition IMPORT_MODULE_MEMORY : string := "env".

Section Prepare.
Context `{!WasmLib}.

(** ** Exports *)

Definition entry_signature (ft : FuncType) : bool :=
  bool_decide (ft_params ft = []) &&
  (bool_decide (ft_results ft = []) || bool_decide (ft_results ft = [I32])).

Fixpoint scan_exports_loop (deploy_found call_found : bool) (l : list ExportType) : result string unit :=
  match l with
  | [] =>
      if negb deploy_found then RErr "deploy function isn't exported"%string
      else if negb call_found then RErr "call function isn't exported"%string
      else ROk tt
  | e :: l' =>
      match export_ty e with
      | ExternFunc ft =>
          let signed found :=
            if entry_signature ft then found else RErr "entry point has wrong signature"%string in
          if bool_decide (export_name e = "call"%string)
          then signed (scan_exports_loop deploy_found true l')
          else if bool_decide (export_name e = "deploy"%string)
          then signed (scan_exports_loop true call_found l')
          else RErr "unknown function export: expecting only deploy and call functions"%string
      | ExternMemory _ => RErr "memory export is forbidden"%string
      | ExternGlobal => RErr "global export is forbidden"%string
      | ExternTable => RErr "table export is forbidden"%string
      end
  end.

Definition scan_exports (m : WasmModule) : result string unit :=
  scan_exports_loop false false (module_exports m).

(** ** Imports *)

(** The number of bytes does not fit an address of 32 bits for the largest memory, which
    then counts as no page. *)
Definition pages_of (pages : Z) : Z :=
  let bytes := pages * BYTES_PER_PAGE in
  (if bytes <=? u32_max then bytes else 0) / BYTES_PER_PAGE.

Definition limits_of (mt : MemoryType) : Z * Z :=
  (pages_of (initial_pages mt),
   match maximum_pages mt with Some p => pages_of p | None => memory_pages end).

Definition is_extension_call (name : string) : bool :=
  bool_decide (name = "seal_call_chain_extension"%string) || bool_decide (name = "call_chain_extension"%string).

Fixpoint scan_imports_loop (memory_limits : option (Z * Z)) (l : list ImportType) : result string (Z * Z) :=
  match l with
  | [] =>
      match memory_limits with
      | Some limits => ROk limits
      | None => RErr "No memory import found in the module"%string
      end
  | i :: l' =>
      match import_ty i with
      | ExternTable => RErr "Cannot import tables"%string
      | ExternGlobal => RErr "Cannot import globals"%string
      | ExternFunc _ =>
          if negb chain_extension_enabled && is_extension_call (import_name i)
          then RErr "Module uses chain extensions but chain extensions are disabled"%string
          else scan_imports_loop memory_limits l'
      | ExternMemory mt =>
          if negb (bool_decide (import_module i = IMPORT_MODULE_MEMORY))
          then RErr "Invalid module for imported memory"%string
          else if negb (bool_decide (import_name i = "memory"%string))
          then RErr "Memory import must have the field name 'memory'"%string
          else if is_some memory_limits
          then RErr "Multiple memory imports defined"%string
          else
            let (initial, maximum) := limits_of mt in
            if maximum <? initial
            then RErr "Requested initial number of memory pages should not exceed the requested maximum"%string
            else if memory_pages <? maximum
            then RErr "Maximum number of memory pages should not exceed the maximum configured in the Schedule"%string
            else scan_imports_loop (Some (initial, maximum)) l'
      end
  end.

Definition scan_imports (m : WasmModule) : result string (Z * Z) :=
  scan_imports_loop None (module_imports m).

(** ** Instances *)

(** [WasmBlob::instantiate].  The memory can be made, as its limits are in order and within
    those of the schedule ([scan_imports_bounds]). *)
Definition instantiate (code : list Z) (d : Determinism) (allow_deprecated : bool) : result string WasmModule :=
  match new_module code d with
  | None => RErr "Can't load the module into wasmi!"%string
  | Some m =>
      match scan_imports m with
      | RErr e => RErr e
      | ROk limits =>
          if links m limits allow_deprecated then ROk m
          else RErr "can't instantiate module with provided definitions"%string
      end
  end.

(** [prepare::validate]: the checks of the pallet, then a trial instance. *)
Definition validate_code (code : list Z) (d : Determinism) : result string unit :=
  match new_module code d with
  | None => RErr "Can't load the module into wasmi!"%string
  | Some m =>
      match scan_exports m with
      | RErr e => RErr e
      | ROk _ =>
          match scan_imports m with
          | RErr e => RErr e
          | ROk _ =>
              match instantiate code d false with
              | RErr _ => RErr "New code rejected on wasmi instantiation!"%string
              | ROk _ => ROk tt
              end
          end
      end
  end.

(** [get_export] of a function. *)
Definition exports_function (name : string) (m : WasmModule) : bool :=
  existsb (λ e, bool_decide (export_name e = name) &&
                match export_ty e with ExternFunc _ => true | _ => false end) (module_exports m).

(** ** Which modules are accepted *)

Definition entry_export (e : ExportType) : Prop :=
  ∃ ft, export_ty e = ExternFunc ft ∧ (export_name e = "call"%string ∨ export_name e = "deploy"%string) ∧
    ft_params ft = [] ∧ (ft_results ft = [] ∨ ft_results ft = [I32]).

Definition contract_exports (m : WasmModule) : Prop :=
  Forall entry_export (module_exports m) ∧
  "call"%string ∈ export_name <$> module_exports m ∧ "deploy"%string ∈ export_name <$> module_exports m.

Definition memory_of (i : ImportType) : option MemoryType :=
  match import_ty i with ExternMemory mt => Some mt | _ => None end.

Definition contract_import (i : ImportType) : Prop :=
  match import_ty i with
  | ExternFunc _ =>
      import_name i = "seal_call_chain_extension"%string ∨ import_name i = "call_chain_extension"%string →
      chain_extension_enabled = true
  | ExternMemory mt =>
      import_module i = "env"%string ∧ import_name i = "memory"%string ∧
      (limits_of mt).1 ≤ (limits_of mt).2 ≤ memory_pages
  | _ => False
  end.

Definition contract_imports (m : WasmModule) (limits : Z * Z) : Prop :=
  Forall contract_import (module_imports m) ∧
  ∃ mt, omap memory_of (module_imports m) = [mt] ∧ limits_of mt = limits.

Lemma entry_signature_true ft :
  entry_signature ft = true ↔ ft_params ft = [] ∧ (ft_results ft = [] ∨ ft_results ft = [I32]).
Proof.
  unfold entry_signature. by rewrite andb_true_iff, orb_true_iff, !bool_decide_eq_true.
Qed.

Lemma scan_exports_loop_iff d c l :
  scan_exports_loop d c l = ROk tt ↔
  Forall entry_export l ∧ (c = true ∨ "call"%string ∈ export_name <$> l) ∧
  (d = true ∨ "deploy"%string ∈ export_name <$> l).
Proof.
  revert d c. induction l as [|e l IH]; intros d c; cbn.
  { rewrite Forall_nil, !elem_of_nil. destruct d, c; cbn; naive_solver. }
  rewrite Forall_cons, !elem_of_cons. unfold entry_export at 1. destruct e as [n ty]; cbn.
  destruct ty as [ft| | |]; [|naive_solver ..].
  pose proof (entry_signature_true ft) as Hs. destruct (entry_signature ft); [|repeat case_bool_decide; naive_solver].
  destruct (proj1 Hs eq_refl) as [Hp Hr]. clear Hs.
  repeat case_bool_decide; rewrite ?IH; subst; naive_solver.
Qed.

Lemma scan_exports_iff m : scan_exports m = ROk tt ↔ contract_exports m.
Proof. unfold scan_exports. rewrite scan_exports_loop_iff. unfold contract_exports. intuition discriminate. Qed.

#[local] Arguments limits_of : simpl never.

Lemma scan_imports_loop_iff acc l limits :
  scan_imports_loop acc l = ROk limits ↔
  Forall contract_import l ∧
  match acc with
  | Some a => omap memory_of l = [] ∧ a = limits
  | None => ∃ mt, omap memory_of l = [mt] ∧ limits_of mt = limits
  end.
Proof.
  revert acc. induction l as [|i l IH]; intros acc; cbn.
  { destruct acc as [a|]; split; try done.
    - by intros [= ->].
    - by intros (_ & _ & ->).
    - by intros (_ & ? & ? & _). }
  rewrite Forall_cons. unfold contract_import at 1, memory_of, is_extension_call.
  destruct i as [md n ty]; cbn. destruct ty as [ft|mt| |]; cbn; [| |by split; [|intros [[] _]] ..].
  - destruct chain_extension_enabled; cbn; [rewrite IH; by intuition|].
    repeat case_bool_decide; cbn; rewrite ?IH; split; try done; try by intuition.
    all: intros ((Hn & _) & _); exfalso; by discriminate Hn; auto.
  - destruct (limits_of mt) as [lo hi] eqn:Hl. unfold IMPORT_MODULE_MEMORY.
    case_bool_decide as Hm; cbn; [|by split; [|intros (((? & _) & _) & _)]].
    case_bool_decide as Hn; cbn; [|by split; [|intros (((_ & ? & _) & _) & _)]].
    destruct acc as [a|]; cbn; [by split; [|intros (_ & ? & _)]|].
    destruct (Z.ltb_spec hi lo); [by split; [|intros (((_ & _ & ?) & _) & _); cbn in *; lia]|].
    destruct (Z.ltb_spec memory_pages hi); [by split; [|intros (((_ & _ & ?) & _) & _); cbn in *; lia]|].
    rewrite IH. split.
    + intros (Hf & Ho & <-). split; [split; [repeat split; try done; lia|done]|].
      exists mt. split; [by f_equal|done].
    + intros ((_ & Hf) & mt' & [= <- Ho] & Hlim). rewrite Hl in Hlim. by subst.
Qed.

Lemma scan_imports_iff m limits : scan_imports m = ROk limits ↔ contract_imports m limits.
Proof. unfold scan_imports. by rewrite scan_imports_loop_iff. Qed.

Lemma scan_imports_bounds m limits :
  scan_imports m = ROk limits → limits.1 ≤ limits.2 ≤ memory_pages.
Proof.
  rewrite scan_imports_iff. intros (Hf & mt & Ho & <-).
  assert (mt ∈ omap memory_of (module_imports m)) as Hin by (rewrite Ho; by left).
  apply list_elem_of_omap in Hin as (i & Hi & Hmt). rewrite Forall_forall in Hf. specialize (Hf i Hi).
  unfold contract_import, memory_of in *. destruct (import_ty i); simplify_eq. tauto.
Qed.

Lemma validate_code_iff code d :
  validate_code code d = ROk tt ↔
  ∃ m limits, new_module code d = Some m ∧ contract_exports m ∧ contract_imports m limits ∧
    links m limits false = true.
Proof.
  unfold validate_code, instantiate. destruct (new_module code d) as [m|]; [|by split; [|intros (? & ? & ? & _)]].
  setoid_rewrite <- scan_exports_iff. setoid_rewrite <- scan_imports_iff.
  split.
  - destruct (scan_exports m) as [[]|] eqn:He; [|done]. destruct (scan_imports m) as [limits|] eqn:Hi; [|done].
    destruct (links m limits false) eqn:Hl; [|done]. eauto 8.
  - by intros (m' & limits & [= <-] & -> & -> & ->).
Qed.

Lemma exports_function_of name m :
  contract_exports m → name = "call"%string ∨ name = "deploy"%string → exports_function name m = true.
Proof.
  intros (Hf & Hc & Hd) Hn. apply existsb_exists.
  assert (name ∈ export_name <$> module_exports m) as (e & -> & He)%list_elem_of_fmap
    by (by destruct Hn as [->| ->]).
  exists e. split; [by apply list_elem_of_In|]. rewrite bool_decide_eq_true_2 by done.
  rewrite Forall_forall in Hf. by destruct (Hf e He) as (ft & -> & _).
Qed.
End Prepare.

(** More host functions do not make linking fail. *)
Class LinkLaws `{!WasmLib} :=
  links_deprecated m limits : links m limits false = true → links m limits true = true.
