(* ===== verification/ContractStore.v ===== *)
(** * The storage of contracts

    [pallets/contracts/src/storage.rs], the storage of code in
    [pallets/contracts/src/wasm/mod.rs] and [wasm/prepare.rs],
    [pallets/contracts/src/address.rs], and the storage items and events of
    [pallets/contracts/src/lib.rs].

    - [Contracts B]: the storage items of the pallet over the balances [B], with the child
      tries of the contracts.
    - [ContractsLib]: what is library code: the hashes of storage keys, the removal of a
      child trie with a limit, the engine that validates code, and the weights.
    - Contracts are terminated at once, their tries are removed later from a queue. *)

From S2P Require Import Prelude Types AccountManager StandardAbi ContractsRegistry ThreeVm Gas.
From S2P Require Import Deposits WasmModule.

(** ** Data *)

Record CodeInfo := mkCodeInfo {
  code_owner : AccountId;
  code_deposit : Balance;
  refcount : Z;
  determinism_of : Determinism;
  code_len : Z;
}.

#[export] Instance CodeInfo_eq_dec : EqDecision CodeInfo.
Proof. solve_decision. Defined.

Definition set_refcount (n : Z) (i : CodeInfo) : CodeInfo :=
  mkCodeInfo (code_owner i) (code_deposit i) n (determinism_of i) (code_len i).

Record WasmBlob := mkWasmBlob {
  blob_code : list Z;
  blob_info : CodeInfo;
  blob_hash : Hash;
  blob_author : option AuthorInfo;
  blob_kind : ContractType;
}.

Definition new_empty : WasmBlob :=
  mkWasmBlob [] (mkCodeInfo 0 0 0 Relaxed 0) 0 None VolatileWasm.

Definition blob_is_empty (b : WasmBlob) : bool :=
  match blob_code b with [] => true | _ => false end.

(** [impl ModuleOperations for WasmBlob]. *)
#[export] Instance WasmBlob_operations : ModuleOperations WasmBlob := {|
  get_bytecode := blob_code;
  module_author := blob_author;
  set_author a b := mkWasmBlob (blob_code b) (blob_info b) (blob_hash b) (Some a) (blob_kind b);
  get_type := blob_kind;
  set_type t b := mkWasmBlob (blob_code b) (blob_info b) (blob_hash b) (blob_author b) t;
|}.

#[export] Instance WasmBlob_laws : ModuleLaws WasmBlob.
Proof. split; done. Qed.

Definition is_deterministic (b : WasmBlob) : bool :=
  match determinism_of (blob_info b) with Enforced => true | Relaxed => false end.

(** [Key]: 32 bytes, or a bounded vector. *)
Inductive Key := KeyFix (v : list Z) | KeyVar (v : list Z).

Inductive WriteOutcome := WriteNew | Overwritten (len : Z) | Taken (value : list Z).

Definition SENTINEL : Z := u32_max.

Definition old_len (o : WriteOutcome) : Z :=
  match o with WriteNew => 0 | Overwritten l => l | Taken v => Z.of_nat (length v) end.
Definition old_len_with_sentinel (o : WriteOutcome) : Z :=
  match o with WriteNew => SENTINEL | Overwritten l => l | Taken v => Z.of_nat (length v) end.

Inductive ContractsEvent :=
| Instantiated (deployer contract : AccountId)
| EvTerminated (contract beneficiary : AccountId)
| CodeStored (h : Hash)
| ContractEmitted (contract : AccountId) (data : list Z)
| CodeRemoved (h : Hash)
| ContractCodeUpdated (contract : AccountId) (new_hash old_hash : Hash)
| Called (caller : Origin) (contract : AccountId)
| DelegateCalled (contract : AccountId) (h : Hash).

Abbreviation Trie := (gmap (list Z) (list Z)).

Record Contracts (B : Type) := mkContracts {
  c_bank : B;
  ContractInfoOf : gmap AccountId ContractInfo;
  child_tries : gmap Hash Trie;
  CodeInfoOf : gmap Hash CodeInfo;
  PristineCode : gmap Hash (list Z);
  Nonce : Z;
  DeletionQueue : gmap Z Hash;
  insert_counter : Z;
  delete_counter : Z;
  c_events : list ContractsEvent;
}.
Arguments mkContracts {B}.
Arguments c_bank {B}.
Arguments ContractInfoOf {B}.
Arguments child_tries {B}.
Arguments CodeInfoOf {B}.
Arguments PristineCode {B}.
Arguments Nonce {B}.
Arguments DeletionQueue {B}.
Arguments insert_counter {B}.
Arguments delete_counter {B}.
Arguments c_events {B}.

Class ContractsLib := {
  contracts_wasm :: WasmLib;
  blake2_256 : list Z → list Z;
  (** [Blake2_128Concat::hash]. *)
  blake2_128_concat : list Z → list Z;
  (** [child::kill_storage] with a limit: what stays, and how many keys were removed. *)
  kill_storage : Z → Trie → Trie * Z;
  MaxCodeLen : Z;
  (** [CodeInfo::max_encoded_len]. *)
  code_info_max_len : Z;
  (** [WeightInfo]. *)
  on_process_deletion_queue_batch : Weight;
  on_initialize_per_trie_key : Z → Weight;
  call_with_code_per_byte : Z → Weight;
}.

(** [Key::hash]. *)
Definition key_hash `{!ContractsLib} (k : Key) : list Z :=
  match k with KeyFix v => blake2_256 v | KeyVar v => blake2_128_concat v end.

Section Store.
Context {B : Type} `{!ContractsCurrency B} `{!Hashing} `{!ContractsLib}.
Implicit Types s : Contracts B.
Abbreviation CM := (M (Contracts B) DispatchError).

Definition set_bank (b : B) s : Contracts B :=
  mkContracts b (ContractInfoOf s) (child_tries s) (CodeInfoOf s) (PristineCode s) (Nonce s)
    (DeletionQueue s) (insert_counter s) (delete_counter s) (c_events s).
Definition set_infos (m : gmap AccountId ContractInfo) s : Contracts B :=
  mkContracts (c_bank s) m (child_tries s) (CodeInfoOf s) (PristineCode s) (Nonce s)
    (DeletionQueue s) (insert_counter s) (delete_counter s) (c_events s).
Definition set_tries (m : gmap Hash Trie) s : Contracts B :=
  mkContracts (c_bank s) (ContractInfoOf s) m (CodeInfoOf s) (PristineCode s) (Nonce s)
    (DeletionQueue s) (insert_counter s) (delete_counter s) (c_events s).
Definition set_code (i : gmap Hash CodeInfo) (p : gmap Hash (list Z)) s : Contracts B :=
  mkContracts (c_bank s) (ContractInfoOf s) (child_tries s) i p (Nonce s)
    (DeletionQueue s) (insert_counter s) (delete_counter s) (c_events s).
Definition set_nonce (n : Z) s : Contracts B :=
  mkContracts (c_bank s) (ContractInfoOf s) (child_tries s) (CodeInfoOf s) (PristineCode s) n
    (DeletionQueue s) (insert_counter s) (delete_counter s) (c_events s).
Definition set_queue (q : gmap Z Hash) (i d : Z) s : Contracts B :=
  mkContracts (c_bank s) (ContractInfoOf s) (child_tries s) (CodeInfoOf s) (PristineCode s)
    (Nonce s) q i d (c_events s).
Definition deposit_event (e : ContractsEvent) s : Contracts B :=
  mkContracts (c_bank s) (ContractInfoOf s) (child_tries s) (CodeInfoOf s) (PristineCode s)
    (Nonce s) (DeletionQueue s) (insert_counter s) (delete_counter s) (e :: c_events s).

Definition cerr (e : ContractsError) : DispatchError := ContractsModuleError e.

(** An operation on the balances. *)
Definition in_balances {A} (m : M B DispatchError A) : CM A := zoom c_bank set_bank m.

(** ** Addresses (address.rs)

    An account has the 32 bytes of a hash, so that it is read from one as it is. *)

Definition contract_address (deployer : AccountId) (h : Hash) (input_data salt : list Z) : AccountId :=
  system_hash (bytes_of "contract_addr_v1" ++ be_bytes 32 deployer ++ be_bytes 32 h ++
    encode_vec input_data ++ encode_vec salt).

Definition deposit_address (contract : AccountId) : AccountId :=
  system_hash (bytes_of "contract_depo_v1" ++ be_bytes 32 contract).

(** ** Contracts (storage.rs) *)

(** [ContractInfo::new]. *)
Definition contract_info_new (account : AccountId) (nonce : Z) (h : Hash) s
    : result DispatchError ContractInfo :=
  match ContractInfoOf s !! account with
  | Some _ => RErr (cerr DuplicateContract)
  | None =>
      ROk (mkContractInfo (system_hash (be_bytes 32 account ++ le_bytes 8 nonce))
             (deposit_address account) h 0 0 0 0 0)
  end.

Definition trie_of s (i : ContractInfo) : Trie := default ∅ (child_tries s !! trie_id i).

Definition info_read s (i : ContractInfo) (key : Key) : option (list Z) := trie_of s i !! key_hash key.
Definition info_size s (i : ContractInfo) (key : Key) : option Z :=
  (λ v, Z.of_nat (length v)) <$> info_read s i key.

Definition trie_put (i : ContractInfo) (k v : list Z) s : Contracts B :=
  set_tries (<[trie_id i := <[k := v]> (trie_of s i)]> (child_tries s)) s.
Definition trie_kill (i : ContractInfo) (k : list Z) s : Contracts B :=
  set_tries (<[trie_id i := delete k (trie_of s i)]> (child_tries s)) s.

(** What a write changes. *)
Definition write_diff (old new : option Z) : Diff :=
  match old, new with
  | Some o, Some n => if o <? n then mkDiff (n - o) 0 0 0 else mkDiff 0 (o - n) 0 0
  | None, Some n => mkDiff n 0 1 0
  | Some o, None => mkDiff 0 o 0 1
  | None, None => diff_default
  end.

(** [ContractInfo::write] with the meter of the frame, which it charges first. *)
Definition info_write (i : ContractInfo) (key : Key) (new_value : option (list Z)) (take : bool)
    (m : NestedMeter) : CM (NestedMeter * WriteOutcome) :=
  old ← gets (λ s, info_read s i key);
  let old_len_ := (λ v, Z.of_nat (length v)) <$> old in
  let diff := write_diff old_len_ ((λ v, Z.of_nat (length v)) <$> new_value) in
  m' ← expect (meter_charge diff m);
  modify (match new_value with
          | Some v => trie_put i (key_hash key) v
          | None => trie_kill i (key_hash key)
          end) ;;
  mret (m', match old_len_, (if take then old else None) with
            | None, _ => WriteNew
            | Some l, None => Overwritten l
            | Some _, Some v => Taken v
            end).

(** ** The deletion queue *)

Definition queue_is_empty s : bool := wrap32 (insert_counter s - delete_counter s) =? 0.

(** [DeletionQueueManager::insert]. *)
Definition queue_insert (t : Hash) s : Contracts B :=
  set_queue (<[insert_counter s := t]> (DeletionQueue s)) (wrap32 (insert_counter s + 1))
    (delete_counter s) s.

Definition queue_trie_for_deletion (i : ContractInfo) s : Contracts B := queue_insert (trie_id i) s.

(** [DeletionQueueManager::next]. *)
Definition queue_next s : option Hash :=
  if queue_is_empty s then None else DeletionQueue s !! delete_counter s.

(** [DeletionQueueEntry::remove]. *)
Definition entry_remove s : Contracts B :=
  set_queue (delete (delete_counter s) (DeletionQueue s)) (insert_counter s)
    (wrap32 (delete_counter s + 1)) s.

Definition weight_sub (a b : Weight) : Weight :=
  mkWeight (wrap64 (ref_time a - ref_time b)) (wrap64 (proof_size a - proof_size b)).

(** The number of keys is cut to 32 bits. *)
Definition deletion_budget (weight_limit : Weight) : Weight * Z :=
  let weight_per_key := weight_sub (on_initialize_per_trie_key 1) (on_initialize_per_trie_key 0) in
  (weight_per_key,
   wrap32 (default 0 (weight_checked_div
     (weight_saturating_sub weight_limit on_process_deletion_queue_batch) weight_per_key))).

(** [child::kill_storage] on the trie of the next entry. *)
Definition kill_trie (t : Hash) (limit : Z) s : Contracts B * (bool * Z) :=
  let trie := default ∅ (child_tries s !! t) in
  let (rest, removed) := kill_storage limit trie in
  (set_tries (if bool_decide (rest = ∅) then delete t (child_tries s)
              else <[t := rest]> (child_tries s)) s,
   (bool_decide (rest = ∅), removed)).

(** The loop over the queue: the budget that is left, or [None] when it did not suffice for
    a trie.  There is one round per entry. *)
Fixpoint delete_entries (fuel : nat) (budget : Z) s : Contracts B * option Z :=
  match fuel with
  | O => (s, Some budget)
  | S fuel' =>
      if 0 <? budget then
        match queue_next s with
        | None => (s, Some budget)
        | Some t =>
            match kill_trie t budget s with
            | (s', (false, _)) => (s', None)
            | (s', (true, keys_removed)) =>
                delete_entries fuel' (saturating_sub budget keys_removed) (entry_remove s')
            end
        end
      else (s, Some budget)
  end.

Definition process_deletion_queue_batch (weight_limit : Weight) s : Contracts B * Weight :=
  if queue_is_empty s then (s, weight_zero)
  else
    let (weight_per_key, budget) := deletion_budget weight_limit in
    if budget =? 0 then (s, weight_limit)
    else
      match delete_entries (Z.to_nat (wrap32 (insert_counter s - delete_counter s))) budget s with
      | (s', None) => (s', weight_limit)
      | (s', Some rest) =>
          (s', weight_saturating_sub weight_limit (weight_saturating_mul weight_per_key rest))
      end.

(** ** Code (wasm/mod.rs, wasm/prepare.rs) *)

(** [prepare::prepare]; a code that is too long or not valid is refused. *)
Definition from_code (code : list Z) (owner : AccountId) (d : Determinism)
    : result DispatchError WasmBlob :=
  if MaxCodeLen <? Z.of_nat (length code) then RErr (cerr CodeTooLarge)
  else
    match validate_code code d with
    | RErr _ => RErr (cerr CodeRejected)
    | ROk _ =>
        let len := Z.of_nat (length code) in
        let bytes := saturating_add u32_max len code_info_max_len in
        let deposit := charge_or_zero (update_contract (mkDiff bytes 0 2 0) None).1 in
        ROk (mkWasmBlob code (mkCodeInfo owner deposit 0 d len) (system_hash code) None System)
    end.

Definition put_code_info (h : Hash) (i : CodeInfo) s : Contracts B :=
  set_code (<[h := i]> (CodeInfoOf s)) (PristineCode s) s.

(** The deposit taken, 0 when the code is already there. *)
Definition store_code (b : WasmBlob) : CM Balance :=
  known ← gets (λ s, CodeInfoOf s !! blob_hash b);
  match known with
  | Some _ => mret 0
  | None =>
      let deposit := code_deposit (blob_info b) in
      map_err (λ _, cerr StorageDepositNotEnoughFunds)
        (in_balances (lift_bank (cc_reserve (code_owner (blob_info b)) deposit))) ;;
      modify (λ s, set_code (<[blob_hash b := set_refcount 0 (blob_info b)]> (CodeInfoOf s))
                     (<[blob_hash b := blob_code b]> (PristineCode s)) s) ;;
      modify (deposit_event (CodeStored (blob_hash b))) ;;
      mret deposit
  end.

Definition try_remove_code (origin : AccountId) (h : Hash) : CM unit :=
  existing ← gets (λ s, CodeInfoOf s !! h);
  match existing with
  | None => throw (cerr CodeNotFound)
  | Some i =>
      ensure (refcount i =? 0) (cerr CodeInUse) ;;
      ensure (code_owner i =? origin) BadOrigin ;;
      in_balances (modify (cc_unreserve (code_owner i) (code_deposit i))) ;;
      modify (λ s, set_code (delete h (CodeInfoOf s)) (delete h (PristineCode s)) s) ;;
      modify (deposit_event (CodeRemoved h))
  end.

(** [CodeLoadToken::weight]. *)
Definition code_load_weight (len : Z) : Weight :=
  weight_saturating_sub (call_with_code_per_byte len) (call_with_code_per_byte 0).

(** The gas meter that is charged, and the module; a failure after the charge keeps it. *)
Definition from_storage (h : Hash) (g : GasMeter) s : GasMeter * result DispatchError WasmBlob :=
  match CodeInfoOf s !! h with
  | None => (g, RErr (cerr CodeNotFound))
  | Some i =>
      match gas_charge (code_load_weight (code_len i)) g with
      | RErr e => (g, RErr e)
      | ROk g' =>
          match PristineCode s !! h with
          | None => (g', RErr (cerr CodeNotFound))
          | Some code => (g', ROk (mkWasmBlob code i h None VanillaWasm))
          end
      end
  end.

Definition increment_refcount (h : Hash) : CM unit :=
  existing ← gets (λ s, CodeInfoOf s !! h);
  match existing with
  | None => throw (cerr CodeNotFound)
  | Some i => modify (put_code_info h (set_refcount (saturating_add u64_max (refcount i) 1) i))
  end.

Definition decrement_refcount (h : Hash) s : Contracts B :=
  match CodeInfoOf s !! h with
  | None => s
  | Some i => put_code_info h (set_refcount (saturating_sub (refcount i) 1) i) s
  end.
End Store.

(** ** The removal of terminated contracts

    The deletion queue as a list, what a batch removes, and that every queued trie is
    removed after enough batches. *)

(** What is documented of [child::kill_storage]. *)
Class KillLaws `{!ContractsLib} := {
  kill_all limit (t : Trie) : Z.of_nat (size t) ≤ limit → kill_storage limit t = (∅, Z.of_nat (size t));
  kill_some limit (t : Trie) :
    0 ≤ limit < Z.of_nat (size t) →
    ∃ rest, kill_storage limit t = (rest, limit) ∧ rest ⊆ t ∧
      Z.of_nat (size rest) = Z.of_nat (size t) - limit;
}.

Section Queue.
Context {B : Type} `{!ContractsLib} `{!KillLaws}.
Implicit Types s : Contracts B.

(** ** The queue as a list *)

Definition queue_length s : nat := Z.to_nat (wrap32 (insert_counter s - delete_counter s)).

Definition queue_slot s (i : nat) : Z := wrap32 (delete_counter s + Z.of_nat i).

(** [represents s l]: the entries of the queue, in the order of their insertion. *)
Definition represents s (l : list Hash) : Prop :=
  is_u32 (insert_counter s) ∧ is_u32 (delete_counter s) ∧
  Z.of_nat (length l) < 2 ^ 32 ∧ queue_length s = length l ∧
  ∀ i t, l !! i = Some t → DeletionQueue s !! queue_slot s i = Some t.

Lemma slot_0 s : is_u32 (delete_counter s) → queue_slot s 0 = delete_counter s.
Proof. intros Hd. unfold queue_slot, wrap32, is_u32, u32_max in *. rewrite Z.mod_small; lia. Qed.

Lemma represents_empty s l : represents s l → queue_is_empty s = bool_decide (l = []).
Proof.
  intros (_ & _ & Hl & Hq & _). unfold queue_is_empty, queue_length in *.
  assert (0 ≤ wrap32 (insert_counter s - delete_counter s)) as Hw by (apply Z.mod_pos_bound; lia).
  destruct l as [|t l]; cbn in Hl, Hq.
  - rewrite bool_decide_eq_true_2 by done. apply Z.eqb_eq. lia.
  - rewrite bool_decide_eq_false_2 by done. apply Z.eqb_neq. lia.
Qed.

Lemma represents_next s t l : represents s (t :: l) → queue_next s = Some t.
Proof.
  intros Hr. unfold queue_next. rewrite (represents_empty s _ Hr), bool_decide_eq_false_2 by done.
  destruct Hr as (_ & Hd & _ & _ & Hslots). rewrite <- (slot_0 s Hd). by apply Hslots.
Qed.

Lemma wrap_slot s i : queue_slot s i = wrap32 (delete_counter s + Z.of_nat i).
Proof. done. Qed.

(** A new entry is the last one. *)
Lemma insert_represents s l t :
  represents s l → Z.of_nat (length l) + 1 < 2 ^ 32 → represents (queue_insert t s) (l ++ [t]).
Proof.
  intros (Hi & Hd & Hl & Hq & Hslots) Hroom. unfold represents, queue_length, queue_slot, queue_insert in *. cbn.
  unfold wrap32, is_u32, u32_max in *. rewrite length_app. cbn.
  assert (insert_counter s = (delete_counter s + Z.of_nat (length l)) mod 2 ^ 32) as Hins.
  { rewrite <- Hq, Z2Nat.id by (apply Z.mod_pos_bound; lia).
    rewrite Zplus_mod_idemp_r. replace (delete_counter s + _) with (insert_counter s) by lia.
    rewrite Z.mod_small; lia. }
  split; [pose proof (Z.mod_pos_bound (insert_counter s + 1) (2 ^ 32)); lia|]. split; [lia|].
  split; [lia|]. split.
  - rewrite Hins, Zplus_mod_idemp_l, Zminus_mod_idemp_l.
    replace (_ - delete_counter s) with (Z.of_nat (length l) + 1) by lia. rewrite Z.mod_small; lia.
  - intros i u Hiu. rewrite lookup_insert_Some. apply lookup_app_Some in Hiu as [Hiu|[Hge Hiu]].
    + right. split; [|by apply Hslots]. pose proof (lookup_lt_Some _ _ _ Hiu) as Hlt.
      rewrite Hins. intros He.
      assert ((Z.of_nat (length l) - Z.of_nat i) mod 2 ^ 32 = 0) as Hz.
      { replace (Z.of_nat (length l) - Z.of_nat i) with
          ((delete_counter s + Z.of_nat (length l)) - (delete_counter s + Z.of_nat i)) by lia.
        rewrite Zminus_mod, He, Z.sub_diag. done. }
      rewrite Z.mod_small in Hz; lia.
    + left. apply list_lookup_singleton_Some in Hiu as [Hz <-]. split; [|done].
      rewrite Hins. f_equal. lia.
Qed.

(** Removing the first entry. *)
Lemma remove_represents s t l : represents s (t :: l) → represents (entry_remove s) l.
Proof.
  intros (Hi & Hd & Hl & Hq & Hslots). unfold represents, queue_length, queue_slot, entry_remove in *. cbn in *.
  unfold wrap32, is_u32, u32_max in *.
  split; [lia|]. split; [pose proof (Z.mod_pos_bound (delete_counter s + 1) (2 ^ 32)); lia|].
  split; [lia|]. split.
  - rewrite Zminus_mod_idemp_r.
    replace (insert_counter s - (delete_counter s + 1)) with ((insert_counter s - delete_counter s) - 1) by lia.
    rewrite <- Zminus_mod_idemp_l. pose proof (Z.mod_pos_bound (insert_counter s - delete_counter s) (2 ^ 32)).
    rewrite Z.mod_small; lia.
  - intros i u Hiu. rewrite Zplus_mod_idemp_l. pose proof (lookup_lt_Some _ _ _ Hiu) as Hlt.
    rewrite lookup_delete_Some. split.
    + intros He. assert ((1 + Z.of_nat i) mod 2 ^ 32 = 0) as Hz.
      { replace (1 + Z.of_nat i) with ((delete_counter s + 1 + Z.of_nat i) - delete_counter s) by lia.
        rewrite Zminus_mod, <- He, (Z.mod_small (delete_counter s)) by lia.
        by rewrite Z.sub_diag. }
      rewrite Z.mod_small in Hz; lia.
    + specialize (Hslots (S i) u Hiu). rewrite <- Hslots. f_equal. f_equal. lia.
Qed.

(** ** What a batch removes *)

Definition trie_size s (t : Hash) : Z := Z.of_nat (size (default ∅ (child_tries s !! t))).

(** The keys of the tries of some entries. *)
Definition queued_keys s (l : list Hash) : Z := foldr (λ t acc, trie_size s t + acc) 0 l.

Lemma queued_keys_nonneg s l : 0 ≤ queued_keys s l.
Proof. unfold queued_keys, trie_size. induction l; cbn; lia. Qed.

Lemma queued_keys_app s l1 l2 : queued_keys s (l1 ++ l2) = queued_keys s l1 + queued_keys s l2.
Proof. unfold queued_keys. induction l1; cbn; lia. Qed.

Definition shrinks s s' : Prop := ∀ t, trie_size s' t ≤ trie_size s t.

Lemma shrinks_keys s s' l : shrinks s s' → queued_keys s' l ≤ queued_keys s l.
Proof. intros Hs. unfold queued_keys. induction l as [|t l IH]; cbn; [lia|]. specialize (Hs t). lia. Qed.

(** The items a batch does not touch. *)
Definition same_contracts s s' : Prop :=
  c_bank s' = c_bank s ∧ ContractInfoOf s' = ContractInfoOf s ∧ CodeInfoOf s' = CodeInfoOf s ∧
  PristineCode s' = PristineCode s ∧ Nonce s' = Nonce s ∧ c_events s' = c_events s ∧
  insert_counter s' = insert_counter s.

Lemma kill_trie_spec t budget s :
  0 ≤ budget →
  ∃ s' b n, kill_trie t budget s = (s', (b, n)) ∧ same_contracts s s' ∧
    DeletionQueue s' = DeletionQueue s ∧ delete_counter s' = delete_counter s ∧
    (∀ u, u ≠ t → child_tries s' !! u = child_tries s !! u) ∧
    if b then child_tries s' !! t = None ∧ n = trie_size s t ∧ trie_size s t ≤ budget
    else trie_size s' t = trie_size s t - budget ∧ child_tries s !! t ≠ None.
Proof.
  intros Hb. unfold kill_trie, trie_size. set (tr := default ∅ (child_tries s !! t)).
  destruct (Z.le_gt_cases (Z.of_nat (size tr)) budget) as [Hle|Hgt].
  - rewrite (kill_all budget tr Hle), bool_decide_eq_true_2 by done.
    do 3 eexists. split; [done|]. repeat split; cbn; [|by rewrite lookup_delete_eq|done].
    intros u Hu. by rewrite lookup_delete_ne.
  - destruct (kill_some budget tr) as (rest & -> & Hsub & Hsz); [lia|].
    rewrite bool_decide_eq_false_2 by (intros ->; rewrite map_size_empty in Hsz; lia).
    do 3 eexists. split; [done|]. repeat split; cbn.
    + intros u Hu. by rewrite lookup_insert_ne.
    + by rewrite lookup_insert_eq.
    + intros Hn. unfold tr in Hgt. rewrite Hn in Hgt. cbn in Hgt. rewrite map_size_empty in Hgt. lia.
Qed.

(** One run of the loop: the entries are removed from the front, as many as the budget
    allows, and what is left of the first entries has shrunk by the budget. *)
Lemma delete_entries_spec l :
  ∀ budget s, represents s l → 0 ≤ budget →
  ∃ s' r gone rest, delete_entries (length l) budget s = (s', r) ∧ l = gone ++ rest ∧
    represents s' rest ∧ same_contracts s s' ∧ shrinks s s' ∧
    Forall (λ t, child_tries s' !! t = None) gone ∧
    (∀ t, child_tries s !! t = None → child_tries s' !! t = None) ∧
    (∀ t, t ∉ l → child_tries s' !! t = child_tries s !! t) ∧
    (∀ l1 l2, l = l1 ++ l2 → (length l1 ≤ length gone)%nat ∨
       ∃ r1, l1 = gone ++ r1 ∧ queued_keys s' r1 + budget ≤ queued_keys s l1).
Proof.
  induction l as [|t l IH]; intros budget s Hr Hb; cbn [length delete_entries].
  { exists s, (Some budget), [], []. repeat (split; [done|]). split; [intros t; lia|]. split; [done|].
    do 2 (split; [done|]). intros l1 l2 He. destruct l1; [by left; cbn|done]. }
  destruct (0 <? budget) eqn:Hpos.
  2: { apply Z.ltb_ge in Hpos. exists s, (Some budget), [], (t :: l). repeat (split; [done|]).
       split; [intros u; lia|]. do 3 (split; [done|]).
       intros l1 l2 He. right. exists l1. split; [done|]. lia. }
  apply Z.ltb_lt in Hpos. rewrite (represents_next s t l Hr).
  destruct (kill_trie_spec t budget s Hb) as (s1 & b & n & -> & Hsame & Hq & Hdc & Hoth & Hkill).
  assert (Hr1 : represents s1 (t :: l)).
  { unfold represents, queue_length, queue_slot in *. destruct Hsame as (_ & _ & _ & _ & _ & _ & ->).
    by rewrite Hq, Hdc. }
  destruct b.
  - destruct Hkill as (Hgone & -> & Hle). apply remove_represents in Hr1.
    set (s2 := entry_remove s1) in *.
    assert (shrinks s s2) as Hsh.
    { intros u. unfold trie_size. cbn. destruct (decide (u = t)) as [->|Hne].
      - rewrite Hgone. cbn. rewrite map_size_empty. lia.
      - by rewrite Hoth. }
    destruct (IH (saturating_sub budget (trie_size s t)) s2 Hr1) as
      (s' & r & gone & rest & He & Hl & Hrep & Hsame' & Hsh' & Hg & Hnone & Hout & Hsplit);
      [unfold saturating_sub; lia|].
    exists s', r, (t :: gone), rest. rewrite He, Hl. split; [done|]. split; [done|]. split; [done|].
    split; [destruct Hsame as (? & ? & ? & ? & ? & ? & ?), Hsame' as (? & ? & ? & ? & ? & ? & ?);
            unfold same_contracts; cbn in *; repeat split; congruence|].
    split; [intros u; specialize (Hsh u); specialize (Hsh' u); lia|].
    split; [constructor; [by apply Hnone|done]|].
    split. { intros u Hu. apply Hnone. cbn. destruct (decide (u = t)) as [->|Hne]; [done|]. by rewrite Hoth. }
    split. { intros u Hu. rewrite <- Hl in Hu. apply not_elem_of_cons in Hu as [Hne Hu].
             rewrite (Hout u Hu). by apply Hoth. }
    intros [|t' l1] l2 Hs; [left; cbn; lia|]. cbn in Hs. injection Hs as <- Hs.
    destruct (Hsplit l1 l2 ltac:(congruence)) as [Hlen|(r1 & -> & Hk)]; [left; cbn; lia|].
    right. exists r1. split; [done|].
    pose proof (shrinks_keys s s2 (gone ++ r1) Hsh) as Hm. unfold queued_keys in *. cbn.
    unfold saturating_sub in Hk. lia.
  - destruct Hkill as [Hsz Hne]. exists s1, None, [], (t :: l). split; [done|]. split; [done|]. split; [done|].
    split; [done|].
    assert (shrinks s s1) as Hsh.
    { intros u. destruct (decide (u = t)) as [->|Hnu]; [lia|]. unfold trie_size. by rewrite Hoth. }
    split; [done|]. split; [done|].
    split. { intros u Hu. destruct (decide (u = t)) as [->|Hnu]; [done|]. by rewrite Hoth. }
    split. { intros u Hu. apply not_elem_of_cons in Hu as [Hnu _]. by apply Hoth. }
    intros [|t' l1] l2 Hs; [left; cbn; lia|]. cbn in Hs. injection Hs as <- Hs. right.
    exists (t :: l1). split; [done|]. pose proof (shrinks_keys s s1 l1 Hsh) as Hm.
    unfold queued_keys in *. cbn. lia.
Qed.

(** A batch, whatever weight it is given. *)
Lemma batch_spec w s l :
  represents s l →
  ∃ gone rest, l = gone ++ rest ∧
    let s' := (process_deletion_queue_batch w s).1 in
    represents s' rest ∧ same_contracts s s' ∧
    Forall (λ t, child_tries s' !! t = None) gone ∧
    (∀ t, child_tries s !! t = None → child_tries s' !! t = None) ∧
    (∀ t, t ∉ l → child_tries s' !! t = child_tries s !! t) ∧
    (∀ l1 l2, l = l1 ++ l2 → (length l1 ≤ length gone)%nat ∨
       ∃ r1, l1 = gone ++ r1 ∧
         queued_keys s' r1 + (deletion_budget w).2 ≤ queued_keys s l1).
Proof.
  intros Hr. unfold process_deletion_queue_batch. rewrite (represents_empty s l Hr).
  destruct (bool_decide (l = [])) eqn:Hl.
  { apply bool_decide_eq_true in Hl as ->. exists [], []. cbn. repeat (split; [done|]).
    intros l1 l2 He. destruct l1; [by left|done]. }
  destruct (deletion_budget w) as [per_key budget] eqn:Hw. cbn [snd].
  assert (0 ≤ budget) as Hb.
  { assert (budget = (deletion_budget w).2) as -> by by rewrite Hw. apply Z.mod_pos_bound. lia. }
  destruct (budget =? 0) eqn:Hz.
  { apply Z.eqb_eq in Hz as ->. exists [], l. cbn. repeat (split; [done|]).
    intros l1 l2 He. right. exists l1. split; [done|]. lia. }
  assert (Z.to_nat (wrap32 (insert_counter s - delete_counter s)) = length l) as -> by apply Hr.
  destruct (delete_entries_spec l budget s Hr Hb) as
    (s' & r & gone & rest & -> & Hlr & Hrep & Hsame & _ & Hg & Hnone & Hout & Hsplit).
  exists gone, rest. split; [done|]. by destruct r.
Qed.

(** ** Properties *)

(** What happens to the queue: contracts are terminated, and blocks have weight left. *)
Inductive QueueOp := QTerminate (t : Hash) | QBatch (weight_limit : Weight).

Definition queue_op (o : QueueOp) s : Contracts B :=
  match o with
  | QTerminate t => queue_insert t s
  | QBatch w => (process_deletion_queue_batch w s).1
  end.

Definition run_queue (ops : list QueueOp) s : Contracts B := fold_left (λ s o, queue_op o s) ops s.

(** The keys the batches can remove, and the contracts terminated. *)
Definition queue_budget (ops : list QueueOp) : Z :=
  foldr (λ o acc, match o with QBatch w => (deletion_budget w).2 | _ => 0 end + acc) 0 ops.
Definition queue_growth (ops : list QueueOp) : Z :=
  foldr (λ o acc, match o with QTerminate _ => 1 | _ => 0 end + acc) 0 ops.
Definition terminated_in (ops : list QueueOp) : list Hash :=
  flat_map (λ o, match o with QTerminate t => [t] | _ => [] end) ops.

Lemma run_queue_spec ops :
  ∀ s rest new, represents s (rest ++ new) →
  Z.of_nat (length (rest ++ new)) + queue_growth ops < 2 ^ 32 →
  let s' := run_queue ops s in
  (∃ l', represents s' l') ∧ ContractInfoOf s' = ContractInfoOf s ∧ c_bank s' = c_bank s ∧
  (∀ t, child_tries s !! t = None → child_tries s' !! t = None) ∧
  (∀ t, t ∉ rest ++ new → t ∉ terminated_in ops → child_tries s' !! t = child_tries s !! t) ∧
  (queued_keys s rest < queue_budget ops → Forall (λ t, child_tries s' !! t = None) rest).
Proof.
  induction ops as [|[t|w] ops IH]; intros s rest new Hr Hroom; cbn zeta; cbn [run_queue fold_left].
  - split; [by eexists|]. do 4 (split; [done|]). intros Hk. pose proof (queued_keys_nonneg s rest). cbn in Hk. lia.
  - unfold queue_growth in Hroom. cbn in Hroom. fold (queue_growth ops) in Hroom.
    assert (0 ≤ queue_growth ops) as Hg.
    { clear. unfold queue_growth. induction ops as [|[] ops IH]; cbn; lia. }
    destruct (IH (queue_insert t s) rest (new ++ [t])) as (Hrep & Hi & Hbk & Hn & Ho & Hf).
    { rewrite app_assoc. apply insert_represents; [done|lia]. }
    { rewrite app_assoc, length_app. cbn. lia. }
    do 3 (split; [done|]). split; [done|]. split; [|exact Hf].
    intros u Hu Ht. cbn in Ht. apply not_elem_of_cons in Ht as [Hne Ht].
    apply Ho; [|done]. rewrite app_assoc. intros [Hin|Hin%list_elem_of_singleton]%elem_of_app; done.
  - destruct (batch_spec w s (rest ++ new) Hr) as (gone & rest' & Hl & Hr1 & Hsame & Hg & Hn1 & Ho1 & Hsplit).
    set (s1 := (process_deletion_queue_batch w s).1) in *.
    unfold queue_growth in Hroom. cbn in Hroom. fold (queue_growth ops) in Hroom.
    assert (Hlen : length (rest ++ new) = (length gone + length rest')%nat) by (by rewrite Hl, length_app).
    assert (Hgone : ∀ u, u ∉ rest ++ new → u ∉ rest').
    { intros u Hu Hin. apply Hu. rewrite Hl. apply elem_of_app. by right. }
    destruct Hsame as (Hbk1 & Hi1 & _).
    destruct (Hsplit rest new eq_refl) as [Hle|(r1 & -> & Hk)].
    + destruct (IH s1 [] rest' Hr1 ltac:(cbn; lia)) as (Hrep & Hi & Hbk & Hn & Ho & _).
      split; [done|]. split; [exact (eq_trans Hi Hi1)|].
      split; [exact (eq_trans Hbk Hbk1)|]. split; [auto|]. split.
      * intros u Hu Ht. transitivity (child_tries s1 !! u); [apply Ho; [cbn; auto|done]|by apply Ho1].
      * intros _. apply Forall_forall. intros u Hu. apply Hn. rewrite Forall_forall in Hg. apply Hg.
        assert (rest = take (length rest) gone) as Hrest.
        { by rewrite <- (take_app_le gone rest' (length rest)), <- Hl, take_app_length by done. }
        rewrite Hrest in Hu. apply elem_of_take in Hu as (i & Hu & _). by eapply list_elem_of_lookup_2.
    + rewrite <- app_assoc in Hl. apply app_inv_head in Hl. subst rest'.
      destruct (IH s1 r1 new Hr1 ltac:(lia)) as (Hrep & Hi & Hbk & Hn & Ho & Hf).
      split; [done|]. split; [exact (eq_trans Hi Hi1)|].
      split; [exact (eq_trans Hbk Hbk1)|]. split; [auto|]. split.
      * intros u Hu Ht. transitivity (child_tries s1 !! u); [apply Ho; auto|by apply Ho1].
      * intros Hb. change (queue_budget (QBatch w :: ops)) with ((deletion_budget w).2 + queue_budget ops) in Hb.
        apply Forall_app. split; [|apply Hf; lia].
        eapply Forall_impl; [exact Hg|]. auto.
Qed.

End Queue.
