(* ===== verification/Exec.v ===== *)
(** * Execution of contracts

    [pallets/contracts/src/exec.rs], with [WasmBlob::execute] of [wasm/mod.rs] and
    [Runtime::to_execution_result] of [wasm/runtime.rs].

    - [Prog]: what a contract does, as a tree over the functions of the trait [Ext]; the
      wasm engine gives it for a module ([WasmEngine]).  What is constant during a call (the
      time, the block, randomness, prices, signatures) is part of the tree.  A contract
      never gets to [call_runtime], which every runtime filters out.
    - [Frame], [Stack]: the frames of a call, each with its meters and a cache of the
      information on its contract.
    - [run_frame]: the top frame runs in a storage transaction, calls push further frames. *)

From S2P Require Import Prelude Types AccountManager StandardAbi ContractsRegistry ThreeVm Gas Deposits WasmModule ContractStore.

(** ** Results *)

Inductive ErrorOrigin := Caller | Callee.

Record ExecError := mkExecError { exec_error : DispatchError; error_origin : ErrorOrigin }.

Record ExecReturnValue := mkReturn { ret_flags : Z; ret_data : list Z }.

Definition REVERT : Z := 1.
(** [ReturnFlags::from_bits]: only the flag [REVERT] is known. *)
Definition flags_from_bits (bits : Z) : option Z :=
  if (bits =? 0) || (bits =? REVERT) then Some bits else None.
Definition did_revert (r : ExecReturnValue) : bool := Z.land (ret_flags r) REVERT =? REVERT.

(** How the engine stopped. *)
Inductive SandboxResult :=
| SandboxDone
| StoreError
| OutOfFuel
| TrapReturn (flags : Z) (data : list Z)
| TrapTermination
| SupervisorError (e : DispatchError)
| OtherTrap
| EngineError.

Definition to_execution_result (r : SandboxResult) : result DispatchError ExecReturnValue :=
  match r with
  | SandboxDone => ROk (mkReturn 0 [])
  | StoreError => RErr (cerr OutOfGas)
  | OutOfFuel => RErr (cerr OutOfGas)
  | TrapReturn flags data =>
      match flags_from_bits flags with
      | Some f => ROk (mkReturn f data)
      | None => RErr (cerr InvalidCallFlags)
      end
  | TrapTermination => ROk (mkReturn 0 [])
  | SupervisorError e => RErr e
  | OtherTrap => RErr (cerr ContractTrapped)
  | EngineError => RErr (cerr CodeRejected)
  end.

(** ** Programs *)

(** The functions of [Ext] that concern the top frame only, with their answers. *)
Inductive ExtOp : Type → Type :=
| OpTransfer (to : AccountId) (value : Balance) : ExtOp (result DispatchError unit)
| OpGetStorage (key : Key) : ExtOp (option (list Z))
| OpGetStorageSize (key : Key) : ExtOp (option Z)
| OpSetStorage (key : Key) (value : option (list Z)) (take_old : bool) : ExtOp WriteOutcome
| OpSetCodeHash (h : Hash) : ExtOp (result DispatchError unit)
| OpOwnCodeHash : ExtOp Hash
| OpNonce : ExtOp Z
| OpDepositEvent (data : list Z) : ExtOp unit
| OpChargeGas (amount : Weight) : ExtOp (result DispatchError unit)
| OpAdjustGas (charged actual : Weight) : ExtOp unit
| OpChargeFuel (wasmi_fuel_total : Z) : ExtOp (result DispatchError Weight)
| OpGasLeft : ExtOp Weight
| OpCaller : ExtOp Origin
| OpIsContract (a : AccountId) : ExtOp bool
| OpCodeHash (a : AccountId) : ExtOp (option Hash)
| OpCallerIsOrigin : ExtOp bool
| OpCallerIsRoot : ExtOp bool
| OpAddress : ExtOp AccountId
| OpBalance : ExtOp Balance
| OpValueTransferred : ExtOp Balance
| OpReentranceCount : ExtOp Z
| OpAccountReentranceCount (a : AccountId) : ExtOp Z.

(** A program ends with the fuel the engine has used.  Terminating ends it, whether it
    succeeds or not. *)
Inductive Prog : Type :=
| PEnd (fuel_total : Z) (r : SandboxResult)
| PTerminate (beneficiary : AccountId) (fuel_total : Z)
| PDo {A : Type} (op : ExtOp A) (k : A → Prog)
| PCall (gas_limit : Weight) (deposit_limit : Balance) (to : AccountId) (value : Balance)
    (input_data : list Z) (allows_reentry : bool) (k : result ExecError ExecReturnValue → Prog)
| PDelegateCall (code : Hash) (input_data : list Z) (k : result ExecError ExecReturnValue → Prog)
| PInstantiate (gas_limit : Weight) (deposit_limit : Balance) (code : Hash) (value : Balance)
    (input_data salt : list Z) (k : result ExecError (AccountId * ExecReturnValue) → Prog).

Inductive ExportedFunction := Constructor | CallFunction.

#[export] Instance ExportedFunction_eq_dec : EqDecision ExportedFunction.
Proof. solve_decision. Defined.

(** [ExportedFunction::identifier]. *)
Definition identifier (f : ExportedFunction) : string :=
  match f with Constructor => "deploy" | CallFunction => "call" end%string.

(** The engine: what the entry point of an instance does with some input and fuel. *)
Class WasmEngine := {
  wasm_program : WasmModule → ExportedFunction → list Z → Z → Prog;
  (** [Schedule::instruction_weights.base]. *)
  instruction_base : Z;
}.

(** The first steps of [WasmBlob::execute]: a module that cannot be instantiated, one whose
    entry point is missing, or the program of the entry point. *)
Definition load_module `{!ContractsLib} `{!WasmEngine} (b : WasmBlob) (f : ExportedFunction) (input : list Z)
    : option (option (Z → Prog)) :=
  match instantiate (blob_code b) (determinism_of (blob_info b)) (bool_decide (f = CallFunction)) with
  | RErr _ => None
  | ROk m => Some (if exports_function (identifier f) m then Some (wasm_program m f input) else None)
  end.

(** ** Frames *)

Inductive CachedContract :=
| Cached (i : ContractInfo)
| Invalidated
| CTerminated (deposit_account : AccountId).

Definition as_contract (c : CachedContract) : option ContractInfo :=
  match c with Cached i => Some i | _ => None end.

Definition cached_deposit_account (c : CachedContract) : option AccountId :=
  match c with
  | Cached i => Some (deposit_account i)
  | CTerminated a => Some a
  | Invalidated => None
  end.

Record Frame := mkFrame {
  account_id : AccountId;
  contract_info : CachedContract;
  value_transferred : Balance;
  entry_point : ExportedFunction;
  nested_gas : GasMeter;
  nested_storage : NestedMeter;
  frame_reentry : bool;
  delegate_caller : option Origin;
}.

Definition set_info (c : CachedContract) (f : Frame) : Frame :=
  mkFrame (account_id f) c (value_transferred f) (entry_point f) (nested_gas f) (nested_storage f)
    (frame_reentry f) (delegate_caller f).
Definition set_gas (g : GasMeter) (f : Frame) : Frame :=
  mkFrame (account_id f) (contract_info f) (value_transferred f) (entry_point f) g
    (nested_storage f) (frame_reentry f) (delegate_caller f).
Definition set_storage_meter (m : NestedMeter) (f : Frame) : Frame :=
  mkFrame (account_id f) (contract_info f) (value_transferred f) (entry_point f) (nested_gas f) m
    (frame_reentry f) (delegate_caller f).
Definition set_reentry (b : bool) (f : Frame) : Frame :=
  mkFrame (account_id f) (contract_info f) (value_transferred f) (entry_point f) (nested_gas f)
    (nested_storage f) b (delegate_caller f).

(** [FrameArgs]. *)
Inductive FrameArgs :=
| ArgsCall (dest : AccountId) (cached_info : option ContractInfo)
    (delegated_call : option (WasmBlob * Origin))
| ArgsInstantiate (sender : AccountId) (nonce : Z) (executable : WasmBlob) (salt input_data : list Z).

(** [frames] has the top first; the first frame of all is apart. *)
Record Stack := mkStack {
  s_origin : Origin;
  s_gas : GasMeter;
  s_storage : Meter;
  s_nonce : option Z;
  s_frames : list Frame;
  first_frame : Frame;
  s_determinism : Determinism;
}.

(** [Config::CallStack] is an array of five frames in every runtime. *)
Definition CallStack_size : nat := 5.

Definition top_frame (k : Stack) : Frame :=
  match s_frames k with f :: _ => f | [] => first_frame k end.
(** The frames that are not on top. *)
Definition lower_frames (k : Stack) : list Frame :=
  match s_frames k with _ :: l => l ++ [first_frame k] | [] => [] end.
Definition frames (k : Stack) : list Frame := s_frames k ++ [first_frame k].

Definition with_frames (l : list Frame) (first : Frame) (k : Stack) : Stack :=
  mkStack (s_origin k) (s_gas k) (s_storage k) (s_nonce k) l first (s_determinism k).
Definition update_top (g : Frame → Frame) (k : Stack) : Stack :=
  match s_frames k with
  | f :: l => with_frames (g f :: l) (first_frame k) k
  | [] => with_frames [] (g (first_frame k)) k
  end.
Definition set_stack_nonce (n : option Z) (k : Stack) : Stack :=
  mkStack (s_origin k) (s_gas k) (s_storage k) n (s_frames k) (first_frame k) (s_determinism k).

(** [Stack::caller]. *)
Definition stack_caller (k : Stack) : Origin :=
  match delegate_caller (top_frame k) with
  | Some c => c
  | None =>
      match lower_frames k with
      | f :: _ => OriginSigned (account_id f)
      | [] => s_origin k
      end
  end.

Definition is_recursive (k : Stack) : bool :=
  existsb (λ f, account_id f =? account_id (top_frame k)) (lower_frames k).

Definition allows_reentry (k : Stack) (a : AccountId) : bool :=
  negb (existsb (λ f, (account_id f =? a) && negb (frame_reentry f)) (frames k)).

Definition account_reentrance_count (k : Stack) (a : AccountId) : Z :=
  Z.of_nat (length (List.filter (λ f, negb (bool_decide (is_Some (delegate_caller f))) &&
    (account_id f =? a)) (frames k))).

Section Exec.
Context {B : Type} `{!ContractsCurrency B} `{!Hashing} `{!ContractsLib} `{!WasmEngine}.
Implicit Types s : Contracts B.

Record XState := mkX { x_stack : Stack; x_store : Contracts B }.

Definition on_stack (g : Stack → Stack) (x : XState) : XState := mkX (g (x_stack x)) (x_store x).
Definition set_store s (x : XState) : XState := mkX (x_stack x) s.
Definition on_top (g : Frame → Frame) : XState → XState := on_stack (update_top g).
Definition x_top (x : XState) : Frame := top_frame (x_stack x).

Abbreviation XM := (M XState ExecError).
(** An operation whose errors are plain. *)
Abbreviation DM := (M XState DispatchError).

(** [impl From<T: Into<DispatchError>> for ExecError]. *)
Definition from_dispatch (e : DispatchError) : ExecError := mkExecError e Caller.

Definition in_store {A} (m : M (Contracts B) DispatchError A) : DM A := zoom x_store set_store m.

(** ** The information on the contract of the top frame *)

(** [CachedContract::load]. *)
Definition load_cached s (a : AccountId) (c : CachedContract) : CachedContract :=
  match c with
  | Invalidated =>
      match ContractInfoOf s !! a with Some i => Cached i | None => Invalidated end
  | _ => c
  end.
Definition load_top (x : XState) : XState :=
  on_top (λ f, set_info (load_cached (x_store x) (account_id f) (contract_info f)) f) x.

(** [CachedContract::get], which panics. *)
Definition get_info {E} : M XState E ContractInfo :=
  modify load_top ;;
  f ← gets x_top;
  expect (as_contract (contract_info f)).

(** ** Gas of the top frame *)

Definition get_top_gas {E} : M XState E GasMeter := gets (λ x, nested_gas (x_top x)).
Definition set_top_gas (g : GasMeter) : XState → XState := on_top (set_gas g).

(** [E::from_storage] with the meter of the top frame. *)
Definition load_executable (h : Hash) : DM WasmBlob := λ x,
  match from_storage h (nested_gas (x_top x)) (x_store x) with
  | (g, ROk b) => Ok b (set_top_gas g x)
  | (g, RErr e) => Err e (set_top_gas g x)
  end.

(** ** New frames *)

(** The meters of the caller are its gas meter, which is charged, and its storage meter.
    The module of a call is loaded at its cost. *)
Definition new_frame {St} (args : FrameArgs) (value : Balance) (gas_limit : Weight)
    (storage : RawMeter St) (deposit_limit : Balance) (d : Determinism) (g : GasMeter) s
    : GasMeter * result DispatchError (Frame * WasmBlob * option Z) :=
  let finish g a info executable delegated entry nonce :=
    if is_deterministic executable ||
       (bool_decide (d = Relaxed) && bool_decide (entry = CallFunction))
    then
      match gas_nested gas_limit g with
      | RErr e => (g, RErr e)
      | ROk (g', nested) =>
          (g', ROk (mkFrame a (Cached info) value entry nested (meter_nest deposit_limit storage)
                      true delegated, executable, nonce))
      end
    else (g, RErr (cerr Indeterministic)) in
  match args with
  | ArgsCall dest cached_info delegated_call =>
      match match cached_info with Some i => Some i | None => ContractInfoOf s !! dest end with
      | None => (g, RErr (cerr NoContractFound))
      | Some contract =>
          match delegated_call with
          | Some (executable, caller) =>
              finish g dest contract executable (Some caller) CallFunction None
          | None =>
              match from_storage (code_hash contract) g s with
              | (g', RErr e) => (g', RErr e)
              | (g', ROk executable) => finish g' dest contract executable None CallFunction None
              end
          end
      end
  | ArgsInstantiate sender nonce executable salt input_data =>
      let a := contract_address sender (blob_hash executable) input_data salt in
      match contract_info_new a nonce (blob_hash executable) s with
      | ROk info => finish g a info executable None Constructor (Some nonce)
      | RErr e => (g, RErr e)
      end
  end.

Definition store_info (a : AccountId) (i : ContractInfo) s : Contracts B :=
  set_infos (<[a := i]> (ContractInfoOf s)) s.

(** The information of a called contract is written before it is left for another frame. *)
Definition persist_top (x : XState) : XState :=
  match contract_info (x_top x), entry_point (x_top x) with
  | Cached i, CallFunction => set_store (store_info (account_id (x_top x)) i (x_store x)) x
  | _, _ => x
  end.

Definition push (f : Frame) (k : Stack) : Stack :=
  with_frames (f :: s_frames k) (first_frame k) k.

(** The new frame takes its meters from the top frame. *)
Definition push_new (args : FrameArgs) (value : Balance) (gas_limit : Weight)
    (deposit_limit : Balance) : DM WasmBlob := λ x,
  match new_frame args value gas_limit (nested_storage (x_top x)) deposit_limit
          (s_determinism (x_stack x)) (nested_gas (x_top x)) (x_store x) with
  | (g, ROk (f, executable, _)) => Ok executable (on_stack (push f) (set_top_gas g x))
  | (g, RErr e) => Err e (set_top_gas g x)
  end.

Definition push_frame (args : FrameArgs) (value : Balance) (gas_limit : Weight)
    (deposit_limit : Balance) : DM WasmBlob :=
  depth ← gets (λ x, length (s_frames (x_stack x)));
  ensure (negb (depth =? CallStack_size)%nat) (cerr MaxCallDepthReached) ;;
  modify persist_top ;;
  push_new args value gas_limit deposit_limit.

(** ** Leaving a frame *)

(** The first cache of the account below the next frame, if there is one, becomes stale. *)
Fixpoint invalidate (a : AccountId) (l : list Frame) : list Frame :=
  match l with
  | [] => []
  | f :: l' => if account_id f =? a then set_info Invalidated f :: l' else f :: invalidate a l'
  end.

(** All but the top of the frames, as [frames_mut().skip(1)] sees them. *)
Definition invalidate_lower (a : AccountId) (k : Stack) : Stack :=
  match s_frames k with
  | [] => k
  | f :: l =>
      if existsb (λ f, account_id f =? a) l
      then with_frames (f :: invalidate a l) (first_frame k) k
      else if account_id (first_frame k) =? a
      then with_frames (f :: l) (set_info Invalidated (first_frame k)) k
      else k
  end.

Definition revert_nonce (k : Stack) : Stack :=
  set_stack_nonce ((λ n, wrap64 (n - 1)) <$> s_nonce k) k.

(** The frame [f] has been popped; [persist] is [true]. *)
Definition pop_nested (f : Frame) : XM unit :=
  s ← gets x_store;
  let info := load_cached s (account_id f) (contract_info f) in
  deposit_account_ ← expect (cached_deposit_account info);
  prev ← gets x_top;
  let (meter, contract) :=
    absorb (nested_storage f) deposit_account_ (as_contract info) (nested_storage prev) in
  modify (on_top (set_storage_meter meter)) ;;
  match contract with
  | None => mret tt
  | Some i =>
      if account_id prev =? account_id f then modify (on_top (set_info (Cached i)))
      else
        modify (λ x, set_store (store_info (account_id f) i (x_store x)) x) ;;
        modify (on_stack (invalidate_lower (account_id f)))
  end.

Definition set_root (g : GasMeter) (m : Meter) (first : Frame) (k : Stack) : Stack :=
  mkStack (s_origin k) g m (s_nonce k) (s_frames k) first (s_determinism k).

(** The last frame; its meters are taken out. *)
Definition pop_first (persist : bool) : XM unit :=
  k ← gets x_stack;
  let first := first_frame k in
  let gas := absorb_nested (nested_gas first) (s_gas k) in
  let emptied := set_gas gas_meter_default first in
  modify (on_stack (set_root gas (s_storage k) emptied)) ;;
  if negb persist then mret tt
  else
    deposit_account_ ← expect (cached_deposit_account (contract_info first));
    let (meter, contract) :=
      absorb (nested_storage first) deposit_account_ (as_contract (contract_info first)) (s_storage k) in
    modify (on_stack (set_root gas meter (set_storage_meter nested_default emptied))) ;;
    match contract with
    | Some i =>
        modify (on_stack (set_root gas meter (set_info (Cached i) (set_storage_meter nested_default emptied)))) ;;
        modify (λ x, set_store (store_info (account_id first) i (x_store x)) x)
    | None => mret tt
    end ;;
    match s_nonce k with
    | Some n => modify (λ x, set_store (set_nonce n (x_store x)) x)
    | None => mret tt
    end.

Definition pop_frame (persist : bool) : XM unit :=
  f ← gets x_top;
  (if negb persist && bool_decide (entry_point f = Constructor)
   then modify (on_stack revert_nonce) else mret tt) ;;
  l ← gets (λ x, s_frames (x_stack x));
  match l with
  | [] => pop_first persist
  | f :: rest =>
      modify (on_stack (λ k, with_frames rest (first_frame k) k)) ;;
      modify (on_top (λ prev, set_gas (absorb_nested (nested_gas f) (nested_gas prev)) prev)) ;;
      if persist then pop_nested f else mret tt
  end.

(** ** Functions of [Ext] on the top frame *)

(** [Stack::transfer]. *)
Definition transfer_kept (from to : AccountId) (value : Balance) : DM unit :=
  map_err (λ _, cerr TransferFailed)
    (in_store (in_balances (lift_bank (cc_transfer from to value true)))).

Definition ext_transfer (to : AccountId) (value : Balance) : DM unit :=
  f ← gets x_top; transfer_kept (account_id f) to value.

Definition ext_get_storage (key : Key) : XM (option (list Z)) :=
  i ← get_info; gets (λ x, info_read (x_store x) i key).
Definition ext_get_storage_size (key : Key) : XM (option Z) :=
  i ← get_info; gets (λ x, info_size (x_store x) i key).

Definition ext_set_storage (key : Key) (value : option (list Z)) (take_old : bool) : XM WriteOutcome :=
  i ← get_info;
  f ← gets x_top;
  '(m, w) ← map_err from_dispatch (in_store (info_write i key value take_old (nested_storage f)));
  modify (on_top (set_storage_meter m)) ;;
  mret w.

Definition emit (e : ContractsEvent) {E} : M XState E unit :=
  modify (λ x, set_store (deposit_event e (x_store x)) x).

Definition ext_set_code_hash (h : Hash) : DM unit :=
  b ← load_executable h;
  ensure (is_deterministic b) (cerr Indeterministic) ;;
  in_store (increment_refcount h) ;;
  i ← get_info;
  modify (λ x, set_store (decrement_refcount (code_hash i) (x_store x)) x) ;;
  modify (on_top (set_info (Cached (set_code_hash_of h i)))) ;;
  f ← gets x_top;
  emit (ContractCodeUpdated (account_id f) h (code_hash i)).

(** [Ext::nonce], which caches the one in storage. *)
Definition ext_nonce {E} : M XState E Z :=
  x ← gets id;
  let n := default (Nonce (x_store x)) (s_nonce (x_stack x)) in
  modify (on_stack (set_stack_nonce (Some n))) ;;
  mret n.
Definition next_nonce {E} : M XState E Z :=
  n ← ext_nonce;
  modify (on_stack (set_stack_nonce (Some (wrap64 (n + 1))))) ;;
  mret (wrap64 (n + 1)).

Definition ext_charge_gas (amount : Weight) : DM unit :=
  g ← get_top_gas;
  g' ← lift_result (gas_charge amount g);
  modify (set_top_gas g').
Definition ext_charge_fuel (total : Z) : DM Weight := λ x,
  match charge_fuel instruction_base total (nested_gas (x_top x)) with
  | (g, ROk w) => Ok w (set_top_gas g x)
  | (g, RErr e) => Err e (set_top_gas g x)
  end.

Definition caller_is_origin (k : Stack) : bool := bool_decide (s_origin k = stack_caller k).

Definition ext_op {A} (op : ExtOp A) : XM A :=
  match op with
  | OpTransfer to value => attempt (ext_transfer to value)
  | OpGetStorage key => ext_get_storage key
  | OpGetStorageSize key => ext_get_storage_size key
  | OpSetStorage key value take_old => ext_set_storage key value take_old
  | OpSetCodeHash h => attempt (ext_set_code_hash h)
  | OpOwnCodeHash => i ← get_info; mret (code_hash i)
  | OpNonce => ext_nonce
  | OpDepositEvent data =>
      f ← gets x_top; emit (ContractEmitted (account_id f) data)
  | OpChargeGas w => attempt (ext_charge_gas w)
  | OpAdjustGas c a => g ← get_top_gas; modify (set_top_gas (adjust_gas c a g))
  | OpChargeFuel n => attempt (ext_charge_fuel n)
  | OpGasLeft => g ← get_top_gas; mret (gas_left g)
  | OpCaller => gets (λ x, stack_caller (x_stack x))
  | OpIsContract a => gets (λ x, bool_decide (is_Some (ContractInfoOf (x_store x) !! a)))
  | OpCodeHash a => gets (λ x, code_hash <$> ContractInfoOf (x_store x) !! a)
  | OpCallerIsOrigin => gets (λ x, caller_is_origin (x_stack x))
  | OpCallerIsRoot =>
      gets (λ x, caller_is_origin (x_stack x) && bool_decide (s_origin (x_stack x) = OriginRoot))
  | OpAddress => gets (λ x, account_id (x_top x))
  | OpBalance => gets (λ x, cc_free_balance (c_bank (x_store x)) (account_id (x_top x)))
  | OpValueTransferred => gets (λ x, value_transferred (x_top x))
  | OpReentranceCount =>
      gets (λ x, saturating_sub (account_reentrance_count (x_stack x) (account_id (x_top x))) 1)
  | OpAccountReentranceCount a => gets (λ x, account_reentrance_count (x_stack x) a)
  end.

(** The contract is removed at once, its trie is queued. *)
Definition ext_terminate (beneficiary : AccountId) : DM unit :=
  recursive ← gets (λ x, is_recursive (x_stack x));
  ensure (negb recursive) (cerr TerminatedWhileReentrant) ;;
  info ← get_info;
  f ← gets x_top;
  let a := account_id f in
  modify (on_top (set_info (CTerminated (deposit_account info)))) ;;
  modify (on_top (λ f, set_storage_meter (meter_terminate info (nested_storage f)) f)) ;;
  in_store (in_balances (modify (dec_consumers a))) ;;
  value ← gets (λ x, reducible_expendable (c_bank (x_store x)) a);
  in_store (in_balances (lift_bank (cc_transfer a beneficiary value false))) ;;
  modify (λ x, set_store (queue_trie_for_deletion info (x_store x)) x) ;;
  modify (λ x, set_store (set_infos (delete a (ContractInfoOf (x_store x))) (x_store x)) x) ;;
  modify (λ x, set_store (decrement_refcount (code_hash info) (x_store x)) x) ;;
  emit (EvTerminated a beneficiary).

(** ** Calls *)

(** The frame of a called contract whose cache may be used. *)
Definition cached_for (a : AccountId) (k : Stack) : option ContractInfo :=
  match List.find (λ f, bool_decide (entry_point f = CallFunction) && (account_id f =? a)) (frames k) with
  | Some f => as_contract (contract_info f)
  | None => None
  end.

Section Calls.
(** [Stack::run] on the frame that was pushed. *)
Context (run : WasmBlob → list Z → XM ExecReturnValue).

Definition try_call (gas_limit : Weight) (deposit_limit : Balance) (to : AccountId)
    (value : Balance) (input_data : list Z) : XM ExecReturnValue :=
  allowed ← gets (λ x, allows_reentry (x_stack x) to);
  ensure allowed (from_dispatch (cerr ReentranceDenied)) ;;
  cached_info ← gets (λ x, cached_for to (x_stack x));
  executable ← map_err from_dispatch
    (push_frame (ArgsCall to cached_info None) value gas_limit deposit_limit);
  run executable input_data.

(** The protection against reentrance is set for the time of the call. *)
Definition ext_call (gas_limit : Weight) (deposit_limit : Balance) (to : AccountId)
    (value : Balance) (input_data : list Z) (allows_reentry_ : bool)
    : XM (result ExecError ExecReturnValue) :=
  modify (on_top (set_reentry allows_reentry_)) ;;
  r ← attempt (try_call gas_limit deposit_limit to value input_data);
  modify (on_top (set_reentry true)) ;;
  mret r.

Definition ext_delegate_call (h : Hash) (input_data : list Z) : XM ExecReturnValue :=
  executable ← map_err from_dispatch (load_executable h);
  info ← get_info;
  f ← gets x_top;
  caller ← gets (λ x, stack_caller (x_stack x));
  executable ← map_err from_dispatch
    (push_frame (ArgsCall (account_id f) (Some info) (Some (executable, caller)))
       (value_transferred f) weight_zero 0);
  run executable input_data.

Definition ext_instantiate (gas_limit : Weight) (deposit_limit : Balance) (h : Hash)
    (value : Balance) (input_data salt : list Z) : XM (AccountId * ExecReturnValue) :=
  executable ← map_err from_dispatch (load_executable h);
  nonce ← next_nonce;
  f ← gets x_top;
  executable ← map_err from_dispatch
    (push_frame (ArgsInstantiate (account_id f) nonce executable salt input_data)
       value gas_limit deposit_limit);
  new ← gets x_top;
  ret ← run executable input_data;
  mret (account_id new, ret).

Fixpoint exec_prog (p : Prog) : XM (Z * SandboxResult) :=
  match p with
  | PEnd fuel r => mret (fuel, r)
  | PTerminate beneficiary fuel =>
      r ← attempt (ext_terminate beneficiary);
      mret (fuel, match r with ROk _ => TrapTermination | RErr e => SupervisorError e end)
  | PDo op k => a ← ext_op op; exec_prog (k a)
  | PCall gas_limit deposit_limit to value input_data reentry k =>
      r ← ext_call gas_limit deposit_limit to value input_data reentry;
      exec_prog (k r)
  | PDelegateCall h input_data k =>
      r ← attempt (ext_delegate_call h input_data);
      exec_prog (k r)
  | PInstantiate gas_limit deposit_limit h value input_data salt k =>
      r ← attempt (ext_instantiate gas_limit deposit_limit h value input_data salt);
      exec_prog (k r)
  end.

(** [WasmBlob::execute]. *)
Definition execute (b : WasmBlob) (function : ExportedFunction) (input_data : list Z)
    : XM ExecReturnValue :=
  entry ← ok_or (load_module b function input_data) (from_dispatch (cerr CodeRejected));
  ensure (negb (instruction_base =? 0)) (from_dispatch (cerr InvalidSchedule)) ;;
  g ← get_top_gas;
  let fuel_limit := ref_time (gas_left g) / instruction_base in
  prog ← ok_or entry (from_dispatch (cerr CodeRejected));
  (if bool_decide (function = Constructor)
   then map_err from_dispatch (in_store (increment_refcount (blob_hash b))) else mret tt) ;;
  '(fuel, r) ← exec_prog (prog fuel_limit);
  map_err from_dispatch (ext_charge_fuel fuel) ;;
  map_err from_dispatch (lift_result (to_execution_result r)).
End Calls.

(** ** Running a frame *)

Definition charge_new_contract : DM unit :=
  x ← gets id;
  origin ← lift_result (origin_account_id (s_origin (x_stack x)));
  info ← get_info;
  f ← gets x_top;
  '(m, info) ← in_store (in_balances
    (charge_instantiate origin (account_id f) info (nested_storage f)));
  modify (on_top (set_storage_meter m)) ;;
  modify (on_top (set_info (Cached info))).

Definition initial_transfer : DM unit :=
  f ← gets x_top;
  if bool_decide (is_Some (delegate_caller f)) then mret tt
  else
    caller ← gets (λ x, stack_caller (x_stack x));
    match caller with
    | OriginSigned c => transfer_kept c (account_id f) (value_transferred f)
    | OriginRoot => if value_transferred f =? 0 then mret tt else throw RootNotAllowed
    end.

(** A check of the top frame's meter, which updates the cached information. *)
Definition enforce (check : option ContractInfo → NestedMeter → (NestedMeter * option ContractInfo) * bool)
    : DM unit :=
  f ← gets x_top;
  let '((m, info), ok) := check (as_contract (contract_info f)) (nested_storage f) in
  modify (on_top (set_storage_meter m)) ;;
  match info with Some i => modify (on_top (set_info (Cached i))) | None => mret tt end ;;
  ensure ok limit_exhausted.

(** The limits are enforced and the event is emitted. *)
Definition finish_frame (entry : ExportedFunction) (delegated : option Hash) : DM unit :=
  none ← gets (λ x, bool_decide (s_frames (x_stack x) = []));
  (if (none : bool) then modify load_top ;; enforce enforce_limit else mret tt) ;;
  f ← gets x_top;
  match entry, delegated with
  | Constructor, _ =>
      ensure (match contract_info f with CTerminated _ => false | _ => true end)
        (cerr TerminatedInConstructor) ;;
      enforce enforce_subcall_limit ;;
      k ← gets x_stack;
      caller ← lift_result (origin_account_id (stack_caller k));
      emit (Instantiated caller (account_id f))
  | CallFunction, Some h => emit (DelegateCalled (account_id f) h)
  | CallFunction, None =>
      enforce enforce_subcall_limit ;;
      k ← gets x_stack;
      emit (Called (stack_caller k) (account_id f))
  end.

Definition do_transaction (run : WasmBlob → list Z → XM ExecReturnValue) (entry : ExportedFunction)
    (delegated : option Hash) (executable : WasmBlob) (input_data : list Z) : XM ExecReturnValue :=
  (if bool_decide (entry = Constructor) then map_err from_dispatch charge_new_contract
   else mret tt) ;;
  map_err from_dispatch initial_transfer ;;
  output ← map_err (λ e, mkExecError (exec_error e) Callee) (execute run executable entry input_data);
  if did_revert output then mret output
  else map_err from_dispatch (finish_frame entry delegated) ;; mret output.

(** [with_transaction]: the storage is rolled back on an error and on a reverted output,
    the stack is not. *)
Definition in_transaction (m : XM ExecReturnValue) : XM (bool * result ExecError ExecReturnValue) := λ x,
  match m x with
  | Ok out x' =>
      if did_revert out then Ok (false, ROk out) (set_store (x_store x) x')
      else Ok (true, ROk out) x'
  | Err e x' => Ok (false, RErr e) (set_store (x_store x) x')
  | Panic => Panic
  end.

Definition run_with (run : WasmBlob → list Z → XM ExecReturnValue) (executable : WasmBlob)
    (input_data : list Z) : XM ExecReturnValue :=
  f ← gets x_top;
  let delegated :=
    if bool_decide (is_Some (delegate_caller f)) then Some (blob_hash executable) else None in
  '(success, output) ← in_transaction (do_transaction run (entry_point f) delegated executable input_data);
  pop_frame success ;;
  lift_result output.

(** [Stack::run] with at most [depth] more frames. *)
Fixpoint run_frame (depth : nat) : WasmBlob → list Z → XM ExecReturnValue :=
  run_with (match depth with O => λ _ _, panic | S d => run_frame d end).

(** ** Whole calls *)

(** The meters of a call and the storage. *)
Record CallState := mkCall { call_gas : GasMeter; call_storage : Meter; call_store : Contracts B }.

(** [Stack::new] and [Stack::run] on its first frame. *)
Definition run_stack_with (args : FrameArgs) (origin : Origin) (value : Balance) (input_data : list Z)
    (d : Determinism) : M CallState ExecError (AccountId * ExecReturnValue) := λ c,
  match new_frame args value weight_zero (call_storage c) 0 d (call_gas c) (call_store c) with
  | (g, RErr e) => Err (from_dispatch e) (mkCall g (call_storage c) (call_store c))
  | (g, ROk (first, executable, nonce)) =>
      let k := mkStack origin g (call_storage c) nonce [] first d in
      match run_frame CallStack_size executable input_data (mkX k (call_store c)) with
      | Ok out x =>
          Ok (account_id first, out) (mkCall (s_gas (x_stack x)) (s_storage (x_stack x)) (x_store x))
      | Err e x => Err e (mkCall (s_gas (x_stack x)) (s_storage (x_stack x)) (x_store x))
      | Panic => Panic
      end
  end.

Definition run_call (origin : Origin) (dest : AccountId) (value : Balance) (input_data : list Z)
    (d : Determinism) : M CallState ExecError ExecReturnValue :=
  '(_, out) ← run_stack_with (ArgsCall dest None None) origin value input_data d;
  mret out.

Definition run_instantiate (origin : AccountId) (executable : WasmBlob) (value : Balance)
    (input_data salt : list Z) : M CallState ExecError (AccountId * ExecReturnValue) :=
  c ← gets id;
  run_stack_with
    (ArgsInstantiate origin (wrap64 (Nonce (call_store c) + 1)) executable salt input_data)
    (OriginSigned origin) value input_data Enforced.
End Exec.

Arguments mkX {B}.
Arguments x_stack {B}.
Arguments x_store {B}.
Arguments mkCall {B}.
Arguments call_gas {B}.
Arguments call_storage {B}.
Arguments call_store {B}.
