(* ===== verification/ExecOutcomes.v ===== *)
(** * Outcomes of a whole call

    Frames are pushed, run and popped under an invariant; what a call
    leaves of its meters and of the storage follows. *)

From S2P Require Import Prelude Types AccountManager ContractsRegistry ThreeVm Gas Deposits.
From S2P Require Import WasmModule ContractStore Exec.

(** ** Gas and deposits of a whole call

    What the frames of a call keep whatever the contracts do: each meter stays within its
    limit, what a frame hands to another is taken from its own meter, the limits of the
    first frame do not change, and deposits and counters stay unsigned. *)

(** ** Programs with machine integers *)

Definition op_typed {A} (op : ExtOp A) : Prop :=
  match op with
  | OpChargeGas w => is_weight w
  | OpAdjustGas c a => is_weight c ∧ is_weight a
  | _ => True
  end.

Fixpoint prog_typed (p : Prog) : Prop :=
  match p with
  | PEnd _ _ | PTerminate _ _ => True
  | PDo op k => op_typed op ∧ ∀ a, prog_typed (k a)
  | PCall g _ _ _ _ _ k => is_weight g ∧ ∀ r, prog_typed (k r)
  | PDelegateCall _ _ k => ∀ r, prog_typed (k r)
  | PInstantiate g _ _ _ _ _ k => is_weight g ∧ ∀ r, prog_typed (k r)
  end.

(** The engine hands out integers of the width of the source. *)
Class EngineTyped `{!WasmEngine} := {
  base_nonneg : 0 ≤ instruction_base;
  program_typed m f input fuel : prog_typed (wasm_program m f input fuel);
}.

Lemma load_module_program `{!ContractsLib} `{!WasmEngine} b f input entry :
  load_module b f input = Some (Some entry) → ∃ m, entry = wasm_program m f input.
Proof.
  unfold load_module. destruct (instantiate _ _ _) as [m|]; [|done].
  destruct (exports_function _ _); [|done]. intros [= <-]. by exists m.
Qed.

(** ** Gas along the stack *)

(** What a frame has given to the one above it and what it has left fits its limit. *)
Fixpoint gas_chain (given : Weight) (l : list GasMeter) : Prop :=
  match l with
  | [] => True
  | g :: l' =>
      gas_inv g ∧
      ref_time given + ref_time (gas_left g) ≤ ref_time (gas_limit g) ∧
      proof_size given + proof_size (gas_left g) ≤ proof_size (gas_limit g) ∧
      gas_chain (gas_limit g) l'
  end.

Lemma chain_top_same g g' l :
  gas_chain weight_zero (g :: l) → gas_inv g' → gas_limit g' = gas_limit g →
  gas_chain weight_zero (g' :: l).
Proof.
  cbn. intros (_ & _ & _ & Hl) Hi He. rewrite <- He in Hl. split; [done|].
  unfold gas_inv, weight_le in Hi. repeat split; [lia..|done].
Qed.

Lemma chain_single g : gas_inv g → gas_chain weight_zero [g].
Proof. intros Hi. split; [done|]. unfold gas_inv, weight_le in Hi. cbn in *. lia. Qed.

Lemma chain_push g g' n limit l :
  is_weight limit → gas_chain weight_zero (g :: l) → gas_nested limit g = ROk (g', n) →
  gas_chain weight_zero (n :: g' :: l).
Proof.
  intros Hw (Hi & _ & _ & Hl) Hn. pose proof (nested_inv limit g Hw Hi) as Hni.
  apply gas_nested_Ok in Hn as (Hle & -> & ->).
  set (am := nested_amount limit g) in *. clearbody am. destruct g as [lim lft low ec].
  cbn [gas_chain]. unfold gas_inv, is_weight, weight_le, set_gas_left, gas_meter_new, weight_zero in *. cbn in *.
  repeat split; first [lia|done].
Qed.

Lemma chain_pop n g l :
  gas_chain weight_zero (n :: g :: l) → gas_chain weight_zero (absorb_nested n g :: l).
Proof.
  intros (Hn & _ & _ & Hg & H1 & H2 & Hl). cbn [gas_chain]. split; [|].
  - destruct n as [nl nlft nlow nec], g as [lim lft low ec].
    unfold gas_inv, absorb_nested, is_weight, weight_le, gas_left_lowest, weight_min, weight_add, wrap64,
      u64_max, weight_zero in *. cbn in *. rewrite !Z.mod_small by lia.
    destruct (ref_time lft =? 0), (proof_size lft =? 0); cbn; repeat split; lia.
  - destruct n as [nl nlft nlow nec], g as [lim lft low ec].
    unfold gas_inv, absorb_nested, is_weight, weight_le, weight_add, wrap64, u64_max, weight_zero in *.
    cbn in *. rewrite !Z.mod_small by lia. repeat split; try lia; done.
Qed.

Lemma charge_nonneg_inv w g g' :
  weight_le weight_zero w → gas_inv g → gas_charge w g = ROk g' →
  gas_inv g' ∧ gas_limit g' = gas_limit g ∧ weight_le (gas_left g') (gas_left g).
Proof.
  intros Hw Hi Hc. apply checked_left_Ok in Hc as [Hle ->]. destruct g.
  unfold gas_inv, is_weight, weight_le, set_gas_left, weight_zero in *. cbn in *. repeat split; lia.
Qed.

Lemma fuel_inv base n g :
  0 ≤ base → gas_inv g → gas_inv (charge_fuel base n g).1 ∧ gas_limit (charge_fuel base n g).1 = gas_limit g.
Proof.
  intros Hb Hi. destruct (charge_fuel base n g) as [g' [w|e]] eqn:Hf; cbn.
  - destruct (fuel_keeps base n g g' w Hb Hi Hf) as (H1 & H2 & _). done.
  - unfold charge_fuel in Hf. destruct (_ =? 0); [done|]. cbn [gas_left] in Hf.
    destruct (_ <=? _); [done|]. injection Hf as <- _. done.
Qed.

(** ** Unsigned deposits *)

Definition unsigned (d : StorageDeposit) : Prop :=
  match d with Charge a | Refund a => 0 ≤ a end.

Definition info_typed (i : ContractInfo) : Prop :=
  0 ≤ storage_bytes i ∧ 0 ≤ storage_items i ∧ 0 ≤ storage_byte_deposit i ∧
  0 ≤ storage_item_deposit i ∧ 0 ≤ storage_base_deposit i.

Definition contribution_typed (c : Contribution) : Prop :=
  match c with Alive _ => True | Checked d | Terminated d => unsigned d end.

Definition meter_typed {S} (m : RawMeter S) : Prop :=
  unsigned (total_deposit m) ∧ contribution_typed (own_contribution m).

Definition frame_typed (f : Frame) : Prop :=
  meter_typed (nested_storage f) ∧ ∀ i, as_contract (contract_info f) = Some i → info_typed i.

Lemma unsigned_add l r : unsigned l → unsigned r → unsigned (deposit_add l r).
Proof.
  unfold unsigned. destruct l, r; cbn; unfold saturating_add, saturating_sub, u128_max; repeat case_match;
    simplify_eq; lia.
Qed.

Lemma refund_share_unsigned removed stored deposit :
  0 ≤ removed → 0 ≤ stored → 0 ≤ deposit → 0 ≤ refund_share removed stored deposit.
Proof.
  intros H1 H2 H3. unfold refund_share, saturating_mul_int, checked_from_rational, FIXED_DIV, u128_max.
  apply Z.min_glb; [lia|]. apply Z.div_pos; [|lia]. apply Z.mul_nonneg_nonneg; [|done].
  apply Z.min_glb; [|lia].
  destruct (Z.eqb_spec stored 0) as [->|Hs]; cbn [default]; [lia|]. apply Z.div_pos; lia.
Qed.

Section Unsigned.
Context {B : Type} `{!ContractsCurrency B}.
Hypothesis Hprices : 0 ≤ DepositPerByte ∧ 0 ≤ DepositPerItem ∧ 0 ≤ minimum_balance.

Lemma cost_unsigned price n : 0 ≤ price → 0 ≤ n → unsigned (cost_of price n).
Proof. intros. unfold cost_of, unsigned, u128_max. apply Z.min_glb; [lia|nia]. Qed.

Lemma apply_unsigned d held : unsigned d → 0 ≤ held → 0 ≤ apply_deposit d held.
Proof. unfold unsigned. destruct d; cbn; unfold saturating_add, saturating_sub, u128_max; lia. Qed.

Lemma update_contract_typed d o :
  (∀ i, o = Some i → info_typed i) →
  unsigned (update_contract d o).1 ∧ ∀ i, (update_contract d o).2 = Some i → info_typed i.
Proof.
  intros Ho. destruct Hprices as (Hb & Hi & _).
  assert (∀ a b, 0 ≤ saturating_sub a b) as Hsub by (unfold saturating_sub; lia).
  destruct o as [i|]; unfold update_contract; cbn [fst snd].
  - destruct (Ho i eq_refl) as (H1 & H2 & H3 & H4 & H5).
    assert (∀ n r s dep p, 0 ≤ p → 0 ≤ s → 0 ≤ dep →
      unsigned (deposit_add (cost_of p (saturating_sub n r)) (Refund (refund_share (saturating_sub r n) s dep)))) as Hu.
    { intros n r s dep p Hp Hs Hd. apply unsigned_add; [by apply cost_unsigned|]. by apply refund_share_unsigned. }
    split; [by apply unsigned_add; apply Hu|]. intros i' [= <-]. unfold info_typed. cbn.
    repeat split; try apply Hsub; try done; by apply apply_unsigned; [apply Hu|].
  - split; [|done]. apply unsigned_add; by apply cost_unsigned.
Qed.

Lemma contribution_update_typed c o :
  contribution_typed c → (∀ i, o = Some i → info_typed i) →
  unsigned (contribution_update c o).1 ∧ ∀ i, (contribution_update c o).2 = Some i → info_typed i.
Proof. intros Hc Ho. destruct c; cbn in *; [by apply update_contract_typed|done..]. Qed.

Lemma absorb_typed {S} (n : NestedMeter) a o (m : RawMeter S) :
  meter_typed n → meter_typed m → (∀ i, o = Some i → info_typed i) →
  meter_typed (absorb n a o m).1 ∧ ∀ i, (absorb n a o m).2 = Some i → info_typed i.
Proof.
  intros [Hn1 Hn2] [Hm1 Hm2] Ho. unfold absorb.
  destruct (contribution_update_typed (own_contribution n) o Hn2 Ho) as [Hu Hi].
  destruct (contribution_update _ o) as [d i]. cbn in *. split; [|done]. split; [|done].
  by repeat apply unsigned_add.
Qed.

Lemma enforce_limit_typed o (m : NestedMeter) :
  meter_typed m → (∀ i, o = Some i → info_typed i) →
  meter_typed (enforce_limit o m).1.1 ∧ ∀ i, (enforce_limit o m).1.2 = Some i → info_typed i.
Proof.
  intros [Hm1 Hm2] Ho. unfold enforce_limit.
  destruct (contribution_update_typed (own_contribution m) o Hm2 Ho) as [Hu Hi].
  destruct (contribution_update _ o) as [d i]. cbn in *. split; [|done]. by destruct (is_alive m).
Qed.

Lemma instantiate_deposit_unsigned : unsigned instantiate_deposit.
Proof.
  destruct Hprices as (Hb & Hi & Hm). unfold instantiate_deposit. apply unsigned_add; [|done].
  destruct (update_contract_typed (mkDiff contract_info_size 0 1 0) None) as [Hu _]; [done|].
  destruct (update_contract _ None).1; cbn in *; lia.
Qed.
End Unsigned.

Section Facts.
Context {B : Type} `{!ContractsCurrency B} `{!Hashing} `{!ContractsLib} `{!WasmEngine}.
Implicit Types (x : XState (B := B)) (k : Stack) (s : Contracts B).

Lemma from_storage_inv h g s :
  gas_inv g →
  gas_inv (from_storage h g s).1 ∧ gas_limit (from_storage h g s).1 = gas_limit g ∧
  weight_le (gas_left (from_storage h g s).1) (gas_left g).
Proof.
  intros Hi. assert (weight_le (gas_left g) (gas_left g)) as Hrefl by (unfold weight_le; lia).
  unfold from_storage. destruct (CodeInfoOf s !! h) as [i|]; [|done].
  destruct (gas_charge _ g) as [g'|] eqn:Hc; [|done].
  assert (gas_inv g' ∧ gas_limit g' = gas_limit g ∧ weight_le (gas_left g') (gas_left g)) as Hg.
  { eapply charge_nonneg_inv; [|done..].
    unfold code_load_weight, weight_le, weight_saturating_sub, saturating_sub. cbn. lia. }
  by destruct (PristineCode s !! h).
Qed.

(** ** What a stack keeps *)

Definition store_typed s : Prop := map_Forall (λ _, info_typed) (ContractInfoOf s).

Lemma frames_top k : frames k = top_frame k :: lower_frames k.
Proof. unfold frames, top_frame, lower_frames. by destruct (s_frames k). Qed.

Lemma top_update g k : top_frame (update_top g k) = g (top_frame k).
Proof. unfold update_top, top_frame. by destruct (s_frames k). Qed.

Lemma lower_update g k : lower_frames (update_top g k) = lower_frames k.
Proof. unfold update_top, lower_frames. by destruct (s_frames k). Qed.

Lemma frames_update g k : s_frames (update_top g k) = [] ↔ s_frames k = [].
Proof. unfold update_top. by destruct (s_frames k). Qed.

Lemma update_top_twice g1 g2 k :
  update_top (set_gas g2) (update_top (set_gas g1) k) = update_top (set_gas g2) k.
Proof. unfold update_top. destruct (s_frames k) as [|[] l]; by destruct (first_frame k). Qed.

Lemma persist_top_stack x : x_stack (persist_top x) = x_stack x.
Proof. unfold persist_top. by destruct (contract_info (x_top x)), (entry_point (x_top x)). Qed.

Section Kept.
(** The meters of the call and the limits of its first frame. *)
Context (root : GasMeter) (storage : Meter) (first_limit : Weight) (limit : Balance).

Definition frame_meters (f : Frame) : GasMeter * Balance * Nested :=
  (nested_gas f, meter_limit (nested_storage f), meter_nested (nested_storage f)).

(** [n] frames above the first one. *)
Definition stack_inv (n : nat) k : Prop :=
  gas_chain weight_zero (map nested_gas (frames k)) ∧ Forall frame_typed (frames k) ∧
  s_gas k = root ∧ s_storage k = storage ∧
  gas_limit (nested_gas (first_frame k)) = first_limit ∧
  meter_limit (nested_storage (first_frame k)) = limit ∧
  meter_nested (nested_storage (first_frame k)) = DerivedLimit ∧
  length (s_frames k) = n ∧ (n ≤ CallStack_size)%nat.

Definition exec_inv (n : nat) x : Prop := stack_inv n (x_stack x) ∧ store_typed (x_store x).

Lemma inv_top_gas n k : stack_inv n k → gas_inv (nested_gas (top_frame k)).
Proof. intros (Hc & _). rewrite frames_top in Hc. cbn in Hc. tauto. Qed.

Lemma inv_top_typed n k : stack_inv n k → frame_typed (top_frame k).
Proof. intros (_ & Ht & _). rewrite frames_top in Ht. by apply Forall_cons in Ht as []. Qed.

Lemma inv_update n k g :
  stack_inv n k → frame_meters (g (top_frame k)) = frame_meters (top_frame k) →
  (frame_typed (top_frame k) → frame_typed (g (top_frame k))) → stack_inv n (update_top g k).
Proof.
  intros Hi Hm Ht. pose proof (inv_top_typed _ _ Hi) as Htop. apply Ht in Htop. clear Ht.
  destruct Hi as (Hc & Ht & Hr & Hs & Hf & Hl & Hn & Hd). rewrite frames_top in Ht.
  apply Forall_cons in Ht as [_ Ht].
  assert (Forall frame_typed (frames (update_top g k))) as Hft.
  { rewrite frames_top, top_update, lower_update. by constructor. }
  clear Ht Htop. unfold frame_meters, update_top, stack_inv, frames, top_frame in *.
  destruct (s_frames k) as [|f l]; cbn in *; injection Hm as Hm1 Hm2 Hm3.
  - rewrite Hm1, Hm2, Hm3. done.
  - rewrite Hm1. done.
Qed.

Lemma inv_set_gas n k g :
  stack_inv n k → gas_inv g → gas_limit g = gas_limit (nested_gas (top_frame k)) →
  stack_inv n (update_top (set_gas g) k).
Proof.
  intros (Hc & Ht & Hr & Hs & Hf & Hl & Hn & Hd) Hi He. rewrite frames_top in Hc, Ht.
  apply Forall_cons in Ht as [Ht1 Ht2]. cbn [map] in Hc.
  pose proof (chain_top_same _ g _ Hc Hi He) as Hc'.
  unfold stack_inv. rewrite frames_top, top_update, lower_update. split; [exact Hc'|].
  split; [by constructor|]. clear Ht1 Ht2 Hc Hc'. unfold update_top, top_frame in *.
  destruct (s_frames k) as [|f l]; cbn in *; [rewrite He|]; done.
Qed.

Lemma map_gas_invalidate a l : map nested_gas (invalidate a l) = map nested_gas l.
Proof. induction l as [|f l IH]; [done|]. cbn. destruct (_ =? a); cbn; [done|by rewrite IH]. Qed.

Lemma length_invalidate a l : length (invalidate a l) = length l.
Proof. induction l as [|f l IH]; [done|]. cbn. destruct (_ =? a); cbn; [done|by rewrite IH]. Qed.

Lemma typed_invalidated f : frame_typed f → frame_typed (set_info Invalidated f).
Proof. intros [Hm _]. by split. Qed.

Lemma typed_invalidate a l : Forall frame_typed l → Forall frame_typed (invalidate a l).
Proof.
  induction 1 as [|f l Hf Hl IH]; cbn; [done|].
  destruct (_ =? a); constructor; auto using typed_invalidated.
Qed.

Lemma inv_invalidate n k a : stack_inv n k → stack_inv n (invalidate_lower a k).
Proof.
  intros (Hc & Ht & Hr & Hs & Hf & Hl & Hn & Hd). unfold invalidate_lower, stack_inv, frames in *.
  destruct (s_frames k) as [|f l] eqn:He; [by rewrite He|]. cbn in Ht.
  apply Forall_cons in Ht as [Ht1 Ht]. apply Forall_app in Ht as [Ht2 Ht3]. apply Forall_cons in Ht3 as [Ht3 _].
  destruct (existsb _ _); [|destruct (_ =? a); [|rewrite He]]; cbn in *.
  - rewrite map_app, map_gas_invalidate, length_invalidate. rewrite map_app in Hc. split; [done|].
    split; [|done]. constructor; [done|]. apply Forall_app. split; [by apply typed_invalidate|constructor; [exact Ht3|constructor]].
  - rewrite map_app in *. split; [done|]. split; [|done]. constructor; [done|]. apply Forall_app.
    split; [done|]. constructor; [by apply typed_invalidated|constructor].
  - split; [done|]. split; [|done]. constructor; [done|]. apply Forall_app. split; [done|constructor; [exact Ht3|constructor]].
Qed.

Lemma inv_push d k f g n w :
  stack_inv d k → is_weight w → gas_nested w (nested_gas (top_frame k)) = ROk (g, n) → nested_gas f = n →
  frame_typed f → d ≠ CallStack_size →
  stack_inv (S d) (push f (update_top (set_gas g) k)).
Proof.
  intros (Hc & Ht & Hr & Hs & Hf & Hl & Hn & Hd) Hw Hg Hfn Hft Hlen.
  assert (frames (push f (update_top (set_gas g) k)) = f :: set_gas g (top_frame k) :: lower_frames k) as Hfr.
  { unfold push, frames, update_top, top_frame, lower_frames. by destruct (s_frames k). }
  rewrite frames_top in Hc, Ht. cbn [map] in Hc. pose proof (chain_push _ _ _ _ _ Hw Hc Hg) as Hp.
  apply Forall_cons in Ht as [Ht1 Ht2].
  assert (gas_limit g = gas_limit (nested_gas (top_frame k))) as Hlim.
  { by apply gas_nested_Ok in Hg as (_ & _ & ->). }
  unfold stack_inv. rewrite Hfr. cbn [map nested_gas set_gas]. rewrite Hfn. split; [exact Hp|].
  split; [constructor; [done|]; by constructor|]. unfold push, update_top, top_frame, CallStack_size in *.
  destruct (s_frames k) as [|f0 l]; cbn in *; [rewrite Hlim|]; repeat split; try done; lia.
Qed.

Lemma inv_pop n k f rest :
  stack_inv (S n) k → s_frames k = f :: rest →
  stack_inv n (update_top (λ prev, set_gas (absorb_nested (nested_gas f) (nested_gas prev)) prev)
    (with_frames rest (first_frame k) k)) ∧ frame_typed f.
Proof.
  intros (Hc & Ht & Hr & Hs & Hf & Hl & Hn & Hd) He.
  set (k' := with_frames rest (first_frame k) k).
  assert (frames k = f :: top_frame k' :: lower_frames k') as Hfr.
  { rewrite <- frames_top. unfold frames, k'. by rewrite He. }
  rewrite Hfr in Hc, Ht. apply Forall_cons in Ht as [Ht1 Ht]. apply Forall_cons in Ht as [Ht2 Ht3].
  split; [|done]. unfold stack_inv. rewrite frames_top, top_update, lower_update. apply chain_pop in Hc.
  split; [exact Hc|]. split; [by constructor|]. unfold update_top, k' in *. rewrite He in Hd. cbn in *.
  destruct rest as [|f' l]; cbn in *; unfold CallStack_size in *; repeat split; try done; lia.
Qed.

(** ** Operations that keep it *)

(** [yields m Q]: [m] keeps the invariant, and what it returns satisfies [Q]. *)
Definition yields {E A} (m : M (XState (B := B)) E A) (Q : A → Prop) : Prop :=
  ∀ n x, exec_inv n x →
    match m x with Ok a x' => exec_inv n x' ∧ Q a | Err _ x' => exec_inv n x' | Panic => True end.

Definition keeps {E A} (m : M (XState (B := B)) E A) : Prop := yields m (λ _, True).

Lemma yields_bind {E A A'} (m : M XState E A) (f : A → M XState E A') Q R :
  yields m Q → (∀ a, Q a → yields (f a) R) → yields (m ≫= f) R.
Proof.
  intros Hm Hf n x Hx. unfold mbind, M_bind. specialize (Hm n x Hx). destruct (m x) as [a x'|e x'|]; [|done..].
  destruct Hm as [Hx' Ha]. by apply Hf.
Qed.

Lemma exec_bind {E A A'} (m : M XState E A) (f : A → M XState E A') :
  keeps m → (∀ a, keeps (f a)) → keeps (m ≫= f).
Proof. intros Hm Hf. eapply yields_bind; [exact Hm|intros a _; apply Hf]. Qed.

Lemma yields_keeps {E A} (m : M XState E A) Q : yields m Q → keeps m.
Proof. intros Hm n x Hx. specialize (Hm n x Hx). destruct (m x); tauto. Qed.

Lemma exec_ret {E A} (a : A) : keeps (E := E) (mret a).
Proof. by intros n x Hx. Qed.
Lemma keeps_gets {E A} (f : XState → A) : keeps (E := E) (gets f).
Proof. by intros n x Hx. Qed.
Lemma keeps_throw {E A} (e : E) : keeps (A := A) (throw e).
Proof. by intros n x Hx. Qed.
Lemma keeps_modify {E} g : (∀ n x, exec_inv n x → exec_inv n (g x)) → keeps (E := E) (modify g).
Proof. intros Hg n x Hx. split; [by apply Hg|done]. Qed.
Lemma keeps_ensure {E} b (e : E) : keeps (ensure b e).
Proof. intros n x Hx. by destruct b. Qed.
Lemma keeps_expect {E A} (o : option A) : keeps (E := E) (expect o).
Proof. intros n x Hx. by destruct o. Qed.
Lemma keeps_ok_or {E A} (o : option A) (e : E) : keeps (ok_or o e).
Proof. intros n x Hx. by destruct o. Qed.
Lemma keeps_lift {E A} (r : result E A) : keeps (lift_result r).
Proof. intros n x Hx. by destruct r. Qed.
Lemma kept_map_err {E E' A} (f : E → E') (m : M XState E A) : keeps m → keeps (map_err f m).
Proof. intros Hm n x Hx. unfold map_err. specialize (Hm n x Hx). by destruct (m x). Qed.
Lemma kept_attempt {E E' A} (m : M XState E A) : keeps m → keeps (E := E') (attempt m).
Proof. intros Hm n x Hx. unfold attempt. specialize (Hm n x Hx). by destruct (m x). Qed.

(** Operations on the storage that leave the contracts alone. *)
Definition infos_same {A} (m : M (Contracts B) DispatchError A) : Prop :=
  ∀ s, match m s with Ok _ s' | Err _ s' => ContractInfoOf s' = ContractInfoOf s | Panic => True end.

Lemma keeps_in_store {A} (m : M (Contracts B) DispatchError A) : infos_same m → keeps (in_store m).
Proof.
  intros Hm n x [Hx Hs]. unfold in_store, zoom. specialize (Hm (x_store x)). unfold exec_inv, store_typed in *.
  destruct (m _); cbn; rewrite ?Hm; done.
Qed.

Lemma balances_same {A} (m : M B DispatchError A) : infos_same (in_balances m).
Proof. intros s. unfold in_balances, zoom. by destruct (m _). Qed.

Lemma refcount_same h : infos_same (increment_refcount h).
Proof. intros s. unfold increment_refcount, mbind, M_bind, gets. by destruct (CodeInfoOf s !! h). Qed.

Lemma decrement_same h s : ContractInfoOf (decrement_refcount h s) = ContractInfoOf s.
Proof. unfold decrement_refcount. by destruct (CodeInfoOf s !! h). Qed.

Lemma keeps_on_top {E} g :
  (∀ f, frame_meters (g f) = frame_meters f) → (∀ f, frame_typed f → frame_typed (g f)) →
  keeps (E := E) (modify (on_top g)).
Proof. intros Hg Ht. apply keeps_modify. intros n x [Hx Hs]. split; [apply inv_update; auto|done]. Qed.

Lemma keeps_store {E} (g : XState → Contracts B) :
  (∀ x, store_typed (x_store x) → store_typed (g x)) → keeps (E := E) (modify (λ x, set_store (g x) x)).
Proof. intros Hg. apply keeps_modify. intros n x [Hx Hs]. split; [done|by apply Hg]. Qed.

Create HintDb kept.
Hint Resolve exec_ret keeps_gets keeps_throw keeps_ensure keeps_expect keeps_ok_or keeps_lift
  kept_map_err kept_attempt keeps_in_store balances_same refcount_same : kept.

Ltac keep :=
  repeat first
    [ solve [auto with kept]
    | apply exec_bind; [|intros ?]
    | apply kept_map_err | apply kept_attempt
    | match goal with
      | |- keeps (match ?e with _ => _ end) => destruct e
      | |- keeps (if ?e then _ else _) => destruct e
      | |- keeps (let '(_, _) := ?e in _) => destruct e
      end
    | apply keeps_on_top; [done|intros f [? ?]; by split]
    | apply keeps_store; done ].

(** Reading the information on the contract. *)
Lemma load_typed s a c :
  store_typed s → (∀ i, as_contract c = Some i → info_typed i) →
  ∀ i, as_contract (load_cached s a c) = Some i → info_typed i.
Proof.
  intros Hs Hc i. destruct c; cbn in *; [apply Hc| |done].
  destruct (ContractInfoOf s !! a) as [j|] eqn:Hj; [|done]. intros [= <-]. by apply (Hs _ _ Hj).
Qed.

Lemma load_top_inv n x : exec_inv n x → exec_inv n (load_top x).
Proof.
  intros [Hx Hs]. split; [|done]. apply inv_update; [done..|]. intros [Hm Hi]. split; [done|].
  cbn. by apply load_typed.
Qed.
Lemma load_top_kept {E} : keeps (E := E) (modify load_top).
Proof. apply keeps_modify. exact load_top_inv. Qed.
Hint Resolve load_top_kept : kept.

Lemma get_info_typed {E} : yields (E := E) get_info info_typed.
Proof.
  unfold get_info. eapply yields_bind; [apply load_top_kept|intros _ _].
  intros n x Hx. unfold mbind, M_bind, gets. destruct (as_contract (contract_info (x_top x))) as [i|] eqn:Hi; cbn; [|done]. split; [done|].
  destruct Hx as [Hx _]. apply inv_top_typed in Hx as [_ Ht]. by apply Ht.
Qed.
Lemma get_info_kept {E} : keeps (E := E) get_info.
Proof. eapply yields_keeps. apply get_info_typed. Qed.
Hint Resolve get_info_kept : kept.

Lemma emit_kept e {E} : keeps (E := E) (emit e).
Proof. unfold emit. keep. Qed.
Hint Resolve emit_kept : kept.

Lemma set_top_gas_inv n x g :
  exec_inv n x → gas_inv g ∧ gas_limit g = gas_limit (nested_gas (x_top x)) → exec_inv n (set_top_gas g x).
Proof. intros [Hx Hs] [Hg Hl]. split; [by apply inv_set_gas|done]. Qed.

Lemma load_executable_kept h : keeps (load_executable h).
Proof.
  intros n x Hx. unfold load_executable.
  pose proof (from_storage_inv h _ (x_store x) (inv_top_gas _ _ (proj1 Hx))) as Hg.
  destruct (from_storage _ _ _) as [g [b|e]]; cbn in Hg; destruct Hg as (Hg1 & Hg2 & _);
    [split; [|done]|]; by apply set_top_gas_inv.
Qed.
Hint Resolve load_executable_kept : kept.

Lemma top_gas_kept {E} : keeps (E := E) get_top_gas.
Proof. by apply keeps_gets. Qed.

Lemma charge_gas_kept w : is_weight w → keeps (ext_charge_gas w).
Proof.
  intros Hw n x Hx. unfold ext_charge_gas, mbind, M_bind, get_top_gas, gets, lift_result.
  destruct (gas_charge w _) as [g|] eqn:Hc; cbn; [|done]. split; [|done]. apply set_top_gas_inv; [done|].
  destruct (charge_nonneg_inv w (nested_gas (x_top x)) g) as (Hg1 & Hg2 & _); [|by eapply inv_top_gas, Hx|done..].
  unfold is_weight, weight_le in *. cbn. lia.
Qed.

Lemma charge_fuel_kept n : 0 ≤ instruction_base → keeps (ext_charge_fuel n).
Proof.
  intros Hb d x Hx. unfold ext_charge_fuel.
  pose proof (fuel_inv instruction_base n _ Hb (inv_top_gas _ _ (proj1 Hx))) as Hg.
  destruct (charge_fuel _ _ _) as [g [w|e]]; cbn in Hg; [split; [|done]|]; by apply set_top_gas_inv.
Qed.

Lemma adjust_kept c a :
  is_weight c → is_weight a → keeps (g ← get_top_gas; modify (set_top_gas (adjust_gas c a g)) : M XState ExecError unit).
Proof.
  intros Hc Ha n x Hx. split; [|done]. apply set_top_gas_inv; [done|].
  pose proof (adjust_keeps c a _ Hc Ha (inv_top_gas _ _ (proj1 Hx))) as (Ha1 & Ha2 & _). done.
Qed.

(** A new meter for the top frame. *)
Lemma set_meter_inv n x m :
  exec_inv n x → meter_limit m = meter_limit (nested_storage (x_top x)) →
  meter_nested m = meter_nested (nested_storage (x_top x)) → meter_typed m →
  exec_inv n (on_top (set_storage_meter m) x).
Proof.
  intros [Hx Hs] Hm1 Hm2 Ht. split; [|done]. apply inv_update; [done| |intros [_ ?]; by split].
  unfold frame_meters. cbn. by rewrite Hm1, Hm2.
Qed.

Lemma info_write_meter i key v t (m m' : NestedMeter) w s s' :
  info_write i key v t m s = Ok (m', w) s' →
  meter_limit m' = meter_limit m ∧ meter_nested m' = meter_nested m ∧
  total_deposit m' = total_deposit m ∧ contribution_typed (own_contribution m').
Proof.
  unfold info_write. intros Hw. monad_inv. unfold meter_charge in *. destruct (own_contribution m); simplify_eq. done.
Qed.

Lemma info_write_same i key v t m : infos_same (info_write i key v t m).
Proof.
  intros s. unfold info_write, mbind, M_bind, gets, expect. destruct (meter_charge _ m); [|done]. cbn.
  by destruct v.
Qed.

Lemma set_storage_kept key v t : keeps (ext_set_storage key v t).
Proof.
  unfold ext_set_storage. apply exec_bind; [auto with kept|intros i n x Hx].
  unfold mbind, M_bind, gets, map_err. 
  pose proof (keeps_in_store _ (info_write_same i key v t (nested_storage (x_top x))) n x Hx) as Hk.
  unfold in_store, zoom in *.
  destruct (info_write _ _ _ _ _ _) as [[m w] s'|e s'|] eqn:Hw; cbn; [|done..].
  apply info_write_meter in Hw as (Hw1 & Hw2 & Hw3 & Hw4). destruct Hk as [Hk _]. split; [|done].
  apply set_meter_inv; [done..|]. split; [|done]. rewrite Hw3. by eapply inv_top_typed, Hx.
Qed.

Lemma set_code_hash_kept h : keeps (ext_set_code_hash h).
Proof.
  unfold ext_set_code_hash. do 3 (apply exec_bind; [auto with kept|intros ?]).
  eapply yields_bind; [apply get_info_typed|intros i Hi].
  apply exec_bind; [apply keeps_store; intros x Hx; unfold store_typed; by rewrite decrement_same|intros _].
  apply exec_bind; [|intros _; keep].
  apply keeps_on_top; [done|]. intros f [Hm _]. split; [done|]. intros j [= <-]. exact Hi.
Qed.

Lemma keeps_nonce {E} (f : Stack → option Z) :
  keeps (E := E) (modify (on_stack (λ k, set_stack_nonce (f k) k))).
Proof. apply keeps_modify. by intros n x [Hx Hs]. Qed.
Hint Resolve top_gas_kept set_storage_kept set_code_hash_kept charge_gas_kept charge_fuel_kept adjust_kept
  keeps_nonce : kept.

Lemma nonce_kept {E} : keeps (E := E) ext_nonce.
Proof. unfold ext_nonce. keep. Qed.
Lemma next_nonce_kept {E} : keeps (E := E) next_nonce.
Proof. unfold next_nonce. apply exec_bind; [apply nonce_kept|intros n; keep]. Qed.
Lemma transfer_kept_kept a b v : keeps (transfer_kept a b v).
Proof. unfold transfer_kept. keep. Qed.
Hint Resolve nonce_kept next_nonce_kept transfer_kept_kept : kept.

Lemma ext_op_kept {A} (op : ExtOp A) : 0 ≤ instruction_base → op_typed op → keeps (ext_op op).
Proof.
  intros Hb Ht. destruct op; cbn [ext_op op_typed] in *;
    try match type of Ht with _ ∧ _ => destruct Ht end;
    unfold ext_transfer, ext_get_storage, ext_get_storage_size; try solve [auto with kept]; keep.
Qed.

Lemma terminate_kept a : keeps (ext_terminate a).
Proof.
  unfold ext_terminate. do 4 (apply exec_bind; [auto with kept|intros ?]).
  apply exec_bind; [by apply keeps_on_top; [|intros f [? ?]; split]|intros _].
  apply exec_bind.
  { apply keeps_on_top; [done|]. intros f [[? ?] ?]. split; [|done]. split; [done|].
    cbn. unfold total_deposit_of, saturating_sub. lia. }
  intros _. do 4 (apply exec_bind; [first [solve [auto with kept]|by apply keeps_store]|intros ?]).
  apply exec_bind; [apply keeps_store; intros x Hx; by apply map_Forall_delete|intros _].
  apply exec_bind; [|intros _; keep].
  apply keeps_store. intros x Hx. unfold store_typed. by rewrite decrement_same.
Qed.
Hint Resolve terminate_kept : kept.

(** ** Frames that come and go *)

Definition args_typed (args : FrameArgs) : Prop :=
  match args with ArgsCall _ (Some i) _ => info_typed i | _ => True end.

Lemma nest_typed {S} dl (m : RawMeter S) : meter_typed (meter_nest dl m).
Proof. unfold meter_nest. by destruct (_ =? 0). Qed.

(** The gas of the caller after the module was loaded is [g1]. *)
Lemma new_frame_spec {St} args v w (m : RawMeter St) dl d g s :
  gas_inv g → store_typed s → args_typed args →
  match new_frame args v w m dl d g s with
  | (g', RErr _) => gas_inv g' ∧ gas_limit g' = gas_limit g ∧ weight_le (gas_left g') (gas_left g)
  | (g', ROk (f, _, _)) =>
      frame_typed f ∧ nested_storage f = meter_nest dl m ∧
      ∃ g1, gas_inv g1 ∧ gas_limit g1 = gas_limit g ∧ weight_le (gas_left g1) (gas_left g) ∧
        gas_nested w g1 = ROk (g', nested_gas f)
  end.
Proof.
  intros Hi Hs Ha. assert (weight_le (gas_left g) (gas_left g)) as Hrefl by (unfold weight_le; lia).
  pose proof (nest_typed dl m) as Hm.
  assert (∀ i f, info_typed i → contract_info f = Cached i → nested_storage f = meter_nest dl m → frame_typed f) as Hf.
  { intros i f Hit Hc Hn. unfold frame_typed. rewrite Hn, Hc. split; [done|]. by intros j [= <-]. }
  unfold new_frame. destruct args as [dest ci del|sender n b salt input]; cbn in Ha.
  - assert (∀ i, match ci with Some i => Some i | None => ContractInfoOf s !! dest end = Some i → info_typed i) as Hci.
    { intros i. destruct ci as [j|]; [by intros [= <-]|]. intros Hl. exact (Hs _ _ Hl). }
    destruct (match ci with Some _ => _ | None => _ end) as [i|]; [|done]. specialize (Hci i eq_refl).
    destruct del as [[b c]|].
    + destruct (_ || _); [|done]. destruct (gas_nested w g) as [[g' n]|] eqn:Hn; [|done].
      split; [by eapply Hf|]. eauto 6.
    + pose proof (from_storage_inv (code_hash i) g s Hi) as Hg.
      destruct (from_storage _ g s) as [g1 [b|e]]; cbn in Hg; [|done].
      destruct (_ || _); [|done]. destruct (gas_nested w g1) as [[g' n]|] eqn:Hn; [|done].
      split; [by eapply Hf|]. split; [done|]. exists g1. cbn. tauto.
  - destruct (contract_info_new _ _ _ s) as [i|e] eqn:Hc; [|done].
    assert (info_typed i) as Hit.
    { unfold contract_info_new in Hc. destruct (ContractInfoOf s !! _); [done|]. injection Hc as <-.
      unfold info_typed. cbn. lia. }
    destruct (_ || _); [|done]. destruct (gas_nested w g) as [[g' n']|] eqn:Hn; [|done].
    split; [by eapply Hf|]. eauto 6.
Qed.
End Kept.
End Facts.

Section Facts.
Context {B : Type} `{!ContractsCurrency B} `{!Hashing} `{!ContractsLib} `{!WasmEngine}.
Hypothesis Hprices : 0 ≤ DepositPerByte ∧ 0 ≤ DepositPerItem ∧ 0 ≤ minimum_balance.
Implicit Types (x : XState (B := B)) (k : Stack) (s : Contracts B).

Section Kept.
Context (root : GasMeter) (storage : Meter) (first_limit : Weight) (limit : Balance).
Abbreviation exec_inv := (exec_inv (B := B) root storage first_limit limit).
Abbreviation yields := (yields (B := B) root storage first_limit limit).
Abbreviation keeps := (keeps (B := B) root storage first_limit limit).

Create HintDb exec.
Hint Resolve exec_ret keeps_gets keeps_throw keeps_ensure keeps_expect keeps_ok_or keeps_lift
  kept_map_err kept_attempt keeps_in_store balances_same refcount_same load_top_kept get_info_kept
  top_gas_kept emit_kept load_executable_kept nonce_kept next_nonce_kept transfer_kept_kept terminate_kept : exec.

(** ** Pushing and popping *)

(** A successful push makes the stack one frame higher. *)
Lemma push_kept args v w dl n x :
  is_weight w → args_typed args → exec_inv n x →
  match push_frame args v w dl x with
  | Ok _ x' => exec_inv (S n) x'
  | Err _ x' => exec_inv n x'
  | Panic => False
  end.
Proof.
  intros Hw Ha [Hx Hs]. unfold push_frame, mbind, M_bind, gets, modify, ensure.
  destruct (Nat.eqb_spec (length (s_frames (x_stack x))) CallStack_size) as [He|He]; cbn [negb]; [done|].
  unfold mret, M_ret, push_new, x_top. rewrite persist_top_stack.
  assert (store_typed (x_store (persist_top x))) as Hs'.
  { unfold persist_top, x_top. pose proof (inv_top_typed _ _ _ _ _ _ Hx) as [_ Ht].
    destruct (contract_info (top_frame (x_stack x))) as [i| |], (entry_point (top_frame (x_stack x))); try done.
    apply map_Forall_insert_2; [by apply Ht|done]. }
  pose proof (new_frame_spec args v w (nested_storage (top_frame (x_stack x))) dl (s_determinism (x_stack x))
    (nested_gas (top_frame (x_stack x))) (x_store (persist_top x)) (inv_top_gas _ _ _ _ _ _ Hx) Hs' Ha) as Hn.
  destruct (new_frame _ _ _ _ _ _ _ _) as [g [[[f b] nn]|e]].
  - destruct Hn as (Hft & _ & g1 & Hi & Hl & _ & Hg). split; [|done]. cbn.
    rewrite persist_top_stack, <- (update_top_twice g1 g).
    eapply inv_push; [by apply inv_set_gas|exact Hw|rewrite top_update; cbn; exact Hg|done..|].
    destruct Hx as (_ & _ & _ & _ & _ & _ & _ & <- & _). done.
  - split; [|done]. cbn. rewrite persist_top_stack. destruct Hn as (Hn1 & Hn2 & _). by apply inv_set_gas.
Qed.

Lemma absorb_meters (n : NestedMeter) a i (m : NestedMeter) :
  meter_limit (absorb n a i m).1 = meter_limit m ∧ meter_nested (absorb n a i m).1 = meter_nested m.
Proof. unfold absorb. by destruct (contribution_update _ _). Qed.

Lemma pop_nested_kept f : frame_typed f → keeps (pop_nested f).
Proof.
  intros [Hf Hfi] d x Hx. unfold pop_nested, mbind, M_bind, gets, expect.
  destruct (cached_deposit_account _) as [da|]; [|done]. unfold mret at 1, M_ret.
  pose proof (load_typed (x_store x) (account_id f) (contract_info f) (proj2 Hx) Hfi) as Hl.
  pose proof (inv_top_typed _ _ _ _ _ _ (proj1 Hx)) as [Hm _].
  pose proof (absorb_typed Hprices (nested_storage f) da _ (nested_storage (x_top x)) Hf Hm Hl) as [Ht Hi].
  pose proof (absorb_meters (nested_storage f) da (as_contract (load_cached (x_store x) (account_id f)
    (contract_info f))) (nested_storage (x_top x))) as [Ha1 Ha2].
  destruct (absorb _ _ _ _) as [m c]. cbn [fst snd] in *.
  assert (exec_inv d (on_top (set_storage_meter m) x)) as [Hm1 Hm2] by (by apply set_meter_inv).
  destruct c as [i|]; [|done]. specialize (Hi i eq_refl). destruct (_ =? _); cbn.
  - split; [|done]. split; [|done]. apply inv_update; [done..|]. intros [? _]. split; [done|]. by intros j [= <-].
  - split; [|done]. split; [by apply inv_invalidate|]. by apply map_Forall_insert_2.
Qed.

Lemma pop_kept persist n x :
  exec_inv (S n) x →
  match pop_frame persist x with Ok _ x' | Err _ x' => exec_inv n x' | Panic => True end.
Proof.
  intros Hx. unfold pop_frame, mbind, M_bind, gets.
  set (m := if negb persist && _ then _ else _).
  assert (∃ x1, m x = Ok tt x1 ∧ exec_inv (S n) x1 ∧ s_frames (x_stack x1) = s_frames (x_stack x))
    as (x1 & -> & [Hx1 Hs1] & Hf).
  { unfold m. destruct (_ && _); eexists; done. }
  rewrite Hf. destruct (s_frames (x_stack x)) as [|f rest].
  { destruct Hx1 as (_ & _ & _ & _ & _ & _ & _ & Hd & _). by rewrite Hf in Hd. }
  cbn. destruct (inv_pop _ _ _ _ _ _ _ _ Hx1 Hf) as [Hp Hft]. destruct persist; [|done].
  match goal with |- context [pop_nested f ?y] => pose proof (pop_nested_kept f Hft n y (conj Hp Hs1)) as Hk end.
  destruct (pop_nested _ _); [apply Hk|done..].
Qed.

(** ** Running frames *)

(** The top frame is gone at the end. *)
Definition pops {E A} (m : M (XState (B := B)) E A) : Prop :=
  ∀ n x, exec_inv (S n) x →
    match m x with Ok _ x' | Err _ x' => exec_inv n x' | Panic => True end.

Lemma enter_kept {A} args v w dl (f : WasmBlob → M XState ExecError A) :
  is_weight w → args_typed args → (∀ b, pops (f b)) →
  keeps (map_err from_dispatch (push_frame args v w dl) ≫= f).
Proof.
  intros Hw Ha Hf n x Hx. unfold mbind, M_bind, map_err.
  pose proof (push_kept args v w dl n x Hw Ha Hx) as Hp.
  destruct (push_frame _ _ _ _ x) as [b x'| |]; [|done..].
  specialize (Hf b n x' Hp). by destruct (f b x').
Qed.

Lemma cached_typed a k : Forall frame_typed (frames k) → ∀ i, cached_for a k = Some i → info_typed i.
Proof.
  intros Hf i. unfold cached_for. destruct (List.find _ _) as [f|] eqn:Hfind; [|done].
  apply List.find_some in Hfind as [Hin _]. apply base.list_elem_of_In in Hin.
  rewrite Forall_forall in Hf. destruct (Hf f Hin) as [_ Hi]. apply Hi.
Qed.

Section Program.
Context (run : WasmBlob → list Z → M (XState (B := B)) ExecError ExecReturnValue).
Hypothesis Hrun : ∀ b i, pops (run b i).
Hypothesis Hbase : 0 ≤ instruction_base.

Lemma ext_call_kept w dl a v i r : is_weight w → keeps (ext_call run w dl a v i r).
Proof.
  intros Hw. unfold ext_call, try_call.
  apply exec_bind; [apply keeps_on_top; [done|intros f [? ?]; by split]|intros _].
  apply exec_bind; [|intros o; apply exec_bind; [apply keeps_on_top; [done|intros f [? ?]; by split]|auto with exec]].
  apply kept_attempt. do 2 (apply exec_bind; [auto with exec|intros ?]).
  eapply (yields_bind _ _ _ _ _ _ (λ o, ∀ j, o = Some j → info_typed j)).
  { intros n x Hx. split; [done|]. apply cached_typed, Hx. }
  intros ci Hci. apply enter_kept; [done|by destruct ci; [apply Hci|]|]. intros b. apply Hrun.
Qed.

Lemma is_weight_zero : is_weight weight_zero.
Proof. unfold is_weight, weight_zero, u64_max. cbn. lia. Qed.

Lemma delegate_kept h i : keeps (ext_delegate_call run h i).
Proof.
  unfold ext_delegate_call. apply exec_bind; [auto with exec|intros e].
  eapply yields_bind; [apply get_info_typed|intros info Hi].
  do 2 (apply exec_bind; [auto with exec|intros ?]).
  apply enter_kept; [apply is_weight_zero|done|]. intros b. apply Hrun.
Qed.

Lemma instantiate_kept w dl h v i salt : is_weight w → keeps (ext_instantiate run w dl h v i salt).
Proof.
  intros Hw. unfold ext_instantiate. do 3 (apply exec_bind; [auto with exec|intros ?]).
  apply enter_kept; [done..|]. intros b n x Hx. unfold mbind, M_bind, gets.
  specialize (Hrun b i n x Hx). by destruct (run b i x).
Qed.

Lemma exec_kept p : prog_typed p → keeps (exec_prog run p).
Proof.
  induction p as [| |A op k IH|w dl a v i r k IH|h i k IH|w dl h v i salt k IH]; cbn.
  - auto with exec.
  - intros _. apply exec_bind; auto with exec.
  - intros [Ho Hk]. apply exec_bind; [by apply ext_op_kept|auto].
  - intros [Hw Hk]. apply exec_bind; [by apply ext_call_kept|auto].
  - intros Hk. apply exec_bind; [apply kept_attempt, delegate_kept|auto].
  - intros [Hw Hk]. apply exec_bind; [by apply kept_attempt, instantiate_kept|auto].
Qed.
End Program.

Lemma charge_instantiate_meters o c i (m m' : NestedMeter) i' (b b' : B) :
  charge_instantiate o c i m b = Ok (m', i') b' →
  m' = set_total instantiate_deposit m ∧ i' = set_base_deposit (charge_or_zero instantiate_deposit) i.
Proof. unfold charge_instantiate. intros Hc. monad_inv. done. Qed.

Lemma charge_new_kept : keeps charge_new_contract.
Proof.
  unfold charge_new_contract. do 2 (apply exec_bind; [auto with exec|intros ?]).
  eapply yields_bind; [apply get_info_typed|intros info Hi].
  intros d x Hx. unfold mbind, M_bind, gets.
  pose proof (keeps_in_store root storage first_limit limit _ (balances_same
    (charge_instantiate a0 (account_id (x_top x)) info (nested_storage (x_top x)))) d x Hx) as Hk.
  unfold in_store, in_balances, zoom in *.
  destruct (charge_instantiate _ _ _ _ _) as [[m i] b|e b|] eqn:Hc; [|done..].
  apply charge_instantiate_meters in Hc as [-> ->]. destruct Hk as [Hk _].
  pose proof (instantiate_deposit_unsigned Hprices) as Hu. set (D := instantiate_deposit) in *. clearbody D. cbn.
  split; [|done]. split; [|apply Hk]. apply inv_update; [|done|].
  - apply (set_meter_inv root storage first_limit limit d _ (set_total D (nested_storage (x_top x))) Hk);
      [done..|]. split; [done|]. apply (inv_top_typed _ _ _ _ _ _ (proj1 Hx)).
  - intros [? _]. split; [done|]. intros j [= <-]. unfold info_typed, charge_or_zero, unsigned in *. cbn.
    destruct D; destruct Hi as (? & ? & ? & ? & ?); repeat split; try done; lia.
Qed.

Definition check_kept (check : option ContractInfo → NestedMeter → (NestedMeter * option ContractInfo) * bool)
    : Prop :=
  ∀ i m, meter_typed m → (∀ j, i = Some j → info_typed j) →
    meter_limit (check i m).1.1 = meter_limit m ∧ meter_nested (check i m).1.1 = meter_nested m ∧
    meter_typed (check i m).1.1 ∧ ∀ j, (check i m).1.2 = Some j → info_typed j.

Lemma enforce_limit_kept : check_kept enforce_limit.
Proof.
  intros i m Hm Hi. destruct (enforce_limit_typed Hprices i m Hm Hi) as [Ht Ht'].
  split; [|split; [|done]]; unfold enforce_limit; destruct (contribution_update _ _); cbn; by destruct (is_alive m).
Qed.
Lemma enforce_subcall_kept : check_kept enforce_subcall_limit.
Proof.
  intros i m Hm Hi. unfold enforce_subcall_limit. destruct (meter_nested m) eqn:Hn; [done|].
  rewrite <- Hn. by apply enforce_limit_kept.
Qed.

Lemma enforce_kept check : check_kept check → keeps (enforce check).
Proof.
  intros Hk d x Hx. unfold enforce. unfold mbind at 1, M_bind, gets.
  pose proof (inv_top_typed _ _ _ _ _ _ (proj1 Hx)) as [Hm Hi].
  destruct (Hk (as_contract (contract_info (x_top x))) (nested_storage (x_top x)) Hm Hi) as (Hk1 & Hk2 & Hk3 & Hk4).
  destruct (check _ _) as [[m i] ok]. cbn in Hk1, Hk2, Hk3, Hk4.
  assert (exec_inv d (on_top (set_storage_meter m) x)) as Hx' by (by apply set_meter_inv).
  assert (keeps ((match i with Some i => modify (on_top (set_info (Cached i))) | None => mret tt end)
    ;; ensure ok limit_exhausted)) as Hrest.
  { apply exec_bind; [|auto with exec]. destruct i as [i|]; [|auto with exec].
    apply keeps_on_top; [done|]. intros f [? _]. split; [done|]. intros j [= <-]. by apply Hk4. }
  exact (Hrest d _ Hx').
Qed.

Lemma finish_kept e del : keeps (finish_frame e del).
Proof.
  unfold finish_frame. pose proof enforce_limit_kept as He. pose proof enforce_subcall_kept as Hs.
  apply exec_bind; [auto with exec|intros none].
  apply exec_bind; [destruct none; [apply exec_bind; [auto with exec|intros _; by apply enforce_kept]|auto with exec]|intros _].
  apply exec_bind; [auto with exec|intros f].
  destruct e; [apply exec_bind; [auto with exec|intros _]|destruct del as [h|]; [auto with exec|]];
    (apply exec_bind; [by apply enforce_kept|intros _]);
    repeat (apply exec_bind; [auto with exec|intros ?]); auto with exec.
Qed.

Lemma initial_transfer_kept : keeps initial_transfer.
Proof.
  unfold initial_transfer. apply exec_bind; [auto with exec|intros f].
  destruct (bool_decide _); [auto with exec|]. apply exec_bind; [auto with exec|intros c].
  destruct c; [destruct (_ =? 0)|]; auto with exec.
Qed.

Section Transaction.
Context `{!EngineTyped}.
Context (run : WasmBlob → list Z → M (XState (B := B)) ExecError ExecReturnValue).
Hypothesis Hrun : ∀ b i, pops (run b i).

Lemma execute_kept b f i : keeps (execute run b f i).
Proof.
  unfold execute.
  eapply (yields_bind _ _ _ _ _ _ (λ entry, load_module b f i = Some entry)).
  { intros n x Hx. by destruct (load_module b f i). }
  intros entry Hl. do 2 (apply exec_bind; [auto with exec|intros ?]).
  eapply (yields_bind _ _ _ _ _ _ (λ p, entry = Some p)).
  { intros n x Hx. by destruct entry. }
  intros p ->. apply exec_bind; [destruct (bool_decide _); auto with exec|intros _].
  destruct (load_module_program _ _ _ _ Hl) as [m ->].
  apply exec_bind; [apply exec_kept; [done|apply base_nonneg|apply program_typed]|intros [fuel r]].
  apply exec_bind; [apply kept_map_err, charge_fuel_kept, base_nonneg|intros _; auto with exec].
Qed.

Lemma do_transaction_kept e del b i : keeps (do_transaction run e del b i).
Proof.
  unfold do_transaction.
  apply exec_bind; [destruct (bool_decide _); [apply kept_map_err, charge_new_kept|auto with exec]|intros _].
  apply exec_bind; [apply kept_map_err, initial_transfer_kept|intros _].
  apply exec_bind; [apply kept_map_err, execute_kept|intros out].
  destruct (did_revert out); [auto with exec|].
  apply exec_bind; [apply kept_map_err, finish_kept|intros _; auto with exec].
Qed.

Lemma in_transaction_no_err (m : M (XState (B := B)) ExecError ExecReturnValue) x e x' :
  in_transaction m x ≠ Err e x'.
Proof. unfold in_transaction. by repeat case_match. Qed.

Lemma in_transaction_kept m : keeps m → keeps (in_transaction m).
Proof.
  intros Hm n x Hx. unfold in_transaction. specialize (Hm n x Hx).
  destruct Hx as [_ Hs]. destruct (m x) as [out x'|e x'|]; [|split; [split; [apply Hm|done]|done]|done].
  destruct Hm as [[Hm1 Hm2] _]. by destruct (did_revert out).
Qed.

Lemma run_with_pops b i : pops (run_with run b i).
Proof.
  intros n x Hx. unfold run_with, mbind, M_bind, gets.
  pose proof (in_transaction_kept _ (do_transaction_kept (entry_point (x_top x))
    (if bool_decide (is_Some (delegate_caller (x_top x))) then Some (blob_hash b) else None) b i) _ x Hx) as Ht.
  destruct (in_transaction _ x) as [[success out] x1|e x1|] eqn:He; [|by apply in_transaction_no_err in He|done].
  pose proof (pop_kept success n x1) as Hp.
  destruct Ht as [Ht _]. destruct (pop_frame success x1) as [[] x2| |]; [|by apply Hp|done]. destruct out; by apply Hp.
Qed.
End Transaction.

Lemma run_frame_pops `{!EngineTyped} d b i : pops (run_frame d b i).
Proof. revert b i. induction d as [|d IH]; intros b i; cbn; apply run_with_pops; [by intros b' i' n x Hx|exact IH]. Qed.
End Kept.

(** ** Whole calls *)

(** The pending charges of a frame fit its limit. *)
Definition within_limit (f : Frame) : Prop :=
  match deposit_add (total_deposit (nested_storage f))
          (contribution_update (own_contribution (nested_storage f)) (as_contract (contract_info f))).1 with
  | Charge a => a ≤ meter_limit (nested_storage f)
  | Refund _ => True
  end.

Lemma enforce_limit_within f m i :
  enforce_limit (as_contract (contract_info f)) (nested_storage f) = ((m, i), true) →
  within_limit (match i with Some i => set_info (Cached i) (set_storage_meter m f)
                           | None => set_storage_meter m f end).
Proof.
  unfold enforce_limit, within_limit. destruct (contribution_update _ _) as [dep i'] eqn:Hu.
  intros [= <- <- Hok].
  assert (match deposit_add (total_deposit (nested_storage f)) dep with
          | Charge a => a ≤ meter_limit (nested_storage f) | Refund _ => True end) as Hle.
  { destruct (deposit_add _ dep); [done|]. apply negb_true_iff in Hok. lia. }
  unfold is_alive, contribution_update in *. destruct (own_contribution (nested_storage f)) as [d|d|d] eqn:Ho.
  - by destruct i'.
  - injection Hu as -> <-. destruct (as_contract (contract_info f)) eqn:Hc; cbn; by rewrite Ho.
  - injection Hu as -> <-. destruct (as_contract (contract_info f)) eqn:Hc; cbn; by rewrite Ho.
Qed.

Lemma enforce_Ok check x x' :
  enforce check x = Ok tt x' →
  ∃ m i, check (as_contract (contract_info (x_top x))) (nested_storage (x_top x)) = ((m, i), true) ∧
    x_top x' = match i with Some i => set_info (Cached i) (set_storage_meter m (x_top x))
                          | None => set_storage_meter m (x_top x) end ∧
    (s_frames (x_stack x') = [] ↔ s_frames (x_stack x) = []).
Proof.
  unfold enforce, mbind, M_bind, gets. destruct (check _ _) as [[m i] ok] eqn:He.
  destruct i as [i|], ok; cbn; intros [= <-]; eexists m, _; (split; [done|]); unfold x_top; cbn;
    rewrite ?top_update, ?frames_update; done.
Qed.

Lemma subcall_within x x' :
  enforce enforce_subcall_limit x = Ok tt x' → meter_nested (nested_storage (x_top x)) = DerivedLimit →
  within_limit (x_top x) → within_limit (x_top x').
Proof.
  intros He Hd Hw. apply enforce_Ok in He as (m & i & He & -> & _).
  unfold enforce_subcall_limit in He. rewrite Hd in He. injection He as <- <-.
  unfold within_limit in *. destruct (as_contract (contract_info (x_top x))) eqn:Hc; cbn; by rewrite ?Hc.
Qed.

Lemma enforce_limit_nested i m : meter_nested (enforce_limit i m).1.1 = meter_nested m.
Proof. unfold enforce_limit. destruct (contribution_update _ _). cbn. by destruct (is_alive m). Qed.

Lemma finish_within e del x x' :
  finish_frame e del x = Ok tt x' → s_frames (x_stack x) = [] →
  meter_nested (nested_storage (x_top x)) = DerivedLimit → within_limit (x_top x').
Proof.
  intros Hf Hn Hd. unfold finish_frame in Hf.
  apply bind_Ok_inv in Hf as (none & x0 & [= <- <-] & Hf). rewrite bool_decide_eq_true_2 in Hf by done.
  apply bind_Ok_inv in Hf as ([] & x1 & Hs1 & Hf). apply bind_Ok_inv in Hs1 as ([] & x2 & [= <-] & Hs1).
  apply enforce_Ok in Hs1 as (m & i & He & Ht & _).
  assert (within_limit (x_top x1)) as Hw by (rewrite Ht; by apply enforce_limit_within).
  assert (meter_nested (nested_storage (x_top x1)) = DerivedLimit) as Hd1.
  { pose proof (enforce_limit_nested (as_contract (contract_info (x_top (load_top x))))
      (nested_storage (x_top (load_top x)))) as Hm. rewrite He in Hm. cbn in Hm.
    rewrite Ht. destruct i; cbn; rewrite Hm; unfold x_top, load_top, on_top, on_stack; cbn; by rewrite top_update. }
  apply bind_Ok_inv in Hf as (f & x0 & [= <- <-] & Hf).
  destruct e; [|destruct del as [h|]; [by injection Hf as <-|]].
  - apply bind_Ok_inv in Hf as ([] & x3 & Hs3 & Hf). inv_ok Hs3.
    apply bind_Ok_inv in Hf as ([] & x4 & Hs4 & Hf). apply (subcall_within _ _ Hs4) in Hw; [|done].
    apply bind_Ok_inv in Hf as (k & x5 & [= <- <-] & Hf).
    apply bind_Ok_inv in Hf as (c & x5 & Hs5 & Hf). inv_ok Hs5. by injection Hf as <-.
  - apply bind_Ok_inv in Hf as ([] & x4 & Hs4 & Hf). apply (subcall_within _ _ Hs4) in Hw; [|done].
    apply bind_Ok_inv in Hf as (k & x5 & [= <- <-] & Hf). by injection Hf as <-.
Qed.

Section First.
Context `{!EngineTyped}.
Context (root : GasMeter) (storage : Meter) (first_limit : Weight) (limit : Balance).
Abbreviation inv := (stack_inv root storage first_limit limit).
Abbreviation einv := (exec_inv (B := B) root storage first_limit limit).

Lemma inv_first k : inv 0 k → s_frames k = [] ∧ top_frame k = first_frame k ∧
  meter_nested (nested_storage (top_frame k)) = DerivedLimit ∧
  meter_limit (nested_storage (top_frame k)) = limit.
Proof.
  intros (_ & _ & _ & _ & _ & Hl & Hn & Hd & _). unfold top_frame. destruct (s_frames k); [|done]. done.
Qed.

Lemma keeps_Ok {E A} (m : M XState E A) n x a x' :
  keeps root storage first_limit limit m → einv n x → m x = Ok a x' → einv n x'.
Proof. intros Hm Hx He. specialize (Hm n x Hx). rewrite He in Hm. apply Hm. Qed.

Lemma do_transaction_within run e del b i x out x' :
  (∀ b i, pops root storage first_limit limit (run b i)) → einv 0 x →
  do_transaction run e del b i x = Ok out x' → did_revert out = false → within_limit (x_top x').
Proof.
  intros Hrun Hx Ht Hr. unfold do_transaction in Ht.
  apply bind_Ok_inv in Ht as ([] & x1 & Hs1 & Ht).
  apply bind_Ok_inv in Ht as ([] & x2 & Hs2 & Ht).
  apply bind_Ok_inv in Ht as (out' & x3 & Hs3 & Ht).
  assert (einv 0 x1) as Hx1.
  { destruct (bool_decide _); [|by injection Hs1 as <-].
    eapply keeps_Ok; [|exact Hx|exact Hs1]. apply kept_map_err, charge_new_kept. }
  assert (einv 0 x2) as Hx2.
  { eapply keeps_Ok; [|exact Hx1|exact Hs2]. apply kept_map_err, initial_transfer_kept. }
  assert (einv 0 x3) as Hx3.
  { eapply keeps_Ok; [|exact Hx2|exact Hs3]. by apply kept_map_err, execute_kept. }
  destruct (did_revert out') eqn:Hr'; [injection Ht as -> <-; congruence|].
  apply bind_Ok_inv in Ht as ([] & x4 & Hs4 & Ht). injection Ht as -> <-. inv_ok Hs4.
  destruct (inv_first _ (proj1 Hx3)) as (Hf & _ & Hd & _). by eapply finish_within.
Qed.

(** What is left of a call whose only frame was [f]. *)
Definition first_done (success : bool) x x' : Prop :=
  ∃ f, gas_inv (nested_gas f) ∧ gas_limit (nested_gas f) = first_limit ∧
    s_gas (x_stack x') = absorb_nested (nested_gas f) root ∧
    if success then
      within_limit f ∧ meter_limit (nested_storage f) = limit ∧ frame_typed f ∧
      ∃ a, s_storage (x_stack x') = (absorb (nested_storage f) a (as_contract (contract_info f)) storage).1
    else x_store x' = x_store x ∧ s_storage (x_stack x') = storage.

Lemma pop_frame_first success x :
  inv 0 (x_stack x) →
  pop_frame success x = pop_first success
    (if negb success && bool_decide (entry_point (x_top x) = Constructor) then on_stack revert_nonce x else x).
Proof.
  intros Hx. apply inv_first in Hx as (Hf & _). unfold pop_frame, mbind, M_bind, gets.
  destruct (_ && _); cbn; by rewrite Hf.
Qed.

Lemma pop_first_done success x x0 :
  inv 0 (x_stack x) → (success = true → within_limit (x_top x)) → (success = false → x_store x = x_store x0) →
  match pop_first success x with
  | Ok _ x' => first_done success x0 x'
  | Err _ _ => False
  | Panic => True
  end.
Proof.
  intros Hx Hw Hs. pose proof (inv_top_gas _ _ _ _ _ _ Hx) as Hi. pose proof (inv_top_typed _ _ _ _ _ _ Hx) as Hty. pose proof (inv_first _ Hx) as (Hf & Ht & Hd & Hl).
  destruct Hx as (_ & _ & Hr & Hst & Hfl & _). rewrite <- Ht in Hfl.
  unfold pop_first, mbind, M_bind, gets, modify. rewrite <- Ht, Hr, Hst. destruct success; cbn [negb].
  - unfold expect. destruct (cached_deposit_account _) as [a|]; [|done]. unfold mret, M_ret.
    destruct (absorb _ _ _ _) as [m c] eqn:Ha.
    assert (∀ k s, s_gas k = absorb_nested (nested_gas (top_frame (x_stack x))) root → s_storage k = m →
      first_done true x0 (mkX k s)) as Hdone.
    { intros k s Hg Hm. exists (top_frame (x_stack x)). cbn [x_stack]. rewrite Hg, Hm. do 3 (split; [done|]).
      split; [by apply Hw|]. split; [done|]. split; [done|]. exists a. by rewrite Ha. }
    destruct c, (s_nonce (x_stack x)); by apply Hdone.
  - exists (top_frame (x_stack x)). do 3 (split; [done|]). split; [by apply Hs|done].
Qed.

(** The storage has been rolled back. *)
Lemma pop_reverted x x1 :
  inv 0 (x_stack x1) →
  match pop_frame false (set_store (x_store x) x1) with
  | Ok _ x' => first_done false x x'
  | Err _ _ => False
  | Panic => True
  end.
Proof.
  intros Hk. rewrite pop_frame_first by done.
  apply pop_first_done; [by destruct (_ && _)|done|by destruct (_ && _)].
Qed.

Lemma run_first d b i x :
  einv 0 x →
  match run_frame d b i x with
  | Ok out x' => first_done (negb (did_revert out)) x x'
  | Err _ x' => first_done false x x'
  | Panic => True
  end.
Proof.
  intros Hx.
  assert (∃ run, run_frame d b i = run_with run b i ∧ ∀ b i, pops root storage first_limit limit (run b i))
    as (run & -> & Hrun).
  { destruct d as [|d]; eexists; (split; [done|]); [by intros b' i' n y Hy|].
    intros b' i'. by apply run_frame_pops. }
  unfold run_with, mbind, M_bind, gets. set (del := if bool_decide _ then _ else _).
  pose proof (do_transaction_kept _ _ _ _ run Hrun (entry_point (x_top x)) del b i 0%nat x Hx) as Hk.
  unfold in_transaction in *. destruct (do_transaction _ _ _ _ _ x) as [out x1|e x1|] eqn:Ht; [| |done].
  - pose proof (do_transaction_within run _ _ _ _ _ _ _ Hrun Hx Ht) as Hw. destruct Hk as [[Hk _] _].
    destruct (did_revert out) eqn:Hr.
    + pose proof (pop_reverted x x1 Hk) as Hp.
      destruct (pop_frame false _) as [[] x2|e x2|]; [|done..]. cbn. by rewrite Hr.
    + rewrite pop_frame_first by done. cbn [negb andb].
      pose proof (pop_first_done true x1 x Hk (λ _, Hw eq_refl) ltac:(done)) as Hp.
      destruct (pop_first true x1) as [[] x2|e x2|]; [|done..]. cbn. by rewrite Hr.
  - pose proof (pop_reverted x x1 (proj1 Hk)) as Hp. by destruct (pop_frame false _) as [[] x2|e' x2|].
Qed.
End First.

(** ** Outcomes *)

Lemma charge_after_root T D L :
  unsigned T → unsigned D → 0 ≤ L →
  (match deposit_add T D with Charge a => a ≤ L | Refund _ => True end) →
  charge_or_zero (deposit_add (deposit_add deposit_default T) D) ≤ L.
Proof.
  unfold unsigned, deposit_default. intros HT HD HL. destruct T as [t|t], D as [d|d]; cbn;
    unfold saturating_add, saturating_sub; repeat case_match; cbn in *; intros;
    unfold charge_or_zero, saturating_add, saturating_sub; repeat case_match; simplify_eq; lia.
Qed.

Lemma absorb_total (n : NestedMeter) a i (m : Meter) :
  total_deposit (absorb n a i m).1 =
    deposit_add (deposit_add (total_deposit m) (total_deposit n)) (contribution_update (own_contribution n) i).1.
Proof. unfold absorb. by destruct (contribution_update _ _). Qed.

Lemma nest_root limit : 0 ≤ limit → meter_nest 0 (meter_fresh limit tt : Meter) = meter_fresh limit DerivedLimit.
Proof.
  intros Hl. unfold meter_nest, available, available_of. cbn. unfold saturating_sub.
  rewrite Z.sub_0_r, Z.max_r, Z.min_r by lia. done.
Qed.

(** What a call leaves: less gas within the same limit; after a success a deposit within
    its limit, after a failure the storage and the pending deposits as they were. *)
Definition settled (limit : Balance) (c : CallState (B := B)) (success : bool) (c' : CallState) : Prop :=
  gas_inv (call_gas c') ∧ gas_limit (call_gas c') = gas_limit (call_gas c) ∧
  weight_le (gas_left (call_gas c')) (gas_left (call_gas c)) ∧
  if success then charge_or_zero (total_deposit (call_storage c')) ≤ limit
  else call_store c' = call_store c ∧ call_storage c' = call_storage c.

Lemma absorb_first f g1 g root w :
  gas_inv g → gas_inv g1 → gas_limit g1 = gas_limit g → weight_le (gas_left g1) (gas_left g) →
  is_weight w → gas_nested w g1 = ROk (root, f) →
  ∀ f', gas_inv f' → gas_limit f' = gas_limit f →
  gas_inv (absorb_nested f' root) ∧ gas_limit (absorb_nested f' root) = gas_limit g ∧
  weight_le (gas_left (absorb_nested f' root)) (gas_left g).
Proof.
  intros Hg Hg1 Hl Hle Hw Hn f' Hf' Hlf.
  destruct (chain_push g1 root f w [] Hw (chain_single g1 Hg1) Hn) as (_ & _ & _ & Hroot).
  assert (gas_chain weight_zero [f'; root]) as Hch.
  { destruct (chain_single f' Hf') as (Hf1 & Hf2 & Hf3 & _). cbn [gas_chain]. rewrite Hlf in *. done. }
  apply chain_pop in Hch. split; [apply Hch|]. cbn [gas_chain] in Hch. destruct Hch as (Hi & _).
  clear Hi Hroot. apply gas_nested_Ok in Hn as (Hle1 & -> & ->).
  split; [exact Hl|]. set (am := nested_amount w g1) in *. clearbody am. destruct f' as [fl fr fw fe].
  unfold absorb_nested, weight_le, gas_inv, is_weight, weight_le, weight_add, wrap64, u64_max in *.
  cbn in *. subst fl. rewrite !Z.mod_small by lia. lia.
Qed.

Lemma stack_outcome `{!EngineTyped} limit args origin v i d (c : CallState) :
  gas_inv (call_gas c) → store_typed (call_store c) → 0 ≤ limit → call_storage c = meter_fresh limit tt →
  args_typed args →
  match run_stack_with args origin v i d c with
  | Ok (_, out) c' => settled limit c (negb (did_revert out)) c'
  | Err _ c' => settled limit c false c'
  | Panic => True
  end.
Proof.
  intros Hg Hs Hl Hst Ha. unfold run_stack_with.
  pose proof (new_frame_spec args v weight_zero (call_storage c) 0 d (call_gas c) (call_store c) Hg Hs Ha) as Hn.
  destruct (new_frame _ _ _ _ _ _ _ _) as [g [[[first b] nonce]|e]]; [|unfold settled; cbn; tauto].
  destruct Hn as (Hft & Hm & g1 & Hg1 & Hl1 & Hle & Hnest). rewrite Hst, nest_root in Hm by done.
  set (k := mkStack _ _ _ _ _ _ _).
  assert (exec_inv g (call_storage c) (gas_limit (nested_gas first)) limit 0 (mkX k (call_store c))) as Hx.
  { split; [|done]. unfold stack_inv, k. cbn [frames s_frames first_frame app map x_stack]. rewrite Hm.
    split; [|split; [by constructor|repeat split; unfold CallStack_size; lia || done]].
    apply chain_single. apply (chain_push g1 g _ _ [] is_weight_zero (chain_single g1 Hg1) Hnest). }
  pose proof (run_first g (call_storage c) _ limit CallStack_size b i _ Hx) as Hr.
  assert (∀ success x', first_done g (call_storage c) (gas_limit (nested_gas first)) limit success
      (mkX k (call_store c)) x' →
    settled limit c success (mkCall (s_gas (x_stack x')) (s_storage (x_stack x')) (x_store x'))) as Hdone.
  { intros success x' (f & Hfi & Hfl & Hgas & Hrest). unfold settled. cbn [call_gas call_storage call_store].
    rewrite Hgas. destruct (absorb_first _ g1 (call_gas c) g _ Hg Hg1 Hl1 Hle is_weight_zero Hnest _ Hfi Hfl)
      as (Ha1 & Ha2 & Ha3). do 3 (split; [done|]). destruct success; [|done].
    destruct Hrest as (Hw & Hlim & [[Ht1 Ht2] Hti] & a & ->). rewrite absorb_total, Hst. cbn [meter_fresh total_deposit].
    apply charge_after_root; [done| |done|by rewrite <- Hlim].
    by apply (contribution_update_typed Hprices). }
  destruct (run_frame _ _ _ _) as [out x'|e x'|]; [by apply Hdone..|done].
Qed.

Lemma run_call_outcome `{!EngineTyped} limit (c : CallState) origin dest v i d :
  gas_inv (call_gas c) → store_typed (call_store c) → 0 ≤ limit → call_storage c = meter_fresh limit tt →
  match run_call origin dest v i d c with
  | Ok out c' => settled limit c (negb (did_revert out)) c'
  | Err _ c' => settled limit c false c'
  | Panic => True
  end.
Proof.
  intros Hg Hs Hl Hst. unfold run_call, mbind, M_bind.
  pose proof (stack_outcome limit (ArgsCall dest None None) origin v i d c Hg Hs Hl Hst I) as Ho.
  by destruct (run_stack_with _ _ _ _ _ c) as [[a out] c'| |].
Qed.

(** C6: A call or an instantiation uses gas within its limit and never adds any; when it
    succeeds its deposit stays within the limit it was given, and when it fails or reverts
    the storage, the balances and the pending deposits are as before.  The price of the
    storage and the machine integers of the engine are the only assumptions. *)
Theorem call_outcome `{!EngineTyped} limit (c : CallState) :
  gas_inv (call_gas c) → store_typed (call_store c) → 0 ≤ limit → call_storage c = meter_fresh limit tt →
  (∀ origin dest v i d,
     match run_call origin dest v i d c with
     | Ok out c' => settled limit c (negb (did_revert out)) c'
     | Err _ c' => settled limit c false c'
     | Panic => True
     end) ∧
  (∀ origin b v i salt,
     match run_instantiate origin b v i salt c with
     | Ok (_, out) c' => settled limit c (negb (did_revert out)) c'
     | Err _ c' => settled limit c false c'
     | Panic => True
     end).
Proof.
  intros Hg Hs Hl Hst. split; intros.
  - by apply run_call_outcome.
  - apply (stack_outcome limit (ArgsInstantiate _ _ b salt i) _ v i Enforced c Hg Hs Hl Hst I).
Qed.
End Facts.
