(* ===== verification/ExecSafety.v ===== *)
(** * Calls do not trap

    Frames keep a cache of the information on their contract, which other frames make stale.
    Reading it traps when it is stale and the contract is not in storage, or when the
    contract was terminated; charging the storage meter traps when the contract is no longer
    alive.  When constructors make no calls, none of this happens. *)

From S2P Require Import Prelude Types AccountManager ContractsRegistry ThreeVm Gas Deposits.
From S2P Require Import WasmModule ContractStore Exec ExecOutcomes.

Fixpoint no_calls (p : Prog) : Prop :=
  match p with
  | PEnd _ _ | PTerminate _ _ => True
  | PDo _ k => ∀ a, no_calls (k a)
  | PCall _ _ _ _ _ _ _ | PDelegateCall _ _ _ | PInstantiate _ _ _ _ _ _ _ => False
  end.

(** What a program of the entry point [e] may do. *)
Definition may_run (e : ExportedFunction) (p : Prog) : Prop := e = Constructor → no_calls p.

Class QuietConstructors `{!WasmEngine} :=
  constructor_quiet m i fuel : no_calls (wasm_program m Constructor i fuel).

Section Safety.
Context {B : Type} `{!ContractsCurrency B} `{!Hashing} `{!ContractsLib} `{!WasmEngine}.
Implicit Types (x : XState (B := B)) (k : Stack) (s : Contracts B).

(** ** What frames satisfy *)

Definition present s (a : AccountId) : Prop := is_Some (ContractInfoOf s !! a).

Definition lower_sane (f : Frame) : Prop :=
  entry_point f = CallFunction ∧ is_alive (nested_storage f) = true ∧
  match contract_info f with CTerminated _ => False | _ => True end.

Definition top_sane s (f : Frame) : Prop :=
  is_alive (nested_storage f) = true ∧
  match contract_info f with
  | Cached _ => True
  | Invalidated => present s (account_id f)
  | CTerminated _ => False
  end.

(** The frames below the top are those of the accounts [sh], which are in storage. *)
Definition low_inv (sh : list AccountId) x : Prop :=
  map account_id (lower_frames (x_stack x)) = sh ∧ Forall lower_sane (lower_frames (x_stack x)) ∧
  Forall (present (x_store x)) sh.

Definition top_inv (a : AccountId) (e : ExportedFunction) x : Prop :=
  account_id (x_top x) = a ∧ entry_point (x_top x) = e ∧ top_sane (x_store x) (x_top x).

Definition safe a e sh x : Prop := low_inv sh x ∧ top_inv a e x.

(** The program of the top frame is over. *)
Definition ended sh x : Prop :=
  low_inv sh x ∧ (contract_info (x_top x) = Invalidated → present (x_store x) (account_id (x_top x))).

Lemma safe_ended a e sh x : safe a e sh x → ended sh x.
Proof. intros [Hl (_ & _ & _ & Ht)]. split; [done|]. intros He. by rewrite He in Ht. Qed.

(** What remains after the top frame was popped. *)
Definition after (sh : list AccountId) x : Prop :=
  match sh with [] => True | a :: sh' => safe a CallFunction sh' x end.

Definition grows s s' : Prop := ∀ a, present s a → present s' a.

Lemma safe_store a e sh x s : safe a e sh x → grows (x_store x) s → safe a e sh (set_store s x).
Proof.
  intros [(H1' & H2' & H3') (H4 & H5 & H6 & H7)] Hg. split; [split; [done|split; [done|]]|].
  - eapply Forall_impl; [exact H3'|]. cbn. auto.
  - split; [done|]. split; [done|]. split; [done|]. unfold x_top in *. cbn.
    destruct (contract_info _); [done| |done]. by apply Hg.
Qed.

Lemma low_update sh x g : low_inv sh x → low_inv sh (on_top g x).
Proof. intros (H1' & H2' & H3'). unfold low_inv, on_top, on_stack. cbn. by rewrite lower_update. Qed.

Lemma safe_update a e sh x g :
  safe a e sh x → account_id (g (x_top x)) = a → entry_point (g (x_top x)) = e →
  top_sane (x_store x) (g (x_top x)) → safe a e sh (on_top g x).
Proof.
  intros [Hl _] Ha He Ht. split; [by apply low_update|]. unfold top_inv, x_top, on_top, on_stack in *. cbn.
  by rewrite top_update.
Qed.

(** ** Operations that are safe *)

Definition safely {E A} (m : M (XState (B := B)) E A) : Prop :=
  ∀ a e sh x, safe a e sh x → wp m (λ _ x', safe a e sh x') (λ _ x', safe a e sh x') x.

Lemma safely_bind {E A A'} (m : M XState E A) (f : A → M XState E A') :
  safely m → (∀ a, safely (f a)) → safely (m ≫= f).
Proof.
  intros Hm Hf a e sh x Hx. apply wp_bind. eapply wp_mono; [by apply Hm| |done].
  intros r x' Hx'. by apply Hf.
Qed.
Lemma safely_ret {E A} (r : A) : safely (E := E) (mret r).
Proof. by intros a e sh x Hx. Qed.
Lemma safely_gets {E A} (f : XState → A) : safely (E := E) (gets f).
Proof. by intros a e sh x Hx. Qed.
Lemma safely_throw {E A} (err : E) : safely (A := A) (throw err).
Proof. by intros a e sh x Hx. Qed.
Lemma safely_ensure {E} b (err : E) : safely (ensure b err).
Proof. intros a e sh x Hx. by destruct b. Qed.
Lemma safely_lift {E A} (r : result E A) : safely (lift_result r).
Proof. intros a e sh x Hx. by destruct r. Qed.
Lemma safely_ok_or {E A} (o : option A) (err : E) : safely (ok_or o err).
Proof. intros a e sh x Hx. by destruct o. Qed.
Lemma safely_map_err {E E' A} (f : E → E') (m : M XState E A) : safely m → safely (map_err f m).
Proof. intros Hm a e sh x Hx. apply wp_map_err. by apply Hm. Qed.
Lemma safely_attempt {E E' A} (m : M XState E A) : safely m → safely (E := E') (attempt m).
Proof. intros Hm a e sh x Hx. apply wp_attempt. by apply Hm. Qed.
Lemma safely_modify {E} g : (∀ a e sh x, safe a e sh x → safe a e sh (g x)) → safely (E := E) (modify g).
Proof. intros Hg a e sh x Hx. by apply Hg. Qed.

(** The top frame keeps its account, its entry point and its sanity. *)
Lemma safely_on_top {E} g :
  (∀ s f, account_id (g f) = account_id f ∧ entry_point (g f) = entry_point f ∧
     (top_sane s f → top_sane s (g f))) →
  safely (E := E) (modify (on_top g)).
Proof.
  intros Hg. apply safely_modify. intros a e sh x [Hl (Ha & He & Ht)].
  destruct (Hg (x_store x) (x_top x)) as (Hg1 & Hg2 & Hg3). apply safe_update; [by split|congruence..|auto].
Qed.

Lemma safely_set_store {E} (g : XState → Contracts B) :
  (∀ x, grows (x_store x) (g x)) → safely (E := E) (modify (λ x, set_store (g x) x)).
Proof. intros Hg. apply safely_modify. intros a e sh x Hx. by apply safe_store. Qed.

Lemma safely_in_store {A} (m : M (Contracts B) DispatchError A) :
  (∀ s, match m s with Ok _ s' | Err _ s' => grows s s' | Panic => False end) → safely (in_store m).
Proof.
  intros Hm a e sh x Hx. unfold in_store, zoom, wp. specialize (Hm (x_store x)).
  destruct (m _); [by apply safe_store..|done].
Qed.

Lemma grows_refl s : grows s s.
Proof. by intros a. Qed.

Lemma safely_balances {A} (m : M B DispatchError A) : (∀ b, m b ≠ Panic) → safely (in_store (in_balances m)).
Proof.
  intros Hm. apply safely_in_store. intros s. unfold in_balances, zoom. specialize (Hm (c_bank s)).
  destruct (m _); [exact (grows_refl s)..|done].
Qed.

Lemma lift_bank_total (f : B → result DispatchError B) b : lift_bank f b ≠ Panic.
Proof. unfold lift_bank. by destruct (f b). Qed.

Create HintDb safely.
Hint Resolve safely_ret safely_gets safely_throw safely_ensure safely_lift safely_ok_or safely_map_err
  safely_attempt safely_balances lift_bank_total : safely.

Ltac safe_steps :=
  repeat first
    [ solve [auto with safely]
    | apply safely_bind; [|intros ?]
    | apply safely_map_err | apply safely_attempt
    | apply safely_on_top; intros ? ?; (split; [done|split; [done|intros [? ?]; by split]])
    | apply safely_set_store; let y := fresh in intros y; exact (grows_refl (x_store y)) ].

Lemma load_top_safe {E} : safely (E := E) (modify load_top).
Proof.
  apply safely_modify. intros a e sh x Hx. pose proof Hx as [_ (Ha & He & Ht1 & Ht2)].
  apply safe_update; [done..|]. split; [done|]. cbn.
  destruct (contract_info (x_top x)); cbn; [done| |done]. by destruct (ContractInfoOf _ !! _).
Qed.

(** Reading the information finds it. *)
Lemma get_info_safe {E} : safely (E := E) get_info.
Proof.
  intros a e sh x Hx. unfold get_info. apply wp_bind, wp_modify, wp_bind, wp_gets.
  assert (safe a e sh (load_top x)) as Hl by (by apply (load_top_safe (E := E))).
  assert (∃ i, contract_info (x_top (load_top x)) = Cached i) as [i Hi].
  { destruct Hx as [_ (_ & _ & _ & Ht)]. unfold x_top, load_top, on_top, on_stack in *. cbn. rewrite top_update. cbn.
    destruct (contract_info _) as [i| |]; [by exists i| |done]. destruct Ht as [i Hi]. cbn. rewrite Hi. by exists i. }
  eapply wp_expect; [by rewrite Hi|done].
Qed.
Hint Resolve load_top_safe get_info_safe : safely.

Lemma set_top_gas_safe {E} g : safely (E := E) (modify (set_top_gas g)).
Proof. by apply safely_on_top. Qed.
Hint Resolve set_top_gas_safe : safely.

Lemma load_executable_safe h : safely (load_executable h).
Proof.
  intros a e sh x Hx. unfold load_executable, wp. destruct (from_storage _ _ _) as [g [b|err]];
    by apply (set_top_gas_safe (E := DispatchError) g a e sh x Hx).
Qed.

Lemma charge_fuel_safe n : safely (ext_charge_fuel n).
Proof.
  intros a e sh x Hx. unfold ext_charge_fuel, wp. destruct (charge_fuel _ _ _) as [g [w|err]];
    by apply (set_top_gas_safe (E := DispatchError) g a e sh x Hx).
Qed.

Lemma emit_safe ev {E} : safely (E := E) (emit ev).
Proof. unfold emit. safe_steps. Qed.
Hint Resolve load_executable_safe charge_fuel_safe emit_safe : safely.

Lemma set_storage_safe key v t : safely (ext_set_storage key v t).
Proof.
  unfold ext_set_storage. apply safely_bind; [auto with safely|intros i a e sh x Hx].
  apply wp_bind, wp_gets, wp_bind, wp_map_err. pose proof Hx as [_ (_ & _ & Ha & _)].
  assert (∃ m w s', info_write i key v t (nested_storage (x_top x)) (x_store x) = Ok (m, w) s' ∧
    is_alive m = true ∧ grows (x_store x) s') as (m & w & s' & Hw & Hm & Hg).
  { unfold info_write, mbind, M_bind, gets, meter_charge, expect. unfold is_alive in Ha.
    destruct (own_contribution (nested_storage (x_top x))) as [d|d|d] eqn:Ho; try done. cbn.
    do 3 eexists. split; [done|]. split; [done|]. destruct v; exact (grows_refl (x_store x)). }
  unfold in_store, zoom, wp. rewrite Hw. cbn.
  pose proof (safe_store a e sh x s' Hx Hg) as Hx'. pose proof Hx' as [_ (Ha' & He' & _ & Ht')].
  by apply safe_update.
Qed.

Lemma decrement_grows h s : grows s (decrement_refcount h s).
Proof. unfold grows, present. by rewrite decrement_same. Qed.

Lemma refcount_safe h : safely (in_store (increment_refcount h)).
Proof.
  apply safely_in_store. intros s. unfold increment_refcount, mbind, M_bind, gets.
  destruct (CodeInfoOf s !! h); exact (grows_refl s).
Qed.

Lemma set_code_hash_safe h : safely (ext_set_code_hash h).
Proof.
  unfold ext_set_code_hash. do 2 (apply safely_bind; [auto with safely|intros ?]).
  apply safely_bind; [apply refcount_safe|intros _].
  apply safely_bind; [auto with safely|intros i].
  apply safely_bind; [apply safely_set_store; intros x; apply decrement_grows|intros _]. safe_steps.
Qed.

Lemma nonce_safe_stack {E} f : safely (E := E) (modify (on_stack (set_stack_nonce f))).
Proof. by apply safely_modify. Qed.
Lemma nonce_safe {E} : safely (E := E) ext_nonce.
Proof. unfold ext_nonce. apply safely_bind; [auto with safely|intros x]. apply safely_bind; [apply nonce_safe_stack|auto with safely]. Qed.
Lemma next_nonce_safe {E} : safely (E := E) next_nonce.
Proof. unfold next_nonce. apply safely_bind; [apply nonce_safe|intros x]. apply safely_bind; [apply nonce_safe_stack|auto with safely]. Qed.
Lemma transfer_safe a b v : safely (transfer_kept a b v).
Proof. unfold transfer_kept. safe_steps. Qed.
Hint Resolve set_storage_safe set_code_hash_safe nonce_safe next_nonce_safe transfer_safe : safely.

Lemma top_gas_safe {E} : safely (E := E) get_top_gas.
Proof. apply safely_gets. Qed.
Hint Resolve top_gas_safe : safely.

Lemma ext_op_safe {A} (op : ExtOp A) : safely (ext_op op).
Proof.
  destruct op; cbn [ext_op]; unfold ext_transfer, ext_get_storage, ext_get_storage_size, ext_charge_gas;
    try solve [auto with safely]; safe_steps.
Qed.

(** Terminating is the last thing a frame does. *)
Definition gone (sh : list AccountId) x : Prop :=
  low_inv sh x ∧ ∃ d, contract_info (x_top x) = CTerminated d.

Lemma gone_ended sh x : gone sh x → ended sh x.
Proof. intros [Hl [d Hd]]. split; [done|]. by rewrite Hd. Qed.

Lemma gone_store sh x s :
  gone sh x → (∀ a, a ∈ sh → present (x_store x) a → present s a) → gone sh (set_store s x).
Proof.
  intros [(Hl1 & Hl2 & Hl3) Hd] Hs. split; [|done]. split; [done|]. split; [done|].
  apply Forall_forall. intros b Hb. rewrite Forall_forall in Hl3. by apply Hs; [|apply Hl3].
Qed.

Lemma not_recursive x sh :
  low_inv sh x → is_recursive (x_stack x) = false → account_id (x_top x) ∉ sh.
Proof.
  intros (<- & _) Hr Hin. apply list_elem_of_fmap in Hin as (f & Hf & Hin).
  apply not_true_iff_false in Hr. apply Hr, existsb_exists. exists f. split; [by apply list_elem_of_In|].
  apply Z.eqb_eq. done.
Qed.

Lemma terminate_ends b a e sh x :
  safe a e sh x → wp (ext_terminate b) (λ _ x', ended sh x') (λ _ x', ended sh x') x.
Proof.
  intros Hx. unfold ext_terminate. apply wp_bind, wp_gets, wp_bind.
  apply wp_ensure; [|intros _; by eapply safe_ended]. intros Hrec. apply negb_true_iff in Hrec.
  pose proof (not_recursive x sh (proj1 Hx) Hrec) as Hna. destruct Hx as [Hl Ht].
  rewrite (proj1 Ht) in Hna.
  apply wp_bind. eapply wp_mono; [by apply (get_info_safe a e sh x)| |intros err x2 Hs; exact (safe_ended _ _ _ _ Hs)].
  clear x Hl Ht Hrec. intros info x [Hl (Ha & _)]. rewrite <- Ha in Hna. clear a Ha.
  apply wp_bind, wp_gets, wp_bind, wp_modify, wp_bind, wp_modify. set (a := account_id (x_top x)) in *.
  set (x1 := on_top _ (on_top _ x)).
  assert (gone sh x1) as Hx1.
  { split; [by repeat apply low_update|]. exists (deposit_account info).
    unfold x1, x_top, on_top, on_stack. cbn. by rewrite !top_update. }
  clearbody x1. apply wp_bind. unfold wp at 1. cbn. apply wp_bind, wp_gets, wp_bind.
  match goal with |- context [set_store ?s x1] => assert (gone sh (set_store s x1)) as Hx2 by (by apply gone_store) end.
  revert Hx2. generalize (set_store (set_bank (dec_consumers a (c_bank (x_store x1))) (x_store x1)) x1).
  clear x1 Hx1. intros x1 Hx1. unfold in_store, in_balances, zoom, lift_bank.
  unfold wp at 1. destruct (cc_transfer _ _ _ _ _) as [b'|err]; [|by apply gone_ended, gone_store].
  cbn. apply wp_bind, wp_modify, wp_bind, wp_modify, wp_bind, wp_modify, wp_modify.
  apply gone_ended. repeat (apply gone_store; [|try done]).
  - done.
  - intros c Hc Hp. unfold present. cbn. rewrite lookup_delete_ne; [done|]. by intros ->.
  - intros c _ Hp. by apply decrement_grows.
Qed.

(** ** Pushing and popping *)

Definition args_entry (args : FrameArgs) : ExportedFunction :=
  match args with ArgsCall _ _ _ => CallFunction | ArgsInstantiate _ _ _ _ _ => Constructor end.

Lemma new_frame_shape {St} args v w (m : RawMeter St) dl d g s g' f b n :
  new_frame args v w m dl d g s = (g', ROk (f, b, n)) →
  entry_point f = args_entry args ∧ is_alive (nested_storage f) = true ∧ ∃ i, contract_info f = Cached i.
Proof.
  intros Hn. assert (is_alive (meter_nest dl m) = true) as Hm by (unfold meter_nest; by destruct (_ =? 0)).
  unfold new_frame in Hn. repeat (case_match; try discriminate Hn); simplify_eq; cbn; eauto.
Qed.

Lemma length_lower k : length (lower_frames k) = length (s_frames k).
Proof. unfold lower_frames. destruct (s_frames k); [done|]. cbn. rewrite length_app. cbn. lia. Qed.

Lemma persist_present a sh x :
  safe a CallFunction sh x → safe a CallFunction sh (persist_top x) ∧ present (x_store (persist_top x)) a.
Proof.
  intros Hx. pose proof Hx as [_ (Ha & He & _ & Ht)]. unfold persist_top. rewrite He.
  destruct (contract_info (x_top x)) as [i| |] eqn:Hc; [|split; [done|by rewrite <- Ha]|done]. split.
  - apply safe_store; [done|]. intros c [j Hj]. unfold present. cbn.
    destruct (decide (c = account_id (x_top x))) as [->|Hne]; [rewrite lookup_insert_eq|rewrite lookup_insert_ne]; eauto.
  - rewrite <- Ha. unfold present. cbn. rewrite lookup_insert_eq. eauto.
Qed.

Lemma push_safe args v w dl a sh x :
  safe a CallFunction sh x →
  wp (push_frame args v w dl)
    (λ _ x', length sh ≠ CallStack_size ∧ ∃ a', safe a' (args_entry args) (a :: sh) x')
    (λ _ x', safe a CallFunction sh x') x.
Proof.
  intros Hx. unfold push_frame. apply wp_bind, wp_gets, wp_bind, wp_ensure; [|done]. intros Hd.
  apply negb_true_iff, Nat.eqb_neq in Hd. apply wp_bind, wp_modify.
  destruct (persist_present a sh x Hx) as [Hp Hpa]. pose proof Hx as [(Hsh & _) _].
  assert (length sh = length (s_frames (x_stack x))) as Hlen by (by rewrite <- Hsh, length_map, length_lower).
  unfold push_new, wp.
  destruct (new_frame _ _ _ _ _ _ _ _) as [g [[[f b] n]|err]] eqn:Hn;
    pose proof (set_top_gas_safe (E := DispatchError) g _ _ _ _ Hp) as Hg.
  - apply new_frame_shape in Hn as (Hf1 & Hf2 & i & Hf3). split; [lia|]. exists (account_id f).
    destruct Hg as [(Hg1 & Hg2 & Hg3) (Hg4 & Hg5 & Hg6 & Hg7)].
    assert (lower_frames (push f (x_stack (set_top_gas g (persist_top x)))) =
      x_top (set_top_gas g (persist_top x)) :: lower_frames (x_stack (set_top_gas g (persist_top x)))) as Hlow.
    { unfold x_top. rewrite <- frames_top. done. }
    split.
    + unfold low_inv, on_stack. cbn [x_stack x_store]. rewrite Hlow. cbn [map]. rewrite Hg1, Hg4. split; [done|].
      split; constructor; try done. split; [done|]. split; [done|].
      revert Hg7. by destruct (contract_info (x_top (set_top_gas g (persist_top x)))).
    + split; [done|]. split; [done|]. split; [done|]. unfold x_top. cbn. by rewrite Hf3.
  - exact Hg.
Qed.

Lemma invalidate_sane a l :
  Forall lower_sane l → Forall lower_sane (invalidate a l) ∧ map account_id (invalidate a l) = map account_id l.
Proof.
  induction 1 as [|f l Hf Hl [IH1 IH2]]; cbn; [done|]. destruct Hf as (? & ? & ?).
  destruct (_ =? a); cbn; (split; [|congruence]); constructor; try done; by split.
Qed.

Lemma invalidate_lower_safe a e sh c x : safe a e sh x → safe a e sh (on_stack (invalidate_lower c) x).
Proof.
  intros [(Hl1 & Hl2 & Hl3) Ht]. unfold on_stack, invalidate_lower.
  destruct (s_frames (x_stack x)) as [|f l] eqn:He; [by destruct x|].
  unfold safe, low_inv, top_inv, x_top, top_frame, lower_frames in *. rewrite He in *.
  apply Forall_app in Hl2 as [Hl2 Hl4]. apply Forall_cons in Hl4 as [(Hl5 & Hl6 & Hl7) _].
  destruct (invalidate_sane c l Hl2) as [Hi1 Hi2]. rewrite map_app in Hl1.
  destruct (existsb _ l); [|destruct (_ =? c)]; cbn; rewrite ?He,  ?map_app, ?Hi2;
    (split; [split; [done|split; [|done]]|done]); apply Forall_app; (split; [done|]);
    constructor; try done; by split.
Qed.

(** The frame [f] was on top, with the frames of [a :: sh] below. *)
Lemma pop_nested_safe f a sh x :
  safe a CallFunction sh x → (contract_info f = Invalidated → present (x_store x) (account_id f)) →
  wp (pop_nested f) (λ _ x', safe a CallFunction sh x') (λ _ _, False) x.
Proof.
  intros Hx Hf. unfold pop_nested. apply wp_bind, wp_gets, wp_bind.
  assert (∃ da, cached_deposit_account (load_cached (x_store x) (account_id f) (contract_info f)) = Some da) as [da Hda].
  { destruct (contract_info f) as [i| |d]; cbn; eauto. destruct (Hf eq_refl) as [i Hi]. rewrite Hi. cbn. eauto. }
  eapply wp_expect; [exact Hda|]. apply wp_bind, wp_gets.
  assert (is_alive (absorb (nested_storage f) da (as_contract (load_cached (x_store x) (account_id f)
    (contract_info f))) (nested_storage (x_top x))).1 = is_alive (nested_storage (x_top x))) as Hal.
  { unfold absorb. by destruct (contribution_update _ _). }
  destruct (absorb _ _ _ _) as [m c]. cbn [fst] in Hal. apply wp_bind, wp_modify.
  pose proof Hx as [_ (Ha & He & Ht1 & Ht2)].
  assert (safe a CallFunction sh (on_top (set_storage_meter m) x)) as Hx1.
  { apply safe_update; [done..|]. split; [|done]. cbn. by rewrite Hal. }
  destruct c as [i|]; [|done]. destruct (_ =? _).
  - apply wp_modify. pose proof Hx1 as [_ (Ha1 & He1 & Ht3 & _)]. by apply safe_update.
  - apply wp_bind, wp_modify, wp_modify. apply invalidate_lower_safe, safe_store; [done|].
    intros c [j Hj]. unfold present. cbn. destruct (decide (c = account_id f)) as [->|Hne];
      [rewrite lookup_insert_eq|rewrite lookup_insert_ne]; eauto.
Qed.

Lemma sane_top s f : lower_sane f → present s (account_id f) → top_sane s f.
Proof. intros (_ & Ha & Hc) Hp. split; [done|]. by destruct (contract_info f). Qed.

(** The next frame comes to the top. *)
Lemma uncover f rest a sh x g :
  s_frames (x_stack x) = f :: rest → low_inv (a :: sh) x →
  safe a CallFunction sh
    (on_top (λ prev, set_gas (g prev) prev) (on_stack (λ k, with_frames rest (first_frame k) k) x)).
Proof.
  intros He (Hl1 & Hl2 & Hl3).
  set (x1 := on_stack _ x).
  assert (lower_frames (x_stack x) = x_top x1 :: lower_frames (x_stack x1)) as Hlow.
  { unfold x1, x_top, on_stack. cbn. rewrite <- frames_top. unfold frames, lower_frames. by rewrite He. }
  rewrite Hlow in Hl1, Hl2. cbn in Hl1. injection Hl1 as Ha Hsh.
  apply Forall_cons in Hl2 as [Hs Hl2]. apply Forall_cons in Hl3 as [Hp Hl3].
  assert (safe a CallFunction sh x1) as Hx1.
  { split; [done|]. split; [done|]. split; [apply Hs|]. apply sane_top; [done|]. by rewrite Ha. }
  pose proof Hx1 as [_ (_ & He1 & Ht)]. by apply safe_update.
Qed.

Lemma pop_safe persist a sh x :
  low_inv (a :: sh) x → (persist = true → ended (a :: sh) x) →
  wp (pop_frame persist) (λ _ x', safe a CallFunction sh x') (λ _ _, False) x.
Proof.
  intros Hl Hp. unfold pop_frame. apply wp_bind, wp_gets, wp_bind.
  set (m := if _ && _ then _ else _).
  assert (∃ x1, m x = Ok tt x1 ∧ low_inv (a :: sh) x1 ∧ x_store x1 = x_store x ∧
    s_frames (x_stack x1) = s_frames (x_stack x) ∧ x_top x1 = x_top x) as (x1 & Hm & Hl1 & Hs & Hf & Ht).
  { unfold m. destruct (_ && _); by eexists. }
  unfold wp at 1. rewrite Hm. apply wp_bind, wp_gets. rewrite Hf.
  destruct (s_frames (x_stack x)) as [|f rest] eqn:He.
  { destruct Hl as (Hl & _). unfold lower_frames in Hl. by rewrite He in Hl. }
  apply wp_bind, wp_modify, wp_bind, wp_modify. pose proof (uncover f rest a sh x1) as Hu.
  destruct persist; [|by apply wp_ret, (Hu (λ prev, absorb_nested (nested_gas f) (nested_gas prev)))].
  apply pop_nested_safe; [by apply (Hu (λ prev, absorb_nested (nested_gas f) (nested_gas prev)))|].
  destruct (Hp eq_refl) as [_ Hi]. unfold x_top, top_frame in Hi. rewrite He in Hi. cbn. by rewrite Hs.
Qed.

(** ** Programs *)

Section Program.
Context (run : WasmBlob → list Z → M (XState (B := B)) ExecError ExecReturnValue).
Context (a : AccountId) (sh : list AccountId).
Hypothesis Hrun : length sh ≠ CallStack_size → ∀ b i a' e' x,
  safe a' e' (a :: sh) x →
  wp (run b i) (λ _ x', safe a CallFunction sh x') (λ _ x', safe a CallFunction sh x') x.

Lemma enter_safe {A} args v w dl (f : WasmBlob → M XState ExecError A) x :
  safe a CallFunction sh x →
  (∀ b a' x', length sh ≠ CallStack_size → safe a' (args_entry args) (a :: sh) x' →
     wp (f b) (λ _ x', safe a CallFunction sh x') (λ _ x', safe a CallFunction sh x') x') →
  wp (map_err from_dispatch (push_frame args v w dl) ≫= f)
    (λ _ x', safe a CallFunction sh x') (λ _ x', safe a CallFunction sh x') x.
Proof.
  intros Hx Hf. apply wp_bind, wp_map_err. eapply wp_mono; [by apply push_safe| |done].
  intros b x' [Hd [a' Hx']]. by eapply Hf.
Qed.

Definition calls_safely {E A} (m : M (XState (B := B)) E A) : Prop :=
  ∀ x, safe a CallFunction sh x →
    wp m (λ _ x', safe a CallFunction sh x') (λ _ x', safe a CallFunction sh x') x.

Lemma calls_bind {E A A'} (m : M XState E A) (f : A → M XState E A') :
  safely m → (∀ r, calls_safely (f r)) → calls_safely (m ≫= f).
Proof. intros Hm Hf x Hx. apply wp_bind. eapply wp_mono; [by apply Hm| |done]. intros r x' Hx'. by apply Hf. Qed.

Lemma try_call_safe w dl to v i : calls_safely (try_call run w dl to v i).
Proof.
  unfold try_call. do 3 (apply calls_bind; [auto with safely|intros ?]).
  intros x Hx. apply enter_safe; [done|]. intros b a' x' Hd Hx'. by eapply Hrun.
Qed.

Lemma delegate_safe h i : calls_safely (ext_delegate_call run h i).
Proof.
  unfold ext_delegate_call. do 4 (apply calls_bind; [auto with safely|intros ?]).
  intros x Hx. apply enter_safe; [done|]. intros b a' x' Hd Hx'. by eapply Hrun.
Qed.

Lemma instantiate_safe w dl h v i salt : calls_safely (ext_instantiate run w dl h v i salt).
Proof.
  unfold ext_instantiate. do 3 (apply calls_bind; [auto with safely|intros ?]).
  intros x Hx. apply enter_safe; [done|]. intros b a' x' Hd Hx'. apply wp_bind, wp_gets, wp_bind.
  eapply wp_mono; [by eapply Hrun| |done]. intros ret x2 Hx2. by apply wp_ret.
Qed.

(** The answer of a call, whatever it is, goes to the rest of the program. *)
Lemma answered {A A'} (m : M XState ExecError A) (f : result ExecError A → M XState ExecError A') Q QE x :
  calls_safely m → safe a CallFunction sh x →
  (∀ r x', safe a CallFunction sh x' → wp (f r) Q QE x') → wp (attempt m ≫= f) Q QE x.
Proof. intros Hm Hx Hf. apply wp_bind, wp_attempt. eapply wp_mono; [by apply Hm|..]; intros; by apply Hf. Qed.

Lemma exec_safe e p x :
  may_run e p → safe a e sh x →
  wp (exec_prog run p) (λ _ x', ended sh x') (λ _ x', ended sh x') x.
Proof.
  revert x. induction p as [fuel r|b fuel|A op k IH|w dl to v i r k IH|h i k IH|w dl h v i salt k IH];
    intros x Hp Hx; cbn [exec_prog].
  - apply wp_ret. by eapply safe_ended.
  - apply wp_bind, wp_attempt. eapply wp_mono; [by eapply terminate_ends|..]; intros ? x' Hx'; by apply wp_ret.
  - apply wp_bind. eapply wp_mono; [by apply ext_op_safe|..].
    + intros r x' Hx'. apply IH; [|done]. intros He. by apply Hp.
    + intros err x' Hx'. exact (safe_ended _ _ _ _ Hx').
  - destruct e; [by destruct (Hp eq_refl)|]. apply wp_bind. unfold ext_call. apply wp_bind, wp_modify.
    apply answered; [apply try_call_safe| |].
    + apply safe_update; [done|apply Hx..|]. destruct Hx as [_ (_ & _ & ? & ?)]. by split.
    + intros res x' Hx'. apply wp_bind, wp_modify, wp_ret. apply IH; [done|].
      apply safe_update; [done|apply Hx'..|]. destruct Hx' as [_ (_ & _ & ? & ?)]. by split.
  - destruct e; [by destruct (Hp eq_refl)|].
    apply answered; [apply delegate_safe|done|]. intros res x' Hx'. by apply IH.
  - destruct e; [by destruct (Hp eq_refl)|].
    apply answered; [apply instantiate_safe|done|]. intros res x' Hx'. by apply IH.
Qed.

Lemma execute_safe `{!QuietConstructors} b e i x :
  safe a e sh x → wp (execute run b e i) (λ _ x', ended sh x') (λ _ x', ended sh x') x.
Proof.
  intros Hx. pose proof (safe_ended _ _ _ _ Hx) as Hend. unfold execute.
  apply wp_bind, wp_ok_or; [intros entry Hl|done]. apply wp_bind, wp_ensure; [intros _|done].
  apply wp_bind, wp_gets, wp_bind, wp_ok_or; [intros p ->|done]. apply wp_bind.
  assert (safely (if bool_decide (e = Constructor)
    then map_err from_dispatch (in_store (increment_refcount (blob_hash b))) else mret tt)) as Hinc.
  { destruct (bool_decide _); [|auto with safely]. apply safely_map_err, refcount_safe. }
  eapply wp_mono; [by apply Hinc| |intros err x' Hx'; exact (safe_ended _ _ _ _ Hx')].
  intros ? x1 Hx1. apply wp_bind. eapply wp_mono; [eapply exec_safe; [|exact Hx1]|..].
  { intros He. rewrite He in Hl. destruct (load_module_program _ _ _ _ Hl) as [m ->]. apply constructor_quiet. }
  - intros [fuel r] x2 Hx2. apply wp_bind, wp_map_err. unfold ext_charge_fuel, wp at 1.
    assert (∀ g, ended sh (set_top_gas g x2)) as Hg.
    { intros g. destruct Hx2 as [Hl2 Hi2]. split; [by apply low_update|].
      unfold x_top, set_top_gas, on_top, on_stack in *. cbn. by rewrite top_update. }
    destruct (charge_fuel _ _ _) as [g [w|err]]; [|apply Hg].
    apply wp_map_err. unfold lift_result. destruct (to_execution_result r); apply Hg.
  - done.
Qed.
End Program.

(** ** Frames *)

Lemma charge_instantiate_total o c i m (b : B) : charge_instantiate o c i m b ≠ Panic.
Proof.
  unfold charge_instantiate, ext_charge, lift_bank, ensure, mbind, M_bind, mret, M_ret, throw, modify.
  repeat (case_match; simplify_eq/=; try done).
Qed.

Lemma safe_bank a e sh x b : safe a e sh x → safe a e sh (set_store (set_bank b (x_store x)) x).
Proof. intros Hx. apply safe_store; [done|exact (grows_refl (x_store x))]. Qed.

Lemma charge_new_safe : safely charge_new_contract.
Proof.
  unfold charge_new_contract. apply safely_bind; [auto with safely|intros x0].
  apply safely_bind; [auto with safely|intros o]. apply safely_bind; [auto with safely|intros info].
  intros a e sh x Hx. apply wp_bind, wp_gets, wp_bind. unfold wp at 1, in_store, in_balances, zoom.
  pose proof (charge_instantiate_total o (account_id (x_top x)) info (nested_storage (x_top x)) (c_bank (x_store x))) as Hp.
  destruct (charge_instantiate _ _ _ _ _) as [[m i] b|err b|] eqn:Hc; [|by apply safe_bank|done].
  apply charge_instantiate_meters in Hc as [-> ->]. apply wp_bind, wp_modify, wp_modify.
  assert (safe a e sh (set_store (set_bank b (x_store x)) x)) as Hx1 by (by apply safe_bank).
  pose proof Hx1 as [_ (Ha & He & Ht1 & Ht2)].
  set (m := set_total _ _). assert (safe a e sh (on_top (set_storage_meter m) (set_store (set_bank b (x_store x)) x))) as Hx2.
  { by apply safe_update. }
  pose proof Hx2 as [_ (Ha2 & He2 & Ht3 & _)]. by apply safe_update.
Qed.

Lemma initial_transfer_safe : safely initial_transfer.
Proof.
  unfold initial_transfer. apply safely_bind; [auto with safely|intros f].
  destruct (bool_decide _); [auto with safely|]. apply safely_bind; [auto with safely|intros c].
  destruct c; [destruct (_ =? 0)|]; auto with safely.
Qed.

Definition fresh x : Prop := contract_info (x_top x) ≠ Invalidated.

Lemma ended_update sh x g :
  low_inv sh x → (contract_info (g (x_top x)) = Invalidated → present (x_store x) (account_id (g (x_top x)))) →
  ended sh (on_top g x).
Proof.
  intros Hl Hi. split; [by apply low_update|]. unfold x_top, on_top, on_stack in *. cbn. by rewrite top_update.
Qed.

Lemma enforce_ended check sh x :
  ended sh x →
  wp (enforce check) (λ _ x', ended sh x' ∧ (fresh x → fresh x')) (λ _ x', ended sh x') x.
Proof.
  intros [Hl Hi]. unfold enforce. apply wp_bind, wp_gets. destruct (check _ _) as [[m info] ok].
  apply wp_bind, wp_modify.
  assert (ended sh (on_top (set_storage_meter m) x)) as Hx1 by (by apply ended_update).
  assert (fresh x → fresh (on_top (set_storage_meter m) x)) as Hf1.
  { unfold fresh, x_top, on_top, on_stack. cbn. by rewrite top_update. }
  destruct info as [i|]; [|apply wp_bind, wp_ret; by apply wp_ensure].
  apply wp_bind, wp_modify. set (x1 := on_top (set_storage_meter m) x) in *.
  assert (ended sh (on_top (set_info (Cached i)) x1)) as Hx2 by (by apply ended_update; [apply Hx1|]).
  assert (fresh (on_top (set_info (Cached i)) x1)) as Hf2.
  { unfold fresh, x_top, on_top, on_stack. cbn. by rewrite top_update. }
  by apply wp_ensure.
Qed.

(** After the last frame has run its cache is not stale. *)
Lemma finish_ended e del sh x :
  ended sh x →
  wp (finish_frame e del) (λ _ x', ended sh x' ∧ (sh = [] → fresh x')) (λ _ x', ended sh x') x.
Proof.
  intros Hx. unfold finish_frame. apply wp_bind, wp_gets, wp_bind.
  set (m := if (_ : bool) then _ else _).
  assert (wp m (λ _ x', ended sh x' ∧ (sh = [] → fresh x')) (λ _ x', ended sh x') x) as Hm.
  { unfold m. case_bool_decide as Hn.
    - apply wp_bind, wp_modify. destruct Hx as [Hl Hi].
      assert (ended sh (load_top x) ∧ fresh (load_top x)) as [Hl1 Hf1].
      { assert (load_cached (x_store x) (account_id (x_top x)) (contract_info (x_top x)) ≠ Invalidated) as Hne.
        { destruct (contract_info (x_top x)) eqn:Hc; [done| |done]. destruct (Hi eq_refl) as [i Hi']. cbn.
          by rewrite Hi'. }
        split; [apply ended_update; [done|]; by intros ?|]. unfold fresh, load_top, x_top, on_top, on_stack in *.
        cbn. by rewrite top_update. }
      eapply wp_mono; [by apply enforce_ended|..]; [|done]. intros _ x' [Hx' Hf']. auto.
    - apply wp_ret. split; [done|]. intros ->. destruct Hx as [(Hsh & _) _].
      destruct Hn. unfold lower_frames in Hsh. destruct (s_frames (x_stack x)) as [|f l]; [done|].
      by destruct l. }
  eapply wp_mono; [exact Hm| |done]. clear m Hm Hx x. intros _ x [Hx Hf]. apply wp_bind, wp_gets.
  assert (∀ rest, (∀ x', ended sh x' → (sh = [] → fresh x') →
      wp rest (λ _ x', ended sh x' ∧ (sh = [] → fresh x')) (λ _ x', ended sh x') x') →
    wp (enforce enforce_subcall_limit ;; rest : M XState DispatchError unit)
      (λ _ x', ended sh x' ∧ (sh = [] → fresh x')) (λ _ x', ended sh x') x) as Henf.
  { intros rest Hk. apply wp_bind. eapply wp_mono; [by apply enforce_ended| |done].
    intros _ x' [Hx' Hf']. apply Hk; auto. }
  destruct e; [|destruct del as [h|]; [done|]].
  - apply wp_bind, wp_ensure; [intros _|done]. apply Henf. intros x' Hx' Hf'. apply wp_bind, wp_gets, wp_bind.
    unfold lift_result. destruct (origin_account_id _); [|done]. by apply wp_ret.
  - apply Henf. intros x' Hx' Hf'. by apply wp_bind, wp_gets.
Qed.

Section Run.
Context `{!QuietConstructors}.
Context (run : WasmBlob → list Z → M (XState (B := B)) ExecError ExecReturnValue).

(** What a nested run is known to do on top of the account [a] and the accounts [sh]. *)
Definition nested_ok (a : AccountId) (sh : list AccountId) : Prop :=
  length sh ≠ CallStack_size → ∀ b i a' e' x,
  safe a' e' (a :: sh) x →
  wp (run b i) (λ _ x', safe a CallFunction sh x') (λ _ x', safe a CallFunction sh x') x.

Lemma do_transaction_safe a e sh del b i x :
  nested_ok a sh → safe a e sh x →
  wp (do_transaction run e del b i)
    (λ out x', ended sh x' ∧ (did_revert out = false → sh = [] → fresh x')) (λ _ x', ended sh x') x.
Proof.
  intros Hrun Hx. unfold do_transaction. apply wp_bind.
  assert (safely (if bool_decide (e = Constructor) then map_err from_dispatch charge_new_contract else mret tt)) as Hc.
  { destruct (bool_decide _); [apply safely_map_err, charge_new_safe|auto with safely]. }
  eapply wp_mono; [by apply Hc| |intros err x' Hx'; exact (safe_ended _ _ _ _ Hx')].
  clear x Hx. intros [] x Hx. apply wp_bind.
  eapply wp_mono; [by apply safely_map_err; [apply initial_transfer_safe|]| |intros err x' Hx'; exact (safe_ended _ _ _ _ Hx')].
  clear x Hx. intros [] x Hx. apply wp_bind, wp_map_err.
  eapply wp_mono; [by eapply execute_safe| |done]. clear x Hx. intros out x Hx.
  destruct (did_revert out) eqn:Hr; [apply wp_ret; split; [done|congruence]|]. apply wp_bind, wp_map_err.
  eapply wp_mono; [exact (finish_ended _ _ _ _ Hx)| |done]. intros _ x' [Hx' Hf']. by apply wp_ret.
Qed.

(** A failed frame leaves the storage as it was. *)
Lemma rolled_back sh x x' : low_inv sh x → low_inv sh x' → low_inv sh (set_store (x_store x) x').
Proof. intros (_ & _ & Hp) (Hl1 & Hl2 & _). by split. Qed.

Lemma transaction_safe a e sh del b i x :
  nested_ok a sh → safe a e sh x →
  wp (in_transaction (do_transaction run e del b i))
    (λ r x', low_inv sh x' ∧ (r.1 = true → ended sh x' ∧ (sh = [] → fresh x'))) (λ _ _, False) x.
Proof.
  intros Hrun Hx. pose proof (do_transaction_safe a e sh del b i x Hrun Hx) as Ht.
  unfold wp, in_transaction in *. destruct Hx as [Hl _].
  destruct (do_transaction _ _ _ _ _ x) as [out x'|err x'|]; [| |done].
  - destruct Ht as [[Hl' Hi'] Hf]. destruct (did_revert out); (split; [|try done]); [by apply rolled_back|done|].
    intros _. split; [by split|auto].
  - split; [|done]. apply rolled_back; [done|apply Ht].
Qed.

Lemma pop_first_total persist x : (persist = true → fresh x) → s_frames (x_stack x) = [] → pop_frame persist x ≠ Panic.
Proof.
  intros Hf He. unfold pop_frame, mbind, M_bind, gets. set (m := if _ && _ then _ else _).
  assert (∃ x1, m x = Ok tt x1 ∧ s_frames (x_stack x1) = [] ∧ x_top x1 = x_top x) as (x1 & -> & He1 & Ht).
  { unfold m. destruct (_ && _); by eexists. }
  rewrite He1. unfold pop_first, mbind, M_bind, gets, modify. destruct persist; [|done]. cbn [negb].
  assert (∃ d, cached_deposit_account (contract_info (first_frame (x_stack x1))) = Some d) as [d Hd].
  { specialize (Hf eq_refl). unfold fresh in Hf. rewrite <- Ht in Hf. unfold x_top, top_frame in Hf. rewrite He1 in Hf.
    destruct (contract_info (first_frame (x_stack x1))); cbn; eauto; done. }
  unfold expect. rewrite Hd. unfold mret, M_ret. destruct (absorb _ _ _ _) as [mm c].
  by destruct c, (s_nonce (x_stack x1)).
Qed.

Lemma run_with_safe b i a e sh x :
  nested_ok a sh → safe a e sh x → wp (run_with run b i) (λ _ x', after sh x') (λ _ x', after sh x') x.
Proof.
  intros Hrun Hx. unfold run_with. apply wp_bind, wp_gets. set (del := if bool_decide _ then _ else _).
  pose proof Hx as [_ (_ & -> & _)]. apply wp_bind. eapply wp_mono; [by apply (transaction_safe a)| |done].
  clear x Hx del. intros [success out] x [Hl Hs]. cbn in Hs. apply wp_bind.
  assert (∀ x', after sh x' → wp (lift_result out : M XState ExecError ExecReturnValue)
    (λ _ x', after sh x') (λ _ x', after sh x') x') as Hout by (intros; by destruct out).
  destruct sh as [|a0 sh].
  - assert (pop_frame success x ≠ Panic) as Hp.
    { apply pop_first_total; [intros Hsu; by apply Hs|]. destruct Hl as (Hl & _). unfold lower_frames in Hl.
      destruct (s_frames (x_stack x)) as [|f [|]]; done. }
    unfold wp at 1. destruct (pop_frame success x); [by apply Hout|done..].
  - eapply wp_mono; [apply pop_safe; [done|intros Hsu; by apply Hs]| |done]. intros [] x' Hx'. by apply Hout.
Qed.
End Run.

(** With [d] frames to go there is one for every call that is let through. *)
Lemma run_frame_safe `{!QuietConstructors} d b i a e sh x :
  (length sh ≤ CallStack_size)%nat → (CallStack_size ≤ d + length sh)%nat → safe a e sh x →
  wp (run_frame d b i) (λ _ x', after sh x') (λ _ x', after sh x') x.
Proof.
  revert b i a e sh x. induction d as [|d IH]; intros b i a e sh x Hlo Hhi Hx; cbn [run_frame];
    apply (run_with_safe _ b i a e); try done; intros Hne b' i' a' e' x' Hx'.
  - destruct Hne. cbn in Hhi. lia.
  - apply (IH b' i' a' e' (a :: sh) x'); [cbn; lia..|done].
Qed.

Lemma stack_never_traps `{!QuietConstructors} args origin v i d (c : CallState (B := B)) :
  run_stack_with args origin v i d c ≠ Panic.
Proof.
  unfold run_stack_with.
  destruct (new_frame _ _ _ _ _ _ _ _) as [g [[[f b] n]|err]] eqn:Hn; [|done].
  apply new_frame_shape in Hn as (He & Ha & info & Hi).
  set (x := mkX _ _). assert (safe (account_id f) (entry_point f) [] x) as Hx.
  { split; [by repeat split|]. split; [done|]. split; [done|]. split; [done|]. unfold x, x_top. cbn. by rewrite Hi. }
  pose proof (run_frame_safe CallStack_size b i _ _ [] x (Nat.le_0_l _) (Nat.le_add_r _ _) Hx) as Hr.
  unfold wp in Hr. by destruct (run_frame _ _ _ _).
Qed.

Lemma run_call_never_traps `{!QuietConstructors} origin dest v i d (c : CallState (B := B)) :
  run_call origin dest v i d c ≠ Panic.
Proof.
  unfold run_call, mbind, M_bind. pose proof (stack_never_traps (ArgsCall dest None None) origin v i d c) as Hs.
  by destruct (run_stack_with _ _ _ _ _ c) as [[]| |].
Qed.

(** C11: Neither a call nor an instantiation traps, whatever contracts do to one another, as
    long as constructors make no calls: the cache of a frame below the top is stale only
    when its contract is in storage, no contract on the stack is ever removed, and the stack
    is never deeper than the frames it was sized for. *)
Theorem calls_never_trap `{!QuietConstructors} (c : CallState) :
  (∀ origin dest v i d, run_call origin dest v i d c ≠ Panic) ∧
  (∀ origin b v i salt, run_instantiate origin b v i salt c ≠ Panic).
Proof. split; intros; [apply run_call_never_traps|apply stack_never_traps]. Qed.
End Safety.
