(* ===== verification/ContractCalls.v ===== *)
(** * The contracts pallet

    The dispatchables and the plain functions of [pallets/contracts/src/lib.rs], the bridge
    to the 3VM in [pallets/contracts/src/patch3vm.rs] and the identifiers of
    [pallets/contracts/src/chain_extension.rs].

    - [run_guarded]: every execution of a contract enters here, once at a time.
    - [Pallets B E]: the storage of the contracts pallet beside that of the 3VM.
    - [migrating]: whether a storage migration is in progress, which shuts the pallet. *)

From S2P Require Import Prelude Types AccountManager StandardAbi ContractsRegistry ThreeVm Gas Deposits WasmModule ContractStore Exec.

(** ** Data *)

Record CommonInput := mkCommon {
  in_origin : Origin;
  in_value : Balance;
  in_data : list Z;
  in_gas_limit : Weight;
  in_deposit_limit : option Balance;
}.

Inductive WasmCode := WithModule (b : WasmBlob) | WithHash (h : Hash).

(** [Code]: what a caller hands in. *)
Inductive CodeArg := Upload (code : list Z) | Existing (h : Hash).

Record InternalOutput (A : Type) := mkOutput {
  out_gas : GasMeter;
  out_deposit : StorageDeposit;
  out_result : result ExecError A;
}.
Arguments mkOutput {A}.
Arguments out_gas {A}.
Arguments out_deposit {A}.
Arguments out_result {A}.

(** [ContractResult], without the texts for debugging and the events. *)
Record ContractResult (A : Type) := mkContractResult {
  res_gas_consumed : Weight;
  res_gas_required : Weight;
  res_deposit : StorageDeposit;
  res_result : result DispatchError A;
}.
Arguments mkContractResult {A}.
Arguments res_gas_consumed {A}.
Arguments res_gas_required {A}.
Arguments res_deposit {A}.
Arguments res_result {A}.

(** [WeightInfo] of the dispatchables. *)
Class CallWeights := {
  weight_call : Weight;
  weight_instantiate_with_code : Z → Z → Z → Weight;
  weight_instantiate : Z → Z → Weight;
}.

(** An error with the weight that was used, where the code knows it. *)
Record DispatchFailure := mkFailure { fail_error : DispatchError; fail_weight : option Weight }.
Definition plain_failure (e : DispatchError) : DispatchFailure := mkFailure e None.

(** [Origin::from_runtime_origin]. *)
Definition from_runtime_origin (o : RawOrigin) : result DispatchError Origin :=
  match o with
  | Root => ROk OriginRoot
  | Signed a => ROk (OriginSigned a)
  | NoneOrigin => RErr BadOrigin
  end.

(** [into_dispatch_result]. *)
Definition into_dispatch_result {A} (g : GasMeter) (r : result ExecError A) (base : Weight)
    : result DispatchFailure Weight :=
  let actual := weight_saturating_add (gas_consumed g) base in
  match r with
  | ROk _ => ROk actual
  | RErr e => RErr (mkFailure (exec_error e) (Some actual))
  end.

Section Pallet.
Context {B : Type} `{!ContractsCurrency B} `{!Hashing} `{!ContractsLib} `{!WasmEngine} `{!CallWeights}.
Implicit Types s : Contracts B.
Abbreviation CM := (M (Contracts B) DispatchError).
Abbreviation FM := (M (Contracts B) DispatchFailure).

(** ** Entering a contract *)

(** The deposits are collected whether the call succeeded or not. *)
Definition settle {A} (origin : Origin) (r : result ExecError A) (g : GasMeter) (m : Meter)
    : CM (InternalOutput A) :=
  d ← attempt (in_balances (try_into_deposit origin m));
  mret (match d with
        | ROk deposit => mkOutput g deposit r
        | RErr e => mkOutput g deposit_default (RErr (from_dispatch e))
        end).

(** The meters of a call are lent to the stack. *)
Definition on_stack_of {A} (m : M (CallState (B := B)) ExecError A) (g : GasMeter) (storage : Meter)
    (k : result ExecError A → GasMeter → Meter → CM (InternalOutput A)) : CM (InternalOutput A) := λ s,
  match m (mkCall g storage s) with
  | Ok a c => k (ROk a) (call_gas c) (call_storage c) (call_store c)
  | Err e c => k (RErr e) (call_gas c) (call_storage c) (call_store c)
  | Panic => Panic
  end.

(** [CallInput::run]. *)
Definition call_run (dest : AccountId) (d : Determinism) (common : CommonInput) (g : GasMeter)
    : CM (InternalOutput ExecReturnValue) :=
  meter ← attempt (in_balances (meter_new (in_origin common) (in_deposit_limit common) (in_value common)));
  match meter with
  | RErr e => mret (mkOutput g deposit_default (RErr (from_dispatch e)))
  | ROk storage =>
      on_stack_of (run_call (in_origin common) dest (in_value common) (in_data common) d) g storage
        (λ r g storage, settle (in_origin common) r g storage)
  end.

(** [InstantiateInput::run]. *)
Definition instantiate_run (code : WasmCode) (salt : list Z) (common : CommonInput) (g : GasMeter)
    : CM (InternalOutput (AccountId * ExecReturnValue)) := λ s,
  match origin_account_id (in_origin common) with
  | RErr e => Ok (mkOutput g deposit_default (RErr (from_dispatch e))) s
  | ROk origin =>
      let (g, executable) :=
        match code with
        | WithModule b => (g, ROk b)
        | WithHash h => from_storage h g s
        end in
      match executable with
      | RErr e => Ok (mkOutput g deposit_default (RErr (from_dispatch e))) s
      | ROk executable =>
          match in_balances (meter_new (OriginSigned origin) (in_deposit_limit common) (in_value common)) s with
          | Err e s => Ok (mkOutput g deposit_default (RErr (from_dispatch e))) s
          | Panic => Panic
          | Ok storage s =>
              on_stack_of (run_instantiate origin executable (in_value common) (in_data common) salt)
                g storage (λ r g storage, settle (OriginSigned origin) r g storage) s
          end
      end
  end.

(** [entered]: the flag of the guard, set while a contract is executed. *)
Definition run_guarded {A} (entered : bool) (ensure_origin : Origin → result DispatchError unit)
    (run : CommonInput → GasMeter → CM (InternalOutput A)) (common : CommonInput) : CM (InternalOutput A) :=
  let g := gas_meter_new (in_gas_limit common) in
  match ensure_origin (in_origin common) with
  | RErr e => mret (mkOutput g deposit_default (RErr (mkExecError e Caller)))
  | ROk _ =>
      if entered then
        mret (mkOutput g deposit_default (RErr (mkExecError (cerr ReentranceDenied) Caller)))
      else run common g
  end.

Definition call_ensure_origin (_ : Origin) : result DispatchError unit := ROk tt.
Definition instantiate_ensure_origin (o : Origin) : result DispatchError unit :=
  match o with OriginSigned _ => ROk tt | OriginRoot => RErr RootNotAllowed end.

Definition call_guarded (entered : bool) (dest : AccountId) (d : Determinism) (common : CommonInput)
    : CM (InternalOutput ExecReturnValue) :=
  run_guarded entered call_ensure_origin (call_run dest d) common.
Definition instantiate_guarded (entered : bool) (code : WasmCode) (salt : list Z) (common : CommonInput)
    : CM (InternalOutput (AccountId * ExecReturnValue)) :=
  run_guarded entered instantiate_ensure_origin (instantiate_run code salt) common.

(** ** Code *)

(** The code is stored before the limit is checked. *)
Definition try_upload_code (origin : AccountId) (code : list Z) (limit : option Balance)
    (d : Determinism) : CM (WasmBlob * Balance) :=
  module ← lift_result (from_code code origin d);
  deposit ← store_code module;
  match limit with
  | Some l => ensure (deposit <=? l) limit_exhausted
  | None => mret tt
  end ;;
  mret (module, deposit).

Section Dispatch.
Context (migrating entered : bool).

Definition ensure_migrated {E} (f : DispatchError → E) : M (Contracts B) E unit :=
  ensure (negb migrating) (f (cerr MigrationInProgress)).

Definition bare_upload_code (origin : AccountId) (code : list Z) (limit : option Balance)
    (d : Determinism) : CM (Hash * Balance) :=
  ensure_migrated id ;;
  '(module, deposit) ← try_upload_code origin code limit d;
  mret (blob_hash module, deposit).

Definition upload_code (origin : RawOrigin) (code : list Z) (limit : option Balance) (d : Determinism)
    : CM unit := transactional
  (ensure_migrated id ;;
   who ← ensure_signed origin;
   bare_upload_code who code limit d ;;
   mret tt).

(** No fee is due. *)
Definition remove_code (origin : RawOrigin) (h : Hash) : CM unit := transactional
  (ensure_migrated id ;;
   who ← ensure_signed origin;
   try_remove_code who h).

(** The event is emitted before the contract is written. *)
Definition contracts_set_code (origin : RawOrigin) (dest : AccountId) (h : Hash) : CM unit := transactional
  (ensure_migrated id ;;
   ensure_root origin ;;
   contract ← gets (λ s, ContractInfoOf s !! dest);
   match contract with
   | None => throw (cerr NoContractFound)
   | Some i =>
       increment_refcount h ;;
       modify (decrement_refcount (code_hash i)) ;;
       modify (deposit_event (ContractCodeUpdated dest h (code_hash i))) ;;
       modify (λ s, set_infos (<[dest := set_code_hash_of h i]> (ContractInfoOf s)) s)
   end).

(** ** Calls and instantiations *)

(** A reverted output is an error of the dispatchable. *)
Definition revert_is_error {A} (reverted : A → bool) (r : result ExecError A) : result ExecError A :=
  match r with
  | ROk a => if reverted a then RErr (from_dispatch (cerr ContractReverted)) else ROk a
  | RErr e => RErr e
  end.

Definition dispatched {A} (reverted : A → bool) (base : Weight) (m : CM (InternalOutput A)) : FM Weight :=
  output ← map_err plain_failure m;
  lift_result (into_dispatch_result (out_gas output) (revert_is_error reverted (out_result output)) base).

Definition contracts_call (origin : RawOrigin) (dest : AccountId) (value : Balance) (gas_limit : Weight)
    (limit : option Balance) (data : list Z) : FM Weight := transactional
  (ensure_migrated plain_failure ;;
   o ← map_err plain_failure (lift_result (from_runtime_origin origin));
   dispatched did_revert weight_call
     (call_guarded entered dest Enforced (mkCommon o value data gas_limit limit))).

Definition instantiate_with_code (origin : RawOrigin) (value : Balance) (gas_limit : Weight)
    (limit : option Balance) (code data salt : list Z) : FM Weight := transactional
  (ensure_migrated plain_failure ;;
   who ← map_err plain_failure (ensure_signed origin);
   '(module, upload_deposit) ← map_err plain_failure (try_upload_code who code limit Enforced);
   let limit := (λ l, saturating_sub l upload_deposit) <$> limit in
   dispatched (λ r, did_revert r.2)
     (weight_instantiate_with_code (Z.of_nat (length code)) (Z.of_nat (length data)) (Z.of_nat (length salt)))
     (instantiate_guarded entered (WithModule module) salt (mkCommon (OriginSigned who) value data gas_limit limit))).

Definition contracts_instantiate (origin : RawOrigin) (value : Balance) (gas_limit : Weight)
    (limit : option Balance) (h : Hash) (data salt : list Z) : FM Weight := transactional
  (ensure_migrated plain_failure ;;
   o ← map_err plain_failure (lift_result (from_runtime_origin origin));
   dispatched (λ r, did_revert r.2) (weight_instantiate (Z.of_nat (length data)) (Z.of_nat (length salt)))
     (instantiate_guarded entered (WithHash h) salt (mkCommon o value data gas_limit limit))).

(** [compat_weight_limit]. *)
Definition compat_weight_limit (gas_limit : Z) : Weight := mkWeight gas_limit (wrap64 (MaxCodeLen * 2)).

Definition call_old_weight origin dest value (gas_limit : Z) limit data : FM Weight :=
  contracts_call origin dest value (compat_weight_limit gas_limit) limit data.
Definition instantiate_with_code_old_weight origin value (gas_limit : Z) limit code data salt : FM Weight :=
  instantiate_with_code origin value (compat_weight_limit gas_limit) limit code data salt.
Definition instantiate_old_weight origin value (gas_limit : Z) limit h data salt : FM Weight :=
  contracts_instantiate origin value (compat_weight_limit gas_limit) limit h data salt.

Definition to_contract_result {A} (extra : StorageDeposit → StorageDeposit) (o : InternalOutput A)
    : ContractResult A :=
  mkContractResult (gas_consumed (out_gas o)) (gas_required (out_gas o)) (extra (out_deposit o))
    (match out_result o with ROk a => ROk a | RErr e => RErr (exec_error e) end).

(** The answer while the pallet is shut, and when a code is refused. *)
Definition refused {A} (e : DispatchError) : ContractResult A :=
  mkContractResult weight_zero weight_zero deposit_default (RErr e).

Definition bare_call (origin dest : AccountId) (value : Balance) (gas_limit : Weight)
    (limit : option Balance) (data : list Z) (d : Determinism) : CM (ContractResult ExecReturnValue) :=
  if migrating then mret (refused (cerr MigrationInProgress))
  else
    o ← call_guarded entered dest d (mkCommon (OriginSigned origin) value data gas_limit limit);
    mret (to_contract_result id o).

Inductive ContractAccessError := DoesntExist | KeyDecodingFailed | AccessMigrationInProgress.

(** [Pallet::get_storage]; a key may have up to [max_key] bytes. *)
Definition contracts_get_storage (max_key : Z) (address : AccountId) (key : list Z) s
    : result ContractAccessError (option (list Z)) :=
  if migrating then RErr AccessMigrationInProgress
  else
    match ContractInfoOf s !! address with
    | None => RErr DoesntExist
    | Some i =>
        if Z.of_nat (length key) <=? max_key then ROk (info_read s i (KeyVar key))
        else RErr KeyDecodingFailed
    end.

(** ** The 3VM *)

Section ThreeVm.
Context {E : Type} `{!ThreeVmConfig E}.

Record Pallets := mkPallets { p_contracts : Contracts B; p_3vm : ThreeVm E }.

Definition in_contracts {A} (m : CM A) : M Pallets DispatchError A :=
  zoom p_contracts (λ c p, mkPallets c (p_3vm p)) m.
Definition in_3vm {A} (m : M (ThreeVm E) DispatchError A) : M Pallets DispatchError A :=
  zoom p_3vm (λ v p, mkPallets (p_contracts p) v) m.

(** A module that cannot be made is replaced by the empty one. *)
Definition registry_module (origin : AccountId) (bytes : list Z) : WasmBlob :=
  match from_code (B := B) bytes origin Relaxed with ROk b => b | RErr _ => new_empty end.

Definition try_instantiate_from_contracts_registry (origin : AccountId) (h : Hash)
    : M (ThreeVm E) DispatchError (WasmBlob * Balance) :=
  module ← from_registry h (registry_module origin);
  ensure (negb (blob_is_empty module)) (Other "Could not instantiate from contracts registry") ;;
  instantiate_check (get_type module) ;;
  mret (module, match module_author module with
                | Some a => default 0 (fees_per_single_use a)
                | None => 0
                end).

(** Every error of the registry sends the hash to the code in storage. *)
Definition bare_instantiate (origin : AccountId) (value : Balance) (gas_limit : Weight)
    (limit : option Balance) (code : CodeArg) (data salt : list Z)
    : M Pallets DispatchError (ContractResult (AccountId * ExecReturnValue)) :=
  let run code limit upload_deposit :=
    o ← in_contracts (instantiate_guarded entered code salt
          (mkCommon (OriginSigned origin) value data gas_limit limit));
    mret (to_contract_result (λ d, deposit_add d (Charge upload_deposit)) o) in
  if migrating then mret (refused (cerr MigrationInProgress))
  else
    match code with
    | Upload code =>
        r ← attempt (in_contracts (try_upload_code origin code limit Enforced));
        match r with
        | RErr e => mret (refused e)
        | ROk (module, deposit) =>
            run (WithModule module) ((λ l, saturating_sub l deposit) <$> limit) deposit
        end
    | Existing h =>
        r ← attempt (in_3vm (try_instantiate_from_contracts_registry origin h));
        match r with
        | ROk (module, deposit) => run (WithModule module) limit deposit
        | RErr _ => run (WithHash h) limit 0
        end
    end.
End ThreeVm.
End Dispatch.
End Pallet.

(** ** The chain extension *)

Definition GET_STATE_FUNCTION_CODE : Z := 280088008.
Definition SUBMIT_FUNCTION_CODE : Z := 380088008.
Definition POST_SIGNAL_FUNCTION_CODE : Z := 480088008.

(** [Environment::func_id] and [ext_id] of the 32 bits a contract passes. *)
Definition func_id (id : Z) : Z := Z.land id 65535.
Definition ext_id (id : Z) : Z := Z.shiftr id 16.

Inductive RetVal := Converging (n : Z) | Diverging (flags : Z) (data : list Z).

(** [ThreeVmExtension::call]; the actions are those of the three functions. *)
Definition extension_call {S} (get_state submit post_signal : M S DispatchError RetVal) (id : Z)
    : M S DispatchError RetVal :=
  let n := func_id id in
  if n =? GET_STATE_FUNCTION_CODE then get_state
  else if n =? SUBMIT_FUNCTION_CODE then submit
  else if n =? POST_SIGNAL_FUNCTION_CODE then post_signal
  else mret (Converging n).
