(* ===== verification/ContractSamples.v ===== *)
(** * Runs of contracts

    A currency, an engine with a few contracts, and the instances of the theorems on them;
    a constructor that is entered twice makes the next access of its frame trap. *)

From S2P Require Import Prelude Types AccountManager StandardAbi Samples ContractsRegistry.
From S2P Require Import ThreeVm Gas Deposits WasmModule ContractStore Exec ExecOutcomes.
From S2P Require Import ExecSafety ContractCalls CallFacts.

(** ** Gas *)

Definition two_kw (r p : Z) : Weight := mkWeight r p.

Definition sample_ops : list GasOp :=
  [OpCharge (two_kw 10 1); OpNested (two_kw 0 0) [OpCharge (two_kw 40 5); OpAdjust (two_kw 40 5) (two_kw 15 2)];
   OpFuel 7; OpNested (two_kw 20 3) [OpFuel 4]].

Lemma gas_required_suffices_witness :
  ∃ m, run_gas 2 leaves_rest sample_ops (gas_meter_new (two_kw 100 10)) = Some m ∧
    gas_consumed m = two_kw 47 3 ∧ gas_required m = two_kw 59 6 ∧
    ∃ m', run_gas 2 any_amount sample_ops (gas_meter_new (gas_required m)) = Some m' ∧
      gas_consumed m' = gas_consumed m.
Proof.
  destruct (run_gas 2 leaves_rest sample_ops (gas_meter_new (two_kw 100 10))) as [m|] eqn:Hr;
    [|vm_compute in Hr; discriminate Hr].
  exists m. assert (is_weight (two_kw 100 10)) as Hl by (vm_compute; intuition discriminate).
  assert (gas_ops_ok sample_ops) as Hok by (repeat constructor; vm_compute; intuition discriminate).
  destruct (gas_required_suffices 2 (two_kw 100 10) sample_ops m ltac:(lia) Hl Hok Hr) as (_ & _ & Hrun).
  vm_compute in Hr. injection Hr as <-. split; [reflexivity|]. split; [reflexivity|].
  split; [vm_compute; reflexivity|exact Hrun].
Defined.

Lemma gas_required_short_witness :
  ∃ m, gas_required m = two_kw 30 3 ∧
    run_gas 1 any_amount [OpNested (two_kw 100 10) [OpCharge (two_kw 30 3)]] (gas_meter_new (two_kw 30 3)) = None.
Proof.
  destruct (gas_required_short 1 (two_kw 100 10) (two_kw 30 3)) as (m & _ & Hreq & Hnone);
    [vm_compute; intuition discriminate..|].
  exists m. split; [exact Hreq|]. rewrite Hreq in Hnone. exact Hnone.
Defined.

(** ** A currency *)

Abbreviation purse := (gmap AccountId Balance).
Definition purse_of (b : purse) (a : AccountId) : Balance := default 0 (b !! a).

Definition purse_transfer (a c : AccountId) (x : Balance) (keep : bool) (b : purse)
    : result DispatchError purse :=
  if purse_of b a - x <? (if keep then 1 else 0) then RErr (Token "FundsUnavailable")
  else
    let b' := <[a := purse_of b a - x]> b in
    ROk (<[c := purse_of b' c + x]> b').

#[export] Instance toy_currency : ContractsCurrency purse := {|
  DepositPerByte := 1;
  DepositPerItem := 10;
  DefaultDepositLimit := 5000;
  minimum_balance := 1;
  cc_transfer := purse_transfer;
  reducible_protect b a := purse_of b a - 1;
  reducible_expendable b a := purse_of b a;
  can_withdraw_success b a x := x <=? purse_of b a;
  cc_free_balance := purse_of;
  inc_consumers a b := ROk b;
  dec_consumers a b := b;
  cc_reserve a x b := if purse_of b a <? x then RErr (Token "FundsUnavailable") else ROk (<[a := purse_of b a - x]> b);
  cc_unreserve a x b := <[a := purse_of b a + x]> b;
|}.

Lemma purse_transfer_spec a c x k b b' :
  purse_transfer a c x k b = ROk b' → a ≠ c →
  purse_of b' a = purse_of b a - x ∧ purse_of b' c = purse_of b c + x.
Proof.
  unfold purse_transfer. destruct (_ <? _); [done|]. intros [= <-] Hne. unfold purse_of. split.
  - rewrite lookup_insert_ne by congruence. by rewrite lookup_insert_eq.
  - rewrite lookup_insert_eq. cbn. by rewrite lookup_insert_ne.
Qed.

#[export] Instance toy_currency_laws : CurrencyLaws purse.
Proof.
  split.
  - intros a c x b b' Ht Hne. exact (proj1 (purse_transfer_spec _ _ _ _ _ _ Ht Hne)).
  - intros a c x k b b' Ht Hne. exact (proj2 (purse_transfer_spec _ _ _ _ _ _ Ht Hne)).
  - done.
Qed.

(** ** Deposits *)

Definition stored_info (dep : AccountId) (bytes items : Z) : ContractInfo :=
  mkContractInfo dep dep 7 bytes items bytes (items * 10) 100.
Definition sample_infos : gmap AccountId ContractInfo :=
  <[20 := stored_info 120 50 2]> (<[21 := stored_info 121 8 1]> ∅).

(** A contract stores, calls another with a limit, which stores, and a third that terminates. *)
Definition sample_calls : list MeterOp :=
  [OpStore (mkDiff 30 0 2 0); OpSubcall 21 500 [OpStore (mkDiff 12 4 1 0)] Returns;
   OpStore (mkDiff 0 40 0 1); OpSubcall 21 0 [] Terminates].

Definition sample_purse : purse := <[1 := 10000]> (<[120 := 1000]> (<[121 := 1000]> ∅)).


(** ** The queue *)

Definition toy_kill (limit : Z) (t : Trie) : Trie * Z :=
  if Z.of_nat (size t) <=? limit then (∅, Z.of_nat (size t))
  else (list_to_map (drop (Z.to_nat limit) (map_to_list t)), limit).

(** The code of a contract is a number, kept as the number of the functions it imports. *)
Definition toy_module (code : list Z) : WasmModule :=
  mkModule [mkExport "call" (ExternFunc (mkFuncType [] [])); mkExport "deploy" (ExternFunc (mkFuncType [] [I32]))]
    (mkImport "env" "memory" (ExternMemory (mkMemoryType 1 (Some 2)))
     :: replicate (Z.to_nat (hd 0 code)) (mkImport "seal0" "transfer" (ExternFunc (mkFuncType [I32] [])))).

#[export] Instance toy_wasm : WasmLib := {|
  new_module code d := Some (toy_module code);
  links m limits deprecated := true;
  memory_pages := 16;
  chain_extension_enabled := false;
|}.

#[export] Instance toy_contracts_lib : ContractsLib := {|
  contracts_wasm := toy_wasm;
  blake2_256 v := 0 :: v;
  blake2_128_concat v := 1 :: v;
  kill_storage := toy_kill;
  MaxCodeLen := 1000;
  code_info_max_len := 70;
  on_process_deletion_queue_batch := mkWeight 10 0;
  on_initialize_per_trie_key n := mkWeight (5 + 3 * n) 0;
  call_with_code_per_byte n := mkWeight (100 + n) (50 + n);
|}.

#[export] Instance toy_kill_laws : KillLaws.
Proof.
  split.
  - intros limit t Hle. cbn. unfold toy_kill. by rewrite (proj2 (Z.leb_le _ _) Hle).
  - intros limit t Hlt. cbn. unfold toy_kill. rewrite (proj2 (Z.leb_gt _ _)) by lia.
    eexists. split; [reflexivity|].
    set (l := drop (Z.to_nat limit) (map_to_list t)).
    assert (NoDup l.*1) as Hnd.
    { unfold l. rewrite fmap_drop. pose proof (NoDup_fst_map_to_list t) as Ht.
      rewrite <- (take_drop (Z.to_nat limit) (map_to_list t).*1) in Ht. by apply NoDup_app in Ht as (_ & _ & Ht). }
    split.
    + apply map_subseteq_spec. intros k v Hk. apply elem_of_list_to_map in Hk; [|done].
      apply elem_of_map_to_list. unfold l in Hk.
      rewrite <- (take_drop (Z.to_nat limit) (map_to_list t)). apply elem_of_app. by right.
    + assert (size (list_to_map l : Trie) = length l) as ->.
      { rewrite <- length_map_to_list. by rewrite (map_to_list_to_map l Hnd). }
      unfold l. rewrite length_drop, length_map_to_list. lia.
Qed.

Definition empty_store (b : purse) : Contracts purse := mkContracts b ∅ ∅ ∅ ∅ 0 ∅ 0 0 [].

Definition small_trie (n : nat) : Trie := list_to_map ((λ i, ([Z.of_nat i], [1])) <$> seq 0 n).

(** Two contracts were terminated after the counter had wrapped around. *)
Definition queued_store : Contracts purse :=
  mkContracts ∅ ∅ (<[300 := small_trie 3]> (<[301 := small_trie 2]> (<[302 := small_trie 1]> ∅))) ∅ ∅ 0
    (<[u32_max := 300]> (<[0 := 301]> ∅)) 1 u32_max [].

Definition queue_days : list QueueOp := [QBatch (mkWeight 16 0); QTerminate 302; QBatch (mkWeight 30 0)].


(** ** An engine with three contracts *)

(** One stores its input, one passes its input on and reverts when that fails, one leaves. *)
Definition storing (input : list Z) : Prog :=
  PDo (OpChargeGas (mkWeight 20 2)) (λ _,
  PDo (OpSetStorage (KeyVar [7]) (Some input) false) (λ _, PEnd 5 SandboxDone)).
Definition relaying (to : AccountId) (input : list Z) : Prog :=
  PCall weight_zero 0 to 0 input true (λ r,
    match r with ROk _ => PEnd 3 SandboxDone | RErr _ => PEnd 3 (TrapReturn REVERT []) end).
Definition leaving (input : list Z) : Prog := PTerminate 1 2.

#[local] Instance toy_engine : WasmEngine := {|
  wasm_program m f input fuel :=
    match f with
    | Constructor => PEnd 1 SandboxDone
    | CallFunction =>
        match length (module_imports m) with
        | 2%nat => storing input
        | 3%nat => relaying 30 input
        | _ => leaving input
        end
    end;
  instruction_base := 2;
|}.

#[local] Instance toy_engine_typed : EngineTyped.
Proof.
  split; [cbn; lia|]. intros m f input fuel. cbn. destruct f; [done|].
  destruct (length (module_imports m)) as [|[|[|[|n]]]]; try exact I.
  - split; [vm_compute; intuition discriminate|done].
  - split; [vm_compute; intuition discriminate|by intros []].
Qed.

#[local] Instance toy_engine_quiet : QuietConstructors.
Proof. by intros m i fuel. Qed.

Definition sample_code (owner : AccountId) : CodeInfo := mkCodeInfo owner 81 1 Enforced 1.

Definition live_store : Contracts purse :=
  mkContracts (<[1 := 10000]> (<[30 := 50]> (<[31 := 60]> (<[32 := 70]> (<[132 := 200]> ∅)))))
    (<[30 := stored_info 130 0 0]> (<[31 := set_code_hash_of 8 (stored_info 131 0 0)]>
     (<[32 := set_code_hash_of 9 (stored_info 132 0 0)]> ∅))) ∅
    (<[7 := sample_code 1]> (<[8 := sample_code 1]> (<[9 := sample_code 1]> ∅)))
    (<[7 := [1]]> (<[8 := [2]]> (<[9 := [3]]> ∅))) 0 ∅ 0 0 [].

Definition sample_gas : Weight := mkWeight 1000 1000.

(** Contract 31 has contract 30 store three bytes: 13 is the price of an item of three bytes. *)
Example relay_run :
  ∃ s, bare_call false false 1 31 4 sample_gas (Some 100) [1; 2; 3] Enforced live_store =
    Ok (mkContractResult (mkWeight 38 4) (mkWeight 38 4) (Charge 13) (ROk (mkReturn 0 []))) s ∧
    child_tries s !! 130 = Some {[ [1; 7] := [1; 2; 3] ]} ∧
    purse_of (c_bank s) 1 = 9983 ∧ purse_of (c_bank s) 31 = 64 ∧ purse_of (c_bank s) 130 = 13.
Proof. eexists. split; [vm_compute; reflexivity|]. vm_compute. repeat split. Qed.

(** With too small a deposit limit the inner contract is undone with the outer one; the
    third contract leaves, and its deposit goes back to the caller. *)
Example limits_run :
  bare_call false false 1 31 4 sample_gas (Some 12) [1; 2; 3] Enforced live_store =
    Ok (mkContractResult (mkWeight 38 4) (mkWeight 38 4) (Charge 0)
          (RErr (cerr StorageDepositLimitExhausted))) live_store ∧
  bare_call true false 1 31 4 sample_gas None [] Enforced live_store =
    Ok (refused (cerr MigrationInProgress)) live_store ∧
  bare_call false true 1 31 4 sample_gas None [] Enforced live_store =
    Ok (mkContractResult weight_zero weight_zero (Charge 0) (RErr (cerr ReentranceDenied))) live_store ∧
  ∃ s, bare_call false false 1 32 0 sample_gas None [] Enforced live_store =
    Ok (mkContractResult (mkWeight 5 1) (mkWeight 5 1) (Refund 99) (ROk (mkReturn 0 []))) s ∧
    ContractInfoOf s !! 32 = None ∧ queue_next s = Some 132 ∧ purse_of (c_bank s) 1 = 10169.
Proof.
  split; [vm_compute; reflexivity|]. split; [vm_compute; reflexivity|]. split; [vm_compute; reflexivity|].
  eexists. split; [vm_compute; reflexivity|]. vm_compute. repeat split.
Qed.

Lemma toy_prices : 0 ≤ DepositPerByte ∧ 0 ≤ DepositPerItem ∧ 0 ≤ minimum_balance.
Proof. vm_compute. intuition discriminate. Qed.

Lemma live_typed : store_typed live_store.
Proof.
  unfold store_typed. cbn. repeat (apply map_Forall_insert_2; [vm_compute; intuition discriminate|]).
  apply map_Forall_empty.
Qed.

Lemma sample_gas_ok : is_weight sample_gas.
Proof. vm_compute. intuition discriminate. Qed.

Definition live_call : CallState := mkCall (gas_meter_new sample_gas) (meter_fresh 12 tt) live_store.

Lemma call_outcome_witness :
  ∃ e c', run_call (OriginSigned 1) 31 4 [1; 2; 3] Enforced live_call = Err e c' ∧
    settled 12 live_call false c' ∧ call_gas c' ≠ call_gas live_call.
Proof.
  pose proof (call_outcome toy_prices 12 live_call (gas_new_inv _ sample_gas_ok) live_typed ltac:(lia) eq_refl) as [Ho _].
  specialize (Ho (OriginSigned 1) 31 4 [1; 2; 3] Enforced).
  destruct (run_call (OriginSigned 1) 31 4 [1; 2; 3] Enforced live_call) as [out c'|e c'|] eqn:Hr;
    [vm_compute in Hr; discriminate Hr| |vm_compute in Hr; discriminate Hr].
  exists e, c'. split; [reflexivity|]. split; [exact Ho|].
  vm_compute in Hr. injection Hr as _ <-. vm_compute. discriminate.
Defined.

Lemma calls_never_trap_witness : run_call (OriginSigned 1) 31 4 [1; 2; 3] Enforced live_call ≠ Panic.
Proof. apply (calls_never_trap live_call). Defined.

#[local] Instance toy_link_laws : LinkLaws.
Proof. by intros m limits. Qed.

Lemma accepted_code_runs_witness :
  ∃ b, from_code (B := purse) [1] 1 Enforced = ROk b ∧
    ∃ m, new_module [1] Enforced = Some m ∧ load_module b CallFunction [7] = Some (Some (λ _, storing [7])).
Proof.
  eexists. split; [vm_compute; reflexivity|].
  edestruct (accepted_code_runs (B := purse) [1] 1 Enforced) as (m & Hm & Hl); [vm_compute; reflexivity|].
  exists m. split; [exact Hm|]. etransitivity; [exact Hl|]. injection Hm as <-. reflexivity.
Defined.


(** ** The registry *)

Definition registry_paid : RegistryContract :=
  mkContract [] [1] (mkAuthor 5 (Some 30)) None [] None default_metadata.

(** A 3VM whose registry has one contract. *)
#[local] Instance toy_3vm_config : ThreeVmConfig unit.
Proof.
  refine {| SignalBounceThreshold := 2;
            tv_fetch_contract_by_id h := if h =? 77 then mret registry_paid else throw UnknownContract |};
    intros; first [exact 0|exact (throw BadOrigin)].
Defined.

Definition both_pallets : Pallets (B := purse) (E := unit) := mkPallets live_store (mkThreeVm ∅ ∅ ∅ [] tt).

Lemma registry_never_instantiates_witness :
  ∃ e p', bare_instantiate false false 1 0 sample_gas None (Existing 77) [] [] both_pallets =
    Ok (mkContractResult weight_zero weight_zero (Charge 30) (RErr e)) p' ∧
    e = cerr Indeterministic ∧ p_contracts p' = live_store.
Proof.
  assert (∀ l, None = Some l → 0 ≤ l) as Hl by (intros l Hl; discriminate Hl).
  assert (0 ≤ DefaultDepositLimit) as Hd by (vm_compute; discriminate).
  destruct (try_instantiate_from_contracts_registry (B := purse) 1 77 (p_3vm both_pallets)) as [[b fee] t|e t|] eqn:Ht;
    [|vm_compute in Ht; discriminate Ht..].
  destruct (registry_never_instantiates false 1 0 sample_gas None 77 [] [] both_pallets b fee t Hl Hd Ht) as [e He].
  exists e, (mkPallets (p_contracts both_pallets) t). vm_compute in Ht. injection Ht as <- <- <-.
  split; [exact He|]. split; [|reflexivity]. vm_compute in He. injection He as <-. reflexivity.
Defined.

Lemma extension_reaches_nothing_witness :
  extension_call (throw BadOrigin) (throw BadOrigin) (throw BadOrigin) SUBMIT_FUNCTION_CODE tt =
    Ok (Converging (SUBMIT_FUNCTION_CODE mod 2 ^ 16)) tt.
Proof. apply (extension_reaches_nothing (throw BadOrigin)). vm_compute. split; discriminate. Defined.

(** ** A constructor that is entered twice *)

(** Contract 40 instantiates the code 50 and, when called with data, then reverts. *)
Definition creating (input : list Z) : Prog :=
  PInstantiate weight_zero 0 50 0 [] [] (λ _,
    match input with [] => PEnd 0 SandboxDone | _ => PEnd 0 (TrapReturn REVERT []) end).
(** Its constructor calls contract 40 back, unless it is already on the stack, and then reads
    its storage. *)
Definition calling_back : Prog :=
  PDo OpReentranceCount (λ n,
    if n =? 0 then
      PCall weight_zero 0 40 0 [1] true (λ _, PDo (OpGetStorage (KeyVar [7])) (λ _, PEnd 0 SandboxDone))
    else PEnd 0 SandboxDone).

#[local] Instance loud_engine : WasmEngine := {|
  wasm_program m f input fuel := match f with Constructor => calling_back | CallFunction => creating input end;
  instruction_base := 2;
|}.

Definition loud_store : Contracts purse :=
  mkContracts (<[1 := 10000]> (<[40 := 500]> ∅)) (<[40 := set_code_hash_of 49 (stored_info 140 0 0)]> ∅) ∅
    (<[49 := sample_code 1]> (<[50 := sample_code 1]> ∅)) (<[49 := [4]]> (<[50 := [5]]> ∅)) 0 ∅ 0 0 [].

(** The information on a contract under construction is not in storage.  While its constructor
    calls back, the same contract can be instantiated again, which makes the cache of the first
    constructor stale; when the caller in between reverts, the information is neither cached
    nor in storage, and the next access of the constructor traps. *)
Theorem constructor_reentry_traps :
  @run_call purse _ _ _ loud_engine (OriginSigned 1) 40 0 [] Enforced
    (mkCall (gas_meter_new sample_gas) (meter_fresh 5000 tt) loud_store) = Panic.
Proof. vm_compute. reflexivity. Qed.

(** Without the revert both instantiations succeed: one contract, counted twice among the
    users of its code and charged for twice. *)
Definition creating_twice (input : list Z) : Prog :=
  PInstantiate weight_zero 0 50 0 [] [] (λ _, PEnd 0 SandboxDone).
#[local] Instance twice_engine : WasmEngine := {|
  wasm_program m f input fuel := match f with Constructor => calling_back | CallFunction => creating_twice input end;
  instruction_base := 2;
|}.

Theorem instantiated_twice :
  ∃ out c, @run_call purse _ _ _ twice_engine (OriginSigned 1) 40 0 [] Enforced
      (mkCall (gas_meter_new sample_gas) (meter_fresh 5000 tt) loud_store) = Ok out c ∧
    refcount <$> CodeInfoOf loud_store !! 50 = Some 1 ∧ refcount <$> CodeInfoOf (call_store c) !! 50 = Some 3 ∧
    size (ContractInfoOf (call_store c)) = S (size (ContractInfoOf loud_store)) ∧
    total_deposit (call_storage c) = deposit_add instantiate_deposit instantiate_deposit.
Proof. do 2 eexists. split; [vm_compute; reflexivity|]. vm_compute. repeat split. Qed.
